(* ===== verification/_CoqProject ===== *)
-Q . S2P
Prelude.v
Program.v
Json.v
Types.v
Jobs.v
Auth.v
Redact.v
Config.v
Distro.v
ActionFamily.v
Framing.v
Ip.v
Signing.v
AuditChain.v
Anchor.v
Forward.v
Store.v
Watermark.v
Postgres.v
Actions.v
Executor.v
Catalogue.v
Validate.v
Params.v
Builder.v
Argv.v
Preview.v
Policy.v
Effects.v
Bindings.v
Dispatcher.v
Handlers.v
Supervision.v
Connection.v
Concurrency.v
OperatorText.v
Approval.v
Render.v
Unattended.v
Run.v
Sanitize.v
TextFile.v
RateLimit.v
Prefs.v
PlanTools.v
Planner.v
Wire.v
Client.v
Answers.v
Session.v
Collector.v
Report.v
Mcp.v
Shell.v
Cassette.v
SafetyLog.v
ErrorText.v
Providers.v
Startup.v
Fuzz.v
FuzzActions.v
Entry.v
KeyFiles.v
