(* ===== verification/Prelude.v ===== *)
(** * SysKnife: a verification development

    SysKnife turns a sentence into administrative actions on a Linux host. A
    language model proposes a plan; a person approves it; a privileged daemon runs
    the approved actions and keeps a signed record of everything it did. This
    library models the Rust code of that system and proves what makes it safe to
    run. File names below are under [src/].

    ** The program's parts and how they interact

    - The _brain_ (crates/sysknife-brain) asks the provider for a plan. It may call
      read-only query tools of the daemon on the way, and every text gathered from
      the host is screened before the provider sees it.
    - The _client_ (apps/sysknife-cli: the command line, and the MCP server for
      agents) shows the plan, asks for approval, and sends each step to the daemon.
    - The _daemon_ (crates/sysknife-daemon) serves framed JSON requests over a
      socket: it resolves who is calling, looks up the role an action needs,
      validates the parameters, builds the command line, previews, records,
      approves, executes, and keeps two hash chains of signed records, which are
      forwarded and anchored elsewhere.
    - The _desktop shell_ (apps/sysknife-shell) plans and executes over the same
      socket.
    - crates/sysknife-types and crates/sysknife-core hold what they share: roles,
      risks, envelopes, configuration, the detection of the distribution.

    A request goes [Client] to [Wire] and [Framing] (the bytes) to [Connection] (the
    loop of a connection) to [Dispatcher] (the handler), which reads the catalogue
    ([Catalogue], [Params], [Validate], [Builder], [Preview]), the policy
    ([Policy], [Auth]) and the store ([Store], over [AuditChain] and [Signing]) and
    runs the [Executor].

    ** How the code is modelled

    - Pure code is a function with the source's name, on the source's data: byte
      strings are [string], text whose rules are about characters is the list of
      its code points ([OperatorText.text]), machine integers are [N] or [Z] with
      their bounds, [Result] is [Prelude.result], and a slice that panics is [None].
    - Code that calls on the world is a program of named effects ([Program.prog]):
      a tree whose nodes are effects and whose branches are the answers. The
      effects are [Effects.Effect] (daemon), [Startup.StartEffect] (its start),
      [Run.ClientEffect] (client), [Planner]'s and those of the smaller parts. A
      theorem about such code speaks about every run: whatever the store, the host
      and other connections answer. [Program.holds] is the logic that proves them.
    - The executor is written in a state monad over [Executor.Host], a class of
      operations on an abstract machine, with laws for the clock.
    - Third-party code is a parameter. Ed25519, SHA-2, HMAC, HKDF and hex are
      [Signing.Crypto], with [CryptoLaws] (a verified signature was made by the key
      over that message; no two inputs of one hash that occur collide); serde_json's
      reader, the regular expressions, Unicode normalisation, the TOML reader and
      the [Debug] of floats are arguments. Every theorem with such a
      hypothesis has a witness over a concrete instance.

    ** Files

    Shared: [Prelude] (results, strings, digits, tactics, hints), [Program]
    (effectful programs), [TextFile] (files of lines).

    Types and configuration: [Json] (values, [canonical_json]), [Types]
    (sysknife-types/src/lib.rs), [Jobs] (jobs.rs), [Config] (sysknife-core: lib.rs,
    config.rs), [Distro] (distro.rs), [ActionFamily] (action_family.rs).

    The daemon's record: [Signing] and [AuditChain] (audit_chain.rs: what is signed,
    and its verification), [Anchor] (checkpoint_sink.rs), [Forward]
    (audit_forward.rs), [Watermark] (audit_watermark.rs), [Store]
    (transactions.rs; the tables are a record, each write transaction a function on
    it), [KeyFiles] (the file-system calls of audit_chain.rs and transactions.rs),
    [Postgres] (store/postgres.rs, pg_tls.rs: each operation as its statements,
    beside other writers of the database).

    The daemon's actions: [Actions] (actions/mod.rs), [Catalogue] (actions/*.rs, a
    Module for each), [Ip] and [Validate] (actions/validate.rs), [Params] and
    [Builder] (executor.rs, [build_action_spec] and its readers), [Argv] (no option
    injection), [Preview] (preview.rs), [Executor] (executor.rs: supervision),
    [Collector] (state_collector.rs).

    The daemon's requests: [Auth] (auth.rs), [Policy] (policy.rs), [Redact],
    [Bindings], [Effects], [Dispatcher] (dispatcher.rs), [Connection] (the dispatch
    loop and the accept loops of main.rs), [Startup] (the rest of main.rs,
    transport/listen.rs, state.rs). Theorems over these: [Handlers] (one
    request), [Supervision] (rollback on the executor), [Concurrency] (many requests
    over one store and one exclusion map, by a step relation), [Answers] (what each
    frame means), [Wire] (their JSON).

    The client: [OperatorText] (operator_text.rs), [Approval] (approval.rs, cli.rs,
    distro_routing.rs), [Entry] (main.rs, cli.rs, and in runner.rs the logger and the
    interactive loop), [Unattended] (unattended.rs), [Render] (render.rs), [Run]
    (runner.rs), [Client] (client.rs), [Session] (client and daemon together),
    [Report] (the audit subcommands of runner.rs and the audit report of
    mcp_server.rs), [Mcp] (the rest of mcp_server.rs), [Shell]
    (apps/sysknife-shell/src-tauri/src).

    The brain: [Sanitize] (sanitize.rs, tool_secrets.rs), [RateLimit]
    (rate_limit.rs), [Prefs] (prefs.rs), [PlanTools] (planning_tools), [Planner]
    (planner.rs), [Providers] (config.rs, providers/openai_adapter.rs,
    providers/rig_adapter.rs), [ErrorText] (providers/mod.rs), [Cassette]
    (cassette.rs), [SafetyLog] (audit.rs, journal.rs).

    The promises the repository's fuzz targets state: [Fuzz]
    (fuzz/fuzz_targets/validators.rs, frame_recv.rs) and [FuzzActions]
    (action_spec.rs).

    ** What the theorems show

    - Nothing runs that was not approved, by someone of the required role, for the
      same action and parameters, at most once, and with the privileged lock its
      command contends for ([Handlers], [Concurrency]); what may change a
      transaction is listed and authorised; the query path changes nothing.
    - The store refines the life cycle of [Jobs], and everything the daemon writes
      verifies ([Store]); a change, removal or reordering of what it wrote does not
      ([AuditChain], [Signing]). A table that has lost an anchored row is reported by
      every later round of anchoring and never verifies against the anchor; an emptied
      one is seen by the verification only ([Anchor]). Several writers of one PostgreSQL database keep the chains,
      and a writer alone gets what SQLite gives ([Postgres]). Wherever the making of
      the audit key is stopped, its file is the owner's alone and a key that was there
      is untouched; the key loaded is the one [Signing] speaks of ([KeyFiles]).
    - The daemon serves what its configuration asks for, with the trail open, the
      interrupted work looked after and the address bound, and takes the place of no
      socket that answers ([Startup]).
    - A command ends by its deadline and a teardown, is never reported stopped while
      its processes live ([Executor]), and the rollback waits for it
      ([Supervision]).
    - No parameter but the value of one of six flags starts with a dash in a command
      ([Argv]), the preview shows what runs ([Preview]), and a sudo grant is scoped
      ([Builder]).
    - What a validator accepts meets the contract the fuzz targets restate for it:
      character set, length, shape ([Fuzz]); no argument of a built command holds a
      NUL ([FuzzActions]).
    - A step of high risk runs after a yes read for it alone ([Run]); one key of an unattended run runs nothing
      ([Entry]); steps run in order and stop at a failure
      ([Run], [Mcp]); what the client reports is what the daemon did ([Session]),
      every request is answered once, and one that is refused has started no action ([Answers]).
    - What the provider is shown is screened ([Planner]), and what a tool of the MCP
      server returns is screened string by string or sealed in an envelope ([Mcp]);
      planning is bounded in turns, requests and sleeps, and its rate in every
      window ([RateLimit]). Both adapters carry the conversation whole ([Providers]),
      the credentials an error names in the known forms are cut out of it
      ([ErrorText]), a recorded session is replayed
      exactly ([Cassette]), and a rejection is dated and logged ([SafetyLog]).
    - A passing [sysknife audit verify] is worth its exit code, on SQLite and on
      PostgreSQL, and the two surfaces that report it agree ([Report]).

    ** Bounds and fuel

    [Executor.GRACE_POLLS] is the code's own loop bound (the grace period over the
    poll interval). [Executor.read_lines] takes fuel past the number of events still
    to come; [action_ends] gives it from the deadline. Scanners over strings
    ([Sanitize], [Validate], [Ip], [Distro]) take fuel past the length of the text
    and a lemma beside each shows that more fuel changes nothing or that the result
    exists. [Planner]'s turns and retries are the code's own bounds. A connection's
    loop follows the list of what its peer does.

    ** Not modelled, and why

    The SQL engine, the connection pool and the reading of database URLs ([Postgres]
    states what the server answers to one statement); the libraries that speak to
    language model services and the prose of prompts, schemas and doctor pages; the
    Tauri runtime and demonstration client of the desktop shell; signals of the
    daemon (an event of its accept loop in [Connection]); generated protobuf code;
    the end-to-end harness; the Python helpers the actions call; argument parsing and
    line editing of the command line (third-party libraries). The progress lines a
    client prints while it waits are printed by the model when the execution ends. *)

From Stdlib Require Import Ascii String ZArith NArith Lia.
From Stdlib Require Import DecimalString DecimalN DecimalFacts.
From stdpp Require Import base list strings gmap.

Declare Scope sysk_scope.
Delimit Scope sysk_scope with sysk.
#[global] Open Scope string_scope.
#[global] Open Scope nat_scope.
#[global] Open Scope list_scope.

#[global] Arguments String.append : simpl nomatch.

Create HintDb sysk.
Create HintDb sysk_str.

(** ** Results: Rust's [Result<A, E>] *)

Inductive result (E A : Type) : Type :=
| Ok (a : A)
| Err (e : E).
Arguments Ok {E A} a.
Arguments Err {E A} e.

#[export] Instance result_ret {E} : MRet (result E) := fun A a => Ok a.
#[export] Instance result_bind {E} : MBind (result E) := fun A B f r =>
  match r with Ok a => f a | Err e => Err e end.
#[export] Instance result_fmap {E} : FMap (result E) := fun A B f r =>
  match r with Ok a => Ok (f a) | Err e => Err e end.

Definition is_ok {E A} (r : result E A) : bool :=
  match r with Ok _ => true | Err _ => false end.

(** [ok_or]: [Option::ok_or] *)
Definition ok_or {E A} (e : E) (o : option A) : result E A :=
  match o with Some a => Ok a | None => Err e end.

#[export] Instance result_eq_dec {E A} `{EqDecision E, EqDecision A} :
  EqDecision (result E A).
Proof. solve_decision. Defined.

Lemma bind_Ok {E A B} (f : A -> result E B) r b :
  mbind f r = Ok b <-> exists a, r = Ok a /\ f a = Ok b.
Proof. destruct r; naive_solver. Qed.

Lemma bind_Err {E A B} (f : A -> result E B) r e :
  mbind f r = Err e <-> r = Err e \/ exists a, r = Ok a /\ f a = Err e.
Proof. destruct r; naive_solver. Qed.

Lemma is_ok_spec {E A} (r : result E A) : is_ok r = true <-> exists a, r = Ok a.
Proof. destruct r; naive_solver. Qed.

(** ** Case analysis on the code's tests *)

(** [split_tests H]: follow every [match] and [if] of [H] to the one branch
    that can produce its right-hand side. *)
Ltac split_tests H :=
  repeat (simpl in H; case_match; simplify_eq; try discriminate H).

(** [bools]: turn the connectives of boolean hypotheses into propositions. *)
Ltac bools :=
  repeat match goal with
  | H : _ && _ = true |- _ => apply andb_true_iff in H; destruct H
  | H : _ || _ = false |- _ => apply orb_false_iff in H; destruct H
  | H : negb _ = true |- _ => apply negb_true_iff in H
  | H : negb _ = false |- _ => apply negb_false_iff in H
  | H : bool_decide _ = true |- _ => apply bool_decide_eq_true in H
  | H : bool_decide _ = false |- _ => apply bool_decide_eq_false in H
  | H : (_ =? _)%string = true |- _ => apply String.eqb_eq in H
  | H : (_ =? _)%string = false |- _ => apply String.eqb_neq in H
  end.

(** ** Strings: the bytes of Rust's [&str] *)

Abbreviation bytes := (list ascii).
Abbreviation bytes_of := list_ascii_of_string.

Lemma bytes_of_inj s t : bytes_of s = bytes_of t -> s = t.
Proof.
  intros H. rewrite <-(string_of_list_ascii_of_string s),
    <-(string_of_list_ascii_of_string t). by rewrite H.
Qed.

Lemma bytes_of_app s t : bytes_of (s ++ t)%string = bytes_of s ++ bytes_of t.
Proof. induction s as [|c s IH]; simpl; [done|by rewrite IH]. Qed.

Fixpoint str_all (p : ascii -> bool) (s : string) : bool :=
  match s with
  | EmptyString => true
  | String c s' => p c && str_all p s'
  end.

Fixpoint str_exists (p : ascii -> bool) (s : string) : bool :=
  match s with
  | EmptyString => false
  | String c s' => p c || str_exists p s'
  end.

Definition str_has (c : ascii) (s : string) : bool := str_exists (Ascii.eqb c) s.

Definition is_empty (s : string) : bool :=
  match s with EmptyString => true | _ => false end.

Definition first_char (s : string) : option ascii :=
  match s with EmptyString => None | String c _ => Some c end.

Fixpoint last_char (s : string) : option ascii :=
  match s with
  | EmptyString => None
  | String c EmptyString => Some c
  | String _ s' => last_char s'
  end.

(** [&s[n..]] and [&s[..n]] *)
Definition str_drop (n : nat) (s : string) : string :=
  String.substring n (String.length s - n) s.
Definition str_take (n : nat) (s : string) : string := String.substring 0 n s.

Abbreviation starts_with := String.prefix.

Fixpoint ends_with (suf s : string) : bool :=
  (s =? suf)%string || match s with EmptyString => false | String _ s' => ends_with suf s' end.

Fixpoint contains (sub s : string) : bool :=
  String.prefix sub s || match s with EmptyString => false | String _ s' => contains sub s' end.

Fixpoint strip_prefix (p s : string) : option string :=
  match p, s with
  | EmptyString, _ => Some s
  | String a p', String b s' => if Ascii.eqb a b then strip_prefix p' s' else None
  | _, _ => None
  end.

Fixpoint strip_suffix (suf s : string) : option string :=
  if (s =? suf)%string then Some ""
  else match s with
       | EmptyString => None
       | String c s' => String c <$> strip_suffix suf s'
       end.

(** [s.split(c)]: never empty, ["" split] is [[""]]. *)
Fixpoint split_on (c : ascii) (s : string) : list string :=
  match s with
  | EmptyString => [EmptyString]
  | String a s' =>
      if Ascii.eqb a c then EmptyString :: split_on c s'
      else match split_on c s' with
           | [] => [String a EmptyString]
           | h :: t => String a h :: t
           end
  end.

(** [s.split_once(c)] *)
Fixpoint split_once (c : ascii) (s : string) : option (string * string) :=
  match s with
  | EmptyString => None
  | String a s' =>
      if Ascii.eqb a c then Some (EmptyString, s')
      else '(l, r) ← split_once c s'; Some (String a l, r)
  end.

Fixpoint count_char (c : ascii) (s : string) : nat :=
  match s with
  | EmptyString => 0
  | String a s' => (if Ascii.eqb a c then 1 else 0) + count_char c s'
  end.

Definition join (sep : string) (l : list string) : string := String.concat sep l.

Fixpoint str_map (f : ascii -> ascii) (s : string) : string :=
  match s with
  | EmptyString => EmptyString
  | String c s' => String (f c) (str_map f s')
  end.

(** *** ASCII classes: [char::is_ascii_*] on the byte *)

Definition between (lo hi : nat) (c : ascii) : bool :=
  let n := nat_of_ascii c in (lo <=? n) && (n <=? hi).
Definition is_digit (c : ascii) : bool := between 48 57 c.
Definition is_upper (c : ascii) : bool := between 65 90 c.
Definition is_lower (c : ascii) : bool := between 97 122 c.
Definition is_alpha (c : ascii) : bool := is_upper c || is_lower c.
Definition is_alnum (c : ascii) : bool := is_alpha c || is_digit c.
Definition is_hexdigit (c : ascii) : bool :=
  is_digit c || between 65 70 c || between 97 102 c.
(** [matches!(c, 'a' | 'b' | ...)] over the characters of [set] *)
Definition one_of (set : string) (c : ascii) : bool := str_has c set.

Definition char_lower (c : ascii) : ascii :=
  if is_upper c then ascii_of_nat (nat_of_ascii c + 32) else c.
Definition char_upper (c : ascii) : ascii :=
  if is_lower c then ascii_of_nat (nat_of_ascii c - 32) else c.
Definition to_lower (s : string) : string := str_map char_lower s.
Definition to_upper (s : string) : string := str_map char_upper s.
Definition eq_ignore_case (s t : string) : bool := (to_lower s =? to_lower t)%string.

(** [slice.contains(&s)] *)
Definition str_in (s : string) (l : list string) : bool := existsb (String.eqb s) l.

Lemma str_in_spec s l : str_in s l = true <-> s ∈ l.
Proof.
  unfold str_in. rewrite existsb_exists. split.
  - intros (x & Hx & E). apply String.eqb_eq in E. subst. by apply list_elem_of_In.
  - intros H. exists s. rewrite String.eqb_refl. split; [by apply list_elem_of_In|done].
Qed.

(** *** [str::trim]: Unicode [White_Space] in its UTF-8 encoding *)

Definition chr (n : nat) : ascii := ascii_of_nat n.
Definition enc (l : list nat) : string := string_of_list_ascii (map chr l).

(** Every [White_Space] character, as the bytes [&str] holds. *)
Definition whitespace_encodings : list string :=
  map (fun n => enc [n]) [9; 10; 11; 12; 13; 32]
  ++ [enc [194; 133]; enc [194; 160]; enc [225; 154; 128]]
  ++ map (fun n => enc [226; 128; n]) (seq 128 11)
  ++ [enc [226; 128; 168]; enc [226; 128; 169]; enc [226; 128; 175];
      enc [226; 129; 159]; enc [227; 128; 128]].

Fixpoint find_map {A B} (f : A -> option B) (l : list A) : option B :=
  match l with
  | [] => None
  | x :: l' => match f x with Some b => Some b | None => find_map f l' end
  end.

(** [fuel] is the length of the string: every round removes at least a byte. *)
Fixpoint trim_start_go (fuel : nat) (s : string) : string :=
  match fuel with
  | O => s
  | S fuel' =>
      match find_map (fun w => strip_prefix w s) whitespace_encodings with
      | Some s' => trim_start_go fuel' s'
      | None => s
      end
  end.

Fixpoint trim_end_go (fuel : nat) (s : string) : string :=
  match fuel with
  | O => s
  | S fuel' =>
      match find_map (fun w => strip_suffix w s) whitespace_encodings with
      | Some s' => trim_end_go fuel' s'
      | None => s
      end
  end.

Definition str_trim (s : string) : string :=
  let s := trim_start_go (String.length s) s in
  trim_end_go (String.length s) s.

(** *** [str::lines], [str::splitn], [str::split_whitespace] *)

Definition LF : ascii := chr 10.
Definition CR : ascii := chr 13.

(** A line ends with LF or CR LF; a last line without LF keeps its CR, and an
    empty one after the last LF is not a line. *)
Fixpoint lines_of_pieces (l : list string) : list string :=
  match l with
  | [] => []
  | [last] => if is_empty last then [] else [last]
  | p :: l' => default p (strip_suffix (String CR "") p) :: lines_of_pieces l'
  end.
Definition lines (s : string) : list string := lines_of_pieces (split_on LF s).

(** [splitn(n, c)] for [n >= 1]: at most [n] pieces, the last one holds the
    rest. *)
Fixpoint splitn (n : nat) (c : ascii) (s : string) : list string :=
  match n with
  | O => []
  | S O => [s]
  | S n' => match split_once c s with
            | Some (l, r) => l :: splitn n' c r
            | None => [s]
            end
  end.

Definition flush (cur : string) (rest : list string) : list string :=
  if is_empty cur then rest else cur :: rest.

(** [cur] is the word read so far; [fuel] is the length of the string. *)
Fixpoint split_ws_go (fuel : nat) (cur s : string) : list string :=
  match fuel with
  | O => flush cur []
  | S fuel' =>
      match find_map (fun w => strip_prefix w s) whitespace_encodings with
      | Some s' => flush cur (split_ws_go fuel' "" s')
      | None =>
          match s with
          | EmptyString => flush cur []
          | String a s' => split_ws_go fuel' (cur ++ String a "")%string s'
          end
      end
  end.
Definition split_whitespace (s : string) : list string := split_ws_go (String.length s) "" s.

(** [s.trim_start_matches(p)]: every leading copy of the non-empty [p]. *)
Fixpoint trim_start_matches_go (fuel : nat) (p s : string) : string :=
  match fuel with
  | O => s
  | S fuel' => match strip_prefix p s with
               | Some s' => trim_start_matches_go fuel' p s'
               | None => s
               end
  end.
Definition trim_start_matches (p s : string) : string :=
  trim_start_matches_go (String.length s) p s.

(** [s.trim_end_matches(p)] *)
Fixpoint trim_end_while (p : ascii -> bool) (s : string) : string :=
  match s with
  | EmptyString => EmptyString
  | String c s' =>
      match trim_end_while p s' with
      | EmptyString => if p c then EmptyString else String c EmptyString
      | t => String c t
      end
  end.

(** *** Unsigned decimal: [to_string] and [str::parse::<uN>] *)

Definition dec_of_N (n : N) : string := NilZero.string_of_uint (N.to_uint n).
Definition dec_of_Z (z : Z) : string :=
  if (z <? 0)%Z then ("-" ++ dec_of_N (Z.to_N (- z)))%string else dec_of_N (Z.to_N z).

(** [parse::<uN>()]: an optional [+], at least one digit, no overflow past
    [max]. *)
Definition parse_uint (max : N) (s : string) : option N :=
  let digits := match strip_prefix "+" s with Some d => d | None => s end in
  match NilZero.uint_of_string digits with
  | Some d => let n := N.of_uint d in if (n <=? max)%N then Some n else None
  | None => None
  end.

Definition U32_MAX : N := 4294967295.
Definition U64_MAX : N := 18446744073709551615.
Definition parse_u32 : string -> option N := parse_uint U32_MAX.
Definition parse_u64 : string -> option N := parse_uint U64_MAX.

(** *** Formatted text

    What [format!] builds for an operator to read: literal pieces (numbers
    already in decimal), and strings shown with their [Debug] rendering, which
    is left symbolic. *)

Inductive piece : Type :=
| Lit (s : string)
| Dbg (s : string).
Definition text : Type := list piece.
(** Plain text. *)
Definition lit (s : string) : text := [Lit s].

#[export] Instance piece_eq_dec : EqDecision piece.
Proof. solve_decision. Defined.

Fixpoint text_join (sep : text) (l : list text) : text :=
  match l with
  | [] => []
  | [t] => t
  | t :: l' => t ++ sep ++ text_join sep l'
  end.

(** *** Laws of the string operations *)

Lemma str_all_mono (p q : ascii -> bool) s :
  (forall c, p c = true -> q c = true) -> str_all p s = true -> str_all q s = true.
Proof. intros Hpq. induction s as [|c s IH]; simpl; [done|]. intros H. bools. by rewrite Hpq, IH. Qed.

Lemma str_all_elem (p : ascii -> bool) s :
  str_all p s = true <-> Forall (fun c => p c = true) (bytes_of s).
Proof.
  induction s as [|c s IH]; simpl; [by split|].
  rewrite andb_true_iff, IH, Forall_cons. done.
Qed.

Lemma str_all_not_has (p : ascii -> bool) c s :
  p c = false -> str_all p s = true -> str_has c s = false.
Proof.
  intros Hc. unfold str_has. induction s as [|d s IH]; simpl; [done|]. intros H. bools.
  rewrite IH by done. destruct (Ascii.eqb c d) eqn:E; [|done].
  apply Ascii.eqb_eq in E. congruence.
Qed.

Lemma str_has_spec c s : str_has c s = true <-> c ∈ bytes_of s.
Proof.
  unfold str_has. induction s as [|d s IH]; simpl.
  - split; [done|]. intros H. inversion H.
  - rewrite orb_true_iff, elem_of_cons, IH, Ascii.eqb_eq. done.
Qed.

Lemma str_app_nil s : (s ++ "")%string = s.
Proof. induction s as [|c s IH]; simpl; [done|by rewrite IH]. Qed.

Lemma str_app_assoc s t u : ((s ++ t) ++ u)%string = (s ++ (t ++ u))%string.
Proof. induction s as [|c s IH]; simpl; [done|by rewrite IH]. Qed.

Lemma prefix_spec p s : String.prefix p s = true <-> exists t, s = (p ++ t)%string.
Proof.
  revert s. induction p as [|a p IH]; intros s.
  - split; [by exists s|destruct s; done].
  - destruct s as [|b s]; simpl; [split; [done|by intros [t ?]]|].
    case_match eqn:E.
    + subst. rewrite IH. split; intros [t Ht]; exists t; congruence.
    + split; [done|]. intros [t Ht]. congruence.
Qed.

Lemma strip_prefix_spec p s t : strip_prefix p s = Some t <-> s = (p ++ t)%string.
Proof.
  revert s. induction p as [|a p IH]; intros s; simpl; [naive_solver|].
  destruct s as [|b s]; [naive_solver|].
  destruct (Ascii.eqb_spec a b) as [->|Hne].
  - rewrite IH. naive_solver.
  - naive_solver.
Qed.

Lemma strip_prefix_prefix p s :
  String.prefix p s = true <-> exists t, strip_prefix p s = Some t.
Proof.
  rewrite prefix_spec. split; intros [t Ht]; exists t; by apply strip_prefix_spec.
Qed.

Lemma contains_spec sub s :
  contains sub s = true <-> exists a b, s = (a ++ sub ++ b)%string.
Proof.
  induction s as [|c s IH]; cbn [contains]; rewrite orb_true_iff, prefix_spec.
  - split.
    + intros [[t Ht]|]; [|done]. exists "", t. done.
    + intros (a & b & E). left. destruct a; [|done]. by exists b.
  - rewrite IH. split.
    + intros [[t Ht]|(a & b & E)]; [by exists "", t|]. subst. by exists (String c a), b.
    + intros (a & b & E). destruct a as [|d a]; simplify_eq/=; [left; by exists b|].
      right. by exists a, b.
Qed.

Lemma strip_suffix_spec suf s t : strip_suffix suf s = Some t <-> s = (t ++ suf)%string.
Proof.
  revert t. induction s as [|c s IH]; intros t; cbn [strip_suffix].
  - case_match eqn:E; bools; subst.
    + split; [by intros; simplify_eq|]. intros H. by destruct t.
    + split; [done|]. intros H. destruct t; simplify_eq/=.
  - case_match eqn:E; bools.
    + subst. split; [by intros; simplify_eq|]. intros H.
      destruct t as [|d t]; [done|]. exfalso. simpl in H. simplify_eq.
      assert (Hl : forall a b : string, String.length (a ++ b)%string
        = String.length a + String.length b)
        by (intros a b; induction a; simpl; lia).
      pose proof (f_equal String.length H0) as HL. rewrite Hl in HL. simpl in HL. lia.
    + rewrite fmap_Some. split.
      * intros (x & Hx & ->). apply IH in Hx. by subst.
      * intros H. destruct t as [|d t]; simplify_eq/=. exists t. by rewrite IH.
Qed.

Lemma ends_with_spec suf s : ends_with suf s = true <-> exists t, s = (t ++ suf)%string.
Proof.
  induction s as [|c s IH]; cbn [ends_with]; rewrite orb_true_iff, String.eqb_eq.
  - split; [intros [<-|]; [by exists ""|done]|].
    intros [[|d t] Ht]; simplify_eq/=. by left.
  - rewrite IH. split.
    + intros [<-|[t ->]]; [by exists ""|by exists (String c t)].
    + intros [[|d t] Ht]; simplify_eq/=; [by left|right; by exists t].
Qed.

Lemma length_str_app (s t : string) :
  String.length (s ++ t)%string = String.length s + String.length t.
Proof. induction s as [|c s IH]; simpl; [done|by rewrite IH]. Qed.

Lemma length_bytes_of s : length (bytes_of s) = String.length s.
Proof. induction s as [|c s IH]; simpl; [done|by rewrite IH]. Qed.

Lemma str_all_app p s t : str_all p (s ++ t)%string = str_all p s && str_all p t.
Proof. induction s as [|c s IH]; simpl; [done|by rewrite IH, andb_assoc]. Qed.

Lemma split_on_not_nil c s : split_on c s <> [].
Proof. destruct s as [|a s]; simpl; [done|]. repeat case_match; done. Qed.

Lemma split_on_none c s : str_has c s = false -> split_on c s = [s].
Proof.
  induction s as [|a s IH]; [done|]. unfold str_has in *. cbn [str_exists split_on].
  intros [Ha Hs]%orb_false_iff. rewrite (IH Hs), Ascii.eqb_sym, Ha. done.
Qed.

Lemma split_on_app c s t : split_on c (s ++ String c t)%string = split_on c s ++ split_on c t.
Proof.
  induction s as [|a s IH]; cbn [String.append split_on]; [by rewrite Ascii.eqb_refl|].
  rewrite IH. destruct (Ascii.eqb a c) eqn:E; [done|].
  pose proof (split_on_not_nil c s). by destruct (split_on c s).
Qed.

(** Splitting and joining with the same separator is the identity. *)
Lemma join_split_on c s : join (String c "") (split_on c s) = s.
Proof.
  unfold join. induction s as [|a s IH]; [done|]. cbn [split_on].
  destruct (Ascii.eqb_spec a c) as [->|Hne].
  - destruct (split_on c s) as [|h t] eqn:E; [by destruct (split_on_not_nil c s)|].
    cbn in *. by rewrite IH.
  - destruct (split_on c s) as [|h t] eqn:E; [by destruct (split_on_not_nil c s)|].
    destruct t; cbn in *; by rewrite IH.
Qed.

Lemma split_on_pieces c s : Forall (fun p => str_has c p = false) (split_on c s).
Proof.
  induction s as [|a s IH]; cbn [split_on]; [by repeat constructor|].
  destruct (Ascii.eqb_spec a c) as [->|Hne]; [by constructor|].
  destruct (split_on c s) as [|h t]; inversion IH; subst; constructor; try done.
  - unfold str_has. simpl. destruct (Ascii.eqb_spec c a); [congruence|done].
  - unfold str_has in *. simpl. destruct (Ascii.eqb_spec c a); [congruence|done].
Qed.

Lemma split_once_spec c s l r :
  split_once c s = Some (l, r) <-> s = (l ++ String c r)%string /\ str_has c l = false.
Proof.
  revert l. induction s as [|a s IH]; intros l; simpl; [split; [done|]; intros [H _]; by destruct l|].
  destruct (Ascii.eqb_spec a c) as [->|Hne].
  - split; [intros; by simplify_eq|].
    intros [H1 H2]. destruct l as [|b l]; simplify_eq/=; [done|].
    unfold str_has in H2. simpl in H2. by rewrite Ascii.eqb_refl in H2.
  - destruct (split_once c s) as [[l' r']|] eqn:E; simpl.
    + split.
      * intros; simplify_eq. destruct (IH l') as [[-> Hl] _]; [done|]. split; [done|].
        unfold str_has in *. simpl. destruct (Ascii.eqb_spec c a); [congruence|done].
      * intros [H1 H2]. destruct l as [|b l]; simplify_eq/=.
        unfold str_has in *. simpl in H2. bools. destruct (IH l) as [_ Hi].
        specialize (Hi (conj eq_refl H0)). by simplify_eq.
    + split; [done|]. intros [H1 H2]. destruct l as [|b l]; simplify_eq/=.
      unfold str_has in *. simpl in H2. bools. destruct (IH l) as [_ Hi].
      by specialize (Hi (conj eq_refl H0)).
Qed.

Lemma to_uint_not_Nil n : N.to_uint n <> Decimal.Nil.
Proof.
  intros H. pose proof (DecimalN.Unsigned.to_of (N.to_uint n)) as E.
  rewrite DecimalN.Unsigned.of_to in E. rewrite H in E at 2. rewrite H in E. done.
Qed.

Lemma parse_dec_of_N max n : (n <= max)%N -> parse_uint max (dec_of_N n) = Some n.
Proof.
  intros Hn. unfold parse_uint, dec_of_N.
  pose proof (to_uint_not_Nil n) as Hnil.
  assert (Hplus : strip_prefix "+" (NilZero.string_of_uint (N.to_uint n)) = None).
  { destruct (N.to_uint n); try done; simpl. }
  rewrite Hplus, NilZero.usu by done. cbv zeta. rewrite DecimalN.Unsigned.of_to.
  by destruct (N.leb_spec n max); [|lia].
Qed.

Lemma dec_of_N_inj n m : dec_of_N n = dec_of_N m -> n = m.
Proof.
  intros H. pose proof (parse_dec_of_N (N.max n m) n ltac:(lia)) as P1.
  pose proof (parse_dec_of_N (N.max n m) m ltac:(lia)) as P2. rewrite H in P1. congruence.
Qed.

Lemma parse_uint_bound max s n : parse_uint max s = Some n -> (n <= max)%N.
Proof.
  unfold parse_uint. intros H. repeat case_match; simplify_eq; by apply N.leb_le.
Qed.

Lemma dec_of_N_digits n : str_all is_digit (dec_of_N n) = true.
Proof.
  unfold dec_of_N. pose proof (to_uint_not_Nil n). generalize dependent (N.to_uint n).
  intros d Hd. destruct d; try done; simpl; try (by destruct Hd);
  match goal with |- str_all _ ?s = true => idtac | _ => idtac end;
  cut (str_all is_digit (NilEmpty.string_of_uint d) = true); try done;
  clear; induction d; done.
Qed.

#[export] Hint Rewrite String.eqb_refl str_app_nil length_str_app str_all_app : sysk_str.
#[export] Hint Resolve parse_dec_of_N : sysk.
