(* ===== verification/Program.v ===== *)
(** * Effectful programs

    Programs that call on the world, as trees: either a result, or an effect and
    what to do with each answer to it. The effects are a parameter. A tree has no
    loop, so a program that is a tree ends.

    [holds] is the logic the properties are stated in: along every path of a
    program, whatever the answers, each effect is allowed by what happened so far
    and the result satisfies a postcondition. [Monitor] fixes what is remembered
    ([next]) and what is allowed ([allow]). *)

From stdpp Require Import base list.
From S2P Require Import Prelude.

Inductive prog (F : Type -> Type) (A : Type) : Type :=
| Ret (a : A)
| Vis {X : Type} (e : F X) (k : X -> prog F A).
Arguments Ret {F A} a.
Arguments Vis {F A X} e k.

Definition call {F : Type -> Type} {X} (e : F X) : prog F X := Vis e Ret.

#[export] Instance prog_ret {F} : MRet (prog F) := fun A a => Ret a.
#[export] Instance prog_bind {F} : MBind (prog F) :=
  fun A B f => fix go p := match p with Ret a => f a | Vis e k => Vis e (fun x => go (k x)) end.

(** [for x in l { body }] *)
Fixpoint for_each {F A} (l : list A) (body : A -> prog F ()) : prog F () :=
  match l with
  | [] => Ret tt
  | a :: l' => _ ← body a; for_each l' body
  end.

(** A run: the effects of one path with the answers they got, and its result. *)
Record event (F : Type -> Type) : Type := mkEvent {
  ev_type : Type; ev_effect : F ev_type; ev_answer : ev_type }.
Arguments mkEvent {F} ev_type ev_effect ev_answer.
Arguments ev_type {F} e. Arguments ev_effect {F} e. Arguments ev_answer {F} e.

Inductive runs {F A} : prog F A -> list (event F) -> A -> Prop :=
| runs_ret a : runs (Ret a) [] a
| runs_vis X (e : F X) k x tr a :
    runs (k x) tr a -> runs (Vis e k) (mkEvent X e x :: tr) a.

(** What a run of a program is, by the program's form. *)
Lemma runs_inv {F A} (p : prog F A) tr a :
  runs p tr a ->
  match p with
  | Ret b => tr = [] /\ a = b
  | Vis e k => exists x tr', tr = mkEvent _ e x :: tr' /\ runs (k x) tr' a
  end.
Proof. destruct 1; [done|]. by eauto. Qed.

Lemma runs_ret_iff {F : Type -> Type} {A} (a b : A) (tr : list (event F)) : runs (Ret a) tr b <-> tr = [] /\ b = a.
Proof. split; [exact (runs_inv (Ret a) tr b)|]. intros [-> ->]. constructor. Qed.

(** [p] did [tr] and goes on as [q]. *)
Inductive reaches {F : Type -> Type} {A} : prog F A -> list (event F) -> prog F A -> Prop :=
| reaches_here p : reaches p [] p
| reaches_step X (e : F X) k x tr q : reaches (k x) tr q -> reaches (Vis e k) (mkEvent X e x :: tr) q.

Lemma reaches_runs {F A} (p : prog F A) tr a : runs p tr a <-> reaches p tr (Ret a).
Proof.
  split.
  - induction 1; by constructor.
  - intros H. remember (Ret a) as q eqn:Hq. induction H; subst; constructor. by apply IHreaches.
Qed.

(** The event at an index, as a split of the run. *)
Lemma event_at {F : Type -> Type} (tr : list (event F)) n ev :
  tr !! n = Some ev -> tr = take n tr ++ ev :: drop (S n) tr.
Proof. intros E. by rewrite take_drop_middle. Qed.

(** A sequential interpreter, for running a handler on given answers. *)
Definition oracle (F : Type -> Type) : Type := forall X, nat -> F X -> X.
Fixpoint interp {F A} (o : oracle F) (i : nat) (p : prog F A) : list (event F) * A :=
  match p with
  | Ret a => ([], a)
  | Vis e k => let x := o _ i e in
               let '(tr, a) := interp o (S i) (k x) in (mkEvent _ e x :: tr, a)
  end.

Lemma interp_runs {F A} o i (p : prog F A) : runs p (interp o i p).1 (interp o i p).2.
Proof.
  revert i. induction p as [a|X e k IH]; intros i; [constructor|]. cbn [interp].
  pose proof (IH (o X i e) (S i)) as H. destruct (interp o (S i) (k (o X i e))) as [tr a].
  by constructor.
Qed.

(** A run of a composition is a run of its parts. *)
Lemma runs_bind {F A B} (p : prog F A) (f : A -> prog F B) tr b :
  runs (p ≫= f) tr b <-> exists t tr' a, tr = t ++ tr' /\ runs p t a /\ runs (f a) tr' b.
Proof.
  split.
  - revert tr. induction p as [a|X e k IH]; intros tr Hr.
    + exists [], tr, a. split_and!; [done|constructor|done].
    + apply runs_inv in Hr as (x & tr' & -> & Hr).
      destruct (IH x _ Hr) as (t & u & a & -> & Hk & Hf).
      exists (mkEvent X e x :: t), u, a. split_and!; [done|by constructor|done].
  - intros (t & tr' & a & -> & Hp & Hf). induction Hp; [done|]. cbn. constructor. auto.
Qed.

(** ** The logic *)

Record Monitor (F : Type -> Type) (G : Type) : Type := mkMonitor {
  allow : forall X, G -> F X -> Prop;
  next : forall X, G -> F X -> X -> G }.
Arguments mkMonitor {F} G allow next.
Arguments allow {F G} m {X} g e.
Arguments next {F G} m {X} g e x.

Section Logic.
Context {F : Type -> Type} {G : Type} (m : Monitor F G).

Fixpoint holds {A} (post : G -> A -> Prop) (g : G) (p : prog F A) : Prop :=
  match p with
  | Ret a => post g a
  | Vis e k => allow m g e /\ forall x, holds post (next m g e x) (k x)
  end.

Lemma holds_mono {A} (post post' : G -> A -> Prop) g p :
  (forall g a, post g a -> post' g a) -> holds post g p -> holds post' g p.
Proof.
  intros Hp. revert g. induction p as [a|X e k IH]; intros g; cbn; [by apply Hp|].
  intros [Ha Hk]. split; [done|]. intros x. by apply IH.
Qed.

Lemma holds_bind {A B} (post : G -> B -> Prop) (f : A -> prog F B) g p :
  holds (fun g a => holds post g (f a)) g p -> holds post g (p ≫= f).
Proof.
  revert g. induction p as [a|X e k IH]; intros g; cbn; [done|].
  intros [Ha Hk]. split; [done|]. intros x. by apply IH.
Qed.

Lemma holds_call {A X} (post : G -> A -> Prop) (e : F X) (f : X -> prog F A) g :
  allow m g e -> (forall x, holds post (next m g e x) (f x)) ->
  holds post g (call e ≫= f).
Proof. done. Qed.

(** What the monitor remembers after a run. *)
Fixpoint after (g : G) (tr : list (event F)) : G :=
  match tr with
  | [] => g
  | mkEvent X e x :: tr' => after (next m g e x) tr'
  end.

Lemma holds_runs {A} (post : G -> A -> Prop) g p tr (a : A) :
  holds post g p -> runs p tr a ->
  post (after g tr) a
  /\ forall pre X (e : F X) x suf, tr = pre ++ mkEvent X e x :: suf -> allow m (after g pre) e.
Proof.
  intros Hh Hr. revert g Hh. induction Hr as [a|X e k x tr a Hr IH]; intros g Hh.
  - split; [done|]. intros [|? pre]; done.
  - destruct Hh as [Ha Hk]. destruct (IH _ (Hk x)) as [Hpost Hpre]. split; [done|].
    intros [|ev pre] X' e' x' suf E; cbn in E.
    + pose proof (f_equal (fun l => match l with ev :: _ => allow m g (ev_effect ev) | [] => True end) E)
        as HE. cbn in HE. cbn. by rewrite <-HE.
    + injection E as <- E. cbn [after]. by apply (Hpre pre X' e' x' suf).
Qed.
End Logic.

Lemma holds_ret {F G} (m : Monitor F G) {A} (post : G -> A -> Prop) g a :
  post g a -> holds m post g (Ret a).
Proof. done. Qed.

Lemma holds_perform {F G} (m : Monitor F G) {X} (post : G -> X -> Prop) (e : F X) g :
  allow m g e -> (forall x, post (next m g e x) x) -> holds m post g (call e).
Proof. done. Qed.

(** *** The history monitor: what is remembered is the whole run so far *)

Definition history {F : Type -> Type} (P : forall X, list (event F) -> F X -> Prop) : Monitor F (list (event F)) :=
  mkMonitor (list (event F)) P (fun X g e x => g ++ [mkEvent X e x]).

Lemma after_history {F} (P : forall X, list (event F) -> F X -> Prop) tr : forall g, after (history P) g tr = g ++ tr.
Proof.
  induction tr as [|[X e x] tr IH]; intros g; cbn; [by rewrite app_nil_r|].
  by rewrite IH, <-app_assoc.
Qed.

Lemma history_runs {F A} (P : forall X, list (event F) -> F X -> Prop) (post : list (event F) -> A -> Prop) (p : prog F A) tr a :
  holds (history P) post [] p -> runs p tr a ->
  post tr a
  /\ forall pre X (e : F X) x suf, tr = pre ++ mkEvent X e x :: suf -> P X pre e.
Proof.
  intros Hh Hr. destruct (holds_runs _ _ _ _ _ _ Hh Hr) as [Hp Ha].
  rewrite after_history in Hp. split; [done|]. intros pre X e x suf E.
  specialize (Ha pre X e x suf E). by rewrite after_history in Ha.
Qed.

(** What is allowed after a given beginning may be weakened by what the beginning says. *)
Lemma history_mono {F A} (P P' : forall X, list (event F) -> F X -> Prop) (post : list (event F) -> A -> Prop) g p :
  (forall X pre (e : F X), g `prefix_of` pre -> P X pre e -> P' X pre e) ->
  holds (history P) post g p -> holds (history P') post g p.
Proof.
  intros HP. enough (forall g', g `prefix_of` g' -> holds (history P) post g' p -> holds (history P') post g' p)
    as Hgen by by apply Hgen.
  induction p as [a|X e k IH]; intros g' Hg; cbn; [done|]. intros [He Hk].
  split; [by apply HP|]. intros x. apply IH; [by apply prefix_app_r|by apply Hk].
Qed.

(** *** Programs all of whose effects are of one kind *)

Fixpoint only {F A} (Q : forall X, F X -> Prop) (p : prog F A) : Prop :=
  match p with
  | Ret _ => True
  | Vis e k => Q _ e /\ forall x, only Q (k x)
  end.

Lemma only_bind {F A B} (Q : forall X, F X -> Prop) (p : prog F A) (f : A -> prog F B) :
  only Q p -> (forall a, only Q (f a)) -> only Q (p ≫= f).
Proof.
  intros Hp Hf. induction p as [a|X e k IH]; [apply Hf|]. destruct Hp as [He Hk].
  split; [done|]. intros x. by apply IH.
Qed.

Lemma only_call {F : Type -> Type} {X} (Q : forall X, F X -> Prop) (e : F X) : Q X e -> only Q (call e).
Proof. by split. Qed.

Lemma only_ret {F A} (Q : forall X, F X -> Prop) (a : A) : only Q (Ret a).
Proof. done. Qed.

Lemma only_for_each {F A} (Q : forall X, F X -> Prop) (l : list A) body : (forall a, only Q (body a)) -> only Q (for_each l body).
Proof. intros Hb. induction l; cbn [for_each]; [done|]. by apply only_bind. Qed.

Lemma only_mono {F A} (Q Q' : forall X, F X -> Prop) (p : prog F A) :
  (forall X e, Q X e -> Q' X e) -> only Q p -> only Q' p.
Proof. intros HQ. induction p as [a|X e k IH]; [done|]. intros [He Hk]. split; auto. Qed.

(** A program of allowed effects meets any postcondition that its effects keep. *)
Lemma holds_only {F G} (m : Monitor F G) {A} (Q : forall X, F X -> Prop)
    (inv : G -> Prop) (post : G -> A -> Prop) g p :
  only Q p -> inv g ->
  (forall X g (e : F X), Q X e -> inv g -> allow m g e /\ forall x, inv (next m g e x)) ->
  (forall g a, inv g -> post g a) -> holds m post g p.
Proof.
  intros Hp Hi HQ Hpost. revert g Hi Hp. induction p as [a|X e k IH]; intros g Hi Hp; cbn.
  - by apply Hpost.
  - destruct Hp as [He Hk]. destruct (HQ X g e He Hi) as [Ha Hn]. split; [done|]. intros x.
    by apply IH.
Qed.

(** Effects that are always allowed only extend the history. *)
Lemma history_only {F A} (P : forall X, list (event F) -> F X -> Prop) (Q : forall X, F X -> Prop)
    (post : list (event F) -> A -> Prop) g p :
  only Q p -> (forall X pre (e : F X), g `prefix_of` pre -> Q X e -> P X pre e) ->
  (forall g' a, g `prefix_of` g' -> post g' a) -> holds (history P) post g p.
Proof.
  intros Hp HQ Hpost. apply (holds_only _ Q (fun g' => g `prefix_of` g') _ _ _ Hp); [done| |by intros; apply Hpost].
  intros X g' e He Hg. split; [by apply HQ|]. intros x. by apply prefix_app_r.
Qed.

Lemma only_runs {F A} (Q : forall X, F X -> Prop) (p : prog F A) tr a :
  only Q p -> runs p tr a -> Forall (fun ev => Q _ (ev_effect ev)) tr.
Proof.
  intros Hp Hr. induction Hr as [a|X e k x tr a Hr IH]; [done|]. destruct Hp as [He Hk].
  constructor; [done|]. by apply IH.
Qed.

(** One step of a proof about a program, by its outermost form. *)
Ltac hstep :=
  match goal with
  | |- holds _ _ _ (_ ≫= _) => apply holds_bind; cbv beta
  | |- holds _ _ _ (call _) => apply holds_perform; [|intros ?]
  | |- holds _ _ _ (Ret _) => apply holds_ret
  | |- holds _ _ _ (match ?x with _ => _ end) => destruct x eqn:?
  | |- holds _ _ _ (let '(_, _) := ?x in _) => destruct x eqn:?
  end.

(** All the steps before the next branch whose effects are trivially allowed. *)
Ltac hgo :=
  repeat match goal with
    | |- holds _ _ _ (_ ≫= _) => apply holds_bind; cbv beta
    | |- holds _ _ _ (call _) => apply holds_perform; [exact I|intros ?; cbv beta; cbn [next history]]
    | |- holds _ _ _ (Ret _) => apply holds_ret; cbv beta
    end.

Ltac ostep :=
  match goal with
  | |- only _ (_ ≫= _) => apply only_bind; [|intros ?]
  | |- only _ (call _) => apply only_call
  | |- only _ (Ret _) => apply only_ret
  | |- only _ (for_each _ _) => apply only_for_each; intros ?
  | |- only _ (match ?x with _ => _ end) => destruct x eqn:?
  end.
