(* ===== verification/Json.v ===== *)
(** * JSON values

    [serde_json::Value] as the daemon handles it, its accessors, and
    [canonical_json] (crates/sysknife-daemon/src/dispatcher.rs), the text the
    request hash is computed over. *)

From stdpp Require Import base list strings sorting.
From S2P Require Import Prelude.

(** [serde_json::Number]: an unsigned or negative integer, or a float by its
    IEEE bits. *)
Inductive jnum : Type :=
| NPos (n : N)
| NNeg (z : Z)
| NFloat (bits : Z).

(** [serde_json::Value]; an object lists its entries. *)
Inductive json : Type :=
| JNull
| JBool (b : bool)
| JNum (n : jnum)
| JStr (s : string)
| JArr (l : list json)
| JObj (m : list (string * json)).

Section JsonInd.
Variable P : json -> Prop.
Hypothesis Hnull : P JNull.
Hypothesis Hbool : forall b, P (JBool b).
Hypothesis Hnum : forall n, P (JNum n).
Hypothesis Hstr : forall s, P (JStr s).
Hypothesis Harr : forall l, Forall P l -> P (JArr l).
Hypothesis Hobj : forall m, Forall (fun kv => P (snd kv)) m -> P (JObj m).

Fixpoint json_ind' (v : json) : P v :=
  match v with
  | JNull => Hnull
  | JBool b => Hbool b
  | JNum n => Hnum n
  | JStr s => Hstr s
  | JArr l => Harr l ((fix go l : Forall P l :=
      match l with
      | [] => Forall_nil_2 _
      | x :: l' => Forall_cons_2 _ _ _ (json_ind' x) (go l')
      end) l)
  | JObj m => Hobj m ((fix go m : Forall (fun kv => P (snd kv)) m :=
      match m with
      | [] => Forall_nil_2 _
      | kv :: m' => Forall_cons_2 _ kv m' (json_ind' (snd kv)) (go m')
      end) m)
  end.
End JsonInd.

#[export] Instance jnum_eq_dec : EqDecision jnum.
Proof. solve_decision. Defined.

#[export] Instance json_eq_dec : EqDecision json.
Proof.
  refine (fix go (v w : json) {struct v} : Decision (v = w) :=
    match v, w with
    | JNull, JNull => left eq_refl
    | JBool a, JBool b => cast_if (decide (a = b))
    | JNum a, JNum b => cast_if (decide (a = b))
    | JStr a, JStr b => cast_if (decide (a = b))
    | JArr a, JArr b => cast_if (@decide (a = b) (@list_eq_dec json go a b))
    | JObj a, JObj b => cast_if (@decide (a = b) (@list_eq_dec _ (@prod_eq_dec string _ json go) a b))
    | _, _ => right _
    end); clear go; congruence.
Defined.

(** ** Accessors *)

Fixpoint assoc {A} (k : string) (m : list (string * A)) : option A :=
  match m with
  | [] => None
  | (k', v) :: m' => if (k =? k')%string then Some v else assoc k m'
  end.

(** [Value::get(key)] *)
Definition jget (k : string) (v : json) : option json :=
  match v with JObj m => assoc k m | _ => None end.
Definition as_str (v : json) : option string :=
  match v with JStr s => Some s | _ => None end.
Definition as_u64 (v : json) : option N :=
  match v with JNum (NPos n) => Some n | _ => None end.
Definition as_bool (v : json) : option bool :=
  match v with JBool b => Some b | _ => None end.
Definition as_array (v : json) : option (list json) :=
  match v with JArr l => Some l | _ => None end.
Definition is_null (v : json) : bool :=
  match v with JNull => true | _ => false end.

(** Objects never hold a key twice: [serde_json::Map] is keyed. *)
Fixpoint wf_json (v : json) : Prop :=
  match v with
  | JArr l => (fix go l := match l with [] => True | x :: l' => wf_json x /\ go l' end) l
  | JObj m => NoDup (map fst m) /\
      (fix go m := match m with [] => True | (_, x) :: m' => wf_json x /\ go m' end) m
  | _ => True
  end.

Lemma wf_json_arr l : wf_json (JArr l) <-> Forall wf_json l.
Proof. induction l as [|x l IH]; simpl in *; [by split|]. by rewrite Forall_cons, IH. Qed.

Lemma wf_json_obj m :
  wf_json (JObj m) <-> NoDup (map fst m) /\ Forall (fun kv => wf_json (snd kv)) m.
Proof.
  simpl. apply and_iff_compat_l. induction m as [|[k x] m IH]; [by split|].
  by rewrite Forall_cons, IH.
Qed.

(** ** [canonical_json] *)

(** [keys.sort_unstable()] on [&str]: byte order. *)
Fixpoint insert_by_key {A} (k : string) (a : A) (l : list (string * A)) : list (string * A) :=
  match l with
  | [] => [(k, a)]
  | (k', a') :: l' =>
      if String.leb k k' then (k, a) :: l else (k', a') :: insert_by_key k a l'
  end.

Fixpoint sort_by_key {A} (l : list (string * A)) : list (string * A) :=
  match l with
  | [] => []
  | (k, a) :: l' => insert_by_key k a (sort_by_key l')
  end.

Section Canonical.
(** [Display for Value] of serde_json, used on scalars and on keys. *)
Variable display : json -> string.

Fixpoint canonical_json (v : json) : string :=
  match v with
  | JObj m =>
      let entries := map (fun '(k, x) => (k, canonical_json x)) m in
      let pairs := map (fun '(k, s) => (display (JStr k) ++ ":" ++ s)%string)
                       (sort_by_key entries) in
      ("{" ++ join "," pairs ++ "}")%string
  | JArr arr => ("[" ++ join "," (map canonical_json arr) ++ "]")%string
  | _ => display v
  end.
End Canonical.

(** ** Order independence *)

Lemma insert_by_key_comm {A} k1 k2 (a1 a2 : A) l :
  k1 <> k2 ->
  insert_by_key k1 a1 (insert_by_key k2 a2 l) = insert_by_key k2 a2 (insert_by_key k1 a1 l).
Proof.
  intros Hne. assert (Hanti : forall x y, String.le x y -> String.le y x -> x = y)
    by (intros; by apply (anti_symm String.le)).
  assert (Htr : forall x y z, String.le x y -> String.le y z -> String.le x z)
    by (intros; by etrans).
  assert (Htot : forall x y, String.le x y \/ String.le y x) by (intros; apply (total String.le)).
  unfold String.le in *.
  induction l as [|[k a] l IH]; simpl.
  - destruct (String.leb k1 k2) eqn:E1, (String.leb k2 k1) eqn:E2; try done.
    + exfalso. apply Hne, Hanti; by rewrite ?E1, ?E2.
    + exfalso. destruct (Htot k1 k2) as [H|H]; rewrite ?E1, ?E2 in H; done.
  - destruct (String.leb k2 k) eqn:E2, (String.leb k1 k) eqn:E1; simpl; rewrite ?E1, ?E2; simpl.
    + destruct (String.leb k1 k2) eqn:E, (String.leb k2 k1) eqn:E'; try done.
      * exfalso. apply Hne, Hanti; by rewrite ?E, ?E'.
      * exfalso. destruct (Htot k1 k2) as [H|H]; rewrite ?E, ?E' in H; done.
    + assert (String.leb k1 k2 = false) as ->.
      { apply not_true_is_false. intros H. assert (String.leb k1 k) as HX.
        { apply (Htr _ k2); [by rewrite H|by rewrite E2]. } by rewrite E1 in HX. }
      by rewrite ?E1.
    + assert (String.leb k2 k1 = false) as ->.
      { apply not_true_is_false. intros H. assert (String.leb k2 k) as HX.
        { apply (Htr _ k1); [by rewrite H|by rewrite E1]. } by rewrite E2 in HX. }
      by rewrite ?E2.
    + by rewrite IH.
Qed.

Lemma sort_by_key_perm {A} (l1 l2 : list (string * A)) :
  NoDup (map fst l1) -> l1 ≡ₚ l2 -> sort_by_key l1 = sort_by_key l2.
Proof.
  intros Hnd Hp. induction Hp as [|[k a] l1 l2 Hp IH|[k1 a1] [k2 a2] l|l1 l2 l3 Hp1 IH1 Hp2 IH2];
    simpl in *.
  - done.
  - inversion Hnd; subst. by rewrite IH.
  - inversion Hnd as [|? ? Hn ?]; subst. apply insert_by_key_comm.
    intros ->. apply Hn. by left.
  - rewrite IH1 by done. apply IH2. by rewrite <-Hp1.
Qed.

(** Two values that differ only in the order of object entries, at any depth. *)
Inductive json_equiv : json -> json -> Prop :=
| equiv_refl v : json_equiv v v
| equiv_arr l1 l2 : Forall2 json_equiv l1 l2 -> json_equiv (JArr l1) (JArr l2)
| equiv_obj m1 m m2 :
    Forall2 (fun p q => fst p = fst q /\ json_equiv (snd p) (snd q)) m1 m ->
    m ≡ₚ m2 -> json_equiv (JObj m1) (JObj m2).

Lemma canonical_json_equiv display v1 v2 :
  wf_json v1 -> json_equiv v1 v2 -> canonical_json display v1 = canonical_json display v2.
Proof.
  revert v2. induction v1 as [| | | |l IH|m IH] using json_ind'; intros v2 Hwf He;
    inversion He as [|l1 l2 HF|m1 mm m2 HF Hp]; subst; try done.
  - simpl. do 3 f_equal. apply wf_json_arr in Hwf. clear He.
    induction HF; simpl; [done|]. inversion IH; inversion Hwf; subst. f_equal; eauto.
  - apply wf_json_obj in Hwf as [Hnd Hwf]. cbn [canonical_json]. do 4 f_equal.
    set (f := fun '(k, x) => (k, canonical_json display x)).
    assert (Hmap : map f m = map f mm).
    { clear Hp He Hnd. induction HF as [|[k x] [k' x'] m' mm' [Hk Hx] HF IHF]; [done|].
      inversion IH; inversion Hwf; simpl in *; subst. f_equal; eauto. f_equal. eauto. }
    rewrite Hmap. apply sort_by_key_perm.
    + rewrite <-Hmap. clear -Hnd. replace (map fst (map f m)) with (map fst m); [done|].
      rewrite map_map. apply map_ext. by intros [].
    + by apply Permutation_map.
Qed.
