(* ===== verification/Types.v ===== *)
(** * Shared domain types

    crates/sysknife-types/src/lib.rs: roles, risk levels, job states, failure
    categories, the action-name newtype, the envelopes, and the bridge to the
    protobuf messages of crates/sysknife-proto. *)

From stdpp Require Import base list strings.
From S2P Require Import Prelude Json.

(** ** Framing constant *)

Definition MAX_MESSAGE_BYTES : N := 4 * 1024 * 1024.

(** ** Action names *)

Definition KNOWN_ACTION_NAMES : list string := [
    "GetSystemState"; "CollectDiagnostics"; "GetDeploymentHistory"; "ListDeployments";
    "UpdateSystem"; "CleanupDeployments"; "RebootSystem"; "RollbackDeployment";
    "GetKernelArguments"; "PinDeployment"; "UnpinDeployment"; "RebaseSystem";
    "SetKernelArguments"; "InstallFlatpak"; "RemoveFlatpak"; "UpdateFlatpak";
    "SearchFlatpakApps"; "ListFlatpakRemotes"; "ListInstalledFlatpaks"; "AddFlatpakRemote";
    "RemoveFlatpakRemote"; "GetFlatpakAppInfo"; "ListToolboxes"; "CreateToolbox";
    "RemoveToolbox"; "GetLayeredPackages"; "ResetLayeredPackageOverride";
    "GetPendingUpdates"; "InstallPackages"; "RemovePackages"; "AddLayeredPackage";
    "RemoveLayeredPackage"; "ReplaceLayeredPackage"; "RemoveBasePackage"; "ListServices";
    "ListTimers"; "ReloadDaemon"; "CreateScheduledJob"; "StartService"; "StopService";
    "RestartService"; "ReloadService"; "SetServiceEnabled"; "MaskService"; "UnmaskService";
    "GetServiceLogs"; "GetServiceStatus"; "GetServiceResourceLimits";
    "SetServiceResourceLimits"; "GetFirewallState"; "GetNetworkStatus";
    "GetListeningPorts"; "GetNftablesRuleset"; "GetFirewallBackendState"; "ConfigureWifi";
    "SetDnsServers"; "ConfigureFirewall"; "GetDiskUsage"; "ListProcesses"; "SignalProcess";
    "GetMemoryInfo"; "GetHostState"; "GetJournalLog"; "VacuumJournal"; "GetLvmReport";
    "ExtendLogicalVolume"; "CreateLogicalVolume"; "CreateLvSnapshot"; "GetSysctl";
    "SetSysctl"; "GetMounts"; "AddMount"; "RemoveMount"; "AddSwap"; "RemoveSwap";
    "GetSudoGrants"; "GrantSudoAccess"; "RevokeSudoAccess"; "GetLogrotateStatus";
    "ConfigureLogRotation"; "RemoveLogRotation"; "ConfigureRemoteSyslog";
    "RemoveRemoteSyslog"; "GetPasswordAging"; "SetPasswordAging"; "SetPasswordPolicy";
    "SetAccountLockout"; "GetAuditRules"; "AddAuditRule"; "RemoveAuditRule";
    "GetCertificates"; "ObtainCertificate"; "RenewCertificates"; "GetDateTime";
    "SetHostname"; "SetTimezone"; "SetLocale"; "SetNtp"; "ListPackageRepositories";
    "AddPackageRepository"; "RemovePackageRepository"; "EnablePackageRepository";
    "DisablePackageRepository"; "ListContainers"; "CreateContainer"; "StartContainer";
    "StopContainer"; "RemoveContainer"; "GetContainerInfo"; "ListUsers"; "ListGroups";
    "CreateUser"; "DeleteUser"; "AddUserToGroup"; "RemoveUserFromGroup"; "CreateGroup";
    "DeleteGroup"; "LockUserAccount"; "UnlockUserAccount"; "GetAuthorizedKeys";
    "AddAuthorizedKey"; "RemoveAuthorizedKey"; "SetSshdOption"; "ListJobHistory";
    "AptUpdate"; "AptUpgrade"; "AptInstall"; "AptRemove"; "AptPurge"; "AptAutoremove";
    "AptHold"; "AptUnhold"; "AptSearch"; "AptListInstalled"; "AptShow";
    "AptListUpgradable"; "AptHistoryList"; "ConfigureUnattendedUpgrades"; "GetAptPins";
    "SetAptPin"; "RemoveAptPin"; "AddPpa"; "RemovePpa"; "SnapInstall"; "SnapRemove";
    "SnapRefresh"; "SnapHold"; "SnapUnhold"; "SnapList"; "SnapInfo"; "SnapRevert";
    "SnapClassicInstall"; "UfwEnable"; "UfwDisable"; "UfwAllow"; "UfwDeny"; "UfwReset";
    "UfwStatus"; "DistroboxList"; "DistroboxCreate"; "DistroboxRemove"; "NetplanGetConfig";
    "NetplanApply"; "NetplanSet"; "NetplanGenerate"; "GrubGetKargs"; "GrubSetKargs";
    "CheckPendingReboot"; "ResolvectlStatus"; "ResolvectlSetDns"; "AppArmorStatus";
    "AppArmorEnforce"; "AppArmorComplain"; "CloudInitStatus"; "UbuntuInstallFlatpak";
    "UbuntuRemoveFlatpak"; "UbuntuUpdateFlatpak"; "UbuntuListFlatpaks"; "Fail2banStatus";
    "Fail2banBanIp"; "Fail2banUnbanIp"; "ConfigureFail2banJail"; "UbuntuReleaseUpgrade";
    "ProStatus"; "ProAttach"; "ProDetach"; "EnableProService"; "DisableProService";
    "LivepatchStatus"; "MultipassList"; "UfwDeleteRule"; "UfwLimit" ].

(** [ActionName] holds its string; only [parse] builds one. *)
Definition parse_action_name (name : string) : result string string :=
  if str_in name KNOWN_ACTION_NAMES then Ok name else Err name.

(** ** Caller roles *)

Inductive CallerRole : Type := Observer | Dev | Admin | Boot.

#[export] Instance CallerRole_eq_dec : EqDecision CallerRole.
Proof. solve_decision. Defined.

(** The derived [Ord]: declaration order. *)
Definition role_rank (r : CallerRole) : nat :=
  match r with Observer => 0 | Dev => 1 | Admin => 2 | Boot => 3 end.
(** [a <= b] and [a < b] on roles *)
Definition role_leb (a b : CallerRole) : bool := role_rank a <=? role_rank b.
Definition role_ltb (a b : CallerRole) : bool := role_rank a <? role_rank b.

Definition role_as_str (r : CallerRole) : string :=
  match r with
  | Observer => "observer" | Dev => "dev" | Admin => "admin" | Boot => "boot"
  end.

Lemma role_leb_refl r : role_leb r r = true.
Proof. by destruct r. Qed.
Lemma role_leb_trans a b c : role_leb a b = true -> role_leb b c = true -> role_leb a c = true.
Proof. by destruct a, b, c. Qed.
Lemma role_leb_antisym a b : role_leb a b = true -> role_leb b a = true -> a = b.
Proof. by destruct a, b. Qed.
Lemma role_ltb_leb a b : role_ltb a b = negb (role_leb b a).
Proof. by destruct a, b. Qed.
#[export] Hint Resolve role_leb_refl role_leb_trans : sysk.

(** ** Risk levels, job states, failure categories *)

Inductive RiskLevel : Type := Low | Medium | High.
#[export] Instance RiskLevel_eq_dec : EqDecision RiskLevel.
Proof. solve_decision. Defined.

Inductive JobState : Type :=
| Queued | Running | Succeeded | Failed | Canceled | RolledBack | NeedsReboot.
#[export] Instance JobState_eq_dec : EqDecision JobState.
Proof. solve_decision. Defined.

Inductive FailureCategory : Type :=
| ValidationFailure | AuthorizationFailure | PolicyDenied | StaleApproval
| ExecutionFailure | TransientInfrastructureFailure | Cancellation
| StuckExecution | RebootRequired | RollbackFailure.
#[export] Instance FailureCategory_eq_dec : EqDecision FailureCategory.
Proof. solve_decision. Defined.

(** ** Envelopes *)

Record RequestEnvelope : Type := mkRequestEnvelope {
  req_action_name : string;
  req_request_id : string;
  req_params : json;
  req_caller_role : CallerRole;
  req_request_hash : string }.

Record PreviewEnvelope : Type := mkPreviewEnvelope {
  prv_summary : string;
  prv_risk_level : RiskLevel;
  prv_current_state : json;
  prv_proposed_change : json;
  prv_expected_side_effects : list string;
  prv_reboot_required : bool;
  prv_rollback_available : bool;
  prv_warnings : list string;
  prv_request_hash : string }.

Record ResultEnvelope : Type := mkResultEnvelope {
  res_status : JobState;
  res_summary : string;
  res_warnings : list string;
  res_job_id : option string;
  res_needs_reboot : bool;
  res_rollback_ref : option string;
  res_transaction_id : string }.

Record TransactionRecord : Type := mkTransactionRecord {
  tr_transaction_id : string;
  tr_request_id : string;
  tr_request_hash : string;
  tr_action_name : string;
  tr_risk_level : RiskLevel;
  tr_status : JobState;
  tr_approval_id : option string;
  tr_summary : string;
  tr_warnings : list string }.

(** ** The protobuf bridge

    The message types are generated from
    crates/sysknife-proto/proto/sysknife/v1/sysknife.proto: an enum field is an
    [i32], and its generated [try_from] knows the numbers the file lists. *)

Inductive BridgeError : Type :=
| InvalidJson (field : string)
| InvalidEnum (field : string) (value : Z).

(** The generated [Enum::try_from(i32)] of an enum numbered [0 .. last]. *)
Definition proto_enum (last code : Z) : option Z :=
  if (0 <=? code)%Z && (code <=? last)%Z then Some code else None.

Definition role_to_proto (r : CallerRole) : Z :=
  match r with Observer => 1 | Dev => 2 | Admin => 3 | Boot => 4 end.

Definition role_from_proto (code : Z) : result BridgeError CallerRole :=
  match code with
  | 1%Z => Ok Observer | 2%Z => Ok Dev | 3%Z => Ok Admin | 4%Z => Ok Boot
  | _ => Err (InvalidEnum "caller_role" code)
  end.

Definition risk_to_proto (r : RiskLevel) : Z :=
  match r with Low => 1 | Medium => 2 | High => 3 end.

Definition risk_from_proto (code : Z) : result BridgeError RiskLevel :=
  match code with
  | 1%Z => Ok Low | 2%Z => Ok Medium | 3%Z => Ok High
  | _ => Err (InvalidEnum "risk_level" code)
  end.

Definition state_to_proto (s : JobState) : Z :=
  match s with
  | Queued => 1 | Running => 2 | Succeeded => 3 | Failed => 4
  | Canceled => 5 | RolledBack => 6 | NeedsReboot => 7
  end.

Definition state_from_proto (code : Z) : result BridgeError JobState :=
  match code with
  | 1%Z => Ok Queued | 2%Z => Ok Running | 3%Z => Ok Succeeded | 4%Z => Ok Failed
  | 5%Z => Ok Canceled | 6%Z => Ok RolledBack | 7%Z => Ok NeedsReboot
  | _ => Err (InvalidEnum "job_state" code)
  end.

Definition category_to_proto (c : FailureCategory) : Z :=
  match c with
  | ValidationFailure => 1 | AuthorizationFailure => 2 | PolicyDenied => 3
  | StaleApproval => 4 | ExecutionFailure => 5 | TransientInfrastructureFailure => 6
  | Cancellation => 7 | StuckExecution => 8 | RebootRequired => 9 | RollbackFailure => 10
  end.

Definition category_from_proto (code : Z) : result BridgeError FailureCategory :=
  match code with
  | 1%Z => Ok ValidationFailure | 2%Z => Ok AuthorizationFailure | 3%Z => Ok PolicyDenied
  | 4%Z => Ok StaleApproval | 5%Z => Ok ExecutionFailure
  | 6%Z => Ok TransientInfrastructureFailure | 7%Z => Ok Cancellation
  | 8%Z => Ok StuckExecution | 9%Z => Ok RebootRequired | 10%Z => Ok RollbackFailure
  | _ => Err (InvalidEnum "failure_category" code)
  end.

(** [T::try_from(proto::T::try_from(code).map_err(..)?)?] *)
Definition decode_enum {A} (field : string) (last : Z)
    (f : Z -> result BridgeError A) (code : Z) : result BridgeError A :=
  ok_or (InvalidEnum field code) (proto_enum last code) ≫= f.

Record ProtoRequestEnvelope : Type := mkProtoRequest {
  pq_action_name : string;
  pq_request_id : string;
  pq_params_json : string;
  pq_caller_role : Z;
  pq_request_hash : string }.

Record ProtoPreviewEnvelope : Type := mkProtoPreview {
  pp_summary : string;
  pp_risk_level : Z;
  pp_current_state_json : string;
  pp_proposed_change_json : string;
  pp_expected_side_effects : list string;
  pp_reboot_required : bool;
  pp_rollback_available : bool;
  pp_warnings : list string;
  pp_request_hash : string }.

Record ProtoResultEnvelope : Type := mkProtoResult {
  pr_status : Z;
  pr_summary : string;
  pr_warnings : list string;
  pr_job_id : string;
  pr_needs_reboot : bool;
  pr_rollback_ref : string;
  pr_transaction_id : string }.

Record ProtoTransactionRecord : Type := mkProtoTransaction {
  pt_transaction_id : string;
  pt_request_id : string;
  pt_request_hash : string;
  pt_action_name : string;
  pt_risk_level : Z;
  pt_status : Z;
  pt_approval_id : string;
  pt_summary : string;
  pt_warnings : list string }.

(** [unwrap_or_default()] and [if s.is_empty() { None } else { Some(s) }] *)
Definition str_or_default (o : option string) : string := default "" o.
Definition none_if_empty (s : string) : option string :=
  if is_empty s then None else Some s.

Section Bridge.
(** serde_json: rendering and parsing of a [Value]. *)
Variable to_string : json -> string.
Variable from_str : string -> option json.

Definition request_to_proto (v : RequestEnvelope) : ProtoRequestEnvelope := {|
  pq_action_name := req_action_name v;
  pq_request_id := req_request_id v;
  pq_params_json := to_string (req_params v);
  pq_caller_role := role_to_proto (req_caller_role v);
  pq_request_hash := req_request_hash v |}.

Definition request_from_proto (v : ProtoRequestEnvelope)
    : result BridgeError RequestEnvelope :=
  params ← ok_or (InvalidJson "params_json") (from_str (pq_params_json v));
  role ← decode_enum "caller_role" 4 role_from_proto (pq_caller_role v);
  Ok {| req_action_name := pq_action_name v;
        req_request_id := pq_request_id v;
        req_params := params;
        req_caller_role := role;
        req_request_hash := pq_request_hash v |}.

Definition preview_to_proto (v : PreviewEnvelope) : ProtoPreviewEnvelope := {|
  pp_summary := prv_summary v;
  pp_risk_level := risk_to_proto (prv_risk_level v);
  pp_current_state_json := to_string (prv_current_state v);
  pp_proposed_change_json := to_string (prv_proposed_change v);
  pp_expected_side_effects := prv_expected_side_effects v;
  pp_reboot_required := prv_reboot_required v;
  pp_rollback_available := prv_rollback_available v;
  pp_warnings := prv_warnings v;
  pp_request_hash := prv_request_hash v |}.

Definition preview_from_proto (v : ProtoPreviewEnvelope)
    : result BridgeError PreviewEnvelope :=
  current_state ← ok_or (InvalidJson "current_state_json") (from_str (pp_current_state_json v));
  proposed_change ←
    ok_or (InvalidJson "proposed_change_json") (from_str (pp_proposed_change_json v));
  risk ← decode_enum "risk_level" 3 risk_from_proto (pp_risk_level v);
  Ok {| prv_summary := pp_summary v;
        prv_risk_level := risk;
        prv_current_state := current_state;
        prv_proposed_change := proposed_change;
        prv_expected_side_effects := pp_expected_side_effects v;
        prv_reboot_required := pp_reboot_required v;
        prv_rollback_available := pp_rollback_available v;
        prv_warnings := pp_warnings v;
        prv_request_hash := pp_request_hash v |}.
End Bridge.

Definition result_to_proto (v : ResultEnvelope) : ProtoResultEnvelope := {|
  pr_status := state_to_proto (res_status v);
  pr_summary := res_summary v;
  pr_warnings := res_warnings v;
  pr_job_id := str_or_default (res_job_id v);
  pr_needs_reboot := res_needs_reboot v;
  pr_rollback_ref := str_or_default (res_rollback_ref v);
  pr_transaction_id := res_transaction_id v |}.

Definition result_from_proto (v : ProtoResultEnvelope) : result BridgeError ResultEnvelope :=
  status ← decode_enum "job_state" 7 state_from_proto (pr_status v);
  Ok {| res_status := status;
        res_summary := pr_summary v;
        res_warnings := pr_warnings v;
        res_job_id := none_if_empty (pr_job_id v);
        res_needs_reboot := pr_needs_reboot v;
        res_rollback_ref := none_if_empty (pr_rollback_ref v);
        res_transaction_id := pr_transaction_id v |}.

Definition transaction_to_proto (v : TransactionRecord) : ProtoTransactionRecord := {|
  pt_transaction_id := tr_transaction_id v;
  pt_request_id := tr_request_id v;
  pt_request_hash := tr_request_hash v;
  pt_action_name := tr_action_name v;
  pt_risk_level := risk_to_proto (tr_risk_level v);
  pt_status := state_to_proto (tr_status v);
  pt_approval_id := str_or_default (tr_approval_id v);
  pt_summary := tr_summary v;
  pt_warnings := tr_warnings v |}.

Definition transaction_from_proto (v : ProtoTransactionRecord)
    : result BridgeError TransactionRecord :=
  risk ← decode_enum "risk_level" 3 risk_from_proto (pt_risk_level v);
  status ← decode_enum "job_state" 7 state_from_proto (pt_status v);
  Ok {| tr_transaction_id := pt_transaction_id v;
        tr_request_id := pt_request_id v;
        tr_request_hash := pt_request_hash v;
        tr_action_name := pt_action_name v;
        tr_risk_level := risk;
        tr_status := status;
        tr_approval_id := none_if_empty (pt_approval_id v);
        tr_summary := pt_summary v;
        tr_warnings := pt_warnings v |}.

(** ** Round trips *)

Lemma decode_role r : decode_enum "caller_role" 4 role_from_proto (role_to_proto r) = Ok r.
Proof. by destruct r. Qed.
Lemma decode_risk r : decode_enum "risk_level" 3 risk_from_proto (risk_to_proto r) = Ok r.
Proof. by destruct r. Qed.
Lemma decode_state s : decode_enum "job_state" 7 state_from_proto (state_to_proto s) = Ok s.
Proof. by destruct s. Qed.
#[export] Hint Rewrite decode_role decode_risk decode_state : sysk_str.

Lemma none_if_empty_default o : none_if_empty (str_or_default o) = o <-> o <> Some "".
Proof. destruct o as [[|c s]|]; simpl; naive_solver. Qed.
