(* ===== verification/Jobs.v ===== *)
(** * The job status transition table

    crates/sysknife-daemon/src/jobs.rs. Both transaction stores ask
    [allowed_transition] before any status write, so the lifecycle of every
    recorded job is a path of this table. *)

From stdpp Require Import base list.
From S2P Require Import Prelude Types.

Definition allowed_transition (current next : JobState) : bool :=
  match current, next with
  | Queued, Running | Queued, Canceled
  | Running, Succeeded | Running, Failed | Running, Canceled
  | Running, RolledBack | Running, NeedsReboot => true
  | _, _ => false
  end.

Definition is_terminal (state : JobState) : bool :=
  match state with
  | Succeeded | Failed | Canceled | RolledBack | NeedsReboot => true
  | Queued | Running => false
  end.

(** ** Paths of the table *)

Inductive job_path : JobState -> list JobState -> JobState -> Prop :=
| job_path_nil s : job_path s [] s
| job_path_cons s t u l :
    allowed_transition s t = true -> job_path t l u -> job_path s (t :: l) u.

Lemma terminal_no_exit s : is_terminal s = true <-> forall t, allowed_transition s t = false.
Proof.
  split; [by destruct s, t|]. intros H. destruct s; try done.
  - by specialize (H Running).
  - by specialize (H Failed).
Qed.

Lemma terminal_path_nil s l t : job_path s l t -> is_terminal s = true -> l = [] /\ t = s.
Proof.
  intros Hp Ht. destruct Hp as [|s t u l Ha]; [done|].
  by rewrite (proj1 (terminal_no_exit s) Ht) in Ha.
Qed.

Lemma terminal_path s t : job_path s [] t <-> t = s.
Proof. split; [by inversion 1|intros ->; constructor]. Qed.

(** How many statuses a job can still go through. *)
Definition job_rank (s : JobState) : nat :=
  match s with Queued => 2 | Running => 1 | _ => 0 end.

Lemma allowed_transition_rank s t :
  allowed_transition s t = true -> job_rank t < job_rank s.
Proof. destruct s, t; simpl; try done; intros; lia. Qed.

Lemma job_path_rank s l t : job_path s l t -> length l + job_rank t <= job_rank s.
Proof. induction 1 as [|s t u l Ha _ IH]; simpl; [lia|]. apply allowed_transition_rank in Ha. lia. Qed.

Lemma job_path_app s l t l' u :
  job_path s l t -> job_path t l' u -> job_path s (l ++ l') u.
Proof. induction 1; simpl; [done|]. intros. econstructor; eauto. Qed.

(** PLACEHOLDER *)
Theorem job_lifecycle s l t :
  job_path s l t ->
  length l <= 2
  /\ NoDup (s :: l)
  /\ (is_terminal s = true -> l = [])
  /\ (is_terminal t = false -> exists u, is_terminal u = true /\ job_path s (l ++ [u]) u).
Proof.
  intros Hp. split_and!.
  - apply job_path_rank in Hp. destruct s; simpl in *; lia.
  - assert (Hr : forall s l t, job_path s l t -> Forall (fun u => job_rank u < job_rank s) l).
    { clear. induction 1 as [|s t u l Ha _ IH]; constructor.
      - by apply allowed_transition_rank.
      - apply allowed_transition_rank in Ha. eapply Forall_impl; [exact IH|]. simpl. lia. }
    induction Hp as [s|s t u l Ha Hp IH]; [repeat constructor; inversion 1|].
    constructor; [|done]. intros Hin.
    pose proof (Hr _ _ _ (job_path_cons _ _ _ _ Ha Hp)) as HF.
    rewrite Forall_forall in HF. specialize (HF _ Hin). lia.
  - intros Ht. by destruct (terminal_path_nil _ _ _ Hp Ht).
  - intros Ht. exists Canceled. split; [done|].
    eapply job_path_app; [exact Hp|]. econstructor; [|constructor]. by destruct t.
Qed.

Lemma job_lifecycle_witness :
  job_path Queued [Running] Running
  /\ exists u, is_terminal u = true /\ job_path Queued ([Running] ++ [u]) u.
Proof.
  assert (Hp : job_path Queued [Running] Running) by (econstructor; [reflexivity|constructor]).
  split; [exact Hp|]. exact (proj2 (proj2 (proj2 (job_lifecycle _ _ _ Hp))) eq_refl).
Defined.
