(* ===== verification/Auth.v ===== *)
(** * Who is calling, and what role that gives

    crates/sysknife-daemon/src/auth.rs (groups, roles, the signed principal,
    the vsock token) and the role resolution of
    crates/sysknife-daemon/src/dispatcher.rs ([resolve_caller_with_pin] and
    the readers of /etc/group and /proc). What the kernel and the file system
    answer is an argument of the definitions. *)

From Stdlib Require Import Ascii ZArith NArith Lia.
From stdpp Require Import base list strings gmap.
From S2P Require Import Prelude Types.

(** ** Groups and roles *)

Definition OBSERVER_GROUP : string := "sysknife-observer".
Definition DEV_GROUP : string := "sysknife-dev".
Definition ADMIN_GROUP : string := "sysknife-admin".
Definition BOOT_GROUP : string := "sysknife-boot".
Definition WHEEL_GROUP : string := "wheel".

Definition role_for_group (group : string) : CallerRole :=
  if (group =? BOOT_GROUP)%string then Boot
  else if (group =? ADMIN_GROUP)%string || (group =? WHEEL_GROUP)%string then Admin
  else if (group =? DEV_GROUP)%string then Dev
  else if (group =? OBSERVER_GROUP)%string then Observer
  else Observer.

(** [current.max(candidate)]: the later one unless the former is greater. *)
Definition higher_role (current candidate : CallerRole) : CallerRole :=
  if role_ltb candidate current then current else candidate.

Definition highest_role_from_groups (groups : list string) : CallerRole :=
  fold_left higher_role (map role_for_group groups) Observer.

Definition group_for_role (role : CallerRole) : string :=
  match role with
  | Boot => BOOT_GROUP | Admin => ADMIN_GROUP | Dev => DEV_GROUP | Observer => OBSERVER_GROUP
  end.

(** [{role:?}] *)
Definition role_debug (r : CallerRole) : string :=
  match r with Observer => "Observer" | Dev => "Dev" | Admin => "Admin" | Boot => "Boot" end.

Definition denial_message (action : string) (caller required : CallerRole) : string :=
  ("action '" ++ action ++ "' requires the " ++ role_debug required ++ " role, but you have "
   ++ role_debug caller ++ ". "
   ++ "Join the group that grants it: sudo usermod -aG " ++ group_for_role required ++ " $USER, "
   ++ "then log out and back in (group membership only applies to a new login).")%string.

(** ** The principal: the account a row names *)

Inductive CallerPrincipal : Type :=
| Uid (uid : N)
| VsockToken
| Unattributed.

#[export] Instance CallerPrincipal_eq_dec : EqDecision CallerPrincipal.
Proof. solve_decision. Defined.

Inductive PrincipalClaim : Type := Account | AttributionFailed | Unrecognized.

#[export] Instance PrincipalClaim_eq_dec : EqDecision PrincipalClaim.
Proof. solve_decision. Defined.

Definition scheme (p : CallerPrincipal) : string :=
  match p with Uid _ => "uid" | VsockToken => "token" | Unattributed => "none" end.

Definition principal_value (p : CallerPrincipal) : string :=
  match p with
  | Uid uid => dec_of_N uid
  | VsockToken => "vsock"
  | Unattributed => "unattributed"
  end.

Definition as_signed_str (p : CallerPrincipal) : string :=
  (scheme p ++ ":" ++ principal_value p)%string.

Definition claim (p : CallerPrincipal) : PrincipalClaim :=
  match p with Uid _ | VsockToken => Account | Unattributed => AttributionFailed end.

Definition from_signed (stored : string) : option CallerPrincipal :=
  '(sch, value) ← split_once ":"%char stored;
  candidate ←
    (if (sch =? scheme (Uid 0))%string then Uid <$> parse_u32 value
     else if (sch =? scheme VsockToken)%string then Some VsockToken
     else if (sch =? scheme Unattributed)%string then Some Unattributed
     else None);
  if (as_signed_str candidate =? stored)%string then Some candidate else None.

Definition classify (stored : string) : PrincipalClaim :=
  match from_signed stored with Some p => claim p | None => Unrecognized end.

(** A principal the code can hold: the uid is a [u32]. *)
Definition wf_principal (p : CallerPrincipal) : Prop :=
  match p with Uid uid => (uid <= U32_MAX)%N | _ => True end.

(** ** Attribution of a connection *)

Record CallerAttribution : Type := mkAttribution {
  att_role : CallerRole;
  att_principal : CallerPrincipal }.

Definition from_peer_uid (uid : N) (role : CallerRole) : CallerAttribution :=
  {| att_role := role; att_principal := Uid uid |}.
Definition from_vsock_token (role : CallerRole) : CallerAttribution :=
  {| att_role := role; att_principal := VsockToken |}.
Definition unattributed : CallerAttribution :=
  {| att_role := Observer; att_principal := Unattributed |}.

(** ** The vsock token *)

(** [SYSKNIFE_TOKEN_ROLE]; [env] is [std::env::var]. *)
Definition token_role (env : option string) : CallerRole :=
  let raw := to_lower (str_trim (default "" env)) in
  if (raw =? "observer")%string then Observer
  else if (raw =? "admin")%string then Admin
  else if (raw =? "boot")%string then Boot
  else if (raw =? "dev")%string || (raw =? "")%string then Dev
  else Observer.

(** [mode & 0o077 == 0] *)
Definition token_file_permissions_ok (mode : N) : bool := (N.land mode 63 =? 0)%N.

(** [mode]: what [metadata] answers, or [None] when it fails; [contents]: what
    [read_to_string] answers. [ct_eq] is equality of the bytes. *)
Definition validate_token_against_file (env : option string) (presented : string)
    (mode : option N) (contents : option string) : option CallerRole :=
  if is_empty presented then None else
  m ← mode;
  if negb (token_file_permissions_ok m) then None else
  stored ← str_trim <$> contents;
  if is_empty stored then None
  else if negb (String.length stored =? String.length presented) then None
  else if negb (stored =? presented)%string then None
  else Some (token_role env).

(** ** Role resolution for a Unix-socket peer *)

Definition DEFAULT_OVERFLOW_UID : N := 65534.

(** [raw]: the contents of /proc/sys/kernel/overflowuid. *)
Definition overflow_uid (raw : option string) : N :=
  default DEFAULT_OVERFLOW_UID (r ← raw; parse_u32 (str_trim r)).

(** One line of /etc/group. *)
Definition gid_entry (line : string) : option (N * string) :=
  match splitn 4 ":"%char line with
  | name :: _ :: gid_str :: _ => gid ← parse_u32 gid_str; Some (gid, name)
  | _ => None
  end.

Definition read_gid_map (content : option string) : gmap N string :=
  match content with
  | None => ∅
  | Some c =>
      fold_left (fun m line =>
        match gid_entry line with Some (gid, name) => <[gid := name]> m | None => m end)
        (lines c) ∅
  end.

(** [status]: the contents of /proc/{pid}/status. *)
Definition groups_for_pid (status : option string) (gid_map : gmap N string) : list string :=
  match status with
  | None => []
  | Some s =>
      match find (fun l => starts_with "Groups:" l) (lines s) with
      | Some line =>
          omap (fun gid => gid_map !! gid)
            (omap parse_u32 (split_whitespace (trim_start_matches "Groups:" line)))
      | None => []
      end
  end.

(** [SO_PEERPIDFD]; the pinned descriptor is only asked whether the peer is
    still alive after the read. *)
Inductive PeerPin : Type := Pinned (still_live : bool) | Unsupported | Unpinnable.

Definition ENOPROTOOPT : Z := 92.
Definition peer_pin_from_error (raw_os_error : option Z) : PeerPin :=
  if bool_decide (raw_os_error = Some ENOPROTOOPT) then Unsupported else Unpinnable.

Definition groups_for_pinned_peer (pin : PeerPin) (read_groups : list string) : list string :=
  match pin with
  | Unsupported => read_groups
  | Unpinnable => []
  | Pinned still_live => if still_live then read_groups else []
  end.

(** What the kernel reports for the connection. *)
Record PeerCred : Type := mkPeerCred { cred_pid : option Z; cred_gid : N; cred_uid : N }.

(** The files the resolution reads. *)
Record HostFiles : Type := mkHostFiles {
  hf_etc_group : option string;
  hf_proc_status : option string;
  hf_overflowuid : option string }.

Definition peer_groups (files : HostFiles) (pin : PeerPin) (primary_gid : N) : list string :=
  let gid_map := read_gid_map (hf_etc_group files) in
  let groups := groups_for_pinned_peer pin (groups_for_pid (hf_proc_status files) gid_map) in
  match gid_map !! primary_gid with
  | Some name => if str_in name groups then groups else groups ++ [name]
  | None => groups
  end.

Definition resolve_caller_with_pin (peer_cred : option PeerCred) (pin : PeerPin)
    (files : HostFiles) : CallerAttribution :=
  match peer_cred with
  | None => unattributed
  | Some cred =>
      match cred_pid cred with
      | Some p =>
          if (0 <? p)%Z then
            let groups := peer_groups files pin (cred_gid cred) in
            if (cred_uid cred =? overflow_uid (hf_overflowuid files))%N then unattributed
            else from_peer_uid (cred_uid cred) (highest_role_from_groups groups)
          else unattributed
      | None => unattributed
      end
  end.

(** ** Lemmas *)

Lemma higher_role_max a b c : role_leb c (higher_role a b) = role_leb c a || role_leb c b.
Proof. by destruct a, b, c. Qed.

Lemma fold_higher_role c rs a :
  role_leb c (fold_left higher_role rs a) = role_leb c a || existsb (role_leb c) rs.
Proof.
  revert a. induction rs as [|r rs IH]; intros a; simpl; [by rewrite orb_false_r|].
  by rewrite IH, higher_role_max, orb_assoc.
Qed.

Lemma role_leb_Observer r : role_leb r Observer = true <-> r = Observer.
Proof. by destruct r. Qed.

(** The role of a list of groups is the least upper bound of what the groups
    grant, above Observer. *)
Lemma highest_role_spec c gs :
  role_leb c (highest_role_from_groups gs) = true
  <-> c = Observer \/ exists g, g ∈ gs /\ role_leb c (role_for_group g) = true.
Proof.
  unfold highest_role_from_groups. rewrite fold_higher_role, orb_true_iff, role_leb_Observer.
  rewrite existsb_exists. setoid_rewrite in_map_iff.
  split; (intros [?|H]; [by left|right]).
  - destruct H as (x & (g & <- & Hg) & Hx). exists g. by rewrite list_elem_of_In.
  - destruct H as (g & Hg & Hx). exists (role_for_group g). split; [|done].
    exists g. by rewrite <-list_elem_of_In.
Qed.

Lemma role_for_group_group_for_role r : role_for_group (group_for_role r) = r.
Proof. by destruct r. Qed.

Lemma scheme_no_colon p : str_has ":"%char (scheme p) = false.
Proof. by destruct p. Qed.

Lemma split_once_signed p :
  split_once ":"%char (as_signed_str p) = Some (scheme p, principal_value p).
Proof. apply split_once_spec. split; [done|apply scheme_no_colon]. Qed.

Lemma from_signed_roundtrip p : wf_principal p -> from_signed (as_signed_str p) = Some p.
Proof.
  intros Hwf. unfold from_signed. rewrite split_once_signed. destruct p as [uid| |]; try done.
  cbn [mbind option_bind scheme principal_value String.eqb Ascii.eqb Bool.eqb].
  unfold parse_u32. rewrite parse_dec_of_N by done. simpl. by rewrite String.eqb_refl.
Qed.

Lemma from_signed_sound s p : from_signed s = Some p -> s = as_signed_str p /\ wf_principal p.
Proof.
  unfold from_signed. intros H.
  destruct (split_once ":"%char s) as [[sch value]|]; simpl in H; [|done].
  match type of H with mbind _ ?c = _ => destruct c as [q|] eqn:Hc end; simpl in H; [|done].
  case_match eqn:E; simplify_eq. bools. split; [done|].
  repeat case_match; simplify_eq/=; [|done..].
  apply fmap_Some in Hc as (u & Hu & ->). simpl. by apply parse_uint_bound in Hu.
Qed.

Lemma from_signed_spec s p :
  from_signed s = Some p <-> s = as_signed_str p /\ wf_principal p.
Proof.
  split; [apply from_signed_sound|]. intros [-> Hwf]. by apply from_signed_roundtrip.
Qed.

Lemma as_signed_str_inj p q :
  wf_principal p -> wf_principal q -> as_signed_str p = as_signed_str q -> p = q.
Proof.
  intros Hp Hq E. apply from_signed_roundtrip in Hp, Hq. rewrite E in Hp. congruence.
Qed.

Lemma as_signed_str_not_empty p : is_empty (as_signed_str p) = false.
Proof. by destruct p. Qed.

Lemma classify_cases s :
  match classify s with
  | AttributionFailed => s = as_signed_str Unattributed
  | Account => s <> as_signed_str Unattributed
  | Unrecognized => s <> as_signed_str Unattributed
  end.
Proof.
  unfold classify. destruct (from_signed s) as [p|] eqn:E.
  - apply from_signed_sound in E as [-> _]. by destruct p.
  - intros ->. by rewrite (from_signed_roundtrip Unattributed I) in E.
Qed.

Lemma token_role_not_default env :
  token_role env <> Dev ->
  exists s, env = Some s /\ to_lower (str_trim s) <> ""
    /\ (to_lower (str_trim s) = role_as_str (token_role env)
        \/ token_role env = Observer /\ forall r, to_lower (str_trim s) <> role_as_str r).
Proof.
  destruct env as [s|]; [|by intros []]. unfold token_role, from_option, id.
  set (raw := to_lower (str_trim s)). cbv zeta.
  intros H. exists s. fold raw. split; [done|].
  destruct (String.eqb_spec raw "observer") as [E|]; [rewrite E; split; [done|by left]|].
  destruct (String.eqb_spec raw "admin") as [E|]; [rewrite E; split; [done|by left]|].
  destruct (String.eqb_spec raw "boot") as [E|]; [rewrite E; split; [done|by left]|].
  destruct (String.eqb_spec raw "dev"); [done|].
  destruct (String.eqb_spec raw ""); [done|].
  split; [done|]. right. split; [done|]. by intros [].
Qed.

Lemma resolve_caller_cases cred pin files a :
  resolve_caller_with_pin cred pin files = a ->
  a = unattributed
  \/ exists c p, cred = Some c /\ cred_pid c = Some p /\ (0 < p)%Z
       /\ cred_uid c <> overflow_uid (hf_overflowuid files)
       /\ a = from_peer_uid (cred_uid c)
                (highest_role_from_groups (peer_groups files pin (cred_gid c))).
Proof.
  unfold resolve_caller_with_pin. intros <-.
  destruct cred as [c|]; [|by left]. destruct (cred_pid c) as [p|] eqn:Ep; [|by left].
  destruct (Z.ltb_spec 0 p); [|by left].
  destruct (N.eqb_spec (cred_uid c) (overflow_uid (hf_overflowuid files))); [by left|].
  right. by exists c, p.
Qed.

Lemma peer_groups_elem files pin gid g :
  g ∈ peer_groups files pin gid ->
  read_gid_map (hf_etc_group files) !! gid = Some g
  \/ pin <> Unpinnable /\ pin <> Pinned false
     /\ g ∈ groups_for_pid (hf_proc_status files) (read_gid_map (hf_etc_group files)).
Proof.
  unfold peer_groups, groups_for_pinned_peer. intros H.
  destruct pin as [[]| |]; repeat case_match;
    rewrite ?elem_of_app, ?list_elem_of_singleton, ?elem_of_nil in H; naive_solver.
Qed.

(** ** Properties *)

(** The role of a caller is exactly the least upper bound of what its groups
    grant: it reaches [c] iff [c] is Observer or some group grants at least [c];
    and the group a refusal recommends grants the role it names. *)
Theorem highest_role_is_lub (gs : list string) :
  (forall c, role_leb c (highest_role_from_groups gs) = true
     <-> c = Observer \/ exists g, g ∈ gs /\ role_leb c (role_for_group g) = true)
  /\ (forall r, role_leb r (highest_role_from_groups (group_for_role r :: gs)) = true).
Proof.
  split; [intros c; apply highest_role_spec|]. intros r. apply highest_role_spec. right.
  exists (group_for_role r). split; [by left|]. by rewrite role_for_group_group_for_role, role_leb_refl.
Qed.

(** Reading back a signed principal is the exact inverse of signing it: a
    stored string is recognised iff it is the rendering of some principal with a
    32-bit uid, so it is credited as an account iff it is [token:vsock] or the
    canonical rendering of a uid, and as a failed attribution iff it is exactly
    [none:unattributed]. *)
Theorem principal_roundtrip (s : string) :
  (forall p, from_signed s = Some p <-> s = as_signed_str p /\ wf_principal p)
  /\ (classify s = Account
      <-> s = "token:vsock" \/ exists u, (u <= U32_MAX)%N /\ s = ("uid:" ++ dec_of_N u)%string)
  /\ (classify s = AttributionFailed <-> s = "none:unattributed").
Proof.
  split; [intros p; apply from_signed_spec|].
  assert (Hc : forall k, classify s = k <-> match from_signed s with
    Some p => claim p = k | None => Unrecognized = k end)
    by (intros k; unfold classify; by destruct (from_signed s)).
  rewrite !Hc. destruct (from_signed s) as [p|] eqn:E.
  - apply from_signed_spec in E as [-> Hwf]. destruct p as [u| |]; simpl in *; naive_solver.
  - assert (Hn : forall p, wf_principal p -> s <> as_signed_str p).
    { intros p Hp ->. by rewrite from_signed_roundtrip in E. }
    split; (split; [done|]); [intros [->|(u & Hu & ->)]|intros ->]; exfalso.
    + by apply (Hn VsockToken).
    + by apply (Hn (Uid u)).
    + by apply (Hn Unattributed).
Qed.

(** A peer obtains a role above Observer only when the kernel named it (a
    positive pid, a uid that is not the overflow uid), the row names that uid,
    and some group grants at least that role, which is either the group of the
    kernel's own primary gid or a group read from /proc while the peer was
    pinned alive or the kernel cannot pin; a caller without an account is never
    more than Observer. *)
Theorem resolve_caller_privilege cred pin files :
  let a := resolve_caller_with_pin cred pin files in
  (att_principal a = Unattributed -> a = unattributed)
  /\ forall r, r <> Observer -> role_leb r (att_role a) = true ->
     exists c g, cred = Some c /\ att_principal a = Uid (cred_uid c)
       /\ cred_uid c <> overflow_uid (hf_overflowuid files)
       /\ (exists p, cred_pid c = Some p /\ (0 < p)%Z)
       /\ role_leb r (role_for_group g) = true
       /\ (read_gid_map (hf_etc_group files) !! cred_gid c = Some g
           \/ (pin = Unsupported \/ pin = Pinned true)
              /\ g ∈ groups_for_pid (hf_proc_status files)
                       (read_gid_map (hf_etc_group files))).
Proof.
  intros a. destruct (resolve_caller_cases cred pin files a eq_refl)
    as [Ha|(c & p & -> & Hp & Hpos & Hu & Ha)]; rewrite Ha.
  { split; [done|]. intros r Hr Hle. by apply role_leb_Observer in Hle. }
  split; [done|]. intros r Hr Hle. simpl in Hle.
  apply highest_role_spec in Hle as [|(g & Hg & Hle)]; [done|].
  exists c, g. split_and!; eauto. apply peer_groups_elem in Hg as [|(H1 & H2 & H3)]; [by left|].
  right. split; [|done]. destruct pin as [[]| |]; naive_solver.
Qed.

Lemma token_validation env presented mode contents role :
  validate_token_against_file env presented mode contents = Some role
  <-> presented <> "" /\ (exists m, mode = Some m /\ N.land m 63 = 0%N)
      /\ (exists c, contents = Some c /\ str_trim c = presented) /\ role = token_role env.
Proof.
  unfold validate_token_against_file, token_file_permissions_ok.
  destruct presented as [|x presented].
  { split; [done|]. by intros [[] _]. }
  destruct mode as [m|]; [|split; [done|by intros (_ & (? & ? & _) & _)]].
  cbn [is_empty mbind option_bind].
  destruct (N.eqb_spec (N.land m 63) 0); cbn [negb];
    [|split; [done|]; by intros (_ & (? & [= <-] & ?) & _)].
  destruct contents as [c|]; [|split; [done|by intros (_ & _ & (? & ? & _) & _)]].
  cbn [fmap option_fmap option_map mbind option_bind].
  destruct (str_trim c) as [|y t] eqn:Et; cbn [is_empty].
  { split; [done|]. intros (_ & _ & (c' & [= <-] & Hc) & _). congruence. }
  split.
  - intros H. case_match; [done|]. case_match eqn:E; [done|]. bools. simplify_eq.
    split_and!; [done|by exists m|by exists c|done].
  - intros (_ & _ & (c' & [= <-] & Hc) & ->). rewrite Et in Hc. rewrite Hc.
    by rewrite Nat.eqb_refl, String.eqb_refl.
Qed.

(** The vsock token is accepted iff a non-empty token was presented, the
    file grants no bit to group or other, it was read, and its trimmed contents
    are the presented bytes; the role given never depends on the token, and a
    role other than the default Dev is given only when the configured value
    names it or (for Observer) is not a role name at all. *)
Theorem token_validation_spec env presented mode contents role :
  (validate_token_against_file env presented mode contents = Some role
   <-> presented <> "" /\ (exists m, mode = Some m /\ N.land m 63 = 0%N)
       /\ (exists c, contents = Some c /\ str_trim c = presented) /\ role = token_role env)
  /\ (token_role env <> Dev ->
      exists s, env = Some s /\ to_lower (str_trim s) <> ""
        /\ (to_lower (str_trim s) = role_as_str (token_role env)
            \/ token_role env = Observer
               /\ forall r, to_lower (str_trim s) <> role_as_str r)).
Proof. split; [apply token_validation|apply token_role_not_default]. Qed.

Lemma resolve_caller_privilege_witness :
  let files := mkHostFiles (Some (String.append "root:x:0:" (String.append (String LF "") "wheel:x:10:ada")))
                 (Some "Groups:	10 ") (Some "65534") in
  let cred := Some (mkPeerCred (Some 4242%Z) 0 1000) in
  att_role (resolve_caller_with_pin cred (Pinned true) files) = Admin
  /\ att_role (resolve_caller_with_pin cred (Pinned false) files) = Observer
  /\ exists g, role_leb Admin (role_for_group g) = true.
Proof.
  split; [vm_compute; reflexivity|]. split; [vm_compute; reflexivity|].
  destruct (proj2 (resolve_caller_privilege (Some (mkPeerCred (Some 4242%Z) 0 1000)) (Pinned true)
    (mkHostFiles (Some (String.append "root:x:0:" (String.append (String LF "") "wheel:x:10:ada")))
                 (Some "Groups:	10 ") (Some "65534"))) Admin ltac:(discriminate)
    ltac:(vm_compute; reflexivity)) as (c & g & _ & _ & _ & _ & Hg & _).
  exists g. exact Hg.
Defined.
