(* ===== verification/Redact.v ===== *)
(** * Redaction of credentials

    crates/sysknife-daemon/src/dispatcher.rs: what the preview shows of the
    parameters and of the command line of an action that carries a secret. *)

From Stdlib Require Import Ascii Lia.
From stdpp Require Import base list strings.
From S2P Require Import Prelude Json.

Definition REDACTED : string := "<REDACTED>".

Definition credential_keys_for (action_name : string) : list string :=
  if (action_name =? "ProAttach")%string then ["token"]
  else if (action_name =? "ConfigureWifi")%string then ["password"]
  else [].

Definition redact_params (action_name : string) (params : json) : json :=
  match credential_keys_for action_name with
  | [] => params
  | keys =>
      match params with
      | JObj m => JObj (map (fun '(k, v) => (k, if str_in k keys then JStr REDACTED else v)) m)
      | _ => params
      end
  end.

Inductive CredentialArgvSpec : Type :=
| Last
| AfterKeyword (keyword : string).

Definition credential_argv_spec (action_name : string) : option CredentialArgvSpec :=
  if (action_name =? "ProAttach")%string then Some Last
  else if (action_name =? "ConfigureWifi")%string then Some (AfterKeyword "password")
  else None.

(** [iter().enumerate().rev().find(|(i, arg)| ..).map(|(i, _)| i + 1)] *)
Definition slot_after_keyword (keyword : string) (out : list string) : option nat :=
  (fun ia : nat * string => ia.1 + 1) <$>
    find (fun ia : nat * string => (ia.2 =? keyword)%string && (ia.1 + 1 <? length out))
      (rev (imap (fun i a => (i, a)) out)).

Definition secrets_of (action_name : string) (params : json) : list string :=
  omap (fun k => jget k params ≫= as_str) (credential_keys_for action_name).

Definition redact_argv (action_name : string) (params : json) (args : list string) : list string :=
  match credential_keys_for action_name with
  | [] => args
  | _ =>
      match secrets_of action_name params with
      | [] => args
      | secrets =>
          match credential_argv_spec action_name with
          | Some spec =>
              let idx :=
                match spec with
                | Last => Some (length args - 1)
                | AfterKeyword keyword => slot_after_keyword keyword args
                end in
              match idx with
              | Some i => if i <? length args then <[i := REDACTED]> args else args
              | None => args
              end
          | None => map (fun a => if str_in a secrets then REDACTED else a) args
          end
      end
  end.

(** ** Lemmas *)

(** Two objects that differ at most in the values of [keys]. *)
Definition agree_outside (keys : list string) (m m' : list (string * json)) : Prop :=
  Forall2 (fun kv kv' => kv.1 = kv'.1 /\ (str_in kv.1 keys = false -> kv.2 = kv'.2)) m m'.

Lemma assoc_map (f : string -> json -> json) k m :
  assoc k (map (fun '(x, v) => (x, f x v)) m) = f k <$> assoc k m.
Proof.
  induction m as [|[x v] m IH]; simpl; [done|].
  destruct (String.eqb_spec k x); [by subst|done].
Qed.

Lemma redact_params_obj a m :
  redact_params a (JObj m) =
  JObj (map (fun '(k, v) => (k, if str_in k (credential_keys_for a) then JStr REDACTED else v)) m).
Proof.
  unfold redact_params. destruct (credential_keys_for a) as [|k keys]; [|done].
  f_equal. induction m as [|[k v] m IH]; [done|]. cbn [map]. f_equal. exact IH.
Qed.

Lemma imap_snoc {A B} (f : nat -> A -> B) l x : imap f (l ++ [x]) = imap f l ++ [f (length l) x].
Proof. by rewrite imap_app; simpl; rewrite Nat.add_0_r. Qed.

Lemma slot_after_keyword_last kw pre secret :
  slot_after_keyword kw (pre ++ [kw; secret]) = Some (length pre + 1).
Proof.
  unfold slot_after_keyword.
  change (pre ++ [kw; secret]) with (pre ++ [kw] ++ [secret]). rewrite app_assoc.
  rewrite imap_snoc, imap_snoc, !rev_app_distr. cbn [rev app find fst snd].
  rewrite !length_app. cbn [length].
  rewrite (proj2 (Nat.ltb_ge (length pre + 1 + 1) _)) by lia.
  rewrite andb_false_r, String.eqb_refl.
  rewrite (proj2 (Nat.ltb_lt (length pre + 1) _)) by lia. done.
Qed.

Lemma insert_last {A} (pre : list A) x y : <[length pre := y]> (pre ++ [x]) = pre ++ [y].
Proof. rewrite <-(Nat.add_0_r (length pre)). by rewrite insert_app_r. Qed.

Lemma secrets_singleton a k params s :
  credential_keys_for a = [k] -> jget k params = Some (JStr s) -> secrets_of a params = [s].
Proof. unfold secrets_of. intros -> H. simpl. by rewrite H. Qed.

(** ** Properties *)

(** C40: noninterference of the redacted parameters: they do not depend on the
    credential values at all, every credential key that is present reads
    [<REDACTED>], and every other key keeps its value. *)
Theorem redact_params_noninterference a m m' :
  agree_outside (credential_keys_for a) m m' ->
  redact_params a (JObj m) = redact_params a (JObj m')
  /\ forall k, jget k (redact_params a (JObj m)) =
       if str_in k (credential_keys_for a) then (fun _ => JStr REDACTED) <$> jget k (JObj m) else jget k (JObj m).
Proof.
  intros HA. rewrite !redact_params_obj. split.
  - f_equal. induction HA as [|[k v] [k' v'] m m' [Hk Hv] _ IH]; [done|]. simpl in *. subst.
    rewrite IH. destruct (str_in k' (credential_keys_for a)) eqn:E; [done|]. by rewrite Hv.
  - intros k. cbn [jget].
    rewrite (assoc_map (fun k v => if str_in k (credential_keys_for a) then JStr REDACTED else v)).
    by destruct (str_in k (credential_keys_for a)), (assoc k m).
Qed.

(** The secret is cut out of the command line by position, whatever its
    text: the last element for ProAttach, and for ConfigureWifi the element
    after the last [password] keyword that has a successor, so a network or a
    password that is itself the word [password] changes nothing; every other
    element is kept. *)
Theorem redact_argv_slot params pre secret :
  (jget "token" params = Some (JStr secret) ->
   redact_argv "ProAttach" params (pre ++ [secret]) = pre ++ [REDACTED])
  /\ (jget "password" params = Some (JStr secret) ->
      redact_argv "ConfigureWifi" params (pre ++ ["password"; secret])
      = pre ++ ["password"; REDACTED]).
Proof.
  split; intros Hs; unfold redact_argv.
  - change (credential_keys_for "ProAttach") with ["token"].
    rewrite (secrets_singleton _ "token" _ secret) by done.
    change (credential_argv_spec "ProAttach") with (Some Last). cbv iota beta zeta.
    rewrite length_app. simpl length.
    rewrite (proj2 (Nat.ltb_lt _ _)) by lia.
    replace (length pre + 1 - 1) with (length pre) by lia. apply insert_last.
  - change (credential_keys_for "ConfigureWifi") with ["password"].
    rewrite (secrets_singleton _ "password" _ secret) by done.
    change (credential_argv_spec "ConfigureWifi") with (Some (AfterKeyword "password")).
    cbv iota beta zeta. rewrite slot_after_keyword_last, length_app. simpl length.
    rewrite (proj2 (Nat.ltb_lt _ _)) by lia.
    change (pre ++ ["password"; secret]) with (pre ++ ["password"] ++ [secret]).
    change (pre ++ ["password"; REDACTED]) with (pre ++ ["password"] ++ [REDACTED]).
    rewrite !app_assoc. replace (length pre + 1) with (length (pre ++ ["password"]))
      by (rewrite length_app; done). apply insert_last.
Qed.

Lemma redact_params_noninterference_witness :
  redact_params "ProAttach" (JObj [("token", JStr "a"); ("x", JNull)])
  = redact_params "ProAttach" (JObj [("token", JStr "b"); ("x", JNull)]).
Proof.
  exact (proj1 (redact_params_noninterference "ProAttach" [("token", JStr "a"); ("x", JNull)]
    [("token", JStr "b"); ("x", JNull)] ltac:(repeat constructor; done))).
Defined.

Lemma redact_argv_slot_witness :
  redact_argv "ConfigureWifi" (JObj [("password", JStr "password")])
    ["device"; "wifi"; "connect"; "password"; "password"; "password"]
  = ["device"; "wifi"; "connect"; "password"; "password"; REDACTED].
Proof.
  exact (proj2 (redact_argv_slot (JObj [("password", JStr "password")])
    ["device"; "wifi"; "connect"; "password"] "password") eq_refl).
Defined.
