(* ===== verification/Config.v ===== *)
(** * Configuration and default places

    crates/sysknife-core/src/lib.rs (where the socket, the database and the audit
    store are) and crates/sysknife-core/src/config.rs (config.toml and what it puts
    into the environment). The environment is a map of the variables that are valid
    Unicode, a path is the string it is displayed as, and what the file system
    answers is an argument; the TOML reader is a parameter. *)

From Stdlib Require Import Ascii String NArith Lia.
From stdpp Require Import base gmap list strings.
From S2P Require Import Prelude.

Notation environ := (gmap string string).

(** [PathBuf::join]: a relative path is put under the other, an absolute one
    replaces it. *)
Definition is_absolute (path : string) : bool := starts_with "/" path.
Definition path_join (base rest : string) : string :=
  if is_absolute rest then rest
  else if is_empty base || ends_with "/" base then (base ++ rest)%string
  else (base ++ "/" ++ rest)%string.

(** ** Default places *)

Definition PRODUCTION_DATABASE_PATH : string := "/var/lib/sysknife/daemon.sqlite".

(** [status] is the content of /proc/self/status, if it could be read. *)
Definition current_uid (status : option string) : N :=
  default 0%N (s ← status;
    line ← find_map (fun l => if starts_with "Uid:" l then Some l else None) (lines s);
    word ← split_whitespace line !! 1;
    parse_u32 word).

Definition default_listen_uri (e : environ) (status : option string) : string :=
  match e !! "SYSKNIFE_LISTEN_URI" with
  | Some uri => uri
  | None =>
      match e !! "XDG_RUNTIME_DIR" with
      | Some runtime => "unix://" ++ path_join runtime "sysknife/daemon.sock"
      | None => "unix:///tmp/sysknife-" ++ dec_of_N (current_uid status) ++ ".sock"
      end
  end%string.

Definition default_database_path (e : environ) : string :=
  match e !! "SYSKNIFE_DATABASE_PATH" with
  | Some path => path
  | None =>
      match e !! "XDG_STATE_HOME" with
      | Some state => path_join state "sysknife/daemon.sqlite"
      | None =>
          match e !! "HOME" with
          | Some home => path_join home ".local/state/sysknife/daemon.sqlite"
          | None => PRODUCTION_DATABASE_PATH
          end
      end
  end.

(** *** The store an audit command reads *)

Inductive AuditStoreChoice : Type :=
| Explicit (path : string)
| PerUser (path : string)
| SystemStore (path : string).

Definition store_path (c : AuditStoreChoice) : string :=
  match c with Explicit p | PerUser p | SystemStore p => p end.

Definition store_note (c : AuditStoreChoice) : option string :=
  match c with
  | SystemStore path =>
      Some ("no per-user audit store found; reading the system daemon's store at " ++ path)%string
  | Explicit _ | PerUser _ => None
  end.

Definition choose_audit_store_with_paths (explicit : option string) (per_user : string)
    (per_user_exists : bool) (system_path : string) (system_exists : bool) : AuditStoreChoice :=
  match explicit with
  | Some path => Explicit path
  | None =>
      if per_user_exists then PerUser per_user
      else if system_exists then SystemStore system_path
      else PerUser per_user
  end.

(** What [std::fs::metadata] answers. *)
Inductive FsProbe : Type := Found | PermissionDenied | ProbeFailed.

Definition path_is_present_result (p : FsProbe) : bool :=
  match p with Found | PermissionDenied => true | ProbeFailed => false end.
(** [Path::exists] *)
Definition path_exists (p : FsProbe) : bool :=
  match p with Found => true | PermissionDenied | ProbeFailed => false end.

Section Files.
Variable metadata : string -> FsProbe.

Definition path_is_present (path : string) : bool := path_is_present_result (metadata path).

Definition resolve_audit_store_from (explicit : option string) (per_user system : string)
    : AuditStoreChoice :=
  choose_audit_store_with_paths explicit per_user (path_is_present per_user)
    system (path_is_present system).

Definition resolve_audit_store (e : environ) : AuditStoreChoice :=
  resolve_audit_store_from (e !! "SYSKNIFE_DATABASE_PATH") (default_database_path e)
    PRODUCTION_DATABASE_PATH.
End Files.

(** *** The audit key ([resolve_audit_key_path] of audit_chain.rs) *)

Definition not_slash (c : ascii) : bool := negb (Ascii.eqb c "/"%char).

(** A path without the separators and the [.] components it ends with; the root
    stays. [fuel] is the length of the path. *)
Fixpoint bare_end (fuel : nat) (s : string) : string :=
  match fuel with
  | O => s
  | S fuel' =>
      if (s =? "/")%string then s
      else if ends_with "/" s || ends_with "/." s then bare_end fuel' (str_take (String.length s - 1) s)
      else s
  end.
Definition bare_path (s : string) : string := bare_end (String.length s) s.

(** [Path::parent] *)
Definition path_parent (path : string) : option string :=
  let s := bare_path path in
  if is_empty s || (s =? "/")%string then None
  else Some (bare_path (trim_end_while not_slash s)).

Definition resolve_audit_key_path (e : environ) (db_path : string) : string :=
  match e !! "SYSKNIFE_AUDIT_KEY_PATH" with
  | Some path => path
  | None => path_join (default "." (path_parent db_path)) "audit-key"
  end.

(** ** config.toml *)

Record StoragePoolSection : Type := mkPool {
  max_connections : option N;
  acquire_timeout_secs : option N;
  statement_cache_capacity : option N }.
Definition default_pool : StoragePoolSection := mkPool None None None.

Record StorageSection : Type := mkStorage {
  backend : string;
  storage_url : option string;
  storage_pool : option StoragePoolSection }.

Inductive StorageBackend : Type :=
| Sqlite
| Postgres (url : string) (pool : StoragePoolSection).

(** A word between double quotes. *)
Definition quoted (s : string) : string := String (chr 34) (s ++ String (chr 34) "").

Definition NEEDS_URL : text :=
  [Lit "[storage] backend = "; Lit (quoted "postgres"); Lit " requires `url = ";
   Lit (quoted "postgres://..."); Lit "`"].

Definition parsed (s : StorageSection) : result text StorageBackend :=
  let name := to_lower (backend s) in
  if (name =? "sqlite")%string then Ok Sqlite
  else if (name =? "postgres")%string then
    url ← ok_or NEEDS_URL (storage_url s);
    Ok (Postgres url (default default_pool (storage_pool s)))
  else Err [Lit "[storage] unknown backend "; Dbg name; Lit "; expected "; Lit (quoted "sqlite");
            Lit " or "; Lit (quoted "postgres")].

Record DaemonSection : Type := mkDaemonSection {
  daemon_socket : option string;
  daemon_database : option string }.

Record LlmSection : Type := mkLlm {
  llm_provider : option string;
  llm_model : option string;
  llm_ollama_url : option string;
  llm_anthropic_url : option string;
  llm_max_turns : option N;
  llm_ollama_think : option bool }.

Record SyslogForwardSection : Type := mkSyslog {
  syslog_host : string;
  syslog_facility : N;
  enterprise_number : N }.

Definition syslog_validate (s : SyslogForwardSection) : result string () :=
  if (enterprise_number s =? 0)%N then
    Err "[audit.forward.syslog] enterprise_number must be a nonzero IANA Private Enterprise Number"
  else Ok tt.

(** [[policy]] is its override map, [[audit]] its syslog forwarder. *)
Record LacsConfig : Type := mkConfig {
  cfg_daemon : option DaemonSection;
  cfg_llm : option LlmSection;
  cfg_risk_overrides : option (gmap string string);
  cfg_syslog : option SyslogForwardSection;
  cfg_storage : option StorageSection }.
Definition default_config : LacsConfig := mkConfig None None None None None.

(** What reading the file answers. *)
Inductive FileRead : Type :=
| FileText (content : string)
| FileMissing
| FileFailed (e : string).

Section Loading.
(** [toml::from_str] *)
Variable from_toml : string -> result string LacsConfig.

Definition try_load (path : string) (file : FileRead) : result string LacsConfig :=
  match file with
  | FileText content =>
      match from_toml content with
      | Ok c => Ok c
      | Err e => Err ("config file " ++ path ++ " is present but could not be parsed as TOML: "
                      ++ e ++ "; refusing to silently fall back to defaults")%string
      end
  | FileMissing => Ok default_config
  | FileFailed e => Err ("config file " ++ path ++ " exists but could not be read: " ++ e
                         ++ "; refusing to silently fall back to defaults")%string
  end.
End Loading.

(** *** Into the environment *)

Definition set_if_absent (key : string) (value : option string) (e : environ) : environ :=
  match value with
  | Some v => match e !! key with Some _ => e | None => <[key := v]> e end
  | None => e
  end.

Definition socket_uri (socket : string) : string :=
  if starts_with "unix://" socket then socket else ("unix://" ++ socket)%string.

(** The variables the file sets and the values it gives them, in the order they
    are set. *)
Definition config_settings (c : LacsConfig) : list (string * option string) :=
  match cfg_daemon c with
  | Some d => [("SYSKNIFE_LISTEN_URI", socket_uri <$> daemon_socket d);
               ("SYSKNIFE_DATABASE_PATH", daemon_database d)]
  | None => []
  end ++
  match cfg_llm c with
  | Some l => [("SYSKNIFE_LLM_PROVIDER", llm_provider l); ("SYSKNIFE_LLM_MODEL", llm_model l);
               ("SYSKNIFE_OLLAMA_URL", llm_ollama_url l); ("SYSKNIFE_ANTHROPIC_URL", llm_anthropic_url l);
               ("SYSKNIFE_BRAIN_MAX_TURNS", dec_of_N <$> llm_max_turns l);
               ("SYSKNIFE_OLLAMA_THINK",
                (fun think : bool => if think then "true" else "false") <$> llm_ollama_think l)]
  | None => []
  end.

Definition apply_defaults_to_env (c : LacsConfig) (e : environ) : environ :=
  fold_left (fun e kv => set_if_absent kv.1 kv.2 e) (config_settings c) e.

(** *** Where it is *)

Definition has_parent_dir (path : string) : bool := str_in ".." (split_on "/"%char path).
Definition safe_config_home (v : string) : bool := is_absolute v && negb (has_parent_dir v).

(** [None] is the panic when no home is set. *)
Definition config_dir (e : environ) : option string :=
  let xdg_valid := v ← e !! "XDG_CONFIG_HOME"; if safe_config_home v then Some v else None in
  let base := match xdg_valid with
              | Some p => Some p
              | None => (fun home => path_join home ".config") <$> e !! "HOME"
              end in
  (fun b => path_join b "sysknife") <$> base.
Definition config_path (e : environ) : option string := (fun d => path_join d "config.toml") <$> config_dir e.
Definition prefs_path (e : environ) : option string := (fun d => path_join d "prefs.md") <$> config_dir e.

(** [LacsConfig::load]: what the process goes on with, the error it ends with
    (with status 1), or the panic. *)
Definition load (from_toml : string -> result string LacsConfig) (read : string -> FileRead) (e : environ)
    : option (result string LacsConfig) :=
  (fun path => try_load from_toml path (read path)) <$> config_path e.

(** ** Properties *)

Lemma set_if_absent_keeps key v e k x : e !! k = Some x -> set_if_absent key v e !! k = Some x.
Proof.
  intros Hk. unfold set_if_absent. destruct v as [v|]; [|done].
  destruct (e !! key) eqn:E; [done|].
  rewrite lookup_insert_ne; [done|congruence].
Qed.

Lemma settings_keep l e k x :
  e !! k = Some x -> fold_left (fun e kv => set_if_absent kv.1 kv.2 e) l e !! k = Some x.
Proof.
  revert e. induction l as [|kv l IH]; intros e Hk; [done|]. cbn [fold_left].
  apply IH. by apply set_if_absent_keeps.
Qed.

Lemma settings_add l e k :
  e !! k = None -> NoDup (map fst l) ->
  fold_left (fun e kv => set_if_absent kv.1 kv.2 e) l e !! k
    = match find_map (fun kv => if (kv.1 =? k)%string then Some kv.2 else None) l with
      | Some v => v | None => None end.
Proof.
  revert e. induction l as [|[k' v] l IH]; intros e Hk Hnd; [done|].
  cbn [fold_left find_map map fst snd] in *. apply NoDup_cons in Hnd as [Hn Hnd].
  destruct (String.eqb_spec k' k) as [->|Hne].
  - destruct v as [v|].
    + apply settings_keep. unfold set_if_absent. rewrite Hk. apply lookup_insert_eq.
    + change (set_if_absent k None e) with e. rewrite IH by done. clear IH. induction l as [|[k2 v2] l IHl]; [done|]. cbn [find_map fst snd map] in *.
      apply not_elem_of_cons in Hn as [Hn1 Hn2]. apply NoDup_cons in Hnd as [_ Hnd].
      destruct (String.eqb_spec k2 k); [congruence|]. by apply IHl.
  - apply IH; [|done]. unfold set_if_absent. destruct v as [v|]; [|done].
    destruct (e !! k'); [done|]. by rewrite lookup_insert_ne.
Qed.

Lemma config_settings_nodup c : NoDup (map fst (config_settings c)).
Proof.
  unfold config_settings.
  destruct (cfg_daemon c), (cfg_llm c); cbn [map fst app];
    (apply (bool_decide_unpack _); vm_compute; exact I).
Qed.

(** What the configuration file puts into the environment: a variable that is
    set keeps its value, one that is not gets the file's, and no other appears. *)
Theorem environment_wins c e k :
  apply_defaults_to_env c e !! k
    = match e !! k with
      | Some x => Some x
      | None => match find_map (fun kv => if (kv.1 =? k)%string then Some kv.2 else None)
                        (config_settings c) with
                | Some v => v | None => None end
      end.
Proof.
  unfold apply_defaults_to_env. destruct (e !! k) as [x|] eqn:E.
  - by apply settings_keep.
  - apply settings_add; [done|apply config_settings_nodup].
Qed.

(** A database named in the file is one the operator named: the audit commands
    read it and no other, whatever exists. *)
Theorem configured_database_is_explicit metadata c d db e :
  cfg_daemon c = Some d -> daemon_database d = Some db -> e !! "SYSKNIFE_DATABASE_PATH" = None ->
  resolve_audit_store metadata (apply_defaults_to_env c e) = Explicit db.
Proof.
  intros Hc Hd He. unfold resolve_audit_store, resolve_audit_store_from.
  assert (Hk : apply_defaults_to_env c e !! "SYSKNIFE_DATABASE_PATH" = Some db).
  { unfold apply_defaults_to_env. rewrite settings_add by (done || apply config_settings_nodup).
    unfold config_settings. rewrite Hc, Hd. reflexivity. }
  by rewrite Hk.
Qed.

Lemma configured_database_is_explicit_witness :
  resolve_audit_store (fun _ => Found)
    (apply_defaults_to_env
       (mkConfig (Some (mkDaemonSection (Some "/run/s.sock") (Some "/srv/audit.sqlite"))) None None None None)
       {["HOME" := "/root"]}) = Explicit "/srv/audit.sqlite".
Proof.
  apply (configured_database_is_explicit _ _ (mkDaemonSection (Some "/run/s.sock") (Some "/srv/audit.sqlite")));
    [reflexivity|reflexivity|reflexivity].
Defined.

(** The check on [XDG_CONFIG_HOME] is documented to keep the configuration out of
    a system directory such as /etc; an absolute path without [..] is all it asks
    for. *)
Lemma system_config_home_is_accepted :
  config_path {["XDG_CONFIG_HOME" := "/etc"; "HOME" := "/root"]} = Some "/etc/sysknife/config.toml".
Proof. reflexivity. Qed.

(** A listen address of the file is always made a Unix path: the vsock address the
    variable accepts becomes a path of that name. *)
Lemma vsock_socket_becomes_a_path :
  apply_defaults_to_env
    (mkConfig (Some (mkDaemonSection (Some "vsock://3:7777") None)) None None None None) ∅
    !! "SYSKNIFE_LISTEN_URI" = Some "unix://vsock://3:7777".
Proof. reflexivity. Qed.

Example parent_of_file : path_parent "/var/lib/sysknife/daemon.sqlite" = Some "/var/lib/sysknife".
Proof. reflexivity. Qed.
Example parent_of_name : path_parent "audit.db" = Some "".
Proof. reflexivity. Qed.
Example parent_of_dotted : path_parent "//a//b/./" = Some "//a".
Proof. reflexivity. Qed.
Example parent_of_root : path_parent "/" = None.
Proof. reflexivity. Qed.
Example uid_of_status :
  current_uid (Some ("Name:	x" ++ String LF ("Uid:	1000	1000" ++ String LF ""))%string) = 1000%N.
Proof. vm_compute. reflexivity. Qed.
