(* ===== verification/Distro.v ===== *)
(** * Distribution detection

    crates/sysknife-core/src/distro.rs: the strict /etc/os-release parser, the
    classification of the result, and the support policy. *)

From Stdlib Require Import Ascii ZArith NArith Lia.
From stdpp Require Import base list strings.
From S2P Require Import Prelude.

Definition MAX_OS_RELEASE_BYTES : nat := 10 * 1024.
Definition OLDEST_ELIGIBLE_FEDORA_ATOMIC : N := 41.
Definition OLDEST_SUPPORTED_UBUNTU_MAJOR : N := 20.
Definition OLDEST_SUPPORTED_DEBIAN : N := 12.

Inductive ParseError : Type :=
| FileTooLarge
| EmptyFile
| InvalidLine (line : string)
| MismatchedQuotes (key : string)
| InvalidByte (key : string).

Record OsRelease : Type := mkOsRelease {
  os_id : string;
  os_id_like : list string;
  os_version_id : option string;
  os_codename : option string;
  os_variant_id : option string;
  os_pretty_name : option string }.

Inductive DistroId : Type :=
| Fedora (version : N)
| FedoraSilverblue (version : N)
| Ubuntu (major minor : N)
| UbuntuCore (major minor : N)
| Debian (version : option N)
| Other (id : string) (version_id : option string) (id_like : list string).

Inductive DistroFamily : Type := FedoraFamily | DebianFamily | OtherFamily.

#[export] Instance DistroFamily_eq_dec : EqDecision DistroFamily.
Proof. solve_decision. Defined.

(** [{minor:02}] *)
Definition pad2 (n : N) : string :=
  let s := dec_of_N n in if String.length s <? 2 then ("0" ++ s)%string else s.

(** [Display for DistroId] *)
Definition distro_display (d : DistroId) : string :=
  match d with
  | Fedora v => ("Fedora " ++ dec_of_N v)%string
  | FedoraSilverblue v => ("FedoraSilverblue " ++ dec_of_N v)%string
  | Ubuntu major minor => ("Ubuntu " ++ dec_of_N major ++ "." ++ pad2 minor)%string
  | UbuntuCore major minor => ("UbuntuCore " ++ dec_of_N major ++ "." ++ pad2 minor)%string
  | Debian (Some v) => ("Debian " ++ dec_of_N v)%string
  | Debian None => "Debian (unknown version)"
  | Other id (Some v) _ => (id ++ " " ++ v)%string
  | Other id None _ => id
  end.

Definition family (d : DistroId) : DistroFamily :=
  match d with
  | Fedora _ | FedoraSilverblue _ => FedoraFamily
  | Ubuntu _ _ | UbuntuCore _ _ | Debian _ => DebianFamily
  | Other id _ id_like =>
      if contains "fedora" id then FedoraFamily
      else if existsb (fun p => (p =? "debian") || (p =? "ubuntu"))%string id_like then DebianFamily
      else if existsb (fun p => (p =? "fedora") || (p =? "rhel"))%string id_like then FedoraFamily
      else OtherFamily
  end.

Definition is_supported (d : DistroId) : bool :=
  match d with
  | Fedora _ => false
  | FedoraSilverblue v => (OLDEST_ELIGIBLE_FEDORA_ATOMIC <=? v)%N
  | Ubuntu major _ => (OLDEST_SUPPORTED_UBUNTU_MAJOR <=? major)%N
  | Debian version => match version with Some v => (OLDEST_SUPPORTED_DEBIAN <=? v)%N | None => false end
  | UbuntuCore _ _ | Other _ _ _ => false
  end.

(** ** The parser *)

Definition is_valid_key (key : string) : bool :=
  match key with
  | String first rest =>
      is_upper first && str_all (fun c => is_upper c || is_digit c || Ascii.eqb c "_") rest
  | EmptyString => false
  end.

Definition DQUOTE : ascii := chr 34.
Definition SQUOTE : ascii := chr 39.

Definition strip_quotes (key raw : string) : result ParseError string :=
  match first_char raw with
  | None => Ok ""
  | Some first =>
      if Ascii.eqb first DQUOTE || Ascii.eqb first SQUOTE then
        match last_char raw with
        | Some last =>
            if negb (Ascii.eqb last first) || (String.length raw <? 2)
            then Err (MismatchedQuotes key)
            else Ok (String.substring 1 (String.length raw - 2) raw)
        | None => Err (MismatchedQuotes key)
        end
      else Ok raw
  end.

(** [char::is_ascii_control] *)
Definition is_control (c : ascii) : bool := between 0 31 c || between 127 127 c.
Definition invalid_value_byte (c : ascii) : bool :=
  Ascii.eqb c (chr 0) || (is_control c && negb (Ascii.eqb c (chr 9))).

(** [split_ascii_whitespace]: space, TAB, LF, FF and CR separate words. *)
Definition is_ascii_ws (c : ascii) : bool := one_of (enc [32; 9; 10; 12; 13]) c.
Fixpoint split_ascii_go (cur s : string) : list string :=
  match s with
  | EmptyString => flush cur []
  | String a s' =>
      if is_ascii_ws a then flush cur (split_ascii_go "" s')
      else split_ascii_go (cur ++ String a "")%string s'
  end.
Definition raw_split_whitespace (s : string) : list string := split_ascii_go "" s.

(** One line: the key and the value it assigns, [None] for a blank line or a
    comment. *)
Definition parse_line (line : string) : result ParseError (option (string * string)) :=
  if is_empty line || starts_with "#" line then Ok None
  else
    match split_once "="%char line with
    | None => Err (InvalidLine line)
    | Some (key, raw_value) =>
        if negb (is_valid_key key) then Err (InvalidLine line)
        else if is_empty raw_value then Err (InvalidLine line)
        else
          value ← strip_quotes key raw_value;
          if str_exists invalid_value_byte value then Err (InvalidByte key)
          else Ok (Some (key, value))
    end.

(** The loop's state: the captured fields and [found_any]. *)
Record ReleaseAcc : Type := mkReleaseAcc {
  ra_id : option string;
  ra_id_like : list string;
  ra_version_id : option string;
  ra_codename : option string;
  ra_variant_id : option string;
  ra_pretty_name : option string;
  ra_found_any : bool }.

Definition acc0 : ReleaseAcc := mkReleaseAcc None [] None None None None false.

Definition set_field (a : ReleaseAcc) (kv : string * string) : ReleaseAcc :=
  let '(key, value) := kv in
  if (key =? "ID")%string then
    mkReleaseAcc (Some value) (ra_id_like a) (ra_version_id a) (ra_codename a)
      (ra_variant_id a) (ra_pretty_name a) true
  else if (key =? "ID_LIKE")%string then
    mkReleaseAcc (ra_id a) (raw_split_whitespace value) (ra_version_id a) (ra_codename a)
      (ra_variant_id a) (ra_pretty_name a) true
  else if (key =? "VERSION_ID")%string then
    mkReleaseAcc (ra_id a) (ra_id_like a) (Some value) (ra_codename a)
      (ra_variant_id a) (ra_pretty_name a) true
  else if (key =? "VERSION_CODENAME")%string then
    mkReleaseAcc (ra_id a) (ra_id_like a) (ra_version_id a) (Some value)
      (ra_variant_id a) (ra_pretty_name a) true
  else if (key =? "VARIANT_ID")%string then
    mkReleaseAcc (ra_id a) (ra_id_like a) (ra_version_id a) (ra_codename a)
      (Some value) (ra_pretty_name a) true
  else if (key =? "PRETTY_NAME")%string then
    mkReleaseAcc (ra_id a) (ra_id_like a) (ra_version_id a) (ra_codename a)
      (ra_variant_id a) (Some value) true
  else
    mkReleaseAcc (ra_id a) (ra_id_like a) (ra_version_id a) (ra_codename a)
      (ra_variant_id a) (ra_pretty_name a) true.

Fixpoint parse_lines (a : ReleaseAcc) (ls : list string) : result ParseError ReleaseAcc :=
  match ls with
  | [] => Ok a
  | l :: ls' =>
      kv ← parse_line l;
      parse_lines (match kv with Some kv => set_field a kv | None => a end) ls'
  end.

Definition parse_os_release (contents : string) : result ParseError OsRelease :=
  if MAX_OS_RELEASE_BYTES <? String.length contents then Err FileTooLarge
  else
    a ← parse_lines acc0 (lines contents);
    if negb (ra_found_any a) then Err EmptyFile
    else
      id ← ok_or EmptyFile (ra_id a);
      Ok {| os_id := id; os_id_like := ra_id_like a; os_version_id := ra_version_id a;
            os_codename := ra_codename a; os_variant_id := ra_variant_id a;
            os_pretty_name := ra_pretty_name a |}.

(** ** Classification *)

Definition other_of (r : OsRelease) : DistroId := Other (os_id r) (os_version_id r) (os_id_like r).

Definition detect_fedora (r : OsRelease) : DistroId :=
  let is_immutable :=
    match os_variant_id r with
    | Some v => str_in v ["silverblue"; "kinoite"; "sericea"]
    | None => false
    end in
  match os_version_id r ≫= parse_u32 with
  | Some v => if is_immutable then FedoraSilverblue v else Fedora v
  | None => other_of r
  end.

Definition parse_ubuntu_version (v : string) : option (N * N) :=
  match splitn 2 "."%char v with
  | [ma; mi] => major ← parse_u32 ma; minor ← parse_u32 mi; Some (major, minor)
  | _ => None
  end.

Definition detect_ubuntu (r : OsRelease) : DistroId :=
  let is_core := bool_decide (os_variant_id r = Some "core") in
  match os_version_id r ≫= parse_ubuntu_version with
  | Some (major, minor) => if is_core then UbuntuCore major minor else Ubuntu major minor
  | None => other_of r
  end.

Definition detect_debian (r : OsRelease) : DistroId := Debian (os_version_id r ≫= parse_u32).

Definition detect_distro (r : OsRelease) : DistroId :=
  if (os_id r =? "fedora")%string then detect_fedora r
  else if (os_id r =? "ubuntu")%string then detect_ubuntu r
  else if (os_id r =? "debian")%string then detect_debian r
  else other_of r.

Inductive DetectError : Type := DetectIo | DetectParse (e : ParseError).

(** [contents]: what reading /etc/os-release answers. *)
Definition detect (contents : option string) : result DetectError DistroId :=
  match contents with
  | None => Err DetectIo
  | Some c => match parse_os_release c with
              | Err e => Err (DetectParse e)
              | Ok r => Ok (detect_distro r)
              end
  end.

(** ** Lemmas *)

(** The assignments of the file, in order, and the last value of a key. *)
Definition assignments (ls : list string) : list (string * string) :=
  omap (fun l => match parse_line l with Ok (Some kv) => Some kv | _ => None end) ls.

Definition last_value (k : string) (kvs : list (string * string)) : option string :=
  snd <$> find (fun kv => (kv.1 =? k)%string) (rev kvs).

Lemma last_value_snoc k kvs kv :
  last_value k (kvs ++ [kv]) = if (kv.1 =? k)%string then Some kv.2 else last_value k kvs.
Proof. unfold last_value. rewrite rev_app_distr. simpl. by case_match. Qed.

Lemma parse_lines_spec a ls b :
  parse_lines a ls = Ok b
  <-> Forall (fun l => is_ok (parse_line l) = true) ls
      /\ b = fold_left set_field (assignments ls) a.
Proof.
  unfold assignments. revert a. induction ls as [|l ls IH]; intros a; cbn [parse_lines omap].
  - simpl. naive_solver.
  - rewrite Forall_cons. destruct (parse_line l) as [[kv|]|e] eqn:E; cbn [mbind result_bind].
    + rewrite IH. simpl. rewrite E. simpl. naive_solver.
    + rewrite IH. simpl. rewrite E. simpl. naive_solver.
    + simpl. naive_solver.
Qed.

(** What the accumulator holds after a list of assignments. *)
Lemma fold_set_field kvs :
  fold_left set_field kvs acc0 =
  mkReleaseAcc (last_value "ID" kvs)
    (default [] (raw_split_whitespace <$> last_value "ID_LIKE" kvs))
    (last_value "VERSION_ID" kvs) (last_value "VERSION_CODENAME" kvs)
    (last_value "VARIANT_ID" kvs) (last_value "PRETTY_NAME" kvs)
    (negb (bool_decide (kvs = []))).
Proof.
  induction kvs as [|[k v] kvs IH] using rev_ind; [done|].
  rewrite fold_left_app, IH. cbn [fold_left set_field]. rewrite !last_value_snoc. cbn [fst snd].
  rewrite (bool_decide_eq_false_2 (kvs ++ [(k, v)] = [])) by (by destruct kvs). cbn [negb].
  repeat match goal with |- context [if (k =? ?s)%string then _ else _] =>
    destruct (String.eqb_spec k s); [subst; reflexivity|] end.
  reflexivity.
Qed.

Lemma str_exists_all p s : str_exists p s = false <-> str_all (fun c => negb (p c)) s = true.
Proof.
  induction s as [|c s IH]; simpl; [by split|].
  by rewrite orb_false_iff, andb_true_iff, IH, negb_true_iff.
Qed.

Lemma last_char_spec s c : last_char s = Some c -> exists t, s = (t ++ String c "")%string.
Proof.
  induction s as [|a s IH]; [done|]. destruct s as [|b s].
  - intros [= ->]. by exists "".
  - intros H. destruct (IH H) as [t Ht]. exists (String a t). simpl. by rewrite Ht.
Qed.

Lemma substring_app s t : String.substring 0 (String.length s) (s ++ t)%string = s.
Proof. induction s as [|c s IH]; simpl; [by destruct t|by rewrite IH]. Qed.

Lemma strip_quotes_spec key raw v :
  raw <> "" -> strip_quotes key raw = Ok v ->
  (v = raw /\ first_char raw <> Some DQUOTE /\ first_char raw <> Some SQUOTE)
  \/ exists q, (q = DQUOTE \/ q = SQUOTE) /\ raw = String q (v ++ String q "")%string.
Proof.
  unfold strip_quotes. destruct raw as [|q raw]; [done|]. intros _. cbn [first_char].
  case_match eqn:Eq; [|intros [= <-]; left; apply orb_false_iff in Eq as [E1 E2];
    apply Ascii.eqb_neq in E1, E2; naive_solver].
  destruct (last_char (String q raw)) as [l|] eqn:El; [|done].
  case_match eqn:Ec; [done|]. intros [= <-]. apply orb_false_iff in Ec as [E1 E2].
  apply negb_false_iff, Ascii.eqb_eq in E1. subst l. apply Nat.ltb_ge in E2.
  apply last_char_spec in El as [t Ht]. destruct t as [|a t]; simplify_eq/=; [simpl in *; lia|].
  right. exists a. split; [by apply orb_true_iff in Eq as [E|E]; apply Ascii.eqb_eq in E; auto|].
  rewrite length_str_app. simpl. rewrite Nat.add_1_r. simpl. rewrite Nat.sub_0_r.
  by rewrite substring_app.
Qed.

Lemma parse_line_assign l k v :
  parse_line l = Ok (Some (k, v)) ->
  exists raw, l = (k ++ "=" ++ raw)%string /\ is_valid_key k = true /\ raw <> ""
    /\ (v = raw \/ exists q, (q = DQUOTE \/ q = SQUOTE) /\ raw = String q (v ++ String q "")%string)
    /\ str_all (fun c => negb (invalid_value_byte c)) v = true.
Proof.
  unfold parse_line. intros H. case_match; [done|].
  destruct (split_once "="%char l) as [[key raw]|] eqn:Es; [|done].
  apply split_once_spec in Es as [-> _].
  destruct (is_valid_key key) eqn:Ek; [|done]. cbn [negb] in H.
  destruct (is_empty raw) eqn:Er; [done|].
  destruct (strip_quotes key raw) as [v'|] eqn:Eq; [|done]. cbn [mbind result_bind] in H.
  destruct (str_exists invalid_value_byte v') eqn:Ev; simplify_eq.
  exists raw. assert (raw <> "") by (by destruct raw).
  split_and!; [done..| |by apply str_exists_all].
  apply strip_quotes_spec in Eq as [(? & _)|?]; [by left|by right|done].
Qed.

(** ** Properties *)

(** Os-release parsing is strict and exact: it succeeds iff the file is at
    most 10 KiB, every line parses and some line assigns ID; each field is then
    the last value assigned to its key, and every assignment has the grammar
    KEY=VALUE with an upper-case key, a non-empty value whose one pair of quotes
    is removed without evaluating escapes, and no control byte but TAB. *)
Theorem parse_os_release_spec contents r :
  let kvs := assignments (lines contents) in
  (parse_os_release contents = Ok r
   <-> String.length contents <= MAX_OS_RELEASE_BYTES
       /\ Forall (fun l => is_ok (parse_line l) = true) (lines contents)
       /\ last_value "ID" kvs = Some (os_id r)
       /\ os_id_like r = default [] (raw_split_whitespace <$> last_value "ID_LIKE" kvs)
       /\ os_version_id r = last_value "VERSION_ID" kvs
       /\ os_codename r = last_value "VERSION_CODENAME" kvs
       /\ os_variant_id r = last_value "VARIANT_ID" kvs
       /\ os_pretty_name r = last_value "PRETTY_NAME" kvs)
  /\ Forall (fun '(k, v) => exists raw, (k ++ "=" ++ raw)%string ∈ lines contents
       /\ is_valid_key k = true /\ raw <> ""
       /\ (v = raw
           \/ exists q, (q = DQUOTE \/ q = SQUOTE) /\ raw = String q (v ++ String q "")%string)
       /\ str_all (fun c => negb (invalid_value_byte c)) v = true) kvs.
Proof.
  intros kvs. split.
  - unfold parse_os_release. case_match eqn:El.
    { apply Nat.ltb_lt in El. split; [done|]. intros [? _]. lia. }
    apply Nat.ltb_ge in El. rewrite bind_Ok. setoid_rewrite parse_lines_spec.
    rewrite fold_set_field. split.
    + intros (a & [HF ->] & H). cbn in H. case_match; [done|].
      apply bind_Ok in H as (id & Hid & [= <-]). simpl in *.
      fold kvs in Hid |- *. destruct (last_value "ID" kvs) eqn:Ei; simplify_eq/=.
      by split_and!.
    + intros (_ & HF & Hid & H1 & H2 & H3 & H4 & H5). eexists. split; [done|].
      cbn [ra_found_any ra_id ra_id_like ra_version_id ra_codename ra_variant_id ra_pretty_name].
      fold kvs. rewrite bool_decide_eq_false_2 by (intros E; rewrite E in Hid; done).
      cbn [negb]. rewrite Hid. simpl. destruct r; simpl in *; congruence.
  - apply Forall_forall. intros [k v] Hin. unfold kvs, assignments in Hin.
    apply list_elem_of_omap in Hin as (l & Hl & E).
    destruct (parse_line l) as [[kv|]|] eqn:Ep; simplify_eq.
    apply parse_line_assign in Ep as (raw & -> & H). by exists raw.
Qed.

(** The support policy, in terms of the file: a host is eligible iff it is
    Ubuntu (not Core) from 20 on, Debian from 12 on, or an immutable Fedora
    variant from 41 on, with a version that parses as a 32-bit number; and an
    eligible host always has a package family. *)
Theorem eligibility_policy r :
  (is_supported (detect_distro r) = true
   <-> (os_id r = "ubuntu" /\ os_variant_id r <> Some "core"
        /\ exists major minor, os_version_id r ≫= parse_ubuntu_version = Some (major, minor)
             /\ (20 <= major)%N)
       \/ (os_id r = "debian" /\ exists v, os_version_id r ≫= parse_u32 = Some v /\ (12 <= v)%N)
       \/ (os_id r = "fedora"
           /\ (exists var, os_variant_id r = Some var
                 /\ var ∈ ["silverblue"; "kinoite"; "sericea"])
           /\ exists v, os_version_id r ≫= parse_u32 = Some v /\ (41 <= v)%N))
  /\ (is_supported (detect_distro r) = true ->
      family (detect_distro r) = if (os_id r =? "fedora")%string then FedoraFamily else DebianFamily).
Proof.
  unfold detect_distro.
  destruct (String.eqb_spec (os_id r) "fedora") as [Ef|Ef];
    [|destruct (String.eqb_spec (os_id r) "ubuntu") as [Eu|Eu];
    [|destruct (String.eqb_spec (os_id r) "debian") as [Ed|Ed]]].
  - unfold detect_fedora. destruct (os_version_id r ≫= parse_u32) as [v|]; cbv zeta.
    + destruct (os_variant_id r) as [var|].
      * destruct (str_in var ["silverblue"; "kinoite"; "sericea"]) eqn:Ev;
          cbn [is_supported family].
        { apply str_in_spec in Ev. rewrite N.leb_le. unfold OLDEST_ELIGIBLE_FEDORA_ATOMIC.
          split; [|done]. rewrite Ef. split; [|intros [(? & _)|[(? & _)|(_ & _ & w & [= <-] & ?)]]];
          try done. intros. right; right. eauto 10. }
        split; [|done]. split; [done|]. rewrite Ef.
        intros [(? & _)|[(? & _)|(_ & (x & [= <-] & Hx) & _)]]; try done.
        apply str_in_spec in Hx. congruence.
      * simpl. split; [|done]. split; [done|]. rewrite Ef.
        intros [(? & _)|[(? & _)|(_ & (x & ? & _) & _)]]; done.
    + split; [|done]. split; [done|]. rewrite Ef.
      intros [(? & _)|[(? & _)|(_ & _ & w & ? & _)]]; done.
  - unfold detect_ubuntu. rewrite Eu.
    destruct (os_version_id r ≫= parse_ubuntu_version) as [[ma mi]|]; simpl.
    + case_bool_decide as Hc; cbn [is_supported family].
      * split; [|done]. split; [done|]. intros [(_ & ? & _)|[(? & _)|(? & _)]]; done.
      * rewrite N.leb_le. unfold OLDEST_SUPPORTED_UBUNTU_MAJOR. split; [|done]. split.
        { intros. left. eauto 10. }
        intros [(_ & _ & ? & ? & [= <- <-] & ?)|[(? & _)|(? & _)]]; done.
    + split; [|done]. split; [done|].
      intros [(_ & _ & ? & ? & ? & _)|[(? & _)|(? & _)]]; done.
  - unfold detect_debian. rewrite Ed. cbn [is_supported family].
    destruct (os_version_id r ≫= parse_u32) as [v|].
    + rewrite N.leb_le. unfold OLDEST_SUPPORTED_DEBIAN. split; [|done]. split.
      { intros. right; left. eauto. }
      intros [(? & _)|[(_ & ? & [= <-] & ?)|(? & _)]]; done.
    + split; [|done]. split; [done|]. intros [(? & _)|[(_ & ? & ? & ?)|(? & _)]]; done.
  - simpl. split; [|done]. split; [done|]. intros [(? & _)|[(? & _)|(? & _)]]; done.
Qed.
