(* ===== verification/ActionFamily.v ===== *)
(** * Which family an action's mechanism belongs to

    crates/sysknife-core/src/action_family.rs: the lists every consumer (the
    planner, the client's routing guard, the daemon's execution fence) reads. *)

From stdpp Require Import base list strings.
From S2P Require Import Prelude Distro.

Definition FEDORA_ONLY_ACTIONS : list string := [
    "GetSystemState"; "AddLayeredPackage"; "RemoveLayeredPackage"; "ReplaceLayeredPackage";
    "RemoveBasePackage"; "ResetLayeredPackageOverride"; "GetLayeredPackages";
    "GetDeploymentHistory"; "ListDeployments"; "CleanupDeployments"; "RollbackDeployment";
    "PinDeployment"; "UnpinDeployment"; "RebaseSystem"; "GetKernelArguments";
    "SetKernelArguments"; "UpdateSystem"; "InstallPackages"; "RemovePackages";
    "GetPendingUpdates"; "ListPackageRepositories"; "AddPackageRepository";
    "RemovePackageRepository"; "EnablePackageRepository"; "DisablePackageRepository"].

Definition NON_CANONICAL_ON_DEBIAN : list string := [
    "GetFirewallState"; "ConfigureFirewall"; "ListToolboxes"; "CreateToolbox"; "RemoveToolbox"].

Definition DEBIAN_ONLY_ACTIONS : list string := [
    "AptUpdate"; "AptUpgrade"; "AptInstall"; "AptRemove"; "AptPurge"; "AptAutoremove";
    "AptHold"; "AptUnhold"; "AptSearch"; "AptListInstalled"; "AptShow"; "AptListUpgradable";
    "AptHistoryList"; "ConfigureUnattendedUpgrades"; "GetAptPins"; "SetAptPin"; "RemoveAptPin";
    "GrubGetKargs"; "GrubSetKargs"].

Definition UBUNTU_ONLY_ACTIONS : list string := [
    "AddPpa"; "RemovePpa"; "CheckPendingReboot"; "UbuntuReleaseUpgrade"; "ProStatus";
    "ProAttach"; "ProDetach"; "EnableProService"; "DisableProService"; "LivepatchStatus"].

Definition NON_CANONICAL_ON_DEBIAN_HOST : list string := [
    "SnapInstall"; "SnapRemove"; "SnapRefresh"; "SnapHold"; "SnapUnhold"; "SnapList";
    "SnapInfo"; "SnapRevert"; "SnapClassicInstall"; "NetplanGetConfig"; "NetplanApply";
    "NetplanSet"; "NetplanGenerate"; "MultipassList"].

Definition NON_CANONICAL_ON_FEDORA : list string := [
    "GetHostState"; "SnapInstall"; "SnapRemove"; "SnapRefresh"; "SnapHold"; "SnapUnhold";
    "SnapList"; "SnapInfo"; "SnapRevert"; "SnapClassicInstall"; "UfwEnable"; "UfwDisable";
    "UfwAllow"; "UfwDeny"; "UfwReset"; "UfwStatus"; "DistroboxList"; "DistroboxCreate";
    "DistroboxRemove"; "NetplanGetConfig"; "NetplanApply"; "NetplanSet"; "NetplanGenerate";
    "AppArmorStatus"; "AppArmorEnforce"; "AppArmorComplain"; "CloudInitStatus";
    "UbuntuInstallFlatpak"; "UbuntuRemoveFlatpak"; "UbuntuUpdateFlatpak"; "UbuntuListFlatpaks";
    "Fail2banStatus"; "Fail2banBanIp"; "Fail2banUnbanIp"; "ConfigureFail2banJail";
    "MultipassList"; "UfwDeleteRule"; "UfwLimit"].

Definition action_requires_distro (action : string) : bool :=
  existsb (str_in action) [FEDORA_ONLY_ACTIONS; DEBIAN_ONLY_ACTIONS; UBUNTU_ONLY_ACTIONS].

Definition action_requires_supported_host (action : string) : bool :=
  action_requires_distro action
  || existsb (str_in action)
       [NON_CANONICAL_ON_DEBIAN; NON_CANONICAL_ON_DEBIAN_HOST; NON_CANONICAL_ON_FEDORA].

Definition is_ubuntu (d : DistroId) : bool :=
  match d with Ubuntu _ _ => true | _ => false end.

Definition action_matches_distro (action : string) (distro : DistroId) : bool :=
  if str_in action UBUNTU_ONLY_ACTIONS then is_ubuntu distro
  else if str_in action DEBIAN_ONLY_ACTIONS then bool_decide (family distro = DebianFamily)
  else if str_in action FEDORA_ONLY_ACTIONS then bool_decide (family distro = FedoraFamily)
  else true.

(** ** Lemmas *)

(** [l] and [m] share no name. *)
Definition names_disjoint (l m : list string) : bool := forallb (fun x => negb (str_in x m)) l.

Lemma names_disjoint_spec l m a :
  names_disjoint l m = true -> str_in a l = true -> str_in a m = false.
Proof.
  unfold names_disjoint. rewrite forallb_forall. intros H Ha.
  apply str_in_spec, list_elem_of_In, H in Ha. by apply negb_true_iff in Ha.
Qed.

Lemma fences_disjoint :
  names_disjoint FEDORA_ONLY_ACTIONS DEBIAN_ONLY_ACTIONS
  && names_disjoint FEDORA_ONLY_ACTIONS UBUNTU_ONLY_ACTIONS
  && names_disjoint DEBIAN_ONLY_ACTIONS UBUNTU_ONLY_ACTIONS
  && names_disjoint (FEDORA_ONLY_ACTIONS ++ DEBIAN_ONLY_ACTIONS ++ UBUNTU_ONLY_ACTIONS)
       NON_CANONICAL_ON_DEBIAN
  && names_disjoint FEDORA_ONLY_ACTIONS (NON_CANONICAL_ON_FEDORA ++ NON_CANONICAL_ON_DEBIAN_HOST)
  = true.
Proof. vm_compute. reflexivity. Qed.

Lemma requires_distro_cases a :
  action_requires_distro a = str_in a FEDORA_ONLY_ACTIONS || str_in a DEBIAN_ONLY_ACTIONS
    || str_in a UBUNTU_ONLY_ACTIONS.
Proof.
  unfold action_requires_distro. cbn [existsb]. by rewrite orb_false_r, orb_assoc.
Qed.

(** ** Properties *)

(** The three hard fences are exclusive and total over the families: a
    fenced action matches exactly the hosts of its own list's family (an
    Ubuntu-only one only Ubuntu itself), so no host can run both a Fedora-only
    and a Debian- or Ubuntu-only action; an unfenced action matches every host. *)
Theorem family_fence_exclusive a d :
  action_matches_distro a d = true
  <-> (str_in a FEDORA_ONLY_ACTIONS = true -> family d = FedoraFamily)
      /\ (str_in a DEBIAN_ONLY_ACTIONS = true -> family d = DebianFamily)
      /\ (str_in a UBUNTU_ONLY_ACTIONS = true ->
            family d = DebianFamily /\ exists major minor, d = Ubuntu major minor).
Proof.
  pose proof fences_disjoint as HD. bools. unfold action_matches_distro.
  destruct (str_in a UBUNTU_ONLY_ACTIONS) eqn:Eu;
    [|destruct (str_in a DEBIAN_ONLY_ACTIONS) eqn:Ed];
    [| |destruct (str_in a FEDORA_ONLY_ACTIONS) eqn:Ef].
  - assert (str_in a DEBIAN_ONLY_ACTIONS = false) as ->.
    { destruct (str_in a DEBIAN_ONLY_ACTIONS) eqn:E; [|done].
      by rewrite (names_disjoint_spec _ _ a H2 E) in Eu. }
    assert (str_in a FEDORA_ONLY_ACTIONS = false) as ->.
    { destruct (str_in a FEDORA_ONLY_ACTIONS) eqn:E; [|done].
      by rewrite (names_disjoint_spec _ _ a H3 E) in Eu. }
    destruct d; simpl; naive_solver.
  - assert (str_in a FEDORA_ONLY_ACTIONS = false) as ->.
    { destruct (str_in a FEDORA_ONLY_ACTIONS) eqn:E; [|done].
      by rewrite (names_disjoint_spec _ _ a H E) in Ed. }
    rewrite bool_decide_eq_true. naive_solver.
  - rewrite bool_decide_eq_true. naive_solver.
  - naive_solver.
Qed.
