(* ===== verification/Framing.v ===== *)
(** * Length-prefixed framing

    crates/sysknife-daemon/src/transport/framing.rs: every message on the
    socket is a 4-byte little-endian length and that many bytes. A stream is the
    list of events its reads answer with: the bytes of a segment (a read takes
    at most what it asks for and leaves the rest) or an I/O error; the end of
    the list is the end of the stream. *)

From Stdlib Require Import Ascii ZArith NArith Lia.
From stdpp Require Import base list.
From S2P Require Import Prelude Types.

Inductive IoError : Type := UnexpectedEof | OtherIo (errno : Z).

Inductive FramingError : Type :=
| MessageTooLarge (n : N)
| Io (e : IoError).

Inductive event : Type :=
| Seg (bs : bytes)
| IoFail (e : IoError).

Definition INITIAL_BODY_CAPACITY : nat := 64 * 1024.
Definition READ_CHUNK_BYTES : nat := 64 * 1024.

(** ** Length prefix *)

Definition byte_of_N (n : N) : ascii := ascii_of_N (n mod 256).

(** [u32::to_le_bytes] *)
Definition to_le_bytes (n : N) : bytes :=
  [byte_of_N n; byte_of_N (n / 256); byte_of_N (n / 65536); byte_of_N (n / 16777216)].

(** [u32::from_le_bytes] *)
Definition from_le_bytes (h : bytes) : N :=
  match h with
  | [a; b; c; d] =>
      (N_of_ascii a + 256 * N_of_ascii b + 65536 * N_of_ascii c
       + 16777216 * N_of_ascii d)%N
  | _ => 0%N
  end.

(** ** Sending *)

Definition send (data : bytes) : result FramingError bytes :=
  let len := N.of_nat (length data) in
  if (MAX_MESSAGE_BYTES <? len)%N then Err (MessageTooLarge len)
  else Ok (to_le_bytes len ++ data).

(** ** Reading *)

(** One [read] of at most [want] bytes (never 0 here); an empty answer is the
    end of the stream. *)
Fixpoint read (want : nat) (st : list event) : result IoError bytes * list event :=
  match st with
  | [] => (Ok [], [])
  | IoFail e :: st' => (Err e, st')
  | Seg [] :: st' => read want st'
  | Seg bs :: st' => (Ok (take want bs), if want <? length bs then Seg (drop want bs) :: st' else st')
  end.

(** The two reading loops: [read_exact] for the header ([chunk] = what is
    missing) and the body loop. [fuel] bounds the number of reads; each takes at
    least one byte of what is missing. The third component lists the sizes the
    loop asked for. *)
Fixpoint read_loop (fuel chunk len : nat) (acc : bytes) (st : list event)
    : result IoError bytes * list event * list nat :=
  match fuel with
  | O => (Ok acc, st, [])
  | S fuel' =>
      if length acc <? len then
        let want := Nat.min (len - length acc) chunk in
        match read want st with
        | (Err e, st') => (Err e, st', [want])
        | (Ok [], st') => (Err UnexpectedEof, st', [want])
        | (Ok bs, st') =>
            let '(r, st'', wants) := read_loop fuel' chunk len (acc ++ bs) st' in
            (r, st'', want :: wants)
        end
      else (Ok acc, st, [])
  end.

(** [read_exact] of [n] bytes. *)
Definition read_exact (n : nat) (st : list event) : result IoError bytes * list event * list nat :=
  read_loop (S n) n n [] st.

Definition recv (st : list event) : result FramingError bytes * list event * list nat :=
  let '(h, st1, w1) := read_exact 4 st in
  match h with
  | Err e => (Err (Io e), st1, w1)
  | Ok header =>
      let len := from_le_bytes header in
      if (MAX_MESSAGE_BYTES <? len)%N then (Err (MessageTooLarge len), st1, w1)
      else
        let n := N.to_nat len in
        let '(b, st2, w2) := read_loop (S n) READ_CHUNK_BYTES n [] st1 in
        (match b with Ok body => Ok body | Err e => Err (Io e) end, st2, w1 ++ w2)
  end.

(** The bytes a stream carries before its first error or its end. *)
Fixpoint carried (st : list event) : bytes :=
  match st with
  | Seg bs :: st' => bs ++ carried st'
  | _ => []
  end.

(** The stream goes on until it ends: no error in it. *)
Definition no_io_error (st : list event) : Prop :=
  Forall (fun e => match e with IoFail _ => False | Seg _ => True end) st.

(** ** Lemmas *)

Lemma length_to_le_bytes n : length (to_le_bytes n) = 4.
Proof. done. Qed.

Lemma N_of_byte n : N_of_ascii (byte_of_N n) = (n mod 256)%N.
Proof. unfold byte_of_N. apply N_ascii_embedding. by apply N.mod_lt. Qed.

Lemma from_to_le_bytes n : (n <= U32_MAX)%N -> from_le_bytes (to_le_bytes n) = n.
Proof.
  intros Hn. unfold from_le_bytes, to_le_bytes. rewrite !N_of_byte.
  unfold U32_MAX in Hn.
  assert (E1 : (n / 65536 = n / 256 / 256)%N) by (rewrite N.Div0.div_div; done).
  assert (E2 : (n / 16777216 = n / 256 / 256 / 256)%N) by (rewrite !N.Div0.div_div; done).
  rewrite E1, E2.
  pose proof (N.div_mod n 256 ltac:(lia)).
  pose proof (N.div_mod (n / 256) 256 ltac:(lia)).
  pose proof (N.div_mod (n / 256 / 256) 256 ltac:(lia)).
  pose proof (N.div_mod (n / 256 / 256 / 256) 256 ltac:(lia)).
  assert (n / 256 / 256 / 256 < 256)%N.
  { rewrite !N.Div0.div_div. apply N.Div0.div_lt_upper_bound. lia. }
  rewrite (N.mod_small (n / 256 / 256 / 256) 256) by done. lia.
Qed.

Lemma to_from_le_bytes h : length h = 4 -> to_le_bytes (from_le_bytes h) = h.
Proof.
  destruct h as [|a [|b [|c [|d [|]]]]]; try done. intros _.
  unfold from_le_bytes, to_le_bytes, byte_of_N.
  pose proof (N_ascii_bounded a). pose proof (N_ascii_bounded b).
  pose proof (N_ascii_bounded c). pose proof (N_ascii_bounded d).
  set (x := N_of_ascii a) in *. set (y := N_of_ascii b) in *.
  set (z := N_of_ascii c) in *. set (w := N_of_ascii d) in *.
  assert (E1 : ((x + 256 * y + 65536 * z + 16777216 * w) / 256 = y + 256 * z + 65536 * w)%N)
    by (symmetry; apply (N.div_unique _ _ _ x); lia).
  assert (E2 : ((x + 256 * y + 65536 * z + 16777216 * w) / 65536 = z + 256 * w)%N)
    by (symmetry; apply (N.div_unique _ _ _ (x + 256 * y)%N); lia).
  assert (E3 : ((x + 256 * y + 65536 * z + 16777216 * w) / 16777216 = w)%N)
    by (symmetry; apply (N.div_unique _ _ _ (x + 256 * y + 65536 * z)%N); lia).
  rewrite E1, E2, E3.
  rewrite <-(N.mod_unique (x + 256 * y + 65536 * z + 16777216 * w) 256
    (y + 256 * z + 65536 * w) x) by lia.
  rewrite <-(N.mod_unique (y + 256 * z + 65536 * w) 256 (z + 256 * w) y) by lia.
  rewrite <-(N.mod_unique (z + 256 * w) 256 w z) by lia.
  rewrite (N.mod_small w 256) by lia.
  unfold x, y, z, w. by rewrite !ascii_N_embedding.
Qed.

Lemma read_spec want st :
  0 < want -> no_io_error st ->
  exists st', read want st = (Ok (take (length (carried st) - length (carried st')) (carried st)), st')
    /\ no_io_error st' /\ carried st' = drop (length (carried st) - length (carried st')) (carried st)
    /\ length (carried st) - length (carried st') <= want
    /\ (carried st <> [] -> length (carried st') < length (carried st)).
Proof.
  intros Hw. induction 1 as [|[bs|e] st He Hst IH]; [|destruct bs as [|b bs]|done].
  - exists []. simpl. split_and!; try done; (by constructor) || lia.

  - destruct IH as (st' & ? & ? & ? & ? & ?). by exists st'.
  - assert (Er : read want (Seg (b :: bs) :: st) = (Ok (take want (b :: bs)),
      if want <? length (b :: bs) then Seg (drop want (b :: bs)) :: st else st)) by done.
    rewrite Er. clear Er. cbn [carried].
    assert (Hl : 0 < length (b :: bs)) by (simpl; lia).
    revert Hl. generalize (b :: bs) as l. clear b bs He. intros bs Hl.
    case_match eqn:E.
    + apply Nat.ltb_lt in E. exists (Seg (drop want bs) :: st). cbn [carried].
      rewrite !length_app, length_drop.
      replace (length bs + length (carried st)
        - (length bs - want + length (carried st))) with want by lia.
      rewrite take_app_le, drop_app_le by lia. split_and!; try done; (by constructor) || lia.
    + apply Nat.ltb_ge in E. exists st. rewrite length_app.
      replace (length bs + length (carried st) - length (carried st))
        with (length bs) by lia.
      rewrite take_app_length, drop_app_length. split_and!; try done.
      * by rewrite take_ge.
      * lia.
Qed.

Lemma read_loop_spec fuel chunk len acc st :
  0 < chunk -> no_io_error st -> len - length acc < fuel ->
  exists st' wants,
    read_loop fuel chunk len acc st =
      (if length (carried st) <? len - length acc then Err UnexpectedEof
       else Ok (acc ++ take (len - length acc) (carried st)), st', wants)
    /\ no_io_error st'
    /\ (len - length acc <= length (carried st) ->
        carried st' = drop (len - length acc) (carried st))
    /\ Forall (fun w => 0 < w <= chunk) wants.
Proof.
  intros Hc. revert acc st. induction fuel as [|fuel IH]; intros acc st Hst Hf; [lia|].
  cbn [read_loop]. destruct (Nat.ltb_spec (length acc) len) as [Hlt|Hge].
  - set (want := Nat.min (len - length acc) chunk).
    destruct (read_spec want st ltac:(lia) Hst) as (st1 & E & Hst1 & Hc1 & Hle & Hprog).
    rewrite E. set (k := length (carried st) - length (carried st1)) in *.
    destruct (decide (carried st = [])) as [Hnil|Hne].
    + rewrite Hnil, take_nil. exists st1, [want].
      destruct (Nat.ltb_spec (length (@nil ascii)) (len - length acc)); [|simpl in *; lia].
      split_and!; try done; [simpl; lia|]. repeat constructor; lia.
    + specialize (Hprog Hne).
      assert (Hlk : length (take k (carried st)) = k) by (rewrite length_take; lia).
      destruct (take k (carried st)) as [|b bs] eqn:Et; [simpl in Hlk; lia|].
      rewrite <-Et in *.
      destruct (IH (acc ++ take k (carried st)) st1 Hst1) as (st2 & wants & E2 & Hst2 & Hd & Hw).
      { rewrite length_app. lia. }
      rewrite E2. exists st2, (want :: wants). rewrite length_app in *. rewrite Hlk in *.
      rewrite Hc1 in *. rewrite length_drop in *. split_and!.
      * f_equal. f_equal.
        destruct (Nat.ltb_spec (length (carried st) - k) (len - (length acc + k)));
        destruct (Nat.ltb_spec (length (carried st)) (len - length acc)); try lia; [done|].
        f_equal. rewrite <-app_assoc. f_equal.
        rewrite take_take_drop. f_equal. lia.
      * done.
      * intros ?. rewrite Hd by lia. rewrite drop_drop. f_equal. lia.
      * constructor; [lia|done].
  - exists st, []. replace (len - length acc) with 0 by lia.
    destruct (Nat.ltb_spec (length (carried st)) 0); [lia|].
    rewrite take_0, app_nil_r, drop_0. done.
Qed.

Lemma read_exact_spec n st :
  0 < n -> no_io_error st ->
  exists st' wants,
    read_exact n st =
      (if length (carried st) <? n then Err UnexpectedEof else Ok (take n (carried st)), st', wants)
    /\ no_io_error st'
    /\ (n <= length (carried st) -> carried st' = drop n (carried st))
    /\ Forall (fun w => 0 < w <= n) wants.
Proof.
  intros Hn Hst. destruct (read_loop_spec (S n) n n [] st Hn Hst ltac:(simpl; lia))
    as (st' & w & E & ? & Hd & ?).
  cbn [length app] in E, Hd. rewrite Nat.sub_0_r in *. by exists st', w.
Qed.

(** What one [recv] answers, as a function of the bytes alone. *)
Definition recv_answer (bs : bytes) : result FramingError bytes :=
  if length bs <? 4 then Err (Io UnexpectedEof)
  else
    let len := from_le_bytes (take 4 bs) in
    if (MAX_MESSAGE_BYTES <? len)%N then Err (MessageTooLarge len)
    else if length (drop 4 bs) <? N.to_nat len then Err (Io UnexpectedEof)
    else Ok (take (N.to_nat len) (drop 4 bs)).

Lemma chunk_pos : 0 < READ_CHUNK_BYTES /\ 4 <= READ_CHUNK_BYTES.
Proof. split; apply Nat.leb_le; vm_compute; reflexivity. Qed.

Lemma recv_spec st :
  no_io_error st ->
  exists st' wants,
    recv st = (recv_answer (carried st), st', wants)
    /\ no_io_error st'
    /\ (forall body, recv_answer (carried st) = Ok body ->
        carried st' = drop (length body) (drop 4 (carried st)))
    /\ Forall (fun w => w <= READ_CHUNK_BYTES) wants.
Proof.
  intros Hst. destruct chunk_pos as [Hc H4].
  destruct (read_exact_spec 4 st ltac:(lia) Hst) as (st1 & w1 & E & Hst1 & Hd1 & Hw1).
  unfold recv, recv_answer. rewrite E. clear E.
  assert (Hw1' : Forall (fun w => w <= READ_CHUNK_BYTES) w1)
    by (eapply Forall_impl; [exact Hw1|]; simpl; lia).
  destruct (Nat.ltb_spec (length (carried st)) 4); [by exists st1, w1|].
  specialize (Hd1 ltac:(lia)). cbv zeta.
  set (len := from_le_bytes (take 4 (carried st))).
  case_match; [by exists st1, w1|].
  destruct (read_loop_spec (S (N.to_nat len)) READ_CHUNK_BYTES (N.to_nat len) [] st1 Hc Hst1
    ltac:(simpl; lia)) as (st2 & w2 & E2 & Hst2 & Hd2 & Hw2).
  rewrite E2. cbn [length] in *. rewrite Nat.sub_0_r, Hd1 in *. exists st2, (w1 ++ w2).
  split_and!; [by case_match|done| |].
  - case_match eqn:El; [done|]. intros body [= <-]. apply Nat.ltb_ge in El.
    rewrite Hd2 by done. rewrite length_take_le by done. done.
  - apply Forall_app. split; [done|]. eapply Forall_impl; [exact Hw2|]. simpl. lia.
Qed.

(** ** Properties *)

(** Framing round trip. A message of at most 4 MiB that is sent is received
    whole and alone, however the transport cuts the bytes into segments, and what
    follows it stays in the stream; no read ever asks for more than the chunk
    size. *)
Theorem framing_roundtrip data frame rest st :
  send data = Ok frame -> no_io_error st -> carried st = frame ++ rest ->
  exists st' wants, recv st = (Ok data, st', wants)
    /\ no_io_error st' /\ carried st' = rest
    /\ Forall (fun w => w <= READ_CHUNK_BYTES) wants.
Proof.
  unfold send. intros Hs Hst Hc. case_match eqn:E; [done|]. injection Hs as <-.
  change (carried st = to_le_bytes (N.of_nat (length data)) ++ data ++ rest) in Hc.
  apply N.ltb_ge in E.
  assert (Ha : recv_answer (carried st) = Ok data).
  { unfold recv_answer. rewrite Hc.
    assert (Ht : take 4 (to_le_bytes (N.of_nat (length data)) ++ data ++ rest)
      = to_le_bytes (N.of_nat (length data))) by done.
    assert (Hd : drop 4 (to_le_bytes (N.of_nat (length data)) ++ data ++ rest) = data ++ rest)
      by done.
    rewrite Ht, Hd, from_to_le_bytes by (unfold U32_MAX, MAX_MESSAGE_BYTES in *; lia).
    rewrite (proj2 (N.ltb_ge _ _) E), Nat2N.id.
    rewrite (proj2 (Nat.ltb_ge _ _)), (proj2 (Nat.ltb_ge _ _)).
    - by rewrite take_app_length.
    - rewrite length_app. lia.
    - rewrite length_app, length_to_le_bytes. lia. }
  destruct (recv_spec st Hst) as (st' & w & E' & ? & Hd & ?).
  rewrite Ha in E'. exists st', w. split_and!; [done|done| |done].
  rewrite (Hd data) by done. rewrite Hc.
  change (drop 4 (to_le_bytes (N.of_nat (length data)) ++ data ++ rest)) with (data ++ rest).
  by rewrite drop_app_length.
Qed.

(** Receiving is total and fails exactly on a frame that cannot be complete:
    whatever the segments, the answer depends only on the bytes before the end
    of the stream, a header over the bound is refused before any body byte is
    asked for, and a short header or body is an error, never a short message. *)
Theorem recv_total st :
  no_io_error st ->
  exists st' wants, recv st = (recv_answer (carried st), st', wants)
    /\ (forall body, fst (fst (recv st)) = Ok body ->
        exists rest, carried st = to_le_bytes (N.of_nat (length body)) ++ body ++ rest
          /\ (N.of_nat (length body) <= MAX_MESSAGE_BYTES)%N).
Proof.
  intros Hst. destruct (recv_spec st Hst) as (st' & w & E & _ & _ & _).
  exists st', w. split; [done|]. rewrite E. cbn [fst]. intros body.
  unfold recv_answer. intros H. case_match eqn:E1; [done|]. cbv zeta in H.
  case_match eqn:E2; [done|]. case_match eqn:E3; [done|]. simplify_eq.
  apply Nat.ltb_ge in E1, E3. apply N.ltb_ge in E2.
  set (len := from_le_bytes (take 4 (carried st))) in *.
  rewrite length_take_le by done. rewrite N2Nat.id.
  exists (drop (N.to_nat len) (drop 4 (carried st))). split; [|done].
  rewrite take_drop, <-(take_drop 4 (carried st)) at 1. f_equal.
  unfold len. symmetry. apply to_from_le_bytes. rewrite length_take_le; lia.
Qed.

Lemma framing_roundtrip_witness :
  exists st' w, recv [Seg [chr 2; chr 0]; Seg [chr 0; chr 0; "h"%char]; Seg ["i"%char; "x"%char]]
    = (Ok ["h"%char; "i"%char], st', w) /\ carried st' = ["x"%char].
Proof.
  destruct (framing_roundtrip ["h"%char; "i"%char]
    ([chr 2; chr 0; chr 0; chr 0; "h"%char; "i"%char]) ["x"%char]
    [Seg [chr 2; chr 0]; Seg [chr 0; chr 0; "h"%char]; Seg ["i"%char; "x"%char]]
    ltac:(reflexivity) ltac:(repeat constructor) ltac:(reflexivity)) as (st' & w & E & _ & Hc & _).
  exists st', w. split; [exact E|exact Hc].
Defined.

Lemma recv_total_witness :
  exists st' w, recv [Seg [chr 3; chr 0; chr 0; chr 0; "h"%char]] = (Err (Io UnexpectedEof), st', w).
Proof.
  destruct (recv_total [Seg [chr 3; chr 0; chr 0; chr 0; "h"%char]] ltac:(repeat constructor))
    as (st' & w & E & _).
  exists st', w. rewrite E. reflexivity.
Defined.
