(* ===== verification/Ip.v ===== *)
(** * IP addresses

    [std::net::IpAddr] as the catalogue uses it: [FromStr] (the recursive
    descent parser of core::net) and [Display]. An IPv4 address is its four
    bytes, an IPv6 address its eight 16-bit groups. *)

From Stdlib Require Import Ascii String NArith Lia.
From stdpp Require Import base list strings.
From S2P Require Import Prelude.

Inductive IpAddr : Type :=
| V4 (octets : list N)
| V6 (groups : list N).

#[export] Instance IpAddr_eq_dec : EqDecision IpAddr.
Proof. solve_decision. Defined.

(** ** Numbers *)

(** [char::to_digit(radix)] *)
Definition to_digit (radix : N) (c : ascii) : option N :=
  let n := N_of_ascii c in
  let d := if is_digit c then Some (n - 48)%N
           else if between 97 122 c then Some (n - 87)%N
           else if between 65 90 c then Some (n - 55)%N
           else None in
  v ← d; if (v <? radix)%N then Some v else None.

(** [read_number] after [count] digits worth [acc]: the value, the digits read
    and the rest of the input. Too many digits or a value past [max] is no
    number. *)
Fixpoint read_digits (radix max : N) (max_digits : nat) (acc : N) (count : nat) (s : string)
    : option (N * nat * string) :=
  match s with
  | String c s' =>
      match to_digit radix c with
      | Some d =>
          let acc' := (acc * radix + d)%N in
          if (max <? acc')%N || (max_digits <? S count) then None
          else read_digits radix max max_digits acc' (S count) s'
      | None => Some (acc, count, s)
      end
  | EmptyString => Some (acc, count, s)
  end.

Definition read_number (radix max : N) (max_digits : nat) (allow_zero_prefix : bool) (s : string)
    : option (N * string) :=
  '(v, count, rest) ← read_digits radix max max_digits 0 0 s;
  if (count =? 0) || negb allow_zero_prefix && starts_with "0" s && (1 <? count) then None
  else Some (v, rest).

(** ** Addresses *)

(** [read_separator(':', i, ..)]: the separator, except before the first part. *)
Definition read_separator (sep : string) (i : nat) (s : string) : option string :=
  match i with O => Some s | S _ => strip_prefix sep s end.

Fixpoint read_octets (left i : nat) (s : string) : option (list N * string) :=
  match left with
  | O => Some ([], s)
  | S left' =>
      s ← read_separator "." i s;
      '(v, s) ← read_number 10 255 3 false s;
      '(vs, s) ← read_octets left' (S i) s;
      Some (v :: vs, s)
  end.
Definition read_ipv4_addr (s : string) : option (list N * string) := read_octets 4 0 s.

(** [read_groups] into [left] slots, from slot [i] of [i + left]: the groups,
    whether they end with an embedded IPv4 address, and the rest. *)
Fixpoint read_groups (left i : nat) (s : string) : list N * bool * string :=
  match left with
  | O => ([], false, s)
  | S left' =>
      let embedded :=
        match left' with
        | O => None
        | S _ => s ← read_separator ":" i s; read_ipv4_addr s
        end in
      match embedded with
      | Some (octets, rest) =>
          let o k := nth k octets 0%N in
          ([(o 0%nat * 256 + o 1%nat)%N; (o 2%nat * 256 + o 3%nat)%N], true, rest)
      | None =>
          match s ← read_separator ":" i s; read_number 16 65535 4 true s with
          | Some (g, rest) =>
              let '(gs, v4, rest) := read_groups left' (S i) rest in (g :: gs, v4, rest)
          | None => ([], false, s)
          end
      end
  end.

Definition read_ipv6_addr (s : string) : option (list N * string) :=
  let '(head, head_ipv4, s) := read_groups 8 0 s in
  if length head =? 8 then Some (head, s)
  else if head_ipv4 then None
  else
    s ← strip_prefix "::" s;
    let '(tail, _, s) := read_groups (7 - length head) 0 s in
    Some (head ++ replicate (8 - length head - length tail) 0%N ++ tail, s).

(** [IpAddr::from_str] *)
Definition ip_from_str (s : string) : option IpAddr :=
  '(a, rest) ← match read_ipv4_addr s with
               | Some (o, rest) => Some (V4 o, rest)
               | None => '(g, rest) ← read_ipv6_addr s; Some (V6 g, rest)
               end;
  if is_empty rest then Some a else None.

(** ** Display *)

Definition hex_char (n : N) : ascii :=
  ascii_of_N (if (n <? 10)%N then n + 48 else n + 87).

(** [{:x}] of a 16-bit group. *)
Fixpoint hex_digits (fuel : nat) (n : N) : string :=
  match fuel with
  | O => ""
  | S fuel' => ((if (n <? 16)%N then "" else hex_digits fuel' (n / 16)) ++ String (hex_char (n mod 16)) "")%string
  end.
Definition lower_hex (n : N) : string := hex_digits 4 n.

Definition ipv4_display (octets : list N) : string := join "." (map dec_of_N octets).

(** The first longest run of zero groups: its start and length. *)
Fixpoint longest_zeroes (i : nat) (cur best : nat * nat) (groups : list N) : nat * nat :=
  match groups with
  | [] => best
  | g :: groups' =>
      if (g =? 0)%N then
        let cur' := (if snd cur =? 0 then i else fst cur, S (snd cur)) in
        longest_zeroes (S i) cur' (if snd best <? snd cur' then cur' else best) groups'
      else longest_zeroes (S i) (0, 0) best groups'
  end.

Definition ipv6_display (groups : list N) : string :=
  let hex l := join ":" (map lower_hex l) in
  match groups with
  | [0; 0; 0; 0; 0; 65535; hi; lo]%N =>
      ("::ffff:" ++ ipv4_display [hi / 256; hi mod 256; lo / 256; lo mod 256]%N)%string
  | _ =>
      let '(start, len) := longest_zeroes 0 (0, 0) (0, 0) groups in
      if 1 <? len then (hex (take start groups) ++ "::" ++ hex (drop (start + len) groups))%string
      else hex groups
  end.

Definition ip_display (a : IpAddr) : string :=
  match a with V4 o => ipv4_display o | V6 g => ipv6_display g end.

Example ip_samples :
  map (fun s => ip_display <$> ip_from_str s)
    ["1.1.1.1"; "01.1.1.1"; "::1"; "::"; "2001:DB8::0:1"; "::ffff:192.0.2.1"; "1::2::3";
     "::1.2.3.4"; "1:2:3:4:5:6:7:8"; "1:2:3:4:5:6:7::"; "-1"; "256.1.1.1"; "1:0:0:2:0:0:0:3";
     "1.2.3.4:"; "1:2:3:4:5:6:1.2.3.4"]
  = [Some "1.1.1.1"; None; Some "::1"; Some "::"; Some "2001:db8::1"; Some "::ffff:192.0.2.1"; None;
     Some "::102:304"; Some "1:2:3:4:5:6:7:8"; Some "1:2:3:4:5:6:7:0"; None; None; Some "1:0:0:2::3";
     None; Some "1:2:3:4:5:6:102:304"].
Proof. vm_compute. reflexivity. Qed.
