(* ===== verification/Signing.v ===== *)
(** * Signed messages

    crates/sysknife-daemon/src/audit_chain.rs: the audit key, the field framing,
    and the four messages the Ed25519 key signs (transaction rows, approval
    events, checkpoints, approval receipts), with the request hash. The
    primitives come from third-party crates (ed25519-dalek, sha2, hmac, hkdf,
    hex): they are the parameters of [Crypto], and what the code relies on of
    their documented behaviour is [CryptoLaws]. *)

From Stdlib Require Import Ascii String NArith Lia.
From stdpp Require Import base list sets strings.
From S2P Require Import Prelude Types.

(** ** Primitives *)

Class Crypto : Type := {
  SigningKey : Type;
  VerifyingKey : Type;
  signing_from_bytes : bytes -> SigningKey;
  signing_as_bytes : SigningKey -> bytes;
  verifying_key_of : SigningKey -> VerifyingKey;
  verifying_from_bytes : bytes -> option VerifyingKey;
  verifying_to_bytes : VerifyingKey -> bytes;
  ed_sign : SigningKey -> bytes -> bytes;
  verify_strict : VerifyingKey -> bytes -> bytes -> bool;
  sha256 : bytes -> bytes;
  hmac_sha256 : bytes -> bytes -> bytes;
  hkdf_sha256 : bytes -> bytes -> bytes;
  hex_encode : bytes -> string;
  hex_decode : string -> option bytes }.

Class CryptoLaws `{Crypto} : Prop := {
  (** An Ed25519 signature is 64 bytes and verifies under its own key. *)
  sign_length : forall k m, length (ed_sign k m) = 64;
  sign_verifies : forall k m, verify_strict (verifying_key_of k) m (ed_sign k m) = true;
  (** hex: decoding undoes encoding, reads two hex digits per byte and nothing
      else. *)
  hex_roundtrip : forall b, hex_decode (hex_encode b) = Some b;
  hex_decode_shape : forall s b, hex_decode s = Some b ->
    str_all is_hexdigit s = true /\ String.length s = 2 * length b }.

(** ** Constants *)

Definition CURRENT_KEY_ID : string := "v1".

Definition RS : ascii := chr 30.
Definition US : ascii := chr 31.
Definition NUL : ascii := chr 0.
Definition BACKSLASH : ascii := chr 92.

Definition domain (tag : string) : bytes := bytes_of tag ++ [US].
Definition ROW_DOMAIN : bytes := domain "sysknife-audit-row-v1".
Definition CHECKPOINT_DOMAIN : bytes := domain "sysknife-checkpoint-v1".
Definition APPROVAL_DOMAIN : bytes := domain "sysknife-approval-receipt-v1".
Definition EVENT_DOMAIN : bytes := domain "sysknife-audit-event-v1".
Definition REQUEST_HASH_DOMAIN : bytes := domain "sysknife-request-hash-v1".

Definition CHAIN_VERSION_LEGACY : N := 1.
Definition CHAIN_VERSION_V2 : N := 2.
Definition CHAIN_VERSION_V3 : N := 3.
Definition CHAIN_VERSION_V4 : N := 4.
Definition CHAIN_VERSION_CURRENT : N := CHAIN_VERSION_V4.
Definition EVENT_VERSION_LEGACY : N := 1.
Definition EVENT_VERSION_V2 : N := 2.
Definition EVENT_VERSION_CURRENT : N := EVENT_VERSION_V2.

(** ** Field framing *)

Definition escape_byte (b : ascii) : bytes :=
  if Ascii.eqb b BACKSLASH then [BACKSLASH; BACKSLASH]
  else if Ascii.eqb b NUL then [BACKSLASH; "0"%char]
  else if Ascii.eqb b RS then [BACKSLASH; "1"%char; "E"%char]
  else if Ascii.eqb b US then [BACKSLASH; "1"%char; "F"%char]
  else [b].

Definition escape (value : string) : bytes := flat_map escape_byte (bytes_of value).

Definition push_field (buf : bytes) (tag value : string) : bytes :=
  buf ++ bytes_of tag ++ [RS] ++ escape value ++ [US].

(** A run of [push_field]s. *)
Definition push_fields (buf : bytes) (fields : list (string * string)) : bytes :=
  fold_left (fun b f => push_field b f.1 f.2) fields buf.

(** ** Row content *)

Inductive ChainIdentity : Type :=
| LegacyV1
| V2 (caller_role event_tip : string)
| V3 (caller_role event_tip caller_principal : string)
| V4 (caller_role event_tip caller_principal : string).

Definition identity_version (i : ChainIdentity) : N :=
  match i with
  | LegacyV1 => CHAIN_VERSION_LEGACY
  | V2 _ _ => CHAIN_VERSION_V2
  | V3 _ _ _ => CHAIN_VERSION_V3
  | V4 _ _ _ => CHAIN_VERSION_V4
  end.

Record ChainContent : Type := mkContent {
  cc_seq : N;
  cc_key_id : string;
  cc_transaction_id : string;
  cc_request_id : string;
  cc_request_hash : string;
  cc_action_name : string;
  cc_risk_level : RiskLevel;
  cc_summary : string;
  cc_approval_id : option string;
  cc_warnings_json : string;
  cc_created_at : string;
  cc_identity : ChainIdentity }.

Definition risk_str (r : RiskLevel) : string :=
  match r with Low => "low" | Medium => "medium" | High => "high" end.

Definition identity_fields (i : ChainIdentity) : list (string * string) :=
  match i with
  | LegacyV1 => []
  | V2 caller_role event_tip =>
      [("chain_version", dec_of_N CHAIN_VERSION_V2); ("caller_role", caller_role);
       ("event_tip", event_tip)]
  | V3 caller_role event_tip caller_principal =>
      [("chain_version", dec_of_N CHAIN_VERSION_V3); ("caller_role", caller_role);
       ("event_tip", event_tip); ("caller_principal", caller_principal)]
  | V4 caller_role event_tip caller_principal =>
      [("chain_version", dec_of_N CHAIN_VERSION_V4); ("caller_role", caller_role);
       ("event_tip", event_tip); ("caller_principal", caller_principal)]
  end.

Definition content_fields (c : ChainContent) : list (string * string) :=
  [("seq", dec_of_N (cc_seq c));
   ("key_id", cc_key_id c);
   ("transaction_id", cc_transaction_id c);
   ("request_id", cc_request_id c);
   ("request_hash", cc_request_hash c);
   ("action_name", cc_action_name c);
   ("risk_level", risk_str (cc_risk_level c));
   ("summary", cc_summary c);
   ("approval_id", default "" (cc_approval_id c));
   ("warnings_json", cc_warnings_json c);
   ("created_at", cc_created_at c)]
  ++ identity_fields (cc_identity c).

Definition canonical_bytes (c : ChainContent) : bytes := push_fields [] (content_fields c).

Definition chain_message (c : ChainContent) (prev_chain_hash : string) : bytes :=
  ROW_DOMAIN ++ canonical_bytes c ++ bytes_of prev_chain_hash.

(** ** Approval and status events *)

Inductive AuditEventKind : Type :=
| ApprovalGranted | ApprovalConsumed | ApprovalRevoked
| StatusQueued | StatusRunning | StatusSucceeded | StatusFailed | StatusCanceled
| StatusRolledBack | StatusNeedsReboot.

#[export] Instance AuditEventKind_eq_dec : EqDecision AuditEventKind.
Proof. solve_decision. Defined.

Definition event_of_state (s : JobState) : AuditEventKind :=
  match s with
  | Queued => StatusQueued | Running => StatusRunning | Succeeded => StatusSucceeded
  | Failed => StatusFailed | Canceled => StatusCanceled | RolledBack => StatusRolledBack
  | NeedsReboot => StatusNeedsReboot
  end.

Definition ALL_EVENT_KINDS : list AuditEventKind :=
  [ApprovalGranted; ApprovalConsumed; ApprovalRevoked; StatusQueued; StatusRunning;
   StatusSucceeded; StatusFailed; StatusCanceled; StatusRolledBack; StatusNeedsReboot].

Definition event_as_str (k : AuditEventKind) : string :=
  match k with
  | ApprovalGranted => "approval_granted"
  | ApprovalConsumed => "approval_consumed"
  | ApprovalRevoked => "approval_revoked"
  | StatusQueued => "status_queued"
  | StatusRunning => "status_running"
  | StatusSucceeded => "status_succeeded"
  | StatusFailed => "status_failed"
  | StatusCanceled => "status_canceled"
  | StatusRolledBack => "status_rolled_back"
  | StatusNeedsReboot => "status_needs_reboot"
  end.

Definition parse_event_kind (raw : string) : option AuditEventKind :=
  find (fun k => (event_as_str k =? raw)%string) ALL_EVENT_KINDS.

Inductive EventIdentity : Type :=
| EventLegacyV1
| EventV2 (caller_principal : string).

Definition event_identity_version (i : EventIdentity) : N :=
  match i with EventLegacyV1 => EVENT_VERSION_LEGACY | EventV2 _ => EVENT_VERSION_V2 end.

Record EventContent : Type := mkEventContent {
  ec_seq : N;
  ec_key_id : string;
  ec_kind : AuditEventKind;
  ec_transaction_id : string;
  ec_receipt_digest : string;
  ec_created_at : string;
  ec_identity : EventIdentity }.

Definition event_fields (c : EventContent) : list (string * string) :=
  [("seq", dec_of_N (ec_seq c));
   ("key_id", ec_key_id c);
   ("kind", event_as_str (ec_kind c));
   ("transaction_id", ec_transaction_id c);
   ("receipt_digest", ec_receipt_digest c);
   ("created_at", ec_created_at c)]
  ++ match ec_identity c with
     | EventLegacyV1 => []
     | EventV2 caller_principal =>
         [("event_version", dec_of_N EVENT_VERSION_V2); ("caller_principal", caller_principal)]
     end.

Definition event_canonical_bytes (c : EventContent) : bytes := push_fields [] (event_fields c).

Definition event_message (c : EventContent) (prev_chain_hash : string) : bytes :=
  EVENT_DOMAIN ++ event_canonical_bytes c ++ bytes_of prev_chain_hash.

(** ** Checkpoints and receipts *)

Definition checkpoint_message (seq : N) (chain_tip created_at : string) : bytes :=
  push_fields CHECKPOINT_DOMAIN
    [("seq", dec_of_N seq); ("chain_tip", chain_tip); ("created_at", created_at)].

Definition approval_message (transaction_id request_hash : string) : bytes :=
  push_fields APPROVAL_DOMAIN [("txid", transaction_id); ("reqhash", request_hash)].

Record Checkpoint : Type := mkCheckpoint {
  cp_seq : N;
  cp_chain_tip : string;
  cp_created_at : string;
  cp_signature : string }.

(** ** The audit key *)

Section Key.
Context `{Crypto}.

Record AuditKey : Type := mkAuditKey {
  ak_key_id : string;
  ak_signing : SigningKey }.

Inductive AuditKeyError : Type :=
| KeyIo
| UnsafePermissions (mode : N)
| KeyTooShort (len : nat).

(** The key file: its mode and its bytes. *)
Definition KeyFile : Type := N * bytes.

(** [load_or_generate]: [file] is the key file, if it exists; [random] is what
    the kernel gives [generate_key_at], which writes it with mode 0600. *)
Definition load_or_generate (file : option KeyFile) (random : bytes)
    : result AuditKeyError AuditKey :=
  let '(raw_mode, key_bytes) := default (384%N, random) file in
  let mode := N.land raw_mode 511 in
  if negb (N.land mode 63 =? 0)%N then Err (UnsafePermissions mode)
  else if length key_bytes <? 32 then Err (KeyTooShort (length key_bytes))
  else Ok {| ak_key_id := CURRENT_KEY_ID;
             ak_signing := signing_from_bytes (take 32 key_bytes) |}.

Definition verifying_key (k : AuditKey) : VerifyingKey := verifying_key_of (ak_signing k).

Definition verifying_key_hex (k : AuditKey) : string :=
  hex_encode (verifying_to_bytes (verifying_key k)).

Definition chain_hash (k : AuditKey) (c : ChainContent) (prev_chain_hash : string) : string :=
  hex_encode (ed_sign (ak_signing k) (chain_message c prev_chain_hash)).

Definition event_hash (k : AuditKey) (c : EventContent) (prev_chain_hash : string) : string :=
  hex_encode (ed_sign (ak_signing k) (event_message c prev_chain_hash)).

Definition sign_checkpoint (k : AuditKey) (seq : N) (chain_tip created_at : string)
    : Checkpoint := {|
  cp_seq := seq;
  cp_chain_tip := chain_tip;
  cp_created_at := created_at;
  cp_signature :=
    hex_encode (ed_sign (ak_signing k) (checkpoint_message seq chain_tip created_at)) |}.

Definition approval_receipt (k : AuditKey) (transaction_id request_hash : string) : string :=
  hex_encode (ed_sign (ak_signing k) (approval_message transaction_id request_hash)).

Definition approval_receipt_digest (receipt : string) : string :=
  hex_encode (sha256 (bytes_of receipt)).

Definition approval_commitment (k : AuditKey) (transaction_id request_hash : string) : string :=
  approval_receipt_digest (approval_receipt k transaction_id request_hash).

(** [RequestHashKey]: derived from the seed, never used to sign. *)
Definition RequestHashKey : Type := bytes.
Definition request_hash_key (k : AuditKey) : RequestHashKey :=
  hkdf_sha256 (signing_as_bytes (ak_signing k)) REQUEST_HASH_DOMAIN.
Definition request_hash (key : RequestHashKey) (action_name canonical_params : string) : string :=
  hex_encode (hmac_sha256 key (bytes_of action_name ++ [NUL] ++ bytes_of canonical_params)).

(** ** Checking signatures *)

Definition parse_verifying_key (hex_str : string) : option VerifyingKey :=
  b ← hex_decode (str_trim hex_str);
  if length b =? 32 then verifying_from_bytes b else None.

Definition signature_ok (vk : VerifyingKey) (msg : bytes) (sig_hex : string) : bool :=
  match hex_decode sig_hex with
  | Some b => (length b =? 64) && verify_strict vk msg b
  | None => false
  end.
End Key.

(** ** Lemmas *)

Lemma escape_no_US s : US ∉ escape s.
Proof.
  unfold escape. induction s as [|c s IH]; simpl; [by apply not_elem_of_nil|].
  rewrite not_elem_of_app. split; [|done]. unfold escape_byte.
  repeat case_match; rewrite ?not_elem_of_cons; split_and?; try (by apply not_elem_of_nil);
    try done; intros E; subst; by rewrite Ascii.eqb_refl in *.
Qed.

(** The escapes are prefix-free: the bytes determine the value. *)
Lemma escape_inj_app s t r r' :
  escape s ++ US :: r = escape t ++ US :: r' -> s = t /\ r = r'.
Proof.
  revert t. unfold escape. induction s as [|a s IH]; intros [|b t] E; cbn [list_ascii_of_string flat_map app] in E.
  - by simplify_eq.
  - exfalso. unfold escape_byte in E. repeat case_match; simplify_eq/=;
      by rewrite ?Ascii.eqb_refl in *.
  - exfalso. unfold escape_byte in E. repeat case_match; simplify_eq/=;
      by rewrite ?Ascii.eqb_refl in *.
  - rewrite <-!app_assoc in E.
    assert (a = b /\ flat_map escape_byte (bytes_of s) ++ US :: r
      = flat_map escape_byte (bytes_of t) ++ US :: r') as [-> E'].
    { unfold escape_byte in E. repeat case_match; simplify_eq/=;
        repeat match goal with H : Ascii.eqb _ _ = true |- _ => apply Ascii.eqb_eq in H; subst end;
        done. }
    destruct (IH _ E') as [-> ->]. done.
Qed.

Lemma split_at_first {A} (x : A) l l' r r' :
  x ∉ l -> x ∉ l' -> l ++ x :: r = l' ++ x :: r' -> l = l' /\ r = r'.
Proof.
  revert l'. induction l as [|a l IH]; intros [|b l'] H1 H2 E; simplify_eq/=;
    rewrite ?not_elem_of_cons in *; try (by destruct H1); try (by destruct H2); [done|].
  destruct (IH l') as [-> ->]; naive_solver.
Qed.

(** The bytes of a run of fields. *)
Definition framed (fields : list (string * string)) : bytes :=
  flat_map (fun f => bytes_of f.1 ++ RS :: escape f.2 ++ [US]) fields.

Lemma push_fields_framed buf fields : push_fields buf fields = buf ++ framed fields.
Proof.
  unfold push_fields, framed. revert buf.
  induction fields as [|f fs IH]; intros buf; simpl; [by rewrite app_nil_r|].
  rewrite IH. unfold push_field. rewrite <-!app_assoc. simpl. by rewrite <-app_assoc.
Qed.

Definition no_rs (s : string) : Prop := RS ∉ bytes_of s.
Definition tags_ok (fields : list (string * string)) : Prop := Forall (fun f => no_rs f.1) fields.

(** Framing is injective, whatever the values: two runs of fields followed by
    a text without the tag separator are equal only field by field. *)
Lemma framed_inj fs gs r r' :
  tags_ok fs -> tags_ok gs -> RS ∉ r -> RS ∉ r' ->
  framed fs ++ r = framed gs ++ r' -> fs = gs /\ r = r'.
Proof.
  intros Hf. revert gs. induction Hf as [|[t v] fs Ht _ IH]; intros gs Hg Hr Hr' E.
  - destruct gs as [|[t' v'] gs]; [done|]. exfalso. apply Hr. simpl in E. rewrite E.
    set_solver.
  - destruct Hg as [|[t' v'] gs Ht' Hg].
    + exfalso. apply Hr'. simpl in E. rewrite <-E. set_solver.
    + simpl in E. rewrite <-!app_assoc in E. simpl in E. rewrite <-!app_assoc in E.
      apply split_at_first in E as [Et E]; [|done..]. apply bytes_of_inj in Et. subst.
      simpl in E. apply escape_inj_app in E as [-> E].
      destruct (IH gs Hg Hr Hr' E) as [-> ->]. done.
Qed.

Lemma no_rs_hex s : str_all is_hexdigit s = true -> no_rs s.
Proof.
  intros H Hin. apply str_has_spec in Hin.
  by rewrite (str_all_not_has is_hexdigit RS s eq_refl H) in Hin.
Qed.

Lemma no_rs_nil : no_rs "".
Proof. apply not_elem_of_nil. Qed.

Lemma no_rs_const s : str_has RS s = false -> no_rs s.
Proof. intros H Hin. apply str_has_spec in Hin. congruence. Qed.

Ltac solve_tags := repeat constructor; simpl; apply no_rs_const; reflexivity.

Lemma content_tags c : tags_ok (content_fields c).
Proof. unfold content_fields. destruct (cc_identity c); solve_tags. Qed.

Lemma event_tags c : tags_ok (event_fields c).
Proof. unfold event_fields. destruct (ec_identity c); solve_tags. Qed.

(** The content up to what the encoding does not tell apart: an absent receipt
    commitment is written as an empty one. *)
Definition content_view (c : ChainContent) : ChainContent :=
  mkContent (cc_seq c) (cc_key_id c) (cc_transaction_id c) (cc_request_id c)
    (cc_request_hash c) (cc_action_name c) (cc_risk_level c) (cc_summary c)
    (Some (default "" (cc_approval_id c))) (cc_warnings_json c) (cc_created_at c) (cc_identity c).

Lemma risk_str_inj a b : risk_str a = risk_str b -> a = b.
Proof. by destruct a, b. Qed.

Lemma event_as_str_inj a b : event_as_str a = event_as_str b -> a = b.
Proof. by destruct a, b. Qed.

Lemma content_fields_inj c c' : content_fields c = content_fields c' -> content_view c = content_view c'.
Proof.
  unfold content_fields. intros E.
  apply app_inj_1 in E as [E1 E2]; [|done]. simplify_eq.
  apply dec_of_N_inj in H. apply risk_str_inj in H5.
  assert (cc_identity c = cc_identity c') as Ei.
  { destruct (cc_identity c), (cc_identity c'); simpl in E2; simplify_eq; done. }
  unfold content_view. congruence.
Qed.

Lemma event_fields_inj c c' : event_fields c = event_fields c' -> c = c'.
Proof.
  unfold event_fields. intros E.
  apply app_inj_1 in E as [E1 E2]; [|done]. simplify_eq.
  apply dec_of_N_inj in H. apply event_as_str_inj in H1.
  destruct c as [? ? ? ? ? ? i], c' as [? ? ? ? ? ? i']; simpl in *; subst.
  destruct i, i'; by simplify_eq/=.
Qed.

Lemma canonical_bytes_framed c : canonical_bytes c = framed (content_fields c).
Proof. unfold canonical_bytes. by rewrite push_fields_framed. Qed.

Lemma chain_message_inj c c' p p' :
  no_rs p -> no_rs p' -> chain_message c p = chain_message c' p' ->
  content_view c = content_view c' /\ p = p'.
Proof.
  intros Hp Hp' E. unfold chain_message in E. apply app_inv_head in E.
  rewrite !canonical_bytes_framed in E.
  apply framed_inj in E as [E1 E2]; auto using content_tags.
  split; [by apply content_fields_inj|by apply bytes_of_inj].
Qed.

Lemma event_message_inj c c' p p' :
  no_rs p -> no_rs p' -> event_message c p = event_message c' p' -> c = c' /\ p = p'.
Proof.
  intros Hp Hp' E. unfold event_message, event_canonical_bytes in E. apply app_inv_head in E.
  rewrite !push_fields_framed in E. cbn [app] in E.
  apply framed_inj in E as [E1 E2]; auto using event_tags.
  split; [by apply event_fields_inj|by apply bytes_of_inj].
Qed.

Lemma framed_const_inj fs gs : tags_ok fs -> tags_ok gs -> framed fs = framed gs -> fs = gs.
Proof.
  intros Hf Hg E. destruct (framed_inj fs gs [] [] Hf Hg) as [? _]; try done;
    try apply not_elem_of_nil. by rewrite !app_nil_r.
Qed.

Lemma checkpoint_message_inj s t c s' t' c' :
  checkpoint_message s t c = checkpoint_message s' t' c' -> s = s' /\ t = t' /\ c = c'.
Proof.
  unfold checkpoint_message. rewrite !push_fields_framed. intros E. apply app_inv_head in E.
  apply framed_const_inj in E; [|solve_tags..]. simplify_eq.
  apply dec_of_N_inj in H. done.
Qed.

Lemma approval_message_inj t h t' h' :
  approval_message t h = approval_message t' h' -> t = t' /\ h = h'.
Proof.
  unfold approval_message. rewrite !push_fields_framed. intros E. apply app_inv_head in E.
  apply framed_const_inj in E; [|solve_tags..]. by simplify_eq.
Qed.

(** ** Domain separation *)

Definition SIGNING_DOMAINS : list bytes :=
  [ROW_DOMAIN; CHECKPOINT_DOMAIN; APPROVAL_DOMAIN; EVENT_DOMAIN].

Fixpoint bytes_prefix (p m : bytes) : bool :=
  match p, m with
  | [], _ => true
  | a :: p', b :: m' => Ascii.eqb a b && bytes_prefix p' m'
  | _ :: _, [] => false
  end.

Lemma bytes_prefix_spec p m : bytes_prefix p m = true <-> exists r, m = p ++ r.
Proof.
  revert m. induction p as [|a p IH]; intros m; simpl; [split; [by exists m|done]|].
  destruct m as [|b m]; [split; [done|by intros [r ?]]|].
  rewrite andb_true_iff, IH, Ascii.eqb_eq. split.
  - intros [-> [r ->]]. by exists r.
  - intros [r E]. simplify_eq. split; [done|by exists r].
Qed.

Lemma bytes_prefix_app p r : bytes_prefix p (p ++ r) = true.
Proof. apply bytes_prefix_spec. by exists r. Qed.

(** Two domain tags that prefix one message are one tag. *)
Lemma domain_unique d d' m :
  d ∈ SIGNING_DOMAINS -> d' ∈ SIGNING_DOMAINS ->
  bytes_prefix d m = true -> bytes_prefix d' m = true -> d = d'.
Proof.
  intros Hd Hd' H1 H2. apply bytes_prefix_spec in H1 as [r ->].
  unfold SIGNING_DOMAINS in *. rewrite !elem_of_cons in Hd, Hd'.
  rewrite elem_of_nil in Hd, Hd'.
  destruct Hd as [->|[->|[->|[->|[]]]]], Hd' as [->|[->|[->|[->|[]]]]]; try done;
    vm_compute in H2; discriminate.
Qed.

Lemma chain_message_domain c p : bytes_prefix ROW_DOMAIN (chain_message c p) = true.
Proof. apply bytes_prefix_app. Qed.
Lemma event_message_domain c p : bytes_prefix EVENT_DOMAIN (event_message c p) = true.
Proof. apply bytes_prefix_app. Qed.
Lemma checkpoint_message_domain s t c : bytes_prefix CHECKPOINT_DOMAIN (checkpoint_message s t c) = true.
Proof. unfold checkpoint_message. rewrite push_fields_framed. apply bytes_prefix_app. Qed.
Lemma approval_message_domain t h : bytes_prefix APPROVAL_DOMAIN (approval_message t h) = true.
Proof. unfold approval_message. rewrite push_fields_framed. apply bytes_prefix_app. Qed.
#[export] Hint Resolve chain_message_domain event_message_domain checkpoint_message_domain
  approval_message_domain : sysk.

(** ** Signatures *)

Section KeyLemmas.
Context `{CryptoLaws}.

Lemma signature_ok_hex vk m s : signature_ok vk m s = true -> no_rs s /\ s <> "".
Proof.
  unfold signature_ok. destruct (hex_decode s) as [b|] eqn:E; [|done].
  intros [Hl _]%andb_true_iff.
  apply hex_decode_shape in E as [E1 E2]. split; [by apply no_rs_hex|].
  intros ->. apply Nat.eqb_eq in Hl. rewrite Hl in E2. done.
Qed.

Lemma signature_ok_sign k m : signature_ok (verifying_key_of k) m (hex_encode (ed_sign k m)) = true.
Proof. unfold signature_ok. by rewrite hex_roundtrip, sign_length, sign_verifies. Qed.
End KeyLemmas.

(** ** Properties *)

(** C27: what is signed determines what it says. Each of the four messages is
    injective in its fields for arbitrary field values (a row's or event's
    previous hash must not hold the tag separator, which no hash that verified
    does), up to an absent commitment reading as an empty one; and no message of
    one kind is a message of another. *)
Theorem signed_messages_unambiguous :
  (forall c c' p p', no_rs p -> no_rs p' -> chain_message c p = chain_message c' p' ->
     content_view c = content_view c' /\ p = p')
  /\ (forall c c' p p', no_rs p -> no_rs p' -> event_message c p = event_message c' p' ->
     c = c' /\ p = p')
  /\ (forall s t a s' t' a', checkpoint_message s t a = checkpoint_message s' t' a' ->
     s = s' /\ t = t' /\ a = a')
  /\ (forall t h t' h', approval_message t h = approval_message t' h' -> t = t' /\ h = h')
  /\ (forall c p c' p' s t a x h,
     chain_message c p <> event_message c' p' /\ chain_message c p <> checkpoint_message s t a
     /\ chain_message c p <> approval_message x h /\ event_message c' p' <> checkpoint_message s t a
     /\ event_message c' p' <> approval_message x h
     /\ checkpoint_message s t a <> approval_message x h).
Proof.
  split_and!; eauto using chain_message_inj, event_message_inj, checkpoint_message_inj,
    approval_message_inj.
  intros. split_and!; intros E;
    match type of E with ?m = ?m' =>
      assert (HD : forall d d', d ∈ SIGNING_DOMAINS -> d' ∈ SIGNING_DOMAINS ->
        bytes_prefix d m = true -> bytes_prefix d' m' = true -> d = d')
        by (rewrite E; intros; eapply domain_unique; eauto)
    end.
  - specialize (HD ROW_DOMAIN EVENT_DOMAIN). discriminate HD; auto with sysk; set_solver.
  - specialize (HD ROW_DOMAIN CHECKPOINT_DOMAIN). discriminate HD; auto with sysk; set_solver.
  - specialize (HD ROW_DOMAIN APPROVAL_DOMAIN). discriminate HD; auto with sysk; set_solver.
  - specialize (HD EVENT_DOMAIN CHECKPOINT_DOMAIN). discriminate HD; auto with sysk; set_solver.
  - specialize (HD EVENT_DOMAIN APPROVAL_DOMAIN). discriminate HD; auto with sysk; set_solver.
  - specialize (HD CHECKPOINT_DOMAIN APPROVAL_DOMAIN). discriminate HD; auto with sysk; set_solver.
Qed.

(** ** A concrete instance

    A checksum in the place of the signature and real hexadecimal: it satisfies
    [CryptoLaws], so the hypotheses of the properties can hold, and lets
    examples compute. *)

Module Toy.
Definition hex_digit (n : nat) : ascii := default "0"%char (bytes_of "0123456789abcdef" !! n).
Definition hex_value (c : ascii) : option nat :=
  if between 48 57 c then Some (nat_of_ascii c - 48)
  else if between 97 102 c then Some (nat_of_ascii c - 87)
  else if between 65 70 c then Some (nat_of_ascii c - 55)
  else None.
Fixpoint encode (b : bytes) : string :=
  match b with
  | [] => ""
  | c :: b' => String (hex_digit (nat_of_ascii c / 16))
                 (String (hex_digit (nat_of_ascii c mod 16)) (encode b'))
  end.
Fixpoint decode (s : string) : option bytes :=
  match s with
  | EmptyString => Some []
  | String a (String b s') =>
      h ← hex_value a; l ← hex_value b; t ← decode s';
      Some (ascii_of_nat (16 * h + l) :: t)
  | _ => None
  end.
Definition sum64 (k m : bytes) : bytes := take 64 (rev m ++ k ++ replicate 64 NUL).

#[export] Instance crypto : Crypto := {|
  SigningKey := bytes;
  VerifyingKey := bytes;
  signing_from_bytes := fun b => b;
  signing_as_bytes := fun b => b;
  verifying_key_of := fun b => b;
  verifying_from_bytes := fun b => Some b;
  verifying_to_bytes := fun b => b;
  ed_sign := sum64;
  verify_strict := fun k m s => bool_decide (s = sum64 k m);
  sha256 := fun m => take 32 (rev m);
  hmac_sha256 := fun k m => take 32 (rev m);
  hkdf_sha256 := fun ikm info => take 32 (ikm ++ info);
  hex_encode := encode;
  hex_decode := decode |}.

Lemma encode_decode_byte c t :
  (h ← hex_value (hex_digit (nat_of_ascii c / 16));
   l ← hex_value (hex_digit (nat_of_ascii c mod 16));
   t ← (Some t : option bytes); Some (ascii_of_nat (16 * h + l) :: t)) = Some (c :: t).
Proof. destruct c as [[] [] [] [] [] [] [] []]; reflexivity. Qed.

Lemma hex_value_digit a n : hex_value a = Some n -> is_hexdigit a = true.
Proof. destruct a as [[] [] [] [] [] [] [] []]; done. Qed.

Lemma decode_shape n s b : String.length s <= n -> decode s = Some b ->
  str_all is_hexdigit s = true /\ String.length s = 2 * length b.
Proof.
  revert s b. induction n as [|n IH]; intros s b Hn E; (destruct s as [|x [|y s]]; simpl in Hn; try lia;
    [by simplify_eq/=|try done..]).
  cbn [decode] in E. destruct (hex_value x) eqn:Ex; [|done].
  destruct (hex_value y) eqn:Ey; [|done]. simpl in E.
  destruct (decode s) as [t|] eqn:Et; simplify_eq/=.
  apply IH in Et as [E1 E2]; [|lia].
  rewrite (hex_value_digit _ _ Ex), (hex_value_digit _ _ Ey), E1. split; [done|]. lia.
Qed.

#[export] Instance crypto_laws : CryptoLaws.
Proof.
  split; simpl.
  - intros k m. unfold sum64. rewrite length_take, !length_app, length_replicate. lia.
  - intros k m. by apply bool_decide_eq_true_2.
  - induction b as [|c b IH]; [done|]. cbn [encode decode]. rewrite IH.
    apply encode_decode_byte.
  - intros s b. by apply (decode_shape (String.length s)).
Qed.
End Toy.
