(* ===== verification/AuditChain.v ===== *)
(** * Verification of the audit trail

    crates/sysknife-daemon/src/audit_chain.rs: the stored rows, the walk over a
    chain, the verdicts of `sysknife audit verify`, the attribution census, the
    status cross-check, the binding of the two chains and the checkpoints. *)

From Stdlib Require Import Ascii String NArith ZArith Lia.
From stdpp Require Import base list sets strings sorting.
From S2P Require Import Prelude Types Auth Signing.

(** ** Stored rows *)

Record ChainRow : Type := mkChainRow {
  cr_seq : N;
  cr_key_id : string;
  cr_transaction_id : string;
  cr_request_id : string;
  cr_request_hash : string;
  cr_action_name : string;
  cr_risk_level : RiskLevel;
  cr_summary : string;
  cr_approval_id : option string;
  cr_warnings_json : string;
  cr_created_at : string;
  cr_prev_chain_hash : string;
  cr_chain_hash : string;
  cr_chain_version : N;
  cr_caller_role : option string;
  cr_event_tip : option string;
  cr_caller_principal : option string }.

Record EventRow : Type := mkEventRow {
  er_seq : N;
  er_key_id : string;
  er_kind : string;
  er_transaction_id : string;
  er_receipt_digest : string;
  er_created_at : string;
  er_prev_chain_hash : string;
  er_chain_hash : string;
  er_chain_version : N;
  er_caller_principal : option string }.

Inductive RowIdentityError : Type :=
| UnknownVersion (v : N)
| MissingField (field : string).

Definition non_empty (o : option string) : option string :=
  match o with Some p => if is_empty p then None else Some p | None => None end.

(** [ChainRow::identity] *)
Definition row_identity (r : ChainRow) : result RowIdentityError ChainIdentity :=
  if (cr_chain_version r =? CHAIN_VERSION_LEGACY)%N then Ok LegacyV1
  else if (cr_chain_version r =? CHAIN_VERSION_V2)%N then
    role ← ok_or (MissingField "caller_role") (cr_caller_role r);
    tip ← ok_or (MissingField "event_tip") (cr_event_tip r);
    Ok (V2 role tip)
  else if (cr_chain_version r =? CHAIN_VERSION_V3)%N then
    role ← ok_or (MissingField "caller_role") (cr_caller_role r);
    tip ← ok_or (MissingField "event_tip") (cr_event_tip r);
    principal ← ok_or (MissingField "caller_principal") (non_empty (cr_caller_principal r));
    Ok (V3 role tip principal)
  else if (cr_chain_version r =? CHAIN_VERSION_V4)%N then
    role ← ok_or (MissingField "caller_role") (cr_caller_role r);
    tip ← ok_or (MissingField "event_tip") (cr_event_tip r);
    principal ← ok_or (MissingField "caller_principal") (non_empty (cr_caller_principal r));
    Ok (V4 role tip principal)
  else Err (UnknownVersion (cr_chain_version r)).

(** [EventRow::identity] *)
Definition event_row_identity (r : EventRow) : result RowIdentityError EventIdentity :=
  if (er_chain_version r =? EVENT_VERSION_LEGACY)%N then Ok EventLegacyV1
  else if (er_chain_version r =? EVENT_VERSION_V2)%N then
    principal ← ok_or (MissingField "caller_principal") (non_empty (er_caller_principal r));
    Ok (EventV2 principal)
  else Err (UnknownVersion (er_chain_version r)).

Definition row_content (r : ChainRow) (i : ChainIdentity) : ChainContent :=
  mkContent (cr_seq r) (cr_key_id r) (cr_transaction_id r) (cr_request_id r)
    (cr_request_hash r) (cr_action_name r) (cr_risk_level r) (cr_summary r)
    (cr_approval_id r) (cr_warnings_json r) (cr_created_at r) i.

Definition event_row_content (r : EventRow) (k : AuditEventKind) (i : EventIdentity) : EventContent :=
  mkEventContent (er_seq r) (er_key_id r) k (er_transaction_id r) (er_receipt_digest r)
    (er_created_at r) i.

(** ** Export *)

Inductive ChainExportError : Type :=
| InvalidSince (since : string)
| InvalidCreatedAt (seq : N) (created_at : string).

Section ExportRows.
(** chrono's [DateTime::parse_from_rfc3339], as an instant. *)
Variable parse_from_rfc3339 : string -> option Z.

(** The rows of the iterator, in order, until [limit] of them are kept or one
    fails. *)
Fixpoint select_rows (since : option Z) (limit : nat) (rows : list ChainRow)
    : result ChainExportError (list ChainRow) :=
  match limit, rows with
  | O, _ | _, [] => Ok []
  | S limit', row :: rows' =>
      match since with
      | None => tl ← select_rows since limit' rows'; Ok (row :: tl)
      | Some s =>
          match parse_from_rfc3339 (cr_created_at row) with
          | None => Err (InvalidCreatedAt (cr_seq row) (cr_created_at row))
          | Some t =>
              if (s <=? t)%Z then tl ← select_rows since limit' rows'; Ok (row :: tl)
              else select_rows since limit rows'
          end
      end
  end.

Definition select_chain_rows_for_export (rows : list ChainRow) (since : option string)
    (limit : option nat) : result ChainExportError (list ChainRow) :=
  s ← match since with
      | None => Ok None
      | Some v => match parse_from_rfc3339 v with
                  | Some t => Ok (Some t)
                  | None => Err (InvalidSince v)
                  end
      end;
  select_rows s (default (length rows) limit) rows.
End ExportRows.

(** ** The walk *)

Inductive VerifyOutcome : Type :=
| Intact (rows_checked : nat)
| Broken (rows_checked : nat) (first_broken_seq : N) (first_broken_transaction_id : string)
    (expected actual : text)
| CannotVerify (reason : text).

Definition outcome_to_exit_code (o : VerifyOutcome) : Z :=
  match o with Intact _ => 0 | Broken _ _ _ _ _ => 1 | CannotVerify _ => 2 end.

Inductive RowCheck : Type :=
| RowVerified
| RowUnverifiable (reason : text)
| RowBroken (expected actual : text).

Class ChainLink (R : Type) : Type := {
  link_seq : R -> N;
  link_transaction_id : R -> string;
  link_prev : R -> string;
  link_hash : R -> string }.

#[export] Instance chain_row_link : ChainLink ChainRow := {|
  link_seq := cr_seq; link_transaction_id := cr_transaction_id;
  link_prev := cr_prev_chain_hash; link_hash := cr_chain_hash |}.

#[export] Instance event_row_link : ChainLink EventRow := {|
  link_seq := er_seq; link_transaction_id := er_transaction_id;
  link_prev := er_prev_chain_hash; link_hash := er_chain_hash |}.

Section Walk.
Context {R : Type} `{ChainLink R} (check : R -> RowCheck).

(** The loop of [walk_chain]; the arguments are its mutable variables. *)
Fixpoint walk_from (last_hash : string) (rows_checked : nat)
    (first_unverifiable : option text) (unverifiable : nat) (rows : list R) : VerifyOutcome :=
  match rows with
  | [] =>
      match first_unverifiable with
      | None => Intact rows_checked
      | Some first => CannotVerify (first ++ [Lit "; "; Lit (dec_of_N (N.of_nat unverifiable));
          Lit " row(s) could not be checked, "; Lit (dec_of_N (N.of_nat rows_checked));
          Lit " other row(s) verified and every link is intact"])
      end
  | row :: rows' =>
      if negb (link_prev row =? last_hash)%string then
        Broken rows_checked (link_seq row) (link_transaction_id row)
          [Lit "prev_chain_hash="; Lit last_hash] [Lit "prev_chain_hash="; Lit (link_prev row)]
      else
        match check row with
        | RowVerified =>
            walk_from (link_hash row) (S rows_checked) first_unverifiable unverifiable rows'
        | RowUnverifiable reason =>
            walk_from (link_hash row) rows_checked
              (Some (default reason first_unverifiable)) (S unverifiable) rows'
        | RowBroken expected actual =>
            Broken rows_checked (link_seq row) (link_transaction_id row) expected actual
        end
  end.

Definition walk_chain (rows : list R) : VerifyOutcome := walk_from "" 0 None 0 rows.
End Walk.

Definition failed_signature (what : string) (seq : N) (key_id : string)
    (expect_key_id : option string) (chain_hash : string) : RowCheck :=
  match expect_key_id with
  | Some kid =>
      if negb (key_id =? kid)%string then
        RowUnverifiable [Lit what; Lit " seq="; Lit (dec_of_N seq); Lit " uses key_id="; Dbg key_id;
          Lit " but only "; Dbg kid;
          Lit " is loaded, and the loaded key does not reproduce its signature; epoch keys not yet supported"]
      else RowBroken [Lit "valid ed25519 signature"] [Lit chain_hash]
  | None => RowBroken [Lit "valid ed25519 signature"] [Lit chain_hash]
  end.

Definition version_reason (what : string) (seq v lo hi : N) : text :=
  [Lit what; Lit " seq="; Lit (dec_of_N seq); Lit " declares chain_version="; Lit (dec_of_N v);
   Lit ", which this binary cannot reproduce (it understands "; Lit (dec_of_N lo); Lit "..=";
   Lit (dec_of_N hi);
   Lit "); verify with a build at least as new as the one that wrote the chain"].

Section Verify.
Context `{Crypto}.
Variable vk : VerifyingKey.
Variable expect_key_id : option string.

Definition missing_field_broken (row : ChainRow) (field : string) : RowCheck :=
  let stored :=
    if (field =? "caller_role")%string then cr_caller_role row
    else if (field =? "event_tip")%string then cr_event_tip row
    else if (field =? "caller_principal")%string then cr_caller_principal row
    else None in
  RowBroken
    [Lit "chain_version="; Lit (dec_of_N (cr_chain_version row));
     Lit " row carrying a non-empty "; Lit field]
    match stored with
    | None => [Lit field; Lit "=NULL"]
    | Some s => if is_empty s then [Lit field; Lit "='' (empty, not NULL)"]
                else [Lit field; Lit "="; Dbg s]
    end.

Definition check_row (row : ChainRow) : RowCheck :=
  match row_identity row with
  | Err (UnknownVersion v) =>
      RowUnverifiable
        (version_reason "row" (cr_seq row) v CHAIN_VERSION_LEGACY CHAIN_VERSION_CURRENT)
  | Err (MissingField field) => missing_field_broken row field
  | Ok identity =>
      if signature_ok vk (chain_message (row_content row identity) (cr_prev_chain_hash row))
           (cr_chain_hash row)
      then RowVerified
      else failed_signature "row" (cr_seq row) (cr_key_id row) expect_key_id (cr_chain_hash row)
  end.

Definition verify_rows (rows : list ChainRow) : VerifyOutcome := walk_chain check_row rows.

Definition check_event_row (row : EventRow) : RowCheck :=
  match parse_event_kind (er_kind row) with
  | None => RowBroken [Lit "a known event kind"] [Lit "kind="; Dbg (er_kind row)]
  | Some kind =>
      match event_row_identity row with
      | Err (UnknownVersion v) =>
          RowUnverifiable
            (version_reason "event" (er_seq row) v EVENT_VERSION_LEGACY EVENT_VERSION_CURRENT)
      | Err (MissingField field) =>
          RowBroken
            [Lit "a non-empty "; Lit field; Lit " on a chain_version=";
             Lit (dec_of_N (er_chain_version row)); Lit " row"]
            match er_caller_principal row with
            | None => [Lit field; Lit "=None"]
            | Some p => [Lit field; Lit "=Some("; Dbg p; Lit ")"]
            end
      | Ok identity =>
          if signature_ok vk
               (event_message (event_row_content row kind identity) (er_prev_chain_hash row))
               (er_chain_hash row)
          then RowVerified
          else failed_signature "event" (er_seq row) (er_key_id row) expect_key_id
                 (er_chain_hash row)
      end
  end.

Definition verify_event_rows (rows : list EventRow) : VerifyOutcome :=
  walk_chain check_event_row rows.
End Verify.

Section VerifyKey.
Context `{Crypto}.

Definition verify_chain (key : AuditKey) (rows : list ChainRow) : VerifyOutcome :=
  verify_rows (verifying_key key) (Some (ak_key_id key)) rows.
Definition verify_event_chain (key : AuditKey) (rows : list EventRow) : VerifyOutcome :=
  verify_event_rows (verifying_key key) (Some (ak_key_id key)) rows.

Definition bad_pubkey (hex_str : string) : VerifyOutcome :=
  CannotVerify [Lit "invalid public key hex ("; Lit (dec_of_N (N.of_nat (String.length hex_str)));
    Lit " chars); expected 64 hex chars of a 32-byte Ed25519 public key"].

Definition verify_chain_with_pubkey (hex_str : string) (rows : list ChainRow) : VerifyOutcome :=
  match parse_verifying_key hex_str with
  | Some vk => verify_rows vk None rows
  | None => bad_pubkey hex_str
  end.
Definition verify_event_chain_with_pubkey (hex_str : string) (rows : list EventRow)
    : VerifyOutcome :=
  match parse_verifying_key hex_str with
  | Some vk => verify_event_rows vk None rows
  | None => bad_pubkey hex_str
  end.
End VerifyKey.

(** ** Status cross-check *)

Inductive StatusOutcome : Type :=
| Agrees (rows_checked : nat)
| Disagrees (detail : text)
| StatusCannotVerify (detail : text).

Record StatusEvidence : Type := mkEvidence {
  se_transaction_id : string;
  se_status : JobState;
  se_newest_status_event : option string;
  se_approval_consumed : bool;
  se_predates_status_events : bool }.

(** [{state:?}] *)
Definition state_debug (s : JobState) : string :=
  match s with
  | Queued => "Queued" | Running => "Running" | Succeeded => "Succeeded" | Failed => "Failed"
  | Canceled => "Canceled" | RolledBack => "RolledBack" | NeedsReboot => "NeedsReboot"
  end.

Inductive evidence_verdict : Type :=
| EvAgrees
| EvDisagrees (detail : text)
| EvUnproven (detail : text).

(** The body of the loop: what one row adds. *)
Definition judge_evidence (row : StatusEvidence) : evidence_verdict :=
  let id := se_transaction_id row in
  let state := se_status row in
  match se_newest_status_event row with
  | None =>
      if bool_decide (state = Queued) && se_approval_consumed row then
        EvDisagrees [Lit id;
          Lit ": status is Queued but a chained approval_consumed event proves it left Queued"]
      else if bool_decide (state = Running) || bool_decide (state = Canceled) then
        EvUnproven [Lit id; Lit ": status is "; Lit (state_debug state);
          Lit " and no status event was ever chained; historical writes cannot establish the execution outcome"]
      else if negb (bool_decide (state = Queued)) && se_predates_status_events row then
        EvUnproven [Lit id; Lit ": status is "; Lit (state_debug state);
          Lit " on a row written before this store chained status events; nothing signed records its outcome"]
      else if negb (bool_decide (state = Queued)) then
        EvDisagrees [Lit id; Lit ": status is "; Lit (state_debug state);
          Lit " but no status event was ever chained; terminal outcomes require a signed status event"]
      else EvAgrees
  | Some newest =>
      let expected := event_as_str (event_of_state state) in
      if negb (newest =? expected)%string then
        EvDisagrees [Lit id; Lit ": status column says "; Lit (state_debug state); Lit " (";
          Lit expected; Lit ") and the newest chained status event is "; Lit newest]
      else EvAgrees
  end.

Definition status_outcome (rows : list StatusEvidence) : StatusOutcome :=
  let verdicts := map judge_evidence rows in
  let disagreements := omap (fun v => match v with EvDisagrees d => Some d | _ => None end) verdicts in
  let unproven := omap (fun v => match v with EvUnproven d => Some d | _ => None end) verdicts in
  match disagreements, unproven with
  | _ :: _, _ => Disagrees (text_join [Lit "; "] disagreements)
  | [], _ :: _ => StatusCannotVerify (text_join [Lit "; "] unproven)
  | [], [] => Agrees (length rows)
  end.

Definition status_outcome_to_exit_code (o : StatusOutcome) : Z :=
  match o with Agrees _ => 0 | Disagrees _ => 1 | StatusCannotVerify _ => 2 end.

(** ** Binding of the two chains *)

Inductive BindingOutcome : Type :=
| BindingConsistent (bindings_checked : nat)
| NotChecked
| MissingEvent (transaction_seq : N) (event_tip : string).

Fixpoint binding_from (known : list string) (bindings_checked : nat) (tx_rows : list ChainRow)
    : BindingOutcome :=
  match tx_rows with
  | [] => BindingConsistent bindings_checked
  | row :: rows' =>
      match cr_event_tip row with
      | None => binding_from known bindings_checked rows'
      | Some tip =>
          if is_empty tip then binding_from known bindings_checked rows'
          else if negb (str_in tip known) then MissingEvent (cr_seq row) tip
          else binding_from known (S bindings_checked) rows'
      end
  end.

Definition verify_event_binding (tx_rows : list ChainRow) (event_rows : list EventRow)
    : BindingOutcome := binding_from (map er_chain_hash event_rows) 0 tx_rows.

Definition binding_outcome_to_exit_code (o : BindingOutcome) : Z :=
  match o with BindingConsistent _ => 0 | NotChecked => 2 | MissingEvent _ _ => 1 end.

(** ** Attribution census *)

Inductive RowStanding : Type :=
| NamesAccount | StandingFailed | NotRecorded | Unattested.

#[export] Instance RowStanding_eq_dec : EqDecision RowStanding.
Proof. solve_decision. Defined.

Definition standing (row : ChainRow) : RowStanding :=
  let stored := non_empty (cr_caller_principal row) in
  let v := cr_chain_version row in
  if (v =? CHAIN_VERSION_LEGACY)%N || (v =? CHAIN_VERSION_V2)%N then
    match stored with None => NotRecorded | Some _ => Unattested end
  else if (v =? CHAIN_VERSION_V3)%N || (v =? CHAIN_VERSION_V4)%N then
    match stored with
    | None => NotRecorded
    | Some p => match classify p with
                | Account => NamesAccount
                | AttributionFailed => StandingFailed
                | Unrecognized => Unattested
                end
    end
  else Unattested.

Record AttributionCensus : Type := mkCensus {
  ac_named : nat;
  ac_attribution_failed : nat;
  ac_not_recorded : nat;
  ac_unattested : nat;
  ac_rows : nat }.

Definition census_add (c : AttributionCensus) (row : ChainRow) : AttributionCensus :=
  match standing row with
  | NamesAccount => mkCensus (S (ac_named c)) (ac_attribution_failed c) (ac_not_recorded c)
                      (ac_unattested c) (ac_rows c)
  | StandingFailed => mkCensus (ac_named c) (S (ac_attribution_failed c)) (ac_not_recorded c)
                        (ac_unattested c) (ac_rows c)
  | NotRecorded => mkCensus (ac_named c) (ac_attribution_failed c) (S (ac_not_recorded c))
                     (ac_unattested c) (ac_rows c)
  | Unattested => mkCensus (ac_named c) (ac_attribution_failed c) (ac_not_recorded c)
                    (S (ac_unattested c)) (ac_rows c)
  end.

Definition census_of (rows : list ChainRow) : AttributionCensus :=
  fold_left census_add rows (mkCensus 0 0 0 0 (length rows)).

(** [self.rows - self.named] *)
Definition census_unnamed (c : AttributionCensus) : nat := ac_rows c - ac_named c.

(** ** The whole verification *)

Record AuditVerification : Type := mkVerification {
  av_chain : VerifyOutcome;
  av_events : VerifyOutcome;
  av_binding : BindingOutcome;
  av_attribution : option AttributionCensus;
  av_status : option StatusOutcome }.

Definition exit_codes (v : AuditVerification) : list Z :=
  [outcome_to_exit_code (av_chain v); outcome_to_exit_code (av_events v);
   binding_outcome_to_exit_code (av_binding v)]
  ++ match av_status v with Some s => [status_outcome_to_exit_code s] | None => [] end.

Definition exit_code (v : AuditVerification) : Z :=
  let codes := exit_codes v in
  if existsb (Z.eqb 1) codes then 1 else if existsb (Z.eqb 2) codes then 2 else 0.

Section VerifyAll.
Context `{Crypto}.

Definition verify_all (key : AuditKey) (tx_rows : list ChainRow) (event_rows : list EventRow)
    : AuditVerification := {|
  av_chain := verify_chain key tx_rows;
  av_events := verify_event_chain key event_rows;
  av_binding := verify_event_binding tx_rows event_rows;
  av_attribution := Some (census_of tx_rows);
  av_status := None |}.

Definition verify_all_with_pubkey (hex_str : string) (tx_rows : list ChainRow)
    (event_rows : list EventRow) : AuditVerification := {|
  av_chain := verify_chain_with_pubkey hex_str tx_rows;
  av_events := verify_event_chain_with_pubkey hex_str event_rows;
  av_binding := verify_event_binding tx_rows event_rows;
  av_attribution := Some (census_of tx_rows);
  av_status := None |}.
End VerifyAll.

(** ** Checkpoints *)

Inductive CheckpointOutcome : Type :=
| CpConsistent (checkpoints_checked : nat)
| BadSignature (seq : N)
| Truncated (checkpoint_seq current_max_seq : N)
| TipMismatch (seq : N) (anchored actual : string)
| CpCannotVerify (reason : text).

(** [slice::binary_search_by_key] of the standard library: halve [size] keeping
    [base] at an element not greater than the key; [fuel] is the length. *)
Fixpoint bsearch_go (fuel : nat) (seqs : list N) (key : N) (base size : nat) : nat :=
  match fuel with
  | O => base
  | S fuel' =>
      if 1 <? size then
        let half := Nat.div size 2 in
        let mid := base + half in
        let base' := if (key <? default 0%N (seqs !! mid))%N then base else mid in
        bsearch_go fuel' seqs key base' (size - half)
      else base
  end.

Definition binary_search_by_key (seqs : list N) (key : N) : option nat :=
  match length seqs with
  | O => None
  | size => let base := bsearch_go size seqs key 0 size in
            if bool_decide (seqs !! base = Some key) then Some base else None
  end.

Section Checkpoints.
Context `{Crypto}.

Fixpoint checkpoints_from (vk : VerifyingKey) (rows : list ChainRow) (checked : nat)
    (checkpoints : list Checkpoint) : CheckpointOutcome :=
  match checkpoints with
  | [] => CpConsistent checked
  | cp :: rest =>
      let msg := checkpoint_message (cp_seq cp) (cp_chain_tip cp) (cp_created_at cp) in
      if negb (signature_ok vk msg (cp_signature cp)) then BadSignature (cp_seq cp)
      else
        match binary_search_by_key (map cr_seq rows) (cp_seq cp) ≫= (fun i => rows !! i) with
        | Some row =>
            if (cr_chain_hash row =? cp_chain_tip cp)%string
            then checkpoints_from vk rows (S checked) rest
            else TipMismatch (cp_seq cp) (cp_chain_tip cp) (cr_chain_hash row)
        | None => Truncated (cp_seq cp) (default 0%N (cr_seq <$> last rows))
        end
  end.

Definition verify_checkpoints (hex_str : string) (rows : list ChainRow)
    (checkpoints : list Checkpoint) : CheckpointOutcome :=
  match parse_verifying_key hex_str with
  | Some vk => checkpoints_from vk rows 0 checkpoints
  | None => CpCannotVerify [Lit "invalid public key hex (";
      Lit (dec_of_N (N.of_nat (String.length hex_str))); Lit " chars)"]
  end.
End Checkpoints.

Definition checkpoint_outcome_to_exit_code (o : CheckpointOutcome) : Z :=
  match o with
  | CpConsistent _ => 0
  | BadSignature _ | Truncated _ _ | TipMismatch _ _ _ => 1
  | CpCannotVerify _ => 2
  end.

(** ** The walk: what its verdict means *)

Section LinkLemmas.
Context {R : Type} `{ChainLink R}.

(** Every row points at the hash before it. *)
Fixpoint linked (last_hash : string) (rows : list R) : Prop :=
  match rows with
  | [] => True
  | r :: rows' => link_prev r = last_hash /\ linked (link_hash r) rows'
  end.

(** The hash the next row must point at. *)
Fixpoint tip_from (last_hash : string) (rows : list R) : string :=
  match rows with [] => last_hash | r :: rows' => tip_from (link_hash r) rows' end.

Lemma linked_snoc last rows r :
  linked last (rows ++ [r]) <-> linked last rows /\ link_prev r = tip_from last rows.
Proof. revert last. induction rows as [|x rows IH]; intros last; simpl; [naive_solver|]. rewrite IH. naive_solver. Qed.

Lemma tip_from_snoc last rows r : tip_from last (rows ++ [r]) = link_hash r.
Proof. revert last. by induction rows as [|x rows IH]; intros last; simpl. Qed.

Lemma linked_lookup_S last rows i r :
  linked last rows -> rows !! S i = Some r ->
  exists q, rows !! i = Some q /\ link_prev r = link_hash q.
Proof.
  revert last i. induction rows as [|x rows IH]; intros last i; [done|]. simpl. intros [Hx Hl] Hr.
  destruct i as [|i]; simpl in *.
  - destruct rows as [|y rows]; [done|]. simpl in *. exists x. naive_solver.
  - eauto.
Qed.

Lemma linked_lookup_0 last rows r : linked last rows -> rows !! 0 = Some r -> link_prev r = last.
Proof. destruct rows; simpl; naive_solver. Qed.

Lemma linked_app last pre r post :
  linked last (pre ++ r :: post) -> linked last pre /\ link_prev r = tip_from last pre.
Proof.
  revert last. induction pre as [|x pre IH]; intros last; simpl; [naive_solver|].
  intros [? ?%IH]. naive_solver.
Qed.
End LinkLemmas.

Section WalkLemmas.
Context {R : Type} `{ChainLink R} (check : R -> RowCheck).

Definition row_verified (r : R) : Prop := check r = RowVerified.
Definition row_unverifiable (r : R) : Prop := exists reason, check r = RowUnverifiable reason.
Definition row_broken (r : R) : Prop := exists e a, check r = RowBroken e a.

Definition count_verified (rows : list R) : nat :=
  length (filter (fun r => match check r with RowVerified => true | _ => false end = true) rows).

(** A provable break: a wrong link, or a row that is not what was signed. *)
Definition break_at (last_hash : string) (r : R) : Prop :=
  link_prev r <> last_hash \/ row_broken r.

Lemma walk_from_spec last n fu u rows :
  match walk_from check last n fu u rows with
  | Intact k => linked last rows /\ Forall row_verified rows /\ fu = None /\ k = n + length rows
  | CannotVerify _ => linked last rows /\ Forall (fun r => ~ row_broken r) rows
      /\ (fu <> None \/ Exists row_unverifiable rows)
  | Broken k s t _ _ => exists pre row post, rows = pre ++ row :: post /\ linked last pre
      /\ Forall (fun r => ~ row_broken r) pre /\ break_at (tip_from last pre) row
      /\ s = link_seq row /\ t = link_transaction_id row /\ k = n + count_verified pre
  end.
Proof.
  revert last n fu u. induction rows as [|r rows IH]; intros last n fu u; cbn [walk_from].
  - destruct fu; simpl; split_and!; try done; try (by constructor); lia.
  - destruct (String.eqb_spec (link_prev r) last) as [El|El]; cbn [negb].
    2:{ exists [], r, rows. split_and!; try done; try (by constructor); unfold count_verified; simpl; lia. }
    destruct (check r) as [|reason|e a] eqn:Ec.
    + specialize (IH (link_hash r) (S n) fu u).
      destruct (walk_from _ _ _ _ _ _) as [k|k s t e a|reason].
      * destruct IH as (? & ? & ? & ?). split_and!; try done; [by constructor|simpl; lia].
      * destruct IH as (pre & row & post & -> & ? & ? & ? & ? & ? & ?).
        exists (r :: pre), row, post. split_and!; try done.
        { constructor; [intros (? & ? & ?); congruence|done]. }
        unfold count_verified in *. rewrite filter_cons_True by (by rewrite Ec). simpl. lia.
      * destruct IH as (? & ? & ?). split_and!; try done.
        { constructor; [intros (? & ? & ?); congruence|done]. }
        destruct H2; [by left|right; by constructor].
    + specialize (IH (link_hash r) n (Some (default reason fu)) (S u)).
      destruct (walk_from _ _ _ _ _ _) as [k|k s t e a|reason'].
      * destruct IH as (? & ? & ? & ?). done.
      * destruct IH as (pre & row & post & -> & ? & ? & ? & ? & ? & ?).
        exists (r :: pre), row, post. split_and!; try done.
        { constructor; [intros (? & ? & ?); congruence|done]. }
        unfold count_verified in *. rewrite filter_cons_False by (by rewrite Ec). simpl. lia.
      * destruct IH as (? & ? & ?). split_and!; try done.
        { constructor; [intros (? & ? & ?); congruence|done]. }
        right. left. by exists reason.
    + exists [], r, rows. split_and!; try done; try (by constructor);
        [right; by exists e, a|unfold count_verified; simpl; lia..].
Qed.

Lemma row_check_cases r : row_verified r \/ row_unverifiable r \/ row_broken r.
Proof. unfold row_verified, row_unverifiable, row_broken. destruct (check r); eauto 6. Qed.

Lemma verified_not_broken r : row_verified r -> ~ row_broken r.
Proof. intros ? (? & ? & ?). unfold row_verified in *. congruence. Qed.
Lemma unverifiable_not_verified r : row_unverifiable r -> ~ row_verified r.
Proof. intros [? ?] ?. unfold row_verified in *. congruence. Qed.

(** A broken row excludes the two other verdicts. *)
Lemma break_excludes last pre row post :
  break_at (tip_from last pre) row ->
  linked last (pre ++ row :: post) -> Forall (fun r => ~ row_broken r) (pre ++ row :: post) -> False.
Proof.
  intros Hb Hl Hf. apply linked_app in Hl as [_ Hl].
  rewrite Forall_app, Forall_cons in Hf. destruct Hb; naive_solver.
Qed.

Lemma Forall_verified_not_broken rows : Forall row_verified rows -> Forall (fun r => ~ row_broken r) rows.
Proof. intros Hv. eapply Forall_impl; [exact Hv|]. apply verified_not_broken. Qed.

Lemma walk_chain_Intact rows n :
  walk_chain check rows = Intact n
  <-> linked "" rows /\ Forall row_verified rows /\ n = length rows.
Proof.
  unfold walk_chain. pose proof (walk_from_spec "" 0 None 0 rows) as HS.
  destruct (walk_from _ _ _ _ _ _) as [k|k s t e a|reason].
  - destruct HS as (? & ? & _ & ->). naive_solver.
  - split; [done|]. intros (Hl & Hv & _). exfalso.
    destruct HS as (pre & row & post & -> & _ & _ & Hb & _).
    eapply break_excludes; eauto using Forall_verified_not_broken.
  - split; [done|]. intros (_ & Hv & _). exfalso. destruct HS as (_ & _ & [?|He]); [done|].
    apply Exists_exists in He as (x & Hx & Hu). rewrite Forall_forall in Hv.
    by apply (unverifiable_not_verified x); [|apply Hv].
Qed.

Lemma walk_chain_CannotVerify rows :
  (exists reason, walk_chain check rows = CannotVerify reason)
  <-> linked "" rows /\ Forall (fun r => ~ row_broken r) rows /\ Exists row_unverifiable rows.
Proof.
  unfold walk_chain. pose proof (walk_from_spec "" 0 None 0 rows) as HS.
  destruct (walk_from _ _ _ _ _ _) as [k|k s t e a|reason].
  - split; [by intros [? ?]|]. intros (_ & _ & He). exfalso. destruct HS as (_ & Hv & _).
    apply Exists_exists in He as (x & Hx & Hu). rewrite Forall_forall in Hv.
    by apply (unverifiable_not_verified x); [|apply Hv].
  - split; [by intros [? ?]|]. intros (Hl & Hv & _). exfalso.
    destruct HS as (pre & row & post & -> & _ & _ & Hb & _). eapply break_excludes; eauto.
  - split; [intros _|by exists reason]. destruct HS as (? & ? & [?|?]); done.
Qed.

Lemma walk_chain_Broken rows :
  outcome_to_exit_code (walk_chain check rows) = 1%Z
  <-> exists pre row post, rows = pre ++ row :: post /\ break_at (tip_from "" pre) row.
Proof.
  unfold walk_chain. pose proof (walk_from_spec "" 0 None 0 rows) as HS.
  destruct (walk_from _ _ _ _ _ _) as [k|k s t e a|reason]; simpl.
  - split; [done|]. intros (pre & row & post & -> & Hb). exfalso. destruct HS as (? & ? & _).
    eapply break_excludes; eauto using Forall_verified_not_broken.
  - split; [|done]. intros _. destruct HS as (pre & row & post & ? & _ & _ & ? & _). eauto.
  - split; [done|]. intros (pre & row & post & -> & Hb). exfalso. destruct HS as (? & ? & _).
    eapply break_excludes; eauto.
Qed.
End WalkLemmas.

(** ** Tampering and forgery *)

Lemma rev_case {A} (l : list A) : l = [] \/ exists l' x, l = l' ++ [x].
Proof. induction l as [|x l _] using rev_ind; [by left|right; eauto]. Qed.

Lemma lookup_snoc {A} (l : list A) x : (l ++ [x]) !! length l = Some x.
Proof. by rewrite lookup_app_r, Nat.sub_diag by lia. Qed.

Section Tamper.
Context {R : Type} `{ChainLink R} `{CryptoLaws}.
Variable vk : VerifyingKey.
(** The message a row's signature is checked against, when it has one. *)
Variable msg : R -> option bytes.
Variable dom : bytes.

Definition row_signed (r : R) : Prop :=
  exists m, msg r = Some m /\ signature_ok vk m (link_hash r) = true.

Hypothesis msg_dom : forall r m, msg r = Some m -> bytes_prefix dom m = true.
Hypothesis msg_inj : forall r r' m,
  no_rs (link_prev r) -> no_rs (link_prev r') -> msg r = Some m -> msg r' = Some m ->
  link_prev r = link_prev r' /\ link_seq r = link_seq r'.

(** Somebody made a signature the key never made, or one signature that holds
    for two messages. *)
Definition signature_break (signed : list bytes) : Prop :=
  (exists m s, m ∉ signed /\ signature_ok vk m s = true)
  \/ (exists m m' s, m <> m' /\ signature_ok vk m s = true /\ signature_ok vk m' s = true).

(** [rows] are the first rows of [rows0], up to the spelling of the last
    signature. *)
Definition same_prefix (rows rows0 : list R) : Prop :=
  forall i r, rows !! i = Some r ->
    exists r0, rows0 !! i = Some r0 /\ msg r = msg r0
      /\ (S i < length rows -> link_hash r = link_hash r0).

Lemma linked_prev_no_rs rows i r :
  linked "" rows -> Forall row_signed rows -> rows !! i = Some r -> no_rs (link_prev r).
Proof.
  intros Hl Hs Hr. destruct i as [|i].
  - rewrite (linked_lookup_0 _ _ _ Hl Hr). apply no_rs_nil.
  - destruct (linked_lookup_S _ _ _ _ Hl Hr) as (q & Hq & ->).
    rewrite Forall_lookup in Hs. destruct (Hs _ _ Hq) as (m & _ & Hm).
    by apply signature_ok_hex in Hm as [? _].
Qed.

Lemma same_prefix_snoc rows rows0 r r0 :
  same_prefix rows rows0 -> rows0 !! length rows = Some r0 -> msg r = msg r0 ->
  (forall q, rows !! (length rows - 1) = Some q -> exists q0,
     rows0 !! (length rows - 1) = Some q0 /\ link_hash q = link_hash q0) ->
  same_prefix (rows ++ [r]) rows0.
Proof.
  intros Hp Hr0 Hm Hq i x Hx. apply lookup_app_Some in Hx as [Hx|[Hi Hx]].
  - destruct (Hp i x Hx) as (x0 & E0 & Em & Eh). exists x0. split_and!; [done..|]. intros _.
    apply lookup_lt_Some in Hx as Hlt.
    destruct (decide (S i < length rows)) as [?|?]; [by apply Eh|].
    replace (length rows - 1) with i in Hq by lia.
    destruct (Hq x Hx) as (q0 & Eq & ->). congruence.
  - apply list_lookup_singleton_Some in Hx as [Ei <-].
    replace i with (length rows) by lia. exists r0. split_and!; [done..|].
    rewrite length_app. simpl. lia.
Qed.

Lemma tamper_prefix signed rows rows0 :
  (forall m, m ∈ signed -> bytes_prefix dom m = true -> exists r0, r0 ∈ rows0 /\ msg r0 = Some m) ->
  linked "" rows0 -> Forall row_signed rows0 -> NoDup (map link_seq rows0) ->
  linked "" rows -> Forall row_signed rows ->
  signature_break signed \/ same_prefix rows rows0.
Proof.
  intros Hsig Hl0 Hs0 Hnd. induction rows as [|r rows IH] using rev_ind.
  { intros _ _. right. intros i r Hr. by rewrite lookup_nil in Hr. }
  intros Hl Hs. apply linked_snoc in Hl as Hl'. destruct Hl' as [Hl1 Hprev].
  apply Forall_app in Hs as Hs'. destruct Hs' as [Hs1 Hr]. rewrite Forall_singleton in Hr.
  destruct IH as [?|IH]; [done..|by left|].
  destruct Hr as (m & Em & Hm).
  destruct (decide (m ∈ signed)) as [Hin|Hnin]; [|left; left; eauto].
  destruct (Hsig m Hin ltac:(eauto)) as (r0 & Hr0 & Em0).
  apply list_elem_of_lookup in Hr0 as (j & Hj).
  destruct (msg_inj r r0 m) as [Epr _]; [| |done..|].
  { apply (linked_prev_no_rs (rows ++ [r]) (length rows) _ Hl Hs). apply lookup_snoc. }
  { exact (linked_prev_no_rs rows0 j r0 Hl0 Hs0 Hj). }
  destruct (rev_case rows) as [->|(rows' & q & ->)].
  - simpl in Hprev. right.
    destruct j as [|j].
    + apply (same_prefix_snoc [] rows0 r r0); [done|done|congruence|]. intros q Hq. done.
    + exfalso. destruct (linked_lookup_S _ _ _ _ Hl0 Hj) as (p0 & Hp0 & E).
      rewrite Forall_lookup in Hs0. destruct (Hs0 _ _ Hp0) as (m' & _ & Hm').
      apply signature_ok_hex in Hm' as [_ Hne]. congruence.
  - rewrite tip_from_snoc in Hprev.
    assert (Hq : (rows' ++ [q]) !! length rows' = Some q) by apply lookup_snoc.
    apply Forall_app in Hs1 as [_ Hsq]. rewrite Forall_singleton in Hsq.
    destruct Hsq as (mq & Emq & Hmq).
    destruct j as [|j].
    { exfalso. rewrite (linked_lookup_0 _ _ _ Hl0 Hj) in Epr.
      apply signature_ok_hex in Hmq as [_ Hne]. congruence. }
    destruct (linked_lookup_S _ _ _ _ Hl0 Hj) as (p0 & Hp0 & E).
    destruct (IH _ _ Hq) as (q0 & Hq0 & Eq0 & _).
    pose proof (proj1 (Forall_lookup _ _) Hs0 _ _ Hp0) as (mp & Emp & Hmp).
    assert (Eh : link_hash p0 = link_hash q) by congruence. rewrite Eh in Hmp.
    destruct (decide (mq = mp)) as [->|Hne]; [|left; right; by exists mq, mp, (link_hash q)].
    right. destruct (msg_inj q0 p0 mp) as [_ Eseq]; [| |congruence|done|].
    { exact (linked_prev_no_rs rows0 _ q0 Hl0 Hs0 Hq0). }
    { exact (linked_prev_no_rs rows0 _ p0 Hl0 Hs0 Hp0). }
    assert (j = length rows') as ->.
    { eapply (NoDup_lookup (map link_seq rows0)); [done| |];
        rewrite list_lookup_fmap, ?Hp0, ?Hq0; simpl; [done|congruence]. }
    apply (same_prefix_snoc _ _ _ r0); [done| |congruence|].
    { rewrite length_app. simpl. by rewrite Nat.add_1_r. }
    intros x Hx. rewrite length_app in *. simpl in *.
    replace (length rows' + 1 - 1) with (length rows') in * by lia.
    exists p0. split; [done|]. congruence.
Qed.
End Tamper.

(** *** The two chains *)

Definition row_message (r : ChainRow) : option bytes :=
  match row_identity r with
  | Ok i => Some (chain_message (row_content r i) (cr_prev_chain_hash r))
  | Err _ => None
  end.

Definition event_row_message (r : EventRow) : option bytes :=
  match parse_event_kind (er_kind r), event_row_identity r with
  | Some k, Ok i => Some (event_message (event_row_content r k i) (er_prev_chain_hash r))
  | _, _ => None
  end.

Lemma row_message_dom r m : row_message r = Some m -> bytes_prefix ROW_DOMAIN m = true.
Proof. unfold row_message. case_match; intros; simplify_eq. auto with sysk. Qed.

Lemma event_row_message_dom r m : event_row_message r = Some m -> bytes_prefix EVENT_DOMAIN m = true.
Proof. unfold event_row_message. repeat case_match; intros; simplify_eq. auto with sysk. Qed.

(** Two rows say the same: every signed column, and the link. *)
Definition row_agrees (r r' : ChainRow) : Prop :=
  exists i, row_identity r = Ok i /\ row_identity r' = Ok i
    /\ content_view (row_content r i) = content_view (row_content r' i)
    /\ cr_prev_chain_hash r = cr_prev_chain_hash r'.

Definition event_agrees (r r' : EventRow) : Prop :=
  exists k i, parse_event_kind (er_kind r) = Some k /\ parse_event_kind (er_kind r') = Some k
    /\ event_row_identity r = Ok i /\ event_row_identity r' = Ok i
    /\ event_row_content r k i = event_row_content r' k i
    /\ er_prev_chain_hash r = er_prev_chain_hash r'.

Lemma row_message_inj r r' m :
  no_rs (cr_prev_chain_hash r) -> no_rs (cr_prev_chain_hash r') ->
  row_message r = Some m -> row_message r' = Some m -> row_agrees r r'.
Proof.
  unfold row_message. intros Hp Hp' E E'.
  destruct (row_identity r) as [i|] eqn:Ei; [|done].
  destruct (row_identity r') as [i'|] eqn:Ei'; [|done].
  apply (inj Some) in E, E'. subst m.
  apply chain_message_inj in E' as [Ev Ep]; [|done..].
  assert (i' = i) as -> by (apply (f_equal cc_identity) in Ev; exact Ev).
  by exists i.
Qed.

Lemma event_row_message_inj r r' m :
  no_rs (er_prev_chain_hash r) -> no_rs (er_prev_chain_hash r') ->
  event_row_message r = Some m -> event_row_message r' = Some m -> event_agrees r r'.
Proof.
  unfold event_row_message. intros Hp Hp' E E'.
  destruct (parse_event_kind (er_kind r)) as [k|] eqn:Ek; [|done].
  destruct (parse_event_kind (er_kind r')) as [k'|] eqn:Ek'; [|done].
  destruct (event_row_identity r) as [i|] eqn:Ei; [|done].
  destruct (event_row_identity r') as [i'|] eqn:Ei'; [|done].
  apply (inj Some) in E, E'. subst m.
  apply event_message_inj in E' as [Ev Ep]; [|done..].
  assert (i' = i) as -> by (apply (f_equal ec_identity) in Ev; exact Ev).
  assert (k' = k) as -> by (apply (f_equal ec_kind) in Ev; exact Ev).
  exists k, i. by rewrite Ev.
Qed.

Lemma failed_signature_not_verified w s k e h : failed_signature w s k e h <> RowVerified.
Proof. unfold failed_signature. repeat case_match; done. Qed.

Section Chains.
Context `{CryptoLaws}.

Lemma check_row_verified vk e r :
  check_row vk e r = RowVerified <-> row_signed vk row_message r.
Proof.
  unfold check_row, row_signed, row_message. destruct (row_identity r) as [i|[v|f]].
  - case_match eqn:E.
    + split; [|done]. intros _. eauto.
    + split; [by intros ?%failed_signature_not_verified|]. intros (? & [= <-] & ?).
      simpl in *. congruence.
  - split; [done|]. by intros (? & ? & _).
  - split; [done|]. by intros (? & ? & _).
Qed.

Lemma check_event_row_verified vk e r :
  check_event_row vk e r = RowVerified <-> row_signed vk event_row_message r.
Proof.
  unfold check_event_row, row_signed, event_row_message.
  destruct (parse_event_kind (er_kind r)) as [k|]; [|split; [done|by intros (? & ? & _)]].
  destruct (event_row_identity r) as [i|[v|f]].
  - case_match eqn:E.
    + split; [|done]. intros _. eauto.
    + split; [by intros ?%failed_signature_not_verified|]. intros (? & [= <-] & ?).
      simpl in *. congruence.
  - split; [done|]. by intros (? & ? & _).
  - split; [done|]. by intros (? & ? & _).
Qed.

Lemma verify_rows_Intact vk e rows n :
  verify_rows vk e rows = Intact n
  <-> linked "" rows /\ Forall (row_signed vk row_message) rows /\ n = length rows.
Proof.
  unfold verify_rows. rewrite walk_chain_Intact. unfold row_verified.
  by setoid_rewrite check_row_verified.
Qed.

Lemma verify_event_rows_Intact vk e rows n :
  verify_event_rows vk e rows = Intact n
  <-> linked "" rows /\ Forall (row_signed vk event_row_message) rows /\ n = length rows.
Proof.
  unfold verify_event_rows. rewrite walk_chain_Intact. unfold row_verified.
  by setoid_rewrite check_event_row_verified.
Qed.

Lemma rows_prefix vk signed rows rows0 :
  (forall m, m ∈ signed -> bytes_prefix ROW_DOMAIN m = true ->
     exists r0, r0 ∈ rows0 /\ row_message r0 = Some m) ->
  NoDup (map cr_seq rows0) ->
  linked "" rows0 -> Forall (row_signed vk row_message) rows0 ->
  linked "" rows -> Forall (row_signed vk row_message) rows ->
  signature_break vk signed \/ same_prefix row_message rows rows0.
Proof.
  intros Hsig Hnd Hl0 Hs0 Hl Hs.
  apply (tamper_prefix vk row_message ROW_DOMAIN) with (signed := signed); try done.
  - apply row_message_dom.
  - intros r r' m Hp Hp' E E'. destruct (row_message_inj r r' m Hp Hp' E E')
      as (i & _ & _ & Ev & Ep). split; [done|]. by apply (f_equal cc_seq) in Ev.
Qed.

Lemma events_prefix vk signed rows rows0 :
  (forall m, m ∈ signed -> bytes_prefix EVENT_DOMAIN m = true ->
     exists r0, r0 ∈ rows0 /\ event_row_message r0 = Some m) ->
  NoDup (map er_seq rows0) ->
  linked "" rows0 -> Forall (row_signed vk event_row_message) rows0 ->
  linked "" rows -> Forall (row_signed vk event_row_message) rows ->
  signature_break vk signed \/ same_prefix event_row_message rows rows0.
Proof.
  intros Hsig Hnd Hl0 Hs0 Hl Hs.
  apply (tamper_prefix vk event_row_message EVENT_DOMAIN) with (signed := signed); try done.
  - apply event_row_message_dom.
  - intros r r' m Hp Hp' E E'. destruct (event_row_message_inj r r' m Hp Hp' E E')
      as (k & i & _ & _ & _ & _ & Ev & Ep). split; [done|]. by apply (f_equal ec_seq) in Ev.
Qed.
End Chains.

(** *** Binary search *)

Lemma sorted_lookup_lt seqs i j x y :
  StronglySorted N.lt seqs -> seqs !! i = Some x -> seqs !! j = Some y -> i < j -> (x < y)%N.
Proof.
  intros Hs. revert i j. induction Hs as [|a l _ IH Ha]; intros i j Hi Hj Hij; [done|].
  destruct j as [|j]; [lia|]. simpl in Hj. destruct i as [|i]; simpl in Hi.
  - simplify_eq. rewrite Forall_lookup in Ha. eauto.
  - eapply IH; eauto. lia.
Qed.

Lemma bsearch_go_spec fuel seqs key base size :
  StronglySorted N.lt seqs -> 0 < size -> size <= fuel -> base + size <= length seqs ->
  (forall i s, seqs !! i = Some s -> base + size <= i -> (key < s)%N) ->
  (base = 0 \/ exists s, seqs !! base = Some s /\ (s <= key)%N) ->
  (exists i, seqs !! i = Some key) ->
  seqs !! bsearch_go fuel seqs key base size = Some key.
Proof.
  intros Hsorted. revert base size. induction fuel as [|fuel IH]; intros base size Hpos Hf Hb Hhi Hlo Hex; [lia|].
  cbn [bsearch_go]. destruct (Nat.ltb_spec 1 size) as [H1|H1].
  - assert (Hd : size / 2 < size) by (apply Nat.div_lt; lia).
    assert (Hd1 : 1 <= size / 2) by (apply Nat.div_le_lower_bound; lia).
    pose proof (Nat.Div0.mul_div_le size 2) as Hd2.
    set (half := size / 2) in *. fold half.
    destruct (lookup_lt_is_Some_2 seqs (base + half) ltac:(lia)) as [s Hs]. rewrite Hs. simpl.
    destruct (N.ltb_spec key s) as [Hlt|Hge].
    + apply IH; try done; try lia. intros i s' Hi Hle.
      destruct (decide (i < base + size)) as [Hi'|]; [|eapply Hhi; [done|lia]].
      destruct (decide (i = base + half)) as [->|Hne]; [congruence|].
      eapply N.lt_trans; [done|]. eapply (sorted_lookup_lt seqs); eauto. lia.
    + apply IH; try done; try lia.
      * intros i s' Hi Hle. eapply Hhi; [done|lia].
      * right. eauto.
  - assert (size = 1) as -> by lia. destruct Hex as [i Hi].
    destruct (decide (i = base)) as [->|Hne]; [done|exfalso].
    destruct (decide (base + 1 <= i)) as [Hle|Hgt].
    + specialize (Hhi i key Hi Hle). lia.
    + destruct Hlo as [->|(s & Hs & Hle)]; [lia|].
      assert (key < s)%N by (eapply (sorted_lookup_lt seqs); eauto; lia). lia.
Qed.

Lemma binary_search_spec seqs key :
  StronglySorted N.lt seqs ->
  match binary_search_by_key seqs key with
  | Some i => seqs !! i = Some key
  | None => key ∉ seqs
  end.
Proof.
  intros Hs. unfold binary_search_by_key. destruct (length seqs) as [|n] eqn:El.
  { destruct seqs; [apply not_elem_of_nil|done]. }
  case_bool_decide as Hb; [done|]. intros Hin. apply Hb.
  apply list_elem_of_lookup in Hin. apply bsearch_go_spec; try done; try lia; try (by left).
  intros i s Hi Hle. apply lookup_lt_Some in Hi. lia.
Qed.

(** *** Checkpoints, bindings, census, status *)

Section CheckpointLemmas.
Context `{Crypto}.

Lemma checkpoints_from_spec vk rows k cps n :
  StronglySorted N.lt (map cr_seq rows) ->
  checkpoints_from vk rows k cps = CpConsistent n
  <-> n = k + length cps
      /\ Forall (fun cp =>
           signature_ok vk (checkpoint_message (cp_seq cp) (cp_chain_tip cp) (cp_created_at cp))
             (cp_signature cp) = true
           /\ exists r, r ∈ rows /\ cr_seq r = cp_seq cp /\ cr_chain_hash r = cp_chain_tip cp) cps.
Proof.
  intros Hs. revert k. induction cps as [|cp cps IH]; intros k; cbn [checkpoints_from].
  - rewrite Forall_nil, Nat.add_0_r. naive_solver.
  - rewrite Forall_cons. destruct (signature_ok _ _ _) eqn:Esig; cbn [negb]; [|naive_solver].
    pose proof (binary_search_spec (map cr_seq rows) (cp_seq cp) Hs) as HB.
    destruct (binary_search_by_key _ _) as [i|]; cbn [mbind option_bind].
    + rewrite list_lookup_fmap in HB. destruct (rows !! i) as [r|] eqn:Er; [|done].
      simpl in HB. simplify_eq.
      assert (Huniq : forall r', r' ∈ rows -> cr_seq r' = cr_seq r -> r' = r).
      { intros r' [j Hj]%list_elem_of_lookup E. destruct (Nat.lt_trichotomy i j) as [Hij|[->|Hij]];
          [|congruence|];
        [pose proof (sorted_lookup_lt (map cr_seq rows) i j (cr_seq r) (cr_seq r') Hs) as HL
        |pose proof (sorted_lookup_lt (map cr_seq rows) j i (cr_seq r') (cr_seq r) Hs) as HL];
        rewrite !list_lookup_fmap, Er, Hj in HL; simpl in HL;
        specialize (HL eq_refl eq_refl Hij); lia. }
      apply list_elem_of_lookup_2 in Er.
      destruct (String.eqb_spec (cr_chain_hash r) (cp_chain_tip cp)) as [Eh|Eh].
      * rewrite IH. simpl. split.
        { intros [-> HF]. split; [lia|]. split; [|done]. split; [done|]. by exists r. }
        intros [-> [_ HF]]. split; [lia|done].
      * split; [done|]. intros (_ & (_ & r' & Hr' & E1 & E2) & _).
        rewrite (Huniq r' Hr') in E2 by congruence. done.
    + split; [done|]. intros (_ & (_ & r' & Hr' & E1 & E2) & _). exfalso. apply HB.
      rewrite <-E1. by apply list_elem_of_fmap_2.
Qed.
End CheckpointLemmas.

Lemma binding_from_spec known k rows n :
  binding_from known k rows = BindingConsistent n
  -> Forall (fun r => forall tip, cr_event_tip r = Some tip -> tip <> "" -> tip ∈ known) rows.
Proof.
  revert k. induction rows as [|r rows IH]; intros k; cbn [binding_from]; [by constructor|].
  intros E. constructor.
  - intros tip Et Hne. rewrite Et in E. destruct tip as [|c t]; [done|].
    cbn [is_empty] in E. destruct (str_in (String c t) known) eqn:Ek; [|done].
    by rewrite <-str_in_spec.
  - destruct (cr_event_tip r) as [tip|]; [|by eapply IH].
    destruct (is_empty tip); [by eapply IH|]. destruct (str_in tip known); [exact (IH _ E)|done].
Qed.

Definition standing_count (s : RowStanding) (rows : list ChainRow) : nat :=
  length (filter (fun r => standing r = s) rows).

Lemma standing_count_cons s r rows :
  standing_count s (r :: rows) =
  (if bool_decide (standing r = s) then 1 else 0) + standing_count s rows.
Proof. unfold standing_count. rewrite filter_cons. by case_decide; case_bool_decide. Qed.

Lemma census_fold rows c :
  fold_left census_add rows c =
  mkCensus (ac_named c + standing_count NamesAccount rows)
    (ac_attribution_failed c + standing_count StandingFailed rows)
    (ac_not_recorded c + standing_count NotRecorded rows)
    (ac_unattested c + standing_count Unattested rows) (ac_rows c).
Proof.
  revert c. induction rows as [|r rows IH]; intros c; simpl.
  - unfold standing_count. simpl. rewrite !Nat.add_0_r. by destruct c.
  - rewrite IH, !standing_count_cons. unfold census_add.
    destruct (standing r) eqn:E; simpl; f_equal; lia.
Qed.

(** Who a row's signature names, when its encoding signs a principal. *)
Definition identity_principal (i : ChainIdentity) : option string :=
  match i with V3 _ _ p | V4 _ _ p => Some p | _ => None end.

Lemma standing_signed r i :
  row_identity r = Ok i ->
  (standing r = NamesAccount
   <-> exists p, identity_principal i = Some p /\ classify p = Account)
  /\ (standing r = StandingFailed <-> identity_principal i = Some (as_signed_str Unattributed)).
Proof.
  unfold row_identity, standing. intros E.
  destruct (N.eqb_spec (cr_chain_version r) CHAIN_VERSION_LEGACY) as [Ev|_]; cbn [orb].
  { injection E as <-. repeat case_match; naive_solver. }
  destruct (N.eqb_spec (cr_chain_version r) CHAIN_VERSION_V2) as [Ev|_]; cbn [orb].
  { destruct (cr_caller_role r), (cr_event_tip r); simplify_eq/=. repeat case_match; naive_solver. }
  assert (Hp : exists p, non_empty (cr_caller_principal r) = Some p /\ identity_principal i = Some p).
  { destruct (cr_chain_version r =? CHAIN_VERSION_V3)%N;
      [|destruct (cr_chain_version r =? CHAIN_VERSION_V4)%N; [|done]];
      destruct (cr_caller_role r), (cr_event_tip r),
        (non_empty (cr_caller_principal r)) as [p|]; simplify_eq/=; by exists p. }
  destruct Hp as (p & -> & ->).
  assert (Hv : (cr_chain_version r =? CHAIN_VERSION_V3)%N
    || (cr_chain_version r =? CHAIN_VERSION_V4)%N = true)
    by (destruct (_ =? CHAIN_VERSION_V3)%N, (_ =? CHAIN_VERSION_V4)%N; done).
  rewrite Hv. pose proof (classify_cases p). destruct (classify p) eqn:Ec.
  - split; (split; [|try done]); [intros _; by exists p|done|by intros [= ->]].
  - subst p. split; split; [done|intros (? & [= <-] & ?); congruence|done|done].
  - split; (split; [done|]); [intros (? & [= <-] & ?); congruence|by intros [= ->]].
Qed.

Lemma judge_evidence_spec e :
  let state := se_status e in
  judge_evidence e = EvAgrees
  <-> match se_newest_status_event e with
      | Some newest => newest = event_as_str (event_of_state state)
      | None => state = Queued /\ se_approval_consumed e = false
      end.
Proof.
  unfold judge_evidence. destruct (se_newest_status_event e) as [n|].
  - destruct (String.eqb_spec n (event_as_str (event_of_state (se_status e)))); simpl; naive_solver.
  - destruct (se_status e), (se_approval_consumed e), (se_predates_status_events e);
      simpl; naive_solver.
Qed.

Lemma status_outcome_Agrees rows n :
  status_outcome rows = Agrees n <-> n = length rows /\ Forall (fun e => judge_evidence e = EvAgrees) rows.
Proof.
  unfold status_outcome.
  assert (HF : Forall (fun e => judge_evidence e = EvAgrees) rows <->
    omap (fun v => match v with EvDisagrees d => Some d | _ => None end) (map judge_evidence rows) = []
    /\ omap (fun v => match v with EvUnproven d => Some d | _ => None end) (map judge_evidence rows) = []).
  { induction rows as [|e rows IH]; simpl; [by repeat split|].
    rewrite Forall_cons, IH. destruct (judge_evidence e); naive_solver. }
  rewrite HF. repeat case_match; naive_solver.
Qed.

Lemma existsb_Zeqb z l : existsb (Z.eqb z) l = true <-> z ∈ l.
Proof.
  rewrite existsb_exists. setoid_rewrite Z.eqb_eq. setoid_rewrite <-list_elem_of_In. naive_solver.
Qed.

Lemma exit_codes_spec v z :
  z ∈ exit_codes v <->
  z = outcome_to_exit_code (av_chain v) \/ z = outcome_to_exit_code (av_events v)
  \/ z = binding_outcome_to_exit_code (av_binding v)
  \/ exists s, av_status v = Some s /\ z = status_outcome_to_exit_code s.
Proof.
  unfold exit_codes. rewrite elem_of_app, !elem_of_cons, elem_of_nil.
  destruct (av_status v) as [s|]; rewrite ?elem_of_cons, elem_of_nil; naive_solver.
Qed.

Lemma exit_codes_range v z : z ∈ exit_codes v -> z = 0%Z \/ z = 1%Z \/ z = 2%Z.
Proof.
  rewrite exit_codes_spec. intros [->|[->|[->|(s & _ & ->)]]].
  - destruct (av_chain v); simpl; auto.
  - destruct (av_events v); simpl; auto.
  - destruct (av_binding v); simpl; auto.
  - destruct s; simpl; auto.
Qed.

(** ** Properties *)

(** C26: the transaction chain is tamper-evident. Let [rows0] be the rows the
    daemon wrote (they verify, with distinct seq) and let every row message the
    key ever signed be one of theirs. If any other table verifies as Intact,
    then either its author broke the signature scheme (a signature on a message
    never signed, or one valid for two messages), or the table is a prefix of
    [rows0]: row by row the same signed content and links, and the same hashes
    but for the spelling of the last one. So no edit, insertion, deletion or
    reordering short of cutting the tail goes unseen. *)
Theorem chain_tamper_evident `{CryptoLaws} vk expect expect0 signed rows0 rows n :
  (forall m, m ∈ signed -> bytes_prefix ROW_DOMAIN m = true ->
     exists r0, r0 ∈ rows0 /\ row_message r0 = Some m) ->
  NoDup (map cr_seq rows0) ->
  verify_rows vk expect0 rows0 = Intact (length rows0) ->
  verify_rows vk expect rows = Intact n ->
  signature_break vk signed
  \/ n = length rows
     /\ forall i r, rows !! i = Some r -> exists r0, rows0 !! i = Some r0 /\ row_agrees r r0
          /\ (S i < length rows -> cr_chain_hash r = cr_chain_hash r0).
Proof.
  intros Hsig Hnd (Hl0 & Hs0 & _)%verify_rows_Intact (Hl & Hs & ->)%verify_rows_Intact.
  destruct (rows_prefix vk signed rows rows0) as [?|Hp]; auto. right. split; [done|].
  intros i r Hi. destruct (Hp i r Hi) as (r0 & Hr0 & Em & Eh). exists r0. split_and!; auto.
  assert (Hr : row_signed vk row_message r) by (rewrite Forall_lookup in Hs; eauto).
  destruct Hr as (m & Hm & _). apply (row_message_inj r r0 m); [| |done|congruence].
  - exact (linked_prev_no_rs vk row_message rows i r Hl Hs Hi).
  - exact (linked_prev_no_rs vk row_message rows0 i r0 Hl0 Hs0 Hr0).
Qed.

(** The same for the approval-event chain. *)
Theorem event_chain_tamper_evident `{CryptoLaws} vk expect expect0 signed rows0 rows n :
  (forall m, m ∈ signed -> bytes_prefix EVENT_DOMAIN m = true ->
     exists r0, r0 ∈ rows0 /\ event_row_message r0 = Some m) ->
  NoDup (map er_seq rows0) ->
  verify_event_rows vk expect0 rows0 = Intact (length rows0) ->
  verify_event_rows vk expect rows = Intact n ->
  signature_break vk signed
  \/ n = length rows
     /\ forall i r, rows !! i = Some r -> exists r0, rows0 !! i = Some r0 /\ event_agrees r r0
          /\ (S i < length rows -> er_chain_hash r = er_chain_hash r0).
Proof.
  intros Hsig Hnd (Hl0 & Hs0 & _)%verify_event_rows_Intact (Hl & Hs & ->)%verify_event_rows_Intact.
  destruct (events_prefix vk signed rows rows0) as [?|Hp]; auto. right. split; [done|].
  intros i r Hi. destruct (Hp i r Hi) as (r0 & Hr0 & Em & Eh). exists r0. split_and!; auto.
  assert (Hr : row_signed vk event_row_message r) by (rewrite Forall_lookup in Hs; eauto).
  destruct Hr as (m & Hm & _). apply (event_row_message_inj r r0 m); [| |done|congruence].
  - exact (linked_prev_no_rs vk event_row_message rows i r Hl Hs Hi).
  - exact (linked_prev_no_rs vk event_row_message rows0 i r0 Hl0 Hs0 Hr0).
Qed.

(** The verdict of the walk, on every table: Intact iff every link holds and
    every row verifies; exit code 1 iff some row breaks its link or is provably
    not what was signed, wherever it stands and whatever rows before it this
    build cannot check; cannot-verify iff nothing breaks and some row cannot be
    checked. *)
Theorem walk_verdict `{Crypto} vk expect rows :
  (forall n, verify_rows vk expect rows = Intact n <->
     linked "" rows /\ Forall (fun r => check_row vk expect r = RowVerified) rows /\ n = length rows)
  /\ (outcome_to_exit_code (verify_rows vk expect rows) = 1%Z <->
      exists pre row post, rows = pre ++ row :: post
        /\ (cr_prev_chain_hash row <> tip_from "" pre
            \/ exists e a, check_row vk expect row = RowBroken e a))
  /\ (outcome_to_exit_code (verify_rows vk expect rows) = 2%Z <->
      linked "" rows /\ Forall (fun r => forall e a, check_row vk expect r <> RowBroken e a) rows
      /\ Exists (fun r => exists reason, check_row vk expect r = RowUnverifiable reason) rows).
Proof.
  unfold verify_rows. split_and!.
  - intros n. apply walk_chain_Intact.
  - exact (walk_chain_Broken (check_row vk expect) rows).
  - pose proof (walk_chain_CannotVerify (check_row vk expect) rows) as HC.
    assert (HE : outcome_to_exit_code (walk_chain (check_row vk expect) rows) = 2%Z <->
      exists reason, walk_chain (check_row vk expect) rows = CannotVerify reason)
      by (destruct (walk_chain _ _); simpl; naive_solver).
    rewrite HE, HC. unfold row_broken, row_unverifiable.
    split; intros (H1 & H2 & H3); (split_and!; [done| |done]);
      (eapply Forall_impl; [exact H2|]); naive_solver.
Qed.

(** Approval events cannot be cut below a committed tip. If a transaction
    row commits to the hash of the event at position [k] of the daemon's event
    chain, the transaction table still verifies against its binding, and the
    event table is a prefix of the daemon's (as an intact one is), then the
    events up to [k] are all still there, unless two events carry one hash. *)
Theorem binding_keeps_committed_events tx_rows events events0 n row tip k e0 :
  verify_event_binding tx_rows events = BindingConsistent n ->
  row ∈ tx_rows -> cr_event_tip row = Some tip -> tip <> "" ->
  NoDup (map er_chain_hash events0) ->
  events0 !! k = Some e0 -> er_chain_hash e0 = tip ->
  (forall i r, events !! i = Some r -> exists r0, events0 !! i = Some r0
     /\ er_chain_hash r = er_chain_hash r0) ->
  k < length events.
Proof.
  intros HB Hrow Htip Hne Hnd Hk He Hp.
  apply binding_from_spec in HB. rewrite Forall_forall in HB.
  specialize (HB row Hrow tip Htip Hne). apply list_elem_of_fmap in HB as (r & Er & Hr).
  apply list_elem_of_lookup in Hr as (i & Hi). destruct (Hp i r Hi) as (r0 & Hr0 & E).
  assert (i = k) as <-.
  { eapply (NoDup_lookup (map er_chain_hash events0)); [done| |];
      rewrite list_lookup_fmap, ?Hr0, ?Hk; simpl; [done|congruence]. }
  by apply lookup_lt_Some in Hi.
Qed.

(** The census partitions the rows it reads, and never credits an account
    that no signature names: a row counts as named iff its encoding signs a
    principal that reads back as an account, and as a failed attribution iff it
    signs exactly [none:unattributed], whatever the unsigned columns hold. *)
Theorem census_partition rows :
  let c := census_of rows in
  ac_rows c = length rows
  /\ ac_named c + ac_attribution_failed c + ac_not_recorded c + ac_unattested c = ac_rows c
  /\ census_unnamed c = ac_attribution_failed c + ac_not_recorded c + ac_unattested c
  /\ ac_named c = standing_count NamesAccount rows
  /\ ac_attribution_failed c = standing_count StandingFailed rows
  /\ forall r i, r ∈ rows -> row_identity r = Ok i ->
       (standing r = NamesAccount
        <-> exists p, identity_principal i = Some p /\ classify p = Account)
       /\ (standing r = StandingFailed <-> identity_principal i = Some (as_signed_str Unattributed)).
Proof.
  unfold census_of, census_unnamed. rewrite census_fold.
  cbn [ac_named ac_attribution_failed ac_not_recorded ac_unattested ac_rows Nat.add].
  assert (HP : standing_count NamesAccount rows + standing_count StandingFailed rows
    + standing_count NotRecorded rows + standing_count Unattested rows = length rows).
  { induction rows as [|r rows IH]; [done|]. rewrite !standing_count_cons. simpl.
    destruct (standing r); simpl; lia. }
  split_and!; [done|done|lia|done|done|]. intros r i _ Hi. by apply standing_signed.
Qed.

(** The status cross-check agrees iff every row's status is what its newest
    chained status event says, or, with no such event, the row is still Queued
    with no consumed approval; so a rewritten status is never reported clean. *)
Theorem status_check_agrees rows n :
  status_outcome rows = Agrees n <->
  n = length rows
  /\ Forall (fun e => match se_newest_status_event e with
       | Some newest => newest = event_as_str (event_of_state (se_status e))
       | None => se_status e = Queued /\ se_approval_consumed e = false
       end) rows.
Proof.
  rewrite status_outcome_Agrees. apply and_iff_compat_l.
  apply Forall_iff. intros e. apply judge_evidence_spec.
Qed.

(** Checkpoints anchor the chain. Against rows in seq order the verdict is
    consistent iff every checkpoint carries a valid signature and the row at its
    seq still has the anchored hash: so a table cut below an anchored seq, or
    whose row there was rewritten, is never consistent. *)
Theorem checkpoints_anchor `{Crypto} hex vk rows cps n :
  parse_verifying_key hex = Some vk ->
  StronglySorted N.lt (map cr_seq rows) ->
  verify_checkpoints hex rows cps = CpConsistent n
  <-> n = length cps
      /\ Forall (fun cp =>
           signature_ok vk (checkpoint_message (cp_seq cp) (cp_chain_tip cp) (cp_created_at cp))
             (cp_signature cp) = true
           /\ exists r, r ∈ rows /\ cr_seq r = cp_seq cp /\ cr_chain_hash r = cp_chain_tip cp) cps.
Proof.
  intros Hvk Hs. unfold verify_checkpoints. rewrite Hvk.
  by rewrite (checkpoints_from_spec vk rows 0 cps n Hs).
Qed.

(** The exit code never hides a detected tamper: it is 1 iff some check that
    ran found one, 0 iff every check that ran passed, and 2 otherwise. *)
Theorem exit_code_spec v :
  (exit_code v = 1%Z <-> 1%Z ∈ exit_codes v)
  /\ (exit_code v = 0%Z <->
      outcome_to_exit_code (av_chain v) = 0%Z /\ outcome_to_exit_code (av_events v) = 0%Z
      /\ binding_outcome_to_exit_code (av_binding v) = 0%Z
      /\ forall s, av_status v = Some s -> status_outcome_to_exit_code s = 0%Z)
  /\ (exit_code v = 2%Z <-> 1%Z ∉ exit_codes v /\ 2%Z ∈ exit_codes v).
Proof.
  assert (H0 : 1%Z ∉ exit_codes v -> 2%Z ∉ exit_codes v ->
    forall z, z ∈ exit_codes v -> z = 0%Z).
  { intros H1 H2 z Hz. destruct (exit_codes_range v z Hz) as [->|[->| -> ]]; done. }
  assert (HZ : (forall z, z ∈ exit_codes v -> z = 0%Z) <->
    outcome_to_exit_code (av_chain v) = 0%Z /\ outcome_to_exit_code (av_events v) = 0%Z
    /\ binding_outcome_to_exit_code (av_binding v) = 0%Z
    /\ forall s, av_status v = Some s -> status_outcome_to_exit_code s = 0%Z).
  { setoid_rewrite exit_codes_spec. split.
    - intros H. split_and!; [apply H; auto..|]. intros s Hs. apply H. right; right; right. by exists s.
    - intros (Ha & Hb & Hc & Hd) z [->|[->|[->|(s & Hs & ->)]]]; auto. }
  rewrite <-HZ. unfold exit_code.
  destruct (existsb (Z.eqb 1) (exit_codes v)) eqn:E1.
  - apply existsb_Zeqb in E1. split_and!; try done; split; try done.
    + intros H. by specialize (H _ E1).
    + by intros [? _].
  - assert (H1 : 1%Z ∉ exit_codes v) by (rewrite <-existsb_Zeqb; congruence).
    destruct (existsb (Z.eqb 2) (exit_codes v)) eqn:E2.
    + apply existsb_Zeqb in E2. split_and!; try done; split; try done.
      intros H. by specialize (H _ E2).
    + assert (H2 : 2%Z ∉ exit_codes v) by (rewrite <-existsb_Zeqb; congruence).
      split_and!; (split; [try done|try done]).
      * intros _. by apply H0.
      * by intros [_ ?].
Qed.

(** *** The reach of the downgrade defence

    Rewriting an identity row as a legacy one does not always break it: put the
    framed identity suffix in front of its link and the same message is
    rebuilt. The link it then carries can only be met by a preceding row this
    build cannot check, so the walk ends in cannot-verify, not in a break. *)

Definition downgraded (r : ChainRow) (i : ChainIdentity) : ChainRow :=
  mkChainRow (cr_seq r) (cr_key_id r) (cr_transaction_id r) (cr_request_id r)
    (cr_request_hash r) (cr_action_name r) (cr_risk_level r) (cr_summary r) (cr_approval_id r)
    (cr_warnings_json r) (cr_created_at r)
    (string_of_list_ascii (framed (identity_fields i)) ++ cr_prev_chain_hash r)%string
    (cr_chain_hash r) CHAIN_VERSION_LEGACY None None None.

Lemma downgraded_message r i :
  row_identity r = Ok i -> row_message (downgraded r i) = row_message r.
Proof.
  intros Hi. unfold row_message. rewrite Hi. cbn [row_identity downgraded cr_chain_version].
  change (row_identity (downgraded r i)) with (Ok LegacyV1 : result RowIdentityError ChainIdentity).
  f_equal. unfold chain_message. f_equal. rewrite !canonical_bytes_framed.
  cbn [downgraded cr_prev_chain_hash]. rewrite bytes_of_app, list_ascii_of_string_of_list_ascii.
  rewrite app_assoc. f_equal. unfold content_fields, framed. rewrite !flat_map_app.
  by rewrite app_nil_r.
Qed.

(** A downgraded row still verifies under its old signature, and a table
    that hides it behind one row of an unknown encoding is reported as
    cannot-verify rather than broken; it is never Intact. *)
Theorem downgrade_hides_behind_unknown `{CryptoLaws} vk expect r i u :
  row_identity r = Ok i -> check_row vk expect r = RowVerified ->
  cr_prev_chain_hash u = "" -> (4 < cr_chain_version u)%N ->
  cr_chain_hash u = cr_prev_chain_hash (downgraded r i) ->
  check_row vk expect (downgraded r i) = RowVerified
  /\ row_identity (downgraded r i) = Ok LegacyV1
  /\ outcome_to_exit_code (verify_rows vk expect [u; downgraded r i]) = 2%Z
  /\ (i <> LegacyV1 -> forall rows n, downgraded r i ∈ rows ->
        verify_rows vk expect rows <> Intact n).
Proof.
  intros Hi Hr Hu Hv Hh.
  assert (Hd : check_row vk expect (downgraded r i) = RowVerified).
  { apply check_row_verified in Hr as (m & Hm & Hs). apply check_row_verified.
    exists m. by rewrite downgraded_message. }
  split_and!; [done|done| |].
  - assert (Hun : exists reason, check_row vk expect u = RowUnverifiable reason).
    { unfold check_row, row_identity. repeat case_match; simplify_eq/=;
        try (match goal with H : (_ =? _)%N = true |- _ => apply N.eqb_eq in H end;
          unfold CHAIN_VERSION_LEGACY, CHAIN_VERSION_V2, CHAIN_VERSION_V3, CHAIN_VERSION_V4 in *; lia);
        eauto. }
    destruct Hun as [reason Hun]. unfold verify_rows, walk_chain. cbn [walk_from].
    cbn [link_prev chain_row_link link_hash]. rewrite Hu, Hun. cbn [String.eqb negb].
    by rewrite Hh, String.eqb_refl, Hd.
  - intros Hne rows n [k Hk]%list_elem_of_lookup Hint.
    apply verify_rows_Intact in Hint as (Hl & Hs & _).
    pose proof (linked_prev_no_rs vk row_message rows k _ Hl Hs Hk) as Hno.
    apply Hno. cbn [link_prev chain_row_link downgraded cr_prev_chain_hash].
    rewrite bytes_of_app, list_ascii_of_string_of_list_ascii. apply elem_of_app. left.
    destruct i; [done|..]; simpl; set_solver.
Qed.

(** ** Examples *)

Module Sample.
Import Toy.
Definition key : AuditKey := mkAuditKey CURRENT_KEY_ID ["k"%char].
Definition vk : VerifyingKey := verifying_key key.

Definition row_of (seq : N) (summary prev : string) : ChainRow :=
  let i := V2 "admin" "" in
  let r := mkChainRow seq "v1" "tx" "rq" "h" "AptUpdate" Low summary None "[]" "t" prev ""
             CHAIN_VERSION_V2 (Some "admin") (Some "") None in
  mkChainRow seq "v1" "tx" "rq" "h" "AptUpdate" Low summary None "[]" "t" prev
    (chain_hash key (row_content r i) prev) CHAIN_VERSION_V2 (Some "admin") (Some "") None.
Definition row1 : ChainRow := row_of 1 "one" "".
Definition row2 : ChainRow := row_of 2 "two" (cr_chain_hash row1).

Definition event1 : EventRow :=
  let c := mkEventContent 1 "v1" ApprovalGranted "tx" "d" "t" (EventV2 "uid:1") in
  mkEventRow 1 "v1" "approval_granted" "tx" "d" "t" "" (event_hash key c "") 2 (Some "uid:1").

Definition row_bound : ChainRow :=
  mkChainRow 3 "v1" "tx" "rq" "h" "AptUpdate" Low "s" None "[]" "t" "" ""
    CHAIN_VERSION_V2 (Some "admin") (Some (er_chain_hash event1)) None.

Definition unknown_row : ChainRow :=
  mkChainRow 0 "v1" "" "" "" "" Low "" None "" "" ""
    (cr_prev_chain_hash (downgraded row1 (V2 "admin" ""))) 9 None None None.
End Sample.

Lemma chain_tamper_evident_witness :
  signature_break Sample.vk (omap row_message [Sample.row1; Sample.row2])
  \/ 1 = length [Sample.row1]
     /\ forall i r, [Sample.row1] !! i = Some r -> exists r0, [Sample.row1; Sample.row2] !! i = Some r0
          /\ row_agrees r r0 /\ (S i < length [Sample.row1] -> cr_chain_hash r = cr_chain_hash r0).
Proof.
  apply (chain_tamper_evident (H0 := Toy.crypto_laws) Sample.vk None (Some "v1")).
  - intros m Hm _. apply list_elem_of_omap in Hm as (r & Hr & Em). by exists r.
  - repeat constructor; vm_compute; set_solver.
  - vm_compute. reflexivity.
  - vm_compute. reflexivity.
Defined.

Lemma event_chain_tamper_evident_witness :
  signature_break Sample.vk (omap event_row_message [Sample.event1])
  \/ 1 = length [Sample.event1]
     /\ forall i r, [Sample.event1] !! i = Some r -> exists r0, [Sample.event1] !! i = Some r0
          /\ event_agrees r r0 /\ (S i < length [Sample.event1] -> er_chain_hash r = er_chain_hash r0).
Proof.
  apply (event_chain_tamper_evident (H0 := Toy.crypto_laws) Sample.vk None (Some "v1")).
  - intros m Hm _. apply list_elem_of_omap in Hm as (r & Hr & Em). by exists r.
  - repeat constructor; vm_compute; set_solver.
  - vm_compute. reflexivity.
  - vm_compute. reflexivity.
Defined.

Lemma binding_keeps_committed_events_witness : 0 < length [Sample.event1].
Proof.
  apply (binding_keeps_committed_events [Sample.row_bound] [Sample.event1] [Sample.event1] 1
    Sample.row_bound (er_chain_hash Sample.event1) 0 Sample.event1).
  - vm_compute. reflexivity.
  - left.
  - reflexivity.
  - vm_compute. discriminate.
  - repeat constructor. apply not_elem_of_nil.
  - reflexivity.
  - reflexivity.
  - intros i r Hr. by exists r.
Defined.

Lemma checkpoints_anchor_witness :
  let cp := sign_checkpoint (H := Toy.crypto) Sample.key 2 (cr_chain_hash Sample.row2) "t" in
  verify_checkpoints (H := Toy.crypto) (Toy.encode (replicate 32 "k"%char)) [Sample.row1] []
    = CpConsistent 0.
Proof.
  intros cp.
  apply (checkpoints_anchor (H := Toy.crypto) (Toy.encode (replicate 32 "k"%char))
    (replicate 32 "k"%char) [Sample.row1] [] 0).
  - vm_compute. reflexivity.
  - repeat constructor.
  - split; [reflexivity|constructor].
Defined.

Lemma downgrade_hides_behind_unknown_witness :
  outcome_to_exit_code (verify_rows (H := Toy.crypto) Sample.vk (Some "v1")
    [Sample.unknown_row; downgraded Sample.row1 (V2 "admin" "")]) = 2%Z.
Proof.
  apply (downgrade_hides_behind_unknown (H0 := Toy.crypto_laws) Sample.vk (Some "v1") Sample.row1
    (V2 "admin" "") Sample.unknown_row).
  - reflexivity.
  - vm_compute. reflexivity.
  - reflexivity.
  - vm_compute. reflexivity.
  - reflexivity.
Defined.
