(* ===== verification/Anchor.v ===== *)
(** * Anchoring the audit chain

    crates/sysknife-daemon/src/checkpoint_sink.rs: signed checkpoints of the
    chain's tip are appended to an independent store and read back. The store is
    an interface ([CheckpointSink], with the laws of an append-only one in
    [AppendOnly]); the PostgreSQL implementation is a server's behaviour, and the
    in-memory one is an instance here. *)

From Stdlib Require Import Ascii String NArith ZArith Lia.
From stdpp Require Import base list sets strings.
From S2P Require Import Prelude Json Types Signing AuditChain.

#[export] Instance Checkpoint_eq_dec : EqDecision Checkpoint.
Proof. solve_decision. Defined.

(** ** The sink *)

Inductive CheckpointSinkError : Type :=
| Connect (e : string)
| Query (e : string).

Class CheckpointSink (S : Type) : Type := {
  append : Checkpoint -> S -> result CheckpointSinkError () * S;
  load_all : S -> result CheckpointSinkError (list Checkpoint) }.

(** What an implementation promises: an append adds at most its checkpoint and
    removes nothing, and a load that succeeds shows everything stored. *)
Class AppendOnly (S : Type) `{CheckpointSink S} : Type := {
  stored : S -> list Checkpoint;
  append_keeps : forall c s x, x ∈ stored s -> x ∈ stored (append c s).2;
  append_adds : forall c s x, x ∈ stored (append c s).2 -> x ∈ stored s \/ x = c;
  append_stores : forall c s, (append c s).1 = Ok tt -> c ∈ stored (append c s).2;
  load_all_shows : forall s l x, load_all s = Ok l -> (x ∈ l <-> x ∈ stored s) }.

(** *** [InMemoryCheckpointSink] *)

(** [out.sort_by_key(|c| c.seq)], a stable sort. *)
Fixpoint insert_by_seq (c : Checkpoint) (l : list Checkpoint) : list Checkpoint :=
  match l with
  | [] => [c]
  | d :: l' => if (cp_seq c <=? cp_seq d)%N then c :: l else d :: insert_by_seq c l'
  end.
Definition sort_by_seq (l : list Checkpoint) : list Checkpoint := fold_right insert_by_seq [] l.

#[export] Instance InMemoryCheckpointSink : CheckpointSink (list Checkpoint) := {|
  append c s := (Ok tt, s ++ [c]);
  load_all s := Ok (sort_by_seq s) |}.

Lemma insert_by_seq_elem c l x : x ∈ insert_by_seq c l <-> x = c \/ x ∈ l.
Proof.
  induction l as [|d l IH]; cbn [insert_by_seq]; [set_solver|].
  case_match; rewrite !elem_of_cons; [done|]. rewrite IH. tauto.
Qed.
Lemma sort_by_seq_elem l x : x ∈ sort_by_seq l <-> x ∈ l.
Proof.
  induction l as [|c l IH]; [done|]. cbn [sort_by_seq fold_right]. rewrite insert_by_seq_elem, IH.
  by rewrite elem_of_cons.
Qed.

#[export] Instance in_memory_append_only : AppendOnly (list Checkpoint).
Proof.
  refine {| stored := fun s : list Checkpoint => s |}; cbn.
  - set_solver.
  - set_solver.
  - set_solver.
  - intros s l x [= <-]. apply sort_by_seq_elem.
Defined.

(** ** Anchoring *)

Inductive AnchorOutcome : Type :=
| Anchored (seq : N) (checkpoints_checked : nat)
| ChainEmpty
| ChainBroken (outcome : VerifyOutcome)
| ReadBackMissing
| Inconsistent (outcome : CheckpointOutcome).

(** What the periodic task writes to the log. *)
Inductive AnchorLog : Type :=
| LogReadFailed (e : string)
| LogAnchored (seq : N) (checkpoints_checked : nat)
| LogRefused (outcome : VerifyOutcome)
| LogReadBackMissing
| LogInconsistent (outcome : CheckpointOutcome)
| LogSinkError (e : CheckpointSinkError).

Section Anchor.
Context `{Crypto} {S : Type} `{CheckpointSink S}.

Definition anchor_once (key : AuditKey) (rows : list ChainRow) (created_at : string) (sink : S)
    : result CheckpointSinkError AnchorOutcome * S :=
  match last rows with
  | None => (Ok ChainEmpty, sink)
  | Some tip =>
      match verify_chain key rows with
      | Intact _ =>
          let checkpoint := sign_checkpoint key (cr_seq tip) (cr_chain_hash tip) created_at in
          let '(appended, sink) := append checkpoint sink in
          match appended with
          | Err e => (Err e, sink)
          | Ok _ =>
              match load_all sink with
              | Err e => (Err e, sink)
              | Ok anchored =>
                  if negb (bool_decide (checkpoint ∈ anchored)) then (Ok ReadBackMissing, sink)
                  else
                    (Ok match verify_checkpoints (verifying_key_hex key) rows anchored with
                        | CpConsistent checked => Anchored (cp_seq checkpoint) checked
                        | other => Inconsistent other
                        end, sink)
              end
          end
      | broken => (Ok (ChainBroken broken), sink)
      end
  end.

Definition NO_CHECKPOINTS : string :=
  "a checkpoint anchor is configured but holds no checkpoints, so a "
  ++ "deleted tail would still go unnoticed; run `sysknife audit checkpoint` "
  ++ "(periodically — the interval is the window an attacker can rewrite)".

Definition verify_against_anchor (verifying_key_hex : string) (rows : list ChainRow) (sink : S)
    : result CheckpointSinkError CheckpointOutcome :=
  match load_all sink with
  | Err e => Err e
  | Ok anchored =>
      if bool_decide (anchored = []) then Ok (CpCannotVerify [Lit NO_CHECKPOINTS])
      else Ok (verify_checkpoints verifying_key_hex rows anchored)
  end.

(** One round of the periodic task, on the rows the store answers. *)
Definition anchor_round (key : AuditKey) (fetched : result string (list ChainRow))
    (created_at : string) (sink : S) : option AnchorLog * S :=
  match fetched with
  | Err e => (Some (LogReadFailed e), sink)
  | Ok rows =>
      let '(outcome, sink) := anchor_once key rows created_at sink in
      (match outcome with
       | Ok (Anchored seq checked) => Some (LogAnchored seq checked)
       | Ok ChainEmpty => None
       | Ok (ChainBroken o) => Some (LogRefused o)
       | Ok ReadBackMissing => Some LogReadBackMissing
       | Ok (Inconsistent o) => Some (LogInconsistent o)
       | Err e => Some (LogSinkError e)
       end, sink)
  end.

(** The rounds of a daemon's life: the rows and the time of each. *)
Fixpoint periodic_anchor (key : AuditKey) (rounds : list (result string (list ChainRow) * string))
    (sink : S) : list (option AnchorLog) * S :=
  match rounds with
  | [] => ([], sink)
  | (fetched, created_at) :: rest =>
      let '(entry, sink) := anchor_round key fetched created_at sink in
      let '(entries, sink) := periodic_anchor key rest sink in
      (entry :: entries, sink)
  end.
End Anchor.

(** ** What an anchor is worth *)

Section Facts.
Context `{Crypto} {S : Type} `{AppendOnly S}.

(** No row of the table has the anchored hash. *)
Definition erased (c : Checkpoint) (rows : list ChainRow) : Prop :=
  Forall (fun r => cr_chain_hash r <> cp_chain_tip c) rows.

(** A consistent verdict counted every checkpoint, and found its signature good
    and a row for its tip. *)
Lemma consistent_count vk rows k cps n :
  checkpoints_from vk rows k cps = CpConsistent n -> n = k + length cps.
Proof.
  revert k. induction cps as [|d cps IH]; intros k; cbn [checkpoints_from length].
  { intros [= <-]. lia. }
  intros Hc. repeat (case_match; try done). apply IH in Hc. lia.
Qed.

Lemma consistent_rows vk rows k cps n c :
  checkpoints_from vk rows k cps = CpConsistent n -> c ∈ cps ->
  signature_ok vk (checkpoint_message (cp_seq c) (cp_chain_tip c) (cp_created_at c))
    (cp_signature c) = true
  /\ exists r, r ∈ rows /\ cr_chain_hash r = cp_chain_tip c.
Proof.
  revert k. induction cps as [|d cps IH]; intros k; cbn [checkpoints_from].
  { intros _ Hc. by apply not_elem_of_nil in Hc. }
  destruct (signature_ok vk (checkpoint_message (cp_seq d) _ _) _) eqn:Es; cbn [negb]; [|done].
  destruct (binary_search_by_key _ _ ≫= _) as [r|] eqn:Er; [|done].
  destruct (String.eqb_spec (cr_chain_hash r) (cp_chain_tip d)) as [Eh|]; [|done].
  intros Hc [->|Hin]%elem_of_cons; [|by apply (IH _ Hc)].
  split; [done|]. exists r. split; [|done]. apply bind_Some in Er as (i & _ & Hi).
  by apply list_elem_of_lookup_2 in Hi.
Qed.

Lemma verify_checkpoints_consistent hex rows cps n :
  verify_checkpoints hex rows cps = CpConsistent n ->
  exists vk, parse_verifying_key hex = Some vk /\ checkpoints_from vk rows 0 cps = CpConsistent n.
Proof. unfold verify_checkpoints. destruct (parse_verifying_key hex) as [vk|]; [by exists vk|done]. Qed.

Lemma erased_inconsistent hex rows cps n c :
  erased c rows -> c ∈ cps -> verify_checkpoints hex rows cps <> CpConsistent n.
Proof.
  intros He Hc Hv. apply verify_checkpoints_consistent in Hv as (vk & _ & Hv).
  destruct (consistent_rows _ _ _ _ _ _ Hv Hc) as (_ & r & Hr & Hh).
  unfold erased in He. rewrite Forall_forall in He. by apply (He r Hr).
Qed.

Lemma anchor_once_keeps key rows t (s : S) c :
  c ∈ stored s -> c ∈ stored (anchor_once key rows t s).2.
Proof.
  intros Hc. unfold anchor_once. destruct (last rows) as [tip|]; [|done].
  destruct (verify_chain key rows); [|done..].
  pose proof (append_keeps (sign_checkpoint key (cr_seq tip) (cr_chain_hash tip) t) s c Hc) as Hk.
  destruct (append _ s) as [[u|e] s']; [|done]. cbn in Hk.
  destruct (load_all s') as [l|e]; [|done]. by case_bool_decide.
Qed.

(** What a round logs on a table that has lost an anchored row but not all of them: the
    verdict on a chain that is broken, else the disagreement with the anchor, unless the
    sink failed. *)
Definition alarm key rows (entry : AnchorLog) : Prop :=
  match entry with
  | LogRefused o => o = verify_chain key rows /\ forall n, o <> Intact n
  | LogInconsistent o => (exists n, verify_chain key rows = Intact n) /\ forall n, o <> CpConsistent n
  | LogSinkError _ => exists n, verify_chain key rows = Intact n
  | _ => False
  end.

Lemma erased_alarms key rows t (s : S) c :
  c ∈ stored s -> erased c rows -> rows <> [] ->
  exists entry, (anchor_round key (Ok rows) t s).1 = Some entry /\ alarm key rows entry.
Proof.
  intros Hc He Hne. unfold anchor_round, anchor_once. destruct (last rows) as [tip|] eqn:El; [|by apply last_None in El].
  destruct (verify_chain key rows) as [n|k seq tx ex ac|why] eqn:Ev.
  2,3: eexists; (split; [reflexivity|]); cbn; rewrite Ev; by split.
  set (cp := sign_checkpoint _ _ _ _). pose proof (append_keeps cp s c Hc) as Hk. pose proof (append_stores cp s) as Hs.
  destruct (append cp s) as [[[]|e] s1]; [|eexists; split; [reflexivity|]; cbn; eauto]. cbn in Hk, Hs. specialize (Hs eq_refl).
  destruct (load_all s1) as [l|e] eqn:Hl; [|eexists; split; [reflexivity|]; cbn; eauto].
  apply (load_all_shows _ _ cp Hl) in Hs. apply (load_all_shows _ _ c Hl) in Hk.
  rewrite bool_decide_eq_true_2 by done. cbn [negb].
  destruct (verify_checkpoints (verifying_key_hex key) rows l) as [m| | | |] eqn:Ec.
  { by apply (erased_inconsistent _ _ _ m c He Hk) in Ec. }
  all: eexists; (split; [reflexivity|]); cbn; by split; [exists n|].
Qed.

Lemma anchor_round_keeps key fetched t (s : S) c :
  c ∈ stored s -> c ∈ stored (anchor_round key fetched t s).2.
Proof.
  intros Hc. unfold anchor_round. destruct fetched as [rows|e]; [|done].
  pose proof (anchor_once_keeps key rows t s c Hc) as Hk.
  by destruct (anchor_once key rows t s) as [o s'].
Qed.
End Facts.

(** ** The properties *)

(** An anchor that advanced is worth what it says. When a round reports
    Anchored, the local chain verified, the new checkpoint is the signed tip and
    is stored, and every checkpoint stored anywhere in the sink carries a good
    signature of the daemon's key and still has its tip in the local chain. *)
Theorem anchored_covers `{Crypto} {S : Type} `{AppendOnly S} key rows t (s s' : S) seq n :
  anchor_once key rows t s = (Ok (Anchored seq n), s') ->
  (exists tip k, last rows = Some tip /\ seq = cr_seq tip /\ verify_chain key rows = Intact k
     /\ sign_checkpoint key seq (cr_chain_hash tip) t ∈ stored s')
  /\ forall c, c ∈ stored s' ->
      (exists vk, parse_verifying_key (verifying_key_hex key) = Some vk
         /\ signature_ok vk (checkpoint_message (cp_seq c) (cp_chain_tip c) (cp_created_at c))
              (cp_signature c) = true)
      /\ exists r, r ∈ rows /\ cr_chain_hash r = cp_chain_tip c.
Proof.
  unfold anchor_once. destruct (last rows) as [tip|] eqn:Et; [|done].
  destruct (verify_chain key rows) as [k| |] eqn:Ek; [|done..].
  set (cp := sign_checkpoint _ _ _ _). pose proof (append_stores cp s) as Hs.
  destruct (append cp s) as [[[]|e] s1]; [|done]. cbn in Hs. specialize (Hs eq_refl).
  destruct (load_all s1) as [l|e] eqn:El; [|done]. case_bool_decide as Hin; [|done]. cbn.
  destruct (verify_checkpoints _ rows l) as [m| | | |] eqn:Ev; try done. intros [= <- <- <-].
  split; [by exists tip, k|]. intros c Hc. apply (load_all_shows _ _ c El) in Hc.
  apply verify_checkpoints_consistent in Ev as (vk & Hvk & Ev).
  destruct (consistent_rows _ _ _ _ _ _ Ev Hc) as [Hsig Hr]. split; [by exists vk|done].
Qed.

(** C38: a table that loses anchored history is reported, unless it loses all of it. Once
    a checkpoint is in the sink, every later round of the periodic task that reads a table
    with rows but not the checkpoint's logs an alarm: that the chain does not verify, or
    that it disagrees with the anchor, or that the sink failed; none reports Anchored,
    however many rounds pass and whatever else they append. An unreadable table is
    reported too. A table without a row is not: its round logs nothing at all. A
    verification against the anchor is never consistent on rows that miss the
    checkpoint's, and that holds of the empty table too. *)
Theorem erased_history_never_anchors `{Crypto} {S : Type} `{AppendOnly S} key c rounds (s : S) :
  c ∈ stored s ->
  (forall i fetched t, rounds !! i = Some (fetched, t) ->
     exists entry, (periodic_anchor key rounds s).1 !! i = Some entry
       /\ match fetched with
          | Err e => entry = Some (LogReadFailed e)
          | Ok [] => entry = None
          | Ok rows => erased c rows -> exists a, entry = Some a /\ alarm key rows a
          end)
  /\ (forall hex rows n, erased c rows ->
        verify_against_anchor hex rows (periodic_anchor key rounds s).2 <> Ok (CpConsistent n)).
Proof.
  revert s. induction rounds as [|[fetched0 t0] rounds IH]; intros s Hc; cbn [periodic_anchor].
  - split; [done|]. intros hex rows n He. unfold verify_against_anchor. cbn.
    destruct (load_all s) as [l|e] eqn:El; [|done].
    apply (load_all_shows _ _ c El) in Hc. case_bool_decide; [done|]. intros [= Hv].
    by apply (erased_inconsistent _ _ _ _ _ He Hc) in Hv.
  - pose proof (anchor_round_keeps key fetched0 t0 s c Hc) as Hk.
    destruct (anchor_round key fetched0 t0 s) as [entry s1] eqn:E1. cbn in Hk.
    destruct (IH s1 Hk) as [IHl IHv]. destruct (periodic_anchor key rounds s1) as [entries s2]. cbn in *.
    split; [|done]. intros [|i] fetched t Hi; [|by apply (IHl i fetched t)].
    injection Hi as -> ->. exists entry. split; [done|]. destruct fetched as [[|r rows]|e].
    + by injection E1 as <- _.
    + intros He. pose proof (erased_alarms key (r :: rows) t s c Hc He) as Ha. rewrite E1 in Ha. by apply Ha.
    + by injection E1 as <- _.
Qed.

(** A table with no rows left is not compared with the anchor: the round reports
    that there is nothing to anchor, and the periodic task logs nothing, although a
    verification against the anchor would not be consistent. *)
Lemma wiped_chain_is_silent `{Crypto} {S : Type} `{CheckpointSink S} key t (s : S) :
  anchor_once key [] t s = (Ok ChainEmpty, s) /\ anchor_round key (Ok []) t s = (None, s).
Proof. done. Qed.

(** ** A chain of two rows *)

Module AnchorSample.
#[local] Existing Instance Toy.crypto.
#[local] Existing Instance Toy.crypto_laws.

Definition key : AuditKey := mkAuditKey CURRENT_KEY_ID (replicate 32 "k"%char).
Definition row_of (seq : N) (prev : string) : ChainRow :=
  let i := V2 "admin" "" in
  let unsigned h := mkChainRow seq "v1" "tx" "rq" "h" "AptUpdate" Low "s" None "[]" "t" prev h
             CHAIN_VERSION_V2 (Some "admin") (Some "") None in
  unsigned (chain_hash key (row_content (unsigned "") i) prev).
Definition row1 : ChainRow := row_of 1 "".
Definition row2 : ChainRow := row_of 2 (cr_chain_hash row1).
Definition rows : list ChainRow := [row1; row2].
Definition first : result CheckpointSinkError AnchorOutcome * list Checkpoint :=
  anchor_once key rows "t1" [].
Definition anchored_tip : Checkpoint := sign_checkpoint key 2 (cr_chain_hash row2) "t1".

(** The second row deleted after it was anchored. *)
Lemma truncation_is_seen :
  first = (Ok (Anchored 2 1), [anchored_tip])
  /\ (anchor_once key [row1] "t2" first.2).1
     = Ok (Inconsistent (Truncated 2 1)).
Proof. vm_compute. done. Qed.

Lemma anchored_covers_witness :
  exists tip k, last rows = Some tip /\ 2%N = cr_seq tip /\ verify_chain key rows = Intact k
     /\ sign_checkpoint key 2 (cr_chain_hash tip) "t1" ∈ stored first.2.
Proof.
  apply (anchored_covers key rows "t1" [] first.2 2 1). vm_compute. reflexivity.
Defined.

Lemma erased_history_never_anchors_witness :
  (exists a, (periodic_anchor key [(Ok rows, "t2"); (Ok [row1], "t3")] first.2).1 !! 1 = Some (Some a) /\ alarm key [row1] a)
  /\ verify_against_anchor (verifying_key_hex key) []
       (periodic_anchor key [(Ok rows, "t2"); (Ok [row1], "t3")] first.2).2 <> Ok (CpConsistent 1).
Proof.
  destruct (erased_history_never_anchors key anchored_tip [(Ok rows, "t2"); (Ok [row1], "t3")] first.2) as [Hl Hv].
  { assert (E : first.2 = [anchored_tip]) by (vm_compute; reflexivity). rewrite E. by left. }
  split; [|apply Hv; constructor].
  destruct (Hl 1 (Ok [row1]) "t3" eq_refl) as (entry & He & Ha).
  destruct Ha as (a & Ea & Ha); [constructor; [vm_compute; discriminate|constructor]|].
  exists a. rewrite <-Ea. by split.
Defined.
End AnchorSample.
