(* ===== verification/Forward.v ===== *)
(** * Forwarding the audit log

    crates/sysknife-daemon/src/audit_forward.rs: the bounded queue between the
    daemon and the forwarder task, the task's socket and back-off, and the
    RFC 5424 frame an event becomes. What a receiver reads out of a frame is
    specified here by the grammar of RFC 5424, section 6. *)

From Stdlib Require Import Ascii String NArith ZArith Lia.
From stdpp Require Import base list strings.
From S2P Require Import Prelude Json Types.

(** ** Frames *)

Record AuditEvent : Type := mkAuditEvent {
  ae_seq : N;
  ae_transaction_id : string;
  ae_action_name : string;
  ae_risk_level : RiskLevel;
  ae_summary : string;
  ae_approval_id : option string;
  ae_created_at : string;
  ae_chain_hash : string;
  ae_key_id : string;
  ae_caller_role : option string;
  ae_caller_principal : option string;
  ae_final_status : option string }.

Definition DQ : ascii := chr 34.
Definition BACKSLASH : ascii := chr 92.
Definition SP : ascii := chr 32.
Definition CLOSE : ascii := "]".

(** The three characters RFC 5424 has escaped, and those that are kept. *)
Definition sd_special (c : ascii) : bool :=
  Ascii.eqb c DQ || Ascii.eqb c BACKSLASH || Ascii.eqb c CLOSE.
Definition printable (c : ascii) : bool := between 32 126 c.

Fixpoint sd_escape (value : string) : string :=
  match value with
  | EmptyString => EmptyString
  | String c rest =>
      if sd_special c then String BACKSLASH (String c (sd_escape rest))
      else if printable c then String c (sd_escape rest)
      else sd_escape rest
  end.

(** The hostname token, from what /proc/sys/kernel/hostname holds. *)
Definition read_hostname (file : option string) : string :=
  let raw := default EmptyString (str_trim <$> file) in
  if is_empty raw || (255 <? String.length raw) || negb (str_all (between 33 126) raw)
  then "-" else raw.

Definition risk_word (r : RiskLevel) : string :=
  match r with Low => "low" | Medium => "medium" | High => "high" end.

(** [ name="value"], the value escaped already. *)
Definition sd_param (p : string * string) : string :=
  (String SP (p.1 ++ "=" ++ String DQ (p.2 ++ String DQ EmptyString)))%string.

Definition sd_values (event : AuditEvent) : list (string * string) :=
  [("seq", dec_of_N (ae_seq event));
   ("tx", sd_escape (ae_transaction_id event));
   ("action", sd_escape (ae_action_name event));
   ("risk", risk_word (ae_risk_level event));
   ("approval", sd_escape (default EmptyString (ae_approval_id event)));
   ("role", sd_escape (default EmptyString (ae_caller_role event)));
   ("principal", sd_escape (default EmptyString (ae_caller_principal event)));
   ("chain_hash", sd_escape (ae_chain_hash event));
   ("key_id", sd_escape (ae_key_id event))]
  ++ match ae_final_status event with
     | Some s => [("terminal_status", sd_escape s)]
     | None => []
     end.

Definition sd_id (enterprise_number : N) : string := ("sysknife@" ++ dec_of_N enterprise_number)%string.

Definition structured_data (event : AuditEvent) (enterprise_number : N) : string :=
  ("[" ++ sd_id enterprise_number ++ String.concat "" (map sd_param (sd_values event))
   ++ String CLOSE EmptyString)%string.

Definition format_rfc5424 (event : AuditEvent) (facility enterprise_number : N)
    (hostname : option string) (procid : N) : string :=
  let pri := (facility * 8 + 5)%N in
  let msg := ("[" ++ ae_action_name event ++ "] " ++ ae_summary event)%string in
  ("<" ++ dec_of_N pri ++ ">1" ++ String SP (ae_created_at event
   ++ String SP (read_hostname hostname ++ String SP ("sysknife-daemon"
   ++ String SP (dec_of_N procid ++ String SP ("AUDIT"
   ++ String SP (structured_data event enterprise_number ++ String SP msg)))))))%string.

(** ** The queue *)

Definition FORWARDER_QUEUE_DEPTH : nat := 4096.
Definition DROP_WARN_THRESHOLD : N := 8.

(** The channel, the drop counter, and how often the operator was warned. *)
Record AuditForwarder : Type := mkForwarder {
  fw_queue : list AuditEvent; fw_closed : bool; fw_drops : N; fw_warnings : nat }.

Definition new_forwarder : AuditForwarder := mkForwarder [] false 0 0.

(** [fetch_add] on an AtomicU64 *)
Definition u64_succ (n : N) : N := N.land (n + 1) U64_MAX.

Definition submit (f : AuditForwarder) (event : AuditEvent) : AuditForwarder :=
  let prev := fw_drops f in
  let drop_with warn := mkForwarder (fw_queue f) (fw_closed f) (u64_succ prev)
                          (if warn : bool then S (fw_warnings f) else fw_warnings f) in
  if fw_closed f then drop_with (prev =? 0)%N
  else if FORWARDER_QUEUE_DEPTH <=? length (fw_queue f)
  then drop_with (prev + 1 =? DROP_WARN_THRESHOLD)%N
  else mkForwarder (fw_queue f ++ [event]) false 0 (fw_warnings f).

(** [rx.recv()], when an event is waiting. *)
Definition recv (f : AuditForwarder) : option (AuditEvent * AuditForwarder) :=
  match fw_queue f with
  | [] => None
  | e :: rest => Some (e, mkForwarder rest (fw_closed f) (fw_drops f) (fw_warnings f))
  end.

(** ** The forwarder task *)

Definition MAX_BACKOFF_SECS : N := 60.
Definition INITIAL_BACKOFF_SECS : N := 1.

Definition next_backoff_secs (prev : N) : N :=
  N.min (N.min (prev * 2) U64_MAX) MAX_BACKOFF_SECS.

(** Whether there is a socket, and the next wait. *)
Record TaskState : Type := mkTask { ts_socket : bool; ts_backoff : N }.

(** What the network answers while one event is handled: whether the datagram
    is handed over, and whether a bind succeeds. *)
Record Network : Type := mkNetwork { send_ok : bool; bind_ok : bool }.

(** One event: whether it was handed over, and the wait in seconds, if any. *)
Definition handle_event (t : TaskState) (net : Network) : bool * option N * TaskState :=
  let sent := ts_socket t && send_ok net in
  if sent then (true, None, t)
  else if bind_ok net then (false, None, mkTask true INITIAL_BACKOFF_SECS)
  else (false, Some (ts_backoff t), mkTask false (next_backoff_secs (ts_backoff t))).

(** The events the task takes off the queue one by one: those sent, in order,
    and the waits. *)
Fixpoint forwarder_task (t : TaskState) (events : list (AuditEvent * Network))
    : list AuditEvent * list N :=
  match events with
  | [] => ([], [])
  | (e, net) :: rest =>
      let '(sent, wait, t) := handle_event t net in
      let '(frames, waits) := forwarder_task t rest in
      (if sent : bool then e :: frames else frames,
       match wait with Some w => w :: waits | None => waits end)
  end.

(** ** What a receiver reads *)

(** A PARAM-VALUE, up to the quote that ends it. A backslash before another
    character is an ordinary one. *)
Fixpoint receive_value (s : string) : option (string * string) :=
  match s with
  | EmptyString => None
  | String c rest =>
      if Ascii.eqb c DQ then Some (EmptyString, rest)
      else if Ascii.eqb c BACKSLASH then
        match rest with
        | String d rest' =>
            if sd_special d then '(v, out) ← receive_value rest'; Some (String d v, out)
            else '(v, out) ← receive_value rest; Some (String c v, out)
        | EmptyString => None
        end
      else '(v, out) ← receive_value rest; Some (String c v, out)
  end.

(** The parameters, up to the bracket that closes the element. *)
Fixpoint receive_params (fuel : nat) (s : string) : option (list (string * string) * string) :=
  match fuel, s with
  | S fuel', String c rest =>
      if Ascii.eqb c CLOSE then Some ([], rest)
      else if negb (Ascii.eqb c SP) then None
      else
        '(name, rest) ← split_once "="%char rest;
        match rest with
        | String q rest =>
            if negb (Ascii.eqb q DQ) then None
            else
              '(value, rest) ← receive_value rest;
              '(params, out) ← receive_params fuel' rest;
              Some ((name, value) :: params, out)
        | EmptyString => None
        end
  | _, _ => None
  end.

Record Received : Type := mkReceived {
  rx_header : list string; rx_id : string; rx_params : list (string * string); rx_msg : string }.

(** The id of an element runs to the first space. *)
Definition receive_element (s : string) : option (string * list (string * string) * string) :=
  match s with
  | String "[" rest =>
      '(id, rest) ← split_once SP rest;
      '(params, out) ← receive_params (String.length s) (String SP rest);
      Some (id, params, out)
  | _ => None
  end.

Definition receive (frame : string) : option Received :=
  '(pri, s) ← split_once SP frame;
  '(timestamp, s) ← split_once SP s;
  '(host, s) ← split_once SP s;
  '(app, s) ← split_once SP s;
  '(procid, s) ← split_once SP s;
  '(msgid, s) ← split_once SP s;
  '(id, params, s) ← receive_element s;
  msg ← strip_prefix (String SP EmptyString) s;
  Some (mkReceived [pri; timestamp; host; app; procid; msgid] id params msg).

(** ** Lemmas *)

Fixpoint keep_printable (s : string) : string :=
  match s with
  | EmptyString => EmptyString
  | String c rest => if printable c then String c (keep_printable rest) else keep_printable rest
  end.

Lemma special_printable c : sd_special c = true -> printable c = true.
Proof.
  unfold sd_special. rewrite !orb_true_iff, !Ascii.eqb_eq. intros [[->| ->]| ->]; done.
Qed.

Lemma receive_escaped v rest :
  receive_value (sd_escape v ++ String DQ rest) = Some (keep_printable v, rest).
Proof.
  induction v as [|c v IH]; [done|]. cbn [sd_escape keep_printable].
  destruct (sd_special c) eqn:Es.
  - rewrite special_printable by done. cbn [String.append receive_value].
    change (Ascii.eqb BACKSLASH DQ) with false. change (Ascii.eqb BACKSLASH BACKSLASH) with true.
    cbv iota. by rewrite Es, IH.
  - destruct (printable c); [|exact IH]. cbn [String.append receive_value].
    unfold sd_special in Es. rewrite !orb_false_iff in Es. destruct Es as [[-> ->] _].
    by rewrite IH.
Qed.

(** Text that needs no escape. *)
Definition plain (c : ascii) : bool := printable c && negb (sd_special c).

Lemma escape_plain v : str_all plain v = true -> sd_escape v = v /\ keep_printable v = v.
Proof.
  induction v as [|c v IH]; [done|]. cbn [str_all sd_escape keep_printable]. unfold plain at 1.
  intros [[Hp Hs%negb_true_iff]%andb_true_iff Hv]%andb_true_iff. rewrite Hp, Hs.
  destruct (IH Hv) as [-> ->]. done.
Qed.

Lemma digits_plain n : str_all plain (dec_of_N n) = true.
Proof.
  eapply str_all_mono; [|apply dec_of_N_digits].
  intros c Hc. destruct c as [[] [] [] [] [] [] [] []]; done.
Qed.

(** The values before they are escaped. *)
Definition sd_raw (event : AuditEvent) : list (string * string) :=
  [("seq", dec_of_N (ae_seq event)); ("tx", ae_transaction_id event);
   ("action", ae_action_name event); ("risk", risk_word (ae_risk_level event));
   ("approval", default EmptyString (ae_approval_id event));
   ("role", default EmptyString (ae_caller_role event));
   ("principal", default EmptyString (ae_caller_principal event));
   ("chain_hash", ae_chain_hash event); ("key_id", ae_key_id event)]
  ++ match ae_final_status event with Some s => [("terminal_status", s)] | None => [] end.

Lemma sd_values_raw event :
  sd_values event = map (fun p => (p.1, sd_escape p.2)) (sd_raw event).
Proof.
  unfold sd_values, sd_raw. rewrite map_app. cbn [map fst snd].
  rewrite (proj1 (escape_plain _ (digits_plain (ae_seq event)))).
  replace (sd_escape (risk_word (ae_risk_level event))) with (risk_word (ae_risk_level event))
    by (by destruct (ae_risk_level event)).
  by destruct (ae_final_status event).
Qed.

Lemma sd_raw_names event : Forall (fun p => str_has "="%char p.1 = false) (sd_raw event).
Proof. unfold sd_raw. destruct (ae_final_status event); repeat constructor. Qed.

Lemma concat_cons s l : String.concat "" (s :: l) = (s ++ String.concat "" l)%string.
Proof. destruct l; cbn; [by rewrite str_app_nil|done]. Qed.

Lemma sd_param_app n v t :
  (sd_param (n, v) ++ t)%string = String SP (n ++ String "=" (String DQ (v ++ String DQ t)))%string.
Proof. unfold sd_param. cbn. rewrite !str_app_assoc. cbn. by rewrite !str_app_assoc. Qed.

Lemma split_once_app c l r :
  str_has c l = false -> split_once c (l ++ String c r)%string = Some (l, r).
Proof. intros Hl. by apply split_once_spec. Qed.

Lemma receive_params_raw l rest fuel :
  Forall (fun p => str_has "="%char p.1 = false) l -> length l < fuel ->
  receive_params fuel
    (String.concat "" (map sd_param (map (fun p => (p.1, sd_escape p.2)) l)) ++ String CLOSE rest)
  = Some (map (fun p => (p.1, keep_printable p.2)) l, rest).
Proof.
  intros Hl. revert fuel. induction Hl as [|[n v] l Hn Hl IH]; intros [|fuel] Hf; cbn in Hf; try lia.
  - done.
  - cbn [map fst snd]. rewrite concat_cons, str_app_assoc, sd_param_app.
    cbn [receive_params]. change (Ascii.eqb SP CLOSE) with false. change (Ascii.eqb SP SP) with true.
    cbn [negb]. rewrite split_once_app by done. cbn [mbind option_bind].
    change (Ascii.eqb DQ DQ) with true. cbn [negb]. rewrite receive_escaped. cbn [mbind option_bind].
    rewrite IH by lia. done.
Qed.

(** ** The properties *)

Lemma digits_no_space n : str_has SP (dec_of_N n) = false.
Proof. by apply (str_all_not_has is_digit), dec_of_N_digits. Qed.

Lemma hostname_no_space file : str_has SP (read_hostname file) = false.
Proof.
  unfold read_hostname. case_match eqn:E; [done|]. rewrite !orb_false_iff, negb_false_iff in E.
  destruct E as [_ E]. by apply (str_all_not_has (between 33 126)).
Qed.

Lemma length_params l : length l <= String.length (String.concat "" (map sd_param l)).
Proof.
  induction l as [|[n v] l IH]; [done|]. cbn [map]. rewrite concat_cons, sd_param_app.
  cbn [String.length length]. rewrite !length_str_app. cbn [String.length].
  rewrite !length_str_app. cbn. lia.
Qed.

Lemma receive_structured event pen rest :
  receive_element (structured_data event pen ++ rest)
  = Some (sd_id pen, map (fun p => (p.1, keep_printable p.2)) (sd_raw event), rest).
Proof.
  unfold structured_data. rewrite sd_values_raw.
  set (ps := map _ (sd_raw event)). assert (Hne : exists p ps', ps = p :: ps') by (do 2 eexists; reflexivity).
  pose proof (length_params ps) as Hlen. cbn [String.append receive_element]. rewrite !str_app_assoc.
  destruct Hne as (p & ps' & Eps). rewrite Eps at 1. cbn [map]. rewrite concat_cons.
  destruct p as [n v]. rewrite !str_app_assoc, sd_param_app. rewrite split_once_app.
  2: { unfold sd_id. apply (str_all_not_has (fun c => negb (Ascii.eqb SP c))); [done|].
       rewrite str_all_app. cbn [str_all andb]. eapply str_all_mono; [|apply dec_of_N_digits].
       intros c Hc. destruct c as [[] [] [] [] [] [] [] []]; done. }
  cbn [mbind option_bind]. rewrite <-sd_param_app, <-(str_app_assoc (sd_param _)), <-concat_cons.
  change (sd_param (n, v) :: map sd_param ps') with (map sd_param ((n, v) :: ps')). rewrite <-Eps.
  change (String CLOSE "" ++ rest)%string with (String CLOSE rest).
  subst ps. rewrite receive_params_raw; [done|apply sd_raw_names|].
  rewrite length_map in Hlen. cbn [String.length]. rewrite !length_str_app. lia.
Qed.

(** No event can forge a field of its frame. A receiver that follows the
    grammar of RFC 5424 reads from the frame of any event exactly the six header
    tokens, the element's id, one parameter for each field of the event, in
    order, with the field's printable ASCII characters as its value, and the
    message; whatever quotes, brackets, backslashes, line breaks or other bytes
    the fields hold. *)
Theorem frame_roundtrip event facility pen hostname procid :
  str_has SP (ae_created_at event) = false ->
  receive (format_rfc5424 event facility pen hostname procid)
  = Some (mkReceived
      [("<" ++ dec_of_N (facility * 8 + 5) ++ ">1")%string; ae_created_at event;
       read_hostname hostname; "sysknife-daemon"; dec_of_N procid; "AUDIT"]
      (sd_id pen) (map (fun p => (p.1, keep_printable p.2)) (sd_raw event))
      ("[" ++ ae_action_name event ++ "] " ++ ae_summary event)%string).
Proof.
  intros Ht. unfold format_rfc5424, receive.
  set (pri := dec_of_N (facility * 8 + 5)).
  rewrite <-(str_app_assoc "<"), <-(str_app_assoc ("<" ++ pri)).
  rewrite split_once_app.
  2: { rewrite str_app_assoc. change (str_has SP (pri ++ ">1")%string = false).
       apply (str_all_not_has (fun c => negb (Ascii.eqb SP c))); [done|].
       rewrite str_all_app. rewrite (str_all_mono is_digit _ pri); [done| |apply dec_of_N_digits].
       intros c Hc. destruct c as [[] [] [] [] [] [] [] []]; done. }
  cbn [mbind option_bind]. rewrite split_once_app by done. cbn [mbind option_bind].
  rewrite split_once_app by apply hostname_no_space. cbn [mbind option_bind].
  rewrite (split_once_app SP "sysknife-daemon") by done. cbn [mbind option_bind].
  rewrite split_once_app by apply digits_no_space. cbn [mbind option_bind].
  rewrite (split_once_app SP "AUDIT") by done. cbn [mbind option_bind].
  rewrite receive_structured. cbn [mbind option_bind]. by rewrite str_app_assoc.
Qed.

(** *** The queue and the task *)

(** What can happen to the forwarder: a submit, and the task taking an event. *)
Inductive fw_step : AuditForwarder -> AuditForwarder -> Prop :=
| fw_submit f e : fw_step f (submit f e)
| fw_recv f e f' : recv f = Some (e, f') -> fw_step f f'
| fw_close f : fw_step f (mkForwarder (fw_queue f) true (fw_drops f) (fw_warnings f)).

Inductive fw_reachable : AuditForwarder -> Prop :=
| fw_start : fw_reachable new_forwarder
| fw_more f f' : fw_reachable f -> fw_step f f' -> fw_reachable f'.

(** The queue stays bounded, and a submit never waits: it answers at once, and
    keeps the event exactly when the task is there and the queue is not full. *)
Lemma queue_bounded f :
  fw_reachable f ->
  length (fw_queue f) <= FORWARDER_QUEUE_DEPTH
  /\ forall e, fw_queue (submit f e)
       = if negb (fw_closed f) && (length (fw_queue f) <? FORWARDER_QUEUE_DEPTH)
         then fw_queue f ++ [e] else fw_queue f.
Proof.
  intros Hr. split.
  - induction Hr as [|f f' Hr IH Hs]; [cbn; lia|]. destruct Hs as [f e|f e f' Hv|f]; [| |done].
    + unfold submit. destruct (fw_closed f); [done|].
      destruct (Nat.leb_spec FORWARDER_QUEUE_DEPTH (length (fw_queue f))); [done|].
      cbn [fw_queue]. rewrite length_app. cbn [length]. lia.
    + unfold recv in Hv. destruct (fw_queue f) as [|d q]; [done|]. injection Hv as <- <-.
      cbn [fw_queue length] in *. lia.
  - intros e. unfold submit. destruct (fw_closed f); [done|]. cbn [negb andb].
    destruct (Nat.leb_spec FORWARDER_QUEUE_DEPTH (length (fw_queue f)));
      destruct (Nat.ltb_spec (length (fw_queue f)) FORWARDER_QUEUE_DEPTH); [lia|done|done|lia].
Qed.

(** The task sends events in the order it took them, each at most once, and
    never waits longer than the cap. *)
Lemma task_in_order events : forall t,
  (INITIAL_BACKOFF_SECS <= ts_backoff t <= MAX_BACKOFF_SECS)%N ->
  sublist (forwarder_task t events).1 (map fst events)
  /\ Forall (fun w => INITIAL_BACKOFF_SECS <= w <= MAX_BACKOFF_SECS)%N (forwarder_task t events).2.
Proof.
  unfold INITIAL_BACKOFF_SECS, MAX_BACKOFF_SECS.
  induction events as [|[e net] events IH]; intros t Ht; cbn [forwarder_task map fst]; [by repeat constructor|].
  unfold handle_event. destruct (ts_socket t && send_ok net); [|destruct (bind_ok net)].
  - destruct (IH t Ht). destruct (forwarder_task t events). by split; [constructor|].
  - destruct (IH (mkTask true INITIAL_BACKOFF_SECS)); [cbn; unfold INITIAL_BACKOFF_SECS; lia|].
    destruct (forwarder_task _ events). by split; [constructor|].
  - destruct (IH (mkTask false (next_backoff_secs (ts_backoff t)))).
    { cbn [ts_backoff]. unfold next_backoff_secs, MAX_BACKOFF_SECS, U64_MAX. lia. }
    destruct (forwarder_task _ events). split; constructor; done.
Qed.

Module ForwardSample.
(** Fields that try to close the element and open one of their own. *)
Definition forged : AuditEvent :=
  mkAuditEvent 7 "t1] [sysknife@1 seq=" "Apt\Update" Low "done"
    (Some (String DQ (" role=" ++ String DQ "admin"))) "2026-04-24T12:00:00Z"
    (String LF "ab") "v1" (Some "dev") None None.

Lemma frame_roundtrip_witness :
  rx_params <$> receive (format_rfc5424 forged 1 32473 (Some "edge node") 42)
  = Some (map (fun p => (p.1, keep_printable p.2)) (sd_raw forged)).
Proof.
  rewrite (frame_roundtrip forged 1 32473 (Some "edge node") 42).
  - reflexivity.
  - reflexivity.
Defined.

(** The waits of an outage, and the event that is lost when it ends. *)
Lemma outage :
  let down := (forged, mkNetwork false false) in
  (forwarder_task (mkTask true 1) [down; down; down; (forged, mkNetwork true true);
                                   (forged, mkNetwork true true)])
  = ([forged], [1; 2; 4]%N).
Proof. vm_compute. done. Qed.
End ForwardSample.
