(* ===== verification/Store.v ===== *)
(** * The transaction store

    crates/sysknife-daemon/src/transactions.rs (the SQLite backend) and the
    backend-independent parts of store.rs. The tables are the state; every
    operation is one write transaction of the database, so it either returns
    with the new tables or fails and leaves them as they were. [update_status]
    reads the status first and writes it in a second step: the two are separate
    definitions, so that other writers can come in between. Status and risk are
    stored as the values their JSON text stands for. *)

From Stdlib Require Import Ascii String NArith ZArith Lia DecimalString DecimalN.
From stdpp Require Import base list sets strings gmap sorting.
From S2P Require Import Prelude Types Jobs Auth Signing AuditChain.

Definition APPROVAL_RECEIPT_TTL_MINUTES : Z := 15.

(** ** What the store takes from its environment

    SQLite's clock and date functions, and serde_json's reading and writing of
    the stored warnings and of a status name. Instants are milliseconds. *)

Class StoreEnv : Type := {
  strftime_now : Z -> string;
  julianday : string -> option Z;
  warnings_to_json : list string -> string;
  warnings_from_json : string -> option (list string);
  state_from_json : string -> option JobState }.

Class StoreEnvLaws `{StoreEnv} : Prop := {
  julianday_now : forall t, julianday (strftime_now t) = Some t;
  warnings_roundtrip : forall w, warnings_from_json (warnings_to_json w) = Some w }.

Definition MINUTE : Z := 60000.
Definition HOUR : Z := 3600000.

(** ** Tables *)

Record TxRow : Type := mkTxRow { tx_row : ChainRow; tx_status : JobState }.

Definition tx_id (t : TxRow) : string := cr_transaction_id (tx_row t).
Definition tx_seq (t : TxRow) : N := cr_seq (tx_row t).

Record Approval : Type := mkApproval {
  ap_receipt_digest : string;
  ap_consumed_at : option Z }.

Record Db : Type := mkDb {
  db_transactions : list TxRow;
  db_previews : gmap string PreviewEnvelope;
  db_approvals : gmap string Approval;
  db_events : list EventRow }.

Definition empty_db : Db := mkDb [] ∅ ∅ [].

Inductive StoreError : Type :=
| SqliteError
| JsonError
| DatabaseInvariant (what : string)
| NotFound (transaction_id : string)
| InvalidTransition (from to : JobState)
| AuditChainMissing (what : string)
| ConcurrentStatusChange (transaction_id : string).

Record NewTransaction : Type := mkNewTransaction {
  nt_request_id : string;
  nt_request_hash : string;
  nt_action_name : string;
  nt_risk_level : RiskLevel;
  nt_summary : string;
  nt_warnings : list string;
  nt_caller_role : CallerRole;
  nt_caller_principal : CallerPrincipal }.

Record InsertedTransaction : Type := mkInserted {
  ins_record : TransactionRecord;
  ins_seq : N;
  ins_chain_hash : string }.

(** ** Reading the tables *)

(** [ORDER BY seq DESC LIMIT 1] *)
Definition newest {A} (seq_of : A -> N) (rows : list A) : option A :=
  fold_left (fun best r => match best with
    | Some b => if (seq_of b <? seq_of r)%N then Some r else best
    | None => Some r
    end) rows None.

(** [ORDER BY seq ASC] *)
Fixpoint insert_by_seq {A} (seq_of : A -> N) (x : A) (l : list A) : list A :=
  match l with
  | [] => [x]
  | y :: l' => if (seq_of x <? seq_of y)%N then x :: l else y :: insert_by_seq seq_of x l'
  end.
Definition order_by_seq {A} (seq_of : A -> N) (rows : list A) : list A :=
  fold_left (fun l x => insert_by_seq seq_of x l) rows [].

Definition find_tx (db : Db) (id : string) : option TxRow :=
  find (fun t => (tx_id t =? id)%string) (db_transactions db).

Definition fetch_chain_rows (db : Db) : list ChainRow :=
  map tx_row (order_by_seq tx_seq (db_transactions db)).
Definition fetch_event_rows (db : Db) : list EventRow := order_by_seq er_seq (db_events db).
Definition fetch_chain_row (db : Db) (id : string) : option ChainRow := tx_row <$> find_tx db id.

Definition get_preview (db : Db) (id : string) : option PreviewEnvelope := db_previews db !! id.

(** [kind LIKE 'status_%']: SQLite's LIKE ignores ASCII case and [_] is one
    character. *)
Definition like_status (kind : string) : bool :=
  starts_with "status" (to_lower kind) && (7 <=? String.length kind).

Definition newest_status_event (db : Db) (id : string) : option string :=
  er_kind <$> newest er_seq
    (List.filter (fun e => (er_transaction_id e =? id)%string && like_status (er_kind e))
       (db_events db)).

Definition approval_consumed (db : Db) (id : string) : bool :=
  existsb (fun e => (er_transaction_id e =? id)%string && (er_kind e =? "approval_consumed")%string)
    (db_events db).

Definition status_evidence (db : Db) : list StatusEvidence :=
  map (fun t => mkEvidence (tx_id t) (tx_status t) (newest_status_event db (tx_id t))
         (approval_consumed db (tx_id t)) false) (db_transactions db).

Definition status_matches_chain (db : Db) : StatusOutcome := status_outcome (status_evidence db).

(** [UPDATE transactions SET status = new WHERE transaction_id = id AND p]: the
    tables and the number of rows changed. *)
Definition set_status (t : TxRow) (s : JobState) : TxRow := mkTxRow (tx_row t) s.

Fixpoint update_where (p : TxRow -> bool) (new : JobState) (rows : list TxRow) : list TxRow * nat :=
  match rows with
  | [] => ([], 0)
  | t :: rows' =>
      let '(rows'', n) := update_where p new rows' in
      if p t then (set_status t new :: rows'', S n) else (t :: rows'', n)
  end.

Definition with_transactions (db : Db) (rows : list TxRow) : Db :=
  mkDb rows (db_previews db) (db_approvals db) (db_events db).
Definition with_approvals (db : Db) (a : gmap string Approval) : Db :=
  mkDb (db_transactions db) (db_previews db) a (db_events db).

Section Store.
Context `{StoreEnv} `{Crypto}.

(** ** Records *)

Definition row_to_record (t : TxRow) : result StoreError TransactionRecord :=
  let r := tx_row t in
  warnings ← ok_or JsonError (warnings_from_json (cr_warnings_json r));
  Ok {| tr_transaction_id := cr_transaction_id r;
        tr_request_id := cr_request_id r;
        tr_request_hash := cr_request_hash r;
        tr_action_name := cr_action_name r;
        tr_risk_level := cr_risk_level r;
        tr_status := tx_status t;
        tr_approval_id := cr_approval_id r;
        tr_summary := cr_summary r;
        tr_warnings := warnings |}.

Definition get (db : Db) (id : string) : result StoreError (option TransactionRecord) :=
  match find_tx db id with
  | Some t => r ← row_to_record t; Ok (Some r)
  | None => Ok None
  end.

(** ** Appending to the chains *)

Definition event_chain_tip (db : Db) : option string := er_chain_hash <$> newest er_seq (db_events db).

Definition next_event_seq (db : Db) : N :=
  (default 0 (er_seq <$> newest er_seq (db_events db)) + 1)%N.

Definition append_event (key : AuditKey) (now : Z) (kind : AuditEventKind)
    (transaction_id receipt_digest : string) (identity : EventIdentity) (db : Db) : Db :=
  let prev_chain_hash := default "" (event_chain_tip db) in
  let seq := next_event_seq db in
  let created_at := strftime_now now in
  let content := mkEventContent seq CURRENT_KEY_ID kind transaction_id receipt_digest created_at
                   identity in
  let row := mkEventRow seq CURRENT_KEY_ID (event_as_str kind) transaction_id receipt_digest
               created_at prev_chain_hash (event_hash key content prev_chain_hash)
               (event_identity_version identity)
               match identity with EventV2 p => Some p | EventLegacyV1 => None end in
  mkDb (db_transactions db) (db_previews db) (db_approvals db) (db_events db ++ [row]).

Definition next_seq_and_prev_hash (db : Db) : N * string :=
  match newest tx_seq (db_transactions db) with
  | Some t => ((tx_seq t + 1)%N, cr_chain_hash (tx_row t))
  | None => (1%N, "")
  end.

(** The primary key: a second row with one id is refused. *)
Definition insert_transaction (key : AuditKey) (now : Z) (transaction_id : string)
    (t : NewTransaction) (db : Db) : result StoreError (InsertedTransaction * Db) :=
  let approval_id := Some (approval_commitment key transaction_id (nt_request_hash t)) in
  let warnings_json := warnings_to_json (nt_warnings t) in
  let '(seq, prev_chain_hash) := next_seq_and_prev_hash db in
  let created_at := strftime_now now in
  let event_tip := default "" (event_chain_tip db) in
  let caller_role := role_as_str (nt_caller_role t) in
  let caller_principal := as_signed_str (nt_caller_principal t) in
  let identity := V4 caller_role event_tip caller_principal in
  let content := mkContent seq CURRENT_KEY_ID transaction_id (nt_request_id t)
    (nt_request_hash t) (nt_action_name t) (nt_risk_level t) (nt_summary t) approval_id
    warnings_json created_at identity in
  let hash := chain_hash key content prev_chain_hash in
  let row := mkChainRow seq CURRENT_KEY_ID transaction_id (nt_request_id t)
    (nt_request_hash t) (nt_action_name t) (nt_risk_level t) (nt_summary t) approval_id
    warnings_json created_at prev_chain_hash hash (identity_version identity)
    (Some caller_role) (Some event_tip) (Some caller_principal) in
  let record := {|
    tr_transaction_id := transaction_id; tr_request_id := nt_request_id t;
    tr_request_hash := nt_request_hash t; tr_action_name := nt_action_name t;
    tr_risk_level := nt_risk_level t; tr_status := Queued; tr_approval_id := approval_id;
    tr_summary := nt_summary t; tr_warnings := nt_warnings t |} in
  if existsb (fun x => (tx_id x =? transaction_id)%string) (db_transactions db)
  then Err SqliteError
  else Ok (mkInserted record seq hash,
           with_transactions db (db_transactions db ++ [mkTxRow row Queued])).

Definition insert_preview (transaction_id : string) (preview : PreviewEnvelope) (db : Db)
    : result StoreError Db :=
  match db_previews db !! transaction_id with
  | Some _ => Err SqliteError
  | None => Ok (mkDb (db_transactions db) (<[transaction_id := preview]> (db_previews db))
                  (db_approvals db) (db_events db))
  end.

(** ** Recording; [uuid] is the fresh identifier. *)

Definition record_with (key : option AuditKey) (now : Z) (uuid : string) (t : NewTransaction)
    (in_tx : InsertedTransaction -> Db -> result StoreError Db) (db : Db)
    : result StoreError (InsertedTransaction * Db) :=
  key ← ok_or (AuditChainMissing "this TransactionStore was opened read-only; cannot record") key;
  '(inserted, db) ← insert_transaction key now uuid t db;
  db ← in_tx inserted db;
  Ok (inserted, db).

Definition record (key : option AuditKey) (now : Z) (uuid : string) (t : NewTransaction) (db : Db)
    : result StoreError (TransactionRecord * Db) :=
  '(inserted, db) ← record_with key now uuid t (fun _ db => Ok db) db;
  Ok (ins_record inserted, db).

Definition record_previewed (key : option AuditKey) (now : Z) (uuid : string)
    (t : NewTransaction) (preview : PreviewEnvelope) (db : Db)
    : result StoreError ((TransactionRecord * PreviewEnvelope) * Db) :=
  '(inserted, db) ← record_with key now uuid t
    (fun inserted db => insert_preview (tr_transaction_id (ins_record inserted)) preview db) db;
  Ok ((ins_record inserted, preview), db).

(** ** Status *)

(** The first half of [update_status]: read the status and check the move. *)
Definition read_transition (db : Db) (id : string) (new_status : JobState)
    : result StoreError JobState :=
  t ← ok_or (NotFound id) (find_tx db id);
  if allowed_transition (tx_status t) new_status then Ok (tx_status t)
  else Err (InvalidTransition (tx_status t) new_status).

(** The second half: compare-and-swap against the status observed, and the
    chained event, in one transaction. *)
Definition cas_status (key : option AuditKey) (now : Z) (id : string)
    (current new_status : JobState) (db : Db) : result StoreError Db :=
  let '(rows, n) := update_where
    (fun t => (tx_id t =? id)%string && bool_decide (tx_status t = current)) new_status
    (db_transactions db) in
  if n =? 0 then Err (ConcurrentStatusChange id)
  else
    key ← ok_or (AuditChainMissing
      "update_status has no signing key, so the outcome could not be chained") key;
    Ok (append_event key now (event_of_state new_status) id "" EventLegacyV1
          (with_transactions db rows)).

Definition update_status (key : option AuditKey) (now : Z) (id : string)
    (new_status : JobState) (db : Db) : result StoreError Db :=
  current ← read_transition db id new_status;
  cas_status key now id current new_status db.

(** ** Approvals *)

(** [julianday(created_at) > julianday('now', '-15 minutes')] *)
Definition fresh (now : Z) (t : TxRow) : bool :=
  match julianday (cr_created_at (tx_row t)) with
  | Some c => (now - APPROVAL_RECEIPT_TTL_MINUTES * MINUTE <? c)%Z
  | None => false
  end.
(** [julianday(created_at) <= julianday('now', '-15 minutes')] *)
Definition stale (now : Z) (t : TxRow) : bool :=
  match julianday (cr_created_at (tx_row t)) with
  | Some c => (c <=? now - APPROVAL_RECEIPT_TTL_MINUTES * MINUTE)%Z
  | None => false
  end.

Definition approve_transaction (key : option AuditKey) (now : Z) (id : string)
    (approver : CallerPrincipal) (db : Db) : result StoreError (option string * Db) :=
  key ← ok_or (AuditChainMissing "this TransactionStore was opened read-only; cannot approve") key;
  rec ← get db id;
  match rec with
  | None => Ok (None, db)
  | Some record =>
      let receipt := approval_receipt key id (tr_request_hash record) in
      let receipt_digest := approval_receipt_digest receipt in
      match tr_approval_id record with
      | None => Err (DatabaseInvariant "no signed approval commitment")
      | Some committed_digest =>
          if negb (receipt_digest =? committed_digest)%string
          then Err (DatabaseInvariant "approval commitment does not match its signed preview")
          else
            match find (fun t => (tx_id t =? id)%string && bool_decide (tx_status t = Queued)
                                 && fresh now t && bool_decide (db_approvals db !! id = None))
                    (db_transactions db) with
            | Some _ =>
                let db := with_approvals db (<[id := mkApproval receipt_digest None]> (db_approvals db)) in
                Ok (Some receipt,
                    append_event key now ApprovalGranted id receipt_digest
                      (EventV2 (as_signed_str approver)) db)
            | None => Ok (None, db)
            end
      end
  end.

Definition revoke_unconsumed_approval_in_tx (key : AuditKey) (now : Z) (id : string)
    (revoker_signed : string) (db : Db) : bool * Db :=
  match db_approvals db !! id with
  | Some (mkApproval digest None) =>
      (true, append_event key now ApprovalRevoked id digest (EventV2 revoker_signed)
               (with_approvals db (delete id (db_approvals db))))
  | _ => (false, db)
  end.

Definition revoke_unconsumed_approval (key : option AuditKey) (now : Z) (id : string)
    (revoker : CallerPrincipal) (db : Db) : result StoreError (bool * Db) :=
  key ← ok_or (AuditChainMissing "this TransactionStore was opened read-only; cannot revoke") key;
  Ok (revoke_unconsumed_approval_in_tx key now id (as_signed_str revoker) db).

Definition claim_approved_for_execution (key : option AuditKey) (now : Z)
    (id receipt_digest : string) (executor : CallerPrincipal) (db : Db)
    : result StoreError (bool * Db) :=
  key ← ok_or (AuditChainMissing "this TransactionStore was opened read-only; cannot claim") key;
  let approved :=
    match db_approvals db !! id with
    | Some (mkApproval digest None) => (digest =? receipt_digest)%string
    | _ => false
    end in
  let '(rows, n) := update_where
    (fun t => (tx_id t =? id)%string && bool_decide (tx_status t = Queued) && fresh now t && approved)
    Running (db_transactions db) in
  if n =? 0 then Ok (false, db)
  else
    let db := with_transactions db rows in
    let db := with_approvals db (alter (fun a =>
      match ap_consumed_at a with
      | None => mkApproval (ap_receipt_digest a) (Some now)
      | Some _ => a
      end) id (db_approvals db)) in
    let db := append_event key now ApprovalConsumed id receipt_digest
                (EventV2 (as_signed_str executor)) db in
    Ok (true, append_event key now StatusRunning id "" EventLegacyV1 db).

(** One still-queued row to Canceled, with its revocation and its event. *)
Definition cancel_in_tx (key : AuditKey) (now : Z) (signed id : string) (db : Db) : nat * Db :=
  let '(rows, n) := update_where
    (fun t => (tx_id t =? id)%string && bool_decide (tx_status t = Queued)) Canceled
    (db_transactions db) in
  if n =? 0 then (0, db)
  else
    let '(_, db) := revoke_unconsumed_approval_in_tx key now id signed (with_transactions db rows) in
    (n, append_event key now StatusCanceled id "" EventLegacyV1 db).

Definition cleanup_stale_queued (key : option AuditKey) (now : Z) (db : Db)
    : result StoreError (nat * Db) :=
  key ← ok_or (AuditChainMissing "this TransactionStore was opened read-only; cannot clean up") key;
  let stale_ids := map tx_id
    (List.filter (fun t => bool_decide (tx_status t = Queued) && stale now t) (db_transactions db)) in
  Ok (fold_left (fun '(canceled, db) id =>
        let '(n, db) := cancel_in_tx key now (as_signed_str Unattributed) id db in
        (canceled + n, db)) stale_ids (0, db)).

Definition cancel_queued (key : option AuditKey) (now : Z) (id : string)
    (canceller : CallerPrincipal) (db : Db) : result StoreError (bool * Db) :=
  key ← ok_or (AuditChainMissing "this TransactionStore was opened read-only; cannot cancel") key;
  let '(n, db) := cancel_in_tx key now (as_signed_str canceller) id db in
  Ok (0 <? n, db).

(** ** History *)

Inductive HistorySince : Type :=
| Hours (hours : Z)
| Cutoff (at_ms : Z).

Definition since_ok (now : Z) (since : option HistorySince) (t : TxRow) : bool :=
  match since, julianday (cr_created_at (tx_row t)) with
  | None, _ => true
  | Some (Hours h), Some c => (now - h * HOUR <? c)%Z
  | Some (Cutoff a), Some c => (a <=? c)%Z
  | Some _, None => false
  end.

(** [build_history_filter] and the query it completes. *)
Definition history_rows (now : Z) (limit : nat) (status_filter action_filter : option string)
    (since : option HistorySince) (db : Db) : result StoreError (list TxRow) :=
  status ← match status_filter with
           | None => Ok None
           | Some s => st ← ok_or JsonError (state_from_json s); Ok (Some st)
           end;
  let keep t :=
    (match status with Some s => bool_decide (tx_status t = s) | None => true end)
    && (match action_filter with
        | Some a => (cr_action_name (tx_row t) =? a)%string
        | None => true
        end)
    && since_ok now since t in
  Ok (take (Nat.min limit 100)
        (rev (order_by_seq tx_seq (List.filter keep (db_transactions db))))).

Definition list_transactions (now : Z) (limit : nat)
    (status_filter action_filter : option string) (since : option HistorySince) (db : Db)
    : result StoreError (list TransactionRecord) :=
  rows ← history_rows now limit status_filter action_filter since db;
  fold_right (fun t acc => r ← row_to_record t; rs ← acc; Ok (r :: rs)) (Ok []) rows.

Record JobHistoryEntry : Type := mkHistory {
  jh_transaction_id : string; jh_action_name : string; jh_risk_level : RiskLevel;
  jh_status : JobState; jh_summary : string; jh_created_at : string }.

Definition list_history (now : Z) (limit : nat)
    (status_filter action_filter : option string) (since : option HistorySince) (db : Db)
    : result StoreError (list JobHistoryEntry) :=
  rows ← history_rows now limit status_filter action_filter since db;
  Ok (map (fun t => mkHistory (tx_id t) (cr_action_name (tx_row t)) (cr_risk_level (tx_row t))
             (tx_status t) (cr_summary (tx_row t)) (cr_created_at (tx_row t))) rows).

(** ** Reconciliation at startup (store.rs)

    [fuel] bounds the number of pages; every full page moves 100 rows out of
    Running, so the number of rows is enough. *)
Fixpoint fail_all (key : option AuditKey) (now : Z) (ids : list string) (db : Db)
    : result StoreError Db :=
  match ids with
  | [] => Ok db
  | id :: ids' => db ← update_status key now id Failed db; fail_all key now ids' db
  end.

Fixpoint reconcile_go (fuel : nat) (key : option AuditKey) (now : Z) (total : nat) (db : Db)
    : option (result StoreError (nat * Db)) :=
  match fuel with
  | O => None
  | S fuel' =>
      match list_transactions now 100 (Some "running") None None db with
      | Err e => Some (Err e)
      | Ok [] => Some (Ok (total, db))
      | Ok running =>
          let batch := length running in
          match fail_all key now (map tr_transaction_id running) db with
          | Err e => Some (Err e)
          | Ok db =>
              let total := total + batch in
              if batch <? 100 then Some (Ok (total, db))
              else reconcile_go fuel' key now total db
          end
      end
  end.

Definition reconcile_interrupted_running (key : option AuditKey) (now : Z) (db : Db)
    : option (result StoreError (nat * Db)) :=
  reconcile_go (S (length (db_transactions db))) key now 0 db.

(** ** Verification of the stored trail *)

Definition verify_audit_chain (key : AuditKey) (db : Db) : VerifyOutcome :=
  verify_chain key (fetch_chain_rows db).
Definition store_verify_event_chain (key : AuditKey) (db : Db) : VerifyOutcome :=
  verify_event_chain key (fetch_event_rows db).
Definition store_verify_event_binding (db : Db) : BindingOutcome :=
  AuditChain.verify_event_binding (fetch_chain_rows db) (fetch_event_rows db).
End Store.

(** ** Schema migrations *)

Definition SQLITE_MIGRATIONS : list (N * string) :=
  [(1%N, "initial_audit_schema"); (2%N, "caller_identity_and_approval_events");
   (3%N, "caller_principal"); (4%N, "event_approver_identity")].

(** [initialize]: [applied] are the rows of schema_migrations; the answer adds
    the steps that were run, in order. *)
Definition initialize (applied : list (N * string)) : result StoreError (list (N * string)) :=
  let current := fold_left (fun m v => N.max m v.1) applied 0%N in
  let latest := match last SQLITE_MIGRATIONS with Some m => m.1 | None => 0%N end in
  if (latest <? current)%N then Err (DatabaseInvariant "sqlite schema version is newer")
  else Ok (applied ++ List.filter (fun m => (current <? m.1)%N) SQLITE_MIGRATIONS).

(** ** Lemmas: the queries *)

Section Queries.
Context {A : Type} (seq_of : A -> N).

(** The rows carry 1, 2, 3, ... in order. *)
Definition counted (l : list A) : Prop := map seq_of l = map N.of_nat (seq 1 (length l)).

Lemma counted_snoc l x :
  counted (l ++ [x]) <-> counted l /\ seq_of x = N.of_nat (S (length l)).
Proof.
  unfold counted. rewrite map_app, length_app. simpl. rewrite Nat.add_1_r, seq_S, map_app. simpl.
  split; [|by intros [-> ->]].
  intros E. apply app_inj_2 in E as [-> E]; [|done]. by simplify_eq.
Qed.

Lemma counted_nil : counted [].
Proof. done. Qed.

Lemma newest_snoc l x :
  newest seq_of (l ++ [x]) =
  match newest seq_of l with
  | Some b => if (seq_of b <? seq_of x)%N then Some x else Some b
  | None => Some x
  end.
Proof. unfold newest. rewrite fold_left_app. simpl. by case_match. Qed.

Lemma newest_elem l b : newest seq_of l = Some b -> b ∈ l.
Proof.
  revert b. induction l as [|x l IH] using rev_ind; intros b; [done|].
  rewrite newest_snoc, elem_of_app, list_elem_of_singleton.
  destruct (newest seq_of l) as [c|]; [case_match|]; naive_solver.
Qed.

Lemma newest_snoc_greater l x :
  (forall y, y ∈ l -> (seq_of y < seq_of x)%N) -> newest seq_of (l ++ [x]) = Some x.
Proof.
  intros Hl. rewrite newest_snoc. destruct (newest seq_of l) as [b|] eqn:E; [|done].
  apply newest_elem in E. by rewrite (proj2 (N.ltb_lt _ _) (Hl b E)).
Qed.

Lemma counted_bound l x : counted l -> x ∈ l -> (1 <= seq_of x <= N.of_nat (length l))%N.
Proof.
  intros Hc Hx. assert (Hin : seq_of x ∈ map seq_of l) by by apply list_elem_of_fmap_2.
  rewrite Hc in Hin. apply list_elem_of_fmap in Hin as (n & -> & Hn).
  apply elem_of_seq in Hn. lia.
Qed.

Lemma counted_newest l : counted l -> newest seq_of l = last l.
Proof.
  induction l as [|x l IH] using rev_ind; [done|]. intros [Hc Hx]%counted_snoc.
  rewrite last_snoc. apply newest_snoc_greater. intros y Hy.
  apply (counted_bound l y Hc) in Hy. lia.
Qed.

Lemma counted_next l : counted l ->
  (default 0 (seq_of <$> newest seq_of l) + 1)%N = N.of_nat (S (length l)).
Proof.
  intros Hc. rewrite (counted_newest l Hc). destruct (rev_case l) as [->|(l' & x & ->)]; [done|].
  rewrite last_snoc. simpl. apply counted_snoc in Hc as [_ ->]. rewrite length_app. simpl. lia.
Qed.

Lemma insert_by_seq_last x l :
  (forall y, y ∈ l -> (seq_of y < seq_of x)%N) -> insert_by_seq seq_of x l = l ++ [x].
Proof.
  induction l as [|y l IH]; [done|]. intros Hl. simpl.
  rewrite (proj2 (N.ltb_ge _ _)) by (specialize (Hl y ltac:(left)); lia).
  rewrite IH; [done|]. intros z Hz. apply Hl. by right.
Qed.

Lemma counted_order l : counted l -> order_by_seq seq_of l = l.
Proof.
  unfold order_by_seq. induction l as [|x l IH] using rev_ind; [done|].
  intros [Hc Hx]%counted_snoc. rewrite fold_left_app. simpl. rewrite IH by done.
  apply insert_by_seq_last. intros y Hy. apply (counted_bound l y Hc) in Hy. lia.
Qed.

Lemma counted_NoDup l : counted l -> NoDup (map seq_of l).
Proof.
  intros ->. apply NoDup_fmap_2; [intros ? ?; lia|apply NoDup_seq].
Qed.
End Queries.

Lemma tip_from_last {R} `{ChainLink R} (l : list R) :
  tip_from "" l = default "" (link_hash <$> last l).
Proof.
  destruct (rev_case l) as [->|(l' & x & ->)]; [done|]. by rewrite tip_from_snoc, last_snoc.
Qed.

Lemma update_where_spec p new rows :
  update_where p new rows =
  (map (fun t => if p t then set_status t new else t) rows, length (List.filter p rows)).
Proof. induction rows as [|t rows IH]; simpl; [done|]. rewrite IH. by destruct (p t). Qed.

Lemma map_set_status_id {B} (f : TxRow -> B) (p : TxRow -> bool) new rows :
  (forall t, f (set_status t new) = f t) ->
  map f (map (fun t => if p t then set_status t new else t) rows) = map f rows.
Proof.
  intros Hf. rewrite map_map. apply map_ext. intros t. by destruct (p t).
Qed.

Lemma find_snoc {A} (p : A -> bool) l x :
  find p (l ++ [x]) = match find p l with Some y => Some y | None => if p x then Some x else None end.
Proof. induction l as [|y l IH]; simpl; [done|]. by destruct (p y). Qed.

Lemma find_tx_Some db id t : find_tx db id = Some t -> t ∈ db_transactions db /\ tx_id t = id.
Proof.
  unfold find_tx. intros H. apply find_some in H as [Hin E]. apply String.eqb_eq in E.
  by rewrite list_elem_of_In.
Qed.

Lemma find_tx_elem db t :
  NoDup (map tx_id (db_transactions db)) -> t ∈ db_transactions db -> find_tx db (tx_id t) = Some t.
Proof.
  unfold find_tx. induction (db_transactions db) as [|x l IH]; simpl; [by intros _ ?%not_elem_of_nil|].
  rewrite NoDup_cons, elem_of_cons. intros [Hx Hnd] [->|Ht].
  - by rewrite String.eqb_refl.
  - destruct (String.eqb_spec (tx_id x) (tx_id t)) as [E|E]; [|by apply IH].
    exfalso. apply Hx. rewrite E. by apply list_elem_of_fmap_2.
Qed.

Lemma find_tx_None db id : find_tx db id = None -> id ∉ map tx_id (db_transactions db).
Proof.
  unfold find_tx. intros H Hin. apply list_elem_of_fmap in Hin as (t & -> & Ht).
  apply list_elem_of_In in Ht. pose proof (find_none _ _ H t Ht) as E.
  simpl in E. by rewrite String.eqb_refl in E.
Qed.

(** ** Steps

    One write transaction of the daemon. [cas_status] is only ever started from
    a row that was read as Running: [update_terminal_status] ends a claimed
    execution and the startup reconciliation ends an orphaned one. *)

Section Steps.
Context `{StoreEnv} `{Crypto}.
Variable key : AuditKey.

Inductive step : Db -> Db -> Prop :=
| step_record now uuid t r db db' :
    record (Some key) now uuid t db = Ok (r, db') -> step db db'
| step_record_previewed now uuid t p r db db' :
    record_previewed (Some key) now uuid t p db = Ok (r, db') -> step db db'
| step_approve now id who r db db' :
    approve_transaction (Some key) now id who db = Ok (r, db') -> step db db'
| step_revoke now id who b db db' :
    revoke_unconsumed_approval (Some key) now id who db = Ok (b, db') -> step db db'
| step_claim now id digest who b db db' :
    claim_approved_for_execution (Some key) now id digest who db = Ok (b, db') -> step db db'
| step_finish now id new db db' :
    allowed_transition Running new = true ->
    cas_status (Some key) now id Running new db = Ok db' -> step db db'
| step_cleanup now n db db' :
    cleanup_stale_queued (Some key) now db = Ok (n, db') -> step db db'
| step_cancel now id who b db db' :
    cancel_queued (Some key) now id who db = Ok (b, db') -> step db db'.

Inductive reachable : Db -> Prop :=
| reachable_empty : reachable empty_db
| reachable_step db db' : reachable db -> step db db' -> reachable db'.

(** ** The chain invariant *)

(** The event tip a row commits to is the hash of a stored event. *)
Definition tip_known (events : list EventRow) (r : ChainRow) : Prop :=
  forall tip, cr_event_tip r = Some tip -> tip <> "" -> tip ∈ map er_chain_hash events.

Record ChainInv (db : Db) : Prop := {
  ci_tx_counted : counted tx_seq (db_transactions db);
  ci_tx_linked : linked "" (map tx_row (db_transactions db));
  ci_tx_signed : Forall (row_signed (verifying_key key) row_message) (map tx_row (db_transactions db));
  ci_ev_counted : counted er_seq (db_events db);
  ci_ev_linked : linked "" (db_events db);
  ci_ev_signed : Forall (row_signed (verifying_key key) event_row_message) (db_events db);
  ci_ids : NoDup (map tx_id (db_transactions db));
  ci_owned : Forall (fun e => er_transaction_id e ∈ map tx_id (db_transactions db)) (db_events db);
  ci_tips : Forall (tip_known (db_events db) ∘ tx_row) (db_transactions db) }.
End Steps.

(** *** Appending an event *)

Lemma event_kind_parse k : parse_event_kind (event_as_str k) = Some k.
Proof. by destruct k. Qed.

Lemma event_kind_like k :
  like_status (event_as_str k) =
  match k with ApprovalGranted | ApprovalConsumed | ApprovalRevoked => false | _ => true end.
Proof. by destruct k. Qed.

Lemma event_kind_consumed k :
  (event_as_str k =? "approval_consumed")%string = bool_decide (k = ApprovalConsumed).
Proof. by destruct k. Qed.

(** A principal that was rendered, or none. *)
Definition identity_ok (i : EventIdentity) : Prop :=
  match i with EventLegacyV1 => True | EventV2 p => is_empty p = false end.

Section Append.
Context `{StoreEnv} `{CryptoLaws}.
Variable key : AuditKey.

Lemma append_event_row now kind id digest identity db :
  exists row, db_events (append_event key now kind id digest identity db) = db_events db ++ [row]
    /\ er_seq row = next_event_seq db /\ er_kind row = event_as_str kind
    /\ er_transaction_id row = id /\ er_receipt_digest row = digest
    /\ er_prev_chain_hash row = default "" (event_chain_tip db)
    /\ (identity_ok identity -> row_signed (verifying_key key) event_row_message row).
Proof.
  eexists. split; [reflexivity|]. split_and!; try done. intros Hi.
  unfold row_signed, event_row_message. cbn [er_kind er_chain_version er_prev_chain_hash link_hash
    event_row_link er_chain_hash]. rewrite event_kind_parse.
  assert (E : event_row_identity (mkEventRow (next_event_seq db) CURRENT_KEY_ID (event_as_str kind) id
    digest (strftime_now now) (default "" (event_chain_tip db))
    (event_hash key (mkEventContent (next_event_seq db) CURRENT_KEY_ID kind id digest
      (strftime_now now) identity) (default "" (event_chain_tip db)))
    (event_identity_version identity)
    match identity with EventV2 p => Some p | EventLegacyV1 => None end) = Ok identity).
  { unfold event_row_identity. destruct identity as [|p]; simpl in *; [done|]. by rewrite Hi. }
  rewrite E. eexists. split; [reflexivity|]. unfold event_hash, verifying_key.
  apply signature_ok_sign.
Qed.

Lemma append_event_chain now kind id digest identity db :
  ChainInv key db -> identity_ok identity -> id ∈ map tx_id (db_transactions db) ->
  ChainInv key (append_event key now kind id digest identity db).
Proof.
  intros [I1 I2 I3 I4 I5 I6 I7 I8 I9] Hi Hid.
  destruct (append_event_row now kind id digest identity db)
    as (row & Ee & Es & _ & Et & _ & Ep & Hs).
  split; try done.
  - rewrite Ee, counted_snoc. split; [done|]. rewrite Es. unfold next_event_seq.
    by apply counted_next.
  - rewrite Ee, linked_snoc. split; [done|]. simpl. rewrite Ep, tip_from_last.
    unfold event_chain_tip. by rewrite counted_newest.
  - rewrite Ee, Forall_app, Forall_singleton. auto.
  - rewrite Ee, Forall_app, Forall_singleton, Et. done.
  - rewrite Ee. eapply Forall_impl; [exact I9|]. intros t Ht tip E Hne.
    rewrite map_app, elem_of_app. left. by apply Ht.
Qed.

Lemma newest_status_append now kind id digest identity db id' :
  ChainInv key db ->
  newest_status_event (append_event key now kind id digest identity db) id' =
  if (id =? id')%string && like_status (event_as_str kind) then Some (event_as_str kind)
  else newest_status_event db id'.
Proof.
  intros HI. destruct (append_event_row now kind id digest identity db)
    as (row & Ee & Es & Ek & Et & _).
  unfold newest_status_event. rewrite Ee, List.filter_app. cbn [List.filter]. rewrite Et, Ek.
  case_match; [|by rewrite app_nil_r].
  rewrite newest_snoc_greater; simpl; [by rewrite Ek|].
  intros y Hy. apply list_elem_of_In, filter_In in Hy as [Hy _]. apply list_elem_of_In in Hy.
  apply (counted_bound er_seq _ _ (ci_ev_counted _ _ HI)) in Hy.
  rewrite Es. unfold next_event_seq. rewrite (counted_next er_seq _ (ci_ev_counted _ _ HI)). lia.
Qed.

Lemma approval_consumed_append now kind id digest identity db id' :
  approval_consumed (append_event key now kind id digest identity db) id' =
  approval_consumed db id' || ((id =? id')%string && bool_decide (kind = ApprovalConsumed)).
Proof.
  destruct (append_event_row now kind id digest identity db) as (row & Ee & _ & Ek & Et & _).
  unfold approval_consumed. rewrite Ee, existsb_app. cbn [existsb].
  by rewrite Et, Ek, event_kind_consumed, orb_false_r.
Qed.

Lemma append_event_tables now kind id digest identity db :
  db_transactions (append_event key now kind id digest identity db) = db_transactions db
  /\ db_approvals (append_event key now kind id digest identity db) = db_approvals db
  /\ db_previews (append_event key now kind id digest identity db) = db_previews db.
Proof. done. Qed.

Lemma ChainInv_rows db rows p a :
  ChainInv key db -> map tx_row rows = map tx_row (db_transactions db) ->
  ChainInv key (mkDb rows p a (db_events db)).
Proof.
  intros [I1 I2 I3 I4 I5 I6 I7 I8 I9] E.
  assert (Ef : forall {B} (f : ChainRow -> B),
    map (fun t => f (tx_row t)) rows = map (fun t => f (tx_row t)) (db_transactions db)).
  { intros B f. rewrite <-(map_map tx_row f), <-(map_map tx_row f (db_transactions db)). by rewrite E. }
  assert (El : length rows = length (db_transactions db))
    by (rewrite <-(length_map tx_row), E; apply length_map).
  split; cbn [db_transactions db_events]; try done.
  - unfold counted, tx_seq in *. by rewrite El, (Ef _ cr_seq).
  - by rewrite E.
  - by rewrite E.
  - unfold tx_id in *. by rewrite (Ef _ cr_transaction_id).
  - unfold tx_id in *. by rewrite (Ef _ cr_transaction_id).
  - apply (Forall_fmap tx_row). apply (Forall_fmap tx_row) in I9.
    change (tx_row <$> rows) with (map tx_row rows). by rewrite E.
Qed.
End Append.

(** ** The lifecycle of one transaction *)

(** Everything the tables say about one id: its status, its newest status
    event, how often its approval was consumed, its approval. *)
Definition consumed_count (db : Db) (id : string) : nat :=
  length (List.filter (fun e =>
    (er_transaction_id e =? id)%string && (er_kind e =? "approval_consumed")%string) (db_events db)).

Record View : Type := mkView {
  vw_status : option JobState;
  vw_newest : option string;
  vw_consumed : nat;
  vw_approval : option Approval }.

Definition view (db : Db) (id : string) : View :=
  mkView (tx_status <$> find_tx db id) (newest_status_event db id) (consumed_count db id)
    (db_approvals db !! id).

Definition spent (a : option Approval) : Prop := exists d x, a = Some (mkApproval d (Some x)).

(** What a reachable view looks like. *)
Definition life_ok (v : View) : Prop :=
  match vw_status v with
  | None => vw_newest v = None /\ vw_consumed v = 0 /\ vw_approval v = None
  | Some Queued => vw_newest v = None /\ vw_consumed v = 0
      /\ (vw_approval v = None \/ exists d, vw_approval v = Some (mkApproval d None))
  | Some Canceled => vw_newest v = Some (event_as_str StatusCanceled) /\
      (vw_consumed v = 0 /\ vw_approval v = None \/ vw_consumed v = 1 /\ spent (vw_approval v))
  | Some s => vw_newest v = Some (event_as_str (event_of_state s))
      /\ vw_consumed v = 1 /\ spent (vw_approval v)
  end.

Definition LifeInv (db : Db) : Prop := forall id, life_ok (view db id).

(** The abstract lifecycle the store implements. *)
Inductive AApproval : Type := NoApproval | Granted (digest : string) | Spent (digest : string).

Definition abs_approval (a : option Approval) : AApproval :=
  match a with
  | None => NoApproval
  | Some (mkApproval d None) => Granted d
  | Some (mkApproval d (Some _)) => Spent d
  end.

Definition AState : Type := option (JobState * AApproval).
Definition abs_view (v : View) : AState := (fun s => (s, abs_approval (vw_approval v))) <$> vw_status v.
Definition abs (db : Db) (id : string) : AState := abs_view (view db id).

Inductive astep : AState -> AState -> Prop :=
| a_record : astep None (Some (Queued, NoApproval))
| a_approve d : astep (Some (Queued, NoApproval)) (Some (Queued, Granted d))
| a_revoke d : astep (Some (Queued, Granted d)) (Some (Queued, NoApproval))
| a_claim d : astep (Some (Queued, Granted d)) (Some (Running, Spent d))
| a_cancel a : (forall d, a <> Spent d) -> astep (Some (Queued, a)) (Some (Canceled, NoApproval))
| a_finish s d : allowed_transition Running s = true ->
    astep (Some (Running, Spent d)) (Some (s, Spent d)).

Definition astep_or_stay (x y : AState) : Prop := y = x \/ astep x y.

(** *** Views under the primitive changes *)

Section Views.
Context `{StoreEnv} `{CryptoLaws}.
Variable key : AuditKey.

Lemma view_append now kind id digest identity db id' :
  ChainInv key db ->
  view (append_event key now kind id digest identity db) id' =
  if (id =? id')%string then
    mkView (vw_status (view db id'))
      (if like_status (event_as_str kind) then Some (event_as_str kind) else vw_newest (view db id'))
      (vw_consumed (view db id') + if bool_decide (kind = ApprovalConsumed) then 1 else 0)
      (vw_approval (view db id'))
  else view db id'.
Proof.
  intros HI. unfold view at 1. rewrite newest_status_append by done.
  destruct (append_event_row key now kind id digest identity db) as (row & Ee & _ & Ek & Et & _).
  unfold consumed_count. rewrite Ee, List.filter_app, length_app. cbn [List.filter].
  rewrite Et, Ek, event_kind_consumed. change (find_tx (append_event _ _ _ _ _ _ _) id')
    with (find_tx db id').
  destruct (String.eqb_spec id id') as [->|Hne]; cbn [andb].
  - unfold view. simpl. by case_bool_decide.
  - simpl. by rewrite Nat.add_0_r.
Qed.

Lemma view_approvals db a id :
  view (with_approvals db a) id = mkView (vw_status (view db id)) (vw_newest (view db id))
    (vw_consumed (view db id)) (a !! id).
Proof. done. Qed.

(** What [UPDATE ... WHERE transaction_id = id AND q] does. *)
Lemma update_one id q new db :
  NoDup (map tx_id (db_transactions db)) ->
  let '(rows, n) := update_where (fun t => (tx_id t =? id)%string && q t) new (db_transactions db) in
  map tx_row rows = map tx_row (db_transactions db)
  /\ (n = 0 /\ rows = db_transactions db
      /\ (forall t, find_tx db id = Some t -> q t = false)
     \/ n = 1 /\ exists t, find_tx db id = Some t /\ q t = true
        /\ forall id', find_tx (with_transactions db rows) id' =
             if (id =? id')%string then Some (set_status t new) else find_tx db id').
Proof.
  intros Hnd. rewrite update_where_spec. split; [by apply map_set_status_id|].
  unfold find_tx, with_transactions. cbn [db_transactions].
  induction (db_transactions db) as [|x l IH]; [left; by split_and!|].
  simpl in Hnd. rewrite NoDup_cons in Hnd. destruct Hnd as [Hx Hnd]. specialize (IH Hnd). cbn [map List.filter find].
  destruct (String.eqb_spec (tx_id x) id) as [Ex|Ex]; cbn [andb].
  - assert (Hrest : forall t, t ∈ l -> (tx_id t =? id)%string = false).
    { intros t Ht. apply String.eqb_neq. intros E. apply Hx. rewrite Ex, <-E.
      by apply list_elem_of_fmap_2. }
    assert (Hf : forall p, List.filter (fun t => (tx_id t =? id)%string && p t) l = []).
    { intros p. clear IH Hx Hnd. induction l as [|y l IHl]; [done|]. simpl.
      rewrite (Hrest y ltac:(left)). simpl. apply IHl. intros t Ht. apply Hrest. by right. }
    assert (Hm : map (fun t => if (tx_id t =? id)%string && q t then set_status t new else t) l = l).
    { clear IH Hx Hnd Hf. induction l as [|y l IHl]; [done|]. simpl.
      rewrite (Hrest y ltac:(left)). simpl. f_equal. apply IHl. intros t Ht. apply Hrest. by right. }
    destruct (q x) eqn:Eq.
    + right. cbn [length]. rewrite Hf. split; [done|]. exists x. split_and!; [done|done|].
      intros id'. rewrite Hm. unfold set_status at 1, tx_id at 1. cbn [tx_row].
      change (cr_transaction_id (tx_row x)) with (tx_id x). rewrite Ex. by case_match.
    + left. rewrite Hf, Hm. split_and!; [done|done|]. intros t [= <-]. done.
  - destruct IH as [(E1 & E2 & E3)|(E1 & t & E2 & E3 & E4)].
    + left. split_and!; [done|by rewrite E2|done].
    + right. split; [done|]. exists t. split_and!; [done|done|]. intros id'.
      destruct (String.eqb_spec id id') as [<-|Hne].
      * rewrite (proj2 (String.eqb_neq _ _) Ex). specialize (E4 id).
        by rewrite String.eqb_refl in E4.
      * destruct (tx_id x =? id')%string; [done|]. specialize (E4 id').
        by rewrite (proj2 (String.eqb_neq _ _) Hne) in E4.
Qed.

Lemma view_with_transactions db rows t new id :
  (forall id', find_tx (with_transactions db rows) id' =
     if (id =? id')%string then Some (set_status t new) else find_tx db id') ->
  forall id', view (with_transactions db rows) id' =
    if (id =? id')%string then mkView (Some new) (vw_newest (view db id')) (vw_consumed (view db id'))
                                 (vw_approval (view db id'))
    else view db id'.
Proof. intros Hf id'. unfold view. rewrite Hf. by case_match. Qed.

Lemma find_tx_known db id t : find_tx db id = Some t -> id ∈ map tx_id (db_transactions db).
Proof. intros [Ht <-]%find_tx_Some. by apply list_elem_of_fmap_2. Qed.

Lemma ChainInv_with_transactions db rows :
  ChainInv key db -> map tx_row rows = map tx_row (db_transactions db) ->
  ChainInv key (with_transactions db rows).
Proof. apply ChainInv_rows. Qed.

Lemma ChainInv_with_approvals db a : ChainInv key db -> ChainInv key (with_approvals db a).
Proof. intros HI. by apply ChainInv_rows. Qed.

(** [update_where] keeps the ids known. *)
Lemma known_with_transactions db rows id :
  map tx_row rows = map tx_row (db_transactions db) ->
  id ∈ map tx_id rows <-> id ∈ map tx_id (db_transactions db).
Proof.
  intros E. unfold tx_id. rewrite <-(map_map tx_row cr_transaction_id),
    <-(map_map tx_row cr_transaction_id (db_transactions db)). by rewrite E.
Qed.
End Views.

(** *** Each operation preserves the invariants and refines the lifecycle *)

Section Preserve.
Context `{StoreEnv} `{CryptoLaws}.
Variable key : AuditKey.

(** [good db db']: the new tables keep both invariants, every id made at most
    one abstract step, and nothing signed was changed or removed. *)
Record good (db db' : Db) : Prop := {
  g_chain : ChainInv key db';
  g_life : LifeInv db';
  g_abs : forall id, astep_or_stay (abs db id) (abs db' id);
  g_rows : map tx_row (db_transactions db) `prefix_of` map tx_row (db_transactions db');
  g_events : db_events db `prefix_of` db_events db' }.

Lemma good_refl db : ChainInv key db -> LifeInv db -> good db db.
Proof. intros. split; try done. intros id. by left. Qed.

(** The views decide the lifecycle part. *)
Lemma good_views db db' id0 :
  ChainInv key db' -> LifeInv db ->
  (forall id, id <> id0 -> view db' id = view db id) ->
  life_ok (view db' id0) -> astep_or_stay (abs db id0) (abs db' id0) ->
  map tx_row (db_transactions db) `prefix_of` map tx_row (db_transactions db') ->
  db_events db `prefix_of` db_events db' -> good db db'.
Proof.
  intros HC HL Hv Hok Ha Hr He. split; try done.
  - intros id. destruct (decide (id = id0)) as [->|Hne]; [done|]. rewrite Hv by done. apply HL.
  - intros id. destruct (decide (id = id0)) as [->|Hne]; [done|].
    unfold abs. rewrite Hv by done. by left.
Qed.

Lemma append_event_prefix now kind id digest identity db :
  db_events db `prefix_of` db_events (append_event key now kind id digest identity db).
Proof.
  destruct (append_event_row key now kind id digest identity db) as (row & -> & _).
  by apply prefix_app_r.
Qed.

Lemma prefix_refl_eq {A} (l l' : list A) : l = l' -> l `prefix_of` l'.
Proof. by intros ->. Qed.

(** **** Recording *)

(** The identifier is new, and the row is the next of its chain. *)
Lemma insert_transaction_row now uuid t db ins db' :
  ChainInv key db -> insert_transaction key now uuid t db = Ok (ins, db') ->
  exists row, db' = with_transactions db (db_transactions db ++ [mkTxRow row Queued])
    /\ tr_transaction_id (ins_record ins) = uuid /\ cr_transaction_id row = uuid
    /\ uuid ∉ map tx_id (db_transactions db)
    /\ cr_seq row = N.of_nat (S (length (db_transactions db)))
    /\ cr_prev_chain_hash row = tip_from "" (map tx_row (db_transactions db))
    /\ cr_event_tip row = Some (default "" (event_chain_tip db))
    /\ row_signed (verifying_key key) row_message row.
Proof.
  intros HC E. unfold insert_transaction in E.
  destruct (next_seq_and_prev_hash db) as [sq prev] eqn:En.
  destruct (existsb _ _) eqn:Ex; [done|]. injection E as <- <-. cbn [ins_record tr_transaction_id].
  eexists. split; [reflexivity|]. cbn [cr_transaction_id cr_seq cr_prev_chain_hash cr_event_tip].
  assert (Hseq : sq = N.of_nat (S (length (db_transactions db)))
    /\ prev = tip_from "" (map tx_row (db_transactions db))).
  { unfold next_seq_and_prev_hash in En. pose proof (ci_tx_counted _ _ HC) as Hct.
    rewrite tip_from_last. rewrite (counted_newest tx_seq _ Hct) in En.
    destruct (rev_case (db_transactions db)) as [El|(l' & x & El)]; rewrite El in *.
    - injection En as <- <-. done.
    - rewrite last_snoc in En. rewrite map_app. cbn [map]. rewrite last_snoc. injection En as <- <-.
      apply counted_snoc in Hct as [_ Hs]. rewrite Hs, length_app. simpl. split; [lia|done]. }
  destruct Hseq as [-> ->]. split_and!; try done.
  - intros Hin. apply list_elem_of_fmap in Hin as (x & Hx & Hxin).
    assert (existsb (fun x => (tx_id x =? uuid)%string) (db_transactions db) = true); [|congruence].
    apply existsb_exists. exists x. split; [by apply list_elem_of_In|].
    rewrite Hx. apply String.eqb_refl.
  - eexists. split; [|apply signature_ok_sign].
    unfold row_message. unfold row_identity.
    cbn [cr_chain_version cr_caller_role cr_event_tip cr_caller_principal identity_version].
    cbn. unfold non_empty. by rewrite as_signed_str_not_empty.
Qed.

(** Adding the next row of the transaction chain. *)
Lemma append_row_chain row db :
  ChainInv key db -> cr_transaction_id row ∉ map tx_id (db_transactions db) ->
  cr_seq row = N.of_nat (S (length (db_transactions db))) ->
  cr_prev_chain_hash row = tip_from "" (map tx_row (db_transactions db)) ->
  tip_known (db_events db) row -> row_signed (verifying_key key) row_message row ->
  ChainInv key (with_transactions db (db_transactions db ++ [mkTxRow row Queued])).
Proof.
  intros [I1 I2 I3 I4 I5 I6 I7 I8 I9] Hid Hseq Hprev Htip Hs.
  split; cbn [db_transactions db_events with_transactions]; try done.
  - by apply counted_snoc.
  - rewrite map_app. cbn [map]. rewrite linked_snoc. split; [done|]. exact Hprev.
  - rewrite map_app. cbn [map]. by rewrite Forall_app, Forall_singleton.
  - rewrite map_app. cbn [map]. rewrite NoDup_app. split_and!; [done| |by apply NoDup_singleton].
    intros x Hx Hx'. apply list_elem_of_singleton in Hx'. unfold tx_id in Hx' at 1. cbn in Hx'. by subst x.
  - eapply Forall_impl; [exact I8|]. intros e He. simpl. rewrite map_app, elem_of_app. by left.
  - by rewrite Forall_app, Forall_singleton.
Qed.

Lemma event_tip_known db row : cr_event_tip row = Some (default "" (event_chain_tip db)) -> tip_known (db_events db) row.
Proof.
  intros E tip Et Hne. rewrite Et in E. injection E as ->. unfold event_chain_tip in *.
  destruct (newest er_seq (db_events db)) as [e|] eqn:Ee; [|done].
  apply newest_elem in Ee. simpl. by apply list_elem_of_fmap_2.
Qed.

Lemma insert_transaction_good now uuid t db ins db' :
  ChainInv key db -> LifeInv db ->
  insert_transaction key now uuid t db = Ok (ins, db') ->
  good db db' /\ tr_transaction_id (ins_record ins) = uuid
  /\ view db' uuid = mkView (Some Queued) None 0 None.
Proof.
  intros HC HL E. destruct (insert_transaction_row _ _ _ _ _ _ HC E)
    as (row & -> & Hrec & Hid & Hnew & Hseq & Hprev & Htip & Hs).
  assert (HC' := append_row_chain row db HC ltac:(by rewrite Hid) Hseq Hprev (event_tip_known db row Htip) Hs).
  set (db' := with_transactions db _) in *.
  assert (Hnone : find_tx db uuid = None).
  { destruct (find_tx db uuid) eqn:Ef; [|done]. by apply find_tx_known in Ef. }
  assert (Hview : view db' uuid = mkView (Some Queued) None 0 None).
  { pose proof (HL uuid) as Hv0. unfold life_ok in Hv0. unfold view in *. rewrite Hnone in Hv0. cbn in Hv0.
    destruct Hv0 as (Hn & Hc & Ha).
    assert (Ef : find_tx db' uuid = Some (mkTxRow row Queued)).
    { unfold find_tx, db', with_transactions. cbn [db_transactions].
      unfold find_tx in Hnone. rewrite find_snoc, Hnone.
      unfold tx_id. cbn [tx_row]. by rewrite Hid, String.eqb_refl. }
    rewrite Ef. simpl. f_equal; done. }
  split; [|done]. apply (good_views _ _ uuid); try done.
  - intros id Hne. unfold view. f_equal. unfold find_tx, db', with_transactions. cbn [db_transactions].
    rewrite find_snoc. change (tx_id (mkTxRow row Queued)) with (cr_transaction_id row).
    rewrite Hid, (proj2 (String.eqb_neq uuid id)) by done. by destruct (find _ _).
  - rewrite Hview. simpl. split_and!; [done|done|by left].
  - unfold abs. rewrite Hview. right. unfold view. rewrite Hnone. constructor.
  - unfold db', with_transactions. cbn [db_transactions]. rewrite map_app. by apply prefix_app_r.
Qed.

Lemma insert_preview_good db0 id p db db' :
  good db0 db -> insert_preview id p db = Ok db' -> good db0 db'.
Proof.
  intros [HC HL HA HR HE] E. unfold insert_preview in E. case_match; [done|]. injection E as <-.
  split; try done. by apply ChainInv_rows.
Qed.

Lemma record_good now uuid t r db db' :
  ChainInv key db -> LifeInv db -> record (Some key) now uuid t db = Ok (r, db') -> good db db'.
Proof.
  intros HC HL E. unfold record, record_with in E. simpl in E.
  destruct (insert_transaction key now uuid t db) as [[ins db1]|] eqn:Ei; simplify_eq/=.
  by apply insert_transaction_good in Ei as [? _].
Qed.

Lemma record_previewed_good now uuid t p r db db' :
  ChainInv key db -> LifeInv db -> record_previewed (Some key) now uuid t p db = Ok (r, db') ->
  good db db'.
Proof.
  intros HC HL E. unfold record_previewed, record_with in E. simpl in E.
  destruct (insert_transaction key now uuid t db) as [[ins db1]|] eqn:Ei; simpl in E; [|done].
  apply insert_transaction_good in Ei as [Hg _]; [|done..].
  destruct (insert_preview _ _ db1) as [db2|] eqn:Ep; simplify_eq/=.
  by eapply insert_preview_good.
Qed.

(** **** Approving and revoking *)

Lemma view_of_status db id t : find_tx db id = Some t -> vw_status (view db id) = Some (tx_status t).
Proof. unfold view. by intros ->. Qed.

Lemma approve_effect now id who r db db' :
  ChainInv key db ->
  approve_transaction (Some key) now id who db = Ok (r, db') ->
  (r = None /\ db' = db)
  \/ exists t digest, find_tx db id = Some t /\ tx_status t = Queued /\ fresh now t = true
       /\ db_approvals db !! id = None
       /\ r = Some (approval_receipt key id (cr_request_hash (tx_row t)))
       /\ digest = approval_commitment key id (cr_request_hash (tx_row t))
       /\ cr_approval_id (tx_row t) = Some digest
       /\ db' = append_event key now ApprovalGranted id digest (EventV2 (as_signed_str who))
                  (with_approvals db (<[id := mkApproval digest None]> (db_approvals db))).
Proof.
  unfold approve_transaction, get. simpl. intros HC E.
  destruct (find_tx db id) as [t|] eqn:Ef; simpl in E; [|injection E as <- <-; by left].
  unfold row_to_record in E. destruct (warnings_from_json _) as [w|]; simpl in E; [|done].
  destruct (cr_approval_id (tx_row t)) as [d|] eqn:Ed; [|done].
  case_match eqn:Ec; [done|]. bools.
  destruct (find _ (db_transactions db)) as [x|] eqn:Ex; injection E as <- <-; [|by left].
  right. apply find_some in Ex as [Hx Hp]. apply list_elem_of_In in Hx. bools.
  assert (x = t) as ->.
  { pose proof (find_tx_elem db x (ci_ids _ _ HC) Hx) as Hfx. congruence. }
  exists t, d. split_and!; try done. by rewrite Ec.
Qed.

Lemma approve_good now id who r db db' :
  ChainInv key db -> LifeInv db -> approve_transaction (Some key) now id who db = Ok (r, db') ->
  good db db'.
Proof.
  intros HC HL E. apply approve_effect in E as [[-> ->]|(t & d & Hf & Hs & _ & Ha & _ & _ & _ & ->)];
    [by apply good_refl| |done].
  set (db1 := with_approvals db (<[id := mkApproval d None]> (db_approvals db))).
  assert (HC1 : ChainInv key db1) by by apply ChainInv_with_approvals.
  assert (Hv : view (append_event key now ApprovalGranted id d (EventV2 (as_signed_str who)) db1) id
    = mkView (Some Queued) None 0 (Some (mkApproval d None))).
  { rewrite view_append by done. rewrite String.eqb_refl.
    change (like_status (event_as_str ApprovalGranted)) with false.
    unfold db1. rewrite view_approvals. cbn [vw_status vw_newest vw_consumed vw_approval].
    rewrite lookup_insert_eq. pose proof (HL id) as Hok. unfold life_ok in Hok.
    rewrite (view_of_status db id t Hf), Hs in *. destruct Hok as (-> & -> & _). done. }
  apply (good_views _ _ id); try done.
  - apply append_event_chain; [done|apply as_signed_str_not_empty|by eapply find_tx_known].
  - intros id' Hne. rewrite view_append by done.
    rewrite (proj2 (String.eqb_neq id id')) by done. unfold db1. rewrite view_approvals.
    rewrite lookup_insert_ne by done. done.
  - rewrite Hv. simpl. split_and!; [done|done|right; by exists d].
  - unfold abs. rewrite Hv. right. unfold abs_view. rewrite (view_of_status db id t Hf), Hs.
    unfold view. cbn [vw_approval]. rewrite Ha. constructor.
  - exact (append_event_prefix now ApprovalGranted id d _ db1).
Qed.

(** A queued transaction whose receipt was granted. *)
Definition granted (db : Db) (id d : string) : Prop := db_approvals db !! id = Some (mkApproval d None).

Lemma granted_queued db id d :
  LifeInv db -> granted db id d ->
  vw_status (view db id) = Some Queued /\ vw_newest (view db id) = None /\ vw_consumed (view db id) = 0.
Proof.
  intros HL Hg. pose proof (HL id) as Hok. unfold life_ok in Hok.
  unfold granted in Hg. change (db_approvals db !! id) with (vw_approval (view db id)) in Hg.
  rewrite Hg in Hok.
  assert (Hns : ~ spent (Some (mkApproval d None))) by (intros (? & ? & ?); done).
  destruct (vw_status (view db id)) as [[]|]; try naive_solver.
Qed.

(** Retracting a granted receipt, when the row's status is [s]. *)
Lemma revoke_effect now id signed db b db' :
  ChainInv key db -> is_empty signed = false -> id ∈ map tx_id (db_transactions db) ->
  revoke_unconsumed_approval_in_tx key now id signed db = (b, db') ->
  ChainInv key db' /\ db_transactions db' = db_transactions db
  /\ db_events db `prefix_of` db_events db'
  /\ forall id', view db' id' =
      if (id =? id')%string then
        mkView (vw_status (view db id')) (vw_newest (view db id')) (vw_consumed (view db id'))
          match db_approvals db !! id with Some (mkApproval _ None) => None | a => a end
      else view db id'.
Proof.
  intros HC Hs Hid E. unfold revoke_unconsumed_approval_in_tx in E.
  assert (Hsame : forall id', view db id' = if (id =? id')%string then
    mkView (vw_status (view db id')) (vw_newest (view db id')) (vw_consumed (view db id'))
      (db_approvals db !! id) else view db id').
  { intros id'. destruct (String.eqb_spec id id') as [<-|]; done. }
  destruct (db_approvals db !! id) as [[d [x|]]|] eqn:Ea; injection E as <- <-;
    [split_and!; done| |split_and!; done].
  set (db1 := with_approvals db (delete id (db_approvals db))).
  assert (HC1 : ChainInv key db1) by by apply ChainInv_with_approvals.
  split_and!; [by apply append_event_chain|done|exact (append_event_prefix now ApprovalRevoked id d _ db1)|].
  intros id'. rewrite view_append by done. unfold db1. rewrite view_approvals.
  destruct (String.eqb_spec id id') as [<-|Hne].
  - change (like_status (event_as_str ApprovalRevoked)) with false. simpl.
    by rewrite Nat.add_0_r, lookup_delete_eq.
  - rewrite lookup_delete_ne by done. done.
Qed.

Lemma revoke_good now id who b db db' :
  ChainInv key db -> LifeInv db ->
  revoke_unconsumed_approval (Some key) now id who db = Ok (b, db') -> good db db'.
Proof.
  intros HC HL E. unfold revoke_unconsumed_approval in E. simpl in E.
  destruct (revoke_unconsumed_approval_in_tx _ _ _ _ _) as [b' db1] eqn:Er. injection E as <- <-.
  assert (HG : db1 = db \/ exists d, granted db id d).
  { unfold revoke_unconsumed_approval_in_tx, granted in *.
    destruct (db_approvals db !! id) as [[d [x|]]|]; simplify_eq; [by left| |by left].
    right. by exists d. }
  destruct HG as [->|[d Hg]]; [by apply good_refl|].
  destruct (granted_queued db id d HL Hg) as (Hs & Hn & Hc).
  assert (Hid : id ∈ map tx_id (db_transactions db)).
  { unfold view in Hs. simpl in Hs. destruct (find_tx db id) eqn:Ef; [|done]. by eapply find_tx_known. }
  destruct (revoke_effect _ _ _ _ _ _ HC (as_signed_str_not_empty who) Hid Er) as (HC' & Ht & He & Hv).
  assert (Hv' : view db1 id = mkView (Some Queued) None 0 None).
  { rewrite Hv, String.eqb_refl, Hg, Hs, Hn, Hc. done. }
  apply (good_views _ _ id); try done.
  - intros id' Hne. by rewrite Hv, (proj2 (String.eqb_neq id id')) by done.
  - rewrite Hv'. simpl. split_and!; [done|done|by left].
  - unfold abs. rewrite Hv'. right. unfold abs_view. rewrite Hs.
    change (vw_approval (view db id)) with (db_approvals db !! id). rewrite Hg. constructor.
  - apply prefix_refl_eq. by rewrite Ht.
Qed.
End Preserve.

Section Preserve2.
Context `{StoreEnv} `{CryptoLaws}.
Variable key : AuditKey.

(** **** Claiming *)

Definition spend (now : Z) (a : Approval) : Approval :=
  match ap_consumed_at a with
  | None => mkApproval (ap_receipt_digest a) (Some now)
  | Some _ => a
  end.

Lemma claim_effect now id digest who b db db' :
  ChainInv key db ->
  claim_approved_for_execution (Some key) now id digest who db = Ok (b, db') ->
  (b = false /\ db' = db /\ forall t, find_tx db id = Some t -> tx_status t = Queued ->
     fresh now t = true -> ~ granted db id digest)
  \/ b = true /\ exists t rows, find_tx db id = Some t /\ tx_status t = Queued
       /\ fresh now t = true /\ granted db id digest
       /\ map tx_row rows = map tx_row (db_transactions db)
       /\ (forall id', find_tx (with_transactions db rows) id' =
             if (id =? id')%string then Some (set_status t Running) else find_tx db id')
       /\ db' = append_event key now StatusRunning id "" EventLegacyV1
           (append_event key now ApprovalConsumed id digest (EventV2 (as_signed_str who))
             (with_approvals (with_transactions db rows)
                (alter (spend now) id (db_approvals db)))).
Proof.
  intros HC E. unfold claim_approved_for_execution in E. cbn [mbind result_bind ok_or] in E.
  set (approved := match db_approvals db !! id with
    Some (mkApproval d None) => (d =? digest)%string | _ => false end) in *.
  assert (Happ : approved = true <-> granted db id digest).
  { unfold approved, granted. destruct (db_approvals db !! id) as [[d [x|]]|]; try naive_solver.
    rewrite String.eqb_eq. naive_solver. }
  pose proof (update_one id (fun t => bool_decide (tx_status t = Queued) && fresh now t && approved)
    Running db (ci_ids _ _ HC)) as HU.
  assert (EU : update_where (fun t => (tx_id t =? id)%string && bool_decide (tx_status t = Queued)
      && fresh now t && approved) Running (db_transactions db)
    = update_where (fun t => (tx_id t =? id)%string && (bool_decide (tx_status t = Queued)
      && fresh now t && approved)) Running (db_transactions db)).
  { rewrite !update_where_spec. f_equal; [|f_equal].
    - apply map_ext. intros t. by rewrite !andb_assoc.
    - apply List.filter_ext. intros t. by rewrite !andb_assoc. }
  rewrite EU in E. clear EU.
  destruct (update_where _ _ _) as [rows n].
  destruct HU as [Hm [(-> & -> & Hno)|(-> & t & Hf & Hq & Hv)]]; simpl in E; injection E as <- <-.
  - left. split_and!; [done|done|]. intros t Hf Hs Hfr Hg. apply Hno in Hf.
    rewrite Hs, Hfr, (proj2 Happ Hg) in Hf. done.
  - right. split; [done|]. exists t, rows.
    apply andb_true_iff in Hq as [Hq Ha]. apply andb_true_iff in Hq as [Hq1 Hq2].
    apply bool_decide_eq_true in Hq1. split_and!; try done. by apply Happ.
Qed.

Lemma claim_good now id digest who b db db' :
  ChainInv key db -> LifeInv db ->
  claim_approved_for_execution (Some key) now id digest who db = Ok (b, db') -> good key db db'.
Proof.
  intros HC HL E. apply claim_effect in E as
    [(-> & -> & _)|(-> & t & rows & Hf & Hs & _ & Hg & Hm & Hv & ->)]; [by apply good_refl| |done].
  destruct (granted_queued db id digest HL Hg) as (Hs0 & Hn0 & Hc0).
  set (db1 := with_approvals (with_transactions db rows) (alter (spend now) id (db_approvals db))).
  assert (HC1 : ChainInv key db1) by by apply (ChainInv_rows key db).
  set (db2 := append_event key now ApprovalConsumed id digest (EventV2 (as_signed_str who)) db1).
  assert (Hid : id ∈ map tx_id rows)
    by (apply (known_with_transactions db rows id Hm); by eapply find_tx_known).
  assert (HC2 : ChainInv key db2)
    by (apply append_event_chain; [done|apply as_signed_str_not_empty|done]).
  assert (Hv1 : forall id', id' <> id -> view db1 id' = view db id').
  { intros id' Hne. unfold db1. rewrite view_approvals.
    rewrite (view_with_transactions db rows t Running id Hv).
    rewrite (proj2 (String.eqb_neq id id')) by done. by rewrite lookup_alter_ne. }
  assert (Hvid : view (append_event key now StatusRunning id "" EventLegacyV1 db2) id =
    mkView (Some Running) (Some "status_running") 1 (Some (mkApproval digest (Some now)))).
  { rewrite view_append by done. unfold db2. rewrite view_append by done. rewrite String.eqb_refl.
    unfold db1. rewrite view_approvals, (view_with_transactions db rows t Running id Hv).
    rewrite String.eqb_refl. cbn [vw_status vw_newest vw_consumed vw_approval]. rewrite Hc0.
    unfold granted in Hg. by rewrite lookup_alter_eq, Hg. }
  apply (good_views _ _ _ id); try done.
  - by apply append_event_chain.
  - intros id' Hne. rewrite view_append by done. unfold db2. rewrite view_append by done.
    rewrite (proj2 (String.eqb_neq id id')) by done. by apply Hv1.
  - rewrite Hvid. simpl. split_and!; [done|done|by exists digest, now].
  - unfold abs. rewrite Hvid. right. unfold abs_view. rewrite Hs0.
    change (vw_approval (view db id)) with (db_approvals db !! id). rewrite Hg. constructor.
  - apply prefix_refl_eq. by rewrite <-Hm.
  - etrans; [exact (append_event_prefix key now ApprovalConsumed id digest (EventV2 (as_signed_str who)) db1)|].
    apply append_event_prefix.
Qed.

(** **** Ending an execution *)

Lemma cas_effect now id cur new db db' :
  ChainInv key db -> cas_status (Some key) now id cur new db = Ok db' ->
  exists t rows, find_tx db id = Some t /\ tx_status t = cur
    /\ map tx_row rows = map tx_row (db_transactions db)
    /\ (forall id', find_tx (with_transactions db rows) id' =
          if (id =? id')%string then Some (set_status t new) else find_tx db id')
    /\ db' = append_event key now (event_of_state new) id "" EventLegacyV1 (with_transactions db rows).
Proof.
  intros HC E. unfold cas_status in E.
  pose proof (update_one id (fun t => bool_decide (tx_status t = cur)) new db (ci_ids _ _ HC)) as HU.
  destruct (update_where _ _ _) as [rows n].
  destruct HU as [Hm [(-> & -> & Hno)|(-> & t & Hf & Hq & Hv)]]; simpl in E; [done|].
  injection E as <-. apply bool_decide_eq_true in Hq. by exists t, rows.
Qed.

Lemma event_of_state_like s : like_status (event_as_str (event_of_state s)) = true.
Proof. by destruct s. Qed.
Lemma event_of_state_not_consumed s : bool_decide (event_of_state s = ApprovalConsumed) = false.
Proof. by destruct s. Qed.

(** Chaining a new status of one row. *)
Lemma chain_status_view now id t new db rows :
  ChainInv key db -> map tx_row rows = map tx_row (db_transactions db) ->
  (forall id', find_tx (with_transactions db rows) id' =
     if (id =? id')%string then Some (set_status t new) else find_tx db id') ->
  forall id', view (append_event key now (event_of_state new) id "" EventLegacyV1
                      (with_transactions db rows)) id' =
    if (id =? id')%string then
      mkView (Some new) (Some (event_as_str (event_of_state new))) (vw_consumed (view db id'))
        (vw_approval (view db id'))
    else view db id'.
Proof.
  intros HC Hm Hv id'. rewrite view_append by by apply ChainInv_with_transactions.
  rewrite (view_with_transactions db rows t new id Hv), event_of_state_like, event_of_state_not_consumed.
  destruct (String.eqb_spec id id'); [|done]. simpl. by rewrite Nat.add_0_r.
Qed.

Lemma finish_good now id new db db' :
  ChainInv key db -> LifeInv db -> allowed_transition Running new = true ->
  cas_status (Some key) now id Running new db = Ok db' -> good key db db'.
Proof.
  intros HC HL Ha E. apply cas_effect in E as (t & rows & Hf & Hs & Hm & Hv & ->); [|done].
  pose proof (chain_status_view now id t new db rows HC Hm Hv) as HV.
  pose proof (HL id) as Hok. unfold life_ok in Hok.
  rewrite (view_of_status db id t Hf), Hs in Hok. destruct Hok as (Hn & Hc & Hsp).
  apply (good_views _ _ _ id); try done.
  - apply append_event_chain; [by apply ChainInv_with_transactions|done|].
    cbn [with_transactions db_transactions].
    apply (known_with_transactions db rows id Hm). by eapply find_tx_known.
  - intros id' Hne. by rewrite HV, (proj2 (String.eqb_neq id id')) by done.
  - rewrite HV, String.eqb_refl. unfold life_ok. cbn [vw_status vw_newest vw_consumed vw_approval].
    rewrite Hc. destruct new; try done; split_and!; try done; by right.
  - unfold abs. rewrite HV, String.eqb_refl. right. unfold abs_view.
    rewrite (view_of_status db id t Hf), Hs. cbn [vw_status vw_approval fmap option_fmap option_map].
    destruct Hsp as (d & x & ->). by constructor.
  - apply prefix_refl_eq. by rewrite <-Hm.
  - exact (append_event_prefix key now (event_of_state new) id "" EventLegacyV1 (with_transactions db rows)).
Qed.

(** **** Cancelling *)

Lemma cancel_effect now signed id n db db' :
  ChainInv key db -> LifeInv db -> is_empty signed = false ->
  cancel_in_tx key now signed id db = (n, db') ->
  (n = 0 /\ db' = db /\ vw_status (view db id) <> Some Queued)
  \/ n = 1 /\ ChainInv key db' /\ vw_status (view db id) = Some Queued
     /\ map tx_row (db_transactions db') = map tx_row (db_transactions db)
     /\ db_events db `prefix_of` db_events db'
     /\ (forall id', id' <> id -> view db' id' = view db id')
     /\ view db' id = mkView (Some Canceled) (Some "status_canceled") 0 None.
Proof.
  intros HC HL Hne E. unfold cancel_in_tx in E.
  pose proof (update_one id (fun t => bool_decide (tx_status t = Queued)) Canceled db (ci_ids _ _ HC)) as HU.
  destruct (update_where _ _ _) as [rows m].
  destruct HU as [Hm [(-> & -> & Hno)|(-> & t & Hf & Hq & Hv)]]; simpl in E.
  - injection E as <- <-. left. split_and!; [done|done|]. unfold view. simpl. intros Hs.
    destruct (find_tx db id) as [t|] eqn:Ef; [|done]. simplify_eq/=.
    specialize (Hno t eq_refl). apply bool_decide_eq_false in Hno. congruence.
  - right. destruct (revoke_unconsumed_approval_in_tx _ _ _ _ _) as [b db2] eqn:Er.
    injection E as <- <-. apply bool_decide_eq_true in Hq.
    assert (Hid : id ∈ map tx_id rows)
      by (apply (known_with_transactions db rows id Hm); by eapply find_tx_known).
    apply (revoke_effect key) in Er as (HC2 & Ht2 & He2 & Hv2);
      [|by apply ChainInv_with_transactions|done|done].
    pose proof (view_of_status db id t Hf) as Hst. rewrite Hq in Hst.
    pose proof (HL id) as Hok. unfold life_ok in Hok. rewrite Hst in Hok.
    destruct Hok as (Hn & Hc & Ha).
    split_and!; try done.
    + apply append_event_chain; [done|done|by rewrite Ht2].
    + cbn [append_event db_transactions]. by rewrite Ht2.
    + etrans; [exact He2|]. apply append_event_prefix.
    + intros id' Hne'. rewrite view_append by done.
      rewrite (proj2 (String.eqb_neq id id')) by done. rewrite Hv2.
      rewrite (proj2 (String.eqb_neq id id')) by done.
      rewrite (view_with_transactions db rows t Canceled id Hv).
      by rewrite (proj2 (String.eqb_neq id id')) by done.
    + rewrite view_append by done. rewrite Hv2, (view_with_transactions db rows t Canceled id Hv).
      rewrite String.eqb_refl. cbn [vw_status vw_newest vw_consumed vw_approval].
      rewrite Hc. cbn [with_transactions db_approvals].
      change (db_approvals db !! id) with (vw_approval (view db id)).
      destruct Ha as [->|[d ->]]; done.
Qed.

Lemma queued_abs db id :
  LifeInv db -> vw_status (view db id) = Some Queued ->
  exists a, (forall d, a <> Spent d) /\ abs db id = Some (Queued, a).
Proof.
  intros HL Hs. pose proof (HL id) as Hok. unfold life_ok in Hok. rewrite Hs in Hok.
  destruct Hok as (_ & _ & Ha). unfold abs, abs_view. rewrite Hs.
  eexists. split; [|done]. intros d'. by destruct Ha as [->|[d ->]].
Qed.

Lemma cancel_in_tx_good now signed id n db db' :
  ChainInv key db -> LifeInv db -> is_empty signed = false ->
  cancel_in_tx key now signed id db = (n, db') ->
  good key db db' /\ forall id', abs db' id' = abs db id'
    \/ (exists a, (forall d, a <> Spent d) /\ abs db id' = Some (Queued, a))
       /\ abs db' id' = Some (Canceled, NoApproval).
Proof.
  intros HC HL Hne E. apply cancel_effect in E as
    [(-> & -> & _)|(-> & HC' & Hs & Hm & He & Hv & Hvid)]; [|split..|done|done|done].
  - split; [by apply good_refl|]. by left.
  - pose proof (queued_abs db id HL Hs) as Ha.
    destruct Ha as (a & Hna & Ha).
    apply (good_views _ _ _ id); try done.
    + rewrite Hvid. simpl. split; [done|]. by left.
    + right. rewrite Ha. unfold abs. rewrite Hvid. by constructor.
    + by apply prefix_refl_eq.
  - intros id'. destruct (decide (id' = id)) as [->|Hne'].
    + right. split; [by apply queued_abs|unfold abs; by rewrite Hvid].
    + left. unfold abs. by rewrite Hv.
Qed.

Lemma cleanup_fold_good now ids c db n db' :
  ChainInv key db -> LifeInv db ->
  fold_left (fun '(canceled, db) id =>
    let '(n, db) := cancel_in_tx key now (as_signed_str Unattributed) id db in
    (canceled + n, db)) ids (c, db) = (n, db') ->
  good key db db' /\ forall id', abs db' id' = abs db id'
    \/ (exists a, (forall d, a <> Spent d) /\ abs db id' = Some (Queued, a))
       /\ abs db' id' = Some (Canceled, NoApproval).
Proof.
  revert c db. induction ids as [|id ids IH]; intros c db HC HL E; simpl in E.
  { injection E as <- <-. split; [by apply good_refl|by left]. }
  destruct (cancel_in_tx _ _ _ _ _) as [m db1] eqn:Ec.
  apply cancel_in_tx_good in Ec as [Hg1 Ha1]; [|done|done|done].
  apply IH in E as [Hg2 Ha2]; [|by destruct Hg1..].
  assert (Ha : forall id', abs db' id' = abs db id'
    \/ (exists a, (forall d, a <> Spent d) /\ abs db id' = Some (Queued, a))
       /\ abs db' id' = Some (Canceled, NoApproval)).
  { intros id'. destruct (Ha1 id') as [E1|[H1' E1]], (Ha2 id') as [E2|[(a & Hn & H2') E2]].
    - left. congruence.
    - right. split; [|done]. exists a. split; [done|congruence].
    - right. split; [done|congruence].
    - right. done. }
  split; [|done]. destruct Hg1, Hg2. split; try done.
  - intros id'. destruct (Ha id') as [->|[(a & Hn & ->) ->]]; [by left|right; by constructor].
  - by etrans.
  - by etrans.
Qed.

Lemma step_good db db' : ChainInv key db -> LifeInv db -> step key db db' -> good key db db'.
Proof.
  intros HC HL Hstep. destruct Hstep.
  - by eapply record_good.
  - by eapply record_previewed_good.
  - by eapply approve_good.
  - by eapply revoke_good.
  - by eapply claim_good.
  - by eapply finish_good.
  - unfold cleanup_stale_queued in *. simpl in *.
    match goal with E : Ok ?p = Ok _ |- _ => injection E as E; destruct p eqn:Ep; simplify_eq end.
    by apply cleanup_fold_good in Ep as [? _].
  - unfold cancel_queued in *. simpl in *.
    match goal with E : context [cancel_in_tx] |- _ =>
      destruct (cancel_in_tx _ _ _ _ _) as [m db1] eqn:Ec; injection E as <- <- end.
    apply cancel_in_tx_good in Ec as [? _]; [done|done|done|apply as_signed_str_not_empty].
Qed.

Lemma empty_inv : ChainInv key empty_db /\ LifeInv empty_db.
Proof.
  split; [split; try done; try constructor|]. intros id. done.
Qed.

Lemma reachable_inv db : reachable key db -> ChainInv key db /\ LifeInv db.
Proof.
  induction 1 as [|db db' _ [HC HL] Hs]; [apply empty_inv|].
  by destruct (step_good db db' HC HL Hs).
Qed.
End Preserve2.

(** *** Consequences *)

Section Consequences.
Context `{StoreEnv} `{CryptoLaws}.
Variable key : AuditKey.

Lemma binding_complete known k rows :
  Forall (fun r => forall tip, cr_event_tip r = Some tip -> tip <> "" -> tip ∈ known) rows ->
  exists n, binding_from known k rows = BindingConsistent n.
Proof.
  revert k. induction rows as [|r rows IH]; intros k; cbn [binding_from]; [by exists k|].
  rewrite Forall_cons. intros [Hr Hrs].
  destruct (cr_event_tip r) as [tip|]; [|by apply IH].
  destruct tip as [|c t]; [by apply IH|]. cbn [is_empty].
  assert (E : str_in (String c t) known = true) by (apply str_in_spec; by apply Hr).
  rewrite E. by apply IH.
Qed.

Lemma reachable_evidence db :
  ChainInv key db -> LifeInv db ->
  Forall (fun e => judge_evidence e = EvAgrees) (status_evidence db).
Proof.
  intros HC HL. unfold status_evidence. apply Forall_map, Forall_forall. intros t Ht.
  apply judge_evidence_spec. cbn [se_status se_newest_status_event se_approval_consumed compose].
  pose proof (find_tx_elem db t (ci_ids _ _ HC) Ht) as Hf.
  pose proof (HL (tx_id t)) as Hok. unfold life_ok in Hok.
  rewrite (view_of_status db _ t Hf) in Hok. unfold view in Hok. cbn in Hok.
  destruct (tx_status t); destruct Hok as (-> & Hc & _) || destruct Hok as (-> & Hc);
    cbn; try done.
  split; [done|]. unfold approval_consumed. unfold consumed_count in Hc.
  apply length_zero_iff_nil in Hc. apply not_true_is_false. intros Hex.
  apply existsb_exists in Hex as (e & He & Hp).
  assert (Hin : In e (List.filter (fun e => (er_transaction_id e =? tx_id t)%string
    && (er_kind e =? "approval_consumed")%string) (db_events db))) by by apply filter_In.
  rewrite Hc in Hin. destruct Hin.
Qed.

(** What the sweep does to the status of each id. *)
Lemma cleanup_fold_status now ids c db n db' :
  ChainInv key db -> LifeInv db ->
  fold_left (fun '(canceled, db) id =>
    let '(n, db) := cancel_in_tx key now (as_signed_str Unattributed) id db in
    (canceled + n, db)) ids (c, db) = (n, db') ->
  forall id', vw_status (view db' id') =
    if bool_decide (id' ∈ ids) && bool_decide (vw_status (view db id') = Some Queued)
    then Some Canceled else vw_status (view db id').
Proof.
  revert c db. induction ids as [|id ids IH]; intros c db HC HL E id'; simpl in E.
  { injection E as <- <-. done. }
  destruct (cancel_in_tx _ _ _ _ _) as [m db1] eqn:Ec.
  pose proof (cancel_in_tx_good key now (as_signed_str Unattributed) id m db db1 HC HL eq_refl Ec)
    as [Hg _].
  assert (Hst : vw_status (view db1 id') =
    if bool_decide (id' = id) && bool_decide (vw_status (view db id') = Some Queued)
    then Some Canceled else vw_status (view db id')).
  { apply (cancel_effect key) in Ec as [(_ & -> & Hnq)|(_ & _ & Hq & _ & _ & Hv & Hvid)]; [| |done..].
    - destruct (decide (id' = id)) as [->|]; [|by rewrite bool_decide_eq_false_2].
      by rewrite (bool_decide_eq_false_2 (_ = Some Queued)), andb_false_r.
    - destruct (decide (id' = id)) as [->|Hne].
      + by rewrite Hvid, !bool_decide_eq_true_2.
      + rewrite Hv by done. by rewrite bool_decide_eq_false_2. }
  rewrite (IH _ _ (g_chain _ _ _ Hg) (g_life _ _ _ Hg) E id'), Hst.
  destruct (decide (id' = id)) as [->|Hne].
  - rewrite (bool_decide_eq_true_2 (id = id)), (bool_decide_eq_true_2 (id ∈ id :: ids)) by (done || left).
    cbn [andb]. destruct (bool_decide (vw_status (view db id) = Some Queued)) eqn:Eq.
    + rewrite (bool_decide_eq_false_2 (Some Canceled = Some Queued)) by done. by rewrite andb_false_r.
    + by rewrite Eq, andb_false_r.
  - rewrite (bool_decide_eq_false_2 (id' = id)) by done. cbn [andb].
    by rewrite (bool_decide_ext (id' ∈ id :: ids) (id' ∈ ids)) by (rewrite elem_of_cons; naive_solver).
Qed.
End Consequences.

(** ** Properties *)

(** C5: refinement. Every write transaction of the daemon moves each
    transaction by at most one step of the abstract lifecycle (recorded, granted,
    retracted, claimed, canceled, ended) and leaves the others alone; and it only
    appends: no signed column of a stored row and no stored event ever changes
    or disappears. *)
Theorem store_refines_lifecycle `{StoreEnv} `{CryptoLaws} key db db' :
  reachable key db -> step key db db' ->
  (forall id, astep_or_stay (abs db id) (abs db' id))
  /\ map tx_row (db_transactions db) `prefix_of` map tx_row (db_transactions db')
  /\ db_events db `prefix_of` db_events db'.
Proof.
  intros Hr Hs. destruct (reachable_inv key db Hr) as [HC HL].
  by destruct (step_good key db db' HC HL Hs).
Qed.

(** The chain invariant is what verification checks. *)
Lemma chains_verify `{StoreEnv} `{CryptoLaws} key db :
  ChainInv key db ->
  verify_audit_chain key db = Intact (length (db_transactions db))
  /\ store_verify_event_chain key db = Intact (length (db_events db))
  /\ (exists n, store_verify_event_binding db = BindingConsistent n).
Proof.
  intros [I1 I2 I3 I4 I5 I6 I7 I8 I9]. split_and!.
  - unfold verify_audit_chain, verify_chain, fetch_chain_rows. rewrite counted_order by done.
    apply verify_rows_Intact. by rewrite length_map.
  - unfold store_verify_event_chain, verify_event_chain, fetch_event_rows.
    rewrite counted_order by done. by apply verify_event_rows_Intact.
  - unfold store_verify_event_binding, AuditChain.verify_event_binding, fetch_chain_rows, fetch_event_rows.
    rewrite !counted_order by done. apply binding_complete, Forall_map. exact I9.
Qed.

Lemma reachable_verifies `{StoreEnv} `{CryptoLaws} key db :
  reachable key db ->
  verify_audit_chain key db = Intact (length (db_transactions db))
  /\ store_verify_event_chain key db = Intact (length (db_events db))
  /\ (exists n, store_verify_event_binding db = BindingConsistent n)
  /\ status_matches_chain db = Agrees (length (db_transactions db)).
Proof.
  intros Hr. destruct (reachable_inv key db Hr) as [HC HL].
  destruct (chains_verify key db HC) as (E1 & E2 & E3). split_and!; try done.
  apply status_outcome_Agrees. unfold status_evidence. rewrite length_map. split; [done|].
  by apply (reachable_evidence key).
Qed.

(** C6: whatever the daemon has done, its own trail verifies: both chains are
    intact to the last row, every committed event tip is there, and every status
    agrees with the signed events, so `sysknife audit verify` exits 0. *)
Theorem honest_store_verifies `{StoreEnv} `{CryptoLaws} key db :
  reachable key db ->
  verify_audit_chain key db = Intact (length (db_transactions db))
  /\ store_verify_event_chain key db = Intact (length (db_events db))
  /\ (exists n, store_verify_event_binding db = BindingConsistent n)
  /\ status_matches_chain db = Agrees (length (db_transactions db))
  /\ exit_code (mkVerification (verify_audit_chain key db) (store_verify_event_chain key db)
       (store_verify_event_binding db) None (Some (status_matches_chain db))) = 0%Z.
Proof.
  intros Hr. destruct (reachable_verifies key db Hr) as (E1 & E2 & E3 & E4).
  split_and!; try done. destruct E3 as [n E3]. unfold exit_code, exit_codes.
  cbn [av_chain av_events av_binding av_status]. by rewrite E1, E2, E3, E4.
Qed.

(** A receipt is spent at most once, and nothing runs without one: in every
    reachable store a transaction carries at most one consumed-approval event; a
    running or ended execution (anything but Queued and Canceled) carries exactly
    one, and its approval is marked consumed; a queued one carries none. *)
Theorem approval_consumed_once `{StoreEnv} `{CryptoLaws} key db id :
  reachable key db ->
  consumed_count db id <= 1
  /\ forall t, find_tx db id = Some t ->
       (tx_status t = Queued -> consumed_count db id = 0)
       /\ (tx_status t <> Queued -> tx_status t <> Canceled ->
           consumed_count db id = 1 /\ spent (db_approvals db !! id)).
Proof.
  intros Hr. destruct (reachable_inv key db Hr) as [HC HL].
  pose proof (HL id) as Hok. unfold life_ok in Hok. unfold view in Hok. cbn in Hok.
  destruct (find_tx db id) as [t|] eqn:Ef; simpl in Hok.
  - split; [destruct (tx_status t); intuition lia|]. intros t' [= <-].
    destruct (tx_status t); naive_solver.
  - destruct Hok as (_ & -> & _). split; [lia|]. by intros t ?.
Qed.

(** A claim that answers true spends the approval and touches no other row. *)
Lemma claim_spends `{StoreEnv} `{CryptoLaws} key now id digest who db db' :
  reachable key db ->
  claim_approved_for_execution (Some key) now id digest who db = Ok (true, db') ->
  abs db' id = Some (Running, Spent digest)
  /\ forall id', id' <> id -> view db' id' = view db id'.
Proof.
  intros Hr E. destruct (reachable_inv key db Hr) as [HC HL].
  apply (claim_effect key) in E as [(? & _)|(_ & t & rows & Hf & Hs & Hfr & Hgr & Hm & Hv & ->)];
    [done| |done].
  set (db1 := with_approvals (with_transactions db rows) (alter (spend now) id (db_approvals db))).
  assert (HC1 : ChainInv key db1) by by apply (ChainInv_rows key db).
  assert (HC2 : ChainInv key (append_event key now ApprovalConsumed id digest
    (EventV2 (as_signed_str who)) db1)).
  { apply append_event_chain; [done|apply as_signed_str_not_empty|].
    apply (known_with_transactions db rows id Hm). by eapply find_tx_known. }
  split.
  - unfold abs. rewrite !view_append, String.eqb_refl by done. unfold db1.
    rewrite view_approvals, (view_with_transactions db rows t Running id Hv), String.eqb_refl.
    unfold abs_view. cbn [vw_status vw_approval fmap option_fmap option_map].
    unfold granted in Hgr. by rewrite lookup_alter_eq, Hgr.
  - intros id' Hne. rewrite !view_append by done.
    rewrite (proj2 (String.eqb_neq id id')) by done. unfold db1. rewrite view_approvals.
    rewrite (view_with_transactions db rows t Running id Hv).
    rewrite (proj2 (String.eqb_neq id id')) by done. by rewrite lookup_alter_ne.
Qed.

(** The claim is exact. On a reachable store it answers true iff the row is
    Queued, was created less than fifteen minutes ago and holds an unconsumed
    approval with exactly the presented digest; it then moves that row, and only
    that row, to Running with its approval consumed, so any second claim of the
    same transaction, with any digest and by anyone, answers false. *)
Theorem claim_exact `{StoreEnv} `{CryptoLaws} key now id digest who db b db' :
  reachable key db ->
  claim_approved_for_execution (Some key) now id digest who db = Ok (b, db') ->
  (b = true <-> exists t, find_tx db id = Some t /\ tx_status t = Queued /\ fresh now t = true
     /\ granted db id digest)
  /\ (b = true -> abs db' id = Some (Running, Spent digest)
      /\ (forall id', id' <> id -> view db' id' = view db id')
      /\ forall now' digest' who', exists db'',
           claim_approved_for_execution (Some key) now' id digest' who' db' = Ok (false, db'')).
Proof.
  intros Hr E. destruct (reachable_inv key db Hr) as [HC HL].
  pose proof (claim_good key now id digest who b db db' HC HL E) as Hg. split.
  - apply (claim_effect key) in E as
      [(-> & -> & Hno)|(-> & t & rows & Hf & Hs & Hfr & Hgr & _)]; [|split; [intros _; by exists t|done]|done].
    split; [done|]. intros (t & Hf & Hs & Hfr & Hgr). by destruct (Hno t).
  - intros ->. destruct (claim_spends key now id digest who db db' Hr E) as [Habs Hoth].
    split_and!; [done|done|]. intros now' digest' who'.
    destruct (claim_approved_for_execution (Some key) now' id digest' who' db') as [[b2 db2]|e] eqn:E2.
    + apply (claim_effect key) in E2 as
        [(-> & -> & _)|(-> & t2 & rows2 & Hf2 & Hs2 & _)]; [by exists db'| |by destruct Hg].
      exfalso. unfold abs, abs_view in Habs. rewrite (view_of_status _ _ _ Hf2), Hs2 in Habs. done.
    + exfalso. unfold claim_approved_for_execution in E2. cbn [mbind result_bind ok_or] in E2.
      destruct (update_where _ _ _). by case_match.
Qed.

(** Compare-and-swap. Of two writers that both read status [cur] at some
    earlier moments and both validated a move out of it, the second one's write
    is refused after the first one succeeds, and changes nothing; so no
    transition is ever written over a status it was not validated against. *)
Theorem status_cas_excludes `{StoreEnv} `{CryptoLaws} key now1 now2 id cur new1 new2
    read1 read2 db db1 :
  reachable key db ->
  read_transition read1 id new1 = Ok cur -> read_transition read2 id new2 = Ok cur ->
  cas_status (Some key) now1 id cur new1 db = Ok db1 ->
  cas_status (Some key) now2 id cur new2 db1 = Err (ConcurrentStatusChange id)
  /\ (tx_status <$> find_tx db1 id = Some new1)
  /\ newest_status_event db1 id = Some (event_as_str (event_of_state new1)).
Proof.
  intros Hr Hread _ E. destruct (reachable_inv key db Hr) as [HC HL].
  assert (Ha : allowed_transition cur new1 = true).
  { unfold read_transition in Hread. destruct (find_tx read1 id); simpl in Hread; [|done].
    by case_match; simplify_eq. }
  apply (cas_effect key) in E as (t & rows & Hf & Hs & Hm & Hv & ->); [|done].
  pose proof (chain_status_view key now1 id t new1 db rows HC Hm Hv id) as HV.
  rewrite String.eqb_refl in HV. set (db1 := append_event _ _ _ _ _ _ _) in *.
  assert (Hf1 : find_tx db1 id = Some (set_status t new1)).
  { change (find_tx db1 id) with (find_tx (with_transactions db rows) id).
    by rewrite Hv, String.eqb_refl. }
  split_and!; [|by rewrite Hf1|].
  - unfold cas_status.
    assert (Hnd : NoDup (map tx_id (db_transactions db1))).
    { unfold db1. cbn. unfold tx_id. rewrite <-(map_map tx_row cr_transaction_id), Hm, map_map.
      apply HC. }
    pose proof (update_one id (fun t => bool_decide (tx_status t = cur)) new2 db1 Hnd) as HU.
    destruct (update_where _ _ _) as [rows2 n].
    destruct HU as [_ [(-> & _)|(_ & t2 & Hf2 & Hq2 & _)]]; [done|].
    exfalso. rewrite Hf1 in Hf2. injection Hf2 as <-. apply bool_decide_eq_true in Hq2.
    cbn in Hq2. subst. by destruct (tx_status t).
  - apply (f_equal vw_newest) in HV. done.
Qed.

(** The sweep cancels exactly the stale. After it, a queued row created
    fifteen minutes ago or earlier is Canceled and every other row keeps its
    status; and no instant makes a row both claimable and stale. *)
Theorem sweep_exact `{StoreEnv} `{CryptoLaws} key now n db db' :
  reachable key db -> cleanup_stale_queued (Some key) now db = Ok (n, db') ->
  (forall id t, find_tx db id = Some t ->
     tx_status <$> find_tx db' id =
     Some (if bool_decide (tx_status t = Queued) && stale now t then Canceled else tx_status t))
  /\ (forall t, fresh now t = true -> stale now t = false).
Proof.
  intros Hr E. destruct (reachable_inv key db Hr) as [HC HL].
  unfold cleanup_stale_queued in E. cbn [mbind result_bind ok_or] in E. injection E as E.
  pose proof (cleanup_fold_status key now _ 0 db n db' HC HL E) as HS. split.
  - intros id t Hf. change (tx_status <$> find_tx db' id) with (vw_status (view db' id)).
    rewrite HS, (view_of_status db id t Hf).
    set (ids := map tx_id _).
    assert (Hin : id ∈ ids <-> tx_status t = Queued /\ stale now t = true).
    { unfold ids. apply find_tx_Some in Hf as Hf'. destruct Hf' as [Ht Hid]. split.
      - intros (x & Hx & Hxin)%list_elem_of_fmap. apply list_elem_of_In, filter_In in Hxin as [Hxin Hp].
        apply list_elem_of_In in Hxin. pose proof (find_tx_elem db x (ci_ids _ _ HC) Hxin) as Hfx.
        rewrite <-Hx, Hf in Hfx. injection Hfx as <-. bools. done.
      - intros [Hs Hst]. rewrite <-Hid. apply list_elem_of_fmap_2, list_elem_of_In, filter_In.
        split; [by apply list_elem_of_In|]. rewrite Hst, bool_decide_eq_true_2; done. }
    destruct (decide (tx_status t = Queued)) as [Hs|Hs].
    + rewrite (bool_decide_eq_true_2 (tx_status t = Queued)) by done.
      rewrite (bool_decide_eq_true_2 (Some (tx_status t) = Some Queued)) by congruence.
      rewrite andb_true_r. cbn [andb]. destruct (stale now t) eqn:Est.
      * rewrite bool_decide_eq_true_2 by naive_solver. done.
      * rewrite bool_decide_eq_false_2 by naive_solver. done.
    + rewrite (bool_decide_eq_false_2 (tx_status t = Queued)) by done.
      rewrite (bool_decide_eq_false_2 (Some (tx_status t) = Some Queued)) by congruence.
      by rewrite andb_false_r.
  - intros t. unfold fresh, stale. case_match; [|done].
    rewrite Z.ltb_lt, Z.leb_gt. done.
Qed.

(** ** Examples *)

Module StoreSample.
Import Toy.

Fixpoint warnings_to (w : list string) : string :=
  match w with [] => "" | s :: w' => (encode (bytes_of s) ++ ";" ++ warnings_to w')%string end.
Fixpoint warnings_from (fuel : nat) (s : string) : option (list string) :=
  match fuel with
  | O => Some []
  | S fuel' =>
      match split_once ";"%char s with
      | Some (l, r) => b ← decode l; w ← warnings_from fuel' r; Some (string_of_list_ascii b :: w)
      | None => Some []
      end
  end.
Definition time_to (t : Z) : string :=
  if (t <? 0)%Z then ("-" ++ dec_of_N (Z.to_N (- t)))%string else dec_of_N (Z.to_N t).
Definition digits_from (s : string) : option Z :=
  (fun d => Z.of_N (N.of_uint d)) <$> NilZero.uint_of_string s.
Definition time_from (s : string) : option Z :=
  match strip_prefix "-" s with Some d => Z.opp <$> digits_from d | None => digits_from s end.

#[export] Instance env : StoreEnv := {|
  strftime_now := time_to;
  julianday := time_from;
  warnings_to_json := warnings_to;
  warnings_from_json := fun s => warnings_from (String.length s) s;
  state_from_json := fun s =>
    find (fun st => (s =? to_lower (state_debug st))%string)
      [Queued; Running; Succeeded; Failed; Canceled; RolledBack; NeedsReboot] |}.

Lemma digits_roundtrip n : digits_from (dec_of_N n) = Some (Z.of_N n).
Proof.
  unfold digits_from, dec_of_N. rewrite NilZero.usu by apply to_uint_not_Nil.
  cbn. by rewrite DecimalN.Unsigned.of_to.
Qed.
Lemma warnings_roundtrip_fuel w fuel : length w <= fuel -> warnings_from fuel (warnings_to w) = Some w.
Proof.
  revert fuel. induction w as [|s w IH]; intros [|fuel] Hf; cbn in Hf; try lia; try done. cbn [warnings_to warnings_from].
  assert (Hc : str_has ";" (encode (bytes_of s)) = false).
  { generalize (bytes_of s). intros b. induction b as [|c b IHb]; [done|]. cbn [encode str_has str_exists].
    unfold str_has in *. cbn [str_exists]. rewrite IHb. by destruct c as [[] [] [] [] [] [] [] []]. }
  assert (E : split_once ";" (encode (bytes_of s) ++ ";" ++ warnings_to w)%string
            = Some (encode (bytes_of s), warnings_to w)) by by apply split_once_spec.
  rewrite E. pose proof (hex_roundtrip (bytes_of s)) as Hd. cbn in Hd. rewrite Hd. cbn [mbind option_bind].
  rewrite IH by lia. cbn. by rewrite string_of_list_ascii_of_string.
Qed.
Lemma warnings_length w : length w <= String.length (warnings_to w).
Proof.
  induction w as [|s w IH]; [done|]. cbn [warnings_to length].
  rewrite !length_str_app. cbn [String.length]. lia.
Qed.

#[export] Instance env_laws : StoreEnvLaws.
Proof.
  split; cbn.
  - intros t. unfold time_to, time_from. destruct (Z.ltb_spec t 0).
    + cbn [String.append strip_prefix]. cbn. rewrite digits_roundtrip. cbn. f_equal. lia.
    + assert (E : strip_prefix "-" (dec_of_N (Z.to_N t)) = None).
      { pose proof (dec_of_N_digits (Z.to_N t)) as Hd. destruct (dec_of_N (Z.to_N t)) as [|c s]; [done|].
        cbn [str_all] in Hd. apply andb_true_iff in Hd as [Hd _]. cbn [strip_prefix].
        destruct (Ascii.eqb_spec "-" c) as [<-|]; [done|]. done. }
      rewrite E, digits_roundtrip. f_equal. lia.
  - intros w. apply warnings_roundtrip_fuel, warnings_length.
Qed.

Definition key : AuditKey := Sample.key.
Definition tx : NewTransaction :=
  mkNewTransaction "rq" "h" "AptUpdate" Low "update" [] Dev (Uid 1000).
Definition receipt : string := approval_receipt key "t1" "h".
Definition digest : string := approval_receipt_digest receipt.
Definition or_empty {A} (r : result StoreError (A * Db)) : Db :=
  match r with Ok (_, db) => db | Err _ => empty_db end.
Definition db1 : Db := or_empty (record (Some key) 0 "t1" tx empty_db).
Definition db2 : Db := or_empty (approve_transaction (Some key) 1 "t1" (Uid 1000) db1).
Definition db3 : Db := or_empty (claim_approved_for_execution (Some key) 2 "t1" digest (Uid 1000) db2).
Definition db4 : Db :=
  match cas_status (Some key) 3 "t1" Running Succeeded db3 with Ok db => db | Err _ => empty_db end.

Lemma reach1 : reachable key db1.
Proof.
  eapply reachable_step; [constructor|]. eapply (step_record key 0 "t1" tx).
  vm_compute. reflexivity.
Qed.
Lemma reach2 : reachable key db2.
Proof.
  eapply reachable_step; [apply reach1|]. eapply (step_approve key 1 "t1" (Uid 1000)).
  vm_compute. reflexivity.
Qed.
Lemma reach3 : reachable key db3.
Proof.
  eapply reachable_step; [apply reach2|]. eapply (step_claim key 2 "t1" digest (Uid 1000)).
  vm_compute. reflexivity.
Qed.
End StoreSample.
#[local] Existing Instance Toy.crypto.
#[local] Existing Instance Toy.crypto_laws.
#[local] Existing Instance StoreSample.env.

Lemma store_refines_lifecycle_witness :
  astep_or_stay (abs StoreSample.db2 "t1") (abs StoreSample.db3 "t1").
Proof.
  assert (Hs : step StoreSample.key StoreSample.db2 StoreSample.db3).
  { eapply (step_claim StoreSample.key 2 "t1" StoreSample.digest (Uid 1000)). vm_compute. reflexivity. }
  exact (proj1 (store_refines_lifecycle StoreSample.key _ _ StoreSample.reach2 Hs) "t1").
Defined.

Lemma honest_store_verifies_witness :
  verify_audit_chain StoreSample.key StoreSample.db3 = Intact 1.
Proof.
  exact (proj1 (honest_store_verifies StoreSample.key _ StoreSample.reach3)).
Defined.

Lemma approval_consumed_once_witness : consumed_count StoreSample.db3 "t1" <= 1.
Proof.
  exact (proj1 (approval_consumed_once StoreSample.key _ "t1" StoreSample.reach3)).
Defined.

Lemma claim_exact_witness : abs StoreSample.db3 "t1" = Some (Running, Spent StoreSample.digest).
Proof.
  refine (proj1 (proj2 (claim_exact StoreSample.key 2 "t1" StoreSample.digest
    (Uid 1000) StoreSample.db2 true StoreSample.db3 StoreSample.reach2 _) eq_refl)).
  vm_compute. reflexivity.
Defined.

Lemma status_cas_excludes_witness :
  cas_status (Some StoreSample.key) 5 "t1" Running Failed
    StoreSample.db4 = Err (ConcurrentStatusChange "t1").
Proof.
  refine (proj1 (status_cas_excludes StoreSample.key 3 5 "t1" Running Succeeded
    Failed StoreSample.db3 StoreSample.db3 StoreSample.db3 StoreSample.db4 StoreSample.reach3 _ _ _));
  vm_compute; reflexivity.
Defined.

Lemma sweep_exact_witness :
  exists n db', cleanup_stale_queued (Some StoreSample.key)
    900000 StoreSample.db1 = Ok (n, db')
  /\ tx_status <$> find_tx db' "t1" = Some Canceled.
Proof.
  destruct (cleanup_stale_queued (Some StoreSample.key)
    900000 StoreSample.db1) as [[n db']|] eqn:E; [|vm_compute in E; discriminate].
  exists n, db'. split; [reflexivity|].
  destruct (find_tx StoreSample.db1 "t1") as [t|] eqn:Ef; [|vm_compute in Ef; discriminate].
  rewrite (proj1 (sweep_exact StoreSample.key 900000 n StoreSample.db1 db'
    StoreSample.reach1 E) "t1" t Ef).
  vm_compute in Ef. injection Ef as <-. vm_compute. reflexivity.
Defined.
