(* ===== verification/Watermark.v ===== *)
(** * The audit watermark

    crates/sysknife-daemon/src/audit_watermark.rs: after a commit of the transaction
    chain, its new tip goes to the journal through one short-lived process. Spawning
    it, writing to it, waiting for it and printing are effects; whether the one
    warning of the process was printed is passed along. *)

From Stdlib Require Import Ascii String NArith ZArith Lia.
From stdpp Require Import base list strings.
From S2P Require Import Prelude Program Types Auth Signing AuditChain Store.

Definition WATERMARK_SYSLOG_ID : string := "sysknife-audit-tip".

(** How spawning fails, and how a process ends: its success and its [Display]. *)
Inductive SpawnError : Type := CatNotFound | SpawnOther (e : string).

Inductive JournalEffect : Type -> Type :=
| Spawn (program : string) (args : list string) : JournalEffect (result SpawnError ())
| WriteStdin (message : string) : JournalEffect (result SpawnError ())
| Wait : JournalEffect (result SpawnError (bool * string))
| WarnLine (line : string) : JournalEffect ().

Definition watermark_message (seq : N) (hash_hex : string) : string :=
  "seq=" ++ dec_of_N seq ++ " chain_hash=" ++ hash_hex.

Definition NOT_WRITTEN : string := "audit watermarks will not be written to journald".

(** [WARNED_JOURNALD_UNAVAILABLE.get_or_init(...)] *)
Definition warn_once (warned : bool) (line : string) : prog JournalEffect bool :=
  if warned then Ret true else _ ← call (WarnLine line); Ret true.

(** The process, and its standard input, which is always piped. *)
Definition run_systemd_cat (message : string) : prog JournalEffect (result SpawnError (bool * string)) :=
  child ← call (Spawn "systemd-cat" ["-t"; WATERMARK_SYSLOG_ID; "-p"; "info"]);
  match child with
  | Err e => Ret (Err e)
  | Ok _ =>
      write_result ← call (WriteStdin message);
      status ← call Wait;
      Ret (match status with
           | Err e => Err e
           | Ok status => match write_result with Err e => Err e | Ok _ => Ok status end
           end)
  end.

Definition emit_via_systemd_cat (seq : N) (hash_hex : string) (warned : bool) : prog JournalEffect bool :=
  r ← run_systemd_cat (watermark_message seq hash_hex);
  match r with
  | Ok (true, _) => Ret warned
  | Ok (false, status) =>
      warn_once warned ("sysknife-audit-tip: systemd-cat exited with " ++ status ++ "; " ++ NOT_WRITTEN)
  | Err CatNotFound => warn_once warned ("sysknife-audit-tip: systemd-cat not found on PATH; " ++ NOT_WRITTEN)
  | Err (SpawnOther e) =>
      warn_once warned ("sysknife-audit-tip: failed to spawn systemd-cat: " ++ e ++ "; " ++ NOT_WRITTEN)
  end.

Definition emit_chain_tip_watermark := emit_via_systemd_cat.

(** The watermarks of one process, in the order of its commits. *)
Fixpoint emit_all (tips : list (N * string)) (warned : bool) : prog JournalEffect bool :=
  match tips with
  | [] => Ret warned
  | (seq, hash) :: tips' => warned ← emit_chain_tip_watermark seq hash warned; emit_all tips' warned
  end.

(** ** No process is left behind, and the journal's absence is said once *)

(** What is remembered of a run: the child that was not waited for, the messages written
    to one, and the number of warnings. *)
Record Journal : Type := mkJournal { jo_child : bool; jo_written : list string; jo_warnings : nat }.

Definition jo_next (j : Journal) (ev : event JournalEffect) : Journal :=
  match ev with
  | mkEvent _ (Spawn _ _) (Ok _) => mkJournal true (jo_written j) (jo_warnings j)
  | mkEvent _ (WriteStdin m) _ => mkJournal (jo_child j) (jo_written j ++ [m]) (jo_warnings j)
  | mkEvent _ Wait _ => mkJournal false (jo_written j) (jo_warnings j)
  | mkEvent _ (WarnLine _) _ => mkJournal (jo_child j) (jo_written j) (S (jo_warnings j))
  | _ => j
  end.
Definition journal_of (j : Journal) (tr : list (event JournalEffect)) : Journal := fold_left jo_next tr j.

Lemma journal_app j tr tr' : journal_of j (tr ++ tr') = journal_of (journal_of j tr) tr'.
Proof. apply fold_left_app. Qed.

Lemma warn_once_journal warned line tr w j :
  runs (warn_once warned line) tr w ->
  w = true /\ journal_of j tr
    = mkJournal (jo_child j) (jo_written j) (jo_warnings j + (if warned then 0 else 1)).
Proof.
  unfold warn_once. destruct warned; intros H.
  - apply runs_ret_iff in H as [-> ->]. cbn. rewrite Nat.add_0_r. by destruct j.
  - apply runs_inv in H as ([] & tr' & -> & [-> ->]%runs_ret_iff). cbn. by rewrite Nat.add_1_r.
Qed.

Lemma run_cat_journal message tr r j :
  runs (run_systemd_cat message) tr r -> jo_child j = false ->
  exists written, journal_of j tr = mkJournal false (jo_written j ++ written) (jo_warnings j)
    /\ (written = [message] \/ written = [] /\ exists e, r = Err e).
Proof.
  intros H Hc. unfold run_systemd_cat in H. cbn in H.
  apply runs_inv in H as ([u|e] & tr' & -> & H).
  - apply runs_inv in H as (wr & tr'' & -> & H). apply runs_inv in H as (st & t3 & -> & [-> _]%runs_ret_iff).
    exists [message]. cbn. auto.
  - apply runs_ret_iff in H as [-> ->]. exists []. cbn. rewrite app_nil_r. destruct j; cbn in *; subst. eauto.
Qed.

Lemma emit_journal seq hash warned tr w j :
  runs (emit_chain_tip_watermark seq hash warned) tr w -> jo_child j = false ->
  exists written k, journal_of j tr = mkJournal false (jo_written j ++ written) (jo_warnings j + k)
    /\ (written = [watermark_message seq hash] \/ written = [])
    /\ (k = 0 /\ w = warned \/ k = 1 /\ warned = false /\ w = true).
Proof.
  unfold emit_chain_tip_watermark, emit_via_systemd_cat. intros H Hc.
  rewrite runs_bind in H. destruct H as (t1 & t2 & r & -> & H1 & H2).
  destruct (run_cat_journal _ _ _ j H1 Hc) as (written & E & Hw). rewrite journal_app, E.
  exists written.
  assert (Hq : runs (Ret warned) t2 w \/ exists line, runs (warn_once warned line) t2 w).
  { destruct r as [[[] st]|[|e]]; eauto. }
  destruct Hq as [[-> ->]%runs_ret_iff|[line Hq]].
  - exists 0. rewrite Nat.add_0_r. split_and!; naive_solver.
  - destruct (warn_once_journal _ _ _ _ (mkJournal false (jo_written j ++ written) (jo_warnings j)) Hq) as [-> ->].
    exists (if warned then 0 else 1). cbn. split_and!; destruct warned; naive_solver.
Qed.

(** Whatever the journal does, every process started is waited for, what is written to one
    is the message of a tip, in the chain's order, and one warning is printed at most. *)
Theorem watermarks_leave_nothing_behind tips tr w :
  runs (emit_all tips false) tr w ->
  let j := journal_of (mkJournal false [] 0) tr in
  jo_child j = false /\ jo_warnings j <= 1
  /\ jo_written j `sublist_of` map (fun t => watermark_message t.1 t.2) tips.
Proof.
  assert (G : forall tips warned j tr w, runs (emit_all tips warned) tr w -> jo_child j = false ->
    let j' := journal_of j tr in
    jo_child j' = false /\ jo_warnings j' <= jo_warnings j + (if warned then 0 else 1)
    /\ exists written, jo_written j' = jo_written j ++ written
       /\ written `sublist_of` map (fun t => watermark_message t.1 t.2) tips).
  { clear. induction tips as [|[seq hash] tips IH]; intros warned j tr w H Hc; cbn [emit_all] in H.
    - apply runs_ret_iff in H as [-> ->]. cbn. split_and!; [done|lia|]. exists []. by rewrite app_nil_r.
    - rewrite runs_bind in H. destruct H as (t1 & t2 & warned' & -> & H1 & H2). rewrite journal_app.
      destruct (emit_journal _ _ _ _ _ j H1 Hc) as (wr & k & -> & Hwr & Hk).
      destruct (IH warned' (mkJournal false (jo_written j ++ wr) (jo_warnings j + k)) t2 w H2 eq_refl)
        as (C & Wn & wr' & Ew & Hs). cbn [jo_warnings jo_written] in *.
      split_and!; [done|destruct warned, warned'; naive_solver lia|]. exists (wr ++ wr').
      rewrite Ew, app_assoc. split; [done|]. cbn [map].
      destruct Hwr as [->| ->]; cbn [app]; [by apply sublist_skip|by apply sublist_cons]. }
  intros H. destruct (G tips false (mkJournal false [] 0) tr w H eq_refl) as (C & Wn & wr & Ew & Hs).
  cbn in Ew, Wn |- *. by rewrite Ew.
Qed.

(** ** What is written is the store's tip *)

Section Tip.
Context `{StoreEnv} `{CryptoLaws}.

(** The message a commit sends names the row it added, the newest of the chain. *)
Lemma watermark_names_the_tip key now uuid t f db ins db' :
  ChainInv key db -> record_with (Some key) now uuid t f db = Ok (ins, db') ->
  (forall i d d', f i d = Ok d' -> db_transactions d' = db_transactions d) ->
  exists row, newest tx_seq (db_transactions db') = Some row
    /\ watermark_message (tx_seq row) (cr_chain_hash (tx_row row))
       = watermark_message (ins_seq ins) (ins_chain_hash ins).
Proof.
  intros I E Hf. unfold record_with in E. cbn [ok_or] in E.
  apply bind_Ok in E as (k & Ek & ((i & d) & E & Ed)%bind_Ok). simplify_eq.
  apply bind_Ok in Ed as (d' & Ed & ?). simplify_eq. rewrite (Hf _ _ _ Ed). clear Ed Hf.
  unfold insert_transaction in E.
  destruct (next_seq_and_prev_hash db) as [seq prev] eqn:En.
  case_match; [discriminate|]. injection E as <- <-. cbn [with_transactions db_transactions].
  eexists. split.
  - apply newest_snoc_greater. intros y Hy. cbn [tx_seq tx_row cr_seq].
    unfold next_seq_and_prev_hash in En. rewrite (counted_newest _ _ (ci_tx_counted _ _ I)) in En.
    pose proof (counted_bound _ _ _ (ci_tx_counted _ _ I) Hy) as B.
    destruct (last (db_transactions db)) as [z|] eqn:El.
    + injection En as <- _.
      pose proof (counted_next tx_seq _ (ci_tx_counted _ _ I)) as Nx.
      rewrite (counted_newest _ _ (ci_tx_counted _ _ I)), El in Nx. cbn in Nx. unfold tx_seq in *. cbn. lia.
    + apply last_None in El. rewrite El in Hy. by apply not_elem_of_nil in Hy.
  - reflexivity.
Qed.

End Tip.
