(* ===== verification/Postgres.v ===== *)
(** * The PostgreSQL store

    crates/sysknife-daemon/src/store/postgres.rs and pg_tls.rs: the second backend of
    the audit store, over the same tables as [Store.v]. The database is a server shared
    with others: a write transaction is a sequence of statements, each of which sees
    what was committed when it started (READ COMMITTED, the level the code leaves in
    place) and the transaction's own writes. [World] says what other transactions
    committed before each statement, and which statements fail. Row locks keep others
    from some of this; the theorems hold without relying on them. *)

From Stdlib Require Import Ascii String NArith ZArith Lia.
From stdpp Require Import base list sets strings gmap.
From S2P Require Import Prelude Types Jobs Auth Ip Signing AuditChain Store.

(** ** Errors *)

(** What sqlx reports, by what [map_sqlx_err] tells apart. *)
Inductive SqlxError : Type :=
| SqlxDatabase (code : option string) (display : string)
| SqlxDecoding (display : string)
| SqlxOther (display : string).

Inductive PgError : Type :=
| PgIo (message : string)
| PgStoreError (e : StoreError).

Definition sqlx_display (e : SqlxError) : string :=
  match e with SqlxDatabase _ d | SqlxDecoding d | SqlxOther d => d end.

Definition map_sqlx_err (e : SqlxError) : PgError :=
  let message := ("postgres: " ++ sqlx_display e)%string in
  let invariant :=
    match e with
    | SqlxDatabase (Some code) _ => String.prefix "22" code || String.prefix "23" code
    | SqlxDatabase None _ | SqlxOther _ => false
    | SqlxDecoding _ => true
    end in
  if invariant then PgStoreError (DatabaseInvariant message) else PgIo message.

(** The server's messages. *)
Class PgMessages : Type := {
  unique_violation : string -> string;
  invalid_timestamp : string -> string }.

(** ** Write transactions *)

Record World : Type := mkWorld {
  w_fail : nat -> option SqlxError;
  w_others : nat -> Db -> Db }.

Definition Tx (A : Type) : Type := World -> nat -> Db -> result PgError (A * (nat * Db)).

#[export] Instance tx_ret : MRet Tx := fun A a w n db => Ok (a, (n, db)).
#[export] Instance tx_bind : MBind Tx := fun A B f m w n db =>
  match m w n db with Err e => Err e | Ok (a, (n', db')) => f a w n' db' end.

Definition tx_err {A} (e : PgError) : Tx A := fun _ _ _ => Err e.

(** One statement: a function of the tables it sees. *)
Definition stmt {A} (f : Db -> result PgError (A * Db)) : Tx A := fun w n db =>
  match w_fail w n with
  | Some e => Err (map_sqlx_err e)
  | None => '(a, db') ← f (w_others w n db); Ok (a, (S n, db'))
  end.
Definition query {A} (f : Db -> A) : Tx A := stmt (fun db => Ok (f db, db)).

(** [pool.begin()], the body, [tx.commit()]: an error anywhere rolls it back. *)
Definition transaction {A} (body : Tx A) : Tx A :=
  _ ← query (fun _ => tt); a ← body; _ ← query (fun _ => tt); mret a.

(** An operation as the tables it leaves. *)
Definition run {A} (w : World) (op : Tx A) (db : Db) : result PgError (A * Db) :=
  match op w 0 db with Err e => Err e | Ok (a, (_, db')) => Ok (a, db') end.

(** Nobody else writes, and nothing fails. *)
Definition alone : World := mkWorld (fun _ => None) (fun _ db => db).

Section Postgres.
Context `{StoreEnv} `{Crypto} `{PgMessages}.

Definition violation (constraint_name : string) : PgError :=
  map_sqlx_err (SqlxDatabase (Some "23505") (unique_violation constraint_name)).

(** [created_at::timestamptz] over the rows a condition is evaluated on. *)
Fixpoint cast_all (rows : list TxRow) : result PgError () :=
  match rows with
  | [] => Ok tt
  | t :: rows' =>
      match julianday (cr_created_at (tx_row t)) with
      | None => Err (map_sqlx_err (SqlxDatabase (Some "22007") (invalid_timestamp (cr_created_at (tx_row t)))))
      | Some _ => cast_all rows'
      end
  end.

(** *** Appending to the chains *)

Definition next_of (prev : option (N * string)) : N * string :=
  match prev with Some (s, h) => ((s + 1)%N, h) | None => (1%N, "") end.

(** [... ORDER BY seq DESC LIMIT 1 FOR UPDATE]: the row is found among those committed when
    the statement started; waiting for its lock does not search again. *)
Definition event_tip_for_update : Tx (option (N * string)) :=
  query (fun db => (fun e => (er_seq e, er_chain_hash e)) <$> newest er_seq (db_events db)).
Definition tx_tip_for_update : Tx (option (N * string)) :=
  query (fun db => (fun t => (tx_seq t, cr_chain_hash (tx_row t))) <$> newest tx_seq (db_transactions db)).

Definition insert_event_row (row : EventRow) : Tx () := stmt (fun db =>
  if existsb (fun e => (er_seq e =? er_seq row)%N) (db_events db) then Err (violation "audit_events_pkey")
  else Ok (tt, mkDb (db_transactions db) (db_previews db) (db_approvals db) (db_events db ++ [row]))).

Definition append_event (key : AuditKey) (now : Z) (kind : AuditEventKind)
    (transaction_id receipt_digest : string) (identity : EventIdentity) : Tx () :=
  prev ← event_tip_for_update;
  let '(seq, prev_chain_hash) := next_of prev in
  let created_at := strftime_now now in
  let content := mkEventContent seq CURRENT_KEY_ID kind transaction_id receipt_digest created_at identity in
  insert_event_row (mkEventRow seq CURRENT_KEY_ID (event_as_str kind) transaction_id receipt_digest
    created_at prev_chain_hash (event_hash key content prev_chain_hash) (event_identity_version identity)
    match identity with EventV2 p => Some p | EventLegacyV1 => None end).

Definition insert_tx_row (row : ChainRow) : Tx () := stmt (fun db =>
  if existsb (fun x => (tx_id x =? cr_transaction_id row)%string) (db_transactions db)
  then Err (violation "transactions_pkey")
  else if existsb (fun x => (tx_seq x =? cr_seq row)%N) (db_transactions db)
  then Err (violation "transactions_seq_key")
  else Ok (tt, with_transactions db (db_transactions db ++ [mkTxRow row Queued]))).

Definition insert_transaction (key : AuditKey) (now : Z) (transaction_id : string) (t : NewTransaction)
    : Tx InsertedTransaction :=
  let warnings_json := warnings_to_json (nt_warnings t) in
  let created_at := strftime_now now in
  let approval_id := Some (approval_commitment key transaction_id (nt_request_hash t)) in
  prev ← tx_tip_for_update;
  let '(seq, prev_chain_hash) := next_of prev in
  event_tip ← query (fun db => default "" (event_chain_tip db));
  let caller_role := role_as_str (nt_caller_role t) in
  let caller_principal := as_signed_str (nt_caller_principal t) in
  let identity := V4 caller_role event_tip caller_principal in
  let hash := chain_hash key
    (mkContent seq CURRENT_KEY_ID transaction_id (nt_request_id t) (nt_request_hash t) (nt_action_name t)
       (nt_risk_level t) (nt_summary t) approval_id warnings_json created_at identity) prev_chain_hash in
  _ ← insert_tx_row (mkChainRow seq CURRENT_KEY_ID transaction_id (nt_request_id t)
        (nt_request_hash t) (nt_action_name t) (nt_risk_level t) (nt_summary t) approval_id
        warnings_json created_at prev_chain_hash hash (identity_version identity)
        (Some caller_role) (Some event_tip) (Some caller_principal));
  mret (mkInserted {|
    tr_transaction_id := transaction_id; tr_request_id := nt_request_id t;
    tr_request_hash := nt_request_hash t; tr_action_name := nt_action_name t;
    tr_risk_level := nt_risk_level t; tr_status := Queued; tr_approval_id := approval_id;
    tr_summary := nt_summary t; tr_warnings := nt_warnings t |} seq hash).

Definition insert_preview_row (id : string) (preview : PreviewEnvelope) : Tx () := stmt (fun db =>
  match db_previews db !! id with
  | Some _ => Err (violation "transaction_previews_pkey")
  | None => Ok (tt, mkDb (db_transactions db) (<[id := preview]> (db_previews db)) (db_approvals db) (db_events db))
  end).

(** *** The operations *)

Definition record (key : AuditKey) (now : Z) (uuid : string) (t : NewTransaction) : Tx TransactionRecord :=
  inserted ← transaction (insert_transaction key now uuid t);
  mret (ins_record inserted).

Definition record_previewed (key : AuditKey) (now : Z) (uuid : string) (t : NewTransaction)
    (preview : PreviewEnvelope) : Tx (TransactionRecord * PreviewEnvelope) :=
  inserted ← transaction (
    inserted ← insert_transaction key now uuid t;
    _ ← insert_preview_row (tr_transaction_id (ins_record inserted)) preview;
    mret inserted);
  mret (ins_record inserted, preview).

Definition get (id : string) : Tx (option TransactionRecord) :=
  row ← query (fun db => find_tx db id);
  match row with
  | None => mret None
  | Some t => match row_to_record t with Ok r => mret (Some r) | Err e => tx_err (PgStoreError e) end
  end.

Definition get_preview (id : string) : Tx (option PreviewEnvelope) :=
  query (fun db => db_previews db !! id).

(** [UPDATE transactions SET status = new WHERE p]: the number of rows changed. *)
Definition update_rows (p : TxRow -> bool) (new : JobState) : Tx nat := stmt (fun db =>
  let '(rows, n) := update_where p new (db_transactions db) in Ok (n, with_transactions db rows)).

Definition update_status (key : AuditKey) (now : Z) (id : string) (new_status : JobState) : Tx () :=
  transaction (
    current ← query (fun db => tx_status <$> find_tx db id);
    match current with
    | None => tx_err (PgStoreError (NotFound id))
    | Some current =>
        if negb (allowed_transition current new_status)
        then tx_err (PgStoreError (InvalidTransition current new_status))
        else
          _ ← update_rows (fun t => (tx_id t =? id)%string) new_status;
          append_event key now (event_of_state new_status) id "" EventLegacyV1
    end).

(** [INSERT INTO transaction_approvals ... SELECT ... ON CONFLICT DO NOTHING] *)
Definition insert_approval (now : Z) (id receipt_digest : string) : Tx nat := stmt (fun db =>
  let queued := List.filter (fun t => (tx_id t =? id)%string && bool_decide (tx_status t = Queued))
                  (db_transactions db) in
  _ ← cast_all queued;
  match find (fresh now) queued, db_approvals db !! id with
  | Some _, None => Ok (1, with_approvals db (<[id := mkApproval receipt_digest None]> (db_approvals db)))
  | _, _ => Ok (0, db)
  end).

Definition approve_transaction (key : AuditKey) (now : Z) (id : string) (approver : CallerPrincipal)
    : Tx (option string) :=
  row ← query (fun db => find_tx db id);
  match row with
  | None => mret None
  | Some t =>
      let receipt := approval_receipt key id (cr_request_hash (tx_row t)) in
      let receipt_digest := approval_receipt_digest receipt in
      let commitment_matches :=
        match cr_approval_id (tx_row t) with
        | Some committed => (receipt_digest =? committed)%string
        | None => false
        end in
      if negb commitment_matches
      then tx_err (PgStoreError (DatabaseInvariant
             ("transaction " ++ id ++ " approval commitment does not match its signed preview")%string))
      else
        n ← transaction (
          n ← insert_approval now id receipt_digest;
          _ ← (if 0 <? n then append_event key now ApprovalGranted id receipt_digest
                                 (EventV2 (as_signed_str approver))
               else mret tt);
          mret n);
        mret (if 0 <? n then Some receipt else None)
  end.

Definition revoke_unconsumed_approval_in_tx (key : AuditKey) (now : Z) (id revoker_signed : string) : Tx bool :=
  digest ← query (fun db => match db_approvals db !! id with
                            | Some (mkApproval digest None) => Some digest
                            | _ => None
                            end);
  n ← stmt (fun db => match db_approvals db !! id with
                      | Some (mkApproval _ None) => Ok (1, with_approvals db (delete id (db_approvals db)))
                      | _ => Ok (0, db)
                      end);
  if 0 <? n then
    match digest with
    | None => tx_err (PgStoreError (DatabaseInvariant
        ("revoked an approval for " ++ id ++ " that had no receipt digest")%string))
    | Some digest =>
        _ ← append_event key now ApprovalRevoked id digest (EventV2 revoker_signed); mret true
    end
  else mret false.

Definition revoke_unconsumed_approval (key : AuditKey) (now : Z) (id : string) (revoker : CallerPrincipal)
    : Tx bool :=
  transaction (revoke_unconsumed_approval_in_tx key now id (as_signed_str revoker)).

(** The conditional [UPDATE] that claims. *)
Definition claim_row (now : Z) (id receipt_digest : string) : Tx nat := stmt (fun db =>
  _ ← cast_all (List.filter (fun t => (tx_id t =? id)%string && bool_decide (tx_status t = Queued))
                  (db_transactions db));
  let approved := match db_approvals db !! id with
                  | Some (mkApproval digest None) => (digest =? receipt_digest)%string
                  | _ => false
                  end in
  let '(rows, n) := update_where
    (fun t => (tx_id t =? id)%string && bool_decide (tx_status t = Queued) && fresh now t && approved)
    Running (db_transactions db) in
  Ok (n, with_transactions db rows)).

(** [UPDATE transaction_approvals SET consumed_at ... AND consumed_at IS NULL] *)
Definition consume_approval (now : Z) (id : string) : Tx () := stmt (fun db =>
  Ok (tt, with_approvals db (alter (fun a =>
    match ap_consumed_at a with
    | None => mkApproval (ap_receipt_digest a) (Some now)
    | Some _ => a
    end) id (db_approvals db)))).

Definition claim_approved_for_execution (key : AuditKey) (now : Z) (id receipt_digest : string)
    (executor : CallerPrincipal) : Tx bool :=
  transaction (
    n ← claim_row now id receipt_digest;
    _ ← (if 0 <? n then
           _ ← consume_approval now id;
           _ ← append_event key now ApprovalConsumed id receipt_digest (EventV2 (as_signed_str executor));
           append_event key now StatusRunning id "" EventLegacyV1
         else mret tt);
    mret (0 <? n)).

(** One still-queued row to Canceled, with its revocation and its event: the body of
    [cancel_queued] and of the loop of [cleanup_stale_queued]. *)
Definition cancel_in_tx (key : AuditKey) (now : Z) (signed id : string) : Tx nat :=
  n ← update_rows (fun t => (tx_id t =? id)%string && bool_decide (tx_status t = Queued)) Canceled;
  _ ← (if 0 <? n then
         _ ← revoke_unconsumed_approval_in_tx key now id signed;
         append_event key now StatusCanceled id "" EventLegacyV1
       else mret tt);
  mret n.

Definition cancel_queued (key : AuditKey) (now : Z) (id : string) (canceller : CallerPrincipal) : Tx bool :=
  n ← transaction (cancel_in_tx key now (as_signed_str canceller) id);
  mret (0 <? n).

Definition stale_queued (now : Z) : Tx (list string) := stmt (fun db =>
  let queued := List.filter (fun t => bool_decide (tx_status t = Queued)) (db_transactions db) in
  _ ← cast_all queued;
  Ok (map tx_id (List.filter (stale now) queued), db)).

Fixpoint cancel_all (key : AuditKey) (now : Z) (ids : list string) (canceled_count : nat) : Tx nat :=
  match ids with
  | [] => mret canceled_count
  | id :: ids' =>
      n ← cancel_in_tx key now (as_signed_str Unattributed) id;
      cancel_all key now ids' (canceled_count + n)
  end.

Definition cleanup_stale_queued (key : AuditKey) (now : Z) : Tx nat :=
  transaction (
    stale_ids ← stale_queued now;
    cancel_all key now stale_ids 0).

(** *** History *)

Definition history_rows (now : Z) (limit : nat) (status_filter action_filter : option string)
    (since : option HistorySince) : Tx (list TxRow) :=
  match (match status_filter with
         | None => Ok None
         | Some s => st ← ok_or JsonError (state_from_json s); Ok (Some st)
         end) with
  | Err e => tx_err (PgStoreError e)
  | Ok status =>
      stmt (fun db =>
        let named t :=
          (match status with Some s => bool_decide (tx_status t = s) | None => true end)
          && (match action_filter with
              | Some a => (cr_action_name (tx_row t) =? a)%string
              | None => true
              end) in
        let rows := List.filter named (db_transactions db) in
        _ ← match since with Some _ => cast_all rows | None => Ok tt end;
        Ok (take (Nat.min limit 100) (rev (order_by_seq tx_seq (List.filter (since_ok now since) rows))), db))
  end.

Definition list_transactions (now : Z) (limit : nat) (status_filter action_filter : option string)
    (since : option HistorySince) : Tx (list TransactionRecord) :=
  rows ← history_rows now limit status_filter action_filter since;
  match fold_right (fun t acc => r ← row_to_record t; rs ← acc; Ok (r :: rs)) (Ok []) rows with
  | Ok records => mret records
  | Err e => tx_err (PgStoreError e)
  end.

Definition row_to_history_entry (t : TxRow) : JobHistoryEntry :=
  mkHistory (tx_id t) (cr_action_name (tx_row t)) (cr_risk_level (tx_row t)) (tx_status t)
    (cr_summary (tx_row t)) (cr_created_at (tx_row t)).

Definition list_history (now : Z) (limit : nat) (status_filter action_filter : option string)
    (since : option HistorySince) : Tx (list JobHistoryEntry) :=
  rows ← history_rows now limit status_filter action_filter since;
  mret (map row_to_history_entry rows).

(** *** Verification *)

Definition fetch_chain_rows : Tx (list ChainRow) :=
  query (fun db => map tx_row (order_by_seq tx_seq (db_transactions db))).
Definition fetch_event_rows : Tx (list EventRow) := query (fun db => order_by_seq er_seq (db_events db)).
Definition fetch_chain_row (id : string) : Tx (option ChainRow) :=
  query (fun db => tx_row <$> find_tx db id).

Definition verify_audit_chain (key : AuditKey) : Tx VerifyOutcome :=
  rows ← fetch_chain_rows; mret (verify_chain key rows).

(** [kind LIKE 'status_%']: PostgreSQL's LIKE heeds the case. *)
Definition like_status (kind : string) : bool := starts_with "status" kind && (7 <=? String.length kind).

Definition newest_status_event (db : Db) (id : string) : option string :=
  er_kind <$> newest er_seq
    (List.filter (fun e => (er_transaction_id e =? id)%string && like_status (er_kind e)) (db_events db)).

(** [events_present] and [boundary_present]: what the catalogue of the database says;
    [predates] is the boundary column, where there is one. *)
Definition status_matches_chain (events_present boundary_present : bool) (predates : string -> bool)
    : Tx StatusOutcome :=
  evidence ← query (fun db => map (fun t =>
    mkEvidence (tx_id t) (tx_status t)
      (if events_present then newest_status_event db (tx_id t) else None)
      (if events_present then approval_consumed db (tx_id t) else false)
      (if boundary_present then predates (tx_id t) else true)) (db_transactions db));
  mret (status_outcome evidence).

End Postgres.

(** ** Schema migrations *)

Definition MIGRATIONS : list (N * string) :=
  [(1%N, "initial_audit_schema"); (2%N, "caller_identity_and_approval_events");
   (3%N, "caller_principal"); (4%N, "event_approver_identity"); (5%N, "status_event_boundary")].

Definition initialize (applied : list (N * string)) : result PgError (list (N * string)) :=
  let current := fold_left (fun m v => N.max m v.1) applied 0%N in
  let latest := match last MIGRATIONS with Some m => m.1 | None => 0%N end in
  if (latest <? current)%N then
    Err (PgStoreError (DatabaseInvariant
      ("postgres schema version " ++ dec_of_N current ++ " is newer than this binary supports ("
       ++ dec_of_N latest ++ ")")%string))
  else Ok (applied ++ List.filter (fun m => (current <? m.1)%N) MIGRATIONS).

(** ** Transport security (pg_tls.rs) *)

Inductive PgSslMode : Type := SslDisable | SslAllow | SslPrefer | SslRequire | SslVerifyCa | SslVerifyFull.

Record PgConnectOptions : Type := mkPgOptions {
  pgo_socket : option string; pgo_host : string; pgo_ssl_mode : PgSslMode }.

Definition ssl_mode_debug (m : PgSslMode) : string :=
  match m with
  | SslDisable => "Disable" | SslAllow => "Allow" | SslPrefer => "Prefer" | SslRequire => "Require"
  | SslVerifyCa => "VerifyCa" | SslVerifyFull => "VerifyFull"
  end.

(** [Ipv4Addr::from_str]: no longer than an address can be, and all of it read. *)
Definition parse_ipv4 (s : string) : option (list N) :=
  if 15 <? String.length s then None
  else match read_ipv4_addr s with Some (octets, "") => Some octets | _ => None end.

Definition is_loopback (host : string) : bool :=
  let normalized := to_lower (trim_end_while (Ascii.eqb ".") host) in
  if (normalized =? "localhost")%string || (normalized =? "[::1]")%string then true
  else match parse_ipv4 host with
       | Some octets => match octets with a :: _ => (a =? 127)%N | [] => false end
       | None => false
       end.

Definition require_tls_for_remote (opts : PgConnectOptions) : result text () :=
  match pgo_socket opts with
  | Some _ => Ok tt
  | None =>
      if is_loopback (pgo_host opts) then Ok tt
      else
        match pgo_ssl_mode opts with
        | SslVerifyCa | SslVerifyFull => Ok tt
        | insecure => Err [Lit "refusing a Postgres connection to "; Dbg (pgo_host opts);
            Lit (" with sslmode=" ++ ssl_mode_debug insecure
              ++ ": it does not authenticate the server (disable/allow/prefer can downgrade to plaintext; require "
              ++ "completes TLS against any certificate, so an active man-in-the-middle can present a "
              ++ "self-signed cert and read the database credential). Add ?sslmode=verify-full "
              ++ "(recommended) or at least ?sslmode=verify-ca to the URL.")%string]
        end
  end.

(** ** Alone, the two backends agree *)

(** The same tables and the same answer, or an error from both. *)
Definition agrees {A} (p : result PgError (A * Db)) (s : result StoreError (A * Db)) : Prop :=
  match p, s with
  | Ok x, Ok y => x = y
  | Err _, Err _ => True
  | _, _ => False
  end.

(** What every row of the daemon's has: a time stamp that can be read back, and warnings that can. *)
Definition readable `{StoreEnv} (r : ChainRow) : Prop :=
  is_Some (julianday (cr_created_at r)) /\ is_Some (warnings_from_json (cr_warnings_json r)).

Section Readable.
Context `{StoreEnvLaws} `{CryptoLaws}.
Variable key : AuditKey.

Lemma update_where_rows p new rows : map tx_row (update_where p new rows).1 = map tx_row rows.
Proof. rewrite update_where_spec. by apply map_set_status_id. Qed.

Lemma revoke_rows now id signed db :
  map tx_row (db_transactions (Store.revoke_unconsumed_approval_in_tx key now id signed db).2)
  = map tx_row (db_transactions db).
Proof. unfold Store.revoke_unconsumed_approval_in_tx. by repeat case_match. Qed.

Lemma cancel_rows now signed id db :
  map tx_row (db_transactions (Store.cancel_in_tx key now signed id db).2) = map tx_row (db_transactions db).
Proof.
  unfold Store.cancel_in_tx. pose proof (update_where_rows
    (fun t => (tx_id t =? id)%string && bool_decide (tx_status t = Queued)) Canceled (db_transactions db)) as E.
  destruct (update_where _ _ _) as [rows n]. destruct (n =? 0); [done|].
  pose proof (revoke_rows now id signed (with_transactions db rows)) as E'.
  destruct (Store.revoke_unconsumed_approval_in_tx _ _ _ _ _) as [b db']. cbn in *. by rewrite E'.
Qed.

Lemma cleanup_rows now ids c db :
  map tx_row (db_transactions (fold_left (fun '(canceled, db) id =>
    let '(n, db) := Store.cancel_in_tx key now (as_signed_str Unattributed) id db in
    (canceled + n, db)) ids (c, db)).2) = map tx_row (db_transactions db).
Proof.
  revert c db. induction ids as [|id ids IH]; intros c db; [done|]. cbn [fold_left].
  pose proof (cancel_rows now (as_signed_str Unattributed) id db) as E.
  destruct (Store.cancel_in_tx _ _ _ _ _) as [n db1]. by rewrite IH.
Qed.

(** A row is only ever added by recording it. *)
Lemma step_rows db db' :
  step key db db' ->
  map tx_row (db_transactions db') = map tx_row (db_transactions db)
  \/ exists r, map tx_row (db_transactions db') = map tx_row (db_transactions db) ++ [r] /\ readable r.
Proof.
  assert (Hins : forall now uuid t db ins db', Store.insert_transaction key now uuid t db = Ok (ins, db') ->
    exists r, map tx_row (db_transactions db') = map tx_row (db_transactions db) ++ [r] /\ readable r).
  { intros now uuid t d ins d' E. unfold Store.insert_transaction in E.
    destruct (next_seq_and_prev_hash d). destruct (existsb _ _); [done|]. injection E as <- <-.
    eexists. cbn [with_transactions db_transactions]. rewrite map_app. split; [reflexivity|].
    split; cbn; [rewrite julianday_now|rewrite warnings_roundtrip]; eauto. }
  destruct 1 as [now uuid t r db db' E|now uuid t p r db db' E|now id who r db db' E|now id who b db db' E
    |now id dg who b db db' E|now id new db db' _ E|now n db db' E|now id who b db db' E].
  - unfold Store.record, record_with in E. cbn in E. apply bind_Ok in E as ((i & d) & E & E'). simplify_eq.
    apply bind_Ok in E as ((i' & d') & E & E'). cbn in E'. simplify_eq. right. eauto.
  - unfold Store.record_previewed, record_with in E. cbn in E. apply bind_Ok in E as ((i & d) & E & E'). simplify_eq.
    apply bind_Ok in E as ((i' & d') & E & E'). apply bind_Ok in E' as (d2 & Ep & E'). simplify_eq.
    right. unfold insert_preview in Ep. case_match; [done|]. simplify_eq. cbn. eauto.
  - left. unfold Store.approve_transaction in E. cbn [ok_or mbind result_bind] in E.
    apply bind_Ok in E as ([rec|] & _ & E); [|by simplify_eq]. repeat (case_match; simplify_eq; try done).
  - left. unfold Store.revoke_unconsumed_approval in E. cbn in E.
    pose proof (revoke_rows now id (as_signed_str who) db) as Er. by rewrite <- Er; simplify_eq; rewrite E.
  - left. unfold Store.claim_approved_for_execution in E. cbn in E.
    match type of E with context [update_where ?p ?s ?l] =>
      pose proof (update_where_rows p s l) as Er; destruct (update_where p s l) as [rows n] end.
    by destruct (n =? 0); simplify_eq.
  - left. unfold cas_status in E.
    match type of E with context [update_where ?p ?s ?l] =>
      pose proof (update_where_rows p s l) as Er; destruct (update_where p s l) as [rows n] end.
    cbn in E. by destruct (n =? 0); simplify_eq.
  - left. unfold Store.cleanup_stale_queued in E. cbn [ok_or mbind result_bind] in E. injection E as E.
    match type of E with fold_left _ ?ids _ = _ => pose proof (cleanup_rows now ids 0 db) as Er end.
    rewrite E in Er. exact Er.
  - left. unfold Store.cancel_queued in E. cbn in E.
    pose proof (cancel_rows now (as_signed_str who) id db) as Er.
    destruct (Store.cancel_in_tx _ _ _ _ _) as [n d]. by simplify_eq.
Qed.

Lemma reachable_readable db : reachable key db -> Forall readable (map tx_row (db_transactions db)).
Proof.
  induction 1 as [|db db' _ IH Hs]; [constructor|].
  apply step_rows in Hs as [->|(r & -> & Hr)]; [done|]. by apply Forall_app_2; [|apply Forall_singleton].
Qed.

End Readable.

(** *** The operations, one by one *)

Section Alone.
Context `{StoreEnvLaws} `{CryptoLaws} `{PgMessages}.
Variable key : AuditKey.

Lemma tx_bind_eq {A B} (m : Tx A) (f : A -> Tx B) w n db :
  (m ≫= f) w n db = match m w n db with Err e => Err e | Ok (a, (n', db')) => f a w n' db' end.
Proof. reflexivity. Qed.
Lemma stmt_alone {A} (f : Db -> result PgError (A * Db)) n db :
  stmt f alone n db = match f db with Err e => Err e | Ok (a, db') => Ok (a, (S n, db')) end.
Proof. unfold stmt. cbn. by destruct (f db) as [[]|]. Qed.
Lemma query_alone {A} (f : Db -> A) n db : query f alone n db = Ok (f db, (S n, db)).
Proof. reflexivity. Qed.

Lemma counted_fresh {A} (seq_of : A -> N) l :
  counted seq_of l ->
  existsb (fun x => (seq_of x =? default 0 (seq_of <$> newest seq_of l) + 1)%N) l = false.
Proof.
  intros Hc. rewrite counted_next by done. apply not_true_iff_false. intros (x & Hx & E)%existsb_exists.
  apply list_elem_of_In in Hx. apply N.eqb_eq in E. apply (counted_bound _ _ _ Hc) in Hx. lia.
Qed.

Lemma next_of_newest {A} (seq_of : A -> N) (hash_of : A -> string) (o : option A) :
  next_of ((fun x => (seq_of x, hash_of x)) <$> o)
  = ((default 0 (seq_of <$> o) + 1)%N, default "" (hash_of <$> o)).
Proof. by destruct o. Qed.

Lemma append_event_alone now kind id digest identity n db :
  counted er_seq (db_events db) ->
  append_event key now kind id digest identity alone n db
  = Ok (tt, (S (S n), Store.append_event key now kind id digest identity db)).
Proof.
  intros Hc. unfold append_event, event_tip_for_update. rewrite tx_bind_eq, query_alone, next_of_newest.
  unfold insert_event_row. rewrite stmt_alone. cbn [er_seq]. rewrite counted_fresh by done. reflexivity.
Qed.

Lemma insert_transaction_alone now uuid t n db :
  counted tx_seq (db_transactions db) ->
  match insert_transaction key now uuid t alone n db, Store.insert_transaction key now uuid t db with
  | Ok (a, (_, db')), Ok (b, db'') => a = b /\ db' = db''
  | Err _, Err _ => True
  | _, _ => False
  end.
Proof.
  intros Hc. unfold insert_transaction, Store.insert_transaction, tx_tip_for_update.
  rewrite tx_bind_eq, query_alone, (next_of_newest tx_seq (fun t => cr_chain_hash (tx_row t))), tx_bind_eq, query_alone, tx_bind_eq.
  assert (En : next_seq_and_prev_hash db
    = ((default 0 (tx_seq <$> newest tx_seq (db_transactions db)) + 1)%N,
       default "" ((fun t => cr_chain_hash (tx_row t)) <$> newest tx_seq (db_transactions db)))).
  { unfold next_seq_and_prev_hash. by destruct (newest _ _). }
  rewrite En. unfold insert_tx_row. rewrite stmt_alone. cbn [cr_transaction_id cr_seq].
  rewrite counted_fresh by done.
  destruct (existsb (fun x => (tx_id x =? uuid)%string) (db_transactions db)); cbn; [done|]. done.
Qed.

(** [m], alone, does to [db] what [s] says. *)
Definition matches {A} (m : Tx A) (db : Db) (s : result StoreError (A * Db)) : Prop :=
  forall n, match m alone n db, s with
            | Ok (a, (_, db')), Ok y => (a, db') = y
            | Err _, Err _ => True
            | _, _ => False
            end.

Lemma matches_agrees {A} (m : Tx A) db s : matches m db s -> agrees (run alone m db) s.
Proof. intros Hm. specialize (Hm 0). unfold run, agrees. by destruct (m alone 0 db) as [[a [n db']]|]. Qed.

Lemma matches_bind {A B} (m : Tx A) (f : A -> Tx B) db s (g : A -> Db -> result StoreError (B * Db)) :
  matches m db s -> (forall a db', s = Ok (a, db') -> matches (f a) db' (g a db')) ->
  matches (m ≫= f) db (match s with Ok (a, db') => g a db' | Err e => Err e end).
Proof.
  intros Hm Hf n. rewrite tx_bind_eq. specialize (Hm n).
  destruct (m alone n db) as [[a [n' db']]|], s as [[b db'']|]; try done. simplify_eq. by apply Hf.
Qed.

Lemma matches_ret {A} (a : A) db : matches (mret a) db (Ok (a, db)).
Proof. by intros n. Qed.
Lemma matches_query {A} (f : Db -> A) db : matches (query f) db (Ok (f db, db)).
Proof. by intros n. Qed.
Lemma matches_err {A} e e' db : matches (tx_err (A := A) e) db (Err e').
Proof. by intros n. Qed.
Lemma matches_stmt {A} (f : Db -> result PgError (A * Db)) db s :
  agrees (f db) s -> matches (stmt f) db s.
Proof. intros Ha n. rewrite stmt_alone. unfold agrees in Ha. by destruct (f db) as [[a db']|], s as [[b db'']|]. Qed.

Lemma matches_eq {A} (m : Tx A) db s s' : matches m db s -> s = s' -> matches m db s'.
Proof. by intros ? <-. Qed.

Lemma matches_transaction {A} (m : Tx A) db s : matches m db s -> matches (transaction m) db s.
Proof.
  intros Hm n. unfold transaction. rewrite tx_bind_eq, query_alone, tx_bind_eq. specialize (Hm (S n)).
  destruct (m alone (S n) db) as [[a [n' db']]|]; [|done]. rewrite tx_bind_eq, query_alone. exact Hm.
Qed.

Lemma append_matches now kind id digest identity db :
  counted er_seq (db_events db) ->
  matches (append_event key now kind id digest identity) db
    (Ok (tt, Store.append_event key now kind id digest identity db)).
Proof. intros Hc n. by rewrite append_event_alone. Qed.

Lemma append_counted now kind id digest identity db :
  counted er_seq (db_events db) ->
  counted er_seq (db_events (Store.append_event key now kind id digest identity db)).
Proof.
  intros Hc. destruct (append_event_row key now kind id digest identity db) as (row & -> & Es & _).
  apply counted_snoc. split; [done|]. rewrite Es. unfold next_event_seq. by apply counted_next.
Qed.

(** **** Recording *)

Lemma insert_matches now uuid t db :
  counted tx_seq (db_transactions db) ->
  matches (insert_transaction key now uuid t) db (Store.insert_transaction key now uuid t db).
Proof.
  intros Hc n. pose proof (insert_transaction_alone now uuid t n db Hc) as Hi.
  destruct (insert_transaction _ _ _ _ _ _ _) as [[a [n' db']]|], (Store.insert_transaction _ _ _ _ _) as [[b db'']|];
    try done. by destruct Hi as [-> ->].
Qed.

Lemma record_matches now uuid t db :
  counted tx_seq (db_transactions db) ->
  matches (record key now uuid t) db (Store.record (Some key) now uuid t db).
Proof.
  intros Hc. eapply matches_eq.
  - eapply (matches_bind _ _ _ _ (fun i db' => Ok (ins_record i, db'))); [|intros; apply matches_ret].
    by apply matches_transaction, insert_matches.
  - unfold Store.record, record_with. cbn [ok_or mbind result_bind].
    by destruct (Store.insert_transaction _ _ _ _ _) as [[]|].
Qed.

Lemma record_previewed_matches now uuid t p db :
  counted tx_seq (db_transactions db) ->
  matches (record_previewed key now uuid t p) db (Store.record_previewed (Some key) now uuid t p db).
Proof.
  intros Hc. eapply matches_eq.
  - eapply (matches_bind _ _ _ _ (fun i db' => Ok ((ins_record i, p), db'))); [|intros; apply matches_ret].
    apply matches_transaction.
    eapply (matches_bind _ _ _ _ (fun i db' =>
      match insert_preview (tr_transaction_id (ins_record i)) p db' with Ok d => Ok (i, d) | Err e => Err e end));
      [by apply insert_matches|].
    intros i db' _. eapply matches_eq;
      [eapply (matches_bind _ _ _ (d ← insert_preview (tr_transaction_id (ins_record i)) p db'; Ok (tt, d))
                (fun _ d => Ok (i, d)))|].
    + apply matches_stmt. unfold insert_preview. by destruct (db_previews db' !! _).
    + intros; apply matches_ret.
    + unfold insert_preview. by destruct (db_previews db' !! _).
  - unfold Store.record_previewed, record_with. cbn [ok_or mbind result_bind].
    destruct (Store.insert_transaction _ _ _ _ _) as [[i db']|]; [|done].
    cbn [mbind result_bind]. by destruct (insert_preview _ _ _).
Qed.

(** **** Status *)

Lemma own_row db id t t' :
  NoDup (map tx_id (db_transactions db)) -> find_tx db id = Some t -> t' ∈ db_transactions db ->
  tx_id t' = id -> t' = t.
Proof. intros Hnd Hf Hin <-. rewrite find_tx_elem in Hf by done. by simplify_eq. Qed.

Lemma update_status_matches now id new db :
  ChainInv key db ->
  matches (update_status key now id new) db (d ← Store.update_status (Some key) now id new db; Ok (tt, d)).
Proof.
  intros HC. unfold update_status, Store.update_status, read_transition. apply matches_transaction.
  eapply matches_eq; [eapply (matches_bind _ _ _ _ (fun current db' =>
    match current with
    | None => Err (NotFound id)
    | Some current =>
        if negb (allowed_transition current new) then Err (InvalidTransition current new)
        else d ← cas_status (Some key) now id current new db'; Ok (tt, d)
    end)); [apply matches_query|]|].
  - intros current db' E. simplify_eq. destruct (find_tx db' id) as [t|] eqn:Ef; cbn [fmap option_fmap option_map];
      [|apply matches_err].
    destruct (allowed_transition (tx_status t) new); cbn [negb]; [|apply matches_err].
    pose proof Ef as [Hin Hid]%find_tx_Some.
    assert (Eu : update_where (fun x => (tx_id x =? id)%string && bool_decide (tx_status x = tx_status t)) new
                   (db_transactions db')
                 = update_where (fun x => (tx_id x =? id)%string) new (db_transactions db')).
    { assert (Hs : forall x, x ∈ db_transactions db' ->
        (tx_id x =? id)%string && bool_decide (tx_status x = tx_status t) = (tx_id x =? id)%string).
      { intros x Hx. destruct (String.eqb_spec (tx_id x) id) as [Ex|]; [|done].
        rewrite (own_row db' id t x (ci_ids _ _ HC) Ef Hx Ex). by rewrite bool_decide_eq_true_2. }
      rewrite !update_where_spec. f_equal.
      - apply map_ext_in. intros x Hx. rewrite Hs by (by apply list_elem_of_In). done.
      - f_equal. apply filter_ext_in. intros x Hx. apply Hs. by apply list_elem_of_In. }
    unfold cas_status. rewrite Eu. clear Eu.
    pose proof (update_where_rows (fun x => (tx_id x =? id)%string) new (db_transactions db')) as Er.
    assert (Hn : (update_where (fun x => (tx_id x =? id)%string) new (db_transactions db')).2 <> 0).
    { rewrite update_where_spec. cbn. intros En. apply length_zero_iff_nil in En.
      assert (Hx : In t (List.filter (fun x => (tx_id x =? id)%string) (db_transactions db'))).
      { apply filter_In. split; [by apply list_elem_of_In|by apply String.eqb_eq]. }
      by rewrite En in Hx. }
    destruct (update_where _ _ _) as [rows m] eqn:Em. cbn [fst snd] in *.
    rewrite (proj2 (Nat.eqb_neq m 0) Hn). cbn [ok_or mbind result_bind].
    eapply matches_eq.
    + eapply (matches_bind _ _ _ (Ok (m, with_transactions db' rows)) (fun _ d =>
        Ok (tt, Store.append_event key now (event_of_state new) id "" EventLegacyV1 d))).
      * apply matches_stmt. unfold agrees. by rewrite Em.
      * intros a d E. simplify_eq. apply append_matches. exact (ci_ev_counted _ _ HC).
    + reflexivity.
  - cbv beta. destruct (find_tx db id) as [t|]; [|done]. cbn [ok_or mbind result_bind fmap option_fmap option_map].
    destruct (allowed_transition _ _); reflexivity.
Qed.

(** **** Approvals *)

Lemma cast_all_ok rows : Forall readable (map tx_row rows) -> cast_all rows = Ok tt.
Proof.
  induction rows as [|t rows IH]; [done|]. intros [[[c Hc] _] Hr]%Forall_cons. cbn. rewrite Hc. by apply IH.
Qed.
Lemma readable_filter p rows :
  Forall readable (map tx_row rows) -> Forall readable (map tx_row (List.filter p rows)).
Proof.
  rewrite !Forall_forall. intros Hr r (t & -> & Ht)%list_elem_of_fmap. apply Hr. apply list_elem_of_fmap_2.
  apply list_elem_of_In, filter_In in Ht as [Ht _]. by apply list_elem_of_In.
Qed.

Lemma find_filter {A} (p q : A -> bool) l : find q (List.filter p l) = find (fun x => p x && q x) l.
Proof. induction l as [|x l IH]; [done|]. cbn. destruct (p x); cbn; [by rewrite IH|done]. Qed.
Lemma filter_filter {A} (p q : A -> bool) l :
  List.filter q (List.filter p l) = List.filter (fun x => p x && q x) l.
Proof. induction l as [|x l IH]; [done|]. cbn. destruct (p x); cbn; [by rewrite IH|done]. Qed.
Lemma find_andb_const {A} (p : A -> bool) b l :
  find (fun x => p x && b) l = if b then find p l else None.
Proof.
  induction l as [|x l IH]; cbn; [by destruct b|]. rewrite IH. destruct b; [by rewrite andb_true_r|].
  by rewrite andb_false_r.
Qed.

Lemma approve_matches now id who db :
  ChainInv key db -> Forall readable (map tx_row (db_transactions db)) ->
  matches (approve_transaction key now id who) db (Store.approve_transaction (Some key) now id who db).
Proof.
  intros HC Hr. unfold approve_transaction, Store.approve_transaction. cbn [ok_or mbind result_bind].
  eapply matches_eq; [eapply (matches_bind _ _ _ _ (fun row db' =>
    match row with
    | None => Ok (None, db')
    | Some t => Store.approve_transaction (Some key) now id who db'
    end)); [apply matches_query|]|].
  - intros row db' E. simplify_eq. destruct (find_tx db' id) as [t|] eqn:Ef; [|apply matches_ret].
    unfold Store.approve_transaction, Store.get, row_to_record. cbn [ok_or mbind result_bind]. rewrite Ef.
    pose proof Ef as [Hin Hid]%find_tx_Some.
    assert (Ht : readable (tx_row t)).
    { rewrite Forall_forall in Hr. apply Hr. by apply list_elem_of_fmap_2. }
    destruct Ht as [_ [ws Hw]]. rewrite Hw. cbn [ok_or mbind result_bind tr_request_hash tr_approval_id].
    destruct (cr_approval_id (tx_row t)) as [committed|]; [|apply matches_err].
    destruct (approval_receipt_digest _ =? committed)%string; cbn [negb]; [|apply matches_err].
    set (digest := approval_receipt_digest _).
    rewrite (find_andb_const (fun t => (tx_id t =? id)%string && bool_decide (tx_status t = Queued) && fresh now t)).
    rewrite <- (find_filter (fun t => (tx_id t =? id)%string && bool_decide (tx_status t = Queued)) (fresh now)).
    set (granted := Store.append_event key now ApprovalGranted id digest (EventV2 (as_signed_str who))
      (with_approvals db' (<[id:=mkApproval digest None]> (db_approvals db')))).
    set (ok := find (fresh now) _).
    eapply matches_eq; [eapply (matches_bind _ _ _ (Ok (match ok, db_approvals db' !! id with
        | Some _, None => (1, granted) | _, _ => (0, db') end))
        (fun n d => Ok (if 0 <? n then Some (approval_receipt key id (cr_request_hash (tx_row t))) else None, d)))|].
    + apply matches_transaction.
      eapply matches_eq; [eapply (matches_bind _ _ _ (Ok (match ok, db_approvals db' !! id with
        | Some _, None => (1, with_approvals db' (<[id:=mkApproval digest None]> (db_approvals db')))
        | _, _ => (0, db') end))
        (fun n d => Ok (n, if 0 <? n then Store.append_event key now ApprovalGranted id digest
                             (EventV2 (as_signed_str who)) d else d)))|].
      * apply matches_stmt. unfold agrees. rewrite cast_all_ok by (by apply readable_filter). cbn [mbind result_bind].
        fold ok. by destruct ok, (db_approvals db' !! id).
      * intros n d E. eapply matches_eq; [eapply (matches_bind _ _ _ (Ok (tt, if 0 <? n then _ else d)) (fun _ d => Ok (n, d)));
          [|intros; apply matches_ret]|reflexivity].
        destruct (0 <? n); [|apply matches_ret]. apply append_matches.
        destruct ok, (db_approvals db' !! id); simplify_eq; exact (ci_ev_counted _ _ HC).
      * by destruct ok, (db_approvals db' !! id).
    + intros; apply matches_ret.
    + destruct ok, (db_approvals db' !! id); try done; by rewrite ?bool_decide_eq_false_2.
  - cbv beta. unfold Store.get. destruct (find_tx db id) eqn:Ef; [|done]. unfold Store.approve_transaction, Store.get.
    cbn [ok_or mbind result_bind]. by rewrite Ef.
Qed.

Lemma revoke_matches now id signed db :
  counted er_seq (db_events db) ->
  matches (revoke_unconsumed_approval_in_tx key now id signed) db
    (Ok (Store.revoke_unconsumed_approval_in_tx key now id signed db)).
Proof.
  intros Hc n. unfold revoke_unconsumed_approval_in_tx, Store.revoke_unconsumed_approval_in_tx.
  rewrite tx_bind_eq, query_alone, tx_bind_eq, stmt_alone.
  destruct (db_approvals db !! id) as [[d [x|]]|]; [done| |done].
  cbn [Nat.ltb Nat.leb]. rewrite tx_bind_eq, append_event_alone by done. done.
Qed.

Lemma revoke_counted now id signed db :
  counted er_seq (db_events db) ->
  counted er_seq (db_events (Store.revoke_unconsumed_approval_in_tx key now id signed db).2).
Proof.
  intros Hc. unfold Store.revoke_unconsumed_approval_in_tx.
  destruct (db_approvals db !! id) as [[d [x|]]|]; [done| |done]. by apply append_counted.
Qed.

Lemma update_where_none p new rows rows' : update_where p new rows = (rows', 0) -> rows' = rows.
Proof.
  revert rows'. induction rows as [|t rows IH]; intros rows' E; cbn in E; [by simplify_eq|].
  destruct (update_where p new rows) as [r n]. destruct (p t); simplify_eq. by rewrite (IH r).
Qed.
Lemma with_transactions_same db : with_transactions db (db_transactions db) = db.
Proof. by destruct db. Qed.

Lemma cancel_matches now signed id db :
  counted er_seq (db_events db) ->
  matches (cancel_in_tx key now signed id) db (Ok (Store.cancel_in_tx key now signed id db)).
Proof.
  intros Hc. unfold cancel_in_tx, Store.cancel_in_tx.
  destruct (update_where _ _ _) as [rows m] eqn:Eu.
  eapply matches_eq; [eapply (matches_bind _ _ _ (Ok (m, with_transactions db rows)) (fun n d =>
    Ok (n, if 0 <? n then Store.append_event key now StatusCanceled id "" EventLegacyV1
                            (Store.revoke_unconsumed_approval_in_tx key now id signed d).2 else d)))|].
  - apply matches_stmt. unfold agrees. by rewrite Eu.
  - intros n d E. simplify_eq.
    eapply matches_eq; [eapply (matches_bind _ _ _ (Ok (tt, if 0 <? n then _ else _)) (fun _ d => Ok (n, d)));
      [|intros; apply matches_ret]|reflexivity].
    destruct (0 <? n); [|apply matches_ret].
    eapply matches_eq; [eapply (matches_bind _ _ _ _ (fun _ d =>
      Ok (tt, Store.append_event key now StatusCanceled id "" EventLegacyV1 d)));
      [by apply revoke_matches|]|].
    + intros b d E. injection E as E. apply append_matches.
      pose proof (revoke_counted now id signed (with_transactions db rows) Hc) as Hr. by rewrite E in Hr.
    + by destruct (Store.revoke_unconsumed_approval_in_tx _ _ _ _ _).
  - destruct m as [|m]; cbn [Nat.ltb Nat.leb Nat.eqb].
    + apply update_where_none in Eu as ->. by rewrite with_transactions_same.
    + by destruct (Store.revoke_unconsumed_approval_in_tx _ _ _ _ _).
Qed.

Lemma cancel_counted now signed id db :
  counted er_seq (db_events db) ->
  counted er_seq (db_events (Store.cancel_in_tx key now signed id db).2).
Proof.
  intros Hc. unfold Store.cancel_in_tx. destruct (update_where _ _ _) as [rows n]. destruct (n =? 0); [done|].
  pose proof (revoke_counted now id signed (with_transactions db rows) Hc) as Hr.
  destruct (Store.revoke_unconsumed_approval_in_tx _ _ _ _ _) as [b d]. by apply append_counted.
Qed.

Lemma cancel_all_matches now ids c db :
  counted er_seq (db_events db) ->
  matches (cancel_all key now ids c) db (Ok (fold_left (fun '(canceled, db) id =>
    let '(n, db) := Store.cancel_in_tx key now (as_signed_str Unattributed) id db in
    (canceled + n, db)) ids (c, db))).
Proof.
  revert c db. induction ids as [|id ids IH]; intros c db Hc; [apply matches_ret|]. cbn [cancel_all fold_left].
  eapply matches_eq; [eapply (matches_bind _ _ _ _ (fun n d => Ok (fold_left (fun '(canceled, db) id =>
    let '(n, db) := Store.cancel_in_tx key now (as_signed_str Unattributed) id db in
    (canceled + n, db)) ids (c + n, d)))); [by apply cancel_matches|]|].
  - intros n d E. injection E as E. apply IH.
    pose proof (cancel_counted now (as_signed_str Unattributed) id db Hc) as Hr. by rewrite E in Hr.
  - by destruct (Store.cancel_in_tx _ _ _ _ _).
Qed.

Lemma cleanup_matches now db :
  ChainInv key db -> Forall readable (map tx_row (db_transactions db)) ->
  matches (cleanup_stale_queued key now) db (Store.cleanup_stale_queued (Some key) now db).
Proof.
  intros HC Hr. unfold cleanup_stale_queued, Store.cleanup_stale_queued. cbn [ok_or mbind result_bind].
  apply matches_transaction.
  eapply matches_eq; [eapply (matches_bind _ _ _ _ (fun ids d => Ok (fold_left (fun '(canceled, db) id =>
    let '(n, db) := Store.cancel_in_tx key now (as_signed_str Unattributed) id db in
    (canceled + n, db)) ids (0, d))))|].
  - apply (matches_stmt _ _ (Ok (map tx_id (List.filter (stale now)
      (List.filter (fun t => bool_decide (tx_status t = Queued)) (db_transactions db))), db))).
    cbv beta zeta. rewrite cast_all_ok by (by apply readable_filter). done.
  - intros ids d E. simplify_eq. apply cancel_all_matches. exact (ci_ev_counted _ _ HC).
  - cbv beta iota. by rewrite filter_filter.
Qed.

Lemma cancel_queued_matches now id who db :
  ChainInv key db ->
  matches (cancel_queued key now id who) db (Store.cancel_queued (Some key) now id who db).
Proof.
  intros HC. unfold cancel_queued, Store.cancel_queued. cbn [ok_or mbind result_bind].
  eapply matches_eq; [eapply (matches_bind _ _ _ _ (fun n d => Ok (0 <? n, d))); [|intros; apply matches_ret]|].
  - apply matches_transaction, cancel_matches. exact (ci_ev_counted _ _ HC).
  - by destruct (Store.cancel_in_tx _ _ _ _ _).
Qed.

Lemma revoke_approval_matches now id who db :
  ChainInv key db ->
  matches (revoke_unconsumed_approval key now id who) db
    (Store.revoke_unconsumed_approval (Some key) now id who db).
Proof. intros HC. apply matches_transaction, revoke_matches. exact (ci_ev_counted _ _ HC). Qed.

Lemma claim_matches now id digest who db :
  ChainInv key db -> Forall readable (map tx_row (db_transactions db)) ->
  matches (claim_approved_for_execution key now id digest who) db
    (Store.claim_approved_for_execution (Some key) now id digest who db).
Proof.
  intros HC Hr. unfold claim_approved_for_execution, Store.claim_approved_for_execution.
  cbn [ok_or mbind result_bind]. apply matches_transaction.
  set (approved := match db_approvals db !! id with Some (mkApproval d None) => _ | _ => _ end).
  destruct (update_where _ _ _) as [rows m] eqn:Eu.
  set (consumed d := with_approvals d (alter (fun a => match ap_consumed_at a with
    | None => mkApproval (ap_receipt_digest a) (Some now) | Some _ => a end) id (db_approvals d))).
  set (finish d := Store.append_event key now StatusRunning id "" EventLegacyV1
    (Store.append_event key now ApprovalConsumed id digest (EventV2 (as_signed_str who)) (consumed d))).
  eapply matches_eq; [eapply (matches_bind _ _ _ (Ok (m, with_transactions db rows))
    (fun n d => Ok (0 <? n, if 0 <? n then finish d else d)))|].
  - apply matches_stmt. unfold agrees. rewrite cast_all_ok by (by apply readable_filter).
    cbn [mbind result_bind]. fold approved. by rewrite Eu.
  - intros n d E. simplify_eq.
    eapply matches_eq; [eapply (matches_bind _ _ _ (Ok (tt, if 0 <? n then _ else _)) (fun _ d => Ok (0 <? n, d)));
      [|intros; apply matches_ret]|reflexivity].
    destruct (0 <? n); [|apply matches_ret].
    eapply matches_eq; [eapply (matches_bind _ _ _ (Ok (tt, consumed (with_transactions db rows)))
      (fun _ d => Ok (tt, Store.append_event key now StatusRunning id "" EventLegacyV1
        (Store.append_event key now ApprovalConsumed id digest (EventV2 (as_signed_str who)) d))));
      [by apply matches_stmt|]|reflexivity].
    intros [] d E. injection E as <-.
    eapply matches_eq; [eapply (matches_bind _ _ _ _ (fun _ d =>
      Ok (tt, Store.append_event key now StatusRunning id "" EventLegacyV1 d)));
      [apply append_matches; exact (ci_ev_counted _ _ HC)|]|reflexivity].
    intros [] d E. injection E as <-. apply append_matches, append_counted. exact (ci_ev_counted _ _ HC).
  - destruct m as [|m]; cbn [Nat.ltb Nat.leb Nat.eqb]; [|done].
    apply update_where_none in Eu as ->. by rewrite with_transactions_same.
Qed.

(** **** Reading *)

Lemma get_matches id db : matches (get id) db (r ← Store.get db id; Ok (r, db)).
Proof.
  unfold get, Store.get. eapply matches_eq; [eapply (matches_bind _ _ _ _ (fun row d =>
    match row with None => Ok (None, d) | Some t => r ← row_to_record t; Ok (Some r, d) end));
    [apply matches_query|]|].
  - intros row d E. simplify_eq. destruct (find_tx d id) as [t|]; [|apply matches_ret].
    destruct (row_to_record t) as [r|e]; [apply matches_ret|apply matches_err].
  - cbv beta iota. destruct (find_tx db id) as [t|]; [|done]. by destruct (row_to_record t).
Qed.

Lemma history_matches now limit status action since db :
  Forall readable (map tx_row (db_transactions db)) ->
  matches (history_rows now limit status action since) db
    (rows ← Store.history_rows now limit status action since db; Ok (rows, db)).
Proof.
  intros Hr. unfold history_rows, Store.history_rows.
  destruct (match status with None => Ok None | Some s => _ end) as [st|e];
    cbn [mbind result_bind]; [|apply matches_err].
  apply matches_stmt. unfold agrees.
  assert (Ec : match since with Some _ => cast_all (List.filter (fun t =>
      (match st with Some s => bool_decide (tx_status t = s) | None => true end)
      && (match action with Some a => (cr_action_name (tx_row t) =? a)%string | None => true end)) (db_transactions db))
    | None => Ok tt end = Ok tt).
  { destruct since; [|done]. by apply cast_all_ok, readable_filter. }
  rewrite Ec. cbn [mbind result_bind]. by rewrite filter_filter.
Qed.

Lemma list_transactions_matches now limit status action since db :
  Forall readable (map tx_row (db_transactions db)) ->
  matches (list_transactions now limit status action since) db
    (r ← Store.list_transactions now limit status action since db; Ok (r, db)).
Proof.
  intros Hr. unfold list_transactions, Store.list_transactions.
  eapply matches_eq; [eapply (matches_bind _ _ _ _ (fun rows d =>
    r ← fold_right (fun t acc => r ← row_to_record t; rs ← acc; Ok (r :: rs)) (Ok []) rows; Ok (r, d)));
    [by apply history_matches|]|].
  - intros rows d _. destruct (fold_right _ _ rows); [apply matches_ret|apply matches_err].
  - by destruct (Store.history_rows _ _ _ _ _ _).
Qed.

Lemma list_history_matches now limit status action since db :
  Forall readable (map tx_row (db_transactions db)) ->
  matches (list_history now limit status action since) db
    (r ← Store.list_history now limit status action since db; Ok (r, db)).
Proof.
  intros Hr. unfold list_history, Store.list_history.
  eapply matches_eq; [eapply (matches_bind _ _ _ _ (fun rows d => Ok (map row_to_history_entry rows, d)));
    [by apply history_matches|intros; apply matches_ret]|].
  by destruct (Store.history_rows _ _ _ _ _ _).
Qed.

Lemma signed_kind r : row_signed (verifying_key key) event_row_message r ->
  like_status (er_kind r) = Store.like_status (er_kind r).
Proof.
  intros (m & Hm & _). unfold event_row_message in Hm.
  destruct (parse_event_kind (er_kind r)) as [k|] eqn:Ek; [|done]. unfold parse_event_kind in Ek. apply find_some in Ek as [_ <-%String.eqb_eq]. by destruct k.
Qed.

Lemma status_check_matches db :
  ChainInv key db ->
  matches (status_matches_chain true true (fun _ => false)) db (Ok (Store.status_matches_chain db, db)).
Proof.
  intros HC n. unfold status_matches_chain. rewrite tx_bind_eq, query_alone. cbn.
  unfold Store.status_matches_chain, status_evidence. do 2 f_equal.
  apply map_ext. intros t. f_equal. unfold newest_status_event, Store.newest_status_event. do 2 f_equal.
  apply filter_ext_in. intros e He. apply list_elem_of_In in He. f_equal. apply signed_kind.
  pose proof (ci_ev_signed _ _ HC) as Hs. rewrite Forall_forall in Hs. by apply Hs.
Qed.

End Alone.

(** C8: the backends agree. On a store a daemon wrote, with no other writer, each of the
    eight write operations, the reads of one transaction, of the list and of the history,
    and the check of the statuses ends over PostgreSQL as over SQLite: the same answer and
    the same tables, or a failure of both. *)
Theorem backends_agree `{StoreEnvLaws} `{CryptoLaws} `{PgMessages} key db :
  reachable key db ->
  (forall now uuid t, agrees (run alone (record key now uuid t) db) (Store.record (Some key) now uuid t db))
  /\ (forall now uuid t p, agrees (run alone (record_previewed key now uuid t p) db)
                             (Store.record_previewed (Some key) now uuid t p db))
  /\ (forall now id who, agrees (run alone (approve_transaction key now id who) db)
                           (Store.approve_transaction (Some key) now id who db))
  /\ (forall now id who, agrees (run alone (revoke_unconsumed_approval key now id who) db)
                           (Store.revoke_unconsumed_approval (Some key) now id who db))
  /\ (forall now id digest who, agrees (run alone (claim_approved_for_execution key now id digest who) db)
                                  (Store.claim_approved_for_execution (Some key) now id digest who db))
  /\ (forall now id new, agrees (run alone (update_status key now id new) db)
                           (d ← Store.update_status (Some key) now id new db; Ok (tt, d)))
  /\ (forall now, agrees (run alone (cleanup_stale_queued key now) db)
                    (Store.cleanup_stale_queued (Some key) now db))
  /\ (forall now id who, agrees (run alone (cancel_queued key now id who) db)
                           (Store.cancel_queued (Some key) now id who db))
  /\ (forall id, agrees (run alone (get id) db) (r ← Store.get db id; Ok (r, db)))
  /\ (forall now limit status action since,
        agrees (run alone (list_transactions now limit status action since) db)
          (r ← Store.list_transactions now limit status action since db; Ok (r, db)))
  /\ (forall now limit status action since,
        agrees (run alone (list_history now limit status action since) db)
          (r ← Store.list_history now limit status action since db; Ok (r, db)))
  /\ agrees (run alone (status_matches_chain true true (fun _ => false)) db)
       (Ok (Store.status_matches_chain db, db)).
Proof.
  intros Hr. destruct (reachable_inv key db Hr) as [HC _]. pose proof (reachable_readable key db Hr) as Hd.
  pose proof (ci_tx_counted _ _ HC) as Ht.
  split_and!; intros; apply matches_agrees;
    eauto using record_matches, record_previewed_matches, approve_matches, revoke_approval_matches,
      claim_matches, update_status_matches, cleanup_matches, cancel_queued_matches, get_matches,
      list_transactions_matches, list_history_matches, status_check_matches.
Qed.

(** ** Beside other writers *)

(** What every daemon's tables have, and what no daemon takes back. *)
Record PgInv `{StoreEnv} `{Crypto} (key : AuditKey) (db : Db) : Prop := {
  pi_chain : ChainInv key db;
  pi_approvals : forall id, is_Some (db_approvals db !! id) -> id ∈ map tx_id (db_transactions db) }.

Record grows (db db' : Db) : Prop := {
  gr_rows : map tx_row (db_transactions db) `prefix_of` map tx_row (db_transactions db');
  gr_events : db_events db `prefix_of` db_events db' }.

#[export] Instance grows_preorder : PreOrder grows.
Proof. split; [split; done|]. intros a b c [] []; split; by etrans. Qed.

(** The other writers are daemons: their commits only add to the trail. *)
Definition honest `{StoreEnv} `{Crypto} (key : AuditKey) (w : World) : Prop :=
  forall n db, PgInv key db -> PgInv key (w_others w n db) /\ grows db (w_others w n db).

Section Shared.
Context `{StoreEnv} `{CryptoLaws} `{PgMessages}.
Variables (key : AuditKey) (w : World).
Hypothesis Hw : honest key w.

Definition stable (P : Db -> Prop) : Prop := forall db db', grows db db' -> P db -> P db'.

(** What holds of the tables where [m] ends, if it does. *)
Definition triple {A} (P : Db -> Prop) (m : Tx A) (Q : A -> Db -> Prop) : Prop :=
  forall n db, PgInv key db -> P db ->
    match m w n db with
    | Err _ => True
    | Ok (a, (_, db')) => PgInv key db' /\ grows db db' /\ Q a db'
    end.

Lemma t_ret {A} (a : A) (Q : A -> Db -> Prop) : triple (Q a) (mret a) Q.
Proof. intros n db Hi HQ. done. Qed.
Lemma t_err {A} P e (Q : A -> Db -> Prop) : triple P (tx_err e) Q.
Proof. by intros n db _ _. Qed.

Lemma t_bind {A B} P (m : Tx A) Q (f : A -> Tx B) R :
  triple P m Q -> (forall a, triple (Q a) (f a) R) -> triple P (m ≫= f) R.
Proof.
  intros Hm Hf n db Hi HP. rewrite tx_bind_eq. specialize (Hm n db Hi HP).
  destruct (m w n db) as [[a [n' db']]|]; [|done]. destruct Hm as (Hi' & Hg & HQ).
  specialize (Hf a n' db' Hi' HQ). destruct (f a w n' db') as [[b [n2 db2]]|]; [|done].
  destruct Hf as (? & ? & ?). split_and!; [done|by etrans|done].
Qed.

Lemma t_stmt {A} P (f : Db -> result PgError (A * Db)) Q :
  stable P ->
  (forall db, PgInv key db -> P db ->
     match f db with Err _ => True | Ok (a, db') => PgInv key db' /\ grows db db' /\ Q a db' end) ->
  triple P (stmt f) Q.
Proof.
  intros Hs Hf n db Hi HP. unfold stmt. destruct (w_fail w n); [done|].
  destruct (Hw n db Hi) as [Hi' Hg]. specialize (Hf _ Hi' (Hs _ _ Hg HP)).
  destruct (f (w_others w n db)) as [[a db']|]; [|done]. destruct Hf as (? & ? & ?).
  split_and!; [done|by etrans|done].
Qed.

(** [P] held of tables these have grown from. *)
Definition past (P : Db -> Prop) (db : Db) : Prop := exists db0, PgInv key db0 /\ grows db0 db /\ P db0.

Lemma stable_past P : stable (past P).
Proof. intros db db' Hg (db0 & HI & Hg0 & HP). exists db0. split_and!; [done|by etrans|done]. Qed.

(** A query answers for tables that only grow from there. *)
Lemma t_query {A} P (f : Db -> A) :
  stable P -> triple P (query f) (fun a db => P db /\ past (fun db0 => a = f db0) db).
Proof. intros Hs. apply t_stmt; [done|]. intros db Hi HP. split_and!; [done|reflexivity|done|]. by exists db. Qed.

Lemma t_weaken {A} (P P' : Db -> Prop) (m : Tx A) Q Q' :
  triple P' m Q' -> (forall db, P db -> P' db) -> (forall a db, Q' a db -> Q a db) -> triple P m Q.
Proof.
  intros Hm HP HQ n db Hi H'. specialize (Hm n db Hi (HP _ H')).
  destruct (m w n db) as [[a [n' db']]|]; [|done]. naive_solver.
Qed.

Lemma t_transaction {A} P (m : Tx A) Q :
  stable P -> (forall a, stable (Q a)) -> triple P m Q -> triple P (transaction m) Q.
Proof.
  intros HP HQ Hm. unfold transaction. eapply t_bind; [by apply t_query|]. intros u.
  eapply t_bind; [apply (t_weaken _ _ _ _ _ Hm); [by intros db [? _]|intros a db HQa; exact HQa]|]. intros a.
  eapply t_bind; [apply t_query, HQ|]. intros u'. apply (t_weaken _ _ _ _ _ (t_ret a Q)); [by intros db [? _]|done].
Qed.

(** *** Appending *)

Definition known (id : string) (db : Db) : Prop := id ∈ map tx_id (db_transactions db).

Lemma known_rows db id : known id db <-> id ∈ map cr_transaction_id (map tx_row (db_transactions db)).
Proof. unfold known, tx_id. by rewrite map_map. Qed.
Lemma stable_known id : stable (known id).
Proof.
  intros db db' [[r Hr] _]. rewrite !known_rows, Hr, map_app, elem_of_app. by left.
Qed.
Lemma stable_true : stable (fun _ => True).
Proof. done. Qed.
Lemma stable_and P Q : stable P -> stable Q -> stable (fun db => P db /\ Q db).
Proof. intros HP HQ db db' Hg []. eauto. Qed.
(** A sequence number that is free is the next one, and its tip is the last one. *)
Lemma free_seq {A} (seq_of : A -> N) l0 l :
  counted seq_of l0 -> counted seq_of l -> l0 `prefix_of` l ->
  existsb (fun e => (seq_of e =? default 0 (seq_of <$> newest seq_of l0) + 1)%N) l = false -> l = l0.
Proof.
  intros Hc0 Hc [r ->] Hx. destruct r as [|e r]; [by rewrite app_nil_r|exfalso].
  rewrite (counted_next seq_of _ Hc0) in Hx.
  assert (He : seq_of e = N.of_nat (S (length l0))).
  { replace (l0 ++ e :: r) with ((l0 ++ [e]) ++ r) in Hc by by rewrite <- app_assoc.
    unfold counted in Hc. rewrite (map_app seq_of _ r), (length_app _ r), seq_app, (map_app N.of_nat) in Hc.
    apply app_inj_1 in Hc as [Hc _]; [|by rewrite !length_map, length_seq].
    fold (counted seq_of (l0 ++ [e])) in Hc. by apply counted_snoc in Hc as [_ Hc]. }
  assert (existsb (fun x => (seq_of x =? N.of_nat (S (length l0)))%N) (l0 ++ e :: r) = true); [|congruence].
  apply existsb_exists. exists e. split; [apply in_app_iff; right; by left|]. by apply N.eqb_eq.
Qed.

Lemma t_append now kind id digest identity :
  identity_ok identity ->
  triple (known id) (append_event key now kind id digest identity) (fun _ => known id).
Proof.
  intros Hi. unfold append_event. eapply t_bind; [apply t_query, stable_known|]. intros prev.
  destruct (next_of prev) as [seq ph] eqn:En. apply t_stmt.
  { apply stable_and; [apply stable_known|apply stable_past]. }
  intros db HI (Hk & db0 & HI0 & Hg & ->). cbn [er_seq].
  rewrite next_of_newest in En. injection En as <- <-.
  destruct (existsb _ _) eqn:Ex; [done|].
  rewrite <- (free_seq er_seq _ _ (ci_ev_counted _ _ (pi_chain _ _ HI0)) (ci_ev_counted _ _ (pi_chain _ _ HI))
    (gr_events _ _ Hg) Ex).
  pose proof (append_event_chain key now kind id digest identity db (pi_chain _ _ HI) Hi Hk) as HC.
  split_and!; [split; [exact HC|exact (pi_approvals _ _ HI)]|split; cbn; [done|by apply prefix_app_r]|done].
Qed.

Lemma counted_rows l : counted tx_seq l <-> counted cr_seq (map tx_row l).
Proof. unfold counted, tx_seq. by rewrite map_map, length_map. Qed.
Lemma newest_rows l : newest cr_seq (map tx_row l) = tx_row <$> newest tx_seq l.
Proof.
  induction l as [|x l IH] using rev_ind; [done|]. rewrite map_app. cbn [map]. rewrite !newest_snoc, IH.
  destruct (newest tx_seq l) as [b|]; [|done]. cbn [fmap option_fmap option_map]. unfold tx_seq. by case_match.
Qed.
Lemma existsb_map {A B} (f : A -> B) p l : existsb p (map f l) = existsb (fun x => p (f x)) l.
Proof. induction l as [|x l IH]; [done|]. cbn. by rewrite IH. Qed.

(** The same for the transaction chain, where the other tables may have grown. *)
Lemma free_tx_seq db0 db :
  PgInv key db0 -> PgInv key db -> grows db0 db ->
  existsb (fun x => (tx_seq x =? default 0 (tx_seq <$> newest tx_seq (db_transactions db0)) + 1)%N)
    (db_transactions db) = false ->
  map tx_row (db_transactions db) = map tx_row (db_transactions db0).
Proof.
  intros [HC0 _] [HC _] Hg Hx. apply (free_seq cr_seq); [by apply counted_rows, ci_tx_counted with key..|apply Hg|].
  rewrite existsb_map, newest_rows. rewrite <- Hx. unfold tx_seq. by destruct (newest _ _).
Qed.

Lemma t_insert now uuid t :
  triple (fun _ => True) (insert_transaction key now uuid t) (fun i db => known (tr_transaction_id (ins_record i)) db).
Proof.
  unfold insert_transaction. eapply t_bind; [apply t_query, stable_true|]. intros prev.
  destruct (next_of prev) as [sq ph] eqn:En.
  eapply t_bind; [apply t_query, stable_and; [apply stable_true|apply stable_past]|].
  intros tip. eapply t_bind; [|intros u; apply (t_ret (mkInserted _ _ _) (fun i db => known (tr_transaction_id (ins_record i)) db))].
  cbn [ins_record tr_transaction_id]. apply t_stmt.
  { repeat apply stable_and; [apply stable_true|apply stable_past..]. }
  intros db HI [[_ (db0 & HI0 & Hg0 & ->)] (db1 & HI1 & Hg1 & ->)]. cbn [cr_transaction_id cr_seq].
  rewrite (next_of_newest tx_seq (fun t => cr_chain_hash (tx_row t))) in En. injection En as <- <-.
  destruct (existsb (fun x => (tx_id x =? uuid)%string) (db_transactions db)) eqn:Ei; [done|].
  match goal with |- context [if ?b then _ else _] => destruct b eqn:Ex; [done|] end.
  pose proof (free_tx_seq _ _ HI0 HI Hg0 Ex) as Er.
  assert (El : length (db_transactions db0) = length (db_transactions db))
    by (rewrite <- (length_map tx_row), <- Er; apply length_map).
  assert (Hnew : uuid ∉ map tx_id (db_transactions db)).
  { intros (x & Hx & Hin)%list_elem_of_fmap.
    assert (existsb (fun x => (tx_id x =? uuid)%string) (db_transactions db) = true); [|congruence].
    apply existsb_exists. exists x. split; [by apply list_elem_of_In|]. rewrite Hx. apply String.eqb_refl. }
  match goal with |- PgInv _ (with_transactions _ (_ ++ [mkTxRow ?r _])) /\ _ => set (row := r) end.
  assert (HC : ChainInv key (with_transactions db (db_transactions db ++ [mkTxRow row Queued]))).
  { apply append_row_chain; [exact (pi_chain _ _ HI)|exact Hnew|..].
    - cbn [row cr_seq]. rewrite counted_next by exact (ci_tx_counted _ _ (pi_chain _ _ HI0)). by rewrite El.
    - cbn [row cr_prev_chain_hash]. rewrite Er, tip_from_last.
      rewrite counted_newest by exact (ci_tx_counted _ _ (pi_chain _ _ HI0)).
      rewrite fmap_last. by destruct (last (db_transactions db0)).
    - intros tip Et Hne. cbn [row cr_event_tip] in Et. injection Et as <-.
      pose proof (event_tip_known db1 row eq_refl _ eq_refl Hne) as Hin.
      destruct (gr_events _ _ Hg1) as [l ->]. rewrite map_app, elem_of_app. by left.
    - eexists. split; [|apply signature_ok_sign]. unfold row_message, row_identity.
      cbn [row cr_chain_version cr_caller_role cr_event_tip cr_caller_principal identity_version].
      cbn. unfold non_empty. by rewrite as_signed_str_not_empty. }
  split_and!.
  - split; [exact HC|]. intros id Hid. cbn [with_transactions db_transactions db_approvals] in *.
    rewrite map_app, elem_of_app. left. by apply (pi_approvals _ _ HI).
  - split; [|done]. cbn [with_transactions db_transactions]. rewrite map_app. by apply prefix_app_r.
  - unfold known. cbn [with_transactions db_transactions]. rewrite map_app, elem_of_app. right. by left.
Qed.

(** *** The operations *)

Definition T : Db -> Prop := fun _ => True.
Definition TT {A} : A -> Db -> Prop := fun _ _ => True.

Lemma t_frame {A} (R P : Db -> Prop) (m : Tx A) Q :
  stable R -> triple P m Q -> triple (fun db => P db /\ R db) m (fun a db => Q a db /\ R db).
Proof.
  intros HR Hm n db Hi [HP Hr]. specialize (Hm n db Hi HP). destruct (m w n db) as [[a [n' db']]|]; [|done].
  destruct Hm as (? & ? & ?). eauto 6.
Qed.
Lemma t_drop {A} P (m : Tx A) Q : triple P m Q -> triple P m TT.
Proof. intros Hm. by apply (t_weaken _ _ _ _ _ Hm). Qed.
Lemma t_ret_TT {A} P (a : A) : triple P (mret a) TT.
Proof. by apply (t_weaken _ _ _ _ _ (t_ret a TT)). Qed.

(** Rows keep what is signed, and the last statement knows the id it changed. *)
Lemma t_rows (f : Db -> result PgError (nat * Db)) id P :
  stable P ->
  (forall db a db', PgInv key db -> f db = Ok (a, db') ->
     db_events db' = db_events db
     /\ map tx_row (db_transactions db') = map tx_row (db_transactions db)
     /\ (forall i, is_Some (db_approvals db' !! i) -> is_Some (db_approvals db !! i) \/ known i db)
     /\ (0 < a -> known id db)) ->
  triple P (stmt f) (fun a db => 0 < a -> known id db).
Proof.
  intros Hs Hf. apply t_stmt; [done|]. intros db HI _. destruct (f db) as [[a db']|] eqn:E; [|done].
  destruct (Hf db a db' HI E) as (Ee & Er & Ha & Hk).
  assert (Hkn : forall i, known i db' <-> known i db) by (intros i; by rewrite !known_rows, Er).
  split_and!.
  - split.
    + pose proof (ChainInv_rows key db (db_transactions db') (db_previews db') (db_approvals db')
        (pi_chain _ _ HI) Er) as HC. rewrite <- Ee in HC. by destruct db'.
    + intros i [Hi|Hi]%Ha; apply Hkn; [by apply (pi_approvals _ _ HI)|done].
  - split; [by rewrite Er|by rewrite Ee].
  - intros Hlt. by apply Hkn, Hk.
Qed.

Lemma updated_known p id new db rows n :
  (forall t, p t = true -> tx_id t = id) ->
  update_where p new (db_transactions db) = (rows, n) -> 0 < n -> known id db.
Proof.
  intros Hp E Hn. rewrite update_where_spec in E. injection E as _ <-.
  destruct (List.filter p (db_transactions db)) as [|t l] eqn:Ef; [by cbn in Hn; lia|].
  assert (Hin : In t (List.filter p (db_transactions db))) by (rewrite Ef; by left).
  apply filter_In in Hin as [Hin Ht]. rewrite <- (Hp t Ht). apply list_elem_of_fmap_2. by apply list_elem_of_In.
Qed.

Lemma t_update_rows p id new P :
  stable P -> (forall t, p t = true -> tx_id t = id) ->
  triple P (update_rows p new) (fun n db => 0 < n -> known id db).
Proof.
  intros Hs Hp. apply t_rows; [done|]. intros db a db' HI E.
  destruct (update_where p new (db_transactions db)) as [rows n] eqn:Eu. simplify_eq.
  pose proof (update_where_rows p new (db_transactions db)) as Er. rewrite Eu in Er.
  split_and!; [done|exact Er|by left|]. by apply (updated_known p id new db rows).
Qed.

Lemma own_id t id q : (tx_id t =? id)%string && q = true -> tx_id t = id.
Proof. by intros [E%String.eqb_eq _]%andb_true_iff. Qed.

(** [if 0 <? n { ... }] *)
Lemma t_when {A} (n : nat) id (m : Tx A) (a : A) :
  triple (known id) m TT -> triple (fun db => 0 < n -> known id db) (if 0 <? n then m else mret a) TT.
Proof.
  intros Hm. destruct (Nat.ltb_spec 0 n); [|apply t_ret_TT].
  apply (t_weaken _ _ _ _ _ Hm); [|done]. naive_solver.
Qed.

Lemma stable_T : stable T. Proof. done. Qed.
Lemma stable_TT {A} (a : A) : stable (TT a). Proof. done. Qed.
Lemma stable_when (n : nat) id : stable (fun db => 0 < n -> known id db).
Proof. intros db db' Hg Hk Hn. eapply stable_known; eauto. Qed.

Lemma t_record now uuid t : triple T (record key now uuid t) TT.
Proof.
  unfold record. eapply t_bind; [|intros; apply t_ret_TT].
  apply (t_drop _ _ _ (t_transaction _ _ _ stable_T (fun i => stable_known _) (t_insert now uuid t))).
Qed.

Lemma t_record_previewed now uuid t p : triple T (record_previewed key now uuid t p) TT.
Proof.
  unfold record_previewed. eapply t_bind; [|intros; apply t_ret_TT].
  apply (t_transaction _ _ TT); [apply stable_T|intros; apply stable_TT|].
  eapply t_bind; [apply t_insert|]. intros i. eapply t_bind; [|intros; apply t_ret_TT].
  apply (t_stmt _ _ TT); [apply stable_known|]. intros db HI _. destruct (db_previews db !! _); [done|].
  split_and!; [|split; done|done]. destruct HI as [HC Ha]. split; [by apply ChainInv_rows|done].
Qed.

Lemma t_update_status now id new : triple T (update_status key now id new) TT.
Proof.
  unfold update_status. apply (t_transaction _ _ TT); [apply stable_T|intros; apply stable_TT|].
  eapply t_bind; [apply t_query, stable_T|]. intros [current|]; [|apply t_err].
  destruct (negb _); [apply t_err|].
  eapply t_bind with (Q := fun _ => known id).
  - apply (t_weaken _ (known id) _ _ (fun n db => (0 < n -> known id db) /\ known id db)); [|..].
    + apply (t_weaken _ _ _ _ _ (t_frame (known id) T _ _ (stable_known id)
        (t_update_rows (fun t => (tx_id t =? id)%string) id new T stable_T
          (fun t E => proj1 (String.eqb_eq _ _) E)))); done.
    + intros db [_ (db0 & HI & Hg & E)]. apply (stable_known id db0 db Hg).
      destruct (find_tx db0 id) eqn:Ef; [|done]. by eapply find_tx_known.
    + by intros n db [].
  - intros n. by eapply t_drop, t_append.
Qed.

Lemma t_approve now id who : triple T (approve_transaction key now id who) TT.
Proof.
  unfold approve_transaction. eapply t_bind; [apply t_query, stable_T|]. intros [t|]; [|apply t_ret_TT].
  destruct (negb _); [apply t_err|]. eapply t_bind; [|intros; apply t_ret_TT].
  apply (t_weaken _ T _ _ TT); [|done..].
  apply (t_transaction _ _ TT); [apply stable_T|intros; apply stable_TT|].
  eapply t_bind; [apply (t_rows _ id T stable_T)|].
  - intros db a db' HI E. cbv zeta in E. destruct (cast_all _); cbn [mbind result_bind] in E; [|done].
    destruct (find _ _) as [t'|] eqn:Ef; [|by simplify_eq; split_and!; [| |left|lia]].
    destruct (db_approvals db !! id) eqn:Ea; [by simplify_eq; split_and!; [| |left|lia]|]. simplify_eq.
    assert (Hk : known id db).
    { apply find_some in Ef as [Ef _]. apply filter_In in Ef as [Hin Ht]. apply own_id in Ht as <-.
      apply list_elem_of_fmap_2. by apply list_elem_of_In. }
    split_and!; [done|done| |done]. intros i. cbn. destruct (decide (i = id)) as [->|Hne]; [by right|].
    rewrite lookup_insert_ne by done. by left.
  - intros n. eapply t_bind; [apply t_when|intros; apply t_ret_TT].
    eapply t_drop, t_append, as_signed_str_not_empty.
Qed.

Lemma t_delete_approval id :
  triple T (stmt (fun db => match db_approvals db !! id with
                            | Some (mkApproval _ None) => Ok (1, with_approvals db (delete id (db_approvals db)))
                            | _ => Ok (0, db)
                            end)) (fun n db => 0 < n -> known id db).
Proof.
  apply t_rows; [apply stable_T|]. intros db a db' HI E.
  destruct (db_approvals db !! id) as [[d [x|]]|] eqn:Ea; simplify_eq;
    [by split_and!; [| |left|lia]| |by split_and!; [| |left|lia]].
  split_and!; [done|done| |].
  - intros i Hi. left. cbn in Hi. destruct (decide (i = id)) as [->|Hne]; [by rewrite Ea|].
    by rewrite lookup_delete_ne in Hi by done.
  - intros _. apply (pi_approvals _ _ HI). by rewrite Ea.
Qed.

Lemma t_revoke now id signed :
  is_empty signed = false -> triple T (revoke_unconsumed_approval_in_tx key now id signed) TT.
Proof.
  intros Hs. unfold revoke_unconsumed_approval_in_tx. eapply t_bind; [apply t_query, stable_T|]. intros digest.
  apply (t_bind _ _ (fun n db => 0 < n -> known id db)); [by apply (t_weaken _ _ _ _ _ (t_delete_approval id))|].
  intros n. destruct (0 <? n) eqn:En; [|apply t_ret_TT]. destruct digest as [d|]; [|apply t_err].
  eapply t_bind; [|intros; apply t_ret_TT]. apply Nat.ltb_lt in En.
  apply (t_weaken _ (known id) _ _ TT); [eapply t_drop, t_append; exact Hs|intros db Hk; by apply Hk|done].
Qed.

Lemma t_cancel now signed id : is_empty signed = false -> triple T (cancel_in_tx key now signed id) TT.
Proof.
  intros Hs. unfold cancel_in_tx.
  eapply t_bind; [apply (t_update_rows _ id Canceled T stable_T); intros t; apply own_id|].
  intros n. eapply t_bind; [apply t_when|intros; apply t_ret_TT].
  eapply t_bind with (Q := fun _ => known id).
  - apply (t_weaken _ _ _ _ _ (t_frame (known id) T _ _ (stable_known id) (t_revoke now id signed Hs)));
      [by intros db Hk|by intros b db []].
  - intros b. by eapply t_drop, t_append.
Qed.

Lemma t_cancel_all now ids c : triple T (cancel_all key now ids c) TT.
Proof.
  revert c. induction ids as [|id ids IH]; intros c; [apply t_ret_TT|]. cbn [cancel_all].
  eapply t_bind; [apply t_cancel, as_signed_str_not_empty|intros n; apply IH].
Qed.

Lemma t_claim now id digest who : triple T (claim_approved_for_execution key now id digest who) TT.
Proof.
  unfold claim_approved_for_execution. apply (t_transaction _ _ TT); [apply stable_T|intros; apply stable_TT|].
  eapply t_bind; [apply (t_rows _ id T stable_T)|].
  - intros db a db' HI E. cbv zeta in E. destruct (cast_all _); cbn [mbind result_bind] in E; [|done].
    match type of E with context [update_where ?p ?s ?l] =>
      pose proof (update_where_rows p s l) as Er; destruct (update_where p s l) as [rows n] eqn:Eu end.
    simplify_eq. split_and!; [done|exact Er|by left|].
    eapply updated_known; [|exact Eu]. intros t Ht. cbv beta in Ht. rewrite <- !andb_assoc in Ht. by apply own_id in Ht.
  - intros n. eapply t_bind; [apply t_when|intros; apply t_ret_TT].
    eapply t_bind with (Q := fun _ => known id).
    { apply t_stmt; [apply stable_known|]. intros db HI Hk. split_and!; [|by split|done].
      destruct HI as [HC Ha]. split; [by apply ChainInv_with_approvals|]. intros i Hi. apply Ha.
      cbn in Hi. by rewrite lookup_alter_is_Some in Hi. }
    intros u. eapply t_bind; [apply t_append, as_signed_str_not_empty|].
    intros u'. by eapply t_drop, t_append.
Qed.

(** The write transactions of a daemon over PostgreSQL. *)
Inductive write_op : forall A, Tx A -> Prop :=
| w_record now uuid t : write_op _ (record key now uuid t)
| w_record_previewed now uuid t p : write_op _ (record_previewed key now uuid t p)
| w_update now id new : write_op _ (update_status key now id new)
| w_approve now id who : write_op _ (approve_transaction key now id who)
| w_revoke now id who : write_op _ (revoke_unconsumed_approval key now id who)
| w_claim now id digest who : write_op _ (claim_approved_for_execution key now id digest who)
| w_cleanup now : write_op _ (cleanup_stale_queued key now)
| w_cancel now id who : write_op _ (cancel_queued key now id who).

Lemma write_op_triple A (op : Tx A) : write_op A op -> triple T op TT.
Proof.
  destruct 1 as [now uuid t|now uuid t p|now id new|now id who|now id who|now id digest who|now|now id who].
  - apply t_record.
  - apply t_record_previewed.
  - apply t_update_status.
  - apply t_approve.
  - apply (t_transaction _ _ TT); [apply stable_T|intros; apply stable_TT|apply t_revoke, as_signed_str_not_empty].
  - apply t_claim.
  - apply (t_transaction _ _ TT); [apply stable_T|intros; apply stable_TT|].
    eapply t_bind; [|intros ids; apply t_cancel_all].
    apply (t_stmt _ _ (fun _ => T)); [apply stable_T|]. intros db HI _. cbv zeta.
    destruct (cast_all _); cbn [mbind result_bind]; [|done]. split_and!; [done|reflexivity|done].
  - eapply t_bind; [|intros; apply t_ret_TT].
    apply (t_transaction _ _ TT); [apply stable_T|intros; apply stable_TT|apply t_cancel, as_signed_str_not_empty].
Qed.

End Shared.

(** C7: a shared database is never forked. Whatever other daemons commit between the statements
    of a write transaction, with or without the row locks it takes, and wherever it fails: if
    it commits, both chains of the tables it leaves still verify to their last row, nothing
    signed was changed or taken back, and every row's event tip is there. *)
Theorem shared_database_keeps_the_chains `{StoreEnv} `{CryptoLaws} `{PgMessages} key w A (op : Tx A) db a db' :
  honest key w -> write_op key A op -> PgInv key db -> run w op db = Ok (a, db') ->
  PgInv key db' /\ grows db db'
  /\ Store.verify_audit_chain key db' = Intact (length (db_transactions db'))
  /\ store_verify_event_chain key db' = Intact (length (db_events db'))
  /\ exists n, store_verify_event_binding db' = BindingConsistent n.
Proof.
  intros Hw Hop HI E. pose proof (write_op_triple key w Hw A op Hop 0 db HI I) as Ht. unfold run in E.
  destruct (op w 0 db) as [[a' [n d]]|]; [|done]. simplify_eq. destruct Ht as (HI' & Hg & _).
  split_and!; [done|done|..]; apply (chains_verify key), (pi_chain _ _ HI').
Qed.

(** ** Schema and transport *)

(** A database that was brought up to date stays as it is. *)
Lemma initialize_once applied applied' :
  initialize applied = Ok applied' -> initialize applied' = Ok applied'.
Proof.
  unfold initialize.
  replace (match last MIGRATIONS with Some m => m.1 | None => 0%N end) with 5%N by reflexivity. set (current := fold_left _ applied 0%N). destruct (N.ltb_spec 5 current) as [|Hle]; [done|].
  intros E. assert (applied' = applied ++ List.filter (fun m => (current <? m.1)%N) MIGRATIONS) as -> by congruence.
  clear E. assert (Hc : fold_left (fun m v => N.max m v.1)
    (applied ++ List.filter (fun m => (current <? m.1)%N) MIGRATIONS) 0%N = 5%N).
  { rewrite fold_left_app. fold current. clearbody current. clear applied.
    assert (current = 0 \/ current = 1 \/ current = 2 \/ current = 3 \/ current = 4 \/ current = 5)%N
      as [->|[->|[->|[->|[->| ->]]]]] by lia; reflexivity. }
  rewrite Hc. assert (List.filter (fun m => (5 <? m.1)%N) MIGRATIONS = []) as -> by reflexivity. by rewrite app_nil_r.
Qed.

(** A connection that leaves the machine authenticates the server, or is refused. *)
Lemma remote_servers_are_authenticated opts :
  is_ok (require_tls_for_remote opts) = true <->
  is_Some (pgo_socket opts) \/ is_loopback (pgo_host opts) = true
  \/ pgo_ssl_mode opts = SslVerifyCa \/ pgo_ssl_mode opts = SslVerifyFull.
Proof.
  unfold require_tls_for_remote. destruct (pgo_socket opts); [naive_solver|].
  destruct (is_loopback _); [naive_solver|]. destruct (pgo_ssl_mode opts); cbn; naive_solver.
Qed.

Example loopback_names : map is_loopback
  ["localhost"; "LOCALHOST."; "[::1]"; "127.0.0.1"; "127.8.9.10"; "128.0.0.1"; "db.example.com"; "::1"]
  = [true; true; true; true; true; false; false; false].
Proof. vm_compute. reflexivity. Qed.

(** ** A database with two daemons *)

Lemma reachable_pg `{StoreEnv} `{CryptoLaws} key db : reachable key db -> PgInv key db.
Proof.
  intros Hr. destruct (reachable_inv key db Hr) as [HC HL]. split; [done|]. intros id [a Ha].
  pose proof (HL id) as Hl. unfold life_ok, view in Hl. cbn in Hl.
  destruct (find_tx db id) as [t|] eqn:Ef; [by eapply find_tx_known|]. cbn in Hl. rewrite Ha in Hl. naive_solver.
Qed.

Module PgSample.
Import Toy StoreSample.

#[export] Instance messages : PgMessages := {|
  unique_violation := fun c => ("duplicate key value violates unique constraint " ++ c)%string;
  invalid_timestamp := fun s => ("invalid input syntax for type timestamp with time zone: " ++ s)%string |}.

(** The other daemon records a transaction before statement [k]. *)
Definition recorded (db : Db) : Db :=
  match Store.insert_transaction key 5 "t2" tx db with Ok (_, d) => d | Err _ => db end.
Definition beside (k : nat) : World := mkWorld (fun _ => None) (fun n db => if n =? k then recorded db else db).

Lemma beside_honest k : honest key (beside k).
Proof.
  intros n db HI. cbn. destruct (n =? k); [|done]. unfold recorded.
  destruct (Store.insert_transaction key 5 "t2" tx db) as [[ins d]|] eqn:E; [|done].
  destruct (insert_transaction_row key _ _ _ _ _ _ (pi_chain _ _ HI) E) as (row & -> & _ & Hid & Hnew & Hs & Hp & Ht & Hsig).
  assert (HC := append_row_chain key row db (pi_chain _ _ HI) ltac:(by rewrite Hid) Hs Hp (event_tip_known db row Ht) Hsig).
  split; [split; [done|]|].
  - intros id Hi. cbn [with_transactions db_transactions db_approvals] in *. rewrite map_app, elem_of_app. left.
    by apply (pi_approvals _ _ HI).
  - split; [|done]. cbn [with_transactions db_transactions]. rewrite map_app. by apply prefix_app_r.
Qed.

(** The other daemon revokes the approval before statement [k]. *)
Definition revoking (k : nat) : World := mkWorld (fun _ => None) (fun n db =>
  if n =? k then match Store.revoke_unconsumed_approval (Some key) 2 "t1" (Uid 1000) db with
                 | Ok (_, d) => d | Err _ => db end
  else db).
Definition raced : Db :=
  match run (revoking 2) (claim_approved_for_execution key 3 "t1" digest (Uid 1000)) db2 with
  | Ok (_, d) => d | Err _ => empty_db end.
End PgSample.
Import Toy StoreSample PgSample.

Lemma backends_agree_witness :
  agrees (run alone (claim_approved_for_execution StoreSample.key 2 "t1" StoreSample.digest (Uid 1000)) StoreSample.db2)
    (Store.claim_approved_for_execution (Some StoreSample.key) 2 "t1" StoreSample.digest (Uid 1000) StoreSample.db2)
  /\ agrees (run alone (get "t1") StoreSample.db2) (r ← Store.get StoreSample.db2 "t1"; Ok (r, StoreSample.db2)).
Proof.
  pose proof (backends_agree StoreSample.key StoreSample.db2 StoreSample.reach2)
    as (_ & _ & _ & _ & Hc & _ & _ & _ & Hg & _). split; [apply Hc|apply Hg].
Defined.

Lemma shared_database_keeps_the_chains_witness :
  exists b db', run (PgSample.beside 2) (claim_approved_for_execution StoreSample.key 2 "t1" StoreSample.digest (Uid 1000))
    StoreSample.db2 = Ok (b, db') /\ length (db_transactions db') = 2 /\ PgInv StoreSample.key db'.
Proof.
  destruct (run (PgSample.beside 2) (claim_approved_for_execution StoreSample.key 2 "t1" StoreSample.digest (Uid 1000))
    StoreSample.db2) as [[b db']|] eqn:E; [|vm_compute in E; discriminate E].
  exists b, db'. split; [reflexivity|]. split; [vm_compute in E; injection E as <- <-; reflexivity|].
  apply (shared_database_keeps_the_chains StoreSample.key (PgSample.beside 2) _ _ _ _ _
    (PgSample.beside_honest 2) (w_claim _ 2 "t1" StoreSample.digest (Uid 1000))
    (reachable_pg _ _ StoreSample.reach2) E).
Defined.

(** The lock on the newest row does not order two recordings: a daemon that waited for it
    goes on with the sequence number it read before, and its recording fails as a violated
    invariant, though nothing is wrong with the store. *)
Lemma waiting_for_the_tip_is_an_error :
  run (PgSample.beside 2) (record StoreSample.key 6 "t3" StoreSample.tx) StoreSample.db1
  = Err (PgStoreError (DatabaseInvariant
      "postgres: duplicate key value violates unique constraint transactions_seq_key"))
  /\ is_ok (run (PgSample.beside 0) (record StoreSample.key 6 "t3" StoreSample.tx) StoreSample.db1) = true.
Proof. split; vm_compute; reflexivity. Qed.

(** A claim checks that the approval is unspent and marks it spent in two statements. A
    revocation that commits in between succeeds, and so does the claim: the transaction runs
    on a revoked approval, and the trail verifies. *)
Lemma claim_after_revocation :
  exists db', run (PgSample.revoking 2)
      (claim_approved_for_execution StoreSample.key 3 "t1" StoreSample.digest (Uid 1000)) StoreSample.db2 = Ok (true, db')
    /\ map er_kind (db_events db')
       = ["approval_granted"; "approval_revoked"; "approval_consumed"; "status_running"]
    /\ tx_status <$> find_tx db' "t1" = Some Running
    /\ is_ok (Store.revoke_unconsumed_approval (Some StoreSample.key) 2 "t1" (Uid 1000) StoreSample.db2) = true
    /\ Store.status_matches_chain db' = Agrees 1.
Proof. eexists. split; [vm_compute; reflexivity|]. vm_compute. split_and!; reflexivity. Qed.
