(* ===== verification/Actions.v ===== *)
(** * Action specifications and exclusive resources

    crates/sysknife-daemon/src/actions/mod.rs: what an action is once its
    parameters are checked, and which system lock its argv contends for; from
    executor.rs the results of running one and the rollback that reverts it.
    [ActionCatalogue] is the interface the rest of the daemon reads the catalogue
    through. *)

From Stdlib Require Import Ascii String NArith ZArith.
From stdpp Require Import base list strings countable gmap.
From S2P Require Import Prelude Json Types.

(** Observer-callable actions that still mutate the host. *)
Definition OBSERVER_MUTATING_ACTIONS : list string := ["AptUpdate"].

Inductive ActionMechanism : Type :=
| Command (program : string) (args : list string)
| FileScan (path : string)
| FileWrite (path content : string)
| FilePatch (path search replace : string)
| FileDelete (path : string).

Record ActionSpec : Type := mkSpec {
  action_name : string;
  mechanism : ActionMechanism;
  spec_risk_level : RiskLevel;
  spec_reboot_required : bool;
  spec_rollback_available : bool }.

#[export] Instance ActionMechanism_eq_dec : EqDecision ActionMechanism.
Proof. solve_decision. Defined.
#[export] Instance ActionSpec_eq_dec : EqDecision ActionSpec.
Proof. solve_decision. Defined.

(** ** Exclusive resources *)

Inductive ExclusiveResource : Type := System | Dpkg | Snap | RpmOstree | Flatpak.

#[export] Instance ExclusiveResource_eq_dec : EqDecision ExclusiveResource.
Proof. solve_decision. Defined.

Definition resource_code (r : ExclusiveResource) : nat :=
  match r with System => 0 | Dpkg => 1 | Snap => 2 | RpmOstree => 3 | Flatpak => 4 end.
Definition resource_of_code (n : nat) : option ExclusiveResource :=
  [System; Dpkg; Snap; RpmOstree; Flatpak] !! n.

#[export] Instance ExclusiveResource_countable : Countable ExclusiveResource.
Proof. apply (inj_countable resource_code resource_of_code). by intros []. Defined.

Definition label (r : ExclusiveResource) : string :=
  match r with
  | System => "the system (a reboot-required action)"
  | Dpkg => "the dpkg/apt lock"
  | Snap => "the snapd change queue"
  | RpmOstree => "the rpm-ostree transaction lock"
  | Flatpak => "the flatpak installation lock"
  end.

(** The tool names a resource is recognised by. *)
Definition resource_of_tool (name : string) : option ExclusiveResource :=
  if str_in name ["apt-get"; "apt"; "apt-mark"; "aptitude"; "dpkg"; "dpkg-reconfigure";
                  "add-apt-repository"; "do-release-upgrade"; "unattended-upgrade"; "apt-pin-edit"]
  then Some Dpkg
  else if str_in name ["snap"; "snap-install-hold"] then Some Snap
  else if str_in name ["rpm-ostree"; "ostree"] then Some RpmOstree
  else if (name =? "flatpak")%string then Some Flatpak
  else None.

(** [token.split(is_whitespace or one of & | ; ( )).filter(non-empty)]: white
    space splits first, then each operator; the empty words go in the end. *)
Definition shell_words (token : string) : list string :=
  List.filter (fun w => negb (is_empty w))
    (fold_right (fun op ws => flat_map (split_on op) ws) (split_whitespace token)
       ["&"; "|"; ";"; "("; ")"]%char).

(** [token.rsplit('/').next()] *)
Definition basename (word : string) : string := List.last (split_on "/"%char word) word.

Definition exclusive_resource (spec : ActionSpec) : option ExclusiveResource :=
  match mechanism spec with
  | Command program args =>
      find_map (fun word => resource_of_tool (basename word))
        (flat_map shell_words (program :: args))
  | _ => None
  end.

(** ** Running an action *)

Inductive ExecutorError : Type :=
| UnknownAction (name : string)
| MissingParam (key : string)
| InvalidParam (key : string)
| InvalidIpAddress (param value : string)
| ExecIo (e : string)
| ActionNotStopped (program : string) (pgid : Z) (timeout_secs : N).

#[export] Instance ExecutorError_eq_dec : EqDecision ExecutorError.
Proof. solve_decision. Defined.

(** The [Display] of the error; an [io::Error] is the text it displays as. *)
Definition show_executor_error (e : ExecutorError) : string :=
  match e with
  | UnknownAction name => "unknown action: " ++ name
  | MissingParam key => "missing required param: " ++ key
  | InvalidParam key => "invalid param type for: " ++ key
  | InvalidIpAddress param value => "invalid IP address for param '" ++ param ++ "': '" ++ value ++ "'"
  | ExecIo e => "io error: " ++ e
  | ActionNotStopped program pgid timeout_secs =>
      program ++ " exceeded the " ++ dec_of_N timeout_secs ++ "s action timeout and could not be "
      ++ "confirmed stopped: process group " ++ dec_of_Z pgid ++ " still has members. Automatic "
      ++ "rollback was skipped because the original action may still be running; "
      ++ "inspect the host before retrying"
  end.

Record ExecutionOutput : Type := mkOutput {
  stdout : string; stderr : string; exit_code : Z }.

Definition is_success (o : ExecutionOutput) : bool := (exit_code o =? 0)%Z.
Definition is_nonzero (o : ExecutionOutput) : bool := negb (exit_code o =? 0)%Z.

Definition ROLLED_BACK_ACTIONS : list string := [
  "UpdateSystem"; "InstallPackages"; "RemovePackages"; "RebaseSystem"; "SetKernelArguments";
  "AddLayeredPackage"; "RemoveLayeredPackage"; "ReplaceLayeredPackage";
  "ResetLayeredPackageOverride"; "RemoveBasePackage"].

Definition rollback_spec_for (name : string) : option ActionSpec :=
  if str_in name ROLLED_BACK_ACTIONS
  then Some {| action_name := "RollbackDeployment";
               mechanism := Command "rpm-ostree" ["rollback"];
               spec_risk_level := High; spec_reboot_required := true;
               spec_rollback_available := false |}
  else None.

(** ** The catalogue's interface *)

Record SpecMeta : Type := mkMeta {
  risk_level : RiskLevel; reboot_required : bool; rollback_available : bool }.

(** [spec_meta] (actions/mod.rs), [build_action_spec] and
    [validate_action_params] (executor.rs), [preview_action] (preview.rs). *)
Class ActionCatalogue : Type := {
  spec_meta : string -> option SpecMeta;
  validate_action_params : string -> json -> result ExecutorError ();
  build_action_spec : string -> json -> result ExecutorError ActionSpec;
  preview_action : RequestEnvelope -> json -> json -> PreviewEnvelope }.

(** What clients may rely on: a built spec is the catalogued action it was
    asked for. *)
Class ActionCatalogueLaws `{ActionCatalogue} : Prop := {
  build_names_action : forall name params spec,
    build_action_spec name params = Ok spec -> action_name spec = name;
  build_catalogued : forall name params spec,
    build_action_spec name params = Ok spec ->
    spec_meta name = Some (mkMeta (spec_risk_level spec) (spec_reboot_required spec)
                             (spec_rollback_available spec)) }.
