(* ===== verification/Executor.v ===== *)
(** * Running an action

    crates/sysknife-daemon/src/executor.rs, lines 20 to 606 and 2000 to 2121: the
    supervision of a privileged child (its deadline, the ladder of signals that
    stops it, the privileged reaper) and the file mechanisms.

    Everything the executor does to the machine is an operation of [Host], a
    class of functions on an abstract machine state; the executor is written in
    the state monad [host] over it. [HostLaws] is what it relies on: what the
    timers of tokio promise, and that signals and probes take no time. Times are
    milliseconds. *)

From Stdlib Require Import Ascii String NArith ZArith Lia.
From stdpp Require Import base list strings.
From S2P Require Import Prelude Json Types Actions.

(** ** Results of the operations *)

Inductive GroupState : Type :=
| Gone
| AliveReachable
| AliveUnreachable
| Unknown (errno : Z).

#[export] Instance GroupState_eq_dec : EqDecision GroupState.
Proof. solve_decision. Defined.

Definition is_gone (g : GroupState) : bool := match g with Gone => true | _ => false end.

(** [lines.next_line()] *)
Inductive LineEvent : Type :=
| Line (line : string)
| Eof
| ReadError (e : string).

(** [child.wait()]; [ExitStatus::code] is [None] for a child a signal ended. *)
Inductive WaitEvent : Type :=
| Exited (code : option Z)
| WaitError (e : string).

(** How a reader task ended: with its bytes, or with a message. *)
Inductive ReaderEnd : Type :=
| ReaderBytes (bytes : string)
| ReaderIo (e : string)
| ReaderPanicked (e : string).

(** Why a running child is torn down. *)
Inductive StopCause : Type :=
| Timeout
| Unreadable (e : string).

(** ** The machine *)

Class Host : Type := {
  hs : Type;
  (* the clock *)
  now : hs -> N;
  sleep : N -> hs -> hs;
  (* std::env::var("SYSKNIFE_ACTION_TIMEOUT_SECS") *)
  timeout_var : option string;
  (* Command::spawn, and what tokio offers on the child *)
  spawn : string -> list string -> hs -> result string () * hs;
  child_id : hs -> option N;
  start_kill : hs -> hs;
  reap_child : N -> hs -> hs;
  next_line : N -> hs -> option LineEvent * hs;
  wait_exit : N -> hs -> option WaitEvent * hs;
  join_stdout : hs -> option ReaderEnd * hs;
  join_stderr : hs -> option ReaderEnd * hs;
  (* libc::killpg: the error number, when it fails *)
  killpg : Z -> Z -> hs -> option Z * hs;
  (* sudo, awaited for at most a time *)
  sudo : N -> list string -> hs -> hs;
  (* the file system: tokio::fs *)
  read_dir : string -> hs -> result string (list string) * hs;
  create_dir_all : string -> hs -> result string () * hs;
  write_file : string -> string -> hs -> result string () * hs;
  read_to_string : string -> hs -> result string string * hs;
  remove_file : string -> hs -> result string () * hs }.

(** [timeout_at(deadline, ..)] answers at the deadline at the latest, with
    [None] when it elapsed; [timeout(cap, ..)] within the cap. By a given time a
    child writes finitely many lines: [backlog] counts those still unread. *)
Class HostLaws `{Host} : Type := {
  backlog : N -> hs -> nat;
  now_sleep : forall d s, (now (sleep d s) = now s + d)%N;
  now_start_kill : forall s, now (start_kill s) = now s;
  now_killpg : forall g sig s, now (killpg g sig s).2 = now s;
  probe_only : forall g s, (killpg g 0 s).2 = s;
  now_reap : forall cap s, (now s <= now (reap_child cap s) <= now s + cap)%N;
  now_sudo : forall cap args s, (now s <= now (sudo cap args s) <= now s + cap)%N;
  now_next_line : forall deadline s, (now s <= deadline)%N ->
    (now s <= now (next_line deadline s).2 <= deadline)%N;
  next_line_backlog : forall deadline s line, (next_line deadline s).1 = Some (Line line) ->
    backlog deadline (next_line deadline s).2 < backlog deadline s;
  now_wait : forall deadline s, (now s <= deadline)%N ->
    (now s <= now (wait_exit deadline s).2 <= deadline)%N }.

(** ** The monad *)

(** How a call ends: with a value; waiting for something that never comes; by a
    panic of the task; or, for the loop over the lines, with too little fuel. *)
Inductive ending (A : Type) : Type :=
| Done (a : A)
| Blocked
| Panicked
| OutOfFuel.
Arguments Done {A} a. Arguments Blocked {A}. Arguments Panicked {A}. Arguments OutOfFuel {A}.


Section Executor.
Context `{Host}.

Definition host (A : Type) : Type := hs -> A * hs.

#[export] Instance host_ret : MRet host := fun A a s => (a, s).
#[export] Instance host_bind : MBind host := fun A B f m s => let '(a, s') := m s in f a s'.

Definition host_do (f : hs -> hs) : host () := fun s => (tt, f s).
Definition host_get {A} (f : hs -> A) : host A := fun s => (f s, s).

(** ** Constants *)

Definition DEFAULT_ACTION_TIMEOUT : N := 2 * 60 * 60.
Definition GROUP_TERM_GRACE : N := 5000.
Definition REAP_WAIT_CAP : N := 2000.
Definition SIGTERM : Z := 15.
Definition SIGKILL : Z := 9.
Definition ESRCH : Z := 3.
Definition EPERM : Z := 1.

(** [action_timeout], in seconds. *)
Definition action_timeout : N :=
  match timeout_var with
  | Some raw =>
      match parse_u64 (str_trim raw) with
      | Some secs => if (0 <? secs)%N then secs else DEFAULT_ACTION_TIMEOUT
      | None => DEFAULT_ACTION_TIMEOUT
      end
  | None => DEFAULT_ACTION_TIMEOUT
  end.

(** [Instant::now() + action_timeout()]: the addition panics when the seconds
    leave the range of an i64. *)
Definition INSTANT_MAX_SECS : N := 9223372036854775807.
Definition deadline_after (secs : N) (s : hs) : option N :=
  if (now s / 1000 + secs <=? INSTANT_MAX_SECS)%N then Some (now s + secs * 1000)%N else None.

(** ** Process groups *)

Definition probe_group (pgid : Z) : host GroupState :=
  rc ← killpg pgid 0;
  mret match rc with
       | None => AliveReachable
       | Some e => if (e =? ESRCH)%Z then Gone
                   else if (e =? EPERM)%Z then AliveUnreachable else Unknown e
       end.

(** [signal_group]: [ESRCH] is success. *)
Definition signal_group (pgid signal : Z) : host (result Z ()) :=
  rc ← killpg pgid signal;
  mret match rc with
       | None => Ok tt
       | Some e => if (e =? ESRCH)%Z then Ok tt else Err e
       end.

Definition is_rpm_ostree_action (program : string) (args : list string) : bool :=
  let is_ostree s := (s =? "rpm-ostree")%string || ends_with "/rpm-ostree" s in
  is_ostree program || existsb is_ostree args.

Definition root_group_kill_argv (signal : string) (pgid : Z) : list string :=
  ["-n"; "/usr/lib/sysknife/action-steps"; "signal"; signal; ("-" ++ dec_of_Z pgid)%string].

Definition run_sudo (args : list string) : host () := host_do (sudo REAP_WAIT_CAP args).

Definition reap_command (pgid : Z) (program : string) (args : list string) : list string :=
  if is_rpm_ostree_action program args then ["-n"; "/usr/bin/rpm-ostree"; "cancel"]
  else root_group_kill_argv "TERM" pgid.

Definition privileged_reap (pgid : Z) (program : string) (args : list string) : host () :=
  _ ← run_sudo (reap_command pgid program args);
  if is_rpm_ostree_action program args then mret tt
  else
    _ ← host_do (sleep 300);
    g ← probe_group pgid;
    if negb (is_gone g) then run_sudo (root_group_kill_argv "KILL" pgid) else mret tt.

(** ** Stopping a child *)

(** [while Instant::now() < grace && !probe_group(pgid).is_gone() { sleep 50 ms }].
    The poll interval divides the grace period, so [GRACE_POLLS] rounds are
    enough. *)
Definition GRACE_POLLS : nat := 101.
Fixpoint grace_loop (rounds : nat) (pgid : Z) (grace : N) : host () :=
  match rounds with
  | O => mret tt
  | S rounds' =>
      t ← host_get now;
      if negb (t <? grace)%N then mret tt
      else
        g ← probe_group pgid;
        if is_gone g then mret tt
        else _ ← host_do (sleep 50); grace_loop rounds' pgid grace
  end.

(** [StopCause::into_error] *)
Definition into_error (cause : StopCause) (program : string) (secs : N) : ExecutorError :=
  match cause with
  | Timeout => ExecIo (program ++ " exceeded the " ++ dec_of_N secs
                       ++ "s action timeout and was stopped")%string
  | Unreadable e => ExecIo e
  end.

(** [pid as i32] *)
Definition as_i32 (pid : N) : Z :=
  let w := (Z.of_N pid mod 2 ^ 32)%Z in if (w <? 2 ^ 31)%Z then w else (w - 2 ^ 32)%Z.

(** SIGTERM, then SIGKILL if the group outlives the grace period. *)
Definition signal_ladder (pgid : Z) : host () :=
  _ ← signal_group pgid SIGTERM;
  _ ← host_do (reap_child REAP_WAIT_CAP);
  start ← host_get now;
  _ ← grace_loop GRACE_POLLS pgid (start + GROUP_TERM_GRACE);
  g ← probe_group pgid;
  if negb (is_gone g) then
    _ ← signal_group pgid SIGKILL;
    _ ← host_do (sleep 200);
    host_do (reap_child REAP_WAIT_CAP)
  else mret tt.

(** The escalation, for members the daemon may not signal. *)
Definition escalate (pgid : Z) (program : string) (args : list string) : host () :=
  g ← probe_group pgid;
  if bool_decide (g = AliveUnreachable) then
    _ ← privileged_reap pgid program args;
    _ ← host_do (sleep 200);
    host_do (reap_child REAP_WAIT_CAP)
  else mret tt.

Definition kill_and_reap (program : string) (args : list string) (cause : StopCause)
    : host ExecutorError :=
  let secs := action_timeout in
  id ← host_get child_id;
  match id with
  | None => mret (into_error cause program secs)
  | Some pid =>
      let pgid := as_i32 pid in
      _ ← host_do start_kill;
      _ ← signal_ladder pgid;
      _ ← escalate pgid program args;
      g ← probe_group pgid;
      mret match g with
           | Gone => into_error cause program secs
           | _ => ActionNotStopped program pgid secs
           end
  end.

(** ** Running a command *)

(** *** [String::from_utf8_lossy]: each maximal ill-formed part becomes U+FFFD *)

Definition in_range (lo hi : nat) (s : string) : bool :=
  match s with String c _ => between lo hi c | EmptyString => false end.

(** The length of the well-formed sequence [String c rest] starts with, or of
    the ill-formed part that is replaced. *)
Definition utf8_step (c : ascii) (rest : string) : nat * bool :=
  let cont n := in_range 128 191 (str_drop n rest) in
  if between 0 127 c then (1, true)
  else if between 194 223 c then if cont 0 then (2, true) else (1, false)
  else
    let second :=
      if between 224 224 c then in_range 160 191 rest
      else if between 237 237 c then in_range 128 159 rest
      else if between 225 239 c then cont 0
      else if between 240 240 c then in_range 144 191 rest
      else if between 244 244 c then in_range 128 143 rest
      else if between 241 243 c then cont 0
      else false in
    if negb second then (1, false)
    else if negb (cont 1) then (2, false)
    else if between 224 239 c then (3, true)
    else if cont 2 then (4, true) else (3, false).

Definition REPLACEMENT : string := enc [239; 191; 189].

Fixpoint from_utf8_lossy_go (fuel : nat) (s : string) : string :=
  match fuel, s with
  | S fuel', String c rest =>
      let '(n, ok) := utf8_step c rest in
      ((if ok then str_take n s else REPLACEMENT) ++ from_utf8_lossy_go fuel' (str_drop n s))%string
  | _, _ => EmptyString
  end.
Definition from_utf8_lossy (s : string) : string := from_utf8_lossy_go (String.length s) s.

(** *** The two ways a command runs *)

(** Joining the reader of a stream: its text, the error of the read, or that of
    the join with [panicked]. *)
Definition join_reader (join : hs -> option ReaderEnd * hs) (panicked : string -> string)
    : host (ending (result ExecutorError string)) :=
  ended ← join;
  mret match ended with
       | None => Blocked
       | Some (ReaderBytes bytes) => Done (Ok (from_utf8_lossy bytes))
       | Some (ReaderIo e) => Done (Err (ExecIo e))
       | Some (ReaderPanicked e) => Done (Err (ExecIo (panicked e)))
       end.

Definition exit_status (code : option Z) : Z := default (-1)%Z code.

(** What the wait for the exit status answered; [Ok] when there is one. *)
Definition await_exit (deadline : N) (program : string) (args : list string)
    : host (result ExecutorError (option Z)) :=
  status ← wait_exit deadline;
  match status with
  | Some (Exited code) => mret (Ok code)
  | Some (WaitError e) => err ← kill_and_reap program args (Unreadable e); mret (Err err)
  | None => err ← kill_and_reap program args Timeout; mret (Err err)
  end.

(** The loop over the lines of the child: those sent as progress, and the whole
    standard output, or the error of the teardown. *)
Fixpoint read_lines (fuel : nat) (deadline : N) (program : string) (args : list string)
    (sent : list string) (buf : string)
    : host (list string * ending (result ExecutorError string)) :=
  match fuel with
  | O => mret (sent, OutOfFuel)
  | S fuel' =>
      next ← next_line deadline;
      match next with
      | None => err ← kill_and_reap program args Timeout; mret (sent, Done (Err err))
      | Some (ReadError e) =>
          err ← kill_and_reap program args (Unreadable e); mret (sent, Done (Err err))
      | Some Eof => mret (sent, Done (Ok buf))
      | Some (Line line) =>
          read_lines fuel' deadline program args
            (if is_empty line then sent else sent ++ [line])
            (buf ++ line ++ String LF EmptyString)
      end
  end.

Definition execute_command_with_progress (fuel : nat) (program : string) (args : list string)
    : host (list string * ending (result ExecutorError ExecutionOutput)) :=
  spawned ← spawn program args;
  match spawned with
  | Err e => mret ([], Done (Err (ExecIo e)))
  | Ok _ =>
      d ← host_get (deadline_after action_timeout);
      match d with
      | None => mret ([], Panicked)
      | Some deadline =>
          '(sent, read) ← read_lines fuel deadline program args [] "";
          match read with
          | Done (Err e) => mret (sent, Done (Err e))
          | Blocked => mret (sent, Blocked)
          | Panicked => mret (sent, Panicked)
          | OutOfFuel => mret (sent, OutOfFuel)
          | Done (Ok out) =>
              status ← await_exit deadline program args;
              match status with
              | Err e => mret (sent, Done (Err e))
              | Ok code =>
                  err ← join_reader join_stderr (fun _ => "stderr reader task panicked");
                  mret (sent, match err with
                              | Done (Ok err) => Done (Ok (mkOutput out err (exit_status code)))
                              | Done (Err e) => Done (Err e)
                              | Blocked => Blocked
                              | Panicked => Panicked
                              | OutOfFuel => OutOfFuel
                              end)
              end
          end
      end
  end.

(** ** [execute_spec] *)

(** [timeout(action_timeout(), child.wait())]: a deadline beyond the clock's range
    is as good as none, and is kept as it is. *)
Definition execute_command (program : string) (args : list string)
    : host (ending (result ExecutorError ExecutionOutput)) :=
  spawned ← spawn program args;
  match spawned with
  | Err e => mret (Done (Err (ExecIo e)))
  | Ok _ =>
      start ← host_get now;
      status ← await_exit (start + action_timeout * 1000) program args;
      match status with
      | Err e => mret (Done (Err e))
      | Ok code =>
          let join e := "reader task panicked: " ++ e in
          out ← join_reader join_stdout join;
          match out with
          | Done (Ok out) =>
              err ← join_reader join_stderr join;
              mret match err with
                   | Done (Ok err) => Done (Ok (mkOutput out err (exit_status code)))
                   | Done (Err e) => Done (Err e)
                   | Blocked => Blocked
                   | Panicked => Panicked
                   | OutOfFuel => OutOfFuel
                   end
          | Done (Err e) => mret (Done (Err e))
          | Blocked => mret Blocked
          | Panicked => mret Panicked
          | OutOfFuel => mret OutOfFuel
          end
      end
  end%string.

(** *** Files *)

(** [str::replacen(search, replace, 1)] *)
Fixpoint replace_first (search replace s : string) : string :=
  match strip_prefix search s with
  | Some rest => replace ++ rest
  | None => match s with String c s' => String c (replace_first search replace s') | EmptyString => s end
  end%string.

(** [names.sort()]: strings by their bytes. *)
Fixpoint insert_sorted (name : string) (names : list string) : list string :=
  match names with
  | [] => [name]
  | n :: rest => if String.leb name n then name :: names else n :: insert_sorted name rest
  end.
Definition sort_names (names : list string) : list string := fold_right insert_sorted [] names.

(** [Path::parent] of a path with no trailing or doubled separator: the paths of
    the catalogue are "/etc/yum.repos.d/" and one component. *)
Fixpoint parent_go (s : string) : option string :=
  match s with
  | EmptyString => None
  | String c s' =>
      match parent_go s' with
      | Some p => Some (String c p)
      | None => if (c =? "/")%char then Some EmptyString else None
      end
  end.
Definition parent (path : string) : option string :=
  match path with
  | EmptyString => None
  | String c rest =>
      match parent_go path with
      | None => Some EmptyString
      | Some EmptyString => if is_empty rest then None else Some (String c EmptyString)
      | p => p
      end
  end.

Definition file_output (out err : string) (code : Z)
    : ending (result ExecutorError ExecutionOutput) := Done (Ok (mkOutput out err code)).
Definition io_failure (e : string) : ending (result ExecutorError ExecutionOutput) :=
  Done (Err (ExecIo e)).

Definition execute_spec (spec : ActionSpec) : host (ending (result ExecutorError ExecutionOutput)) :=
  match mechanism spec with
  | Command program args => execute_command program args
  | FileScan path =>
      entries ← read_dir path;
      mret match entries with
           | Err e => io_failure e
           | Ok names => file_output (join (String LF EmptyString) (sort_names names)) "" 0
           end
  | FileWrite path content =>
      made ← match parent path with
             | Some dir => create_dir_all dir
             | None => mret (Ok tt)
             end;
      match made with
      | Err e => mret (io_failure e)
      | Ok _ =>
          written ← write_file path content;
          mret match written with Err e => io_failure e | Ok _ => file_output "" "" 0 end
      end
  | FilePatch path search replace =>
      read ← read_to_string path;
      match read with
      | Err e => mret (io_failure e)
      | Ok content =>
          let patched := replace_first search replace content in
          if (patched =? content)%string && negb (is_empty search)
          then mret (file_output "" ("search string not found in file: " ++ path)%string 1)
          else
            written ← write_file path patched;
            mret match written with Err e => io_failure e | Ok _ => file_output "" "" 0 end
      end
  | FileDelete path =>
      removed ← remove_file path;
      mret match removed with Err e => io_failure e | Ok _ => file_output "" "" 0 end
  end.

(** [RealActionExecutor::execute_with_progress] *)
Definition execute_with_progress (fuel : nat) (spec : ActionSpec)
    : host (list string * ending (result ExecutorError ExecutionOutput)) :=
  match mechanism spec with
  | Command program args => execute_command_with_progress fuel program args
  | _ => out ← execute_spec spec; mret ([], out)
  end.

(** ** Reasoning about [host] *)

Definition wp {A} (m : host A) (Q : A -> hs -> Prop) (s : hs) : Prop := Q (m s).1 (m s).2.

Lemma wp_ret {A} (a : A) Q s : Q a s -> wp (mret a) Q s.
Proof. done. Qed.
Lemma wp_do f (Q : () -> hs -> Prop) s : Q tt (f s) -> wp (host_do f) Q s.
Proof. done. Qed.
Lemma wp_get {A} (f : hs -> A) Q s : Q (f s) s -> wp (host_get f) Q s.
Proof. done. Qed.
Lemma wp_bind {A B} (m : host A) (f : A -> host B) Q s :
  wp m (fun a => wp (f a) Q) s -> wp (m ≫= f) Q s.
Proof. unfold wp, mbind, host_bind. by destruct (m s) as [a s']. Qed.
Lemma wp_mono {A} (m : host A) (Q Q' : A -> hs -> Prop) s :
  (forall a s', Q a s' -> Q' a s') -> wp m Q s -> wp m Q' s.
Proof. unfold wp. auto. Qed.
Lemma wp_run {A} (m : host A) Q s a s' : wp m Q s -> m s = (a, s') -> Q a s'.
Proof. unfold wp. intros Hw E. by rewrite E in Hw. Qed.

(** What the group is, at a state. *)
Definition group_at (pgid : Z) (s : hs) : GroupState := (probe_group pgid s).1.

(** A property kept by everything the teardown of a child does to the machine:
    waiting, killing the child itself, signalling its group, and, while the group
    cannot be signalled, the privileged reaper. *)
Record kept (pgid : Z) (program : string) (args : list string) (I : hs -> Prop) : Prop := {
  kept_sleep : forall d s, I s -> I (sleep d s);
  kept_reap : forall cap s, I s -> I (reap_child cap s);
  kept_start_kill : forall s, I s -> I (start_kill s);
  kept_signal : forall sig s, sig = 0%Z \/ sig = SIGTERM \/ sig = SIGKILL -> I s ->
    I (killpg pgid sig s).2;
  kept_root : forall s, group_at pgid s = AliveUnreachable -> I s ->
    I (sudo REAP_WAIT_CAP (reap_command pgid program args) s);
  kept_root_kill : forall s, is_rpm_ostree_action program args = false ->
    group_at pgid s <> Gone -> I s ->
    I (sudo REAP_WAIT_CAP (root_group_kill_argv "KILL" pgid) s) }.

End Executor.

Ltac wstep :=
  match goal with
  | |- wp (_ ≫= _) _ _ => apply wp_bind
  | |- wp (mret _) _ _ => apply wp_ret
  | |- wp (host_do _) _ _ => apply wp_do
  | |- wp (host_get _) _ _ => apply wp_get
  | |- wp (match ?x with _ => _ end) _ _ => destruct x eqn:?
  end.

Section Laws.
Context `{HostLaws}.

Lemma wp_probe pgid (Q : GroupState -> hs -> Prop) s :
  Q (group_at pgid s) s -> wp (probe_group pgid) Q s.
Proof.
  unfold wp, group_at, probe_group, mbind, host_bind. pose proof (probe_only pgid s) as E.
  destruct (killpg pgid 0 s) as [rc s']. cbn in *. by subst s'.
Qed.

Lemma wp_signal pgid sig (Q : result Z () -> hs -> Prop) s :
  (forall r, Q r (killpg pgid sig s).2) -> wp (signal_group pgid sig) Q s.
Proof.
  intros HQ. unfold wp, signal_group, mbind, host_bind. destruct (killpg pgid sig s) as [rc s'].
  apply HQ.
Qed.

(** *** The teardown does nothing but stop its own group *)

Section Kept.
Context (pid : N) (program : string) (args : list string) (I : hs -> Prop).
Context (HI : kept (as_i32 pid) program args I).

Lemma grace_keeps rounds grace s :
  I s -> wp (grace_loop rounds (as_i32 pid) grace) (fun _ => I) s.
Proof.
  revert s. induction rounds as [|rounds IH]; intros s HIs; cbn [grace_loop]; [by wstep|].
  do 2 wstep. destruct (negb _); [by wstep|]. wstep. apply wp_probe.
  destruct (is_gone _); [by wstep|]. do 2 wstep. apply IH. by apply (kept_sleep _ _ _ _ HI).
Qed.

Lemma ladder_keeps s : I s -> wp (signal_ladder (as_i32 pid)) (fun _ => I) s.
Proof.
  intros HIs. unfold signal_ladder. wstep. apply wp_signal. intros _. do 2 wstep. do 3 wstep.
  eapply wp_mono; [|apply grace_keeps].
  - intros ? s' Hs'. wstep. apply wp_probe. destruct (negb _); [|by wstep].
    wstep. apply wp_signal. intros _. do 3 wstep.
    apply (kept_reap _ _ _ _ HI), (kept_sleep _ _ _ _ HI), (kept_signal _ _ _ _ HI); [|done].
    unfold SIGKILL. lia.
  - apply (kept_reap _ _ _ _ HI), (kept_signal _ _ _ _ HI); [|done]. unfold SIGTERM. lia.
Qed.

Lemma escalate_keeps s : I s -> wp (escalate (as_i32 pid) program args) (fun _ => I) s.
Proof.
  intros HIs. unfold escalate. wstep. apply wp_probe. case_bool_decide as Hg; [|by wstep].
  wstep. unfold privileged_reap, run_sudo. do 2 wstep.
  pose proof (kept_root _ _ _ _ HI s Hg HIs) as H1. revert H1.
  generalize (sudo REAP_WAIT_CAP (reap_command (as_i32 pid) program args) s). intros s1 H1.
  assert (Hend : forall s2, I s2 ->
    wp (_ ← host_do (sleep 200); host_do (reap_child REAP_WAIT_CAP)) (fun _ => I) s2).
  { intros s2 H2. do 3 wstep. by apply (kept_reap _ _ _ _ HI), (kept_sleep _ _ _ _ HI). }
  destruct (is_rpm_ostree_action program args) eqn:Ho; [wstep; by apply Hend|].
  do 3 wstep. apply wp_probe. pose proof (kept_sleep _ _ _ _ HI 300%N s1 H1) as H2.
  destruct (group_at (as_i32 pid) (sleep 300 s1)) eqn:Hg'; cbn [is_gone negb].
  1: { wstep. by apply Hend. }
  all: wstep; apply Hend, (kept_root_kill _ _ _ _ HI); [done|by rewrite Hg'|done].
Qed.
End Kept.

(** *** How long it takes *)

Definition within (d : N) (s s' : hs) : Prop := (now s <= now s' <= now s + d)%N.

Lemma grace_within rounds pgid grace s :
  wp (grace_loop rounds pgid grace)
    (fun _ s' => (now s <= now s' /\ (now s' <= now s \/ now s' <= grace + 50))%N) s.
Proof.
  revert s. induction rounds as [|rounds IH]; intros s; cbn [grace_loop]; [wstep; lia|].
  do 2 wstep. destruct (N.ltb_spec (now s) grace) as [Hlt|]; cbn [negb]; [|wstep; lia].
  wstep. apply wp_probe. destruct (is_gone _); [wstep; lia|]. do 2 wstep.
  eapply wp_mono; [|apply IH]. cbn. intros _ s'. rewrite now_sleep. lia.
Qed.

(** The rounds never run out: at the end the group is gone or the period over. *)
Lemma grace_loop_ends rounds pgid grace s :
  (grace < now s + 50 * N.of_nat rounds)%N ->
  wp (grace_loop rounds pgid grace)
    (fun _ s' => group_at pgid s' = Gone \/ (grace <= now s')%N) s.
Proof.
  revert s. induction rounds as [|rounds IH]; intros s Hr; cbn [grace_loop]; [wstep; lia|].
  do 2 wstep. destruct (N.ltb_spec (now s) grace) as [Hlt|]; cbn [negb]; [|wstep; lia].
  wstep. apply wp_probe. destruct (group_at pgid s) eqn:Hg; cbn [is_gone].
  1: { wstep. by left. }
  all: do 2 wstep; apply IH; rewrite now_sleep; lia.
Qed.

Lemma ladder_within pgid s : wp (signal_ladder pgid) (fun _ => within 9250 s) s.
Proof.
  unfold signal_ladder, GROUP_TERM_GRACE, REAP_WAIT_CAP, within. wstep. apply wp_signal. intros _.
  pose proof (now_killpg pgid SIGTERM s) as H1. revert H1.
  generalize (killpg pgid SIGTERM s).2. intros s1 H1. do 2 wstep.
  pose proof (now_reap 2000 s1) as H2. revert H2. generalize (reap_child 2000 s1). intros s2 H2.
  do 3 wstep. eapply wp_mono; [|apply grace_within]. cbn. intros _ s3 H3.
  wstep. apply wp_probe. destruct (negb _); [|wstep; lia].
  wstep. apply wp_signal. intros _. do 3 wstep.
  pose proof (now_killpg pgid SIGKILL s3) as H4.
  pose proof (now_reap 2000 (sleep 200 (killpg pgid SIGKILL s3).2)) as H5.
  rewrite now_sleep in H5. lia.
Qed.

Lemma privileged_within pgid program args s :
  wp (privileged_reap pgid program args) (fun _ => within 4300 s) s.
Proof.
  unfold privileged_reap, run_sudo, REAP_WAIT_CAP, within. do 2 wstep.
  pose proof (now_sudo 2000 (reap_command pgid program args) s) as H1. revert H1.
  generalize (sudo 2000 (reap_command pgid program args) s). intros s1 H1.
  wstep; [wstep; lia|]. do 3 wstep. apply wp_probe. destruct (negb _); wstep; rewrite ?now_sleep; [|lia].
  pose proof (now_sudo 2000 (root_group_kill_argv "KILL" pgid) (sleep 300 s1)) as H2.
  rewrite now_sleep in H2. lia.
Qed.

Lemma escalate_within pgid program args s :
  wp (escalate pgid program args) (fun _ => within 6500 s) s.
Proof.
  unfold escalate. wstep. apply wp_probe. case_bool_decide as Hg; [|wstep; unfold within; lia].
  wstep. eapply wp_mono; [|apply privileged_within]. intros ? s1 H1. do 3 wstep.
  pose proof (now_reap REAP_WAIT_CAP (sleep 200 s1)) as H2. rewrite now_sleep in H2.
  unfold within, REAP_WAIT_CAP in *. lia.
Qed.

(** The longest a teardown can take, in milliseconds. *)
Definition STOP_BOUND : N := 15750.

Lemma kill_and_reap_within program args cause s :
  wp (kill_and_reap program args cause) (fun _ => within STOP_BOUND s) s.
Proof.
  unfold kill_and_reap. do 2 wstep. destruct (child_id s); [|wstep; unfold within; lia].
  do 2 wstep. wstep. eapply wp_mono; [|apply ladder_within]. intros ? s1 H1.
  wstep. eapply wp_mono; [|apply escalate_within]. intros ? s2 H2.
  wstep. apply wp_probe. wstep. unfold within, STOP_BOUND in *. rewrite now_start_kill in H1. lia.
Qed.

(** *** What it reports *)

Definition verdict (program : string) (cause : StopCause) (s : hs) (e : ExecutorError) (s' : hs)
    : Prop :=
  match child_id s with
  | None => e = into_error cause program action_timeout /\ s' = s
  | Some pid =>
      if is_gone (group_at (as_i32 pid) s') then e = into_error cause program action_timeout
      else e = ActionNotStopped program (as_i32 pid) action_timeout
  end.

Lemma wp_true {A} (m : host A) s : wp m (fun _ _ => True) s.
Proof. done. Qed.

Lemma kill_and_reap_verdict program args cause s :
  wp (kill_and_reap program args cause) (verdict program cause s) s.
Proof.
  unfold kill_and_reap. do 2 wstep. unfold verdict. destruct (child_id s) as [pid|]; [|by wstep].
  do 3 wstep. eapply wp_mono; [|apply wp_true]. intros ? s1 _. wstep.
  eapply wp_mono; [|apply wp_true]. intros ? s2 _. wstep. apply wp_probe. wstep.
  by destruct (group_at (as_i32 pid) s2).
Qed.

(** *** What a teardown has done *)

(** What the machine remembers of it, through every [I] that a teardown keeps: the child's
    group was sent SIGTERM; it was sent SIGKILL, or was found gone; and the privileged
    reaper was run, or the group was found in the daemon's reach (or gone). *)
Record tore_down (pgid : Z) (program : string) (args : list string) (s : hs) : Prop := {
  was_terminated : forall I, kept pgid program args I -> (forall s, I (killpg pgid SIGTERM s).2) -> I s;
  was_killed : forall I, kept pgid program args I -> (forall s, I (killpg pgid SIGKILL s).2) ->
    (forall s, group_at pgid s = Gone -> I s) -> I s;
  was_escalated : forall I, kept pgid program args I ->
    (forall s, I (sudo REAP_WAIT_CAP (reap_command pgid program args) s)) ->
    (forall s, group_at pgid s <> AliveUnreachable -> I s) -> I s }.

Lemma ladder_terminates pid program args I s :
  kept (as_i32 pid) program args I -> (forall s, I (killpg (as_i32 pid) SIGTERM s).2) ->
  wp (signal_ladder (as_i32 pid)) (fun _ => I) s.
Proof.
  intros HI Ht. unfold signal_ladder. wstep. apply wp_signal. intros _. do 2 wstep. do 3 wstep.
  eapply wp_mono; [|apply (grace_keeps pid program args I HI)].
  - intros ? s' Hs'. wstep. apply wp_probe. destruct (negb _); [|by wstep].
    wstep. apply wp_signal. intros _. do 3 wstep.
    apply (kept_reap _ _ _ _ HI), (kept_sleep _ _ _ _ HI), (kept_signal _ _ _ _ HI); [|done].
    unfold SIGKILL. lia.
  - apply (kept_reap _ _ _ _ HI), Ht.
Qed.

Lemma ladder_kills pid program args I s :
  kept (as_i32 pid) program args I -> (forall s, I (killpg (as_i32 pid) SIGKILL s).2) ->
  (forall s, group_at (as_i32 pid) s = Gone -> I s) ->
  wp (signal_ladder (as_i32 pid)) (fun _ => I) s.
Proof.
  intros HI Hk Hg. unfold signal_ladder. wstep. apply wp_signal. intros _. do 2 wstep. do 3 wstep.
  eapply wp_mono; [|apply wp_true]. intros ? s' _. wstep. apply wp_probe.
  destruct (group_at (as_i32 pid) s') eqn:Eg; cbn [is_gone negb]; [wstep; by apply Hg|..].
  all: wstep; apply wp_signal; intros _; do 3 wstep;
    apply (kept_reap _ _ _ _ HI), (kept_sleep _ _ _ _ HI), Hk.
Qed.

Lemma escalate_reaps pid program args I s :
  kept (as_i32 pid) program args I ->
  (forall s, I (sudo REAP_WAIT_CAP (reap_command (as_i32 pid) program args) s)) ->
  (forall s, group_at (as_i32 pid) s <> AliveUnreachable -> I s) ->
  wp (escalate (as_i32 pid) program args) (fun _ => I) s.
Proof.
  intros HI Hr Hg. unfold escalate. wstep. apply wp_probe. case_bool_decide as Hu; [|wstep; by apply Hg].
  wstep. unfold privileged_reap, run_sudo. do 2 wstep.
  pose proof (Hr s) as Hs. revert Hs. generalize (sudo REAP_WAIT_CAP (reap_command (as_i32 pid) program args) s).
  intros s1 Hs1.
  assert (Hend : forall s2, I s2 ->
    wp (_ ← host_do (sleep 200); host_do (reap_child REAP_WAIT_CAP)) (fun _ => I) s2).
  { intros s2 Hs2. do 3 wstep. by apply (kept_reap _ _ _ _ HI), (kept_sleep _ _ _ _ HI). }
  destruct (is_rpm_ostree_action program args) eqn:Ho; [wstep; by apply Hend|].
  do 3 wstep. apply wp_probe. pose proof (kept_sleep _ _ _ _ HI 300%N s1 Hs1) as Hs2.
  destruct (group_at (as_i32 pid) (sleep 300 s1)) eqn:Hg'; cbn [is_gone negb].
  1: { wstep. by apply Hend. }
  all: wstep; apply Hend, (kept_root_kill _ _ _ _ HI); [done|by rewrite Hg'|done].
Qed.

Lemma kill_and_reap_tears_down program args cause s pid :
  child_id s = Some pid ->
  wp (kill_and_reap program args cause) (fun _ => tore_down (as_i32 pid) program args) s.
Proof.
  intros Hp.
  assert (Hall : forall I, kept (as_i32 pid) program args I ->
    (forall s, wp (signal_ladder (as_i32 pid)) (fun _ => I) s) \/ (forall s, wp (escalate (as_i32 pid) program args) (fun _ => I) s) ->
    wp (kill_and_reap program args cause) (fun _ => I) s).
  { intros I HI Hl. unfold kill_and_reap. do 2 wstep. rewrite Hp. do 2 wstep. wstep.
    destruct Hl as [Hl|Hl].
    - eapply wp_mono; [|apply Hl]. intros ? s1 H1. wstep.
      eapply wp_mono; [|by apply (escalate_keeps pid program args I HI)].
      intros ? s2 H2. wstep. apply wp_probe. by wstep.
    - eapply wp_mono; [|apply wp_true]. intros ? s1 _. wstep. eapply wp_mono; [|apply Hl].
      intros ? s2 H2. wstep. apply wp_probe. by wstep. }
  split; intros I HI; [intros Ht|intros Hk Hg|intros Hr Hg]; apply Hall; try done.
  - left. intros s'. by apply (ladder_terminates pid program args).
  - left. intros s'. by apply (ladder_kills pid program args).
  - right. intros s'. by apply escalate_reaps.
Qed.

(** *** How a command ends *)

(** How the watch over a started child ends: the daemon gives it up, or it has exited. *)
Inductive Watch : Type := StopFor (cause : StopCause) | ExitedWith (code : option Z).

(** The wait for the exit, from the end of the child's output on. *)
Inductive waited (deadline : N) (s : hs) : Watch -> hs -> Prop :=
| waited_exit code s' : wait_exit deadline s = (Some (Exited code), s') -> waited deadline s (ExitedWith code) s'
| waited_error e s' : wait_exit deadline s = (Some (WaitError e), s') -> waited deadline s (StopFor (Unreadable e)) s'
| waited_timeout s' : wait_exit deadline s = (None, s') -> waited deadline s (StopFor Timeout) s'.

(** The watch: from the first state, line after line, to the state in which it ends. *)
Inductive watched (deadline : N) : hs -> Watch -> hs -> Prop :=
| watched_line s line s1 w s' :
    next_line deadline s = (Some (Line line), s1) -> watched deadline s1 w s' -> watched deadline s w s'
| watched_error s e s' : next_line deadline s = (Some (ReadError e), s') -> watched deadline s (StopFor (Unreadable e)) s'
| watched_timeout s s' : next_line deadline s = (None, s') -> watched deadline s (StopFor Timeout) s'
| watched_end s s1 w s' :
    next_line deadline s = (Some Eof, s1) -> waited deadline s1 w s' -> watched deadline s w s'.

Lemma waited_unique deadline s w w' s1 s2 : waited deadline s w s1 -> waited deadline s w' s2 -> w = w' /\ s1 = s2.
Proof. destruct 1; destruct 1; split; congruence. Qed.

(** There is one watch over a child: the machine decides it. *)
Lemma watched_unique deadline s w w' s1 s2 : watched deadline s w s1 -> watched deadline s w' s2 -> w = w' /\ s1 = s2.
Proof.
  intros Hw. revert w' s2. induction Hw as [s line s3 w s1 Hn Hw IH|s e s1 Hn|s s1 Hn|s s3 w s1 Hn Hw];
    intros w2 s2 H2; inversion H2 as [? line' s4 ? ? Hn' Hw'|? e' ? Hn'|? ? Hn'|? s4 ? ? Hn' Hw']; subst;
    try (split; congruence).
  - apply IH. rewrite Hn in Hn'. by injection Hn' as _ <-.
  - rewrite Hn in Hn'. injection Hn' as <-. by eapply waited_unique.
Qed.

Lemma read_lines_watched fuel deadline program args sent buf s :
  wp (read_lines fuel deadline program args sent buf)
    (fun r s' => match r.2 with
                 | Done (Ok _) => forall w s2, waited deadline s' w s2 -> watched deadline s w s2
                 | Done (Err e) => exists cause st, watched deadline s (StopFor cause) st
                     /\ kill_and_reap program args cause st = (e, s')
                 | _ => True
                 end) s.
Proof.
  revert sent buf s. induction fuel as [|fuel IH]; intros sent buf s; [exact I|].
  cbn [read_lines]. wstep. unfold wp at 1. destruct (next_line deadline s) as [[[line| |e]|] s1] eqn:En; cbn.
  - eapply wp_mono; [|apply IH]. cbn beta. intros [sent' [[out|e]| | |]] s'; cbn; try done.
    + intros Hw w s2 Hs. eapply watched_line; eauto.
    + intros (cause & st & Hw & Hk). exists cause, st. split; [|done]. by eapply watched_line.
  - intros w s2 Hs. by eapply watched_end.
  - wstep. unfold wp at 1. destruct (kill_and_reap program args (Unreadable e) s1) as [err s'] eqn:Ek. wstep. cbn.
    exists (Unreadable e), s1. split; [by apply watched_error|done].
  - wstep. unfold wp at 1. destruct (kill_and_reap program args Timeout s1) as [err s'] eqn:Ek. wstep. cbn.
    exists Timeout, s1. split; [by apply watched_timeout|done].
Qed.

(** The run was given up before the deadline, and this is what the teardown said. *)
Definition torn_down (deadline : N) (program : string) (args : list string)
    (e : ExecutorError) (s' : hs) : Prop :=
  exists cause s1, (now s1 <= deadline)%N /\ kill_and_reap program args cause s1 = (e, s').

(** The child was reaped before the deadline, at [s2]. *)
Definition reaped_by (deadline : N) (code : option Z) (s2 : hs) : Prop :=
  (now s2 <= deadline)%N /\ exists s1, wait_exit deadline s1 = (Some (Exited code), s2).

Lemma wp_teardown {A} deadline program args cause (f : ExecutorError -> A) (Q : A -> hs -> Prop) s :
  (now s <= deadline)%N -> (forall e s', torn_down deadline program args e s' -> Q (f e) s') ->
  wp (e ← kill_and_reap program args cause; mret (f e)) Q s.
Proof.
  intros Hn HQ. wstep. unfold wp at 1. destruct (kill_and_reap program args cause s) as [e s'] eqn:E.
  apply HQ. by exists cause, s.
Qed.

Lemma read_lines_spec fuel deadline program args sent buf s :
  (now s <= deadline)%N -> backlog deadline s < fuel ->
  wp (read_lines fuel deadline program args sent buf)
    (fun r s' => match r.2 with
                 | Done (Ok _) => (now s' <= deadline)%N
                 | Done (Err e) => torn_down deadline program args e s'
                 | _ => False
                 end) s.
Proof.
  revert sent buf s. induction fuel as [|fuel IH]; intros sent buf s Hn Hb; [lia|].
  cbn [read_lines]. wstep. unfold wp at 1. pose proof (now_next_line deadline s Hn) as Ht.
  pose proof (next_line_backlog deadline s) as Hl.
  destruct (next_line deadline s) as [[[line| |e]|] s1]; cbn in *; [| |..].
  - specialize (Hl line eq_refl). apply IH; lia.
  - lia.
  - apply (wp_teardown deadline); [lia|]. done.
  - apply (wp_teardown deadline); [lia|]. done.
Qed.

Lemma await_exit_spec deadline program args s :
  (now s <= deadline)%N ->
  wp (await_exit deadline program args)
    (fun r s' => match r with
                 | Ok code => reaped_by deadline code s'
                 | Err e => torn_down deadline program args e s'
                 end) s.
Proof.
  intros Hn. unfold await_exit. wstep. unfold wp at 1. pose proof (now_wait deadline s Hn) as Ht.
  destruct (wait_exit deadline s) as [[[code|e]|] s1] eqn:E; cbn in *.
  - split; [lia|]. by exists s.
  - apply (wp_teardown deadline); [lia|]. done.
  - apply (wp_teardown deadline); [lia|]. done.
Qed.

(** The only ways a supervised command ends, once it is started. *)
Definition supervised (deadline : N) (program : string) (args : list string)
    (out : ending (result ExecutorError ExecutionOutput)) (s' : hs) : Prop :=
  (exists e, out = Done (Err e) /\ torn_down deadline program args e s')
  \/ (exists code s2, reaped_by deadline code s2 /\ (join_stderr s2).2 = s'
       /\ match (join_stderr s2).1 with
          | None => out = Blocked
          | Some (ReaderBytes bytes) =>
              exists text, out = Done (Ok (mkOutput text (from_utf8_lossy bytes) (exit_status code)))
          | Some _ => exists e, out = Done (Err (ExecIo e))
          end).

Lemma supervised_spec fuel program args s s1 deadline :
  spawn program args s = (Ok tt, s1) -> deadline_after action_timeout s1 = Some deadline ->
  backlog deadline s1 < fuel ->
  wp (execute_command_with_progress fuel program args)
    (fun r s' => supervised deadline program args r.2 s') s.
Proof.
  intros Hs Hd Hb. unfold execute_command_with_progress. wstep. unfold wp at 1. rewrite Hs. cbn.
  do 2 wstep. rewrite Hd. wstep. eapply wp_mono; [|apply read_lines_spec; [|done]].
  2: { unfold deadline_after in Hd. case_match; simplify_eq. lia. }
  intros [sent read] s2; cbn. destruct read as [[out|e]| | |]; [..|done|done|done].
  - intros Hn. wstep. eapply wp_mono; [|by apply await_exit_spec].
    intros [code|e] s3 Hr; [|wstep; left; by exists e].
    wstep. unfold join_reader. wstep. unfold wp at 1. do 2 wstep.
    right. exists code, s3. split; [done|]. split; [done|].
    destruct (join_stderr s3) as [[[bytes|e|e]|] s4]; cbn; by eauto.
  - intros Ht. wstep. left. by exists e.
Qed.

(** The end of a started command, by how the watch over its child ended. *)
Definition ended_by (program : string) (args : list string) (w : Watch) (st : hs)
    (out : result ExecutorError ExecutionOutput) (s' : hs) : Prop :=
  match w with
  | ExitedWith code => (join_stderr st).2 = s'
      /\ match (join_stderr st).1 with
         | Some (ReaderBytes bytes) =>
             exists text, out = Ok (mkOutput text (from_utf8_lossy bytes) (exit_status code))
         | Some _ => exists e, out = Err (ExecIo e)
         | None => False
         end
  | StopFor cause => exists e, out = Err e /\ kill_and_reap program args cause st = (e, s')
      /\ match child_id st with
         | None => e = into_error cause program action_timeout
         | Some pid => tore_down (as_i32 pid) program args s'
             /\ (e = ActionNotStopped program (as_i32 pid) action_timeout <-> group_at (as_i32 pid) s' <> Gone)
         end
  end.

Lemma stopped_by program args cause st e s' :
  kill_and_reap program args cause st = (e, s') -> ended_by program args (StopFor cause) st (Err e) s'.
Proof.
  intros Hk. exists e. split; [done|]. split; [done|].
  pose proof (wp_run _ _ _ _ _ (kill_and_reap_verdict program args cause st) Hk) as Hv.
  unfold verdict in Hv. destruct (child_id st) as [pid|] eqn:Hp; [|by destruct Hv].
  split; [exact (wp_run _ _ _ _ _ (kill_and_reap_tears_down program args cause st pid Hp) Hk)|].
  destruct (group_at (as_i32 pid) s'), cause; cbn in Hv; by subst e.
Qed.

Lemma command_watched fuel program args s s1 deadline :
  spawn program args s = (Ok tt, s1) -> deadline_after action_timeout s1 = Some deadline ->
  wp (execute_command_with_progress fuel program args)
    (fun r s' => forall out, r.2 = Done out ->
       exists w st, watched deadline s1 w st /\ ended_by program args w st out s') s.
Proof.
  intros Hs Hd. unfold execute_command_with_progress. wstep. unfold wp at 1. rewrite Hs. cbn.
  do 2 wstep. rewrite Hd. wstep. eapply wp_mono; [|apply read_lines_watched].
  intros [sent read] s2; cbn. destruct read as [[out|e]| | |]; [..|by intros _; wstep|by intros _; wstep|by intros _; wstep].
  - intros Hw. wstep. unfold await_exit. wstep. unfold wp at 1.
    destruct (wait_exit deadline s2) as [[[code|e]|] s3] eqn:E; cbn.
    + wstep. wstep. unfold join_reader. wstep. unfold wp at 1. do 2 wstep. intros out' Hout.
      exists (ExitedWith code), s3. split; [by apply Hw; constructor|]. unfold ended_by.
      destruct (join_stderr s3) as [[[bytes|e|e]|] s4]; cbn in *; simplify_eq; split; try done; by eauto.
    + wstep. unfold wp at 1. destruct (kill_and_reap program args (Unreadable e) s3) as [err s'] eqn:Ek. do 2 wstep.
      cbn. intros out' [= <-]. exists (StopFor (Unreadable e)), s3. split; [by apply Hw; constructor|by apply stopped_by].
    + wstep. unfold wp at 1. destruct (kill_and_reap program args Timeout s3) as [err s'] eqn:Ek. do 2 wstep.
      cbn. intros out' [= <-]. exists (StopFor Timeout), s3. split; [by apply Hw; constructor|by apply stopped_by].
  - intros (cause & st & Hw & Hk). wstep. cbn. intros out [= <-]. exists (StopFor cause), st.
    split; [done|by apply stopped_by].
Qed.

End Laws.

(** ** The properties *)

Section Properties.
Context `{HostLaws}.

(** C18: an action cannot outlive its deadline by more than a teardown. Once
    a command is started, reading its output and waiting for it to exit always
    come to an end: either the run is torn down and reports its error at most
    STOP_BOUND milliseconds after the deadline, or the child was reaped before
    the deadline and all that is left is to join the reader of its standard
    error. That join is the one wait no deadline covers, and the call is blocked
    exactly when it is. *)
Theorem action_ends fuel program args s s1 deadline lines out s' :
  spawn program args s = (Ok tt, s1) -> deadline_after action_timeout s1 = Some deadline ->
  backlog deadline s1 < fuel ->
  execute_command_with_progress fuel program args s = ((lines, out), s') ->
  ((exists e, out = Done (Err e)) /\ (now s' <= deadline + STOP_BOUND)%N)
  \/ (exists code s2, reaped_by deadline code s2 /\ (join_stderr s2).2 = s'
       /\ (out = Blocked <-> (join_stderr s2).1 = None)
       /\ (out <> Blocked -> exists r, out = Done r)).
Proof.
  intros Hs Hd Hb Hrun. pose proof (wp_run _ _ _ _ _ (supervised_spec _ _ _ _ _ _ Hs Hd Hb) Hrun) as Hw.
  destruct Hw as [(e & E & cause & st & Ht & Hk)|(code & s2 & Hr & Hj & Hout)]; cbn in *.
  - left. split; [by exists e|].
    pose proof (wp_run _ _ _ _ _ (kill_and_reap_within program args cause st) Hk) as Hw.
    unfold within in Hw. lia.
  - right. exists code, s2. split; [done|]. split; [done|].
    destruct (join_stderr s2).1 as [[bytes|e|e]|]; [destruct Hout as [x ->]..|subst out];
      split; try done; eauto.
Qed.

(** C19: an executor never reports a torn-down action as stopped while its process
    group has members. A started command whose result is in has been watched, line by
    line, to one state: either the child had exited there, and the result is its exit
    status with the output (or the failed read of its standard error), or the watch was
    given up there, and the teardown ran from that state to the last one. That teardown,
    unless the child had no id any more (it was reaped already), sent the child's group
    SIGTERM, sent it SIGKILL or found it gone, and ran the privileged reaper or found the
    group within reach; and its error, which is the result, is ActionNotStopped exactly
    when the group is not gone at the end. *)
Theorem stopped_means_gone fuel program args s s1 deadline lines out s' :
  spawn program args s = (Ok tt, s1) -> deadline_after action_timeout s1 = Some deadline ->
  execute_command_with_progress fuel program args s = ((lines, Done out), s') ->
  exists w st, watched deadline s1 w st /\ ended_by program args w st out s'.
Proof.
  intros Hs Hd Hrun. exact (wp_run _ _ _ _ _ (command_watched _ _ _ _ _ _ Hs Hd) Hrun out eq_refl).
Qed.

(** A teardown does nothing to the machine but stop its own process
    group. Any property of the machine that survives the passing of time, the
    reaping and the killing of the child itself and a SIGTERM or SIGKILL to the
    child's own group survives the whole teardown; the privileged reaper runs
    only its two fixed commands, and only after a probe found the group alive
    beyond the daemon's reach (and, for the root SIGKILL, still not gone). *)
Theorem teardown_confined pid program args cause (I : hs -> Prop) s e s' :
  kept (as_i32 pid) program args I -> child_id s = Some pid -> I s ->
  kill_and_reap program args cause s = (e, s') -> I s'.
Proof.
  intros HI Hp HIs Hk. refine (wp_run (kill_and_reap program args cause) (fun _ => I) _ _ _ _ Hk).
  unfold kill_and_reap. do 2 wstep. rewrite Hp. do 2 wstep. wstep.
  eapply wp_mono; [|apply (ladder_keeps pid program args), (kept_start_kill _ _ _ _ HI), HIs; exact HI].
  intros ? s2 H2. wstep. eapply wp_mono; [|by apply escalate_keeps].
  intros ? s3 H3. wstep. apply wp_probe. by wstep.
Qed.
End Properties.

(** *** Files and configuration *)

(** A timeout beyond the range of the clock, once the child is started: the task
    panics and leaves the child running. *)
Lemma huge_timeout_panics `{Host} fuel program args s s1 :
  spawn program args s = (Ok tt, s1) -> (INSTANT_MAX_SECS < action_timeout)%N ->
  execute_command_with_progress fuel program args s = (([], Panicked), s1).
Proof.
  intros Hs Ht. unfold execute_command_with_progress, mbind, host_bind. rewrite Hs. cbn.
  unfold deadline_after. destruct (N.leb_spec (now s1 / 1000 + action_timeout) INSTANT_MAX_SECS); [|done].
  pose proof (N.le_add_l action_timeout (now s1 / 1000)). lia.
Qed.

(** The first occurrence is replaced, and no more. *)
Lemma replace_first_spec search replace s :
  search <> "" ->
  (exists pre post, s = (pre ++ search ++ post)%string
     /\ (forall a b, pre = (a ++ b)%string -> b <> "" ->
           strip_prefix search (b ++ search ++ post)%string = None)
     /\ replace_first search replace s = (pre ++ replace ++ post)%string)
  \/ (contains search s = false /\ replace_first search replace s = s).
Proof.
  intros Hne. induction s as [|c s IH].
  - right. destruct search; done.
  - cbn [replace_first contains]. destruct (strip_prefix search (String c s)) as [rest|] eqn:Ep.
    + left. exists "", rest. apply strip_prefix_spec in Ep. split_and!; [done| |done].
      by intros [|? a] [|? b].
    + assert (String.prefix search (String c s) = false) as ->.
      { apply not_true_iff_false. rewrite strip_prefix_prefix, Ep. by intros [t ?]. }
      cbn [orb].
      destruct IH as [(pre & post & -> & Hk & ->)|[Hc ->]]; [|by right].
      left. exists (String c pre), post. split_and!; [done| |done].
      intros [|d a] b E Hb; cbn in E; [by subst b|]. injection E as _ E. by apply (Hk a).
Qed.

(** ** A machine to run on *)

Module ExecutorSample.

(** A child that writes [script] at its times and exits at [exits_at] unless
    killed, in a group that is root's or not; [log] is what was done to it. *)
Record machine : Type := mkMachine {
  clock : N; script : list (N * string); exits_at : option N; stderr_held : bool;
  members : GroupState; root_kill_works : bool; log : list string }.

Definition at_time (t : N) (m : machine) : machine :=
  mkMachine t (script m) (exits_at m) (stderr_held m) (members m) (root_kill_works m) (log m).
Definition logged (entry : string) (m : machine) : machine :=
  mkMachine (clock m) (script m) (exits_at m) (stderr_held m) (members m) (root_kill_works m)
    (log m ++ [entry]).
Definition emptied (m : machine) : machine :=
  mkMachine (clock m) (script m) (exits_at m) (stderr_held m) Gone (root_kill_works m) (log m).

Definition killpg_errno (m : machine) : option Z :=
  match members m with
  | Gone => Some ESRCH | AliveReachable => None | AliveUnreachable => Some EPERM
  | Unknown e => Some e
  end.

Definition until {A} (deadline : N) (t : option N) (a : A) (m : machine) : option A * machine :=
  match t with
  | Some t => if (t <=? deadline)%N then (Some a, at_time (N.max (clock m) t) m)
              else (None, at_time (N.max (clock m) deadline) m)
  | None => (None, at_time (N.max (clock m) deadline) m)
  end.

#[export] Instance sample : Host := {|
  hs := machine;
  now := clock;
  sleep d m := at_time (clock m + d) m;
  timeout_var := Some "60";
  spawn program args m := (Ok tt, logged ("spawn " ++ program) m);
  child_id m := Some 4242%N;
  start_kill m := logged "SIGKILL 4242" m;
  reap_child cap m := m;
  next_line deadline m :=
    match script m with
    | (t, line) :: rest =>
        until deadline (Some t) (Line line)
          (mkMachine (clock m) (if (t <=? deadline)%N then rest else script m) (exits_at m)
             (stderr_held m) (members m) (root_kill_works m) (log m))
    | [] => until deadline (exits_at m) Eof m
    end;
  wait_exit deadline m := until deadline (exits_at m) (Exited (Some 0%Z)) m;
  join_stdout m := (Some (ReaderBytes ""), m);
  join_stderr m := (if stderr_held m then None else Some (ReaderBytes "warning"), m);
  killpg g sig m :=
    if (sig =? 0)%Z then (killpg_errno m, m)
    else let m' := logged ("signal " ++ dec_of_Z sig ++ " to group " ++ dec_of_Z g) m in
         (killpg_errno m,
          if bool_decide (members m = AliveReachable) then emptied m' else m');
  sudo cap args m :=
    let m' := logged (join " " ("sudo" :: args)) m in
    if root_kill_works m then emptied m' else m';
  read_dir path m := (Err "no such directory", m);
  create_dir_all path m := (Ok tt, m);
  write_file path content m := (Ok tt, logged ("write " ++ path) m);
  read_to_string path m := (Ok "[main] enabled=0", m);
  remove_file path m := (Ok tt, m) |}%string.

Lemma until_time {A} deadline t (a : A) m :
  (clock m <= deadline)%N ->
  (clock m <= clock (until deadline t a m).2 <= deadline)%N.
Proof. intros Hn. unfold until. destruct t; [destruct (N.leb_spec n deadline)|]; cbn; lia. Qed.

#[export] Instance sample_laws : HostLaws.
Proof.
  refine {| backlog := fun deadline m => length (script m) |}.
  - done.
  - done.
  - intros g sig m. cbn. case_match; [done|]. by case_bool_decide.
  - done.
  - intros cap m. cbn. lia.
  - intros cap args m. cbn. case_match; cbn; lia.
  - intros deadline m Hn. cbn in *. destruct (script m) as [|[t l] rest].
    + by apply (until_time deadline).
    + by refine (until_time deadline (Some t) (Line l) (mkMachine _ _ _ _ _ _ _) _).
  - intros deadline m line. cbn. unfold until.
    destruct (script m) as [|[t l] rest]; [by destruct (exits_at m); [case_match|]|].
    destruct (N.leb_spec t deadline); cbn; [lia|done].
  - intros deadline m. apply until_time.
Defined.

(** A hung action run through sudo: it writes a line and never ends. *)
Definition hung : machine :=
  mkMachine 0 [(1000%N, "Reading package lists...")] None false AliveUnreachable true [].
Definition upgrade : list string := ["apt-get"; "upgrade"].
Definition run (m : machine) := execute_command_with_progress 10 "sudo" upgrade m.

(** The deadline passes, the ladder fails, and the root reaper empties the group. *)
Lemma hung_run :
  (run hung).1 = (["Reading package lists..."],
                  Done (Err (ExecIo "sudo exceeded the 60s action timeout and was stopped")))
  /\ clock (run hung).2 = 65700%N
  /\ log (run hung).2 =
       ["spawn sudo"; "SIGKILL 4242"; "signal 15 to group 4242"; "signal 9 to group 4242";
        "sudo -n /usr/lib/sysknife/action-steps signal TERM -4242"].
Proof. vm_compute. done. Qed.

(** Without a working sudo grant the group survives, and the error says so. *)
Lemma hung_without_sudo :
  (run (mkMachine 0 [] None false AliveUnreachable false [])).1.2
  = Done (Err (ActionNotStopped "sudo" 4242 60)).
Proof. vm_compute. done. Qed.

(** The child is sent SIGKILL before its group is sent SIGTERM, so the direct
    child has no time to unwind. *)
Lemma killed_before_terminated :
  log (run (mkMachine 0 [] None false AliveReachable true [])).2
  = ["spawn sudo"; "SIGKILL 4242"; "signal 15 to group 4242"].
Proof. vm_compute. done. Qed.

(** A command that exits at once, and leaves a process behind that holds its
    standard error open: the call never returns, whatever the deadline. *)
Lemma held_stderr_blocks :
  (run (mkMachine 0 [] (Some 10%N) true AliveUnreachable true [])).1.2 = Blocked.
Proof. vm_compute. done. Qed.

(** What a teardown of the sample child may log. *)
Definition own_group_only (m : machine) : Prop :=
  Forall (fun entry => entry ∈ ["spawn sudo"; "SIGKILL 4242"; "signal 15 to group 4242";
    "signal 9 to group 4242"; "sudo -n /usr/lib/sysknife/action-steps signal TERM -4242";
    "sudo -n /usr/lib/sysknife/action-steps signal KILL -4242"]) (log m).

Lemma own_group_kept : kept 4242 "sudo" upgrade own_group_only.
Proof.
  assert (Hlog : forall m m' entry, own_group_only m -> log m' = log m ++ [entry] ->
    str_in entry ["spawn sudo"; "SIGKILL 4242"; "signal 15 to group 4242";
      "signal 9 to group 4242"; "sudo -n /usr/lib/sysknife/action-steps signal TERM -4242";
      "sudo -n /usr/lib/sysknife/action-steps signal KILL -4242"] = true -> own_group_only m').
  { intros m m' entry Hm E Hin. unfold own_group_only. rewrite E. apply Forall_app. split; [done|].
    constructor; [|done]. by apply str_in_spec. }
  constructor.
  - done.
  - done.
  - intros m Hm. by apply (Hlog m _ "SIGKILL 4242").
  - intros sig m [->|[->| ->]] Hm; [done|..].
    + apply (Hlog m _ "signal 15 to group 4242"); [done| |done]. cbn. by case_bool_decide.
    + apply (Hlog m _ "signal 9 to group 4242"); [done| |done]. cbn. by case_bool_decide.
  - intros m _ Hm. apply (Hlog m _ "sudo -n /usr/lib/sysknife/action-steps signal TERM -4242");
      [done| |done]. cbn. by case_match.
  - intros m _ _ Hm. apply (Hlog m _ "sudo -n /usr/lib/sysknife/action-steps signal KILL -4242");
      [done| |done]. cbn. by case_match.
Qed.

Definition spawned : machine := logged "spawn sudo" hung.

Lemma action_ends_witness :
  let r := run hung in
  ((exists e, r.1.2 = Done (Err e)) /\ (now r.2 <= 60000 + STOP_BOUND)%N)
  \/ (exists code s2, reaped_by 60000 code s2 /\ (join_stderr s2).2 = r.2
       /\ (r.1.2 = Blocked <-> (join_stderr s2).1 = None)
       /\ (r.1.2 <> Blocked -> exists x, r.1.2 = Done x)).
Proof.
  apply (action_ends (H := sample) 10 "sudo" upgrade hung spawned 60000 (run hung).1.1); [done|done| |].
  - cbn. lia.
  - vm_compute. done.
Defined.

(** The group stays root's: the error says that it was not stopped. *)
Lemma stopped_means_gone_witness :
  let m := mkMachine 0 [] None false AliveUnreachable false [] in
  exists w st, watched 60000 (logged "spawn sudo" m) w st
    /\ ended_by "sudo" upgrade w st (Err (ActionNotStopped "sudo" 4242 60)) (run m).2.
Proof.
  apply (stopped_means_gone (H := sample) 10 "sudo" upgrade (mkMachine 0 [] None false AliveUnreachable false [])
           (logged "spawn sudo" (mkMachine 0 [] None false AliveUnreachable false [])) 60000 []);
    [done|done|].
  vm_compute. done.
Defined.

Lemma teardown_confined_witness :
  own_group_only (kill_and_reap (H := sample) "sudo" upgrade Timeout spawned).2.
Proof.
  apply (teardown_confined (H := sample) 4242 "sudo" upgrade Timeout own_group_only spawned
           (kill_and_reap (H := sample) "sudo" upgrade Timeout spawned).1); [exact own_group_kept|exact eq_refl| |exact (surjective_pairing _)].
  constructor; [|constructor]. apply str_in_spec. done.
Defined.
End ExecutorSample.
