(* ===== verification/Catalogue.v ===== *)
(** * The action catalogue

    crates/sysknife-daemon/src/actions/*.rs: one constructor for every action,
    a Module per source file, each with the [specs] sample list of its file, and
    [catalogue] and [spec_meta] of actions/mod.rs that the risk of every action
    is read from. *)

From Stdlib Require Import Ascii String NArith ZArith.
From stdpp Require Import base list strings gmap.
From S2P Require Import Prelude Json Types Actions Ip.

Definition ACTION_STEPS : string := "/usr/lib/sysknife/action-steps".
Definition NL : string := String LF "".

(** [if let Some(v) = o { args.push(flag); args.push(v) }] *)
Definition opt_arg (flag : string) (o : option string) : list string :=
  match o with Some v => [flag; v] | None => [] end.
(** [if b { args.push(flag) }] *)
Definition flag_if (b : bool) (flag : string) : list string := if b then [flag] else [].

(** [r.expect(..)] in a sample list. *)
Definition expect {E} (r : result E ActionSpec) : list ActionSpec :=
  match r with Ok s => [s] | Err _ => [] end.

Module Deployment.
Definition get_system_state : ActionSpec :=
  mkSpec "GetSystemState" (Command "rpm-ostree" ["status"; "--json"])
    Low false false.

Definition collect_diagnostics : ActionSpec :=
  mkSpec "CollectDiagnostics" (Command "journalctl" ["-b"; "-n"; "500"; "--no-pager"])
    Low false false.

Definition get_deployment_history : ActionSpec :=
  mkSpec "GetDeploymentHistory" (Command "rpm-ostree" ["status"; "--json"])
    Low false false.

Definition list_deployments : ActionSpec :=
  mkSpec "ListDeployments" (Command "rpm-ostree" ["status"; "--json"])
    Low false false.

Definition update_system : ActionSpec :=
  mkSpec "UpdateSystem" (Command "sudo" ["rpm-ostree"; "upgrade"])
    High true true.

Definition pin_deployment (index : N) : ActionSpec :=
  mkSpec "PinDeployment" (Command "sudo" ["ostree"; "admin"; "pin"; dec_of_N index])
    High false false.

Definition unpin_deployment (index : N) : ActionSpec :=
  mkSpec "UnpinDeployment" (Command "sudo" ["ostree"; "admin"; "pin"; "--unpin"; dec_of_N index])
    High false false.

Definition rebase_system (target_ref : string) : ActionSpec :=
  mkSpec "RebaseSystem" (Command "sudo" [ACTION_STEPS; "rpm-ostree"; "rebase"; target_ref])
    High true true.

Definition cleanup_deployments : ActionSpec :=
  mkSpec "CleanupDeployments" (Command "sudo" ["rpm-ostree"; "cleanup"; "--rollback"; "--pending"])
    High false false.

Definition reboot_system : ActionSpec :=
  mkSpec "RebootSystem" (Command "sudo" ["systemctl"; "reboot"])
    High true false.

Definition rollback_deployment : ActionSpec :=
  mkSpec "RollbackDeployment" (Command "sudo" ["rpm-ostree"; "rollback"])
    High true false.

Definition get_kernel_arguments : ActionSpec :=
  mkSpec "GetKernelArguments" (Command "rpm-ostree" ["kargs"])
    Low false false.

Definition set_kernel_arguments (args_to_add args_to_remove : list string) : ActionSpec :=
  let pairs := flat_map (fun a => ["append"; a]) args_to_add
               ++ flat_map (fun a => ["delete"; a]) args_to_remove in
  mkSpec "SetKernelArguments" (Command "sudo" ([ACTION_STEPS; "rpm-ostree"; "kargs"] ++ pairs))
    High true true.

Definition specs : list ActionSpec :=
  [get_system_state;
   collect_diagnostics;
   get_deployment_history;
   list_deployments;
   update_system;
   pin_deployment 0;
   unpin_deployment 0;
   rebase_system "fedora/41/x86_64/silverblue";
   cleanup_deployments;
   reboot_system;
   rollback_deployment;
   get_kernel_arguments;
   set_kernel_arguments [] []].
End Deployment.

Module Layering.
Definition install_packages (packages : list string) : ActionSpec :=
  mkSpec "InstallPackages" (Command "sudo" ([ACTION_STEPS; "rpm-ostree"; "install"] ++ packages))
    High true true.

Definition remove_packages (packages : list string) : ActionSpec :=
  mkSpec "RemovePackages" (Command "sudo" ([ACTION_STEPS; "rpm-ostree"; "uninstall"] ++ packages))
    High true true.

Definition get_layered_packages : ActionSpec :=
  mkSpec "GetLayeredPackages" (Command "rpm-ostree" ["status"; "--json"])
    Low false false.

Definition add_layered_package (package : string) : ActionSpec :=
  mkSpec "AddLayeredPackage" (Command "sudo" [ACTION_STEPS; "rpm-ostree"; "install"; package])
    High true true.

Definition remove_layered_package (package : string) : ActionSpec :=
  mkSpec "RemoveLayeredPackage" (Command "sudo" [ACTION_STEPS; "rpm-ostree"; "uninstall"; package])
    High true true.

Definition replace_layered_package (old new : string) : ActionSpec :=
  mkSpec "ReplaceLayeredPackage" (Command "sudo" [ACTION_STEPS; "rpm-ostree"; "replace"; old; new])
    High true true.

Definition remove_base_package (package : string) : ActionSpec :=
  mkSpec "RemoveBasePackage"
    (Command "sudo" [ACTION_STEPS; "rpm-ostree"; "override-remove"; package])
    High true true.

Definition get_pending_updates : ActionSpec :=
  mkSpec "GetPendingUpdates" (Command "rpm-ostree" ["upgrade"; "--check"])
    Low false false.

Definition reset_layered_package_override : ActionSpec :=
  mkSpec "ResetLayeredPackageOverride" (Command "sudo" ["rpm-ostree"; "override"; "reset"; "--all"])
    High true true.

Definition specs : list ActionSpec :=
  [install_packages ["podman"];
   remove_packages ["podman"];
   get_layered_packages;
   add_layered_package "podman";
   remove_layered_package "podman";
   replace_layered_package "vim" "neovim";
   reset_layered_package_override;
   remove_base_package "gedit";
   get_pending_updates].
End Layering.

Module Filesystem.
Definition disk_usage_spec : ActionSpec :=
  mkSpec "GetDiskUsage"
    (Command "df" ["-h"; "--output=source,fstype,size,used,avail,pcent,target";
           "--exclude-type=composefs"; "--exclude-type=tmpfs"; "--exclude-type=devtmpfs";
                  "--exclude-type=efivarfs"])
    Low false false.

Definition specs : list ActionSpec :=
  [disk_usage_spec].
End Filesystem.

Module Flatpak.
Definition flatpak_as (username : string) (args : list string) : ActionMechanism :=
  Command "sudo" (["/usr/lib/sysknife/action-steps"; "flatpak"; username] ++ args).

Definition install_flatpak (username app_id remote : string) : ActionSpec :=
  mkSpec "InstallFlatpak" (flatpak_as username ["install"; "--user"; "-y"; remote; app_id])
    Medium false false.

Definition remove_flatpak (username app_id : string) : ActionSpec :=
  mkSpec "RemoveFlatpak" (flatpak_as username ["uninstall"; "--user"; "-y"; app_id])
    Medium false false.

Definition search_flatpak_apps (term : string) : ActionSpec :=
  mkSpec "SearchFlatpakApps" (Command "flatpak" ["search"; term])
    Low false false.

Definition list_flatpak_remotes (username : string) : ActionSpec :=
  mkSpec "ListFlatpakRemotes" (flatpak_as username ["remotes"; "--user"; "--columns=name,url"])
    Low false false.

Definition add_flatpak_remote (username remote url : string) : ActionSpec :=
  mkSpec "AddFlatpakRemote" (flatpak_as username ["remote-add"; "--user"; "--if-not-exists";
         remote; url])
    Medium false false.

Definition remove_flatpak_remote (username remote : string) : ActionSpec :=
  mkSpec "RemoveFlatpakRemote" (flatpak_as username ["remote-delete"; "--user"; remote])
    Medium false false.

Definition list_installed_flatpaks (username : string) : ActionSpec :=
  mkSpec "ListInstalledFlatpaks" (flatpak_as username ["list"; "--user"; "--app";
         "--columns=application,name,version,origin"])
    Low false false.

Definition update_flatpak (username : string) (app_id : option string) : ActionSpec :=
  let mechanism := match app_id with
                   | Some id => flatpak_as username ["update"; "--user"; "-y"; id]
                   | None => flatpak_as username ["update"; "--user"; "-y"]
                   end in
  mkSpec "UpdateFlatpak" mechanism Medium false false.

Definition get_flatpak_app_info (username app_id : string) : ActionSpec :=
  mkSpec "GetFlatpakAppInfo" (flatpak_as username ["info"; "--user"; app_id])
    Low false false.

Definition ubuntu_install_flatpak (username app_id remote : string) : ActionSpec :=
  mkSpec "UbuntuInstallFlatpak" (flatpak_as username ["install"; "--user"; "-y"; remote; app_id])
    Medium false false.

Definition ubuntu_remove_flatpak (username app_id : string) : ActionSpec :=
  mkSpec "UbuntuRemoveFlatpak" (flatpak_as username ["uninstall"; "--user"; "-y"; app_id])
    Medium false false.

Definition ubuntu_update_flatpak (username : string) (app_id : option string) : ActionSpec :=
  let mechanism := match app_id with
                   | Some id => flatpak_as username ["update"; "--user"; "-y"; id]
                   | None => flatpak_as username ["update"; "--user"; "-y"]
                   end in
  mkSpec "UbuntuUpdateFlatpak" mechanism Medium false false.

Definition ubuntu_list_flatpaks (username : string) : ActionSpec :=
  mkSpec "UbuntuListFlatpaks" (flatpak_as username ["list"; "--user"; "--app";
         "--columns=application,name,version,origin"])
    Low false false.

Definition specs : list ActionSpec :=
  [install_flatpak "testuser" "app-id" "flathub";
   remove_flatpak "testuser" "app-id";
   search_flatpak_apps "search-term";
   list_flatpak_remotes "testuser";
   list_installed_flatpaks "testuser";
   add_flatpak_remote "testuser" "remote" "https://example.invalid";
   remove_flatpak_remote "testuser" "remote";
   get_flatpak_app_info "testuser" "app-id";
   update_flatpak "testuser" (Some "com.example.App");
   ubuntu_install_flatpak "testuser" "app-id" "flathub";
   ubuntu_remove_flatpak "testuser" "app-id";
   ubuntu_update_flatpak "testuser" (Some "com.example.App");
   ubuntu_list_flatpaks "testuser"].
End Flatpak.

Module Toolbox.
Definition toolbox_as (username : string) (parameters : list string) : ActionMechanism :=
  Command "sudo" (["/usr/lib/sysknife/action-steps"; "toolbox"; username] ++ parameters).

Definition list_toolboxes (username : string) : ActionSpec :=
  mkSpec "ListToolboxes" (toolbox_as username ["list"])
    Low false false.

Definition create_toolbox (username name : string) (release image : option string) : ActionSpec :=
  let args := ["create"; "--container"; name] ++ opt_arg "--release" release
              ++ opt_arg "--image" image in
  mkSpec "CreateToolbox" (toolbox_as username args) Medium false false.

Definition remove_toolbox (username name : string) : ActionSpec :=
  mkSpec "RemoveToolbox" (toolbox_as username ["rm"; name])
    Medium false false.

Definition specs : list ActionSpec :=
  [list_toolboxes "testuser";
   create_toolbox "testuser" "sysknife-dev" (Some "41") None;
   remove_toolbox "testuser" "sysknife-dev"].
End Toolbox.

Module Services.
Definition SCHEDULED_JOB_HELPER : string := "/usr/lib/sysknife/scheduled-job-edit".
Definition SCHEDULED_JOB_UNIT_DIR : string := "/etc/systemd/system".
Definition SCHEDULED_JOB_UNIT_PREFIX : string := "sysknife-".

Definition get_service_resource_limits (unit : string) : ActionSpec :=
  mkSpec "GetServiceResourceLimits"
    (Command "systemctl" ["show"; unit;
           "--property=MemoryMax,MemoryHigh,CPUQuotaPerSecUSec,TasksMax"])
    Low false false.

Definition set_service_resource_limits (unit : string) (assignments : list string) : ActionSpec :=
  mkSpec "SetServiceResourceLimits"
    (Command "sudo" (["systemctl"; "set-property"; unit] ++ assignments)) Medium false false.

Definition scheduled_job_unit_paths (name : string) : option (string * string) :=
  if is_empty name || (64 <? String.length name)
     || negb (match first_char name with Some c => is_alnum c | None => false end)
     || negb (str_all (fun c => is_alnum c || one_of "_-" c) name)
  then None
  else
    let stem := (SCHEDULED_JOB_UNIT_PREFIX ++ name)%string in
    Some ((SCHEDULED_JOB_UNIT_DIR ++ "/" ++ stem ++ ".service")%string,
          (SCHEDULED_JOB_UNIT_DIR ++ "/" ++ stem ++ ".timer")%string).

Definition create_scheduled_job (name command schedule : string) : ActionSpec :=
  mkSpec "CreateScheduledJob"
    (Command "sudo" [SCHEDULED_JOB_HELPER; "--name"; name; "--command"; command; "--schedule";
           schedule])
    High false false.

Definition list_services : ActionSpec :=
  mkSpec "ListServices"
    (Command "systemctl" ["list-units"; "--type=service"; "--all"; "--no-legend"; "--no-pager"])
    Low false false.

Definition start_service (unit : string) : ActionSpec :=
  mkSpec "StartService" (Command "sudo" [ACTION_STEPS; "unit"; "start"; unit])
    Medium false false.

Definition stop_service (unit : string) : ActionSpec :=
  mkSpec "StopService" (Command "sudo" [ACTION_STEPS; "unit"; "stop"; unit])
    Medium false false.

Definition restart_service (unit : string) : ActionSpec :=
  mkSpec "RestartService" (Command "sudo" [ACTION_STEPS; "unit"; "restart"; unit])
    Medium false false.

Definition set_service_enabled (unit : string) (enabled : bool) : ActionSpec :=
  let verb := if enabled then "enable" else "disable" in
  mkSpec "SetServiceEnabled" (Command "sudo" [ACTION_STEPS; "unit"; verb; unit])
    Medium false false.

Definition mask_service (unit : string) : ActionSpec :=
  mkSpec "MaskService" (Command "sudo" [ACTION_STEPS; "unit"; "mask"; unit])
    High false false.

Definition unmask_service (unit : string) : ActionSpec :=
  mkSpec "UnmaskService" (Command "sudo" [ACTION_STEPS; "unit"; "unmask"; unit])
    Medium false false.

Definition get_service_status (unit : string) : ActionSpec :=
  mkSpec "GetServiceStatus" (Command "systemctl" ["status"; unit; "--no-pager"])
    Low false false.

Definition reload_service (unit : string) : ActionSpec :=
  mkSpec "ReloadService" (Command "sudo" [ACTION_STEPS; "unit"; "reload"; unit])
    Medium false false.

Definition list_timers : ActionSpec :=
  mkSpec "ListTimers" (Command "systemctl" ["list-timers"; "--all"; "--no-legend"; "--no-pager"])
    Low false false.

Definition reload_daemon : ActionSpec :=
  mkSpec "ReloadDaemon" (Command "sudo" ["systemctl"; "daemon-reload"])
    Medium false false.

Definition get_service_logs (unit : string) : ActionSpec :=
  mkSpec "GetServiceLogs" (Command "journalctl" ["-u"; unit; "-n"; "200"; "--no-pager"])
    Low false false.

Definition specs : list ActionSpec :=
  [list_services;
   start_service "NetworkManager.service";
   stop_service "NetworkManager.service";
   restart_service "NetworkManager.service";
   set_service_enabled "sshd.service" true;
   mask_service "cups.service";
   unmask_service "cups.service";
   get_service_logs "NetworkManager.service";
   get_service_status "nginx.service";
   reload_service "nginx.service";
   list_timers;
   reload_daemon;
   create_scheduled_job "example" "/usr/bin/true" "*-*-* 02:00:00";
   get_service_resource_limits "nginx.service";
   set_service_resource_limits "nginx.service" ["MemoryMax=500M"; "CPUQuota=50%"]].
End Services.

Module Processes.
Definition list_processes_spec : ActionSpec :=
  mkSpec "ListProcesses" (Command "ps" ["aux"; "--sort=-%mem"])
    Low false false.

Definition signal_process (pid : N) (signal : string) : ActionSpec :=
  mkSpec "SignalProcess"
    (Command "sudo" ["/usr/lib/sysknife/action-steps"; "signal"; signal; dec_of_N pid])
    High false false.

Definition specs : list ActionSpec :=
  [list_processes_spec;
   signal_process 1234 "TERM"].
End Processes.

Module Journald.
Record JournalQuery : Type := mkJournalQuery {
  jq_lines : N; jq_unit : option string; jq_priority : option string; jq_boot : bool;
  jq_kernel : bool; jq_since : option string; jq_until : option string; jq_grep : option string }.

Definition get_journal_log (q : JournalQuery) : ActionSpec :=
  let opt key v := option_list ((fun v => (key ++ v)%string) <$> v) in
  mkSpec "GetJournalLog"
    (Command "journalctl"
       (["--output=json"; "--no-pager"; ("--lines=" ++ dec_of_N (jq_lines q))%string]
        ++ opt "--unit=" (jq_unit q) ++ opt "--priority=" (jq_priority q)
        ++ flag_if (jq_boot q) "--boot" ++ flag_if (jq_kernel q) "--dmesg"
        ++ opt "--since=" (jq_since q) ++ opt "--until=" (jq_until q)
        ++ opt "--grep=" (jq_grep q)))
    Low false false.

Definition vacuum_journal (vacuum_flag : string) : ActionSpec :=
  mkSpec "VacuumJournal" (Command "journalctl" [vacuum_flag])
    High false false.

Definition vacuum_journal_by_size (megabytes : N) : ActionSpec :=
  vacuum_journal ("--vacuum-size=" ++ dec_of_N megabytes ++ "M").

Definition vacuum_journal_by_time (days : N) : ActionSpec :=
  vacuum_journal ("--vacuum-time=" ++ dec_of_N days ++ "d").

Definition specs : list ActionSpec :=
  [get_journal_log (mkJournalQuery 100 (Some "ssh.service") (Some "err") true false None None None);
   vacuum_journal_by_size 500].
End Journald.

Module Lvm.
Definition get_lvm_report : ActionSpec :=
  mkSpec "GetLvmReport"
    (Command "lvs" ["--reportformat"; "json"; "--units"; "b"; "-o";
           "lv_name,vg_name,lv_size,lv_attr,origin,data_percent"])
    Low false false.

Definition extend_logical_volume (vg lv size : string) : ActionSpec :=
  mkSpec "ExtendLogicalVolume"
    (Command "sudo" ["/usr/lib/sysknife/action-steps"; "lv-extend"; vg; lv; size])
    High false false.

Definition create_logical_volume (vg name size : string) : ActionSpec :=
  mkSpec "CreateLogicalVolume"
    (Command "sudo" ["/usr/lib/sysknife/action-steps"; "lv-create"; vg; name; size])
    Medium false false.

Definition create_lv_snapshot (vg origin : string) (snapshot size : string) : ActionSpec :=
  mkSpec "CreateLvSnapshot"
    (Command "sudo" ["/usr/lib/sysknife/action-steps"; "lv-snapshot"; vg; origin; snapshot; size])
    Medium false false.

Definition specs : list ActionSpec :=
  [get_lvm_report;
   extend_logical_volume "ubuntu-vg" "ubuntu-lv" "+10G";
   create_logical_volume "ubuntu-vg" "data" "20G";
   create_lv_snapshot "ubuntu-vg" "ubuntu-lv" "ubuntu-lv-snap" "5G"].
End Lvm.

Module Sysctl.
Definition get_sysctl (key : option string) : ActionSpec :=
  let args := match key with Some k => ["--"; k] | None => ["-a"] end in
  mkSpec "GetSysctl" (Command "sysctl" args) Low false false.

Definition set_sysctl (key value : string) : ActionSpec :=
  mkSpec "SetSysctl"
    (Command "sudo" ["/usr/lib/sysknife/sysctl-edit"; "--key"; key; "--value"; value])
    High false false.

Definition specs : list ActionSpec :=
  [get_sysctl (Some "net.ipv4.ip_forward");
   set_sysctl "net.ipv4.ip_forward" "1"].
End Sysctl.

Module Mounts.
Definition MOUNT_HELPER : string := "/usr/lib/sysknife/mount-edit".

Definition get_mounts : ActionSpec :=
  mkSpec "GetMounts" (Command "findmnt" ["--json"])
    Low false false.

Definition add_mount (device mountpoint fstype : string) (options : option string) : ActionSpec :=
  mkSpec "AddMount"
    (Command "sudo"
       ([MOUNT_HELPER; "--op"; "mount"; "--device"; device; "--mountpoint"; mountpoint;
         "--fstype"; fstype] ++ opt_arg "--options" options))
    High false false.

Definition remove_mount (mountpoint : string) : ActionSpec :=
  mkSpec "RemoveMount"
    (Command "sudo" [MOUNT_HELPER; "--op"; "unmount"; "--mountpoint"; mountpoint])
    High false false.

Definition add_swap (file : string) (size_mb : N) : ActionSpec :=
  mkSpec "AddSwap"
    (Command "sudo" [MOUNT_HELPER; "--op"; "addswap"; "--file"; file; "--size-mb";
           dec_of_N size_mb])
    High false false.

Definition remove_swap (file : string) : ActionSpec :=
  mkSpec "RemoveSwap" (Command "sudo" [MOUNT_HELPER; "--op"; "rmswap"; "--file"; file])
    High false false.

Definition specs : list ActionSpec :=
  [get_mounts;
   add_mount "/dev/sdb1" "/mnt/data" "ext4" (Some "defaults");
   remove_mount "/mnt/data";
   add_swap "/swapfile" 2048;
   remove_swap "/swapfile"].
End Mounts.

Module Logging.
Definition LOG_HELPER : string := "/usr/lib/sysknife/log-edit".

Definition get_logrotate_status (config : option string) : ActionSpec :=
  mkSpec "GetLogrotateStatus" (Command "logrotate" ["-d"; default "/etc/logrotate.conf" config])
    Low false false.

Definition configure_log_rotation (name path frequency : string) (rotate : N) (compress : bool)
    : ActionSpec :=
  mkSpec "ConfigureLogRotation"
    (Command "sudo"
       ([LOG_HELPER; "--op"; "logrotate"; "--name"; name; "--path"; path; "--frequency"; frequency;
         "--rotate"; dec_of_N rotate] ++ flag_if compress "--compress"))
    Medium false false.

Definition remove_log_rotation (name : string) : ActionSpec :=
  mkSpec "RemoveLogRotation" (Command "sudo" [LOG_HELPER; "--op"; "rm-logrotate"; "--name"; name])
    Medium false false.

Definition configure_remote_syslog (host : string) (port : N) (protocol : string) : ActionSpec :=
  mkSpec "ConfigureRemoteSyslog"
    (Command "sudo" [LOG_HELPER; "--op"; "rsyslog-forward"; "--host"; host; "--port"; dec_of_N port;
                     "--protocol"; protocol])
    High false false.

Definition remove_remote_syslog : ActionSpec :=
  mkSpec "RemoveRemoteSyslog" (Command "sudo" [LOG_HELPER; "--op"; "rm-forward"])
    High false false.

Definition specs : list ActionSpec :=
  [get_logrotate_status None;
   configure_log_rotation "nginx" "/var/log/nginx/*.log" "daily" 14 true;
   remove_log_rotation "nginx";
   configure_remote_syslog "logs.example.com" 514 "tcp";
   remove_remote_syslog].
End Logging.

Module Pam.
Definition PAM_HELPER : string := "/usr/lib/sysknife/pam-edit".

Definition get_password_aging (user : string) : ActionSpec :=
  mkSpec "GetPasswordAging" (Command "chage" ["-l"; user])
    Low false false.

Definition set_password_aging (user : string) (flags : list string) : ActionSpec :=
  mkSpec "SetPasswordAging"
    (Command "sudo" (["/usr/lib/sysknife/action-steps"; "password-aging"; user] ++ flags))
    High false false.

Definition set_password_policy (extra : list string) : ActionSpec :=
  mkSpec "SetPasswordPolicy" (Command "sudo" ([PAM_HELPER; "--op"; "pwquality"] ++ extra))
    High false false.

Definition set_account_lockout (extra : list string) : ActionSpec :=
  mkSpec "SetAccountLockout" (Command "sudo" ([PAM_HELPER; "--op"; "faillock"] ++ extra))
    High false false.

Definition specs : list ActionSpec :=
  [get_password_aging "alice";
   set_password_aging "alice" ["-M"; "90"];
   set_password_policy ["--minlen"; "12"];
   set_account_lockout ["--deny"; "5"]].
End Pam.

Module Auditd.
Definition AUDIT_HELPER : string := "/usr/lib/sysknife/audit-edit".

Definition get_audit_rules : ActionSpec :=
  mkSpec "GetAuditRules" (Command "auditctl" ["-l"])
    Low false false.

Definition add_audit_rule (path perms key : string) : ActionSpec :=
  mkSpec "AddAuditRule"
    (Command "sudo" [AUDIT_HELPER; "--op"; "add"; "--path"; path; "--perms"; perms; "--key"; key])
    Medium false false.

Definition remove_audit_rule (key : string) : ActionSpec :=
  mkSpec "RemoveAuditRule" (Command "sudo" [AUDIT_HELPER; "--op"; "remove"; "--key"; key])
    High false false.

Definition specs : list ActionSpec :=
  [get_audit_rules;
   add_audit_rule "/etc/passwd" "wa" "passwd-watch";
   remove_audit_rule "passwd-watch"].
End Auditd.

Module Certbot.
Definition get_certificates : ActionSpec :=
  mkSpec "GetCertificates" (Command "certbot" ["certificates"])
    Low false false.

Definition obtain_certificate (domains : list string) (email challenge : string) : ActionSpec :=
  mkSpec "ObtainCertificate"
    (Command "sudo"
       (["certbot"; "certonly"; "--non-interactive"; "--agree-tos"; ("--" ++ challenge)%string;
         "-m"; email] ++ flat_map (fun d => ["-d"; d]) domains))
    High false false.

Definition renew_certificates : ActionSpec :=
  mkSpec "RenewCertificates" (Command "sudo" ["certbot"; "renew"])
    Medium false false.

Definition specs : list ActionSpec :=
  [get_certificates;
   obtain_certificate ["example.com"] "admin@example.com" "standalone";
   renew_certificates].
End Certbot.

Module Sudoers.
Definition SUDOERS_HELPER : string := "/usr/lib/sysknife/sudoers-edit".

Definition get_sudo_grants : ActionSpec :=
  mkSpec "GetSudoGrants" (Command SUDOERS_HELPER ["--op"; "list"])
    Low false false.

Definition grant_sudo_access (name user commands : string) (runas : option string)
    (nopasswd : bool) : ActionSpec :=
  mkSpec "GrantSudoAccess"
    (Command "sudo"
       ([SUDOERS_HELPER; "--op"; "grant"; "--name"; name; "--user"; user; "--commands"; commands]
        ++ opt_arg "--runas" runas ++ flag_if nopasswd "--nopasswd"))
    High false false.

Definition revoke_sudo_access (name : string) : ActionSpec :=
  mkSpec "RevokeSudoAccess" (Command "sudo" [SUDOERS_HELPER; "--op"; "revoke"; "--name"; name])
    High false false.

Definition specs : list ActionSpec :=
  [get_sudo_grants;
   grant_sudo_access "deploy-restart" "deploy" "/usr/bin/systemctl" None false;
   revoke_sudo_access "deploy-restart"].
End Sudoers.

Module Network.
Definition configure_wifi (ssid : string) (password : option string) : ActionSpec :=
  mkSpec "ConfigureWifi"
    (Command "sudo" (["nmcli"; "device"; "wifi"; "connect"; ssid] ++ opt_arg "password" password))
    High false false.

Definition set_dns_servers (interface : string) (servers : list string) : ActionSpec :=
  mkSpec "SetDnsServers" (Command "sudo" (["resolvectl"; "dns"; interface] ++ servers))
    High false false.

Definition configure_firewall (zone service : string) (enabled : bool) : ActionSpec :=
  let verb := if enabled then "add-service" else "remove-service" in
  mkSpec "ConfigureFirewall"
    (Command "sudo" ["/usr/lib/sysknife/action-steps"; "firewall"; zone; service; verb])
    High false false.

Definition get_firewall_state : ActionSpec :=
  mkSpec "GetFirewallState" (Command "firewall-cmd" ["--list-all"])
    Low false false.

Definition get_network_status : ActionSpec :=
  mkSpec "GetNetworkStatus" (Command "ip" ["-brief"; "addr"])
    Low false false.

Definition get_nftables_ruleset : ActionSpec :=
  mkSpec "GetNftablesRuleset" (Command "sudo" ["nft"; "list"; "ruleset"])
    Low false false.

Definition get_firewall_backend_state : ActionSpec :=
  mkSpec "GetFirewallBackendState" (Command "/usr/lib/sysknife/firewall-state" [])
    Low false false.

Definition get_listening_ports : ActionSpec :=
  mkSpec "GetListeningPorts" (Command "ss" ["-tulpnH"])
    Low false false.

Definition specs : list ActionSpec :=
  [configure_wifi "CafeHotspot" None;
   set_dns_servers "wlp1s0" ["1.1.1.1"; "8.8.8.8"];
   configure_firewall "public" "ssh" true;
   get_firewall_state;
   get_network_status;
   get_listening_ports;
   get_nftables_ruleset;
   get_firewall_backend_state].
End Network.

Module Resolvectl.
Definition resolvectl_status : ActionSpec :=
  mkSpec "ResolvectlStatus" (Command "resolvectl" ["status"])
    Low false false.

Definition resolvectl_set_dns (interface : string) (servers : list IpAddr) : ActionSpec :=
  let args := ["dns"; interface] ++ map ip_display servers in
  mkSpec "ResolvectlSetDns" (Command "sudo" (["resolvectl"] ++ args)) High false false.

Definition specs : list ActionSpec :=
  [resolvectl_status;
   resolvectl_set_dns "eth0" [V4 [1; 1; 1; 1]%N; V4 [8; 8; 8; 8]%N]].
End Resolvectl.

Module Identity.
Definition get_datetime : ActionSpec :=
  mkSpec "GetDateTime" (Command "timedatectl" []) Low false false.

Definition set_hostname (hostname : string) : ActionSpec :=
  mkSpec "SetHostname" (Command "sudo" ["hostnamectl"; "set-hostname"; hostname])
    Medium false false.

Definition set_timezone (timezone : string) : ActionSpec :=
  mkSpec "SetTimezone" (Command "sudo" ["timedatectl"; "set-timezone"; timezone])
    Medium false false.

Definition set_locale (locale : string) : ActionSpec :=
  mkSpec "SetLocale" (Command "sudo" ["localectl"; "set-locale"; locale])
    Medium false false.

Definition set_ntp (enabled : bool) : ActionSpec :=
  mkSpec "SetNtp" (Command "sudo" ["timedatectl"; "set-ntp"; if enabled then "true" else "false"])
    Medium false false.

Definition specs : list ActionSpec :=
  [get_datetime;
   set_hostname "sysknife-lab";
   set_timezone "America/Mexico_City";
   set_locale "en_US.UTF-8";
   set_ntp true].
End Identity.

Module Users.
Definition list_users : ActionSpec :=
  mkSpec "ListUsers" (Command "getent" ["passwd"])
    Low false false.

Definition list_groups : ActionSpec :=
  mkSpec "ListGroups" (Command "getent" ["group"])
    Low false false.

Definition create_user (username : string) (shell home : option string) : ActionSpec :=
  mkSpec "CreateUser"
    (Command "sudo" (["/usr/lib/sysknife/action-steps"; "user-create"; username]
                     ++ opt_arg "--home-dir" home ++ opt_arg "--shell" shell))
    High false false.

Definition delete_user (username : string) : ActionSpec :=
  mkSpec "DeleteUser" (Command "sudo" ["/usr/lib/sysknife/action-steps"; "user-delete"; username])
    High false false.

Definition add_user_to_group (username group : string) : ActionSpec :=
  mkSpec "AddUserToGroup"
    (Command "sudo" ["/usr/lib/sysknife/action-steps"; "group-add"; username; group])
    High false false.

Definition remove_user_from_group (username group : string) : ActionSpec :=
  mkSpec "RemoveUserFromGroup"
    (Command "sudo" ["/usr/lib/sysknife/action-steps"; "group-remove"; username; group])
    High false false.

Definition create_group (group : string) (system : bool) : ActionSpec :=
  mkSpec "CreateGroup"
    (Command "sudo" (["/usr/lib/sysknife/action-steps"; "group-create"]
                     ++ flag_if system "--system" ++ [group]))
    Medium false false.

Definition delete_group (group : string) : ActionSpec :=
  mkSpec "DeleteGroup" (Command "sudo" ["/usr/lib/sysknife/action-steps"; "group-delete"; group])
    High false false.

Definition lock_user_account (username : string) : ActionSpec :=
  mkSpec "LockUserAccount"
    (Command "sudo" ["/usr/lib/sysknife/action-steps"; "user-lock"; username])
    High false false.

Definition unlock_user_account (username : string) : ActionSpec :=
  mkSpec "UnlockUserAccount"
    (Command "sudo" ["/usr/lib/sysknife/action-steps"; "user-unlock"; username])
    High false false.

Definition specs : list ActionSpec :=
  [list_users;
   list_groups;
   create_user "alice" (Some "/bin/bash") (Some "/home/alice");
   delete_user "alice";
   add_user_to_group "alice" "wheel";
   remove_user_from_group "alice" "wheel";
   create_group "developers" false;
   delete_group "developers";
   lock_user_account "alice";
   unlock_user_account "alice"].
End Users.

Module Ssh.
Definition SSHD_OPTION_HELPER : string := "/usr/lib/sysknife/sshd-option-edit".

Definition set_sshd_option (option value : string) : ActionSpec :=
  mkSpec "SetSshdOption" (Command "sudo" [SSHD_OPTION_HELPER; "--option"; option; "--value"; value])
    High false false.

Definition get_authorized_keys (username : string) : ActionSpec :=
  mkSpec "GetAuthorizedKeys"
    (Command "cat" [("/home/" ++ username ++ "/.ssh/authorized_keys")%string])
    Low false false.

Definition keys_edit_as_user (action_name username operation public_key : string) : ActionSpec :=
  mkSpec action_name
    (Command "sudo" ["/usr/lib/sysknife/action-steps"; operation; username; public_key])
    High false false.

Definition add_authorized_key (username public_key : string) : ActionSpec :=
  keys_edit_as_user "AddAuthorizedKey" username "ssh-add" public_key.

Definition remove_authorized_key (username public_key : string) : ActionSpec :=
  keys_edit_as_user "RemoveAuthorizedKey" username "ssh-remove" public_key.

Definition specs : list ActionSpec :=
  [get_authorized_keys "alice";
   add_authorized_key "alice" "ssh-ed25519 AAAA...";
   remove_authorized_key "alice" "ssh-ed25519 AAAA...";
   set_sshd_option "PermitRootLogin" "prohibit-password"].
End Ssh.

Module PackageRepos.
Definition list_package_repositories : ActionSpec :=
  mkSpec "ListPackageRepositories" (FileScan "/etc/yum.repos.d") Low false false.

Definition add_package_repository (repo_id repo_url : string) : ActionSpec :=
  mkSpec "AddPackageRepository"
    (FileWrite ("/etc/yum.repos.d/" ++ repo_id ++ ".repo")
       ("[" ++ repo_id ++ "]" ++ NL ++ "baseurl=" ++ repo_url ++ NL ++ "enabled=1" ++ NL))
    High false false.

Definition remove_package_repository (repo_id : string) : ActionSpec :=
  mkSpec "RemovePackageRepository" (FileDelete ("/etc/yum.repos.d/" ++ repo_id ++ ".repo"))
    Medium false false.

Definition enable_package_repository (repo_id : string) : ActionSpec :=
  mkSpec "EnablePackageRepository"
    (FilePatch ("/etc/yum.repos.d/" ++ repo_id ++ ".repo") "enabled=0" "enabled=1")
    Medium false false.

Definition disable_package_repository (repo_id : string) : ActionSpec :=
  mkSpec "DisablePackageRepository"
    (FilePatch ("/etc/yum.repos.d/" ++ repo_id ++ ".repo") "enabled=1" "enabled=0")
    Medium false false.

Definition specs : list ActionSpec :=
  [list_package_repositories;
   add_package_repository "repo-id" "https://example.invalid/repo.repo";
   remove_package_repository "repo-id";
   enable_package_repository "repo-id";
   disable_package_repository "repo-id"].
End PackageRepos.

Module SystemInfo.
Definition get_memory_info_spec : ActionSpec :=
  mkSpec "GetMemoryInfo" (Command "free" ["-h"])
    Low false false.

Definition get_host_state : ActionSpec :=
  mkSpec "GetHostState" (Command "hostnamectl" ["status"])
    Low false false.

Definition specs : list ActionSpec :=
  [get_memory_info_spec;
   get_host_state].
End SystemInfo.

Module Containers.
Definition podman_as (username : string) (parameters : list string) : ActionMechanism :=
  Command "sudo" (["/usr/lib/sysknife/action-steps"; "podman"; username] ++ parameters).

Definition list_containers (username : string) : ActionSpec :=
  mkSpec "ListContainers" (podman_as username ["ps"; "--all"; "--format"; "json"])
    Low false false.

Definition create_container (username name image : string) : ActionSpec :=
  mkSpec "CreateContainer" (podman_as username ["create"; "--name"; name; image])
    Medium false false.

Definition start_container (username name : string) : ActionSpec :=
  mkSpec "StartContainer" (podman_as username ["start"; name])
    Medium false false.

Definition stop_container (username name : string) : ActionSpec :=
  mkSpec "StopContainer" (podman_as username ["stop"; name])
    Medium false false.

Definition remove_container (username name : string) : ActionSpec :=
  mkSpec "RemoveContainer" (podman_as username ["rm"; name])
    Medium false false.

Definition get_container_info (username name : string) : ActionSpec :=
  mkSpec "GetContainerInfo" (podman_as username ["inspect"; name])
    Low false false.

Definition specs : list ActionSpec :=
  [list_containers "testuser";
   create_container "testuser" "sysknife-dev" "registry.fedoraproject.org/fedora-toolbox:41";
   start_container "testuser" "sysknife-dev";
   stop_container "testuser" "sysknife-dev";
   remove_container "testuser" "sysknife-dev";
   get_container_info "testuser" "sysknife-dev"].
End Containers.

Module Reboot.
Definition REBOOT_REQUIRED_FILE : string := "/var/run/reboot-required".
Definition REBOOT_REQUIRED_PKGS_FILE : string := "/var/run/reboot-required.pkgs".

Definition check_pending_reboot : ActionSpec :=
  let script := ("if test -f " ++ REBOOT_REQUIRED_FILE ++ "; then cat " ++ REBOOT_REQUIRED_FILE
    ++ "; cat " ++ REBOOT_REQUIRED_PKGS_FILE
    ++ " 2>/dev/null; true; else echo 'No reboot required.'; fi")%string in
  mkSpec "CheckPendingReboot" (Command "bash" ["-c"; script]) Low false false.

Definition specs : list ActionSpec :=
  [check_pending_reboot].
End Reboot.

Module Apparmor.
Definition apparmor_status : ActionSpec :=
  mkSpec "AppArmorStatus" (Command "sudo" ["aa-status"])
    Low false false.

Definition apparmor_enforce (profile_path : string) : ActionSpec :=
  mkSpec "AppArmorEnforce" (Command "sudo" ["aa-enforce"; "--"; profile_path])
    High false false.

Definition apparmor_complain (profile_path : string) : ActionSpec :=
  mkSpec "AppArmorComplain" (Command "sudo" ["aa-complain"; "--"; profile_path])
    High false false.

Definition specs : list ActionSpec :=
  [apparmor_status;
   apparmor_enforce "/etc/apparmor.d/usr.bin.firefox";
   apparmor_complain "/etc/apparmor.d/usr.bin.firefox"].
End Apparmor.

Module Cloudinit.
Definition cloud_init_status : ActionSpec :=
  mkSpec "CloudInitStatus" (Command "cloud-init" ["status"; "--long"])
    Low false false.

Definition specs : list ActionSpec :=
  [cloud_init_status].
End Cloudinit.

Module Fail2ban.
Definition JAIL_HELPER : string := "/usr/lib/sysknife/fail2ban-jail-edit".
Definition BAN_HELPER : string := "/usr/lib/sysknife/fail2ban-ban".

Inductive Fail2banError : Type :=
| InvalidIpAddress (v : string)
| InvalidJail (v : string).

Definition jail_is_valid (jail : string) : bool :=
  if is_empty jail || (64 <? String.length jail) then false
  else if starts_with "-" jail then false
  else str_all (fun c => is_alnum c || one_of "_-." c) jail.

Definition fail2ban_status (jail : option string) : result Fail2banError ActionSpec :=
  args ← match jail with
         | Some j => if negb (jail_is_valid j) then Err (InvalidJail j)
                     else Ok ["fail2ban-client"; "status"; j]
         | None => Ok ["fail2ban-client"; "status"]
         end;
  Ok (mkSpec "Fail2banStatus" (Command "sudo" args) Low false false).

Definition fail2ban_ban_ip (jail ip : string) : result Fail2banError ActionSpec :=
  if negb (jail_is_valid jail) then Err (InvalidJail jail)
  else
    _ ← ok_or (InvalidIpAddress ip) (ip_from_str ip);
    Ok (mkSpec "Fail2banBanIp"
          (Command "sudo" [BAN_HELPER; "--op"; "ban"; "--jail"; jail; "--ip"; ip])
          High false false).

Definition fail2ban_unban_ip (jail ip : string) : result Fail2banError ActionSpec :=
  if negb (jail_is_valid jail) then Err (InvalidJail jail)
  else
    _ ← ok_or (InvalidIpAddress ip) (ip_from_str ip);
    Ok (mkSpec "Fail2banUnbanIp"
          (Command "sudo" [BAN_HELPER; "--op"; "unban"; "--jail"; jail; "--ip"; ip])
          Medium false false).

Definition configure_fail2ban_jail (name : string) (extra : list string)
    : result Fail2banError ActionSpec :=
  if negb (jail_is_valid name) then Err (InvalidJail name)
  else Ok (mkSpec "ConfigureFail2banJail"
             (Command "sudo" ([JAIL_HELPER; "--name"; name] ++ extra)) High false false).

Definition specs : list ActionSpec :=
  expect (fail2ban_status None)
  ++ expect (fail2ban_ban_ip "sshd" "192.0.2.1")
  ++ expect (fail2ban_unban_ip "sshd" "192.0.2.1")
  ++ expect (configure_fail2ban_jail "sshd" ["--maxretry"; "3"]).
End Fail2ban.

Module Apt.
Definition UNATTENDED_UPGRADES_HELPER : string := "/usr/lib/sysknife/unattended-upgrades-edit".

Definition configure_unattended_upgrades (enabled : bool) : ActionSpec :=
  let flag := if enabled then "--enable" else "--disable" in
  mkSpec "ConfigureUnattendedUpgrades" (Command "sudo" [UNATTENDED_UPGRADES_HELPER; flag])
    High false false.

Definition apt_update : ActionSpec :=
  mkSpec "AptUpdate" (Command "sudo" [ACTION_STEPS; "apt"; "update"])
    Low false false.

Definition apt_upgrade : ActionSpec :=
  mkSpec "AptUpgrade" (Command "sudo" [ACTION_STEPS; "apt"; "dist-upgrade"])
    High false false.

Definition apt_install (package : string) : ActionSpec :=
  mkSpec "AptInstall" (Command "sudo" [ACTION_STEPS; "apt"; "install"; package])
    Medium false false.

Definition apt_remove (package : string) : ActionSpec :=
  mkSpec "AptRemove" (Command "sudo" [ACTION_STEPS; "apt"; "remove"; package])
    Medium false false.

Definition apt_purge (package : string) : ActionSpec :=
  mkSpec "AptPurge" (Command "sudo" [ACTION_STEPS; "apt"; "purge"; package])
    Medium false false.

Definition apt_autoremove : ActionSpec :=
  mkSpec "AptAutoremove" (Command "sudo" [ACTION_STEPS; "apt"; "autoremove"])
    Medium false false.

Definition apt_hold (package : string) : ActionSpec :=
  mkSpec "AptHold" (Command "sudo" [ACTION_STEPS; "apt"; "hold"; package])
    Medium false false.

Definition apt_unhold (package : string) : ActionSpec :=
  mkSpec "AptUnhold" (Command "sudo" [ACTION_STEPS; "apt"; "unhold"; package])
    Medium false false.

Definition apt_search (term : string) : ActionSpec :=
  mkSpec "AptSearch" (Command "apt-cache" ["search"; term])
    Low false false.

Definition apt_list_installed : ActionSpec :=
  mkSpec "AptListInstalled" (Command "dpkg" ["-l"])
    Low false false.

Definition apt_show (package : string) : ActionSpec :=
  mkSpec "AptShow" (Command "apt-cache" ["show"; package])
    Low false false.

Definition apt_list_upgradable : ActionSpec :=
  mkSpec "AptListUpgradable" (Command "bash" ["-c"; "apt list --upgradable 2>/dev/null"])
    Low false false.

Definition apt_history_list : ActionSpec :=
  mkSpec "AptHistoryList"
    (Command "bash" ["-c"; "grep -A 4 '^Start-Date' /var/log/apt/history.log | tail -n 80"])
    Low false false.

Definition specs : list ActionSpec :=
  [apt_update;
   apt_upgrade;
   apt_install "curl";
   apt_remove "curl";
   apt_purge "curl";
   apt_autoremove;
   apt_hold "curl";
   apt_unhold "curl";
   apt_search "curl";
   apt_list_installed;
   apt_show "curl";
   apt_list_upgradable;
   apt_history_list;
   configure_unattended_upgrades true].
End Apt.

Module AptPreferences.
Definition PIN_HELPER : string := "/usr/lib/sysknife/apt-pin-edit".

Definition get_apt_pins (package : option string) : ActionSpec :=
  mkSpec "GetAptPins" (Command "apt-cache" (["policy"] ++ option_list package)) Low false false.

Definition set_apt_pin (name package pin : string) (priority : Z) : ActionSpec :=
  mkSpec "SetAptPin"
    (Command "sudo" [PIN_HELPER; "--op"; "set"; "--name"; name; "--package"; package; "--pin"; pin;
                     "--priority"; dec_of_Z priority])
    Medium false false.

Definition remove_apt_pin (name : string) : ActionSpec :=
  mkSpec "RemoveAptPin" (Command "sudo" [PIN_HELPER; "--op"; "remove"; "--name"; name])
    Medium false false.

Definition specs : list ActionSpec :=
  [get_apt_pins None;
   set_apt_pin "hold-nginx" "nginx" "version 1.24.*" 990;
   remove_apt_pin "hold-nginx"].
End AptPreferences.

Module Ppa.
Definition ADD_APT_REPOSITORY : string := "add-apt-repository".
Definition YES_FLAG : string := "-y".
Definition REMOVE_FLAG : string := "--remove".
Definition PPA_FLAG : string := "--ppa".

Definition ppa_arg (name : string) : string := "ppa:" ++ name.

Definition add_ppa (name : string) : ActionSpec :=
  mkSpec "AddPpa" (Command "sudo" [ADD_APT_REPOSITORY; YES_FLAG; PPA_FLAG; ppa_arg name])
    High false false.

Definition remove_ppa (name : string) : ActionSpec :=
  mkSpec "RemovePpa"
    (Command "sudo" [ADD_APT_REPOSITORY; YES_FLAG; REMOVE_FLAG; PPA_FLAG; ppa_arg name])
    Medium false false.

Definition specs : list ActionSpec :=
  [add_ppa "deadsnakes/ppa";
   remove_ppa "deadsnakes/ppa"].
End Ppa.

Module Snap.
Inductive SnapInstallError : Type :=
| InvalidArg (param value : string).

Definition safe_snap_arg_is_valid (s : string) : bool :=
  if is_empty s || (254 <? String.length s) || starts_with "-" s then false
  else str_all (fun c => is_alnum c || one_of "._:/+@-" c) s.

Definition snap_install (name : string) (channel : option string) (auto_update : bool)
    : result SnapInstallError ActionSpec :=
  if negb (safe_snap_arg_is_valid name) then Err (InvalidArg "name" name)
  else
    _ ← match channel with
        | Some ch => if negb (safe_snap_arg_is_valid ch) then Err (InvalidArg "channel" ch) else Ok tt
        | None => Ok tt
        end;
    if auto_update : bool then
      let args := ["install"] ++ option_list ((fun ch => ("--channel=" ++ ch)%string) <$> channel)
                  ++ [name] in
      Ok (mkSpec "SnapInstall" (Command "sudo" ("snap" :: args)) Medium false false)
    else
      let channel_arg := default "stable" channel in
      Ok (mkSpec "SnapInstall"
            (Command "sudo" ["/usr/lib/sysknife/action-steps"; "snap-install-hold"; name;
                   channel_arg])
            Medium false false).

Definition snap_remove (name : string) : ActionSpec :=
  mkSpec "SnapRemove" (Command "sudo" ["snap"; "remove"; name])
    Medium false false.

Definition snap_refresh (name : option string) : ActionSpec :=
  match name with
  | Some n => mkSpec "SnapRefresh" (Command "sudo" ["snap"; "refresh"; n]) Medium false false
  | None => mkSpec "SnapRefresh" (Command "sudo" ["snap"; "refresh"]) Medium false false
  end.

Definition snap_hold (name : string) : ActionSpec :=
  mkSpec "SnapHold" (Command "sudo" ["snap"; "refresh"; "--hold"; name])
    Medium false false.

Definition snap_unhold (name : string) : ActionSpec :=
  mkSpec "SnapUnhold" (Command "sudo" ["snap"; "refresh"; "--unhold"; name])
    Medium false false.

Definition snap_list : ActionSpec :=
  mkSpec "SnapList" (Command "snap" ["list"])
    Low false false.

Definition snap_info (name : string) : ActionSpec :=
  mkSpec "SnapInfo" (Command "snap" ["info"; name])
    Low false false.

Definition snap_revert (name : string) : ActionSpec :=
  mkSpec "SnapRevert" (Command "sudo" ["snap"; "revert"; name])
    Medium false false.

Definition snap_classic_install (name : string) : ActionSpec :=
  mkSpec "SnapClassicInstall" (Command "sudo" ["snap"; "install"; "--classic"; name])
    Medium false false.

Definition specs : list ActionSpec :=
  expect (snap_install "firefox" None false)
  ++ [snap_remove "firefox";
   snap_refresh (Some "firefox");
   snap_hold "firefox";
   snap_unhold "firefox";
   snap_list;
   snap_info "firefox";
   snap_revert "firefox";
   snap_classic_install "code"].
End Snap.

Module Ufw.
Definition ufw_enable : ActionSpec :=
  mkSpec "UfwEnable" (Command "sudo" ["ufw"; "--force"; "enable"])
    High false false.

Definition ufw_disable : ActionSpec :=
  mkSpec "UfwDisable" (Command "sudo" ["ufw"; "disable"])
    High false false.

Definition ufw_allow (port_or_service : string) : ActionSpec :=
  mkSpec "UfwAllow" (Command "sudo" ["ufw"; "allow"; port_or_service])
    High false false.

Definition ufw_deny (port_or_service : string) : ActionSpec :=
  mkSpec "UfwDeny" (Command "sudo" ["ufw"; "deny"; port_or_service])
    High false false.

Definition ufw_reset : ActionSpec :=
  mkSpec "UfwReset" (Command "sudo" ["ufw"; "--force"; "reset"])
    High false false.

Definition ufw_status_with_numbered (numbered : bool) : ActionSpec :=
  mkSpec "UfwStatus"
    (Command "sudo" ["ufw"; "status"; if numbered then "numbered" else "verbose"])
    Low false false.

Definition ufw_status : ActionSpec := ufw_status_with_numbered false.

Definition ufw_delete_rule (rule_number : N) : result string ActionSpec :=
  if (rule_number =? 0)%N then Err "rule_number must be a positive integer (>= 1)"
  else Ok (mkSpec "UfwDeleteRule" (Command "sudo" ["ufw"; "--force"; "delete";
         dec_of_N rule_number])
             High false false).

Definition ufw_limit (target : string) : ActionSpec :=
  mkSpec "UfwLimit" (Command "sudo" ["ufw"; "limit"; target])
    High false false.

Definition specs : list ActionSpec :=
  [ufw_enable;
   ufw_disable;
   ufw_allow "22";
   ufw_deny "23";
   ufw_reset;
   ufw_status]
  ++ expect (ufw_delete_rule 1)
  ++ [ufw_limit "22"].
End Ufw.

Module Netplan.
Definition netplan_get_config : ActionSpec :=
  mkSpec "NetplanGetConfig"
    (Command "find" ["/etc/netplan"; "-maxdepth"; "1"; "-name"; "*.yaml"; "-print"; "-exec"; "cat";
           "{}"; "+"])
    Low false false.

Definition netplan_set (key value : string) : ActionSpec :=
  mkSpec "NetplanSet" (Command "sudo" ["netplan"; "set"; (key ++ "=" ++ value)%string])
    High false false.

Definition netplan_generate : ActionSpec :=
  mkSpec "NetplanGenerate" (Command "sudo" ["netplan"; "generate"])
    Medium false false.

Definition netplan_apply : ActionSpec :=
  mkSpec "NetplanApply" (Command "sudo" ["netplan"; "apply"])
    High false false.

Definition specs : list ActionSpec :=
  [netplan_get_config;
   netplan_apply;
   netplan_set "ethernets.eth0.dhcp4" "true";
   netplan_generate].
End Netplan.

Module Distrobox.
Definition distrobox_list : ActionSpec :=
  mkSpec "DistroboxList" (Command "distrobox" ["list"])
    Low false false.

Definition distrobox_create (name image : string) : ActionSpec :=
  mkSpec "DistroboxCreate"
    (Command "distrobox" ["create"; "--yes"; "--name"; name; "--image"; image])
    Medium false false.

Definition distrobox_remove (name : string) : ActionSpec :=
  mkSpec "DistroboxRemove" (Command "distrobox" ["rm"; "--force"; name])
    Medium false false.

Definition specs : list ActionSpec :=
  [distrobox_list;
   distrobox_create "dev" "ubuntu:24.04";
   distrobox_remove "dev"].
End Distrobox.

Module Grub.
Definition GRUB_KARGS_HELPER : string := "/usr/lib/sysknife/grub-kargs-edit".

Definition grub_get_kargs : ActionSpec :=
  mkSpec "GrubGetKargs" (Command "grep" ["-E"; "^GRUB_CMDLINE_LINUX"; "/etc/default/grub"])
    Low false false.

Inductive KargsError : Type := BothEmpty.

Definition grub_set_kargs (append delete : list string) : result KargsError ActionSpec :=
  match append, delete with
  | [], [] => Err BothEmpty
  | _, _ =>
      Ok (mkSpec "GrubSetKargs"
            (Command "sudo" [GRUB_KARGS_HELPER; "--append"; join "," append; "--delete";
                   join "," delete])
            High true false)
  end.

Definition specs : list ActionSpec :=
  [grub_get_kargs]
  ++ expect (grub_set_kargs ["quiet"] ["splash"]).
End Grub.

Module ReleaseUpgrade.
Definition ubuntu_release_upgrade : ActionSpec :=
  mkSpec "UbuntuReleaseUpgrade"
    (Command "sudo" ["do-release-upgrade"; "-f"; "DistUpgradeViewNonInteractive"])
    High true false.

Definition specs : list ActionSpec :=
  [ubuntu_release_upgrade].
End ReleaseUpgrade.

Module UbuntuPro.
Definition pro_status : ActionSpec :=
  mkSpec "ProStatus" (Command "pro" ["status"; "--all"])
    Low false false.

Definition pro_attach (token : string) : ActionSpec :=
  mkSpec "ProAttach" (Command "sudo" ["pro"; "attach"; token])
    High false false.

Definition pro_detach : ActionSpec :=
  mkSpec "ProDetach" (Command "sudo" ["pro"; "detach"; "--assume-yes"])
    High false false.

Definition enable_pro_service (service : string) : ActionSpec :=
  mkSpec "EnableProService" (Command "sudo" ["pro"; "enable"; service; "--assume-yes"])
    High false false.

Definition disable_pro_service (service : string) : ActionSpec :=
  mkSpec "DisableProService" (Command "sudo" ["pro"; "disable"; service; "--assume-yes"])
    High false false.

Definition specs : list ActionSpec :=
  [pro_status;
   pro_attach "<REDACTED>";
   pro_detach;
   enable_pro_service "esm-apps";
   disable_pro_service "esm-apps"].
End UbuntuPro.

Module Livepatch.
Definition livepatch_status : ActionSpec :=
  mkSpec "LivepatchStatus" (Command "sudo" ["canonical-livepatch"; "status"; "--verbose"])
    Low false false.

Definition specs : list ActionSpec :=
  [livepatch_status].
End Livepatch.

Module Multipass.
Definition multipass_list : ActionSpec :=
  mkSpec "MultipassList" (Command "multipass" ["list"])
    Low false false.

Definition specs : list ActionSpec :=
  [multipass_list].
End Multipass.

(** ** The catalogue *)

Definition catalogue : list (string * list ActionSpec) := [
  ("Deployment (atomic host)", Deployment.specs);
  ("Package layering (rpm-ostree)", Layering.specs);
  ("Filesystem", Filesystem.specs);
  ("Flatpak", Flatpak.specs);
  ("Toolbox", Toolbox.specs);
  ("Services", Services.specs);
  ("Processes", Processes.specs);
  ("Journald", Journald.specs);
  ("Storage — LVM", Lvm.specs);
  ("Kernel parameters — sysctl", Sysctl.specs);
  ("Mounts & swap", Mounts.specs);
  ("Log management", Logging.specs);
  ("PAM password policy", Pam.specs);
  ("auditd", Auditd.specs);
  ("certbot / ACME", Certbot.specs);
  ("Scoped sudoers.d", Sudoers.specs);
  ("Network", Network.specs);
  ("resolvectl", Resolvectl.specs);
  ("Identity / time / locale", Identity.specs);
  ("Users & groups", Users.specs);
  ("SSH keys", Ssh.specs);
  ("Package repositories", PackageRepos.specs);
  ("System info", SystemInfo.specs);
  ("Containers", Containers.specs);
  ("Reboot", Reboot.specs);
  ("AppArmor", Apparmor.specs);
  ("cloud-init", Cloudinit.specs);
  ("fail2ban", Fail2ban.specs);
  ("apt", Apt.specs);
  ("apt preferences / pinning", AptPreferences.specs);
  ("PPA", Ppa.specs);
  ("snap", Snap.specs);
  ("ufw", Ufw.specs);
  ("netplan", Netplan.specs);
  ("distrobox", Distrobox.specs);
  ("GRUB", Grub.specs);
  ("Ubuntu release upgrade", ReleaseUpgrade.specs);
  ("Ubuntu Pro", UbuntuPro.specs);
  ("Livepatch", Livepatch.specs);
  ("Multipass", Multipass.specs)].

Definition all_specs : list ActionSpec := flat_map snd catalogue.

Definition meta_of (s : ActionSpec) : SpecMeta :=
  mkMeta (spec_risk_level s) (spec_reboot_required s) (spec_rollback_available s).

(** [SPEC_META]: a map built from every spec; a later entry replaces an earlier
    one of the same name. *)
Definition SPEC_META : gmap string SpecMeta :=
  fold_left (fun m s => <[action_name s := meta_of s]> m) all_specs ∅.

Definition DISPATCHER_INTERNAL_ACTIONS : list string := ["ListJobHistory"].
