(* ===== verification/Validate.v ===== *)
(** * Parameter validators

    crates/sysknife-daemon/src/actions/validate.rs: what a parameter must look
    like before it becomes an argument of a command run as root. Strings are
    bytes; a test of every [char] against ASCII classes is the same test of every
    byte, because every byte of a non-ASCII character is above 127. *)

From Stdlib Require Import Ascii String NArith ZArith Lia.
From stdpp Require Import base list strings.
From S2P Require Import Prelude Json Types Actions.

(** ** Field bounds *)

Definition MAX_USERNAME_LEN : nat := 32.
Definition MAX_DNS_NAME_LEN : nat := 253.
Definition MAX_DNS_LABEL_LEN : nat := 63.
Definition MAX_PORT : N := 65535.
Definition MAX_LVM_NAME_LEN : nat := 127.
Definition MAX_LVM_SIZE_LEN : nat := 32.
Definition MAX_JOURNAL_TIME_LEN : nat := 64.
Definition MAX_JOURNAL_GREP_LEN : nat := 256.
Definition MAX_SYSCTL_KEY_LEN : nat := 128.
Definition MAX_SYSCTL_VALUE_LEN : nat := 200.
Definition MAX_MEMORY_LIMIT_LEN : nat := 24.
Definition MAX_TASKS_MAX_DIGITS : nat := 12.
Definition MAX_FSTAB_FIELD_LEN : nat := 256.
Definition MAX_SUDOERS_NAME_LEN : nat := 64.
Definition MAX_ABSOLUTE_PATH_LEN : nat := 255.
Definition MAX_SYSLOG_HOST_LEN : nat := 255.
Definition MAX_APT_PACKAGE_LEN : nat := 128.
Definition MAX_APT_PIN_EXPR_LEN : nat := 200.
Definition MAX_SUDO_COMMANDS_LEN : nat := 1024.
Definition MAX_EMAIL_LEN : nat := 254.
Definition MIN_EMAIL_LEN : nat := 3.
Definition APPARMOR_PROFILE_NAME_MAX : nat := 128.
Definition UFW_APP_NAME_MAX : nat := 64.
Definition SAFE_ARG_MAX_BYTES : nat := 254.
Definition LOG_ROOT : string := "/var/log/".

(** [if bad { return Err(InvalidParam(param)) }] *)
Definition reject_if (bad : bool) (param : string) : result ExecutorError () :=
  if bad then Err (InvalidParam param) else Ok tt.

(** A single test, then the value itself. *)
Definition accept_if (good : bool) (s param : string) : result ExecutorError string :=
  if good then Ok s else Err (InvalidParam param).

Definition longer_than (n : nat) (s : string) : bool := n <? String.length s.

(** [char::is_control] over UTF-8: U+0000..1F, U+007F and U+0080..9F. *)
Fixpoint has_control (s : string) : bool :=
  match s with
  | EmptyString => false
  | String c s' =>
      (nat_of_ascii c <? 32) || (nat_of_ascii c =? 127)
      || (nat_of_ascii c =? 194)
         && match s' with String d _ => between 128 159 d | EmptyString => false end
      || has_control s'
  end.

Definition first_is (p : ascii -> bool) (s : string) : bool :=
  match first_char s with Some c => p c | None => false end.

(** ** Accounts and groups *)

Definition validated_username (s param : string) : result ExecutorError string :=
  _ ← reject_if (is_empty s || longer_than MAX_USERNAME_LEN s) param;
  _ ← reject_if (starts_with "-" s || starts_with "." s || contains ".." s) param;
  accept_if (str_all (fun c => is_alnum c || one_of "._-" c) s) s param.

Definition validated_group (s param : string) : result ExecutorError string :=
  validated_username s param.

Definition CRITICAL_ACCOUNTS : list string := ["root"; "daemon"; "bin"; "sys"; "sudo"; "adm"].
Definition CRITICAL_GROUPS : list string :=
  ["root"; "sudo"; "wheel"; "adm"; "sys"; "daemon"; "bin"; "staff"; "shadow"; "disk"].

Definition validated_username_not_critical (s param : string) : result ExecutorError string :=
  s ← validated_username s param;
  _ ← reject_if (str_in s CRITICAL_ACCOUNTS) param; Ok s.

Definition validated_group_not_critical (s param : string) : result ExecutorError string :=
  s ← validated_group s param;
  _ ← reject_if (str_in s CRITICAL_GROUPS) param; Ok s.

(** ** Units *)

Definition validated_unit_name (s param : string) : result ExecutorError string :=
  _ ← reject_if (is_empty s || starts_with "-" s) param;
  accept_if (str_all (fun c => is_alnum c || one_of "@._:-" c) s) s param.

Definition ROOT_SHELL_UNITS : list string :=
  ["debug-shell"; "emergency"; "rescue"; "runlevel1"; "single"].

Definition POWER_STATE_UNITS : list string :=
  ["reboot"; "soft-reboot"; "poweroff"; "halt"; "kexec"; "ctrl-alt-del"; "exit"; "runlevel0";
   "runlevel6"; "shutdown"; "umount"; "sleep"; "suspend"; "hibernate"; "hybrid-sleep";
   "suspend-then-hibernate"; "systemd-reboot"; "systemd-soft-reboot"; "systemd-poweroff";
   "systemd-halt"; "systemd-kexec"; "systemd-exit"; "systemd-suspend"; "systemd-hibernate";
   "systemd-hybrid-sleep"; "systemd-suspend-then-hibernate"].

Definition UNIT_TYPE_SUFFIXES : list string :=
  [".service"; ".target"; ".socket"; ".mount"; ".path"; ".slice"; ".scope"].

Definition bare_unit_name (unit : string) : string :=
  let lower := to_lower unit in
  let stripped := default lower (find_map (fun suffix => strip_suffix suffix lower) UNIT_TYPE_SUFFIXES) in
  match split_once "@"%char stripped with
  | Some (template, _) => template
  | None => stripped
  end.

Definition RESOURCE_LIMIT_PROTECTED_UNITS : list string :=
  ["sysknife-daemon"; "auditd"; "systemd-journald"; "rsyslog"; "dbus"; "dbus-broker"; "polkit";
   "polkitd"; "systemd-logind"; "ssh"; "sshd"].

Definition RESOURCE_LIMIT_PROTECTED_PREFIXES : list string :=
  ["systemd-journald"; "auditd"; "audit-rules"].

Definition is_protected_unit (bare : string) : bool :=
  str_in bare RESOURCE_LIMIT_PROTECTED_UNITS
  || existsb (fun family => starts_with family bare) RESOURCE_LIMIT_PROTECTED_PREFIXES.

Definition validated_activatable_unit (s param : string) : result ExecutorError string :=
  unit ← validated_unit_name s param;
  let bare := bare_unit_name unit in
  _ ← reject_if (str_in bare ROOT_SHELL_UNITS || str_in bare POWER_STATE_UNITS) param; Ok unit.

Definition validated_stoppable_unit (s param : string) : result ExecutorError string :=
  unit ← validated_unit_name s param;
  _ ← reject_if (is_protected_unit (bare_unit_name unit)) param; Ok unit.

Definition validated_resource_limit_unit (s param : string) : result ExecutorError string :=
  unit ← validated_unit_name s param;
  let lower := to_lower unit in
  _ ← reject_if (ends_with ".slice" lower || ends_with ".scope" lower) param;
  _ ← reject_if (is_protected_unit (bare_unit_name unit)) param; Ok unit.

(** ** Identity *)

Definition validated_hostname (s param : string) : result ExecutorError string :=
  _ ← reject_if (is_empty s || longer_than MAX_DNS_NAME_LEN s || starts_with "-" s) param;
  _ ← reject_if (negb (str_all (fun c => is_alnum c || one_of ".-" c) s)) param;
  accept_if (forallb (fun label => negb (is_empty label || longer_than MAX_DNS_LABEL_LEN label))
               (split_on "."%char s)) s param.

Definition validated_timezone (s param : string) : result ExecutorError string :=
  _ ← reject_if (is_empty s || starts_with "-" s) param;
  _ ← reject_if (contains ".." s) param;
  accept_if (str_all (fun c => is_alnum c || one_of "/_+-" c) s) s param.

Definition validated_locale (s param : string) : result ExecutorError string :=
  _ ← reject_if (is_empty s || starts_with "-" s) param;
  accept_if (str_all (fun c => is_alnum c || one_of "._-" c) s) s param.

(** ** Packages, profiles and ports *)

Definition validated_ppa_name (s param : string) : result ExecutorError string :=
  match split_once "/"%char s with
  | None => Err (InvalidParam param)
  | Some (user, ppa) =>
      _ ← reject_if (is_empty user || is_empty ppa) param;
      let is_valid_component := str_all (fun c => is_alnum c || one_of "._-" c) in
      _ ← reject_if (negb (is_valid_component user) || negb (is_valid_component ppa)) param;
      _ ← reject_if (longer_than SAFE_ARG_MAX_BYTES s) param; Ok s
  end.

Definition APPARMOR_PREFIX : string := "/etc/apparmor.d/".

Definition validated_apparmor_profile (s param : string) : result ExecutorError string :=
  _ ← reject_if (is_empty s) param;
  if starts_with "/" s then
    _ ← reject_if (negb (starts_with APPARMOR_PREFIX s)) param;
    _ ← reject_if (contains ".." s) param;
    let suffix := str_drop (String.length APPARMOR_PREFIX) s in
    _ ← reject_if (is_empty suffix) param;
    accept_if (str_all (fun c => is_alnum c || one_of "._-/" c) suffix) s param
  else
    _ ← reject_if (str_has "/"%char s) param;
    _ ← reject_if (starts_with "." s || starts_with "-" s) param;
    _ ← reject_if (longer_than APPARMOR_PROFILE_NAME_MAX s) param;
    accept_if (str_all (fun c => is_alnum c || one_of "._-" c) s) s param.

(** A port in decimal: [parse::<u32>()], then 1..=65535. *)
Definition check_port (digits param : string) : result ExecutorError () :=
  port ← ok_or (InvalidParam param) (parse_u32 digits);
  reject_if ((port =? 0)%N || (MAX_PORT <? port)%N) param.

Definition validated_port_or_service (s param : string) : result ExecutorError string :=
  _ ← reject_if (is_empty s) param;
  match split_once "/"%char s with
  | Some (port_part, proto_part) =>
      _ ← reject_if (negb (str_in proto_part ["tcp"; "udp"])) param;
      _ ← reject_if (is_empty port_part || negb (str_all is_digit port_part)) param;
      _ ← check_port port_part param; Ok s
  | None =>
      if str_all is_digit s then _ ← check_port s param; Ok s
      else
        _ ← reject_if (negb (first_is is_alpha s)) param;
        _ ← reject_if (longer_than UFW_APP_NAME_MAX s || ends_with " " s) param;
        accept_if (str_all (fun c => is_alnum c || one_of "_- " c) s) s param
  end.

Definition validated_safe_arg (s param : string) : result ExecutorError string :=
  _ ← reject_if (is_empty s || longer_than SAFE_ARG_MAX_BYTES s) param;
  _ ← reject_if (starts_with "-" s) param;
  accept_if (str_all (fun c => is_alnum c || one_of "._:/+@-" c) s) s param.

Definition LOCAL_IMAGE_TRANSPORTS : list string :=
  ["oci"; "oci-archive"; "dir"; "docker-archive"; "docker-daemon"; "containers-storage";
   "ostree"; "sif"; "tarball"; "file"].

Definition UNVERIFIED_IMAGE_TRANSPORTS : list string :=
  ["ostree-unverified-registry"; "ostree-unverified-image"].

(** The parts of a rebase target from [previous] on are all acceptable. *)
Fixpoint rebase_parts_ok (previous : string) (parts : list string) : bool :=
  match parts with
  | [] => true
  | part :: parts' =>
      let lower := to_lower part in
      let local_path := starts_with "/" part
        && negb ((previous =? "docker")%string && starts_with "//" part) in
      negb (str_in lower LOCAL_IMAGE_TRANSPORTS || str_in lower UNVERIFIED_IMAGE_TRANSPORTS
            || starts_with "." part || local_path)
      && rebase_parts_ok lower parts'
  end.

Definition validated_rebase_ref (s param : string) : result ExecutorError string :=
  target ← validated_safe_arg s param;
  _ ← reject_if (negb (rebase_parts_ok "" (split_on ":"%char target))) param;
  _ ← reject_if (contains ".." target || contains "@/" target) param; Ok target.

(** ** LVM *)

Definition validated_lvm_name (s param : string) : result ExecutorError string :=
  _ ← reject_if (is_empty s || longer_than MAX_LVM_NAME_LEN s) param;
  _ ← reject_if (negb (first_is (fun c => is_alnum c || one_of "_" c) s)) param;
  accept_if (str_all (fun c => is_alnum c || one_of "+_.-" c) s) s param.

(** [&s[..s.len() - 1]] *)
Definition but_last (s : string) : string := str_take (String.length s - 1) s.

Definition validated_lvm_size (s param : string) : result ExecutorError string :=
  _ ← reject_if (longer_than MAX_LVM_SIZE_LEN s) param;
  let body := default s (strip_prefix "+" s) in
  let '(digits, suffix) :=
    match last_char body with
    | Some c => if is_alpha c then (but_last body, Some c) else (body, None)
    | None => (body, None)
    end in
  _ ← reject_if (match suffix with Some c => negb (one_of "kKmMgGtTpP" c) | None => false end) param;
  _ ← reject_if (is_empty digits || (1 <? count_char "."%char digits)
                 || negb (str_all (fun c => is_digit c || one_of "." c) digits)
                 || starts_with "." digits || ends_with "." digits) param;
  Ok s.

(** ** Journal *)

Definition JOURNAL_PRIORITY_NAMES : list string :=
  ["emerg"; "alert"; "crit"; "err"; "warning"; "notice"; "info"; "debug"].

Definition is_level (lvl : string) : bool :=
  str_in lvl ["0"; "1"; "2"; "3"; "4"; "5"; "6"; "7"] || str_in lvl JOURNAL_PRIORITY_NAMES.

(** [s.split_once(sep)] for a longer separator. *)
Fixpoint split_once_str (sep s : string) : option (string * string) :=
  match strip_prefix sep s with
  | Some r => Some ("", r)
  | None => match s with
            | EmptyString => None
            | String c s' => '(l, r) ← split_once_str sep s'; Some (String c l, r)
            end
  end.

Definition validated_journal_priority (s param : string) : result ExecutorError string :=
  accept_if match split_once_str ".." s with
            | Some (lo, hi) => is_level lo && is_level hi
            | None => is_level s
            end s param.

Definition validated_journal_time (s param : string) : result ExecutorError string :=
  _ ← reject_if (is_empty s || longer_than MAX_JOURNAL_TIME_LEN s) param;
  accept_if (str_all (fun c => is_alnum c || one_of " :-+.," c) s) s param.

Definition validated_journal_grep (s param : string) : result ExecutorError string :=
  _ ← reject_if (is_empty s || longer_than MAX_JOURNAL_GREP_LEN s) param;
  _ ← reject_if (has_control s) param; Ok s.

(** ** Kernel parameters and service limits *)

Definition validated_sysctl_key (s param : string) : result ExecutorError string :=
  _ ← reject_if (is_empty s || longer_than MAX_SYSCTL_KEY_LEN s) param;
  _ ← reject_if (negb (first_is (fun c => is_lower c || is_digit c) s)) param;
  accept_if (str_all (fun c => is_lower c || is_digit c || one_of "._-" c) s) s param.

Definition validated_sysctl_value (s param : string) : result ExecutorError string :=
  _ ← reject_if (is_empty s || longer_than MAX_SYSCTL_VALUE_LEN s) param;
  accept_if (str_all (fun c => is_alnum c || one_of " ._/:,-" c) s) s param.

Definition validated_memory_limit (s param : string) : result ExecutorError string :=
  if (s =? "infinity")%string then Ok s
  else
    _ ← reject_if (longer_than MAX_MEMORY_LIMIT_LEN s) param;
    let digits := match last_char s with
                  | Some c => if one_of "KMGT" c then but_last s else s
                  | None => s
                  end in
    _ ← reject_if (is_empty digits || negb (str_all is_digit digits)) param; Ok s.

Definition validated_cpu_quota (s param : string) : result ExecutorError string :=
  digits ← ok_or (InvalidParam param) (strip_suffix "%" s);
  _ ← reject_if (is_empty digits || longer_than 7 digits || negb (str_all is_digit digits)) param;
  Ok s.

Definition validated_tasks_max (s param : string) : result ExecutorError string :=
  if (s =? "infinity")%string then Ok s
  else
    _ ← reject_if (is_empty s || longer_than MAX_TASKS_MAX_DIGITS s || negb (str_all is_digit s)) param;
    Ok s.

(** ** Mounts *)

Definition FSTYPE_ALLOW : list string :=
  ["ext4"; "ext3"; "ext2"; "xfs"; "btrfs"; "vfat"; "exfat"; "ntfs3"; "nfs"; "nfs4"; "cifs"].

Definition CRITICAL_MOUNTPOINTS : list string :=
  ["/"; "/boot"; "/boot/efi"; "/etc"; "/usr"; "/bin"; "/sbin"; "/lib"; "/lib64"; "/var"; "/home";
   "/root"; "/proc"; "/sys"; "/dev"; "/run"].

Definition validated_mount_device (s param : string) : result ExecutorError string :=
  _ ← reject_if (is_empty s || longer_than MAX_FSTAB_FIELD_LEN s || starts_with "-" s
                 || contains ".." s) param;
  let dev_like := starts_with "/dev/" s
    && str_all (fun c => is_alnum c || one_of "/_.-" c) (str_drop 5 s) in
  let uuid := match strip_prefix "UUID=" s with
              | Some u => (8 <=? String.length u) && str_all (fun c => is_hexdigit c || one_of "-" c) u
              | None => false
              end in
  let label := match strip_prefix "LABEL=" s with
               | Some l => negb (is_empty l) && str_all (fun c => is_alnum c || one_of "_.:-" c) l
               | None => false
               end in
  let cifs := starts_with "//" s && (3 <=? count_char "/"%char s)
    && str_all (fun c => is_alnum c || one_of "/._-" c) s in
  let nfs := match split_once_str ":/" s with
             | Some (host, _) => negb (is_empty host) && negb (starts_with "/" host)
                                 && str_all (fun c => is_alnum c || one_of ":/._-" c) s
             | None => false
             end in
  accept_if (dev_like || uuid || label || cifs || nfs) s param.

Definition validated_absolute_path (s param : string) (max_len : nat)
    : result ExecutorError string :=
  _ ← reject_if (negb (starts_with "/" s) || longer_than max_len s || contains ".." s) param;
  accept_if (str_all (fun c => is_alnum c || one_of "/_.-" c) s) s param.

Definition validated_home_dir (s param : string) : result ExecutorError string :=
  validated_absolute_path s param MAX_FSTAB_FIELD_LEN.

Definition validated_mount_point (s param : string) : result ExecutorError string :=
  s ← validated_absolute_path s param MAX_FSTAB_FIELD_LEN;
  _ ← reject_if (str_in s CRITICAL_MOUNTPOINTS) param; Ok s.

Definition validated_fstype (s param : string) : result ExecutorError string :=
  accept_if (str_in s FSTYPE_ALLOW) s param.

Definition MOUNT_OPTIONS_DENY : list string := ["suid"; "dev"].

Definition nonempty_parts (c : ascii) (s : string) : list string :=
  List.filter (fun o => negb (is_empty o)) (split_on c s).

Definition add_option (out : list string) (required : string) : list string :=
  if existsb (fun o => eq_ignore_case o required) out then out else out ++ [required].

Definition hardened_mount_options (requested : string) : string :=
  join "," (fold_left add_option ["nosuid"; "nodev"] (nonempty_parts ","%char requested)).

Definition validated_mount_options (s param : string) : result ExecutorError string :=
  _ ← reject_if (longer_than MAX_FSTAB_FIELD_LEN s) param;
  _ ← reject_if (negb (str_all (fun c => is_alnum c || one_of "=,._:@/+-" c) s)) param;
  _ ← reject_if (existsb (fun opt => existsb (eq_ignore_case opt) MOUNT_OPTIONS_DENY)
                   (split_on ","%char s)) param;
  Ok (hardened_mount_options s).

Definition validated_swap_path (s param : string) : result ExecutorError string :=
  validated_absolute_path s param MAX_FSTAB_FIELD_LEN.

(** ** Drop-in names, logs *)

Definition validated_sudoers_name (s param : string) : result ExecutorError string :=
  _ ← reject_if (is_empty s || longer_than MAX_SUDOERS_NAME_LEN s) param;
  _ ← reject_if (negb (first_is (fun c => is_lower c || is_digit c) s)) param;
  accept_if (str_all (fun c => is_lower c || is_digit c || one_of "_-" c) s) s param.

Definition validated_apt_pin_name (s param : string) : result ExecutorError string :=
  validated_sudoers_name s param.

Definition validated_log_path (s param : string) : result ExecutorError string :=
  _ ← reject_if (negb (starts_with LOG_ROOT s) || longer_than MAX_ABSOLUTE_PATH_LEN s
                 || contains ".." s) param;
  accept_if (str_all (fun c => is_alnum c || one_of "/._*-" c) s) s param.

Definition LOG_EVIDENCE_DIRS : list string := ["/var/log"; "/var/log/audit"; "/var/log/journal"].

Definition log_glob_sweeps_evidence (path : string) : bool :=
  let parts := List.filter (fun p => negb (is_empty p) && negb (p =? ".")%string)
                 (split_on "/"%char path) in
  match rev parts with
  | [] => false
  | final :: rest =>
      let parent := rev rest in
      if negb (str_all (Ascii.eqb "*"%char) final) then false
      else str_in ("/" ++ join "/" parent)%string LOG_EVIDENCE_DIRS
           || existsb (str_has "*"%char) parent
  end.

Definition validated_log_rotation (path : string) (rotate : N) : result ExecutorError string :=
  path ← validated_log_path path "path";
  _ ← reject_if (log_glob_sweeps_evidence path) "path";
  _ ← reject_if (str_has "*"%char path && (rotate =? 0)%N) "rotate"; Ok path.

Definition validated_syslog_host (s param : string) : result ExecutorError string :=
  _ ← reject_if (is_empty s || longer_than MAX_SYSLOG_HOST_LEN s || contains ".." s
                 || starts_with "-" s) param;
  accept_if (str_all (fun c => is_alnum c || one_of ".:_-" c) s) s param.

(** ** Package operands *)

Definition validated_install_package (s param : string) : result ExecutorError string :=
  let first_ok := first_is is_alnum s in
  let charset_ok := str_all (fun c => is_alnum c || one_of "+._:=~-" c) s in
  _ ← reject_if (is_empty s || longer_than MAX_APT_PACKAGE_LEN s || negb first_ok || negb charset_ok
                 || str_has "/"%char s || ends_with ".deb" s || ends_with ".rpm" s
                 || ends_with "-" s) param;
  Ok s.

Definition validated_unmodified_package (s param : string) : result ExecutorError string :=
  package ← validated_install_package s param;
  _ ← reject_if (ends_with "+" package) param; Ok package.

Definition validated_apt_show_package (s param : string) : result ExecutorError string :=
  package ← validated_safe_arg s param;
  _ ← reject_if (ends_with "-" package) param; Ok package.

Definition validated_apt_package (s param : string) : result ExecutorError string :=
  _ ← reject_if (is_empty s || starts_with "-" s || longer_than MAX_APT_PACKAGE_LEN s
                 || negb (str_all (fun c => is_alnum c || one_of ".+*?_:-" c) s)) param;
  Ok s.

Definition validated_apt_pin_expr (s param : string) : result ExecutorError string :=
  _ ← reject_if (is_empty s || longer_than MAX_APT_PIN_EXPR_LEN s
                 || negb (str_all (fun c => is_alnum c || one_of " =.,:/*_+-" c) s)) param;
  Ok s.

(** ** Sudo grants *)

Definition SHELL_EQUIVALENT_COMMANDS : list string :=
  ["sh"; "bash"; "rbash"; "dash"; "ash"; "zsh"; "ksh"; "ksh93"; "mksh"; "csh"; "tcsh"; "fish";
   "busybox"; "pwsh"; "powershell"; "su"; "sudo"; "sudoedit"; "doas"; "runuser"; "pkexec";
   "setpriv"; "chroot"; "unshare"; "nsenter"; "capsh"; "python"; "python2"; "python3"; "perl";
   "perl5"; "ruby"; "irb"; "lua"; "luac"; "node"; "nodejs"; "php"; "tclsh"; "wish"; "expect";
   "gdb"; "julia"; "guile"; "rscript"; "awk"; "gawk"; "mawk"; "nawk"; "sed"; "ed"; "vi"; "vim";
   "vimdiff"; "view"; "ex"; "nvim"; "emacs"; "nano"; "less"; "more"; "most"; "man"; "pg"; "info";
   "env"; "nice"; "ionice"; "taskset"; "stdbuf"; "setarch"; "timeout"; "watch"; "flock"; "xargs";
   "find"; "script"; "scriptreplay"; "socat"; "nc"; "ncat"; "netcat"; "tar"; "cpio"; "zip";
   "unzip"; "rsync"; "scp"; "sftp"; "ftp"; "ssh"; "tmux"; "screen"; "byobu"; "make"; "cmake";
   "strace"; "ltrace"; "tcpdump"; "docker"; "podman"; "git"; "crontab"; "at"; "systemctl";
   "journalctl"; "apt"; "apt-get"; "dpkg"; "rpm"; "yum"; "dnf"; "zypper"; "pip"; "pip3"; "gem";
   "npm"; "mount"].

Definition SHELL_EQUIVALENT_SUFFIXES : list string := [".basic"; ".tiny"].

Definition unversioned_command_name (base : string) : string :=
  let base := default base (find_map (fun suffix => strip_suffix suffix base) SHELL_EQUIVALENT_SUFFIXES) in
  trim_end_while (fun c => is_digit c || one_of "." c) base.

Definition is_shell_equivalent (c : string) : bool :=
  let base := to_lower (basename c) in
  str_in base SHELL_EQUIVALENT_COMMANDS
  || str_in (unversioned_command_name base) SHELL_EQUIVALENT_COMMANDS.

Definition shell_equivalent_sudo_command (commands : string) : option string :=
  if (commands =? "ALL")%string then None
  else List.find is_shell_equivalent (nonempty_parts ","%char commands).

(** One command of a grant. *)
Definition sudo_command_ok (c : string) : bool :=
  starts_with "/" c && negb (contains ".." c) && negb (str_has "*"%char c)
  && str_all (fun ch => is_alnum ch || one_of "/._-" ch) c.

Definition validated_sudo_commands (s param : string) : result ExecutorError string :=
  if (s =? "ALL")%string then Ok s
  else
    _ ← reject_if (is_empty s || longer_than MAX_SUDO_COMMANDS_LEN s) param;
    let commands := nonempty_parts ","%char s in
    _ ← reject_if (negb (forallb sudo_command_ok commands)) param;
    _ ← reject_if (match commands with [] => true | _ => false end) param; Ok s.

(** ** Ubuntu Pro, auditd, certbot *)

Definition SERVICES : list string :=
  ["esm-apps"; "esm-infra"; "livepatch"; "usg"; "fips"; "fips-updates"; "fips-preview"; "cis";
   "ros"; "ros-updates"; "cc-eal"; "realtime-kernel"; "landscape"; "anbox-cloud"].

Definition validated_pro_service (s param : string) : result ExecutorError string :=
  accept_if (str_in s SERVICES) s param.

Definition validated_audit_path (s param : string) : result ExecutorError string :=
  validated_absolute_path s param MAX_ABSOLUTE_PATH_LEN.

(** The flags still to come repeat none of [seen] nor each other. *)
Fixpoint no_repeats (seen : list ascii) (s : string) : bool :=
  match s with
  | EmptyString => true
  | String c s' => negb (existsb (Ascii.eqb c) seen) && no_repeats (c :: seen) s'
  end.

Definition validated_audit_perms (s param : string) : result ExecutorError string :=
  _ ← reject_if (is_empty s || longer_than 4 s || negb (str_all (one_of "rwxa") s)) param;
  accept_if (no_repeats [] s) s param.

Definition validated_domain (s param : string) : result ExecutorError string :=
  _ ← reject_if (is_empty s || longer_than MAX_DNS_NAME_LEN s || contains ".." s
                 || starts_with "-" s || starts_with "." s || ends_with "." s) param;
  accept_if (str_all (fun c => is_alnum c || one_of ".-" c) s) s param.

Definition validated_email (s param : string) : result ExecutorError string :=
  _ ← reject_if ((String.length s <? MIN_EMAIL_LEN) || longer_than MAX_EMAIL_LEN s) param;
  _ ← reject_if match split_on "@"%char s with
                | [local; domain] => is_empty local || is_empty domain || negb (str_has "."%char domain)
                | _ => true
                end param;
  accept_if (str_all (fun c => is_alnum c || one_of "@._+-" c) s) s param.

(** ** What the validators promise *)

Lemma reject_if_Ok bad param u : reject_if bad param = Ok u <-> bad = false.
Proof. unfold reject_if. destruct bad, u; naive_solver. Qed.

Lemma accept_if_Ok good s param t : accept_if good s param = Ok t <-> good = true /\ t = s.
Proof. unfold accept_if. destruct good; naive_solver. Qed.

Lemma ok_or_Ok {E A} (e : E) (o : option A) a : ok_or e o = Ok a <-> o = Some a.
Proof. destruct o; naive_solver. Qed.

(** [accepted H]: what a chain of tests that ended in [Ok] has established. *)
Ltac accepted H :=
  lazymatch type of H with
  | mbind _ _ = Ok _ =>
      let x := fresh "x" in let Hx := fresh "Hx" in
      apply bind_Ok in H as (x & Hx & H); accepted Hx; accepted H
  | reject_if _ _ = Ok _ => apply reject_if_Ok in H; bools
  | accept_if _ _ _ = Ok _ =>
      let E := fresh "E" in apply accept_if_Ok in H as [H E]; bools; try subst
  | ok_or _ _ = Ok _ => apply ok_or_Ok in H
  | Ok _ = Ok _ => injection H as H; try subst
  | Err _ = Ok _ => discriminate H
  | _ => idtac
  end.

(** *** No option injection: what is accepted never starts with a dash *)

Definition no_dash (s : string) : Prop := starts_with "-" s = false.

(** A validator whose results are never read as an option. *)
Class NoDash (validator : string -> string -> result ExecutorError string) : Prop :=
  no_dash_accepted : forall s param t, validator s param = Ok t -> no_dash t.

Lemma first_is_no_dash p s : first_is p s = true -> p "-"%char = false -> no_dash s.
Proof.
  intros H Hp. apply not_true_is_false. intros Hd. apply prefix_spec in Hd as [t ->].
  change (p "-"%char = true) in H. congruence.
Qed.

Lemma slash_no_dash s : starts_with "/" s = true -> no_dash s.
Proof. intros H. apply prefix_spec in H as [t ->]. done. Qed.

Lemma str_all_first p s : str_all p s = true -> s <> "" -> first_is p s = true.
Proof. destruct s as [|c s]; [done|]. cbn. intros H _. by bools. Qed.

Lemma in_list_no_dash s l : str_in s l = true -> forallb (fun x => negb (starts_with "-" x)) l = true ->
  no_dash s.
Proof.
  intros Hs Hl. apply str_in_spec in Hs. rewrite forallb_forall in Hl.
  specialize (Hl s). rewrite <-list_elem_of_In in Hl. by apply negb_true_iff, Hl.
Qed.

#[export] Instance no_dash_username : NoDash validated_username.
Proof. intros s p t H. unfold validated_username in H. by accepted H. Qed.
#[export] Instance no_dash_group : NoDash validated_group.
Proof. exact no_dash_username. Qed.
#[export] Instance no_dash_username_not_critical : NoDash validated_username_not_critical.
Proof. intros s p t H. unfold validated_username_not_critical in H. accepted H. by eapply no_dash_username. Qed.
#[export] Instance no_dash_group_not_critical : NoDash validated_group_not_critical.
Proof. intros s p t H. unfold validated_group_not_critical in H. accepted H. by eapply no_dash_group. Qed.
#[export] Instance no_dash_unit_name : NoDash validated_unit_name.
Proof. intros s p t H. unfold validated_unit_name in H. by accepted H. Qed.
#[export] Instance no_dash_activatable : NoDash validated_activatable_unit.
Proof. intros s p t H. unfold validated_activatable_unit in H. accepted H. by eapply no_dash_unit_name. Qed.
#[export] Instance no_dash_stoppable : NoDash validated_stoppable_unit.
Proof. intros s p t H. unfold validated_stoppable_unit in H. accepted H. by eapply no_dash_unit_name. Qed.
#[export] Instance no_dash_resource_limit : NoDash validated_resource_limit_unit.
Proof.
  intros s p t H. unfold validated_resource_limit_unit in H. accepted H. by eapply no_dash_unit_name.
Qed.
#[export] Instance no_dash_hostname : NoDash validated_hostname.
Proof. intros s p t H. unfold validated_hostname in H. by accepted H. Qed.
#[export] Instance no_dash_timezone : NoDash validated_timezone.
Proof. intros s p t H. unfold validated_timezone in H. by accepted H. Qed.
#[export] Instance no_dash_locale : NoDash validated_locale.
Proof. intros s p t H. unfold validated_locale in H. by accepted H. Qed.
#[export] Instance no_dash_apparmor : NoDash validated_apparmor_profile.
Proof.
  intros s p t H. unfold validated_apparmor_profile in H. accepted H.
  destruct (starts_with "/" s) eqn:E; accepted H; [by apply slash_no_dash|done].
Qed.
#[export] Instance no_dash_safe_arg : NoDash validated_safe_arg.
Proof. intros s p t H. unfold validated_safe_arg in H. by accepted H. Qed.
#[export] Instance no_dash_rebase_ref : NoDash validated_rebase_ref.
Proof. intros s p t H. unfold validated_rebase_ref in H. accepted H. by eapply no_dash_safe_arg. Qed.
#[export] Instance no_dash_lvm_name : NoDash validated_lvm_name.
Proof.
  intros s p t H. unfold validated_lvm_name in H. accepted H. by eapply first_is_no_dash.
Qed.
#[export] Instance no_dash_sysctl_key : NoDash validated_sysctl_key.
Proof.
  intros s p t H. unfold validated_sysctl_key in H. accepted H. by eapply first_is_no_dash.
Qed.
#[export] Instance no_dash_mount_device : NoDash validated_mount_device.
Proof. intros s p t H. unfold validated_mount_device in H. by accepted H. Qed.

Lemma no_dash_absolute_path s param n t : validated_absolute_path s param n = Ok t -> no_dash t.
Proof. intros H. unfold validated_absolute_path in H. accepted H. by apply slash_no_dash. Qed.

#[export] Instance no_dash_home_dir : NoDash validated_home_dir.
Proof. intros s p t H. by eapply no_dash_absolute_path. Qed.
#[export] Instance no_dash_swap_path : NoDash validated_swap_path.
Proof. intros s p t H. by eapply no_dash_absolute_path. Qed.
#[export] Instance no_dash_audit_path : NoDash validated_audit_path.
Proof. intros s p t H. by eapply no_dash_absolute_path. Qed.
#[export] Instance no_dash_mount_point : NoDash validated_mount_point.
Proof. intros s p t H. unfold validated_mount_point in H. accepted H. by eapply no_dash_absolute_path. Qed.
#[export] Instance no_dash_fstype : NoDash validated_fstype.
Proof. intros s p t H. unfold validated_fstype in H. accepted H. by eapply in_list_no_dash. Qed.
#[export] Instance no_dash_pro_service : NoDash validated_pro_service.
Proof. intros s p t H. unfold validated_pro_service in H. accepted H. by eapply in_list_no_dash. Qed.
#[export] Instance no_dash_sudoers_name : NoDash validated_sudoers_name.
Proof.
  intros s p t H. unfold validated_sudoers_name in H. accepted H. by eapply first_is_no_dash.
Qed.
#[export] Instance no_dash_apt_pin_name : NoDash validated_apt_pin_name.
Proof. exact no_dash_sudoers_name. Qed.
#[export] Instance no_dash_log_path : NoDash validated_log_path.
Proof.
  intros s p t H. unfold validated_log_path in H. accepted H. apply slash_no_dash.
  match goal with H : starts_with LOG_ROOT _ = true |- _ => apply prefix_spec in H as [u ->] end. done.
Qed.
#[export] Instance no_dash_syslog_host : NoDash validated_syslog_host.
Proof. intros s p t H. unfold validated_syslog_host in H. by accepted H. Qed.
#[export] Instance no_dash_install_package : NoDash validated_install_package.
Proof.
  intros s p t H. unfold validated_install_package in H. accepted H. by eapply first_is_no_dash.
Qed.
#[export] Instance no_dash_unmodified : NoDash validated_unmodified_package.
Proof.
  intros s p t H. unfold validated_unmodified_package in H. accepted H. by eapply no_dash_install_package.
Qed.
#[export] Instance no_dash_apt_show : NoDash validated_apt_show_package.
Proof.
  intros s p t H. unfold validated_apt_show_package in H. accepted H. by eapply no_dash_safe_arg.
Qed.
#[export] Instance no_dash_apt_package : NoDash validated_apt_package.
Proof. intros s p t H. unfold validated_apt_package in H. by accepted H. Qed.
#[export] Instance no_dash_domain : NoDash validated_domain.
Proof. intros s p t H. unfold validated_domain in H. by accepted H. Qed.

Lemma charset_no_dash p s : str_all p s = true -> p "-"%char = false -> no_dash s.
Proof.
  intros H Hp. apply not_true_is_false. intros Hd. apply prefix_spec in Hd as [t ->].
  cbn in H. bools. congruence.
Qed.

#[export] Instance no_dash_audit_perms : NoDash validated_audit_perms.
Proof. intros s p t H. unfold validated_audit_perms in H. accepted H. by eapply charset_no_dash. Qed.
#[export] Instance no_dash_port_or_service : NoDash validated_port_or_service.
Proof.
  intros s p t H. unfold validated_port_or_service in H. accepted H.
  destruct (split_once "/"%char s) as [[port proto]|] eqn:E.
  - accepted H. apply split_once_spec in E as [-> _].
    apply not_true_is_false. intros Hd. apply prefix_spec in Hd as [u Hu].
    destruct port as [|c port]; [done|]. cbn in Hu. injection Hu as -> _.
    match goal with H : str_all is_digit _ = true |- _ => cbn in H; by bools end.
  - destruct (str_all is_digit s) eqn:Ed; accepted H; [by eapply charset_no_dash|].
    by eapply first_is_no_dash.
Qed.
Lemma digits_no_dash d : str_all (fun c => is_digit c || one_of "." c) d = true -> no_dash d.
Proof. intros H. by eapply charset_no_dash. Qed.

Lemma but_last_no_dash s : no_dash (but_last s) -> is_empty (but_last s) = false -> no_dash s.
Proof.
  intros H He. apply not_true_is_false. intros Hd. apply prefix_spec in Hd as [u ->].
  unfold but_last, str_take, no_dash in *. cbn [String.append String.length] in *.
  replace (S (String.length u) - 1) with (String.length u) in * by lia.
  destruct (String.length u) as [|n]; [done|].
  assert (Hp : starts_with "-" (substring 0 (S n) (String "-" u)) = true); [|congruence].
  apply prefix_spec. by exists (substring 0 n u).
Qed.

#[export] Instance no_dash_lvm_size : NoDash validated_lvm_size.
Proof.
  intros s p t H. unfold validated_lvm_size in H. accepted H.
  assert (Hbody : no_dash (default s (strip_prefix "+" s))).
  { destruct (last_char _); [destruct (is_alpha _)|]; accepted H;
      [apply but_last_no_dash; [|done]|..]; by apply digits_no_dash. }
  assert (t = s) as ->.
  { destruct (last_char _); [destruct (is_alpha _)|]; by accepted H. }
  destruct (strip_prefix "+" s) eqn:E; [by apply strip_prefix_spec in E as ->|done].
Qed.

(** *** Unit names: every spelling of a listed unit is refused *)

(** systemd reads [s] as [u]: in any case, with any unit type the screens know,
    bare or as an instance. *)
Definition spells (u s : string) : Prop :=
  exists instance suffix, to_lower s = (u ++ instance ++ suffix)%string
  /\ (instance = "" \/ exists i, instance = String "@" i)
  /\ (suffix = "" \/ suffix ∈ UNIT_TYPE_SUFFIXES).

Lemma find_map_Some {A B} (f : A -> option B) l b :
  find_map f l = Some b -> exists a, a ∈ l /\ f a = Some b.
Proof.
  induction l as [|a l IH]; cbn; [done|]. destruct (f a) eqn:E; intros H; simplify_eq.
  - exists a. split; [left|done].
  - destruct (IH H) as (a' & Ha & Hf). exists a'. split; [by right|done].
Qed.

(** What is cut off the end without a [c] leaves the part before the first [c]. *)
Lemma split_once_strip c t suf l r :
  split_once c (t ++ suf) = Some (l, r) -> str_has c suf = false ->
  exists r', split_once c t = Some (l, r').
Proof.
  intros H Hs. revert l H. induction t as [|a t IH]; intros l H; cbn in *.
  - apply split_once_spec in H as [-> _]. exfalso. apply not_true_iff_false in Hs. apply Hs.
    apply str_has_spec. rewrite bytes_of_app. apply elem_of_app. right. left.
  - destruct (Ascii.eqb a c); [by simplify_eq; eexists|].
    destruct (split_once c (t ++ suf)) as [[l' r']|] eqn:E; cbn in H; simplify_eq.
    destruct (IH l' eq_refl) as [r'' Hr]. rewrite Hr. by eexists.
Qed.

Lemma bare_unit_name_spelling units u s :
  forallb (fun u => negb (str_has "@" u)
             && forallb (fun suffix => (bare_unit_name (u ++ suffix) =? u)%string)
                  ("" :: UNIT_TYPE_SUFFIXES)
             && (to_lower u =? u)%string) units = true ->
  u ∈ units -> spells u s -> bare_unit_name s = u.
Proof.
  intros Hall Hu (inst & suffix & Hs & Hi & Hsuf). rewrite forallb_forall in Hall.
  specialize (Hall u). rewrite <-list_elem_of_In in Hall. specialize (Hall Hu). bools.
  destruct Hi as [->|[i ->]].
  - assert (Hsame : forall a b, to_lower a = to_lower b -> bare_unit_name a = bare_unit_name b)
      by (unfold bare_unit_name; intros a b ->; done).
    rewrite forallb_forall in H1.
    assert (Hin : In suffix ("" :: UNIT_TYPE_SUFFIXES))
      by (apply list_elem_of_In; rewrite elem_of_cons; destruct Hsuf; auto).
    pose proof (H1 _ Hin) as Hb. apply String.eqb_eq in Hb. rewrite <-Hb. apply Hsame.
    rewrite Hs. cbn [String.append].
    assert (Hl : forall a b, to_lower (a ++ b)%string = (to_lower a ++ to_lower b)%string)
      by (unfold to_lower; induction a; intros; cbn; [done|by f_equal]).
    rewrite Hl, H0. f_equal. destruct Hsuf as [->|Hsuf]; [done|].
    unfold UNIT_TYPE_SUFFIXES in Hsuf. repeat (apply elem_of_cons in Hsuf as [->|Hsuf]; [done|]).
    by apply not_elem_of_nil in Hsuf.
  - unfold bare_unit_name. rewrite Hs.
    assert (Hat : forall t suf, (u ++ String "@" i ++ suffix)%string = (t ++ suf)%string ->
              str_has "@" suf = false -> exists r, split_once "@" t = Some (u, r)).
    { intros t suf E Hn. eapply split_once_strip; [rewrite <-E; by apply split_once_spec|done]. }
    destruct (find_map _ UNIT_TYPE_SUFFIXES) as [t|] eqn:E; cbn [default from_option id].
    + apply find_map_Some in E as (suf & Hin & E). apply strip_suffix_spec in E.
      destruct (Hat t suf E) as [r ->]; [|done].
      unfold UNIT_TYPE_SUFFIXES in Hin. repeat (apply elem_of_cons in Hin as [->|Hin]; [done|]).
      by apply not_elem_of_nil in Hin.
    + destruct (Hat (u ++ String "@" i ++ suffix)%string "") as [r ->]; [|done|done].
      by rewrite str_app_nil.
Qed.

(** A unit that hands out a root shell or changes the power state cannot be
    brought up, and a unit the host's security rests on cannot be stopped or
    capped, under any of its spellings: upper or lower case, any of the unit
    types, as a plain unit or as an instance of a template. *)
Theorem protected_units_refused u s param :
  spells u s ->
  (u ∈ ROOT_SHELL_UNITS ++ POWER_STATE_UNITS -> is_ok (validated_activatable_unit s param) = false)
  /\ (u ∈ RESOURCE_LIMIT_PROTECTED_UNITS ->
      is_ok (validated_stoppable_unit s param) = false
      /\ is_ok (validated_resource_limit_unit s param) = false).
Proof.
  intros Hs. split.
  - intros Hu.
    assert (Hb : bare_unit_name s = u)
      by (by apply (bare_unit_name_spelling (ROOT_SHELL_UNITS ++ POWER_STATE_UNITS))).
    apply not_true_is_false. intros (t & H)%is_ok_spec. unfold validated_activatable_unit in H.
    apply bind_Ok in H as (x & Hx & H). unfold validated_unit_name in Hx. accepted Hx. accepted H.
    apply elem_of_app in Hu as [Hu|Hu]; apply str_in_spec in Hu; congruence.
  - intros Hu.
    assert (Hb : bare_unit_name s = u)
      by (by apply (bare_unit_name_spelling RESOURCE_LIMIT_PROTECTED_UNITS)).
    assert (Hp : is_protected_unit u = true)
      by (unfold is_protected_unit; apply str_in_spec in Hu; by rewrite Hu).
    split; apply not_true_is_false; intros (t & H)%is_ok_spec;
      unfold validated_stoppable_unit, validated_resource_limit_unit in H;
      apply bind_Ok in H as (x & Hx & H); unfold validated_unit_name in Hx; accepted Hx; accepted H;
      congruence.
Qed.

Lemma protected_units_refused_witness :
  spells "debug-shell" "Debug-Shell@1.SERVICE"
  /\ is_ok (validated_activatable_unit "Debug-Shell@1.SERVICE" "unit") = false.
Proof.
  assert (Hs : spells "debug-shell" "Debug-Shell@1.SERVICE").
  { exists "@1", ".service". split; [reflexivity|]. split; [right; by exists "1"|]. right. left. }
  split; [exact Hs|]. apply (proj1 (protected_units_refused _ _ "unit" Hs)). left.
Defined.

(** *** Mount options *)

(** Joining pieces without the separator and splitting again is the identity. *)
Lemma split_on_join c l :
  l <> [] -> Forall (fun s => str_has c s = false) l -> split_on c (join (String c "") l) = l.
Proof.
  intros Hne Hl. induction Hl as [|s l Hs Hl IH]; [done|]. destruct l as [|s' l].
  - by apply split_on_none.
  - change (join (String c "") (s :: s' :: l)) with (s ++ String c "" ++ join (String c "") (s' :: l))%string.
    cbn [String.append]. rewrite split_on_app, split_on_none by done. by rewrite IH.
Qed.

Lemma nonempty_parts_join c l :
  Forall (fun s => str_has c s = false /\ is_empty s = false) l ->
  nonempty_parts c (join (String c "") l) = l.
Proof.
  intros Hl. unfold nonempty_parts. destruct l as [|s l]; [done|].
  rewrite split_on_join; [|done|by eapply Forall_impl; [exact Hl|intros ? []]].
  clear -Hl. induction Hl as [|x m [_ Hx] Hm IH]; [done|]. cbn. rewrite Hx. cbn. by rewrite IH.
Qed.

Lemma nonempty_parts_elem c s :
  Forall (fun p => str_has c p = false /\ is_empty p = false) (nonempty_parts c s).
Proof.
  apply Forall_forall. intros p Hp. unfold nonempty_parts in Hp.
  apply list_elem_of_In, filter_In in Hp as [Hin He]. apply list_elem_of_In in Hin.
  pose proof (split_on_pieces c s) as Hall. rewrite Forall_forall in Hall.
  split; [by apply Hall|by apply negb_true_iff].
Qed.

Lemma add_option_spec out r :
  out `prefix_of` add_option out r
  /\ Exists (fun o => eq_ignore_case o r = true) (add_option out r)
  /\ forall o, o ∈ add_option out r -> o ∈ out \/ o = r.
Proof.
  unfold add_option. destruct (existsb _ out) eqn:E.
  - split_and!; [done| |by left]. apply existsb_exists in E as (o & Ho & E).
    apply Exists_exists. exists o. by rewrite list_elem_of_In.
  - split_and!; [by exists [r]| |].
    + apply Exists_app. right. constructor. unfold eq_ignore_case. by rewrite String.eqb_refl.
    + intros o [Ho|Ho%list_elem_of_singleton]%elem_of_app; auto.
Qed.

(** The options of a comma-separated list. *)
Definition mount_options_of (s : string) : list string := nonempty_parts ","%char s.
Definition has_option (o : string) (s : string) : Prop :=
  Exists (fun p => eq_ignore_case p o = true) (mount_options_of s).

Lemma hardened_options requested :
  mount_options_of (hardened_mount_options requested)
  = add_option (add_option (mount_options_of requested) "nosuid") "nodev".
Proof.
  unfold hardened_mount_options, mount_options_of. cbn [fold_left]. apply nonempty_parts_join.
  pose proof (nonempty_parts_elem ","%char requested) as Hall. rewrite Forall_forall in Hall.
  apply Forall_forall. intros o Ho.
  apply add_option_spec in Ho as [Ho| ->]; [|done]. apply add_option_spec in Ho as [Ho| ->]; [|done].
  by apply Hall.
Qed.

(** Accepted mount options are hardened. They start with the requested
    options in their order, contain nosuid and nodev, and contain neither suid
    nor dev in any case; hardening them again changes nothing. *)
Theorem mount_options_hardened s param t :
  validated_mount_options s param = Ok t ->
  mount_options_of s `prefix_of` mount_options_of t
  /\ has_option "nosuid" t /\ has_option "nodev" t
  /\ ~ has_option "suid" t /\ ~ has_option "dev" t
  /\ mount_options_of (hardened_mount_options t) = mount_options_of t.
Proof.
  intros H. unfold validated_mount_options in H. accepted H.
  unfold has_option. rewrite !hardened_options.
  set (l := mount_options_of s) in *. set (l1 := add_option l "nosuid").
  destruct (add_option_spec l "nosuid") as (P1 & E1 & I1).
  destruct (add_option_spec l1 "nodev") as (P2 & E2 & I2). fold l1 in P1, E1, I1.
  assert (Hdeny : forall o d, o ∈ l -> d ∈ MOUNT_OPTIONS_DENY -> eq_ignore_case o d = false).
  { intros o d Ho Hd. apply not_true_is_false. intros E.
    match goal with H : existsb _ _ = false |- _ => apply not_true_iff_false in H; apply H end.
    apply existsb_exists. exists o. unfold l, mount_options_of, nonempty_parts in Ho.
    apply list_elem_of_In, filter_In in Ho as [Ho _]. split; [done|].
    apply existsb_exists. exists d. split; [by apply list_elem_of_In|done]. }
  assert (Hno : forall d, d ∈ MOUNT_OPTIONS_DENY -> eq_ignore_case "nosuid" d = false ->
            eq_ignore_case "nodev" d = false ->
            ~ Exists (fun p => eq_ignore_case p d = true) (add_option l1 "nodev")).
  { intros d Hd H1 H2 (o & Ho & E)%Exists_exists. apply I2 in Ho as [Ho| ->]; [|congruence].
    apply I1 in Ho as [Ho| ->]; [|congruence]. by rewrite Hdeny in E. }
  assert (E1' : Exists (fun p => eq_ignore_case p "nosuid" = true) (add_option l1 "nodev")).
  { destruct P2 as [k ->]. apply Exists_app. by left. }
  split_and!.
  - by etrans.
  - done.
  - done.
  - apply Hno; [left|done|done].
  - apply Hno; [right; left|done|done].
  - assert (Hkeep : forall m r, Exists (fun p => eq_ignore_case p r = true) m -> add_option m r = m).
    { intros m r (o & Ho & E)%Exists_exists. unfold add_option.
      replace (existsb _ m) with true; [done|]. symmetry. apply existsb_exists. exists o.
      by rewrite <-list_elem_of_In. }
    rewrite (Hkeep (add_option l1 "nodev") "nosuid") by done. by apply Hkeep.
Qed.

Lemma mount_options_hardened_witness :
  exists t, validated_mount_options "ro,NoSuid" "options" = Ok t
  /\ has_option "nodev" t /\ ~ has_option "suid" t.
Proof.
  exists "ro,NoSuid,nodev". split; [vm_compute; reflexivity|].
  pose proof (mount_options_hardened "ro,NoSuid" "options" "ro,NoSuid,nodev" ltac:(vm_compute; reflexivity))
    as (_ & _ & Hd & Hs & _). split; [exact Hd|exact Hs].
Defined.
