(* ===== verification/Params.v ===== *)
(** * Parameters of an action

    crates/sysknife-daemon/src/executor.rs: which parameters each action takes,
    how they are read out of the JSON object, and the screens of kernel
    arguments. Validators of a single value are in [Validate.v]. *)

From Stdlib Require Import Ascii String NArith ZArith Lia.
From stdpp Require Import base list strings.
From S2P Require Import Prelude Json Types Actions Validate.

(** ** Which parameters an action takes *)

(** The arms of the match: the names of an arm and what they accept. *)
Definition ACTION_PARAMS : list (list string * list string) := [
  (["GetSystemState"; "CollectDiagnostics"; "GetDeploymentHistory"; "ListDeployments";
    "UpdateSystem"; "CleanupDeployments"; "RebootSystem"; "RollbackDeployment";
    "GetKernelArguments"; "GetLayeredPackages"; "ResetLayeredPackageOverride";
    "GetPendingUpdates"; "ListPackageRepositories"; "ListServices"; "ListTimers"; "ReloadDaemon";
    "GetDateTime"; "GetDiskUsage"; "ListProcesses"; "GetLvmReport"; "GetMounts"; "GetSudoGrants";
    "RemoveRemoteSyslog"; "GetMemoryInfo"; "GetHostState"; "GetFirewallState";
    "GetNetworkStatus"; "GetListeningPorts"; "GetNftablesRuleset"; "GetFirewallBackendState";
    "ListUsers"; "ListGroups"; "AptUpdate"; "AptUpgrade"; "AptAutoremove"; "AptListInstalled";
    "AptListUpgradable"; "AptHistoryList"; "SnapList"; "GrubGetKargs"; "CheckPendingReboot";
    "UfwEnable"; "UfwDisable"; "UfwReset"; "DistroboxList"; "NetplanGetConfig"; "NetplanApply";
    "NetplanGenerate"; "ProStatus"; "ProDetach"; "LivepatchStatus"; "MultipassList";
    "UbuntuReleaseUpgrade"; "ResolvectlStatus"; "AppArmorStatus"; "CloudInitStatus";
    "GetAuditRules"; "GetCertificates"; "RenewCertificates"],
   []);
  (["PinDeployment"; "UnpinDeployment"],
   ["index"]);
  (["RebaseSystem"],
   ["target_ref"]);
  (["SetKernelArguments"],
   ["add"; "remove"]);
  (["ListFlatpakRemotes"; "ListInstalledFlatpaks"; "ListContainers"; "ListToolboxes";
    "DeleteUser"; "LockUserAccount"; "UnlockUserAccount"; "GetAuthorizedKeys";
    "UbuntuListFlatpaks"],
   ["user"; "username"]);
  (["InstallFlatpak"; "UbuntuInstallFlatpak"],
   ["app_id"; "remote"; "user"; "username"]);
  (["RemoveFlatpak"; "GetFlatpakAppInfo"; "UpdateFlatpak"; "UbuntuRemoveFlatpak";
    "UbuntuUpdateFlatpak"],
   ["app_id"; "user"; "username"]);
  (["SearchFlatpakApps"; "AptSearch"],
   ["term"]);
  (["AddFlatpakRemote"],
   ["remote"; "url"; "user"; "username"]);
  (["RemoveFlatpakRemote"],
   ["remote"; "user"; "username"]);
  (["CreateContainer"],
   ["image"; "name"; "user"; "username"]);
  (["StartContainer"; "StopContainer"; "RemoveContainer"; "GetContainerInfo"; "RemoveToolbox"],
   ["name"; "user"; "username"]);
  (["InstallPackages"; "RemovePackages"],
   ["packages"]);
  (["AddLayeredPackage"; "RemoveLayeredPackage"; "RemoveBasePackage"; "GetAptPins"; "AptInstall";
    "AptRemove"; "AptPurge"; "AptHold"; "AptUnhold"; "AptShow"],
   ["package"]);
  (["ReplaceLayeredPackage"],
   ["new"; "old"]);
  (["AddPackageRepository"],
   ["repo_id"; "repo_url"]);
  (["RemovePackageRepository"; "EnablePackageRepository"; "DisablePackageRepository"],
   ["repo_id"]);
  (["StartService"; "StopService"; "RestartService"; "MaskService"; "UnmaskService";
    "GetServiceLogs"; "GetServiceStatus"; "ReloadService"; "GetServiceResourceLimits"],
   ["unit"]);
  (["SetServiceEnabled"],
   ["enabled"; "unit"]);
  (["CreateScheduledJob"],
   ["command"; "name"; "schedule"]);
  (["SetServiceResourceLimits"],
   ["cpu_quota"; "memory_high"; "memory_max"; "tasks_max"; "unit"]);
  (["CreateToolbox"],
   ["image"; "name"; "release"; "user"; "username"]);
  (["SetHostname"],
   ["hostname"]);
  (["SetTimezone"],
   ["timezone"]);
  (["SetLocale"],
   ["locale"]);
  (["SetNtp"; "ConfigureUnattendedUpgrades"],
   ["enabled"]);
  (["SignalProcess"],
   ["pid"; "signal"]);
  (["GetJournalLog"],
   ["boot"; "grep"; "kernel"; "lines"; "priority"; "since"; "unit"; "until"]);
  (["VacuumJournal"],
   ["retain_days"; "size_mb"]);
  (["ExtendLogicalVolume"],
   ["lv"; "size"; "vg"]);
  (["CreateLogicalVolume"],
   ["name"; "size"; "vg"]);
  (["CreateLvSnapshot"],
   ["origin"; "size"; "snapshot"; "vg"]);
  (["GetSysctl"; "RemoveAuditRule"],
   ["key"]);
  (["SetSysctl"; "NetplanSet"],
   ["key"; "value"]);
  (["AddMount"],
   ["device"; "fstype"; "mountpoint"; "options"]);
  (["RemoveMount"],
   ["mountpoint"]);
  (["AddSwap"],
   ["file"; "size_mb"]);
  (["RemoveSwap"],
   ["file"]);
  (["GrantSudoAccess"],
   ["commands"; "name"; "nopasswd"; "runas"; "user"]);
  (["RevokeSudoAccess"; "RemoveAptPin"; "RemoveLogRotation"; "AddPpa"; "RemovePpa"; "SnapRemove";
    "SnapRefresh"; "SnapHold"; "SnapUnhold"; "SnapInfo"; "SnapRevert"; "SnapClassicInstall";
    "DistroboxRemove"],
   ["name"]);
  (["SetAptPin"],
   ["name"; "package"; "pin"; "priority"]);
  (["GetLogrotateStatus"],
   ["config"]);
  (["ConfigureLogRotation"],
   ["compress"; "frequency"; "name"; "path"; "rotate"]);
  (["ConfigureRemoteSyslog"],
   ["host"; "port"; "protocol"]);
  (["GetPasswordAging"],
   ["user"]);
  (["SetPasswordAging"],
   ["max_days"; "min_days"; "user"; "warn_days"]);
  (["SetPasswordPolicy"],
   ["dcredit"; "lcredit"; "minlen"; "ocredit"; "ucredit"]);
  (["SetAccountLockout"],
   ["deny"; "fail_interval"; "unlock_time"]);
  (["ConfigureWifi"],
   ["password"; "ssid"]);
  (["SetDnsServers"; "ResolvectlSetDns"],
   ["interface"; "servers"]);
  (["ConfigureFirewall"],
   ["enabled"; "service"; "zone"]);
  (["CreateUser"],
   ["home"; "shell"; "user"; "username"]);
  (["AddUserToGroup"; "RemoveUserFromGroup"],
   ["group"; "user"; "username"]);
  (["CreateGroup"],
   ["group"; "system"]);
  (["DeleteGroup"],
   ["group"]);
  (["AddAuthorizedKey"; "RemoveAuthorizedKey"],
   ["public_key"; "user"; "username"]);
  (["SetSshdOption"],
   ["option"; "value"]);
  (["SnapInstall"],
   ["auto_update"; "channel"; "name"]);
  (["GrubSetKargs"],
   ["append"; "delete"]);
  (["UfwAllow"; "UfwDeny"],
   ["port_or_service"]);
  (["UfwStatus"],
   ["numbered"]);
  (["DistroboxCreate"],
   ["image"; "name"]);
  (["UfwDeleteRule"],
   ["rule_number"]);
  (["UfwLimit"],
   ["target"]);
  (["ProAttach"],
   ["token"]);
  (["EnableProService"; "DisableProService"],
   ["service"]);
  (["AppArmorEnforce"; "AppArmorComplain"],
   ["profile_path"]);
  (["Fail2banStatus"],
   ["jail"]);
  (["Fail2banBanIp"; "Fail2banUnbanIp"],
   ["ip"; "jail"]);
  (["ConfigureFail2banJail"],
   ["bantime"; "enabled"; "findtime"; "maxretry"; "name"]);
  (["AddAuditRule"],
   ["key"; "path"; "perms"]);
  (["ObtainCertificate"],
   ["challenge"; "domain"; "domains"; "email"]);
  (["ListJobHistory"],
   ["limit"; "status_filter"; "action_filter"; "since_hours"; "since"])].

Definition allowed_action_params (name : string) : option (list string) :=
  find_map (fun '(names, allowed) => if str_in name names then Some allowed else None) ACTION_PARAMS.

Definition validate_action_params (name : string) (params : json) : result ExecutorError () :=
  allowed ← ok_or (UnknownAction name) (allowed_action_params name);
  match params with
  | JObj object =>
      if existsb (fun kv => negb (str_in (fst kv) allowed)) object
      then Err (InvalidParam "unknown parameter")
      else Ok tt
  | _ => Err (InvalidParam "params")
  end.

(** ** Reading a parameter *)

(** [Value::as_i64] *)
Definition as_i64 (v : json) : option Z :=
  match v with
  | JNum (NPos n) => if (n <? 2 ^ 63)%N then Some (Z.of_N n) else None
  | JNum (NNeg z) => Some z
  | _ => None
  end.

(** A required parameter, read with [f]. *)
Definition require {A} (f : json -> option A) (params : json) (key : string)
    : result ExecutorError A :=
  match jget key params with
  | None => Err (MissingParam key)
  | Some v => ok_or (InvalidParam key) (f v)
  end.

(** An optional one: absent and null are the same. *)
Definition optional {A} (f : json -> option A) (params : json) (key : string)
    : result ExecutorError (option A) :=
  match jget key params with
  | None | Some JNull => Ok None
  | Some v => Some <$> ok_or (InvalidParam key) (f v)
  end.

Definition require_str : json -> string -> result ExecutorError string := require as_str.
Definition require_bool : json -> string -> result ExecutorError bool := require as_bool.
Definition require_i64 : json -> string -> result ExecutorError Z := require as_i64.
Definition optional_str : json -> string -> result ExecutorError (option string) := optional as_str.
Definition optional_bool : json -> string -> result ExecutorError (option bool) := optional as_bool.
Definition optional_u64 : json -> string -> result ExecutorError (option N) := optional as_u64.
Definition optional_i64 : json -> string -> result ExecutorError (option Z) := optional as_i64.

(** [u32::try_from] *)
Definition u32_try_from (n : N) : option N := if (n <=? U32_MAX)%N then Some n else None.

Definition require_u32 (params : json) (key : string) : result ExecutorError N :=
  require (fun v => n ← as_u64 v; u32_try_from n) params key.

Definition require_positive_u32 (params : json) (key : string) : result ExecutorError N :=
  n ← require_u32 params key;
  if (n =? 0)%N then Err (InvalidParam key) else Ok n.

Definition str_array (v : json) : option (list string) := l ← as_array v; mapM as_str l.

Definition optional_str_array : json -> string -> result ExecutorError (option (list string)) :=
  optional str_array.
Definition str_array_or_empty (params : json) (key : string) : result ExecutorError (list string) :=
  default [] <$> optional_str_array params key.

Definition keep_nonempty (o : option string) : option string :=
  match o with Some s => if is_empty s then None else Some s | None => None end.

(** [o.map(f).transpose()] *)
Definition traverse {E A B} (f : A -> result E B) (o : option A) : result E (option B) :=
  match o with Some a => Some <$> f a | None => Ok None end.

(** [l.iter().map(f).collect::<Result<_, _>>()] *)
Fixpoint collect {E A B} (f : A -> result E B) (l : list A) : result E (list B) :=
  match l with
  | [] => Ok []
  | a :: l' => b ← f a; bs ← collect f l'; Ok (b :: bs)
  end.

(** [for a in l { f(a)?; }] *)
Fixpoint for_all {E A B} (f : A -> result E B) (l : list A) : result E () :=
  match l with
  | [] => Ok tt
  | a :: l' => _ ← f a; for_all f l'
  end.

Definition optional_validated (params : json) (key : string)
    (validator : string -> string -> result ExecutorError string)
    : result ExecutorError (option string) :=
  s ← optional_str params key;
  traverse (fun s => validator s key) (keep_nonempty s).

Definition resolve_username (params : json) : result ExecutorError string :=
  v ← ok_or (MissingParam "username")
        (match jget "username" params with Some v => Some v | None => jget "user" params end);
  ok_or (InvalidParam "username") (as_str v).

Definition validated_repo_id (params : json) : result ExecutorError string :=
  id ← require_str params "repo_id";
  accept_if (negb (is_empty id) && str_all (fun c => is_alnum c || one_of "-_" c) id) id "repo_id".

Definition validated_no_newline (params : json) (key : string) : result ExecutorError string :=
  val ← require_str params key;
  _ ← reject_if (str_has LF val || str_has CR val) key; Ok val.

Definition ALLOWED_PREFIXES : list string :=
  ["ssh-rsa"; "ssh-ed25519"; "ssh-ed25519-sk"; "ecdsa-sha2-nistp256"; "ecdsa-sha2-nistp384";
   "ecdsa-sha2-nistp521"; "sk-ssh-ed25519"; "sk-ecdsa-sha2-nistp256"].
Definition PUBLIC_KEY_MAX_LEN : N := 8192.

(** [!c.is_ascii() || c.is_ascii_control()], a byte at a time. *)
Definition not_printable_ascii (c : ascii) : bool :=
  (127 <=? nat_of_ascii c) || (nat_of_ascii c <? 32).

Definition validated_public_key (s : string) : result ExecutorError string :=
  _ ← reject_if (is_empty s || (PUBLIC_KEY_MAX_LEN <? N.of_nat (String.length s))%N) "public_key";
  _ ← reject_if (negb (existsb (fun p => starts_with p s) ALLOWED_PREFIXES)) "public_key";
  _ ← reject_if (str_exists (fun c => one_of "'|;`$\&" c || not_printable_ascii c) s) "public_key";
  Ok s.

Definition validated_kill_signal (s : string) : result ExecutorError string :=
  let normalized := to_upper (str_trim s) in
  let name := default normalized (strip_prefix "SIG" normalized) in
  accept_if (str_in name ["TERM"; "KILL"; "HUP"; "INT"]) name "signal".

(** ** Kernel arguments *)

Definition KARG_FLAGS : list string :=
  ["quiet"; "splash"; "rhgb"; "nomodeset"; "nowatchdog"; "threadirqs"].
Definition KARG_HARDENING_FLAGS : list string := ["nosmt"; "slab_nomerge"].
Definition KARG_VALUE_KEYS : list string :=
  ["console"; "video"; "loglevel"; "hugepages"; "hugepagesz"; "default_hugepagesz";
   "nvme_core.default_ps_max_latency_us"; "usbcore.autosuspend"; "nvidia_drm.modeset";
   "nvidia_drm.fbdev"; "i915.enable_psr"; "amdgpu.dc"; "acpi_backlight"; "mem_sleep_default";
   "pcie_aspm"; "transparent_hugepage"; "zswap.enabled"; "systemd.show_status";
   "plymouth.enable"].
Definition KARG_LIST_VALUES : list (string * list string) := [
  ("rd.driver.blacklist", ["nouveau"; "nvidia"; "nvidia_drm"; "nvidia_modeset"; "radeon"; "amdgpu"; "i915"])].
Definition KARG_HARDENING_VALUES : list (string * list string) := [
  ("lockdown", ["integrity"; "confidentiality"]);
  ("module.sig_enforce", ["1"]);
  ("intel_iommu", ["on"]);
  ("amd_iommu", ["force_isolation"]);
  ("init_on_alloc", ["1"]);
  ("init_on_free", ["1"]);
  ("page_alloc.shuffle", ["1"]);
  ("randomize_kstack_offset", ["on"]);
  ("mitigations", ["auto"; "auto,nosmt"]);
  ("pti", ["on"]);
  ("vsyscall", ["none"]);
  ("debugfs", ["off"])].
Definition KARG_WEAKENING : list string :=
  ["selinux=0"; "enforcing=0"; "apparmor=0"; "lockdown=none"; "debugfs=on"; "iommu=off";
   "intel_iommu=off"; "nokaslr"; "nopti"; "nosmap"; "nosmep"; "nospectre_v1"; "nospectre_v2";
   "nospec_store_bypass_disable"; "nospectre_bhb"; "single"; "emergency"; "rescue"; "rd.break";
   "rd.shell"; "systemd.debug_shell"; "init=/bin/sh"; "init=/bin/bash"; "mitigations=off";
   "pti=off"; "audit=0"; "module.sig_enforce=0"; "init_on_alloc=0"; "init_on_free=0";
   "page_alloc.shuffle=0"; "randomize_kstack_offset=off"; "spectre_v2=off";
   "spec_store_bypass_disable=off"; "mds=off"; "tsx_async_abort=off"; "mmio_stale_data=off";
   "retbleed=off"; "srbds=off"; "l1tf=off"; "spectre_bhi=off"; "gather_data_sampling=off";
   "reg_file_data_sampling=off"].

(** [key.replace('-', "_")] *)
Definition dash_to_underscore (c : ascii) : ascii := if Ascii.eqb c "-"%char then "_"%char else c.

Definition normalized_kernel_arg (arg : string) : string :=
  let lower := to_lower arg in
  match split_once "="%char lower with
  | Some (key, value) => (str_map dash_to_underscore key ++ "=" ++ value)%string
  | None => str_map dash_to_underscore lower
  end.

Definition validated_kernel_arg_token (arg param : string) : result ExecutorError () :=
  _ ← reject_if (is_empty arg || longer_than SAFE_ARG_MAX_BYTES arg) param;
  _ ← reject_if (starts_with "-" arg) param;
  reject_if (negb (str_all (fun c => is_alnum c || one_of "._:/+@-=," c) arg)) param.

(** May the argument of normal form [normal] be added? *)
Definition karg_addable (normal : string) : bool :=
  match split_once "="%char normal with
  | None => str_in normal KARG_FLAGS || str_in normal KARG_HARDENING_FLAGS
  | Some (key, value) =>
      negb (is_empty value) && str_in key KARG_VALUE_KEYS
      || existsb (fun '(k, allowed) => (k =? key)%string
                    && forallb (fun v => str_in v allowed) (split_on ","%char value)) KARG_LIST_VALUES
      || existsb (fun '(k, values) => (k =? key)%string && str_in value values) KARG_HARDENING_VALUES
  end.

Definition validated_safe_kernel_arg (arg param : string) : result ExecutorError () :=
  _ ← validated_kernel_arg_token arg param;
  reject_if (negb (karg_addable (normalized_kernel_arg arg))) param.

(** [normal.split('=').next()] *)
Definition karg_key (normal : string) : string :=
  match split_once "="%char normal with Some (key, _) => key | None => normal end.

Definition karg_removable (normal : string) : bool :=
  let key := karg_key normal in
  str_in normal KARG_WEAKENING || str_in key KARG_FLAGS || str_in key KARG_VALUE_KEYS
  || existsb (fun '(k, _) => (k =? key)%string) KARG_LIST_VALUES.

Definition validated_safe_kernel_arg_removal (arg param : string) : result ExecutorError () :=
  _ ← validated_kernel_arg_token arg param;
  reject_if (negb (karg_removable (normalized_kernel_arg arg))) param.

(** ** What the screens promise *)

(** *** Reading parameters *)

Lemma collect_Ok {E A B} (f : A -> result E B) l bs :
  collect f l = Ok bs <-> Forall2 (fun a b => f a = Ok b) l bs.
Proof.
  revert bs. induction l as [|a l IH]; intros bs; cbn.
  - split; [intros [= <-]; constructor|]. by inversion 1.
  - rewrite bind_Ok. split.
    + intros (b & Hb & H). apply bind_Ok in H as (bs' & Hbs & [= <-]). constructor; [done|by apply IH].
    + inversion 1; subst. eexists. split; [done|]. apply bind_Ok. eexists. split; [by apply IH|done].
Qed.

Lemma for_all_Ok {E A B} (f : A -> result E B) l u :
  for_all f l = Ok u <-> Forall (fun a => is_ok (f a) = true) l.
Proof.
  destruct u. induction l as [|a l IH]; cbn; [by split|].
  rewrite bind_Ok, Forall_cons, is_ok_spec, <-IH. naive_solver.
Qed.

Lemma traverse_Ok {E A B} (f : A -> result E B) o r :
  traverse f o = Ok r -> match o with Some a => exists b, f a = Ok b /\ r = Some b | None => r = None end.
Proof. destruct o as [a|]; cbn; [destruct (f a) eqn:Ef; cbn|]; naive_solver. Qed.

Lemma optional_validated_Ok params key validator r :
  optional_validated params key validator = Ok r ->
  match r with Some t => exists s, validator s key = Ok t | None => True end.
Proof.
  intros H. unfold optional_validated in H. apply bind_Ok in H as (o & _ & H).
  apply traverse_Ok in H. destruct (keep_nonempty o); naive_solver.
Qed.

Lemma no_dash_optional params key validator r :
  NoDash validator -> optional_validated params key validator = Ok (Some r) -> no_dash r.
Proof. intros HV H. apply optional_validated_Ok in H as [s H]. by eapply HV. Qed.

Lemma no_dash_collect validator param l l' :
  NoDash validator -> collect (fun s => validator s param) l = Ok l' -> Forall no_dash l'.
Proof.
  intros HV H. apply collect_Ok in H. induction H; constructor; [by eapply HV|done].
Qed.

Lemma no_dash_public_key s t : validated_public_key s = Ok t -> no_dash t.
Proof.
  intros H. unfold validated_public_key in H. accepted H.
  match goal with H : existsb _ _ = true |- _ => apply existsb_exists in H as (p & Hp & H);
    apply prefix_spec in H as [u ->] end.
  unfold ALLOWED_PREFIXES in Hp. repeat (destruct Hp as [<-|Hp]; [done|]). done.
Qed.

Lemma no_dash_kill_signal s t : validated_kill_signal s = Ok t -> no_dash t.
Proof.
  intros H. unfold validated_kill_signal in H. accepted H. by eapply in_list_no_dash.
Qed.

(** *** Kernel arguments *)

Definition HARDENING_KEYS : list string := KARG_HARDENING_FLAGS ++ map fst KARG_HARDENING_VALUES.
Definition ADDABLE_KEYS : list string :=
  KARG_FLAGS ++ KARG_VALUE_KEYS ++ map fst KARG_LIST_VALUES ++ HARDENING_KEYS.

(** An argument that may be put on the boot line: one token; its key is on the
    allowlist; it is no known downgrade; on a hardening key its value is one of
    the hardening values. *)
Record safe_addition (arg : string) : Prop := {
  sa_token : str_all (fun c => is_alnum c || one_of "._:/+@-=," c) arg = true;
  sa_key : karg_key (normalized_kernel_arg arg) ∈ ADDABLE_KEYS;
  sa_weakening : normalized_kernel_arg arg ∉ KARG_WEAKENING;
  sa_hardening : forall key value, normalized_kernel_arg arg = (key ++ String "=" value)%string ->
    key ∈ map fst KARG_HARDENING_VALUES -> exists values, (key, values) ∈ KARG_HARDENING_VALUES
      /\ value ∈ values }.

(** An argument that may be taken off it: it is a downgrade, or its key hardens
    nothing. *)
Record safe_removal (arg : string) : Prop := {
  sr_token : str_all (fun c => is_alnum c || one_of "._:/+@-=," c) arg = true;
  sr_hardening : normalized_kernel_arg arg ∈ KARG_WEAKENING
    \/ karg_key (normalized_kernel_arg arg) ∉ HARDENING_KEYS }.

Lemma kernel_arg_token arg param u :
  validated_kernel_arg_token arg param = Ok u ->
  str_all (fun c => is_alnum c || one_of "._:/+@-=," c) arg = true.
Proof. intros H. unfold validated_kernel_arg_token in H. by accepted H. Qed.

Lemma lists_disjoint x (l m : list string) :
  forallb (fun y => negb (str_in y m)) l = true -> x ∈ l -> x ∉ m.
Proof.
  intros Hall Hx Hm. rewrite forallb_forall in Hall. apply list_elem_of_In in Hx.
  specialize (Hall x Hx). apply negb_true_iff in Hall. apply str_in_spec in Hm. congruence.
Qed.

Lemma existsb_fst key {B} (l : list (string * B)) q :
  existsb (fun '(k, v) => (k =? key)%string && q v) l = true ->
  exists v, (key, v) ∈ l /\ q v = true.
Proof.
  intros ([k v] & Hin & H)%existsb_exists. bools. subst. exists v.
  by rewrite list_elem_of_In.
Qed.

Lemma addable_key n : karg_addable n = true -> karg_key n ∈ ADDABLE_KEYS.
Proof.
  unfold karg_addable, karg_key, ADDABLE_KEYS, HARDENING_KEYS. rewrite !elem_of_app.
  destruct (split_once _ n) as [[key value]|] eqn:E.
  - intros H. apply orb_true_iff in H as [H|H]; [apply orb_true_iff in H as [H|H]|].
    + bools. right; left. by apply str_in_spec.
    + apply existsb_fst in H as (v & Hin & _). do 2 right; left.
      apply (list_elem_of_fmap_2 fst _ _ Hin).
    + apply existsb_fst in H as (v & Hin & _). do 4 right.
      apply (list_elem_of_fmap_2 fst _ _ Hin).
  - intros H. apply orb_true_iff in H as [H|H]; apply str_in_spec in H; auto.
Qed.

Lemma addition_is_safe arg param u :
  validated_safe_kernel_arg arg param = Ok u -> safe_addition arg.
Proof.
  intros H. unfold validated_safe_kernel_arg in H. apply bind_Ok in H as (x & Ht & H).
  apply kernel_arg_token in Ht. apply reject_if_Ok in H. apply negb_false_iff in H.
  split; [done|by apply addable_key| |].
  - intros Hw.
    assert (Hall : forallb (fun w => negb (karg_addable w)) KARG_WEAKENING = true)
      by (vm_compute; reflexivity).
    rewrite forallb_forall in Hall. apply list_elem_of_In in Hw. apply Hall in Hw. by rewrite H in Hw.
  - intros key value E Hk. unfold karg_addable in H.
    assert (Hs : split_once "=" (normalized_kernel_arg arg) = Some (key, value)).
    { apply split_once_spec. split; [done|].
      assert (Hall : forallb (fun k => negb (str_has "=" k)) (map fst KARG_HARDENING_VALUES) = true)
        by reflexivity.
      rewrite forallb_forall in Hall. apply list_elem_of_In in Hk. by apply negb_true_iff, Hall. }
    rewrite Hs in H. apply orb_true_iff in H as [H|H]; [apply orb_true_iff in H as [H|H]|].
    + bools. exfalso. apply str_in_spec in H0. revert H0.
      apply (lists_disjoint key (map fst KARG_HARDENING_VALUES)); [reflexivity|done].
    + apply existsb_fst in H as (v & Hin & _). exfalso.
      apply (lists_disjoint key (map fst KARG_HARDENING_VALUES) (map fst KARG_LIST_VALUES));
        [reflexivity|done|]. apply (list_elem_of_fmap_2 fst _ _ Hin).
    + apply existsb_fst in H as (v & Hin & Hv). exists v. by rewrite <-str_in_spec.
Qed.

Lemma removal_is_safe arg param u :
  validated_safe_kernel_arg_removal arg param = Ok u -> safe_removal arg.
Proof.
  intros H. unfold validated_safe_kernel_arg_removal in H. apply bind_Ok in H as (x & Ht & H).
  apply kernel_arg_token in Ht. apply reject_if_Ok in H. apply negb_false_iff in H.
  split; [done|]. unfold karg_removable in H. set (n := normalized_kernel_arg arg) in *.
  destruct (str_in n KARG_WEAKENING) eqn:E; [left; by apply str_in_spec|right].
  apply (lists_disjoint _ (KARG_FLAGS ++ KARG_VALUE_KEYS ++ map fst KARG_LIST_VALUES)); [reflexivity|].
  rewrite !elem_of_app. cbn [orb] in H. apply orb_true_iff in H as [H|H];
    [apply orb_true_iff in H as [H|H]; apply str_in_spec in H; auto|].
  apply existsb_exists in H as ([k v] & Hin & H). apply String.eqb_eq in H. subst k. right; right.
  apply list_elem_of_In in Hin. apply (list_elem_of_fmap_2 fst _ _ Hin).
Qed.
