(* ===== verification/Builder.v ===== *)
(** * Building an action from a request

    [build_action_spec] of crates/sysknife-daemon/src/executor.rs: the arms of
    its match, one entry of [BUILDERS] each, in the order of the source. An arm
    reads and validates its parameters and calls the constructor of
    [Catalogue.v]. *)

From Stdlib Require Import Ascii String NArith ZArith Lia.
From stdpp Require Import base list strings gmap.
From S2P Require Import Prelude Json Types Actions Ip Catalogue Validate Params.

Definition MAX_SCHEDULED_COMMAND_LEN : nat := 512.
Definition MAX_SCHEDULE_EXPR_LEN : nat := 128.
Definition MAX_JOURNAL_LINES : N := 10000.
Definition MAX_SWAP_SIZE_MB : N := 1048576.
Definition MAX_PASSWORD_AGE_DAYS : N := 99999.
Definition MAX_PASSWORD_MINLEN : N := 128.
Definition MAX_LOCKOUT_WINDOW_SECS : N := 604800.
Definition MAX_FAIL2BAN_WINDOW_SECS : N := 2592000.

Definition Builder : Type := json -> result ExecutorError ActionSpec.

(** ** Shapes the arms share *)

(** [validator(require_str(params, key)?, key)?] *)
Definition arg (validator : string -> string -> result ExecutorError string) (key : string)
    (params : json) : result ExecutorError string :=
  s ← require_str params key; validator s key.

(** [validated_username(resolve_username(params)?, "username")?] *)
Definition user_arg (params : json) : result ExecutorError string :=
  s ← resolve_username params; validated_username s "username".
Definition user_not_critical_arg (params : json) : result ExecutorError string :=
  s ← resolve_username params; validated_username_not_critical s "username".

(** An arm with no, one, two or three parameters. *)
Definition build0 (make : ActionSpec) : Builder := fun _ => Ok make.
Definition build1 (a : json -> result ExecutorError string) (make : string -> ActionSpec) : Builder :=
  fun params => x ← a params; Ok (make x).
Definition build2 (a b : json -> result ExecutorError string)
    (make : string -> string -> ActionSpec) : Builder :=
  fun params => x ← a params; y ← b params; Ok (make x y).
Definition build3 (a b c : json -> result ExecutorError string)
    (make : string -> string -> string -> ActionSpec) : Builder :=
  fun params => x ← a params; y ← b params; z ← c params; Ok (make x y z).
(** An optional parameter that is validated when it is a non-empty string. *)
Definition build_opt (key : string) (validator : string -> string -> result ExecutorError string)
    (make : option string -> ActionSpec) : Builder :=
  fun params => x ← optional_validated params key validator; Ok (make x).
Definition build_bool (key : string) (make : bool -> ActionSpec) : Builder :=
  fun params => b ← require_bool params key; Ok (make b).
Definition build_index (key : string) (make : N -> ActionSpec) : Builder :=
  fun params => n ← require_u32 params key; Ok (make n).

(** [Err(InvalidParam(key))] unless [lo <= n <= hi]. *)
Definition check_range (lo hi n : N) (key : string) : result ExecutorError () :=
  reject_if (negb ((lo <=? n)%N && (n <=? hi)%N)) key.

(** [if let Some(n) = optional_u64(params, key)? { range check; push flag, n }] *)
Definition range_flag (lo hi : N) (params : json) (key flag : string)
    : result ExecutorError (list string) :=
  o ← optional_u64 params key;
  match o with
  | Some n => _ ← check_range lo hi n key; Ok [flag; dec_of_N n]
  | None => Ok []
  end.

(** The loop of such flags. *)
Fixpoint range_flags (lo hi : N) (params : json) (keys : list (string * string))
    : result ExecutorError (list string) :=
  match keys with
  | [] => Ok []
  | (key, flag) :: keys' =>
      a ← range_flag lo hi params key flag; b ← range_flags lo hi params keys'; Ok (a ++ b)
  end.

Definition require_some (l : list string) (key : string) : result ExecutorError () :=
  match l with [] => Err (MissingParam key) | _ => Ok tt end.

(** ** The longer arms *)

Definition build_set_kernel_arguments : Builder := fun params =>
  add ← str_array_or_empty params "add";
  remove ← str_array_or_empty params "remove";
  _ ← for_all (fun a => validated_safe_kernel_arg a "add") add;
  _ ← for_all (fun a => validated_safe_kernel_arg_removal a "remove") remove;
  Ok (Deployment.set_kernel_arguments add remove).

Definition build_install_flatpak : Builder := fun params =>
  username ← user_arg params;
  app_id ← arg validated_safe_arg "app_id" params;
  remote ← optional_str params "remote";
  remote ← validated_safe_arg (default "flathub" remote) "remote";
  Ok (Flatpak.install_flatpak username app_id remote).

Definition build_user_opt_app (make : string -> option string -> ActionSpec) : Builder :=
  fun params =>
  username ← user_arg params;
  app_id ← optional_validated params "app_id" validated_safe_arg;
  Ok (make username app_id).

Definition build_packages (make : list string -> ActionSpec) : Builder := fun params =>
  pkgs ← str_array_or_empty params "packages";
  validated ← collect (fun p => validated_install_package p "packages") pkgs;
  Ok (make validated).

Definition build_add_repository : Builder := fun params =>
  id ← validated_repo_id params;
  url ← validated_no_newline params "repo_url";
  Ok (PackageRepos.add_package_repository id url).

Definition build_restart_service : Builder := fun params =>
  unit ← arg validated_activatable_unit "unit" params;
  unit ← validated_stoppable_unit unit "unit";
  Ok (Services.restart_service unit).

Definition build_set_service_enabled : Builder := fun params =>
  enabled ← require_bool params "enabled";
  unit ← (if enabled : bool then arg validated_activatable_unit "unit" params
          else arg validated_unit_name "unit" params);
  Ok (Services.set_service_enabled unit enabled).

Definition build_create_scheduled_job : Builder := fun params =>
  name ← require_str params "name";
  _ ← ok_or (InvalidParam "name") (Services.scheduled_job_unit_paths name);
  command ← require_str params "command";
  _ ← reject_if (is_empty command || longer_than MAX_SCHEDULED_COMMAND_LEN command
                 || has_control command) "command";
  schedule ← require_str params "schedule";
  _ ← reject_if (is_empty schedule || longer_than MAX_SCHEDULE_EXPR_LEN schedule
                 || negb (str_all (fun c => is_alnum c || one_of " :,*/.~+-" c) schedule)) "schedule";
  Ok (Services.create_scheduled_job name command schedule).

Definition limit_assignment (params : json) (key property : string)
    (validator : string -> string -> result ExecutorError string)
    : result ExecutorError (list string) :=
  v ← optional_validated params key validator;
  Ok (option_list ((fun v => (property ++ "=" ++ v)%string) <$> v)).

Definition build_set_resource_limits : Builder := fun params =>
  unit ← arg validated_resource_limit_unit "unit" params;
  a ← limit_assignment params "memory_max" "MemoryMax" validated_memory_limit;
  b ← limit_assignment params "memory_high" "MemoryHigh" validated_memory_limit;
  c ← limit_assignment params "cpu_quota" "CPUQuota" validated_cpu_quota;
  d ← limit_assignment params "tasks_max" "TasksMax" validated_tasks_max;
  let assignments := a ++ b ++ c ++ d in
  _ ← require_some assignments "memory_max";
  Ok (Services.set_service_resource_limits unit assignments).

(** [optional_str(params, key)?.map(|s| validator(s, key)).transpose()?] *)
Definition opt_arg_validated (validator : string -> string -> result ExecutorError string)
    (key : string) (params : json) : result ExecutorError (option string) :=
  s ← optional_str params key; traverse (fun s => validator s key) s.

Definition build_create_toolbox : Builder := fun params =>
  username ← user_arg params;
  name ← arg validated_safe_arg "name" params;
  image ← opt_arg_validated validated_safe_arg "image" params;
  release ← opt_arg_validated validated_safe_arg "release" params;
  Ok (Toolbox.create_toolbox username name release image).

Definition pid_of (v : json) : option N :=
  match as_u64 v with
  | Some n => Some n
  | None => s ← as_str v; parse_u64 (str_trim s)
  end.

Definition build_signal_process : Builder := fun params =>
  pid ← ok_or (MissingParam "pid") (jget "pid" params ≫= pid_of);
  _ ← reject_if ((pid <? 2)%N || (U32_MAX <? pid)%N) "pid";
  signal ← optional_str params "signal";
  signal ← validated_kill_signal (default "TERM" signal);
  Ok (Processes.signal_process pid signal).

Definition clamp (lo hi n : N) : N := N.max lo (N.min n hi).

Definition build_get_journal_log : Builder := fun params =>
  unit ← optional_validated params "unit" validated_unit_name;
  priority ← optional_validated params "priority" validated_journal_priority;
  since ← optional_validated params "since" validated_journal_time;
  until ← optional_validated params "until" validated_journal_time;
  grep ← optional_validated params "grep" validated_journal_grep;
  lines ← optional_u64 params "lines";
  boot ← optional_bool params "boot";
  kernel ← optional_bool params "kernel";
  Ok (Journald.get_journal_log
        (Journald.mkJournalQuery (clamp 1 MAX_JOURNAL_LINES (default 100%N lines)) unit priority
           (default false boot) (default false kernel) since until grep)).

Definition u32_positive (n : N) : bool := (1 <=? n)%N && (n <=? U32_MAX)%N.

Definition build_vacuum_journal : Builder := fun params =>
  size_mb ← optional_u64 params "size_mb";
  retain_days ← optional_u64 params "retain_days";
  match size_mb, retain_days with
  | Some mb, None =>
      if u32_positive mb then Ok (Journald.vacuum_journal_by_size mb) else Err (InvalidParam "size_mb")
  | None, Some days =>
      if u32_positive days then Ok (Journald.vacuum_journal_by_time days) else Err (InvalidParam "size_mb")
  | None, None => Err (MissingParam "size_mb")
  | Some _, Some _ => Err (InvalidParam "size_mb")
  end.

Definition build_create_lv_snapshot : Builder := fun params =>
  vg ← arg validated_lvm_name "vg" params;
  origin ← arg validated_lvm_name "origin" params;
  snapshot ← arg validated_lvm_name "snapshot" params;
  size ← arg validated_lvm_size "size" params;
  Ok (Lvm.create_lv_snapshot vg origin snapshot size).

Definition build_add_mount : Builder := fun params =>
  device ← arg validated_mount_device "device" params;
  mountpoint ← arg validated_mount_point "mountpoint" params;
  fstype ← arg validated_fstype "fstype" params;
  options ← optional_validated params "options" validated_mount_options;
  Ok (Mounts.add_mount device mountpoint fstype options).

Definition build_add_swap : Builder := fun params =>
  file ← arg validated_swap_path "file" params;
  size_mb ← require_u32 params "size_mb";
  _ ← check_range 1 MAX_SWAP_SIZE_MB size_mb "size_mb";
  Ok (Mounts.add_swap file size_mb).

Definition build_grant_sudo_access : Builder := fun params =>
  name ← arg validated_sudoers_name "name" params;
  user ← arg validated_username "user" params;
  commands ← arg validated_sudo_commands "commands" params;
  runas ← optional_str params "runas";
  runas ← match keep_nonempty runas with
          | Some u => if (u =? "ALL")%string then Ok (Some "ALL")
                      else Some <$> validated_username u "runas"
          | None => Ok None
          end;
  nopasswd ← optional_bool params "nopasswd";
  let nopasswd := default false nopasswd in
  let shell_equivalent := shell_equivalent_sudo_command commands in
  _ ← reject_if (((commands =? "ALL")%string
                  || match shell_equivalent with Some _ => true | None => false end) && nopasswd)
        "commands";
  Ok (Sudoers.grant_sudo_access name user commands runas nopasswd).

Definition build_set_apt_pin : Builder := fun params =>
  name ← arg validated_apt_pin_name "name" params;
  package ← arg validated_apt_package "package" params;
  pin ← arg validated_apt_pin_expr "pin" params;
  priority ← require_i64 params "priority";
  _ ← reject_if (negb ((-1 <=? priority)%Z && (priority <=? 1000)%Z)) "priority";
  Ok (AptPreferences.set_apt_pin name package pin priority).

Definition build_configure_log_rotation : Builder := fun params =>
  name ← arg validated_sudoers_name "name" params;
  frequency ← require_str params "frequency";
  _ ← reject_if (negb (str_in frequency ["daily"; "weekly"; "monthly"])) "frequency";
  rotate ← require_u32 params "rotate";
  _ ← reject_if (1000 <? rotate)%N "rotate";
  path ← require_str params "path";
  path ← validated_log_rotation path rotate;
  compress ← optional_bool params "compress";
  Ok (Logging.configure_log_rotation name path frequency rotate (default false compress)).

Definition build_configure_remote_syslog : Builder := fun params =>
  host ← arg validated_syslog_host "host" params;
  port ← require_u32 params "port";
  _ ← check_range 1 MAX_PORT port "port";
  protocol ← require_str params "protocol";
  _ ← reject_if (negb (str_in protocol ["tcp"; "udp"])) "protocol";
  Ok (Logging.configure_remote_syslog host port protocol).

Definition build_set_password_aging : Builder := fun params =>
  user ← arg validated_username "user" params;
  flags ← range_flags 0 MAX_PASSWORD_AGE_DAYS params
            [("max_days", "-M"); ("min_days", "-m"); ("warn_days", "-W")];
  _ ← require_some flags "max_days";
  Ok (Pam.set_password_aging user flags).

Fixpoint credit_flags (params : json) (keys : list (string * string))
    : result ExecutorError (list string) :=
  match keys with
  | [] => Ok []
  | (key, flag) :: keys' =>
      o ← optional_i64 params key;
      a ← match o with
          | Some n => _ ← reject_if (negb ((-64 <=? n)%Z && (n <=? 64)%Z)) key; Ok [flag; dec_of_Z n]
          | None => Ok []
          end;
      b ← credit_flags params keys'; Ok (a ++ b)
  end.

Definition build_set_password_policy : Builder := fun params =>
  a ← range_flag 1 MAX_PASSWORD_MINLEN params "minlen" "--minlen";
  b ← credit_flags params [("dcredit", "--dcredit"); ("ucredit", "--ucredit");
                           ("lcredit", "--lcredit"); ("ocredit", "--ocredit")];
  _ ← require_some (a ++ b) "minlen";
  Ok (Pam.set_password_policy (a ++ b)).

Definition build_set_account_lockout : Builder := fun params =>
  a ← range_flag 1 1000 params "deny" "--deny";
  b ← range_flags 0 MAX_LOCKOUT_WINDOW_SECS params
        [("unlock_time", "--unlock-time"); ("fail_interval", "--fail-interval")];
  _ ← require_some (a ++ b) "deny";
  Ok (Pam.set_account_lockout (a ++ b)).

Definition build_configure_wifi : Builder := fun params =>
  ssid ← arg validated_safe_arg "ssid" params;
  password ← optional_validated params "password" validated_safe_arg;
  Ok (Network.configure_wifi ssid password).

Definition build_set_dns_servers : Builder := fun params =>
  interface ← arg validated_safe_arg "interface" params;
  servers ← str_array_or_empty params "servers";
  validated ← collect (fun s => validated_safe_arg s "servers") servers;
  Ok (Network.set_dns_servers interface validated).

Definition build_configure_firewall : Builder := fun params =>
  zone ← arg validated_safe_arg "zone" params;
  service ← arg validated_safe_arg "service" params;
  enabled ← require_bool params "enabled";
  Ok (Network.configure_firewall zone service enabled).

Definition build_create_user : Builder := fun params =>
  username ← user_arg params;
  shell ← opt_arg_validated validated_safe_arg "shell" params;
  home ← opt_arg_validated validated_home_dir "home" params;
  Ok (Users.create_user username shell home).

Definition build_create_group : Builder := fun params =>
  group ← arg validated_group "group" params;
  system ← optional_bool params "system";
  Ok (Users.create_group group (default false system)).

Definition sshd_values (name : string) : option (list string) :=
  if (name =? "PermitRootLogin")%string
  then Some ["yes"; "no"; "prohibit-password"; "forced-commands-only"]
  else if str_in name ["PasswordAuthentication"; "PubkeyAuthentication"; "X11Forwarding";
                         "PermitEmptyPasswords"]
  then Some ["yes"; "no"]
  else None.

Definition build_set_sshd_option : Builder := fun params =>
  name ← require_str params "option";
  value ← require_str params "value";
  allowed_values ← ok_or (InvalidParam "option") (sshd_values name);
  _ ← reject_if (negb (str_in value allowed_values)) "value";
  Ok (Ssh.set_sshd_option name value).

Definition public_key_arg (params : json) : result ExecutorError string :=
  s ← require_str params "public_key"; validated_public_key s.

(** [r.map_err(f)] *)
Definition map_err {E E' A} (f : E -> E') (r : result E A) : result E' A :=
  match r with Ok a => Ok a | Err e => Err (f e) end.

Definition build_snap_install : Builder := fun params =>
  name ← arg validated_safe_arg "name" params;
  channel ← optional_validated params "channel" validated_safe_arg;
  auto_update ← optional_bool params "auto_update";
  map_err (fun '(Snap.InvalidArg param _) => InvalidParam param)
    (Snap.snap_install name channel (default false auto_update)).

Definition build_grub_set_kargs : Builder := fun params =>
  append ← str_array_or_empty params "append";
  delete ← str_array_or_empty params "delete";
  _ ← for_all (fun a => _ ← validated_safe_arg a "append"; validated_safe_kernel_arg a "append") append;
  _ ← for_all (fun d => _ ← validated_safe_arg d "delete"; validated_safe_kernel_arg_removal d "delete")
        delete;
  map_err (fun _ => MissingParam "append or delete") (Grub.grub_set_kargs append delete).

Definition build_ufw_status : Builder := fun params =>
  numbered ← match jget "numbered" params with
             | None => Ok false
             | Some value => ok_or (InvalidParam "numbered") (as_bool value)
             end;
  Ok (Ufw.ufw_status_with_numbered numbered).

Definition build_ufw_delete_rule : Builder := fun params =>
  rule_number ← require_positive_u32 params "rule_number";
  map_err (fun _ => InvalidParam "rule_number") (Ufw.ufw_delete_rule rule_number).

Definition build_resolvectl_set_dns : Builder := fun params =>
  interface ← arg validated_safe_arg "interface" params;
  raw_servers ← str_array_or_empty params "servers";
  _ ← require_some raw_servers "servers";
  parsed ← collect (fun s => ok_or (InvalidIpAddress "servers" s) (ip_from_str s)) raw_servers;
  Ok (Resolvectl.resolvectl_set_dns interface parsed).

Definition fail2ban_error (param : string) (e : Fail2ban.Fail2banError) : ExecutorError :=
  match e with
  | Fail2ban.InvalidIpAddress v => InvalidIpAddress "ip" v
  | Fail2ban.InvalidJail _ => InvalidParam param
  end.

Definition build_fail2ban_status : Builder := fun params =>
  jail ← optional_validated params "jail" validated_safe_arg;
  map_err (fun _ => InvalidParam "jail") (Fail2ban.fail2ban_status jail).

Definition build_fail2ban_ip (make : string -> string -> result Fail2ban.Fail2banError ActionSpec)
    : Builder := fun params =>
  jail ← arg validated_safe_arg "jail" params;
  ip ← require_str params "ip";
  map_err (fail2ban_error "jail") (make jail ip).

Definition build_configure_fail2ban_jail : Builder := fun params =>
  name ← arg validated_sudoers_name "name" params;
  enabled ← optional_bool params "enabled";
  let a := match enabled with
           | Some n => ["--enabled"; if n : bool then "true" else "false"]
           | None => []
           end in
  b ← range_flag 1 100 params "maxretry" "--maxretry";
  c ← range_flags 0 MAX_FAIL2BAN_WINDOW_SECS params
        [("bantime", "--bantime"); ("findtime", "--findtime")];
  let extra := a ++ b ++ c in
  _ ← require_some extra "maxretry";
  map_err (fun _ => InvalidParam "name") (Fail2ban.configure_fail2ban_jail name extra).

Definition build_obtain_certificate : Builder := fun params =>
  domain ← optional_str params "domain";
  listed ← optional_str_array params "domains";
  domains ← match listed with
            | Some arr => collect (fun s => validated_domain s "domains") arr
            | None => match domain with
                      | Some d => d ← validated_domain d "domain"; Ok [d]
                      | None => Ok []
                      end
            end;
  _ ← require_some domains "domains";
  email ← arg validated_email "email" params;
  challenge ← optional_str params "challenge";
  let challenge := default "standalone" challenge in
  _ ← reject_if (negb (str_in challenge ["standalone"; "nginx"; "apache"])) "challenge";
  Ok (Certbot.obtain_certificate domains email challenge).

(** ** The match *)

Definition BUILDERS : list (string * Builder) := [
  (* deployment *)
  ("GetSystemState", build0 Deployment.get_system_state);
  ("CollectDiagnostics", build0 Deployment.collect_diagnostics);
  ("GetDeploymentHistory", build0 Deployment.get_deployment_history);
  ("ListDeployments", build0 Deployment.list_deployments);
  ("UpdateSystem", build0 Deployment.update_system);
  ("CleanupDeployments", build0 Deployment.cleanup_deployments);
  ("RebootSystem", build0 Deployment.reboot_system);
  ("RollbackDeployment", build0 Deployment.rollback_deployment);
  ("GetKernelArguments", build0 Deployment.get_kernel_arguments);
  ("PinDeployment", build_index "index" Deployment.pin_deployment);
  ("UnpinDeployment", build_index "index" Deployment.unpin_deployment);
  ("RebaseSystem", build1 (arg validated_rebase_ref "target_ref") Deployment.rebase_system);
  ("SetKernelArguments", build_set_kernel_arguments);
  (* flatpak *)
  ("ListFlatpakRemotes", build1 user_arg Flatpak.list_flatpak_remotes);
  ("InstallFlatpak", build_install_flatpak);
  ("RemoveFlatpak", build2 user_arg (arg validated_safe_arg "app_id") Flatpak.remove_flatpak);
  ("SearchFlatpakApps", build1 (arg validated_safe_arg "term") Flatpak.search_flatpak_apps);
  ("AddFlatpakRemote", build3 user_arg (arg validated_safe_arg "remote")
                         (arg validated_safe_arg "url") Flatpak.add_flatpak_remote);
  ("RemoveFlatpakRemote", build2 user_arg (arg validated_safe_arg "remote")
                            Flatpak.remove_flatpak_remote);
  ("GetFlatpakAppInfo", build2 user_arg (arg validated_safe_arg "app_id") Flatpak.get_flatpak_app_info);
  ("ListInstalledFlatpaks", build1 user_arg Flatpak.list_installed_flatpaks);
  ("UpdateFlatpak", build_user_opt_app Flatpak.update_flatpak);
  (* containers *)
  ("ListContainers", build1 user_arg Containers.list_containers);
  ("CreateContainer", build3 user_arg (arg validated_safe_arg "name")
                        (arg validated_safe_arg "image") Containers.create_container);
  ("StartContainer", build2 user_arg (arg validated_safe_arg "name") Containers.start_container);
  ("StopContainer", build2 user_arg (arg validated_safe_arg "name") Containers.stop_container);
  ("RemoveContainer", build2 user_arg (arg validated_safe_arg "name") Containers.remove_container);
  ("GetContainerInfo", build2 user_arg (arg validated_safe_arg "name") Containers.get_container_info);
  (* layering *)
  ("GetLayeredPackages", build0 Layering.get_layered_packages);
  ("ResetLayeredPackageOverride", build0 Layering.reset_layered_package_override);
  ("InstallPackages", build_packages Layering.install_packages);
  ("RemovePackages", build_packages Layering.remove_packages);
  ("AddLayeredPackage", build1 (arg validated_install_package "package") Layering.add_layered_package);
  ("RemoveLayeredPackage", build1 (arg validated_install_package "package")
                             Layering.remove_layered_package);
  ("ReplaceLayeredPackage", build2 (arg validated_install_package "old")
                              (arg validated_install_package "new") Layering.replace_layered_package);
  ("RemoveBasePackage", build1 (arg validated_install_package "package") Layering.remove_base_package);
  ("GetPendingUpdates", build0 Layering.get_pending_updates);
  (* package repositories *)
  ("ListPackageRepositories", build0 PackageRepos.list_package_repositories);
  ("AddPackageRepository", build_add_repository);
  ("RemovePackageRepository", build1 validated_repo_id PackageRepos.remove_package_repository);
  ("EnablePackageRepository", build1 validated_repo_id PackageRepos.enable_package_repository);
  ("DisablePackageRepository", build1 validated_repo_id PackageRepos.disable_package_repository);
  (* services *)
  ("ListServices", build0 Services.list_services);
  ("StartService", build1 (arg validated_activatable_unit "unit") Services.start_service);
  ("StopService", build1 (arg validated_stoppable_unit "unit") Services.stop_service);
  ("RestartService", build_restart_service);
  ("SetServiceEnabled", build_set_service_enabled);
  ("MaskService", build1 (arg validated_unit_name "unit") Services.mask_service);
  ("UnmaskService", build1 (arg validated_activatable_unit "unit") Services.unmask_service);
  ("GetServiceLogs", build1 (arg validated_unit_name "unit") Services.get_service_logs);
  ("GetServiceStatus", build1 (arg validated_unit_name "unit") Services.get_service_status);
  ("ReloadService", build1 (arg validated_unit_name "unit") Services.reload_service);
  ("ListTimers", build0 Services.list_timers);
  ("ReloadDaemon", build0 Services.reload_daemon);
  ("CreateScheduledJob", build_create_scheduled_job);
  ("GetServiceResourceLimits", build1 (arg validated_unit_name "unit")
                                 Services.get_service_resource_limits);
  ("SetServiceResourceLimits", build_set_resource_limits);
  (* toolbox *)
  ("ListToolboxes", build1 user_arg Toolbox.list_toolboxes);
  ("CreateToolbox", build_create_toolbox);
  ("RemoveToolbox", build2 user_arg (arg validated_safe_arg "name") Toolbox.remove_toolbox);
  (* identity *)
  ("GetDateTime", build0 Identity.get_datetime);
  ("SetHostname", build1 (arg validated_hostname "hostname") Identity.set_hostname);
  ("SetTimezone", build1 (arg validated_timezone "timezone") Identity.set_timezone);
  ("SetLocale", build1 (arg validated_locale "locale") Identity.set_locale);
  ("SetNtp", build_bool "enabled" Identity.set_ntp);
  (* filesystem, processes, journald *)
  ("GetDiskUsage", build0 Filesystem.disk_usage_spec);
  ("ListProcesses", build0 Processes.list_processes_spec);
  ("SignalProcess", build_signal_process);
  ("GetJournalLog", build_get_journal_log);
  ("VacuumJournal", build_vacuum_journal);
  (* lvm, sysctl, mounts *)
  ("GetLvmReport", build0 Lvm.get_lvm_report);
  ("ExtendLogicalVolume", build3 (arg validated_lvm_name "vg") (arg validated_lvm_name "lv")
                            (arg validated_lvm_size "size") Lvm.extend_logical_volume);
  ("CreateLogicalVolume", build3 (arg validated_lvm_name "vg") (arg validated_lvm_name "name")
                            (arg validated_lvm_size "size") Lvm.create_logical_volume);
  ("CreateLvSnapshot", build_create_lv_snapshot);
  ("GetSysctl", build_opt "key" validated_sysctl_key Sysctl.get_sysctl);
  ("SetSysctl", build2 (arg validated_sysctl_key "key") (arg validated_sysctl_value "value")
                  Sysctl.set_sysctl);
  ("GetMounts", build0 Mounts.get_mounts);
  ("AddMount", build_add_mount);
  ("RemoveMount", build1 (arg validated_mount_point "mountpoint") Mounts.remove_mount);
  ("AddSwap", build_add_swap);
  ("RemoveSwap", build1 (arg validated_swap_path "file") Mounts.remove_swap);
  (* sudoers, apt pins, logs *)
  ("GetSudoGrants", build0 Sudoers.get_sudo_grants);
  ("GrantSudoAccess", build_grant_sudo_access);
  ("RevokeSudoAccess", build1 (arg validated_sudoers_name "name") Sudoers.revoke_sudo_access);
  ("GetAptPins", build_opt "package" validated_apt_package AptPreferences.get_apt_pins);
  ("SetAptPin", build_set_apt_pin);
  ("RemoveAptPin", build1 (arg validated_apt_pin_name "name") AptPreferences.remove_apt_pin);
  ("GetLogrotateStatus", build_opt "config" validated_log_path Logging.get_logrotate_status);
  ("ConfigureLogRotation", build_configure_log_rotation);
  ("RemoveLogRotation", build1 (arg validated_sudoers_name "name") Logging.remove_log_rotation);
  ("ConfigureRemoteSyslog", build_configure_remote_syslog);
  ("RemoveRemoteSyslog", build0 Logging.remove_remote_syslog);
  (* PAM *)
  ("GetPasswordAging", build1 (arg validated_username "user") Pam.get_password_aging);
  ("SetPasswordAging", build_set_password_aging);
  ("SetPasswordPolicy", build_set_password_policy);
  ("SetAccountLockout", build_set_account_lockout);
  (* system info, network *)
  ("GetMemoryInfo", build0 SystemInfo.get_memory_info_spec);
  ("GetHostState", build0 SystemInfo.get_host_state);
  ("GetFirewallState", build0 Network.get_firewall_state);
  ("GetNetworkStatus", build0 Network.get_network_status);
  ("GetListeningPorts", build0 Network.get_listening_ports);
  ("GetNftablesRuleset", build0 Network.get_nftables_ruleset);
  ("GetFirewallBackendState", build0 Network.get_firewall_backend_state);
  ("ConfigureWifi", build_configure_wifi);
  ("SetDnsServers", build_set_dns_servers);
  ("ConfigureFirewall", build_configure_firewall);
  (* users, ssh *)
  ("ListUsers", build0 Users.list_users);
  ("ListGroups", build0 Users.list_groups);
  ("CreateUser", build_create_user);
  ("DeleteUser", build1 user_not_critical_arg Users.delete_user);
  ("AddUserToGroup", build2 user_arg (arg validated_group "group") Users.add_user_to_group);
  ("RemoveUserFromGroup", build2 user_arg (arg validated_group "group") Users.remove_user_from_group);
  ("CreateGroup", build_create_group);
  ("DeleteGroup", build1 (arg validated_group_not_critical "group") Users.delete_group);
  ("LockUserAccount", build1 user_not_critical_arg Users.lock_user_account);
  ("UnlockUserAccount", build1 user_not_critical_arg Users.unlock_user_account);
  ("GetAuthorizedKeys", build1 user_arg Ssh.get_authorized_keys);
  ("AddAuthorizedKey", build2 user_arg public_key_arg Ssh.add_authorized_key);
  ("RemoveAuthorizedKey", build2 user_arg public_key_arg Ssh.remove_authorized_key);
  ("SetSshdOption", build_set_sshd_option);
  (* apt, ppa *)
  ("AptUpdate", build0 Apt.apt_update);
  ("AptUpgrade", build0 Apt.apt_upgrade);
  ("AptInstall", build1 (arg validated_install_package "package") Apt.apt_install);
  ("AptRemove", build1 (arg validated_unmodified_package "package") Apt.apt_remove);
  ("AptPurge", build1 (arg validated_unmodified_package "package") Apt.apt_purge);
  ("AptAutoremove", build0 Apt.apt_autoremove);
  ("AptHold", build1 (arg validated_unmodified_package "package") Apt.apt_hold);
  ("AptUnhold", build1 (arg validated_unmodified_package "package") Apt.apt_unhold);
  ("AptSearch", build1 (arg validated_safe_arg "term") Apt.apt_search);
  ("AptListInstalled", build0 Apt.apt_list_installed);
  ("AptShow", build1 (arg validated_apt_show_package "package") Apt.apt_show);
  ("AptListUpgradable", build0 Apt.apt_list_upgradable);
  ("AptHistoryList", build0 Apt.apt_history_list);
  ("ConfigureUnattendedUpgrades", build_bool "enabled" Apt.configure_unattended_upgrades);
  ("AddPpa", build1 (arg validated_ppa_name "name") Ppa.add_ppa);
  ("RemovePpa", build1 (arg validated_ppa_name "name") Ppa.remove_ppa);
  (* snap *)
  ("SnapInstall", build_snap_install);
  ("SnapRemove", build1 (arg validated_safe_arg "name") Snap.snap_remove);
  ("SnapRefresh", build_opt "name" validated_safe_arg Snap.snap_refresh);
  ("SnapHold", build1 (arg validated_safe_arg "name") Snap.snap_hold);
  ("SnapUnhold", build1 (arg validated_safe_arg "name") Snap.snap_unhold);
  ("SnapList", build0 Snap.snap_list);
  ("SnapInfo", build1 (arg validated_safe_arg "name") Snap.snap_info);
  ("SnapRevert", build1 (arg validated_safe_arg "name") Snap.snap_revert);
  ("SnapClassicInstall", build1 (arg validated_safe_arg "name") Snap.snap_classic_install);
  (* grub, reboot, ufw *)
  ("GrubGetKargs", build0 Grub.grub_get_kargs);
  ("GrubSetKargs", build_grub_set_kargs);
  ("CheckPendingReboot", build0 Reboot.check_pending_reboot);
  ("UfwEnable", build0 Ufw.ufw_enable);
  ("UfwDisable", build0 Ufw.ufw_disable);
  ("UfwAllow", build1 (arg validated_port_or_service "port_or_service") Ufw.ufw_allow);
  ("UfwDeny", build1 (arg validated_port_or_service "port_or_service") Ufw.ufw_deny);
  ("UfwReset", build0 Ufw.ufw_reset);
  ("UfwStatus", build_ufw_status);
  (* distrobox, netplan *)
  ("DistroboxList", build0 Distrobox.distrobox_list);
  ("DistroboxCreate", build2 (arg validated_safe_arg "name") (arg validated_safe_arg "image")
                        Distrobox.distrobox_create);
  ("DistroboxRemove", build1 (arg validated_safe_arg "name") Distrobox.distrobox_remove);
  ("NetplanGetConfig", build0 Netplan.netplan_get_config);
  ("NetplanApply", build0 Netplan.netplan_apply);
  ("NetplanSet", build2 (arg validated_safe_arg "key") (arg validated_safe_arg "value")
                   Netplan.netplan_set);
  ("NetplanGenerate", build0 Netplan.netplan_generate);
  ("UfwDeleteRule", build_ufw_delete_rule);
  ("UfwLimit", build1 (arg validated_port_or_service "target") Ufw.ufw_limit);
  (* Ubuntu Pro, livepatch, multipass, release upgrade *)
  ("ProStatus", build0 UbuntuPro.pro_status);
  ("ProAttach", build1 (arg validated_safe_arg "token") UbuntuPro.pro_attach);
  ("ProDetach", build0 UbuntuPro.pro_detach);
  ("EnableProService", build1 (arg validated_pro_service "service") UbuntuPro.enable_pro_service);
  ("DisableProService", build1 (arg validated_pro_service "service") UbuntuPro.disable_pro_service);
  ("LivepatchStatus", build0 Livepatch.livepatch_status);
  ("MultipassList", build0 Multipass.multipass_list);
  ("UbuntuReleaseUpgrade", build0 ReleaseUpgrade.ubuntu_release_upgrade);
  (* resolvectl, apparmor, cloud-init *)
  ("ResolvectlStatus", build0 Resolvectl.resolvectl_status);
  ("ResolvectlSetDns", build_resolvectl_set_dns);
  ("AppArmorStatus", build0 Apparmor.apparmor_status);
  ("AppArmorEnforce", build1 (arg validated_apparmor_profile "profile_path") Apparmor.apparmor_enforce);
  ("AppArmorComplain", build1 (arg validated_apparmor_profile "profile_path")
                         Apparmor.apparmor_complain);
  ("CloudInitStatus", build0 Cloudinit.cloud_init_status);
  (* flatpak on Ubuntu *)
  ("UbuntuInstallFlatpak", build3 user_arg (arg validated_safe_arg "app_id")
                             (arg validated_safe_arg "remote") Flatpak.ubuntu_install_flatpak);
  ("UbuntuRemoveFlatpak", build2 user_arg (arg validated_safe_arg "app_id")
                            Flatpak.ubuntu_remove_flatpak);
  ("UbuntuUpdateFlatpak", build_user_opt_app Flatpak.ubuntu_update_flatpak);
  ("UbuntuListFlatpaks", build1 user_arg Flatpak.ubuntu_list_flatpaks);
  (* fail2ban, auditd, certbot *)
  ("Fail2banStatus", build_fail2ban_status);
  ("Fail2banBanIp", build_fail2ban_ip Fail2ban.fail2ban_ban_ip);
  ("Fail2banUnbanIp", build_fail2ban_ip Fail2ban.fail2ban_unban_ip);
  ("ConfigureFail2banJail", build_configure_fail2ban_jail);
  ("GetAuditRules", build0 Auditd.get_audit_rules);
  ("AddAuditRule", build3 (arg validated_audit_path "path") (arg validated_audit_perms "perms")
                     (arg validated_sudoers_name "key") Auditd.add_audit_rule);
  ("RemoveAuditRule", build1 (arg validated_sudoers_name "key") Auditd.remove_audit_rule);
  ("GetCertificates", build0 Certbot.get_certificates);
  ("ObtainCertificate", build_obtain_certificate);
  ("RenewCertificates", build0 Certbot.renew_certificates)].

Definition build_action_spec (name : string) (params : json) : result ExecutorError ActionSpec :=
  _ ← validate_action_params name params;
  match assoc name BUILDERS with
  | Some build => build params
  | None => Err (UnknownAction name)
  end.

(** ** What every built action is *)

Ltac head_of t := lazymatch t with ?f _ => head_of f | _ => t end.

(** [unbuild H]: the parts of an arm that ended in [Ok], the readers kept whole,
    and the specification it made. *)
Ltac unbuild H :=
  cbv zeta in H;
  lazymatch type of H with
  | mbind _ _ = Ok _ =>
      let x := fresh "x" in let Hx := fresh "Hx" in
      apply bind_Ok in H as (x & Hx & H); unbuild H
  | map_err _ ?r = Ok _ =>
      let E := fresh "E" in destruct r eqn:E; [|discriminate H]; cbn [map_err] in H;
      let h := head_of r in try unfold h in E; unbuild E; unbuild H
  | (if ?b then _ else _) = Ok _ => let E := fresh "E" in destruct b eqn:E; unbuild H
  | match ?o with _ => _ end = Ok _ => let E := fresh "E" in destruct o eqn:E; unbuild H
  | Ok _ = Ok _ => injection H as H; try subst
  | Err _ = Ok _ => discriminate H
  | _ => idtac
  end.

Ltac unbuild_arm H :=
  lazymatch type of H with ?t = Ok _ => let h := head_of t in unfold h in H; unbuild H end.

(** A statement about every arm is a statement about every built action. *)
Lemma all_builders (P : string -> ActionSpec -> Prop) :
  Forall (fun nb => forall params spec, snd nb params = Ok spec -> P (fst nb) spec) BUILDERS ->
  forall name params spec, build_action_spec name params = Ok spec -> P name spec.
Proof.
  intros Hall name params spec H. unfold build_action_spec in H.
  apply bind_Ok in H as (u & _ & H). revert Hall H. generalize BUILDERS as l.
  induction l as [|[n b] l IH]; cbn [assoc]; [done|]. intros Hall H. inversion Hall; subst.
  destruct (String.eqb_spec name n) as [->|Hne]; [by eapply H2|by apply IH].
Qed.

(** [each_arm tac]: [tac H] for the equation [H] of every arm; [each_builder
    tac]: the arm taken apart first. *)
Ltac each_arm tac :=
  apply all_builders; unfold BUILDERS;
  repeat (apply Forall_cons; split;
    [let params := fresh "params" in let spec := fresh "spec" in let H := fresh "H" in
     intros params spec H; cbn [fst snd] in H |- *; tac H|]);
  try apply Forall_nil_2.
Ltac each_builder tac := each_arm ltac:(fun H => unbuild_arm H; tac).

Lemma built_meta name params spec :
  build_action_spec name params = Ok spec ->
  action_name spec = name /\ SPEC_META !! name = Some (meta_of spec).
Proof.
  revert name params spec.
  each_builder ltac:(
    try match goal with |- context [Snap.snap_refresh ?x] => destruct x end;
    (split; [reflexivity|vm_compute; reflexivity])).
Qed.

(** *** The boot line *)

(** The arguments after [kargs]: [append] or [delete] and a token each. *)
Fixpoint kargs_edits (args : list string) : option (list string * list string) :=
  match args with
  | [] => Some ([], [])
  | op :: token :: args' =>
      '(added, removed) ← kargs_edits args';
      if (op =? "append")%string then Some (token :: added, removed)
      else if (op =? "delete")%string then Some (added, token :: removed) else None
  | _ => None
  end.

(** The tokens a command adds to the boot line and takes off it, as the two
    helpers read their arguments. *)
Definition boot_line_edits (m : ActionMechanism) : option (list string * list string) :=
  match m with
  | Command _ (helper :: args) =>
      if (helper =? Grub.GRUB_KARGS_HELPER)%string then
        match args with
        | [append; added; delete; removed] =>
            if (append =? "--append")%string && (delete =? "--delete")%string
            then Some (nonempty_parts "," added, nonempty_parts "," removed) else None
        | _ => None
        end
      else if (helper =? ACTION_STEPS)%string then
        match args with
        | tool :: kargs :: edits => if (kargs =? "kargs")%string then kargs_edits edits else None
        | _ => None
        end
      else None
  | _ => None
  end.

Lemma kargs_edits_spec add remove :
  kargs_edits (flat_map (fun a => ["append"; a]) add ++ flat_map (fun a => ["delete"; a]) remove)
  = Some (add, remove).
Proof.
  induction add as [|a add IH]; cbn [flat_map app kargs_edits]; [|by rewrite IH].
  induction remove as [|r remove IH]; cbn [flat_map app kargs_edits]; [done|by rewrite IH].
Qed.

Lemma safe_arg_word s param t :
  validated_safe_arg s param = Ok t -> t = s /\ str_has "," s = false /\ is_empty s = false.
Proof.
  intros H. unfold validated_safe_arg in H. accepted H. split_and!; [done| |done].
  match goal with Ha : str_all _ _ = true |- _ => revert Ha; clear end.
  unfold str_has. induction s as [|c s IH]; [done|]. cbn [str_all str_exists]. intros Ha. bools.
  destruct (Ascii.eqb_spec "," c) as [<-|_]; [done|]. by apply IH.
Qed.

(** The screens of the two arms, element by element. *)
Lemma grub_words {B} (f : string -> result ExecutorError B) param l u :
  for_all (fun a => _ ← validated_safe_arg a param; f a) l = Ok u ->
  Forall (fun a => str_has "," a = false /\ is_empty a = false) l /\ exists v, for_all f l = Ok v.
Proof.
  intros H. apply for_all_Ok in H. split.
  - eapply Forall_impl; [exact H|]. cbn. intros a [v Ha]%is_ok_spec.
    apply bind_Ok in Ha as (t & Ha & _). by apply safe_arg_word in Ha as (_ & ? & ?).
  - exists tt. apply for_all_Ok. eapply Forall_impl; [exact H|]. cbn. intros a [v Ha]%is_ok_spec.
    apply bind_Ok in Ha as (t & _ & Ha). apply is_ok_spec. by exists v.
Qed.

Lemma additions_are_safe param l u :
  for_all (fun a => validated_safe_kernel_arg a param) l = Ok u -> Forall safe_addition l.
Proof.
  intros H. apply for_all_Ok in H. eapply Forall_impl; [exact H|]. cbn.
  intros a [v Ha]%is_ok_spec. by eapply addition_is_safe.
Qed.
Lemma removals_are_safe param l u :
  for_all (fun a => validated_safe_kernel_arg_removal a param) l = Ok u -> Forall safe_removal l.
Proof.
  intros H. apply for_all_Ok in H. eapply Forall_impl; [exact H|]. cbn.
  intros a [v Ha]%is_ok_spec. by eapply removal_is_safe.
Qed.

(** The boot line is guarded. Whatever a request asks SetKernelArguments or
    GrubSetKargs to do, the tokens the built command adds, as its helper reads
    them back from the arguments, are each one boot-line word that is on the
    allowlist and no known downgrade, and on a hardening key carries a hardening
    value; the tokens it removes are downgrades or harden nothing. No value can
    smuggle a second token into the comma-separated lists of the GRUB helper. *)
Theorem kernel_arguments_guarded name params spec :
  name ∈ ["SetKernelArguments"; "GrubSetKargs"] -> build_action_spec name params = Ok spec ->
  exists added removed, boot_line_edits (mechanism spec) = Some (added, removed)
    /\ Forall safe_addition added /\ Forall safe_removal removed.
Proof.
  intros Hname H. unfold build_action_spec in H. apply bind_Ok in H as (u & _ & H).
  rewrite !elem_of_cons in Hname. destruct Hname as [->|[->|[]%elem_of_nil]]; cbn -[build_grub_set_kargs] in H.
  - unbuild_arm H. exists x, x0. split_and!; [|by eapply additions_are_safe|by eapply removals_are_safe].
    change (kargs_edits (flat_map (fun a => ["append"; a]) x ++ flat_map (fun a => ["delete"; a]) x0)
            = Some (x, x0)). apply kargs_edits_spec.
  - unfold build_grub_set_kargs in H.
    apply bind_Ok in H as (append & _ & H). apply bind_Ok in H as (delete & _ & H).
    apply bind_Ok in H as (? & Ha & H). apply bind_Ok in H as (? & Hd & H).
    apply grub_words in Ha as (Ha & ? & Hsa). apply grub_words in Hd as (Hd & ? & Hsd).
    exists append, delete. split_and!; [|by eapply additions_are_safe|by eapply removals_are_safe].
    assert (Hspec : mechanism spec = Command "sudo" [Grub.GRUB_KARGS_HELPER; "--append"; join "," append;
                                                      "--delete"; join "," delete]).
    { revert H. clear. destruct append, delete; naive_solver. }
    rewrite Hspec. cbn -[nonempty_parts join]. by rewrite !nonempty_parts_join.
Qed.

Lemma kernel_arguments_guarded_witness :
  let request l := JObj [("add", JArr (map JStr l))] in
  build_action_spec "SetKernelArguments" (request ["console=tty0"; "lockdown=none"])
    = Err (InvalidParam "add")
  /\ build_action_spec "SetKernelArguments" (request ["console=ttyS0,115200"; "lockdown=integrity"])
     = Ok (Deployment.set_kernel_arguments ["console=ttyS0,115200"; "lockdown=integrity"] [])
  /\ exists added removed,
       boot_line_edits (mechanism (Deployment.set_kernel_arguments
                                     ["console=ttyS0,115200"; "lockdown=integrity"] []))
       = Some (added, removed) /\ Forall safe_addition added /\ Forall safe_removal removed.
Proof.
  split; [|split]; [vm_compute; reflexivity..|].
  apply (kernel_arguments_guarded "SetKernelArguments"
           (JObj [("add", JArr (map JStr ["console=ttyS0,115200"; "lockdown=integrity"]))])).
  - left.
  - vm_compute. reflexivity.
Defined.

(** *** Passwordless grants *)

Lemma sudo_commands_ok s p t :
  validated_sudo_commands s p = Ok t ->
  t = s /\ (s = "ALL" \/ nonempty_parts "," s <> []
                         /\ Forall (fun c => sudo_command_ok c = true) (nonempty_parts "," s)).
Proof.
  intros H. unfold validated_sudo_commands in H.
  destruct (String.eqb_spec s "ALL") as [->|Hall]; [injection H as <-; auto|].
  accepted H. split; [done|right].
  match goal with Hc : forallb _ _ = true |- _ => rewrite forallb_forall in Hc; rename Hc into Hall' end.
  split; [intros E; by rewrite E in *|].
  apply Forall_forall. intros c Hc. apply Hall'. by apply list_elem_of_In.
Qed.

(** A passwordless grant is scoped. The sudo grant built from a request names
    either every command or a list of absolute paths without parent components
    and wildcards; when it asks for no password it is never every command, and no
    command of it is named like a shell, an interpreter or another program of the
    list that runs arbitrary commands, versioned names included. *)
Theorem passwordless_grants_are_scoped params spec :
  build_action_spec "GrantSudoAccess" params = Ok spec ->
  exists name user commands runas nopasswd,
    spec = Sudoers.grant_sudo_access name user commands runas nopasswd
    /\ (commands = "ALL" \/ nonempty_parts "," commands <> []
          /\ Forall (fun c => sudo_command_ok c = true) (nonempty_parts "," commands))
    /\ (nopasswd = true -> commands <> "ALL"
          /\ Forall (fun c => is_shell_equivalent c = false) (nonempty_parts "," commands)).
Proof.
  intros H. unfold build_action_spec in H. apply bind_Ok in H as (u & _ & H).
  cbn -[build_grant_sudo_access] in H. unfold build_grant_sudo_access in H. unbuild H.
  exists x, x0, x1, x3, (default false x4). split; [done|].
  unfold arg in Hx1. apply bind_Ok in Hx1 as (s & _ & Hs). apply sudo_commands_ok in Hs as [-> Hs].
  split; [done|]. intros Hno. apply reject_if_Ok in Hx5. rewrite Hno, andb_true_r in Hx5.
  apply orb_false_iff in Hx5 as [Hall Heq]. apply String.eqb_neq in Hall. split; [done|].
  unfold shell_equivalent_sudo_command in Heq. apply String.eqb_neq in Hall as Hall'. rewrite Hall' in Heq.
  destruct (List.find _ _) eqn:E; [done|]. apply Forall_forall. intros c Hc.
  apply list_elem_of_In in Hc. by apply (find_none _ _ E).
Qed.

Definition grant_request (commands : string) : json :=
  JObj [("name", JStr "backup"); ("user", JStr "alice"); ("commands", JStr commands);
        ("nopasswd", JBool true)].

Lemma passwordless_grants_are_scoped_witness :
  build_action_spec "GrantSudoAccess" (grant_request "/usr/bin/restic,/usr/bin/python3.12")
    = Err (InvalidParam "commands")
  /\ exists name user commands runas nopasswd,
       Sudoers.grant_sudo_access "backup" "alice" "/usr/bin/restic" None true
       = Sudoers.grant_sudo_access name user commands runas nopasswd
    /\ (commands = "ALL" \/ nonempty_parts "," commands <> []
          /\ Forall (fun c => sudo_command_ok c = true) (nonempty_parts "," commands))
    /\ (nopasswd = true -> commands <> "ALL"
          /\ Forall (fun c => is_shell_equivalent c = false) (nonempty_parts "," commands)).
Proof.
  split; [vm_compute; reflexivity|].
  apply (passwordless_grants_are_scoped (grant_request "/usr/bin/restic")). vm_compute. reflexivity.
Defined.

(** The limit of that screen: it looks at the last component of each path, and a
    path that ends in a slash has an empty one. A sudoers entry that ends in a
    slash names every command of the directory, so this grant without a password
    covers the shells the screen refuses by name. *)
Lemma directory_grant_passes_the_screen :
  build_action_spec "GrantSudoAccess" (grant_request "/usr/bin/bash") = Err (InvalidParam "commands")
  /\ build_action_spec "GrantSudoAccess" (grant_request "/usr/bin/")
     = Ok (Sudoers.grant_sudo_access "backup" "alice" "/usr/bin/" None true).
Proof. split; vm_compute; reflexivity. Qed.

(** *** The resource of the package actions *)

(** Which package system each action changes: a specification. *)
Definition PACKAGE_LOCKS : list (ExclusiveResource * list string) := [
  (RpmOstree, ["UpdateSystem"; "RebaseSystem"; "CleanupDeployments"; "RollbackDeployment";
               "PinDeployment"; "UnpinDeployment"; "SetKernelArguments"; "InstallPackages";
               "RemovePackages"; "AddLayeredPackage"; "RemoveLayeredPackage";
               "ReplaceLayeredPackage"; "ResetLayeredPackageOverride"; "RemoveBasePackage"]);
  (Dpkg, ["AptUpdate"; "AptUpgrade"; "AptInstall"; "AptRemove"; "AptPurge"; "AptAutoremove"; "AptHold";
          "AptUnhold"; "SetAptPin"; "RemoveAptPin"; "AddPpa"; "RemovePpa"; "UbuntuReleaseUpgrade"]);
  (Snap, ["SnapInstall"; "SnapRemove"; "SnapRefresh"; "SnapHold"; "SnapUnhold"; "SnapRevert";
          "SnapClassicInstall"]);
  (Flatpak, ["InstallFlatpak"; "RemoveFlatpak"; "UpdateFlatpak"; "AddFlatpakRemote";
             "RemoveFlatpakRemote"; "UbuntuInstallFlatpak"; "UbuntuRemoveFlatpak";
             "UbuntuUpdateFlatpak"])].

Definition package_lock (name : string) : option ExclusiveResource :=
  find_map (fun '(r, names) => if str_in name names then Some r else None) PACKAGE_LOCKS.

Definition takes_package_lock (name : string) (spec : ActionSpec) : Prop :=
  forall r, package_lock name = Some r -> exclusive_resource spec = Some r.

(** The first words of a command decide its resource when one of them does. *)
Lemma resource_of_prefix n spec program args r :
  mechanism spec = Command program args ->
  find_map (fun word => resource_of_tool (basename word)) (flat_map shell_words (take n (program :: args)))
    = Some r ->
  exclusive_resource spec = Some r.
Proof.
  intros Hm H. unfold exclusive_resource. rewrite Hm, <-(take_drop n (program :: args)), flat_map_app.
  revert H. generalize (flat_map shell_words (take n (program :: args))) as l.
  induction l as [|w l IH]; cbn; [done|]. destruct (resource_of_tool _); [done|apply IH].
Qed.

(** Package actions are serialised whatever their parameters: an action that
    changes a package system always takes the slot of that system, for every
    accepted request. No parameter value can move it to another slot or to none. *)
Theorem package_actions_take_their_lock name params spec r :
  build_action_spec name params = Ok spec -> package_lock name = Some r ->
  exclusive_resource spec = Some r.
Proof.
  intros H. revert r. change (takes_package_lock name spec). revert name params spec H. each_builder ltac:(
    intros r Hr; vm_compute in Hr; first [discriminate Hr |
      injection Hr as <-;
      repeat match goal with
        | |- context [Snap.snap_refresh ?x] => is_var x; destruct x
        | |- context [Flatpak.update_flatpak _ ?x] => is_var x; destruct x
        | |- context [Flatpak.ubuntu_update_flatpak _ ?x] => is_var x; destruct x end;
      first [ eapply (resource_of_prefix 2); [reflexivity|vm_compute; reflexivity]
            | eapply (resource_of_prefix 3); [reflexivity|vm_compute; reflexivity] ]]).
Qed.

Lemma package_actions_take_their_lock_witness :
  exclusive_resource (Snap.snap_remove "apt") = Some Snap.
Proof.
  apply (package_actions_take_their_lock "SnapRemove" (JObj [("name", JStr "apt")]));
    vm_compute; reflexivity.
Defined.

(** The unattended-upgrades helper runs apt-get, and its action names no
    resource: it is not serialised with the other package actions. *)
Lemma unattended_upgrades_unserialised params spec :
  build_action_spec "ConfigureUnattendedUpgrades" params = Ok spec -> exclusive_resource spec = None.
Proof.
  intros H. unfold build_action_spec in H. apply bind_Ok in H as (u & _ & H). cbn in H. unbuild_arm H.
  destruct x; vm_compute; reflexivity.
Qed.
