(* ===== verification/Argv.v ===== *)
(** * Argument vectors

    What the commands of the catalogue look like to the programs they run: which
    options each action may pass, and that no parameter of a request chooses the
    program or, but for the values of six flags, is an argument that starts with a
    dash. [OPTIONS] is a specification: the options each constructor of
    actions/*.rs writes out, and which of them take the next argument as their
    value. *)

From Stdlib Require Import Ascii String NArith ZArith Lia.
From stdpp Require Import base list strings gmap.
From S2P Require Import Prelude Json Types Actions Ip Catalogue Validate Params Builder.

Record Options : Type := mkOptions {
  flags : list string;      (* exactly these *)
  valued : list string;     (* these, and the next argument is their value *)
  attached : list string }. (* these with a value attached *)

Definition OPTIONS : list (string * Options) := [
  ("GetSystemState", mkOptions ["--json"] [] []);
  ("CollectDiagnostics", mkOptions ["-b"; "-n"; "--no-pager"] [] []);
  ("GetDeploymentHistory", mkOptions ["--json"] [] []);
  ("ListDeployments", mkOptions ["--json"] [] []);
  ("UnpinDeployment", mkOptions ["--unpin"] [] []);
  ("CleanupDeployments", mkOptions ["--rollback"; "--pending"] [] []);
  ("GetLayeredPackages", mkOptions ["--json"] [] []);
  ("GetPendingUpdates", mkOptions ["--check"] [] []);
  ("ResetLayeredPackageOverride", mkOptions ["--all"] [] []);
  ("GetDiskUsage", mkOptions ["-h"; "--output=source,fstype,size,used,avail,pcent,target";
     "--exclude-type=composefs"; "--exclude-type=tmpfs"; "--exclude-type=devtmpfs";
     "--exclude-type=efivarfs"] [] []);
  ("InstallFlatpak", mkOptions ["--user"; "-y"] [] []);
  ("RemoveFlatpak", mkOptions ["--user"; "-y"] [] []);
  ("ListFlatpakRemotes", mkOptions ["--user"; "--columns=name,url"] [] []);
  ("AddFlatpakRemote", mkOptions ["--user"; "--if-not-exists"] [] []);
  ("RemoveFlatpakRemote", mkOptions ["--user"] [] []);
  ("ListInstalledFlatpaks", mkOptions ["--user"; "--app";
     "--columns=application,name,version,origin"] [] []);
  ("UpdateFlatpak", mkOptions ["--user"; "-y"] [] []);
  ("GetFlatpakAppInfo", mkOptions ["--user"] [] []);
  ("UbuntuInstallFlatpak", mkOptions ["--user"; "-y"] [] []);
  ("UbuntuRemoveFlatpak", mkOptions ["--user"; "-y"] [] []);
  ("UbuntuUpdateFlatpak", mkOptions ["--user"; "-y"] [] []);
  ("UbuntuListFlatpaks", mkOptions ["--user"; "--app";
     "--columns=application,name,version,origin"] [] []);
  ("CreateToolbox", mkOptions ["--container"; "--release"; "--image"] [] []);
  ("GetServiceResourceLimits", mkOptions
     ["--property=MemoryMax,MemoryHigh,CPUQuotaPerSecUSec,TasksMax"] [] []);
  ("CreateScheduledJob", mkOptions ["--name"] ["--command"; "--schedule"] []);
  ("ListServices", mkOptions ["--type=service"; "--all"; "--no-legend"; "--no-pager"] [] []);
  ("GetServiceStatus", mkOptions ["--no-pager"] [] []);
  ("ListTimers", mkOptions ["--all"; "--no-legend"; "--no-pager"] [] []);
  ("GetServiceLogs", mkOptions ["-u"; "-n"; "--no-pager"] [] []);
  ("ListProcesses", mkOptions ["--sort=-%mem"] [] []);
  ("GetJournalLog", mkOptions ["--output=json"; "--no-pager"; "--boot"; "--dmesg"] []
     ["--lines="; "--unit="; "--priority="; "--since="; "--until="; "--grep="]);
  ("VacuumJournal", mkOptions [] [] ["--vacuum-size="; "--vacuum-time="]);
  ("GetLvmReport", mkOptions ["--reportformat"; "--units"; "-o"] [] []);
  ("GetSysctl", mkOptions ["--"; "-a"] [] []);
  ("SetSysctl", mkOptions ["--key"] ["--value"] []);
  ("GetMounts", mkOptions ["--json"] [] []);
  ("AddMount", mkOptions ["--op"; "--device"; "--mountpoint"; "--fstype"] ["--options"] []);
  ("RemoveMount", mkOptions ["--op"; "--mountpoint"] [] []);
  ("AddSwap", mkOptions ["--op"; "--file"; "--size-mb"] [] []);
  ("RemoveSwap", mkOptions ["--op"; "--file"] [] []);
  ("GetLogrotateStatus", mkOptions ["-d"] [] []);
  ("ConfigureLogRotation", mkOptions ["--op"; "--name"; "--path"; "--frequency"; "--rotate";
     "--compress"] [] []);
  ("RemoveLogRotation", mkOptions ["--op"; "--name"] [] []);
  ("ConfigureRemoteSyslog", mkOptions ["--op"; "--host"; "--port"; "--protocol"] [] []);
  ("RemoveRemoteSyslog", mkOptions ["--op"] [] []);
  ("GetPasswordAging", mkOptions ["-l"] [] []);
  ("SetPasswordAging", mkOptions ["-M"; "-m"; "-W"] [] []);
  ("SetPasswordPolicy", mkOptions ["--op"; "--minlen"] ["--dcredit"; "--ucredit"; "--lcredit";
     "--ocredit"] []);
  ("SetAccountLockout", mkOptions ["--op"; "--deny"; "--unlock-time"; "--fail-interval"] [] []);
  ("GetAuditRules", mkOptions ["-l"] [] []);
  ("AddAuditRule", mkOptions ["--op"; "--path"; "--perms"; "--key"] [] []);
  ("RemoveAuditRule", mkOptions ["--op"; "--key"] [] []);
  ("ObtainCertificate", mkOptions ["--non-interactive"; "--agree-tos"; "-d"; "--standalone";
     "--nginx"; "--apache"] ["-m"] []);
  ("GetSudoGrants", mkOptions ["--op"] [] []);
  ("GrantSudoAccess", mkOptions ["--op"; "--name"; "--user"; "--commands"; "--runas";
     "--nopasswd"] [] []);
  ("RevokeSudoAccess", mkOptions ["--op"; "--name"] [] []);
  ("GetFirewallState", mkOptions ["--list-all"] [] []);
  ("GetNetworkStatus", mkOptions ["-brief"] [] []);
  ("GetListeningPorts", mkOptions ["-tulpnH"] [] []);
  ("CreateUser", mkOptions ["--home-dir"; "--shell"] [] []);
  ("CreateGroup", mkOptions ["--system"] [] []);
  ("SetSshdOption", mkOptions ["--option"; "--value"] [] []);
  ("GetMemoryInfo", mkOptions ["-h"] [] []);
  ("ListContainers", mkOptions ["--all"; "--format"] [] []);
  ("CreateContainer", mkOptions ["--name"] [] []);
  ("CheckPendingReboot", mkOptions ["-c"] [] []);
  ("AppArmorEnforce", mkOptions ["--"] [] []);
  ("AppArmorComplain", mkOptions ["--"] [] []);
  ("CloudInitStatus", mkOptions ["--long"] [] []);
  ("Fail2banBanIp", mkOptions ["--op"; "--jail"; "--ip"] [] []);
  ("Fail2banUnbanIp", mkOptions ["--op"; "--jail"; "--ip"] [] []);
  ("ConfigureFail2banJail", mkOptions ["--name"; "--enabled"; "--maxretry"; "--bantime";
     "--findtime"] [] []);
  ("ConfigureUnattendedUpgrades", mkOptions ["--enable"; "--disable"] [] []);
  ("AptListInstalled", mkOptions ["-l"] [] []);
  ("AptListUpgradable", mkOptions ["-c"] [] []);
  ("AptHistoryList", mkOptions ["-c"] [] []);
  ("SetAptPin", mkOptions ["--op"; "--name"; "--package"] ["--pin"; "--priority"] []);
  ("RemoveAptPin", mkOptions ["--op"; "--name"] [] []);
  ("AddPpa", mkOptions ["-y"; "--ppa"] [] []);
  ("RemovePpa", mkOptions ["-y"; "--remove"; "--ppa"] [] []);
  ("SnapInstall", mkOptions [] [] ["--channel="]);
  ("SnapHold", mkOptions ["--hold"] [] []);
  ("SnapUnhold", mkOptions ["--unhold"] [] []);
  ("SnapClassicInstall", mkOptions ["--classic"] [] []);
  ("UfwEnable", mkOptions ["--force"] [] []);
  ("UfwReset", mkOptions ["--force"] [] []);
  ("UfwDeleteRule", mkOptions ["--force"] [] []);
  ("NetplanGetConfig", mkOptions ["-maxdepth"; "-name"; "-print"; "-exec"] [] []);
  ("DistroboxCreate", mkOptions ["--yes"; "--name"; "--image"] [] []);
  ("DistroboxRemove", mkOptions ["--force"] [] []);
  ("GrubGetKargs", mkOptions ["-E"] [] []);
  ("GrubSetKargs", mkOptions ["--append"; "--delete"] [] []);
  ("UbuntuReleaseUpgrade", mkOptions ["-f"] [] []);
  ("ProStatus", mkOptions ["--all"] [] []);
  ("ProDetach", mkOptions ["--assume-yes"] [] []);
  ("EnableProService", mkOptions ["--assume-yes"] [] []);
  ("DisableProService", mkOptions ["--assume-yes"] [] []);
  ("LivepatchStatus", mkOptions ["--verbose"] [] [])].

Definition options_of (name : string) : Options :=
  default (mkOptions [] [] []) (assoc name OPTIONS).

(** The flags whose next argument may be any text the validator of the parameter lets
    through, a dash in front included. *)
Definition EXPOSED : list string := ["--command"; "--schedule"; "--value"; "--options"; "--pin"; "-m"].

Definition is_integer (v : string) : Prop := exists z, v = dec_of_Z z.

(** An argument vector whose only options are those of [o]: every other argument
    does not start with a dash, but for a number, or the value of an exposed flag. *)
Inductive argv_safe (o : Options) : list string -> Prop :=
| argv_nil : argv_safe o []
| argv_operand a args : no_dash a -> argv_safe o args -> argv_safe o (a :: args)
| argv_flag f args : str_in f (flags o) = true -> argv_safe o args -> argv_safe o (f :: args)
| argv_valued f v args :
    str_in f (valued o) = true -> is_integer v \/ str_in f EXPOSED = true ->
    argv_safe o args -> argv_safe o (f :: v :: args)
| argv_attached p v args :
    str_in p (attached o) = true -> argv_safe o args -> argv_safe o ((p ++ v)%string :: args).

(** The programs the daemon starts. *)
Definition PROGRAMS : list string :=
  ["sudo"; "rpm-ostree"; "journalctl"; "df"; "flatpak"; "systemctl"; "ps"; "lvs"; "sysctl";
   "findmnt"; "logrotate"; "chage"; "auditctl"; "certbot"; "/usr/lib/sysknife/sudoers-edit";
   "firewall-cmd"; "ip"; "/usr/lib/sysknife/firewall-state"; "ss"; "resolvectl"; "timedatectl";
   "getent"; "cat"; "free"; "hostnamectl"; "bash"; "cloud-init"; "apt-cache"; "dpkg"; "snap";
   "find"; "distrobox"; "grep"; "pro"; "multipass"].

(** What sudo runs. *)
Definition PRIVILEGED : list string :=
  ["/usr/lib/sysknife/action-steps"; "rpm-ostree"; "ostree"; "systemctl"; "nft"; "resolvectl";
   "hostnamectl"; "timedatectl"; "localectl"; "aa-status"; "aa-enforce"; "aa-complain";
   "fail2ban-client"; "/usr/lib/sysknife/fail2ban-ban"; "/usr/lib/sysknife/fail2ban-jail-edit";
   "/usr/lib/sysknife/scheduled-job-edit"; "/usr/lib/sysknife/sysctl-edit";
   "/usr/lib/sysknife/mount-edit"; "/usr/lib/sysknife/log-edit"; "/usr/lib/sysknife/pam-edit";
   "/usr/lib/sysknife/audit-edit"; "certbot"; "/usr/lib/sysknife/sudoers-edit"; "nmcli";
   "/usr/lib/sysknife/sshd-option-edit"; "/usr/lib/sysknife/apt-pin-edit";
   "/usr/lib/sysknife/unattended-upgrades-edit"; "add-apt-repository"; "snap"; "ufw"; "netplan";
   "/usr/lib/sysknife/grub-kargs-edit"; "do-release-upgrade"; "pro"; "canonical-livepatch"].

(** The fixed scripts given to a shell. *)
Definition SCRIPTS : list string :=
  ["if test -f /var/run/reboot-required; then cat /var/run/reboot-required; cat "
   ++ "/var/run/reboot-required.pkgs 2>/dev/null; true; else echo 'No reboot required.'; fi";
   "apt list --upgradable 2>/dev/null";
   "grep -A 4 '^Start-Date' /var/log/apt/history.log | tail -n 80"]%string.

Definition command_safe (name : string) (m : ActionMechanism) : Prop :=
  match m with
  | Command program args =>
      str_in program PROGRAMS = true
      /\ argv_safe (options_of name) args
      /\ (program = "sudo" -> exists tool rest, args = tool :: rest /\ str_in tool PRIVILEGED = true)
      /\ (program = "bash" -> exists script, args = ["-c"; script] /\ str_in script SCRIPTS = true)
  | FileScan path | FileDelete path => starts_with "/etc/yum.repos.d" path = true
  | FileWrite path content => starts_with "/etc/yum.repos.d/" path = true
  | FilePatch path search replace => starts_with "/etc/yum.repos.d/" path = true
  end.

(** ** Building safe vectors *)

Lemma argv_app o l m : argv_safe o l -> argv_safe o m -> argv_safe o (l ++ m).
Proof. induction 1; cbn; [done|..]; intros Hm; by constructor; auto. Qed.

Lemma argv_operands o l : Forall no_dash l -> argv_safe o l.
Proof. induction 1; by constructor. Qed.

Lemma argv_option_list o (a : option string) :
  (forall s, a = Some s -> no_dash s) -> argv_safe o (option_list a).
Proof. destruct a; cbn; intros H; repeat constructor. by apply H. Qed.

Lemma argv_opt_arg o f (a : option string) :
  str_in f (flags o) = true -> (forall s, a = Some s -> no_dash s) -> argv_safe o (opt_arg f a).
Proof.
  destruct a; cbn; intros Hf H; [|constructor]. apply argv_flag; [done|].
  apply argv_operand; [by apply H|constructor].
Qed.

Lemma argv_flag_if o b f : str_in f (flags o) = true -> argv_safe o (flag_if b f).
Proof. destruct b; cbn; [|constructor]. intros Hf. apply argv_flag; [done|constructor]. Qed.

Lemma no_dash_app_char k c t : no_dash k -> c <> "-"%char -> no_dash (k ++ String c t).
Proof.
  intros Hk Hc. apply not_true_is_false. intros Hd. apply prefix_spec in Hd as [u Hu].
  destruct k as [|d k]; cbn in Hu; injection Hu as E _; [done|]. subst.
  unfold no_dash in Hk. change (starts_with "-" (String "-" k)) with (String.prefix "" k) in Hk.
  by destruct k.
Qed.

Lemma no_dash_dec n : no_dash (dec_of_N n).
Proof. eapply charset_no_dash; [apply dec_of_N_digits|done]. Qed.

Lemma no_dash_join c l : c <> "-"%char -> Forall no_dash l -> no_dash (join (String c "") l).
Proof.
  intros Hc. destruct 1 as [|s l Hs Hl]; [done|]. destruct l as [|s' l]; [done|].
  change (join _ (s :: s' :: l)) with (s ++ String c (join (String c "") (s' :: l)))%string.
  by apply no_dash_app_char.
Qed.

Lemma no_dash_ip s a : ip_from_str s = Some a -> no_dash s.
Proof.
  intros H. apply not_true_is_false. intros Hd. apply prefix_spec in Hd as [u ->].
  vm_compute in H. discriminate.
Qed.

Lemma no_dash_user params u : user_arg params = Ok u -> no_dash u.
Proof. intros H. unfold user_arg in H. apply bind_Ok in H as (s & _ & H). by eapply no_dash_username. Qed.
Lemma no_dash_user_not_critical params u : user_not_critical_arg params = Ok u -> no_dash u.
Proof.
  intros H. unfold user_not_critical_arg in H. apply bind_Ok in H as (s & _ & H).
  by eapply no_dash_username_not_critical.
Qed.
Lemma no_dash_arg validator key params s :
  NoDash validator -> arg validator key params = Ok s -> no_dash s.
Proof. intros HV H. unfold arg in H. apply bind_Ok in H as (x & _ & H). by eapply HV. Qed.
Lemma no_dash_opt_arg validator key params s :
  NoDash validator -> opt_arg_validated validator key params = Ok (Some s) -> no_dash s.
Proof.
  intros HV H. unfold opt_arg_validated in H. apply bind_Ok in H as (x & _ & H).
  apply traverse_Ok in H. destruct x; [|done]. destruct H as (b & Hb & [= ->]). by eapply HV.
Qed.

Lemma digit_listed c : is_digit c = true -> In c (bytes_of "0123456789abcdef.:").
Proof. destruct c as [[] [] [] [] [] [] [] []]; vm_compute; intros H; first [discriminate H|tauto]. Qed.

(** The characters of a written address. *)
Lemma hex_charset p n : forallb p (bytes_of "0123456789abcdef") = true -> str_all p (lower_hex n) = true.
Proof.
  intros Hall. unfold lower_hex. generalize 4 as fuel. intros fuel. revert n.
  induction fuel as [|fuel IH]; intros n; [done|]. cbn [hex_digits]. rewrite str_all_app, andb_true_iff.
  split; [by destruct (n <? 16)%N|]. cbn. rewrite andb_true_r. rewrite forallb_forall in Hall. apply Hall.
  assert (Hm : (n mod 16 < 16)%N) by (apply N.mod_lt; lia).
  change (bytes_of "0123456789abcdef") with (map (fun k => hex_char (N.of_nat k)) (seq 0 16)).
  revert Hm. generalize (n mod 16)%N as m. intros m Hm. apply in_map_iff. exists (N.to_nat m).
  rewrite N2Nat.id, in_seq. split; [done|lia].
Qed.

Lemma join_charset p c l : p c = true -> Forall (fun t => str_all p t = true) l -> str_all p (join (String c "") l) = true.
Proof.
  intros Hc Hl. induction Hl as [|x l Hx Hl IH]; [done|]. destruct l as [|y l]; [exact Hx|].
  change (join _ (x :: y :: l)) with (x ++ String c (join (String c "") (y :: l)))%string.
  rewrite str_all_app. cbn [str_all]. by rewrite Hx, Hc, IH.
Qed.

Lemma ip_charset p a : forallb p (bytes_of "0123456789abcdef.:") = true -> str_all p (ip_display a) = true.
Proof.
  intros Hall. assert (Hp : forall c, In c (bytes_of "0123456789abcdef.:") -> p c = true) by by rewrite <-forallb_forall.
  assert (Hhex : forallb p (bytes_of "0123456789abcdef") = true).
  { apply forallb_forall. intros c Hc. apply Hp. cbn in *. tauto. }
  assert (H4 : forall l, str_all p (ipv4_display l) = true).
  { intros l. apply join_charset; [apply Hp; cbn; tauto|]. apply List.Forall_map, List.Forall_forall.
    intros n _. eapply str_all_mono; [|apply dec_of_N_digits]. intros c Hc. apply Hp. by apply digit_listed. }
  assert (H6 : forall l, str_all p (join ":" (map lower_hex l)) = true).
  { intros l. apply join_charset; [apply Hp; cbn; tauto|]. apply List.Forall_map, List.Forall_forall.
    intros n _. by apply hex_charset. }
  assert (Hcc : p ":"%char = true) by (apply Hp; cbn; tauto).
  assert (Hf : p "f"%char = true) by (apply Hp; cbn; tauto).
  destruct a as [o|g]; cbn [ip_display]; [done|]. unfold ipv6_display.
  assert (Hg : str_all p (let '(start, len) := longest_zeroes 0 (0, 0) (0, 0) g in
      if 1 <? len then (join ":" (map lower_hex (take start g)) ++ "::"
                        ++ join ":" (map lower_hex (drop (start + len) g)))%string
      else join ":" (map lower_hex g)) = true).
  { destruct (longest_zeroes _ _ _ _) as [start len]. destruct (1 <? len); [|done].
    rewrite !str_all_app, !H6. cbn. by rewrite Hcc. }
  repeat case_match; subst; try exact Hg; rewrite str_all_app, H4; cbn; by rewrite Hcc, Hf.
Qed.

Lemma no_dash_ip_display a : no_dash (ip_display a).
Proof. by eapply (charset_no_dash (fun c => negb (Ascii.eqb c "-"))); [apply ip_charset|]. Qed.

Lemma no_dash_sudo_commands s p t : validated_sudo_commands s p = Ok t -> no_dash t.
Proof.
  intros H. unfold validated_sudo_commands in H.
  destruct (String.eqb_spec s "ALL") as [->|_]; [by injection H as <-|]. accepted H.
  apply not_true_is_false. intros Hd. apply prefix_spec in Hd as [u ->].
  match goal with H : forallb _ _ = true |- _ => revert H end.
  unfold nonempty_parts. cbn. by destruct (split_on "," u).
Qed.
#[export] Instance sudo_commands_no_dash : NoDash validated_sudo_commands := no_dash_sudo_commands.

Lemma no_dash_kernel_arg x param u : validated_kernel_arg_token x param = Ok u -> no_dash x.
Proof. intros H. unfold validated_kernel_arg_token in H. by accepted H. Qed.

Lemma no_dash_additions param l u :
  for_all (fun a => validated_safe_kernel_arg a param) l = Ok u -> Forall no_dash l.
Proof.
  intros H. apply for_all_Ok in H. eapply Forall_impl; [exact H|]. cbn. intros x [v Hx]%is_ok_spec.
  unfold validated_safe_kernel_arg in Hx. apply bind_Ok in Hx as (? & Hx & _). by eapply no_dash_kernel_arg.
Qed.
Lemma no_dash_removals param l u :
  for_all (fun a => validated_safe_kernel_arg_removal a param) l = Ok u -> Forall no_dash l.
Proof.
  intros H. apply for_all_Ok in H. eapply Forall_impl; [exact H|]. cbn. intros x [v Hx]%is_ok_spec.
  unfold validated_safe_kernel_arg_removal in Hx. apply bind_Ok in Hx as (? & Hx & _).
  by eapply no_dash_kernel_arg.
Qed.
Lemma no_dash_safe_args {B} (f : string -> result ExecutorError B) param l u :
  for_all (fun a => _ ← validated_safe_arg a param; f a) l = Ok u -> Forall no_dash l.
Proof.
  intros H. apply for_all_Ok in H. eapply Forall_impl; [exact H|]. cbn. intros x [v Hx]%is_ok_spec.
  apply bind_Ok in Hx as (t & Hx & _). pose proof (no_dash_safe_arg _ _ _ Hx) as Hd.
  unfold validated_safe_arg in Hx. by accepted Hx.
Qed.

Lemma argv_pairs o k l : no_dash k -> Forall no_dash l -> argv_safe o (flat_map (fun a => [k; a]) l).
Proof. intros Hk. induction 1; cbn; repeat (apply argv_operand; [done|]); done || constructor. Qed.

(** The flags with a number after them. *)
Lemma argv_range_flag o lo hi params key flag l :
  str_in flag (flags o) = true -> range_flag lo hi params key flag = Ok l -> argv_safe o l.
Proof.
  intros Hf H. unfold range_flag in H. apply bind_Ok in H as ([n|] & _ & H).
  - apply bind_Ok in H as (? & _ & [= <-]). apply argv_flag; [done|].
    apply argv_operand; [apply no_dash_dec|constructor].
  - injection H as <-. constructor.
Qed.
Lemma argv_range_flags o lo hi params keys l :
  forallb (fun kf => str_in (snd kf) (flags o)) keys = true ->
  range_flags lo hi params keys = Ok l -> argv_safe o l.
Proof.
  revert l. induction keys as [|[key flag] keys IH]; cbn [range_flags forallb snd]; intros l Hk H.
  - injection H as <-. constructor.
  - bools. apply bind_Ok in H as (a & Ha & H). apply bind_Ok in H as (b & Hb & [= <-]).
    apply argv_app; [by eapply argv_range_flag|by apply IH].
Qed.
Lemma argv_credit_flags o params keys l :
  forallb (fun kf => str_in (snd kf) (valued o)) keys = true ->
  credit_flags params keys = Ok l -> argv_safe o l.
Proof.
  revert l. induction keys as [|[key flag] keys IH]; cbn [credit_flags forallb snd]; intros l Hk H.
  - injection H as <-. constructor.
  - bools. apply bind_Ok in H as ([n|] & _ & H).
    + apply bind_Ok in H as (a & Ha & H). apply bind_Ok in Ha as (? & _ & [= <-]).
      apply bind_Ok in H as (b & Hb & [= <-]). apply argv_valued; [done|left; by eexists|by apply IH].
    + apply bind_Ok in H as (a & [= <-] & H). apply bind_Ok in H as (b & Hb & [= <-]). by apply IH.
Qed.
Lemma argv_limit o params key k property validator l :
  no_dash (String k property) ->
  limit_assignment params key (String k property) validator = Ok l -> argv_safe o l.
Proof.
  intros Hk H. unfold limit_assignment in H. apply bind_Ok in H as ([v|] & _ & [= <-]); [|constructor].
  apply argv_operand; [|constructor].
  by apply (no_dash_app_char (String k property) "=" v).
Qed.

Lemma argv_attached_opt o p (f : string -> string) (a : option string) :
  str_in p (attached o) = true -> (forall v, f v = (p ++ v)%string) ->
  argv_safe o (option_list (f <$> a)).
Proof.
  intros Hp Hf. destruct a as [v|]; [|constructor]. cbn. rewrite Hf.
  apply argv_attached; [done|constructor].
Qed.
Lemma argv_opt_valued o f (a : option string) :
  str_in f (valued o) = true -> str_in f EXPOSED = true -> argv_safe o (opt_arg f a).
Proof. destruct a; cbn; [|constructor]. intros ? ?. apply argv_valued; [done|by right|constructor]. Qed.

Lemma no_dash_job_name name paths :
  Services.scheduled_job_unit_paths name = Some paths -> no_dash name.
Proof.
  intros H. unfold Services.scheduled_job_unit_paths in H. destruct name as [|c name]; [done|].
  apply not_true_is_false. intros Hd. apply prefix_spec in Hd as [u E]. injection E as -> ->.
  cbn [is_empty first_char orb] in H. change (negb (is_alnum "-")) with true in H.
  by rewrite orb_true_r in H.
Qed.

Lemma no_dash_log_rotation s n t : validated_log_rotation s n = Ok t -> no_dash t.
Proof.
  intros H. unfold validated_log_rotation in H. apply bind_Ok in H as (p & Hp & H). accepted H.
  exact (no_dash_accepted _ _ _ Hp).
Qed.

Lemma argv_opt_word o w (a : option string) :
  no_dash w -> (forall s, a = Some s -> no_dash s) -> argv_safe o (opt_arg w a).
Proof. destruct a; cbn; intros Hw H; repeat constructor; [done|by apply H]. Qed.

Lemma argv_flag_each o f l :
  str_in f (flags o) = true -> Forall no_dash l -> argv_safe o (flat_map (fun a => [f; a]) l).
Proof. intros Hf. induction 1; cbn; [constructor|]. apply argv_flag; [done|]. by apply argv_operand. Qed.

Lemma no_dash_sshd_option name values : sshd_values name = Some values -> no_dash name.
Proof.
  unfold sshd_values. destruct (String.eqb_spec name "PermitRootLogin") as [->|_]; [done|].
  destruct (str_in _ _) eqn:E; [|done]. intros _. by eapply in_list_no_dash.
Qed.
Lemma no_dash_sshd_value name values value :
  sshd_values name = Some values -> str_in value values = true -> no_dash value.
Proof.
  unfold sshd_values. destruct (name =? _)%string; [|destruct (str_in name _); [|done]];
    intros [= <-] Hv; by eapply in_list_no_dash.
Qed.

Lemma no_dash_domains domain listed (domains : list string) :
  match listed with
  | Some arr => collect (fun s => validated_domain s "domains") arr
  | None => match domain with
            | Some d => d ← validated_domain d "domain"; Ok [d]
            | None => Ok []
            end
  end = Ok domains -> Forall no_dash domains.
Proof.
  destruct listed as [arr|]; [intros H; eapply no_dash_collect; [|exact H]; apply _|].
  destruct domain as [d|]; [|intros [= <-]; constructor].
  intros H. apply bind_Ok in H as (d' & Hd & [= <-]). constructor; [exact (no_dash_accepted _ _ _ Hd)|constructor].
Qed.

Lemma no_dash_runas (runas r : option string) :
  match keep_nonempty runas with
  | Some u => if (u =? "ALL")%string then Ok (Some "ALL") else Some <$> validated_username u "runas"
  | None => Ok None
  end = Ok r -> forall s, r = Some s -> no_dash s.
Proof.
  destruct (keep_nonempty runas) as [u|]; [|congruence].
  destruct (u =? "ALL")%string; [intros [= <-] s [= <-]; done|].
  destruct (validated_username u "runas") eqn:E; [|done]. cbn. intros [= <-] s [= <-].
  exact (no_dash_accepted _ _ _ E).
Qed.

(** ** The catalogue *)

(** A dashless argument, from the reader that returned it. *)
Ltac dashless :=
  first
  [ reflexivity
  | apply no_dash_dec
  | match goal with
    | H : arg _ _ _ = Ok ?s |- no_dash ?s => eapply no_dash_arg; [|exact H]; apply _
    | H : user_arg _ = Ok ?s |- no_dash ?s => exact (no_dash_user _ _ H)
    | H : user_not_critical_arg _ = Ok ?s |- no_dash ?s => exact (no_dash_user_not_critical _ _ H)
    | H : optional_validated _ _ _ = Ok (Some ?s) |- no_dash ?s =>
        eapply no_dash_optional; [|exact H]; apply _
    | H : opt_arg_validated _ _ _ = Ok (Some ?s) |- no_dash ?s =>
        eapply no_dash_opt_arg; [|exact H]; apply _
    | H : validated_kill_signal _ = Ok ?s |- no_dash ?s => exact (no_dash_kill_signal _ _ H)
    | H : public_key_arg _ = Ok ?s |- no_dash ?s =>
        unfold public_key_arg in H; apply bind_Ok in H as (? & _ & H); exact (no_dash_public_key _ _ H)
    | H : validated_log_rotation ?s _ = Ok ?t |- no_dash ?t => exact (no_dash_log_rotation _ _ _ H)
    | H : ok_or _ (Services.scheduled_job_unit_paths ?s) = Ok _ |- no_dash ?s =>
        apply ok_or_Ok in H; exact (no_dash_job_name _ _ H)
    | H : reject_if (negb (str_in ?s _)) _ = Ok _ |- no_dash ?s =>
        apply reject_if_Ok, negb_false_iff in H; eapply in_list_no_dash; [exact H|reflexivity]
    | H : ?f ?x ?k = Ok ?s |- no_dash ?s => exact (no_dash_accepted _ _ _ H)
    end ].

(** One step on an argument vector: its next segment is safe. *)
Ltac argv_step :=
  lazymatch goal with
  | |- argv_safe _ [] => apply argv_nil
  | |- argv_safe _ (if ?b then _ else _) => destruct b
  | |- argv_safe _ ((if ?b then _ else _) :: _) => destruct b
  | |- argv_safe _ (default _ ?x :: _) => destruct x; cbn [default from_option id]
  | |- argv_safe _ (match ?x with _ => _ end) => destruct x
  | |- argv_safe ?o (?x :: _) =>
      first [ apply argv_flag; [reflexivity|]
            | apply argv_valued; [reflexivity|first [right; reflexivity | left; eexists; reflexivity]|]
            | apply argv_operand; [solve [dashless]|]
            | let ps := eval cbn in (attached o) in
              match ps with context [?p :: _] => apply (argv_attached _ p); [reflexivity|] end ]
  | |- argv_safe _ (opt_arg _ _) =>
      first [ apply argv_opt_valued; reflexivity
            | apply argv_opt_arg; [reflexivity | intros ? ->; dashless]
            | apply argv_opt_word; [reflexivity | intros ? ->; dashless] ]
  | |- argv_safe _ (flag_if _ _) => apply argv_flag_if; reflexivity
  | |- argv_safe ?o (option_list (_ <$> _)) =>
      let ps := eval cbn in (attached o) in
      match ps with context [?p :: _] => apply (argv_attached_opt _ p); reflexivity end
  | |- argv_safe _ (option_list _) => apply argv_option_list; intros ? ->; dashless
  | |- argv_safe _ (flat_map _ _) =>
      apply argv_pairs; [reflexivity | first [by eapply no_dash_additions | by eapply no_dash_removals]]
  | |- argv_safe _ (map ip_display _) =>
      apply argv_operands, List.Forall_map, List.Forall_forall; intros ? _; apply no_dash_ip_display
  | |- argv_safe _ (_ ++ _) => apply argv_app
  | H : collect _ _ = Ok ?l |- argv_safe _ ?l =>
      apply argv_operands; eapply no_dash_collect; [|exact H]; apply _
  | H : range_flags _ _ _ _ = Ok ?l |- argv_safe _ ?l => eapply argv_range_flags; [|exact H]; reflexivity
  | H : range_flag _ _ _ _ _ = Ok ?l |- argv_safe _ ?l => eapply argv_range_flag; [|exact H]; reflexivity
  | H : credit_flags _ _ = Ok ?l |- argv_safe _ ?l => eapply argv_credit_flags; [|exact H]; reflexivity
  | H : limit_assignment _ _ _ _ = Ok ?l |- argv_safe _ ?l => eapply argv_limit; [|exact H]; reflexivity
  end.

(** The whole command of one arm. *)
Ltac safe_command :=
  repeat match goal with
    | |- command_safe _ (mechanism (Snap.snap_refresh ?x)) => is_var x; destruct x
    | |- command_safe _ (mechanism (Flatpak.update_flatpak _ ?x)) => is_var x; destruct x
    | |- command_safe _ (mechanism (Flatpak.ubuntu_update_flatpak _ ?x)) => is_var x; destruct x
    end;
  lazymatch goal with |- command_safe ?n (mechanism ?s) =>
    let m := eval hnf in (mechanism s) in change (command_safe n m) end;
  cbn [command_safe];
  lazymatch goal with |- _ /\ argv_safe ?o ?l /\ _ /\ _ =>
    let o' := eval vm_compute in o in
    split; [reflexivity|]; split;
      [ change (argv_safe o' l); repeat argv_step
      | split; [first [discriminate | intros _; eexists _, _; split; reflexivity]
               |first [discriminate | intros _; eexists; split; reflexivity]]]
   | _ => first [reflexivity | apply prefix_spec; eexists; reflexivity] end.

(** The arms whose arguments are put together. *)
Create HintDb arms discriminated.
#[export] Hint Constants Opaque : arms.

Lemma safe_grant_sudo params spec :
  build_grant_sudo_access params = Ok spec -> command_safe "GrantSudoAccess" (mechanism spec).
Proof.
  intros H. unbuild_arm H. safe_command. apply argv_opt_arg; [reflexivity|].
  by eapply no_dash_runas.
Qed.

Lemma safe_sshd params spec :
  build_set_sshd_option params = Ok spec -> command_safe "SetSshdOption" (mechanism spec).
Proof.
  intros H. unbuild_arm H. apply ok_or_Ok in Hx1. apply reject_if_Ok, negb_false_iff in Hx2.
  safe_command. apply argv_operand; [by eapply no_dash_sshd_option|]. argv_step.
  apply argv_operand; [by eapply no_dash_sshd_value|constructor].
Qed.

Lemma grub_set_kargs_Ok append delete spec :
  Grub.grub_set_kargs append delete = Ok spec ->
  spec = mkSpec "GrubSetKargs" (Command "sudo" [Grub.GRUB_KARGS_HELPER; "--append"; join "," append;
                                                "--delete"; join "," delete]) High true false.
Proof. destruct append, delete; naive_solver. Qed.

Lemma safe_grub params spec :
  build_grub_set_kargs params = Ok spec -> command_safe "GrubSetKargs" (mechanism spec).
Proof.
  intros H. unfold build_grub_set_kargs in H.
  apply bind_Ok in H as (append & _ & H). apply bind_Ok in H as (delete & _ & H).
  apply bind_Ok in H as (? & Ha & H). apply bind_Ok in H as (? & Hd & H).
  destruct (Grub.grub_set_kargs append delete) eqn:E; [injection H as ->|done].
  apply grub_set_kargs_Ok in E as ->. safe_command.
  apply argv_operand; [apply no_dash_join; [done|exact (no_dash_safe_args _ _ _ _ Ha)]|]. argv_step.
  apply argv_operand; [apply no_dash_join; [done|exact (no_dash_safe_args _ _ _ _ Hd)]|constructor].
Qed.

Lemma safe_netplan params spec :
  build2 (arg validated_safe_arg "key") (arg validated_safe_arg "value") Netplan.netplan_set params = Ok spec ->
  command_safe "NetplanSet" (mechanism spec).
Proof.
  intros H. unbuild_arm H. safe_command. apply argv_operand; [|constructor].
  apply (no_dash_app_char x "="); [dashless|done].
Qed.

Lemma safe_fail2ban_status params spec :
  build_fail2ban_status params = Ok spec -> command_safe "Fail2banStatus" (mechanism spec).
Proof.
  intros H. unbuild_arm H. destruct x as [j|].
  - destruct (negb _); [done|]. injection Hx0 as <-. safe_command.
  - injection Hx0 as <-. safe_command.
Qed.

Lemma safe_fail2ban_ban params spec :
  build_fail2ban_ip Fail2ban.fail2ban_ban_ip params = Ok spec ->
  command_safe "Fail2banBanIp" (mechanism spec).
Proof.
  intros H. unbuild_arm H. apply ok_or_Ok in Hx1. safe_command.
  apply argv_operand; [by eapply no_dash_ip|constructor].
Qed.
Lemma safe_fail2ban_unban params spec :
  build_fail2ban_ip Fail2ban.fail2ban_unban_ip params = Ok spec ->
  command_safe "Fail2banUnbanIp" (mechanism spec).
Proof.
  intros H. unbuild_arm H. apply ok_or_Ok in Hx1. safe_command.
  apply argv_operand; [by eapply no_dash_ip|constructor].
Qed.

Lemma safe_certificate params spec :
  build_obtain_certificate params = Ok spec -> command_safe "ObtainCertificate" (mechanism spec).
Proof.
  intros H. unfold build_obtain_certificate in H.
  apply bind_Ok in H as (domain & _ & H). apply bind_Ok in H as (listed & _ & H).
  apply bind_Ok in H as (domains & Hd & H). apply no_dash_domains in Hd. unbuild H.
  match goal with H : reject_if (negb (str_in _ _)) _ = Ok _ |- _ =>
    apply reject_if_Ok, negb_false_iff, str_in_spec in H; rename H into Hc end.
  safe_command; [|by apply argv_flag_each].
  rewrite !elem_of_cons in Hc. set (ch := default _ _) in *. clearbody ch.
  destruct Hc as [->|[->|[->|[]%elem_of_nil]]]; repeat argv_step.
Qed.

#[export] Hint Resolve safe_grant_sudo safe_sshd safe_grub safe_netplan safe_fail2ban_status
  safe_fail2ban_ban safe_fail2ban_unban safe_certificate : arms.

(** C12: no option injection, six named values apart. Every command built from a request starts a program
    of the fixed list (through sudo, a tool of the fixed list; through a shell, a
    fixed script), and an argument of it starts with a dash only if it is an option
    that the action's own constructor writes, alone or with its value attached, a
    number, or the value right after one of six flags: [--command] and [--schedule]
    of CreateScheduledJob, [--value] of SetSysctl, [--options] of AddMount, [--pin]
    of SetAptPin and [-m] of ObtainCertificate. There the request may write a dash,
    and what becomes of it is up to the program called. An action that is no command
    touches a file under /etc/yum.repos.d only. *)
Theorem no_option_injection name params spec :
  build_action_spec name params = Ok spec -> command_safe name (mechanism spec).
Proof.
  revert name params spec.
  each_arm ltac:(fun H => first [solve [eauto 2 with arms nocore] | unbuild_arm H; safe_command]).
Qed.

(** The flags of [EXPOSED] are those of these actions only. *)
Example exposed_flags :
  concat (map (fun '(name, o) => map (pair name) (filter (fun f => str_in f EXPOSED = true) (valued o))) OPTIONS)
  = [("CreateScheduledJob", "--command"); ("CreateScheduledJob", "--schedule"); ("SetSysctl", "--value");
     ("AddMount", "--options"); ("ObtainCertificate", "-m"); ("SetAptPin", "--pin")].
Proof. vm_compute. reflexivity. Qed.

(** A value that looks like an option reaches the helper as an argument of its own. *)
Lemma sysctl_value_may_look_like_an_option :
  mechanism <$> build_action_spec "SetSysctl" (JObj [("key", JStr "kernel.x"); ("value", JStr "--key")])
  = Ok (Command "sudo" ["/usr/lib/sysknife/sysctl-edit"; "--key"; "kernel.x"; "--value"; "--key"]).
Proof. vm_compute. reflexivity. Qed.

Lemma no_option_injection_witness :
  let request s := JObj [("package", JStr s)] in
  build_action_spec "AptInstall" (request "--allow-downgrades") = Err (InvalidParam "package")
  /\ build_action_spec "AptInstall" (request "curl") = Ok (Apt.apt_install "curl")
  /\ command_safe "AptInstall" (mechanism (Apt.apt_install "curl")).
Proof.
  split; [|split]; [vm_compute; reflexivity..|].
  apply (no_option_injection "AptInstall" (JObj [("package", JStr "curl")])). vm_compute. reflexivity.
Defined.
