(* ===== verification/Preview.v ===== *)
(** * Previews, and the catalogue as one component

    crates/sysknife-daemon/src/preview.rs: the preview of an action, its risk
    read from the catalogue; [spec_meta] of actions/mod.rs; and the instance of
    [ActionCatalogue] the rest of the daemon is proved against. *)

From Stdlib Require Import Ascii String NArith ZArith Lia.
From stdpp Require Import base list strings gmap.
From S2P Require Import Prelude Json Types Actions Ip Catalogue Validate Params Builder.

(** [spec_meta] (actions/mod.rs) *)
Definition catalogued_meta (name : string) : option SpecMeta := SPEC_META !! name.

Record PreviewProfile : Type := mkProfile {
  expected_side_effects : list string; profile_warnings : list string }.

Definition APPROVAL_REQUIRED : string := "approval required".
Definition EXACT_APPROVAL_REQUIRED : string := "exact approval required".

(** The arms of the match: the names of an arm and their profile. *)
Definition PROFILES : list (list string * PreviewProfile) := [
  (["GetSystemState"; "GetHostState"; "CollectDiagnostics"; "GetDeploymentHistory";
    "ListDeployments"; "GetKernelArguments"; "GetPendingUpdates"; "SearchFlatpakApps";
    "ListFlatpakRemotes"; "ListInstalledFlatpaks"; "GetFlatpakAppInfo"; "ListToolboxes";
    "ListServices"; "GetServiceLogs"; "GetServiceStatus"; "GetServiceResourceLimits";
    "ListTimers"; "GetFirewallState"; "ListUsers"; "ListGroups"; "ListPackageRepositories";
    "ListContainers"; "GetContainerInfo"; "GetLayeredPackages"; "GetDiskUsage"; "ListProcesses";
    "GetMemoryInfo"; "GetNetworkStatus"; "GetListeningPorts"; "GetNftablesRuleset";
    "GetFirewallBackendState"; "GetJournalLog"; "GetLvmReport"; "GetSysctl"; "GetMounts";
    "GetSudoGrants"; "GetLogrotateStatus"; "GetPasswordAging"; "GetAuditRules";
    "GetCertificates"; "GetAuthorizedKeys"; "GetDateTime"; "ListJobHistory"; "AptSearch";
    "AptListInstalled"; "AptShow"; "GetAptPins"; "SnapList"; "SnapInfo"; "UfwStatus";
    "DistroboxList"; "NetplanGetConfig"; "ProStatus"; "LivepatchStatus"; "MultipassList";
    "AptListUpgradable"; "AptHistoryList"; "GrubGetKargs"; "CheckPendingReboot";
    "ResolvectlStatus"; "AppArmorStatus"; "CloudInitStatus"; "UbuntuListFlatpaks";
    "Fail2banStatus"],
   mkProfile []
     []);
  (["AptInstall"; "AptRemove"; "AptPurge"; "AptHold"; "AptUnhold"],
   mkProfile ["package state will change"; "services may be restarted by needrestart"]
     [APPROVAL_REQUIRED]);
  (["SnapInstall"; "SnapRemove"; "SnapRefresh"; "SnapHold"; "SnapUnhold"],
   mkProfile ["snap state will change"]
     [APPROVAL_REQUIRED; "snap auto-refresh: install is paired with --hold by default"]);
  (["DistroboxCreate"; "DistroboxRemove"],
   mkProfile ["container lifecycle will change"]
     [APPROVAL_REQUIRED]);
  (["AptUpgrade"],
   mkProfile ["all packages will be upgraded";
              "packages may be removed to resolve dependency conflicts";
              "services may be restarted by needrestart"]
     ["dist-upgrade may remove packages"; EXACT_APPROVAL_REQUIRED]);
  (["UfwEnable"; "UfwDisable"; "UfwAllow"; "UfwDeny"; "UfwReset"],
   mkProfile ["firewall rules will change"; "network access may be immediately affected"]
     ["misconfigured rules can lock out SSH access"; EXACT_APPROVAL_REQUIRED]);
  (["NetplanApply"],
   mkProfile ["network interfaces will be reconfigured immediately";
              "SSH session may be disconnected"]
     ["can disconnect the current SSH session if config is wrong"; EXACT_APPROVAL_REQUIRED]);
  (["NetplanGenerate"],
   mkProfile ["backend network config files will be regenerated"]
     [APPROVAL_REQUIRED]);
  (["NetplanSet"],
   mkProfile ["netplan configuration will be modified";
              "network may be affected when NetplanApply is run"]
     ["run NetplanApply to activate the change"; EXACT_APPROVAL_REQUIRED]);
  (["UfwDeleteRule"; "UfwLimit"],
   mkProfile ["firewall rules will change"; "network access may be immediately affected"]
     ["misconfigured rules can lock out SSH access"; EXACT_APPROVAL_REQUIRED]);
  (["ProAttach"],
   mkProfile ["Ubuntu Pro subscription will be attached";
              "Pro services (ESM, Livepatch, FIPS) may be enabled"]
     [EXACT_APPROVAL_REQUIRED;
      "token is redacted from the preview, audit log, and diagnostic output"]);
  (["ProDetach"],
   mkProfile ["Ubuntu Pro subscription will be released";
              "ESM, Livepatch, and FIPS services will be disabled"]
     [EXACT_APPROVAL_REQUIRED;
      "after detach, this machine no longer receives Pro security patches"]);
  (["AddAuditRule"; "RemoveAuditRule"],
   mkProfile ["a persistent audit rule will be written/removed and reloaded"]
     ["requires the auditd package installed to take effect"; EXACT_APPROVAL_REQUIRED]);
  (["ObtainCertificate"],
   mkProfile ["certbot will obtain a TLS certificate (ACME challenge)";
              "TLS material will be written under /etc/letsencrypt"]
     ["contacts a public ACME CA over the network";
      "requires certbot installed + a reachable DNS/HTTP challenge"; EXACT_APPROVAL_REQUIRED]);
  (["RenewCertificates"],
   mkProfile ["certbot will renew due certificates"]
     ["contacts a public ACME CA over the network"; EXACT_APPROVAL_REQUIRED]);
  (["ConfigureFail2banJail"],
   mkProfile ["a fail2ban jail override will be written and the daemon reloaded"]
     ["changes who gets banned (too strict can lock out real users)";
      "requires the fail2ban package installed to take effect"; EXACT_APPROVAL_REQUIRED]);
  (["EnableProService"; "DisableProService"],
   mkProfile ["a single Ubuntu Pro service will be enabled/disabled"]
     [EXACT_APPROVAL_REQUIRED; "requires an attached Pro subscription + network to take effect"]);
  (["UbuntuReleaseUpgrade"],
   mkProfile ["entire OS will be upgraded to the next Ubuntu release";
              "takes 20–45 minutes; system will be rebooted to complete";
              "third-party PPAs may be disabled or break during upgrade"]
     ["reboot required to complete the upgrade";
      "long-running operation — configure timeout >= 3600 seconds"; EXACT_APPROVAL_REQUIRED]);
  (["ReloadService"],
   mkProfile ["service config will be reloaded"]
     [APPROVAL_REQUIRED;
      "requires ExecReload= to be defined in the unit file; if not defined, use RestartService instead"]);
  (["RestartService"; "ReloadDaemon"; "SetServiceEnabled"; "StartService"; "StopService";
    "CreateToolbox"; "RemoveToolbox"; "InstallFlatpak"; "RemoveFlatpak"; "UpdateFlatpak";
    "AddFlatpakRemote"; "RemoveFlatpakRemote"; "UnmaskService"; "SetHostname"; "SetTimezone";
    "SetLocale"; "SetNtp"],
   mkProfile ["service interruption"]
     [APPROVAL_REQUIRED]);
  (["ConfigureWifi"],
   mkProfile ["the host's Wi-Fi connection will change";
              "current network connectivity may be interrupted while reconnecting"]
     ["a wrong SSID or password can disconnect the host from network access";
      EXACT_APPROVAL_REQUIRED]);
  (["SetDnsServers"; "ResolvectlSetDns"],
   mkProfile ["DNS servers for the interface will change"]
     ["redirecting DNS can enable interception of name resolution"; EXACT_APPROVAL_REQUIRED]);
  (["ConfigureFirewall"],
   mkProfile ["a firewalld rule will change and reload immediately";
              "network access may be immediately affected"]
     ["misconfigured rules can lock out SSH or other remote access"; EXACT_APPROVAL_REQUIRED]);
  (["MaskService"],
   mkProfile ["the unit will be masked (symlinked to /dev/null)";
              "the unit cannot be started, even manually, until UnmaskService is run"]
     ["masking a unit other services depend on can cascade into unrelated failures";
      EXACT_APPROVAL_REQUIRED]);
  (["CreateUser"],
   mkProfile ["a new local user account will be created"; "a home directory may be created"]
     ["grants a new account with login access — review shell/home/group defaults";
      EXACT_APPROVAL_REQUIRED]);
  (["VacuumJournal"],
   mkProfile ["old journal entries will be permanently deleted"; "disk space will be reclaimed"]
     ["deleted log history cannot be recovered"]);
  (["ExtendLogicalVolume"],
   mkProfile ["the logical volume and its filesystem will be grown"]
     ["resizes a live filesystem; a wrong volume target risks data"; EXACT_APPROVAL_REQUIRED]);
  (["CreateLogicalVolume"; "CreateLvSnapshot"],
   mkProfile ["volume-group free space will be consumed"]
     ["consumes VG capacity; snapshots fill as the origin changes"; EXACT_APPROVAL_REQUIRED]);
  (["SetServiceResourceLimits"],
   mkProfile ["the service's memory/CPU/task limits will change immediately";
              "a persistent drop-in will be written (undo: systemctl revert)"]
     ["too tight a MemoryMax can OOM-kill the service"; EXACT_APPROVAL_REQUIRED]);
  (["ConfigureLogRotation"; "RemoveLogRotation"],
   mkProfile ["a logrotate drop-in will be written/removed"]
     [APPROVAL_REQUIRED]);
  (["ConfigureRemoteSyslog"; "RemoveRemoteSyslog"],
   mkProfile ["rsyslog will start/stop forwarding all logs to a remote host";
              "rsyslog will be restarted"]
     ["forwarding sends log data off-host (exfiltration surface)"; EXACT_APPROVAL_REQUIRED]);
  (["SetPasswordAging"],
   mkProfile ["the target account's password-aging limits will change"]
     [EXACT_APPROVAL_REQUIRED]);
  (["SetPasswordPolicy"; "SetAccountLockout"],
   mkProfile ["a system-wide PAM policy file will be written"]
     ["affects password/lockout rules for all accounts";
      "takes effect only if the PAM module is enabled in the auth stack"; EXACT_APPROVAL_REQUIRED]);
  (["SetAptPin"; "RemoveAptPin"],
   mkProfile ["apt version/origin preferences will change";
              "a /etc/apt/preferences.d drop-in will be written/removed"]
     [APPROVAL_REQUIRED]);
  (["GrantSudoAccess"; "RevokeSudoAccess"],
   mkProfile ["a sudoers.d drop-in will be created/removed";
              "the target user's sudo privileges will change"]
     ["this configures privilege escalation — review the rule carefully"; EXACT_APPROVAL_REQUIRED]);
  (["AddMount"; "RemoveMount"],
   mkProfile ["a filesystem will be (un)mounted";
              "/etc/fstab will be updated (managed entries carry nofail)"]
     ["a wrong device or mountpoint risks data or availability"; EXACT_APPROVAL_REQUIRED]);
  (["AddSwap"; "RemoveSwap"],
   mkProfile ["swap will be enabled/disabled";
              "a swap file will be created/removed and /etc/fstab updated"]
     [EXACT_APPROVAL_REQUIRED]);
  (["SetSysctl"],
   mkProfile ["a kernel parameter will change immediately";
              "the value will persist across reboots (/etc/sysctl.d)"]
     ["a wrong net.*/vm.*/kernel.* value can degrade or lock the host"; EXACT_APPROVAL_REQUIRED]);
  (["SignalProcess"],
   mkProfile ["the target process will be terminated"]
     ["the process and its in-flight work will stop"; EXACT_APPROVAL_REQUIRED]);
  (["ConfigureUnattendedUpgrades"],
   mkProfile ["the automatic security-update policy will change"]
     [APPROVAL_REQUIRED]);
  (["CreateScheduledJob"],
   mkProfile ["a systemd timer will run the command on a recurring schedule"]
     ["persistent root-scheduled execution"; EXACT_APPROVAL_REQUIRED]);
  (["AddUserToGroup"; "RemoveUserFromGroup"; "CreateGroup"; "DeleteGroup"; "LockUserAccount";
    "UnlockUserAccount"; "SetSshdOption"; "DeleteUser"; "AddAuthorizedKey"; "RemoveAuthorizedKey"],
   mkProfile ["access control will change"]
     ["privilege change"; EXACT_APPROVAL_REQUIRED]);
  (["AddPackageRepository"; "RemovePackageRepository"; "EnablePackageRepository";
    "DisablePackageRepository"],
   mkProfile ["package repository configuration will change"]
     [APPROVAL_REQUIRED]);
  (["CreateContainer"; "StartContainer"; "StopContainer"; "RemoveContainer"],
   mkProfile ["container lifecycle will change"]
     [APPROVAL_REQUIRED]);
  (["UpdateSystem"; "InstallPackages"; "RemovePackages"; "RebaseSystem"; "RollbackDeployment";
    "AddLayeredPackage"; "RemoveLayeredPackage"; "ReplaceLayeredPackage";
    "ResetLayeredPackageOverride"; "RemoveBasePackage"],
   mkProfile ["system deployment will change"; "reboot may be required"]
     ["reboot required"; EXACT_APPROVAL_REQUIRED]);
  (["SetKernelArguments"],
   mkProfile ["boot arguments will change"]
     ["reboot required"; EXACT_APPROVAL_REQUIRED]);
  (["RebootSystem"],
   mkProfile ["system reboot will interrupt running work"]
     ["reboot required"; EXACT_APPROVAL_REQUIRED]);
  (["CleanupDeployments"],
   mkProfile ["old deployments may be removed"]
     [EXACT_APPROVAL_REQUIRED]);
  (["PinDeployment"; "UnpinDeployment"],
   mkProfile ["deployment pin state will change"]
     [EXACT_APPROVAL_REQUIRED]);
  (["AptUpdate"],
   mkProfile ["the apt package index will be refreshed"]
     []);
  (["AptAutoremove"],
   mkProfile ["automatically-installed packages no longer needed will be removed"]
     [APPROVAL_REQUIRED]);
  (["AddPpa"],
   mkProfile ["a Launchpad PPA and its signing key will be added";
              "the trusted software supply chain will expand"]
     ["a PPA is a third-party package source outside the distro archive"; EXACT_APPROVAL_REQUIRED]);
  (["RemovePpa"],
   mkProfile ["a Launchpad PPA will be removed"]
     [APPROVAL_REQUIRED]);
  (["SnapRevert"],
   mkProfile ["the snap will be reverted to its previous revision"]
     [APPROVAL_REQUIRED]);
  (["SnapClassicInstall"],
   mkProfile ["a snap will be installed with classic confinement"]
     ["classic confinement grants the snap full, unsandboxed system access"; APPROVAL_REQUIRED]);
  (["GrubSetKargs"],
   mkProfile ["GRUB kernel arguments will change";
              "update-grub will regenerate the boot configuration"]
     ["takes effect on the next reboot";
      "a bad kernel argument can prevent the system from booting"; EXACT_APPROVAL_REQUIRED]);
  (["AppArmorEnforce"],
   mkProfile ["an AppArmor profile will be switched to enforce mode"]
     ["an over-tight profile can block a legitimate service"; EXACT_APPROVAL_REQUIRED]);
  (["AppArmorComplain"],
   mkProfile ["an AppArmor profile will be switched to complain mode"]
     ["complain mode disables MAC enforcement for the profile"; EXACT_APPROVAL_REQUIRED]);
  (["Fail2banBanIp"],
   mkProfile ["an IP address will be banned in a fail2ban jail"]
     ["banning can lock out legitimate access from that address"; EXACT_APPROVAL_REQUIRED]);
  (["Fail2banUnbanIp"],
   mkProfile ["an IP address will be unbanned in a fail2ban jail"]
     [APPROVAL_REQUIRED]);
  (["UbuntuInstallFlatpak"; "UbuntuRemoveFlatpak"; "UbuntuUpdateFlatpak"],
   mkProfile ["a user's Flatpak apps will change"]
     [APPROVAL_REQUIRED])].

Definition unclassified : PreviewProfile :=
  mkProfile ["unclassified action"] ["action profile not recognized"].

Definition preview_profile (name : string) : PreviewProfile :=
  default unclassified
    (find_map (fun '(names, p) => if str_in name names then Some p else None) PROFILES).

Definition fallback_risk (name : string) : RiskLevel :=
  if (name =? "ListJobHistory")%string then Low else High.

Definition gate_risk (name : string) : RiskLevel :=
  match catalogued_meta name with Some m => risk_level m | None => fallback_risk name end.

Definition preview_summary (name : string) (risk : RiskLevel) : string :=
  (name ++ " preview ("
   ++ match risk with Low => "low-risk" | Medium => "medium-risk" | High => "high-risk" end
   ++ ")")%string.

Definition QUOTE : string := String (chr 34) "".

(** The unit files of a scheduled job, when its name is acceptable. *)
Definition scheduled_job_effect (params : json) : option string :=
  name ← jget "name" params ≫= as_str;
  '(service_path, timer_path) ← Services.scheduled_job_unit_paths name;
  Some ("unit files " ++ service_path ++ " and " ++ timer_path
        ++ " will be created; existing paths are refused, not overwritten")%string.

(** The warning a grant that amounts to ALL carries first. *)
Definition sudo_equivalence_warning (params : json) : option string :=
  commands ← jget "commands" params ≫= as_str;
  offender ← shell_equivalent_sudo_command commands;
  let user := default "the target user" (jget "user" params ≫= as_str) in
  Some (offender ++ " runs an arbitrary command, so this grant gives " ++ user
        ++ " the same authority as `commands = " ++ QUOTE ++ "ALL" ++ QUOTE
        ++ "` however narrow the list looks")%string.

Definition preview_of (request : RequestEnvelope) (current_state proposed_change : json)
    : PreviewEnvelope :=
  let name := req_action_name request in
  let profile := preview_profile name in
  let effects := expected_side_effects profile
    ++ (if (name =? "CreateScheduledJob")%string
        then option_list (scheduled_job_effect (req_params request)) else []) in
  let warnings := (if (name =? "GrantSudoAccess")%string
                   then option_list (sudo_equivalence_warning (req_params request)) else [])
    ++ profile_warnings profile in
  let risk := gate_risk name in
  let '(reboot, rollback) :=
    match catalogued_meta name with
    | Some m => (reboot_required m, rollback_available m)
    | None => (false, false)
    end in
  mkPreviewEnvelope (preview_summary name risk) risk current_state proposed_change effects reboot
    rollback warnings (req_request_hash request).

#[export] Instance sysknife_catalogue : ActionCatalogue := {|
  spec_meta := catalogued_meta;
  Actions.validate_action_params := Params.validate_action_params;
  Actions.build_action_spec := Builder.build_action_spec;
  preview_action := preview_of |}.

(** ** What the catalogue promises *)

#[export] Instance sysknife_catalogue_laws : ActionCatalogueLaws.
Proof.
  split; intros name params spec H; apply built_meta in H as [Hn Hm]; [done|]. exact Hm.
Qed.

(** C39: the preview shows what will run. For every request the executor accepts,
    the preview of the action carries the risk, the reboot and the rollback flag
    of the very command that is built from the request; an action the catalogue
    does not hold is previewed as high risk, the job history query apart. *)
Theorem preview_shows_what_runs request current_state proposed_change :
  let preview := preview_of request current_state proposed_change in
  match build_action_spec (req_action_name request) (req_params request) with
  | Ok spec =>
      prv_risk_level preview = spec_risk_level spec
      /\ prv_reboot_required preview = spec_reboot_required spec
      /\ prv_rollback_available preview = spec_rollback_available spec
  | Err _ =>
      prv_risk_level preview = High \/ is_Some (catalogued_meta (req_action_name request))
      \/ req_action_name request = "ListJobHistory"
  end.
Proof.
  intros preview. subst preview. unfold preview_of, gate_risk.
  destruct (build_action_spec _ _) as [spec|e] eqn:E.
  - apply built_meta in E as [_ Hm]. unfold catalogued_meta. rewrite Hm.
    cbn [meta_of]. split_and!; exact eq_refl.
  - destruct (catalogued_meta _) as [m|]; [right; left; by exists m|]. unfold fallback_risk.
    destruct (String.eqb_spec (req_action_name request) "ListJobHistory"); auto.
Qed.

(** *** Tables with the same names *)

Lemma names_agree (l m : list string) name :
  forallb (fun n => str_in n m) l && forallb (fun n => str_in n l) m = true ->
  str_in name l = str_in name m.
Proof.
  intros H. apply andb_true_iff in H as [Hl Hm]. rewrite forallb_forall in Hl, Hm.
  apply eq_true_iff_eq. split; intros Hin; [apply Hl|apply Hm];
    apply list_elem_of_In; by apply str_in_spec.
Qed.

Lemma find_map_names {A} name (l : list (list string * A)) :
  is_Some (find_map (fun '(names, a) => if str_in name names then Some a else None) l)
  <-> str_in name (flat_map fst l) = true.
Proof.
  rewrite str_in_spec. induction l as [|[names a] l IH]; cbn.
  - split; [by intros [? ?]|by intros ?%elem_of_nil].
  - rewrite elem_of_app, <-str_in_spec. destruct (str_in name names); [naive_solver|].
    rewrite IH. naive_solver.
Qed.

Lemma assoc_names {A} name (l : list (string * A)) :
  is_Some (assoc name l) <-> str_in name (map fst l) = true.
Proof.
  rewrite str_in_spec. induction l as [|[n a] l IH]; cbn.
  - split; [by intros [? ?]|by intros ?%elem_of_nil].
  - rewrite elem_of_cons. destruct (String.eqb_spec name n) as [->|Hne]; [naive_solver|].
    rewrite IH. naive_solver.
Qed.

Lemma spec_meta_names name :
  is_Some (catalogued_meta name) <-> str_in name (map action_name all_specs) = true.
Proof.
  rewrite str_in_spec. unfold catalogued_meta, SPEC_META.
  assert (Hf : forall l (m : gmap string SpecMeta),
            is_Some (fold_left (fun m s => <[action_name s := meta_of s]> m) l m !! name)
            <-> name ∈ map action_name l \/ is_Some (m !! name)).
  { induction l as [|s l IH]; intros m; cbn; [rewrite elem_of_nil; naive_solver|].
    rewrite IH, elem_of_cons. destruct (decide (name = action_name s)) as [->|Hne].
    - rewrite lookup_insert_eq. naive_solver.
    - rewrite lookup_insert_ne by done. naive_solver. }
  rewrite Hf, lookup_empty. split; [by intros [?|[? ?]]|by left].
Qed.

(** The tables agree. The executor screens the parameters of exactly the
    action names the types crate knows; each of them but the job history query
    has an arm in the executor, a sample in the catalogue that its risk is read
    from and a preview of its own, and no other name has an arm or a sample. *)
Theorem catalogue_complete name :
  let known := is_ok (parse_action_name name) in
  let runs := known && negb (str_in name DISPATCHER_INTERNAL_ACTIONS) in
  (is_Some (allowed_action_params name) <-> known = true)
  /\ (is_Some (assoc name BUILDERS) <-> runs = true)
  /\ (is_Some (catalogued_meta name) <-> runs = true)
  /\ (is_Some (find_map (fun '(names, p) => if str_in name names then Some p else None) PROFILES)
       <-> known = true).
Proof.
  cbv zeta. unfold parse_action_name, allowed_action_params.
  set (executed := List.filter (fun n => negb (str_in n DISPATCHER_INTERNAL_ACTIONS)) KNOWN_ACTION_NAMES).
  assert (Hruns : str_in name KNOWN_ACTION_NAMES && negb (str_in name DISPATCHER_INTERNAL_ACTIONS)
                  = str_in name executed).
  { apply eq_true_iff_eq. rewrite andb_true_iff, !str_in_spec. unfold executed.
    by rewrite !list_elem_of_In, filter_In. }
  assert (Hknown : is_ok (if str_in name KNOWN_ACTION_NAMES then Ok name else Err name)
                   = str_in name KNOWN_ACTION_NAMES) by (by destruct (str_in _ _)).
  rewrite Hknown, Hruns, !find_map_names, assoc_names, spec_meta_names.
  split_and!; f_equiv; apply names_agree; vm_compute; reflexivity.
Qed.
