(* ===== verification/Policy.v ===== *)
(** * Authorization policy

    crates/sysknife-daemon/src/policy.rs: the role an action needs, derived from
    its catalogued risk, and the operator's overrides, which may only raise it.
    The overrides reach [from_overrides] out of a HashMap, in an order the
    program does not choose: a list of entries with distinct keys. *)

From stdpp Require Import base list strings gmap.
From S2P Require Import Prelude Json Types Actions.

Definition role_for_risk_level (level : RiskLevel) : CallerRole :=
  match level with Low => Observer | Medium => Dev | High => Admin end.

Definition role_exception (name : string) : option CallerRole :=
  if (name =? "ListJobHistory")%string then Some Observer else None.

Definition parse_risk_level (s : string) : option RiskLevel :=
  let s := to_lower (str_trim s) in
  if (s =? "low")%string then Some Low
  else if (s =? "medium")%string then Some Medium
  else if (s =? "high")%string then Some High
  else None.

Inductive PolicyValidationError : Type :=
| PolicyUnknownAction (action : string)
| InvalidRiskLevel (action value : string)
| CannotLower (action : string) (baseline attempted : CallerRole).

(** Action name to effective minimum role. *)
Record PolicyTable : Type := mkPolicy { overrides : gmap string CallerRole }.

Definition empty_policy : PolicyTable := mkPolicy ∅.

Section Policy.
Context `{ActionCatalogue}.

Definition baseline_role (name : string) : option CallerRole :=
  match role_exception name with
  | Some role => Some role
  | None => role_for_risk_level ∘ risk_level <$> spec_meta name
  end.

Definition baseline_allowed (caller : CallerRole) (name : string) : bool :=
  match baseline_role name with
  | Some required => role_leb required caller
  | None => false
  end.

(** One entry of the map: the role it sets, or why it is refused. *)
Definition check_override (action level_str : string)
    : result PolicyValidationError CallerRole :=
  baseline ← ok_or (PolicyUnknownAction action) (baseline_role action);
  level ← ok_or (InvalidRiskLevel action level_str) (parse_risk_level level_str);
  let attempted := role_for_risk_level level in
  if role_ltb attempted baseline then Err (CannotLower action baseline attempted)
  else Ok attempted.

Fixpoint from_entries (acc : gmap string CallerRole) (raw : list (string * string))
    : result PolicyValidationError (gmap string CallerRole) :=
  match raw with
  | [] => Ok acc
  | (action, level_str) :: raw' =>
      attempted ← check_override action level_str;
      from_entries (<[action := attempted]> acc) raw'
  end.

Definition from_overrides (raw : list (string * string))
    : result PolicyValidationError PolicyTable :=
  m ← from_entries ∅ raw; Ok (mkPolicy m).

Definition min_role_for_action (policy : PolicyTable) (name : string) : option CallerRole :=
  baseline ← baseline_role name;
  Some (default baseline (overrides policy !! name)).

Definition action_allowed (policy : PolicyTable) (caller : CallerRole) (name : string) : bool :=
  match min_role_for_action policy name with
  | Some required => role_leb required caller
  | None => false
  end.

Definition override_count (policy : PolicyTable) : nat := size (overrides policy).

Definition active_overrides (policy : PolicyTable) : list (string * CallerRole) :=
  sort_by_key (map_to_list (overrides policy)).

(** ** Laws *)

(** What an accepted override map is: every entry passes on its own. *)
Lemma from_entries_spec acc raw :
  NoDup (map fst raw) ->
  match from_entries acc raw with
  | Ok m =>
      Forall (fun '(a, s) => exists r, check_override a s = Ok r /\ m !! a = Some r) raw
      /\ forall a, a ∉ map fst raw -> m !! a = acc !! a
  | Err e => exists a s, (a, s) ∈ raw /\ check_override a s = Err e
  end.
Proof.
  revert acc. induction raw as [|[a s] raw IH]; intros acc Hnd; [by split|].
  cbn [map fst] in Hnd. apply NoDup_cons in Hnd as [Ha Hnd]. cbn [from_entries].
  destruct (check_override a s) as [r|e] eqn:E; cbn [mbind result_bind];
    [|exists a, s; split; [apply list_elem_of_here|done]].
  specialize (IH (<[a := r]> acc) Hnd). destruct (from_entries _ raw) as [m|e].
  - destruct IH as [IH1 IH2]. split.
    + apply Forall_cons. split; [|done]. exists r. split; [done|].
      rewrite IH2 by done. apply lookup_insert_eq.
    + intros b [Hb1 Hb2]%not_elem_of_cons.
      rewrite IH2 by done. by apply lookup_insert_ne.
  - destruct IH as (b & t & Hin & Hb). exists b, t. split; [by apply list_elem_of_further|done].
Qed.

Lemma check_override_raises a s r b :
  check_override a s = Ok r -> baseline_role a = Some b -> role_leb b r = true.
Proof.
  unfold check_override. intros E Hb. rewrite Hb in E. cbn [ok_or mbind result_bind] in E.
  destruct (parse_risk_level s) as [l|]; cbn [ok_or mbind result_bind] in E; [|done].
  destruct (role_ltb _ _) eqn:El; simplify_eq. rewrite role_ltb_leb in El. by apply negb_false_iff.
Qed.
End Policy.

(** Overrides only ever raise. A table [from_overrides] accepts never asks
    for less than the compile-time role, for any action, known or not, so no
    caller is allowed an action under it that the baseline refuses; it asks for
    exactly the role of the configured level where one is configured and for the
    baseline everywhere else; and the order the entries come in does not decide
    whether they are accepted. *)
Theorem overrides_only_raise `{ActionCatalogue} raw policy :
  NoDup (map fst raw) -> from_overrides raw = Ok policy ->
  (forall caller name, action_allowed policy caller name = true ->
     baseline_allowed caller name = true)
  /\ (forall name level, (name, level) ∈ raw -> exists l,
       parse_risk_level level = Some l
       /\ min_role_for_action policy name = Some (role_for_risk_level l))
  /\ (forall name, name ∉ map fst raw -> min_role_for_action policy name = baseline_role name)
  /\ (forall raw', raw' ≡ₚ raw -> is_ok (from_overrides raw') = true).
Proof.
  intros Hnd E. unfold from_overrides in E.
  pose proof (from_entries_spec ∅ raw Hnd) as HS.
  destruct (from_entries ∅ raw) as [m|] eqn:Em; cbn [mbind result_bind] in E; [|done].
  injection E as <-. destruct HS as [Hall Hother]. rewrite Forall_forall in Hall.
  assert (Hmin : forall name r, m !! name = Some r -> exists s, (name, s) ∈ raw
            /\ check_override name s = Ok r).
  { intros name r Hm. destruct (decide (name ∈ map fst raw)) as [Hin|Hin].
    - apply list_elem_of_fmap in Hin as ([n s] & -> & Hin). exists s. split; [done|].
      destruct (Hall _ Hin) as (r' & Hc & Hr'). cbn in *. congruence.
    - rewrite Hother in Hm by done. done. }
  split_and!.
  - intros caller name. unfold action_allowed, baseline_allowed, min_role_for_action.
    destruct (baseline_role name) as [b|] eqn:Eb; cbn [mbind option_bind]; [|done].
    destruct (m !! name) as [r|] eqn:Er; cbn [overrides]; rewrite Er; [|done]. simpl. intros Hr.
    destruct (Hmin name r Er) as (s & _ & Hc).
    eapply role_leb_trans; [by eapply check_override_raises|done].
  - intros name level Hin. destruct (Hall _ Hin) as (r & Hc & Hm). cbn in Hc.
    unfold min_role_for_action. cbn [overrides]. rewrite Hm. unfold check_override in Hc.
    destruct (baseline_role name); cbn [ok_or mbind result_bind] in Hc; [|done].
    destruct (parse_risk_level level) as [l|]; cbn [ok_or mbind result_bind] in Hc; [|done].
    exists l. destruct (role_ltb _ _); by simplify_eq.
  - intros name Hn. unfold min_role_for_action. cbn [overrides]. rewrite Hother by done.
    by destruct (baseline_role name).
  - intros raw' Hp. unfold from_overrides.
    assert (Hnd' : NoDup (map fst raw')) by by rewrite Hp.
    pose proof (from_entries_spec ∅ raw' Hnd') as HS'.
    destruct (from_entries ∅ raw') as [m'|e']; [done|]. destruct HS' as (a & s & Hin & Hc).
    rewrite Hp in Hin. destruct (Hall _ Hin) as (r & Hc' & _). congruence.
Qed.

(** ** Examples *)

Module PolicySample.
(** One Low and one High action. *)
#[export] Instance catalogue : ActionCatalogue := {|
  spec_meta := fun name =>
    if (name =? "AptUpdate")%string then Some (mkMeta Low false false)
    else if (name =? "AptUpgrade")%string then Some (mkMeta High false false) else None;
  validate_action_params := fun _ _ => Ok tt;
  build_action_spec := fun name _ => Err (UnknownAction name);
  preview_action := fun req st ch => mkPreviewEnvelope "" Low st ch [] false false [] (req_request_hash req) |}.
Definition raw : list (string * string) := [("AptUpdate", " high ")].
End PolicySample.
#[local] Existing Instance PolicySample.catalogue.

Lemma overrides_only_raise_witness :
  exists policy, from_overrides PolicySample.raw = Ok policy
  /\ min_role_for_action policy "AptUpgrade" = baseline_role "AptUpgrade".
Proof.
  exists (mkPolicy {["AptUpdate" := Admin]}). split; [vm_compute; reflexivity|].
  apply (overrides_only_raise PolicySample.raw (mkPolicy {["AptUpdate" := Admin]})).
  - repeat constructor. apply not_elem_of_nil.
  - vm_compute. reflexivity.
  - vm_compute. set_solver.
Defined.
