(* ===== verification/Effects.v ===== *)
(** * Handler programs

    The asynchronous handlers of crates/sysknife-daemon/src/dispatcher.rs, as
    trees of effects. Every [await] that another connection can come in at is one
    effect: a frame sent, one operation of the audit store, one critical section
    of the exclusion map, one process run. Between two effects a handler is a
    pure function, so a handler is a value of [prog] over these effects. *)

From stdpp Require Import base list strings gmap.
From S2P Require Import Prelude Json Types Jobs Auth Distro AuditChain Store Actions Program.

(** ** Responses (DaemonResponse) *)

(** [CollectedState] (state_collector.rs). *)
Record CollectedState : Type := mkCollected {
  cs_host_distro : option DistroId;
  cs_host_name : string;
  cs_deployment : string;
  cs_services : list string;
  cs_flatpaks : list string;
  cs_toolboxes : list string;
  cs_layered_packages : list string;
  cs_containers : list string;
  cs_users : list string;
  cs_machine_id_hash : option string }.

Record JobResult : Type := mkJobResult {
  jr_status : string; jr_summary : text; jr_warnings : list text; jr_job_id : string;
  jr_needs_reboot : bool; jr_rollback_ref : option string; jr_transaction_id : string }.

Inductive DaemonResponse : Type :=
| StateResponse (request_id : string) (state : CollectedState)
| PreviewResponse (request_id : string) (preview : PreviewEnvelope) (transaction_id : string)
| ApprovalResponse (request_id transaction_id approval_receipt : string)
| ApprovalDetailsResponse (request_id transaction_id action_name : string)
    (preview : PreviewEnvelope)
| JobStarted (request_id job_id transaction_id : string)
| JobProgress (job_id : string) (line : text)
| JobCompleted (job_id : string) (result : JobResult)
| QueryActionResponse (request_id action_name : string) (output : text)
| HistoryResponse (request_id : string) (entries : list JobHistoryEntry)
| CancelResponse (request_id transaction_id : string)
| DescribeResponse (request_id : string) (command : text) (risk_level : string)
    (reboot_required : bool)
| ErrorResponse (request_id category : string) (message : text)
| ConflictResponse (request_id : string) (message : text) (retry_after_seconds : option N).

Inductive HandlerError : Type :=
| HFraming
| HSerialization
| HInternal (what : text).

(** How a command of the runner, offloaded to the blocking pool, can fail. *)
Inductive RunError : Type :=
| RunFailed (e : string)
| TaskPanicked (e : string).

(** ** Effects *)

Inductive effect : Type -> Type :=
(* the connection *)
| Send (r : DaemonResponse) : effect (result HandlerError ())
(* the audit store *)
| FetchChainRow (id : string) : effect (result StoreError (option ChainRow))
| GetTx (id : string) : effect (result StoreError (option TransactionRecord))
| GetPreview (id : string) : effect (result StoreError (option PreviewEnvelope))
| RecordPreviewed (t : NewTransaction) (p : PreviewEnvelope)
    : effect (result StoreError TransactionRecord)
| Approve (id : string) (who : CallerPrincipal) : effect (result StoreError (option string))
| Revoke (id : string) (who : CallerPrincipal) : effect (result StoreError bool)
| Claim (id digest : string) (who : CallerPrincipal) : effect (result StoreError bool)
| CancelQueued (id : string) (who : CallerPrincipal) : effect (result StoreError bool)
| ReadTransition (id : string) (target : JobState) : effect (result StoreError JobState)
| CasStatus (id : string) (current target : JobState) : effect (result StoreError ())
| ListTransactions (limit : N) (status_filter action_filter : option string)
    (since : option HistorySince) : effect (result StoreError (list TransactionRecord))
| ListHistory (limit : N) (status_filter action_filter : option string)
    (since : option HistorySince) : effect (result StoreError (list JobHistoryEntry))
(* the exclusion map, under its mutex *)
| TryClaim (own : option ExclusiveResource) (to_claim : list ExclusiveResource) (hash : string)
    : effect (option (ExclusiveResource * string))
| Release (claimed : list ExclusiveResource) (hash : string) : effect ()
(* the host *)
| RunProgram (program : string) (args : list string) : effect (result RunError string)
| CollectState : effect (result RunError CollectedState)
| Execute (spec : ActionSpec) : effect (list string * result ExecutorError ExecutionOutput)
| ExecuteQuiet (spec : ActionSpec) : effect (result ExecutorError ExecutionOutput)
| NewJobId : effect string
| Sleep (millis : N) : effect ()
| ForwardAudit (transaction_id : string) (caller : CallerRole) (final_status : option JobState)
    : effect ().

(** ** Handlers, their runs and their monitors *)

Abbreviation prog := (Program.prog effect).
Abbreviation event := (Program.event effect).
Abbreviation oracle := (Program.oracle effect).
Abbreviation Monitor := (Program.Monitor effect).
