(* ===== verification/Bindings.v ===== *)
(** * What an approval is bound to beyond its parameters

    The pure parts of crates/sysknife-daemon/src/dispatcher.rs that tie an
    execution to the state the operator approved: the set of packages an
    autoremove would delete, and which deployment sits at an index; with
    [parse_autoremove_removals] of actions/apt.rs. *)

From Stdlib Require Import Ascii String NArith ZArith Lia.
From stdpp Require Import base list sets strings.
From S2P Require Import Prelude Json.

Definition AUTOREMOVE_REMOVALS_KEY : string := "autoremove_removals".
Definition DEPLOYMENT_IDENTITY_KEY : string := "deployment_identity".

(** ** Sets of names: [BTreeSet<String>], ascending and without repeats *)

Fixpoint set_insert (x : string) (l : list string) : list string :=
  match l with
  | [] => [x]
  | y :: l' =>
      if (x =? y)%string then l
      else if String.leb x y then x :: l else y :: set_insert x l'
  end.
Definition btree_set (l : list string) : list string := fold_right set_insert [] l.
Definition set_difference (a b : list string) : list string :=
  List.filter (fun x => negb (str_in x b)) a.

(** [serde_json::from_value::<BTreeSet<String>>] *)
Definition string_set_from_value (v : json) : option (list string) :=
  l ← as_array v; l ← mapM as_str l; Some (btree_set l).

(** ** apt-get -s autoremove *)

Definition trim_start (s : string) : string := trim_start_go (String.length s) s.

Definition removal_of_line (line : string) : option string :=
  rest ← strip_prefix "Remv " (trim_start line); head (split_whitespace rest).

Definition parse_autoremove_removals (simulate_stdout : string) : list string :=
  btree_set (omap removal_of_line (lines simulate_stdout)).

(** [n.split(':').next()] *)
Definition package_base (n : string) : string :=
  match split_once ":"%char n with Some (b, _) => b | None => n end.

Definition kernel_class (n : string) : bool :=
  let base := package_base n in
  starts_with "linux-image" base || starts_with "linux-modules" base
  || starts_with "linux-headers" base || starts_with "grub" base
  || contains "nvidia" base || ends_with "-dkms" base.

Definition autoremove_kernel_warning (set : list string) : option string :=
  match List.filter kernel_class set with
  | [] => None
  | flagged =>
      Some ("autoremove would delete kernel/driver/bootloader packages: "
            ++ join ", " flagged ++ ". Review carefully.")%string
  end.

Definition verify_autoremove_binding (approved_proposed_change : json) (live : list string)
    : result string () :=
  match jget AUTOREMOVE_REMOVALS_KEY approved_proposed_change with
  | None =>
      Err "the approved preview did not capture the autoremove deletion set; preview again"
  | Some captured =>
      match string_set_from_value captured with
      | None => Err "the approved preview's autoremove set is malformed; preview again"
      | Some approved =>
          if bool_decide (approved = live) then Ok tt
          else
            Err ("the set of packages autoremove would delete changed since you approved it "
                 ++ "(now also removes: [" ++ join ", " (set_difference live approved)
                 ++ "]; no longer removes: [" ++ join ", " (set_difference approved live)
                 ++ "]); preview again")%string
      end
  end.

(** ** rpm-ostree status --json *)

Section Deployment.
(** [serde_json::from_str]. *)
Variable json_parse : string -> result string json.

Definition parse_deployment_identity (status_json : string) (index : N) : result string string :=
  doc ← match json_parse status_json with
        | Ok doc => Ok doc
        | Err e => Err ("rpm-ostree status --json did not parse: " ++ e)%string
        end;
  deployments ← ok_or "rpm-ostree status --json has no deployments array"
                  (jget "deployments" doc ≫= as_array);
  entry ← ok_or ("there is no deployment at index " ++ dec_of_N index ++ "; rpm-ostree lists "
                 ++ dec_of_N (N.of_nat (length deployments)))%string
            (deployments !! N.to_nat index);
  ok_or ("the deployment at index " ++ dec_of_N index ++ " carries no checksum")%string
    (c ← jget "checksum" entry ≫= as_str; if is_empty c then None else Some c).
End Deployment.

Definition verify_deployment_binding (approved_proposed_change : json) (live_identity : string)
    : result string () :=
  match jget DEPLOYMENT_IDENTITY_KEY approved_proposed_change ≫= as_str with
  | None =>
      Err ("the approved preview did not capture which deployment sat at that index;"
           ++ "              preview again")%string
  | Some captured =>
      if (captured =? live_identity)%string then Ok tt
      else Err ("the deployment at that index changed since you approved it (approved "
                ++ captured ++ ",          now " ++ live_identity ++ "); preview again")%string
  end.

(** ** Laws *)

Lemma set_insert_elem x l y : y ∈ set_insert x l <-> y = x \/ y ∈ l.
Proof.
  induction l as [|z l IH]; cbn [set_insert]; [set_solver|].
  destruct (String.eqb_spec x z) as [->|]; [set_solver|].
  case_match; [set_solver|]. rewrite !elem_of_cons, IH. set_solver.
Qed.

Lemma btree_set_elem l y : y ∈ btree_set l <-> y ∈ l.
Proof.
  unfold btree_set. induction l as [|x l IH]; simpl; [done|].
  rewrite set_insert_elem, IH. by rewrite elem_of_cons.
Qed.

(** Strictly ascending lists of names, the form [BTreeSet] iterates in. *)
Definition ascending (l : list string) : Prop :=
  forall i j x y, i < j -> l !! i = Some x -> l !! j = Some y -> String.ltb x y = true.

Lemma ltb_leb x y : String.ltb x y = true <-> String.leb x y = true /\ x <> y.
Proof.
  unfold String.ltb, String.leb. split.
  - destruct (String.compare x y) eqn:E; try done. intros _. split; [done|]. intros ->.
    pose proof (String.compare_antisym y y) as A. by rewrite E in A.
  - intros [H Hne]. destruct (String.compare x y) eqn:E; try done.
    by apply String.compare_eq_iff in E.
Qed.

Lemma ltb_irrefl x : String.ltb x x = false.
Proof. apply not_true_is_false. rewrite ltb_leb. naive_solver. Qed.

Lemma ltb_trans x y z : String.ltb x y = true -> String.ltb y z = true -> String.ltb x z = true.
Proof.
  rewrite !ltb_leb. intros [H1 N1] [H2 N2].
  assert (Hle : String.le x z).
  { etrans; unfold String.le; [by rewrite H1|by rewrite H2]. }
  unfold String.le in Hle. split; [by destruct (String.leb x z)|]. intros ->.
  apply N1. apply (anti_symm String.le); unfold String.le; [by rewrite H1|by rewrite H2].
Qed.

Lemma ascending_cons x l :
  ascending (x :: l) <-> Forall (fun y => String.ltb x y = true) l /\ ascending l.
Proof.
  split.
  - intros H. split.
    + apply Forall_lookup. intros i y Hy. apply (H 0 (S i) x y); [lia|done|done].
    + intros i j a b Hij. apply (H (S i) (S j)). lia.
  - intros [HF H] [|i] [|j] a b Hij Ha Hb; cbn in *; try lia; simplify_eq.
    + rewrite Forall_lookup in HF. by eapply HF.
    + by apply (H i j); [lia| |].
Qed.

Lemma set_insert_ascending x l : ascending l -> ascending (set_insert x l).
Proof.
  induction l as [|y l IH]; intros Hl; cbn [set_insert].
  - apply ascending_cons. done.
  - apply ascending_cons in Hl as [Hy Hl].
    destruct (String.eqb_spec x y) as [->|Hne]; [by apply ascending_cons|].
    destruct (String.leb x y) eqn:E.
    + assert (Hxy : String.ltb x y = true) by by apply ltb_leb.
      rewrite !ascending_cons, Forall_cons. split_and!; try done.
      eapply Forall_impl; [done|]. intros z Hz. by eapply ltb_trans.
    + apply ascending_cons. split; [|by apply IH]. apply Forall_forall. intros z Hz.
      apply set_insert_elem in Hz as [->|Hz]; [|rewrite Forall_forall in Hy; by apply Hy].
      apply ltb_leb. split; [|congruence].
      destruct (total String.le x y) as [H|H]; unfold String.le in H; [by rewrite E in H|].
      by destruct (String.leb y x).
Qed.

Lemma btree_set_ascending l : ascending (btree_set l).
Proof.
  unfold btree_set. induction l as [|x l IH]; simpl; [by intros ??????|].
  by apply set_insert_ascending.
Qed.

(** Two ascending lists with the same names are the same list. *)
Lemma ascending_ext l1 l2 :
  ascending l1 -> ascending l2 -> (forall x, x ∈ l1 <-> x ∈ l2) -> l1 = l2.
Proof.
  revert l2. induction l1 as [|x l1 IH]; intros l2 H1 H2 He.
  - destruct l2 as [|y l2]; [done|]. exfalso. eapply not_elem_of_nil. apply He. left.
  - destruct l2 as [|y l2]; [exfalso; eapply not_elem_of_nil; apply He; left|].
    apply ascending_cons in H1 as [F1 H1], H2 as [F2 H2]. rewrite Forall_forall in F1, F2.
    assert (x = y) as ->.
    { assert (Hx : x ∈ y :: l2) by (apply He; left). assert (Hy : y ∈ x :: l1) by (apply He; left).
      rewrite elem_of_cons in Hx, Hy. destruct Hx as [|Hx]; [done|]. destruct Hy as [|Hy]; [done|].
      pose proof (ltb_trans x y x (F1 y Hy) (F2 x Hx)) as Hl. by rewrite ltb_irrefl in Hl. }
    f_equal. apply IH; [done|done|]. intros z. specialize (He z). rewrite !elem_of_cons in He.
    split; intros Hz.
    + destruct (proj1 He (or_intror Hz)) as [->|]; [|done]. pose proof (F1 _ Hz) as Hl.
      by rewrite ltb_irrefl in Hl.
    + destruct (proj2 He (or_intror Hz)) as [->|]; [|done]. pose proof (F2 _ Hz) as Hl.
      by rewrite ltb_irrefl in Hl.
Qed.

Lemma string_set_from_value_spec v s :
  string_set_from_value v = Some s <->
  exists l, v = JArr (map JStr l) /\ s = btree_set l.
Proof.
  unfold string_set_from_value. destruct v as [| | | |l|]; simpl; try naive_solver.
  split.
  - destruct (mapM as_str l) as [names|] eqn:E; simpl; [|done]. intros [= <-].
    exists names. split; [|done]. f_equal. apply mapM_Some in E.
    induction E as [|v n l' ns Hv E IH]; [done|]. simpl. rewrite <-IH. f_equal.
    by destruct v; simplify_eq/=.
  - intros (names & [= ->] & ->). assert (mapM as_str (map JStr names) = Some names) as ->; [|done].
    apply mapM_Some. induction names; simpl; by constructor.
Qed.
