(* ===== verification/Dispatcher.v ===== *)
(** * The dispatcher

    crates/sysknife-daemon/src/dispatcher.rs: who may act on a transaction, the
    platform fence, and every request handler, as programs of effects
    ([Effects.v]). [DispatcherEnv] is what the handlers take from serde_json,
    chrono and the generated [Display] implementations. Lines the daemon only
    writes to its own stderr are not modelled. *)

From Stdlib Require Import Ascii String NArith ZArith Lia.
From stdpp Require Import base list strings gmap.
From S2P Require Import Prelude Json Types Jobs Auth Redact Distro ActionFamily Framing Signing.
From S2P Require Import AuditChain Store Actions Policy Program Effects Bindings.

Class DispatcherEnv : Type := {
  json_display : json -> string;
  json_parse : string -> result string json;
  collected_to_value : CollectedState -> option json;
  parse_rfc3339 : string -> result string Z;
  show_store_error : StoreError -> string }.

(** The parts of [DaemonState] (state.rs) the handlers read; the store and the
    exclusion map are reached through effects. *)
Record DaemonState : Type := mkDaemonState {
  ds_request_hash_key : RequestHashKey;
  ds_policy : PolicyTable;
  ds_host_distro : option DistroId;
  ds_forwarder : bool }.

Definition DEFAULT_HISTORY_LIMIT : N := 20.
Definition TRANSACTION_ID_DISPLAY_PREFIX_LEN : nat := 8.
Definition TERMINAL_STATUS_RETRY_ATTEMPTS : nat := 3.
Definition TERMINAL_STATUS_RETRY_BACKOFF_MS : N := 25.

Definition UNATTENDED_WARNING : string :=
  "Approved without a human: this step was previewed by a client running with " ++
  "--dangerously-skip-approval, so no operator confirmed it.".

(** ** Requests (DaemonRequest) *)

Inductive DaemonRequest : Type :=
| QueryState (request_id : string)
| Preview (request_id action_name : string) (params : json) (unattended : bool)
| ApproveRequest (request_id transaction_id : string)
| ApprovalDetails (request_id transaction_id : string)
| ExecuteRequest (request_id transaction_id action_name : string) (params : json)
    (approval_receipt : string)
| CancelRequest (request_id transaction_id : string)
| QueryAction (request_id action_name : string) (params : json)
| QueryHistory (request_id : string) (limit : option N) (status_filter action_filter : option string)
    (since_hours : option N) (since : option string)
| Describe (request_id action_name : string) (params : json).

(** ** Sending *)

Definition send_response (response : DaemonResponse) : prog (result HandlerError ()) :=
  call (Send response).

Definition send_error (request_id category : string) (message : text)
    : prog (result HandlerError ()) :=
  send_response (ErrorResponse request_id category message).

(** [let _ = send_response(..).await] *)
Definition send_ignored (response : DaemonResponse) : prog () :=
  _ ← send_response response; Ret tt.

(** ** Authorization *)

Inductive Ownership : Type :=
| Owned
| NotOwned
| NoSuchTransaction
| CannotEstablish (message : string).

Definition not_your_transaction_message (transaction_id : string) : string :=
  "transaction " ++ transaction_id ++ " was created by a different account. An approval receipt "
  ++ "is proof that a specific account confirmed a specific preview, so only the account "
  ++ "that previewed an action can approve, cancel, inspect or execute it.".

Section Dispatcher.
Context `{DispatcherEnv} `{StoreEnv} `{Crypto} `{ActionCatalogue}.

Definition authorize_action (policy : PolicyTable) (caller : CallerRole) (name : string) : bool :=
  action_allowed policy caller name.

Definition authorization_failure_message (policy : PolicyTable) (caller : CallerRole)
    (name : string) : text :=
  match min_role_for_action policy name with
  | Some required => lit (denial_message name caller required)
  | None => lit ("action '" ++ name ++ "' is not allowed for " ++ role_debug caller ++ " role")
  end.

Definition caller_owns_transaction (caller : CallerAttribution) (transaction_id : string)
    : prog Ownership :=
  match att_principal caller with
  | Unattributed =>
      Ret (CannotEstablish
        ("this connection could not be attributed to an account, so it cannot approve, "
         ++ "cancel, inspect or execute a transaction. The daemon reports the peer as "
         ++ "unattributed when SO_PEERCRED fails or when the peer is not representable in "
         ++ "this daemon's user namespace."))
  | principal =>
      row ← call (FetchChainRow transaction_id);
      match row with
      | Err e => Ret (CannotEstablish ("failed to load transaction ownership: " ++ show_store_error e))
      | Ok None => Ret NoSuchTransaction
      | Ok (Some row) =>
          match cr_caller_principal row with
          | None =>
              Ret (CannotEstablish
                ("transaction " ++ transaction_id
                 ++ " records no owning account, so ownership cannot be established"))
          | Some owner =>
              if (owner =? as_signed_str principal)%string then Ret Owned else Ret NotOwned
          end
      end
  end.

(** The refusal an ownership answer stands for, if any. *)
Definition ownership_refusal (transaction_id : string) (o : Ownership) : option text :=
  match o with
  | Owned | NoSuchTransaction => None
  | NotOwned => Some (lit (not_your_transaction_message transaction_id))
  | CannotEstablish message => Some (lit message)
  end.

(** [Ok true]: proceed; [Ok false]: a response was already sent. *)
Definition authorize_for_transaction (state : DaemonState) (caller : CallerAttribution)
    (request_id transaction_id missing_category missing_message : string)
    : prog (result HandlerError bool) :=
  let refuse category message :=
    r ← send_error request_id category message; Ret (_ ← r; Ok false) in
  tx ← call (GetTx transaction_id);
  match tx with
  | Ok (Some transaction) =>
      o ← caller_owns_transaction caller transaction_id;
      match ownership_refusal transaction_id o with
      | Some message => refuse "authorization_failure" message
      | None =>
          if authorize_action (ds_policy state) (att_role caller) (tr_action_name transaction)
          then Ret (Ok true)
          else refuse "authorization_failure"
                 (authorization_failure_message (ds_policy state) (att_role caller)
                    (tr_action_name transaction))
      end
  | Ok None => refuse missing_category (lit missing_message)
  | Err e =>
      refuse "transient_infrastructure_failure"
        (lit ("failed to load transaction: " ++ show_store_error e))
  end.

Definition validate_action_platform (state : DaemonState) (name : string) : result text () :=
  let is_mutating :=
    match baseline_role name with Some role => role_ltb Observer role | None => false end in
  if negb (action_requires_distro name) && negb is_mutating then Ok tt
  else
    match ds_host_distro state with
    | None =>
        Err (lit ("cannot safely run " ++ name ++ ": host distribution could not be detected"))
    | Some distro =>
        if negb (is_supported distro)
        then Err (lit ("cannot run " ++ name ++ " on unsupported host " ++ distro_display distro
                       ++ "; see docs/distro-support.md"))
        else if negb (action_matches_distro name distro)
        then Err (lit ("action " ++ name ++ " is incompatible with supported host "
                       ++ distro_display distro))
        else Ok tt
    end.

Definition compute_request_hash (key : RequestHashKey) (name : string) (params : json) : string :=
  request_hash key name (canonical_json json_display params).

(** ** Approval *)

Definition STALE_APPROVE : string :=
  "transaction is missing, expired, already approved, or no longer queued".

Definition handle_approve (state : DaemonState) (caller : CallerAttribution)
    (request_id transaction_id : string) : prog (result HandlerError ()) :=
  authorized ← authorize_for_transaction state caller request_id transaction_id
                 "stale_approval" STALE_APPROVE;
  match authorized with
  | Err e => Ret (Err e)
  | Ok false => Ret (Ok tt)
  | Ok true =>
      receipt ← call (Approve transaction_id (att_principal caller));
      match receipt with
      | Err (DatabaseInvariant what) =>
          send_error request_id "integrity_failure"
            (lit ("approval rejected by an integrity check: "
                  ++ show_store_error (DatabaseInvariant what)))
      | Err e =>
          send_error request_id "transient_infrastructure_failure"
            (lit ("failed to persist approval: " ++ show_store_error e))
      | Ok None => send_error request_id "stale_approval" (lit STALE_APPROVE)
      | Ok (Some receipt) =>
          response ← send_response (ApprovalResponse request_id transaction_id receipt);
          match response with
          | Err e => _ ← call (Revoke transaction_id (att_principal caller)); Ret (Err e)
          | Ok _ => Ret (Ok tt)
          end
      end
  end.

Definition handle_approval_details (state : DaemonState) (caller : CallerAttribution)
    (request_id transaction_id : string) : prog (result HandlerError ()) :=
  o ← caller_owns_transaction caller transaction_id;
  match ownership_refusal transaction_id o with
  | Some message => send_error request_id "authorization_failure" message
  | None =>
      tx ← call (GetTx transaction_id);
      match tx with
      | Err e => send_error request_id "transient_infrastructure_failure"
                   (lit ("failed to load transaction: " ++ show_store_error e))
      | Ok None => send_error request_id "stale_approval"
                     (lit "transaction is missing or no longer queued")
      | Ok (Some transaction) =>
          if negb (bool_decide (tr_status transaction = Queued))
          then send_error request_id "stale_approval"
                 (lit "transaction is missing or no longer queued")
          else if negb (authorize_action (ds_policy state) (att_role caller)
                          (tr_action_name transaction))
          then send_error request_id "authorization_failure"
                 (authorization_failure_message (ds_policy state) (att_role caller)
                    (tr_action_name transaction))
          else
            preview ← call (GetPreview transaction_id);
            match preview with
            | Err e => send_error request_id "transient_infrastructure_failure"
                         (lit ("failed to load preview: " ++ show_store_error e))
            | Ok None => send_error request_id "stale_approval"
                           (lit "transaction has no persisted preview")
            | Ok (Some preview) =>
                send_response (ApprovalDetailsResponse request_id transaction_id
                  (tr_action_name transaction) preview)
            end
      end
  end.

Definition NOT_CANCELABLE : string :=
  "transaction cannot be canceled: it is missing, already executing, or finished".

Definition handle_cancel (state : DaemonState) (caller : CallerAttribution)
    (request_id transaction_id : string) : prog (result HandlerError ()) :=
  authorized ← authorize_for_transaction state caller request_id transaction_id
                 "not_cancelable" NOT_CANCELABLE;
  match authorized with
  | Err e => Ret (Err e)
  | Ok false => Ret (Ok tt)
  | Ok true =>
      canceled ← call (CancelQueued transaction_id (att_principal caller));
      match canceled with
      | Ok true => send_response (CancelResponse request_id transaction_id)
      | Ok false => send_error request_id "not_cancelable" (lit NOT_CANCELABLE)
      | Err e => send_error request_id "transient_infrastructure_failure"
                   (lit ("failed to cancel transaction: " ++ show_store_error e))
      end
  end.

(** ** Queries *)

Definition handle_query_state (host_distro : option DistroId) (request_id : string)
    : prog (result HandlerError ()) :=
  collected ← call CollectState;
  match collected with
  | Err (TaskPanicked e) => Ret (Err (HInternal (lit ("collect_state task failed: " ++ e))))
  | Err (RunFailed e) => send_error request_id "state_collection_failed" (lit e)
  | Ok s =>
      send_response (StateResponse request_id
        (mkCollected host_distro (cs_host_name s) (cs_deployment s) (cs_services s)
           (cs_flatpaks s) (cs_toolboxes s) (cs_layered_packages s) (cs_containers s)
           (cs_users s) (cs_machine_id_hash s)))
  end.

Definition resolve_history_since (since_hours : option N) (since : option string)
    : result text (option HistorySince) :=
  match since_hours, since with
  | Some _, Some _ => Err (lit "'since' and 'since_hours' are mutually exclusive")
  | Some hours, None => Ok (Some (Hours (Z.of_N hours)))
  | None, Some raw =>
      match parse_rfc3339 raw with
      | Ok at_ms => Ok (Some (Cutoff at_ms))
      | Err e => Err [Lit "'since' must be an RFC 3339 datetime, got "; Dbg raw; Lit (": " ++ e)]
      end
  | None, None => Ok None
  end.

Definition handle_query_history (state : DaemonState) (request_id : string) (limit : option N)
    (status_filter action_filter : option string) (since_hours : option N)
    (since : option string) : prog (result HandlerError ()) :=
  match min_role_for_action (ds_policy state) "ListJobHistory" with
  | Some Observer =>
      match resolve_history_since since_hours since with
      | Err message => send_error request_id "validation_failure" message
      | Ok since =>
          entries ← call (ListHistory (default DEFAULT_HISTORY_LIMIT limit) status_filter
                            action_filter since);
          match entries with
          | Ok entries => send_response (HistoryResponse request_id entries)
          | Err e => send_error request_id "execution_failure"
                       (lit ("failed to query transaction history: " ++ show_store_error e))
          end
      end
  | Some _ =>
      send_error request_id "authorization_failure"
        (lit ("history has been restricted above read-only by policy; "
              ++ "it is not available over the structured query path"))
  | None =>
      send_error request_id "validation_failure" (lit "ListJobHistory action is not registered")
  end.

(** [{:n}]: padded on the right to [n] characters. A character is a byte that
    does not continue a UTF-8 sequence. *)
Fixpoint char_count (s : string) : nat :=
  match s with
  | EmptyString => 0
  | String c s' => (if between 128 191 c then 0 else 1) + char_count s'
  end.
Fixpoint spaces (n : nat) : string :=
  match n with O => "" | S n' => String " " (spaces n') end.
Definition pad_to (n : nat) (s : string) : string := s ++ spaces (n - char_count s).
(** [chars().take(n).collect()] *)
Fixpoint take_chars (n : nat) (s : string) : string :=
  match s with
  | EmptyString => ""
  | String c s' =>
      if between 128 191 c then String c (take_chars n s')
      else match n with O => "" | S n' => String c (take_chars n' s') end
  end.

Definition format_job_history (records : list TransactionRecord) : string :=
  match records with
  | [] => "No transactions found."
  | _ =>
      "Transaction history (" ++ dec_of_N (N.of_nat (length records)) ++ " entries):"
      ++ String LF (String LF "")
      ++ join "" (map (fun r : TransactionRecord =>
           ("  " ++ take_chars TRANSACTION_ID_DISPLAY_PREFIX_LEN (tr_transaction_id r)
           ++ "  " ++ pad_to 30 (tr_action_name r)
           ++ "  " ++ pad_to 12 (to_lower (state_debug (tr_status r)))
           ++ "  " ++ tr_summary r ++ String LF "")%string) records)
  end.

(** [n as u32] *)
Definition as_u32 (n : N) : N := N.land n U32_MAX.

(** [params.get(key)] as an integer or a string: absent, or the value, or the
    refusal the handler answers. *)
Definition history_int (params : json) (key : string) : result text (option N) :=
  match jget key params with
  | None => Ok None
  | Some v =>
      match as_u64 v with
      | Some n => Ok (Some (as_u32 n))
      | None => Err (lit ("'" ++ key ++ "' must be an integer, got: " ++ json_display v))
      end
  end.
Definition history_since_str (params : json) : result text (option string) :=
  match jget "since" params with
  | None => Ok None
  | Some v =>
      match as_str v with
      | Some s => Ok (Some s)
      | None =>
          Err (lit ("'since' must be an RFC 3339 datetime string, got: " ++ json_display v))
      end
  end.

Definition history_text (records : list TransactionRecord)
    (status_filter action_filter : option string) (since_hours : option N)
    (since_cutoff : option string) : string :=
  match records with
  | [] =>
      let filters :=
        option_list ((fun s => ("status=" ++ s)%string) <$> status_filter)
        ++ option_list ((fun a => ("action=" ++ a)%string) <$> action_filter)
        ++ option_list ((fun h => ("since_hours=" ++ dec_of_N h)%string) <$> since_hours)
        ++ option_list ((fun c => ("since=" ++ c)%string) <$> since_cutoff) in
      "No transactions found"
      ++ match filters with [] => "" | _ => " (filters: " ++ join ", " filters ++ ")" end ++ "."
  | _ => format_job_history records
  end.

(** The [ListJobHistory] branch of [handle_query_action]. *)
Definition query_job_history (name : string) (params : json) (request_id : string)
    : prog (result HandlerError ()) :=
  let parsed : result text (N * option N * option string * option HistorySince) :=
    _ ← match validate_action_params name params with
        | Ok _ => Ok tt
        | Err e => Err (lit (show_executor_error e))
        end;
    limit ← history_int params "limit";
    since_hours ← history_int params "since_hours";
    since_cutoff ← history_since_str params;
    since ← resolve_history_since since_hours since_cutoff;
    Ok (default DEFAULT_HISTORY_LIMIT limit, since_hours, since_cutoff, since) in
  match parsed with
  | Err message => send_error request_id "validation_failure" message
  | Ok (limit, since_hours, since_cutoff, since) =>
      let status_filter := jget "status_filter" params ≫= as_str in
      let action_filter := jget "action_filter" params ≫= as_str in
      records ← call (ListTransactions limit status_filter action_filter since);
      match records with
      | Err e => send_error request_id "execution_failure"
                   (lit ("failed to query transaction log: " ++ show_store_error e))
      | Ok records =>
          send_response (QueryActionResponse request_id name
            (lit (history_text records status_filter action_filter since_hours since_cutoff)))
      end
  end.

Definition informational_exit (name : string) (code : Z) : bool :=
  (name =? "GetServiceStatus")%string && (1 <=? code)%Z && (code <=? 4)%Z.

Definition handle_query_action (state : DaemonState) (name : string) (params : json)
    (request_id : string) : prog (result HandlerError ()) :=
  match min_role_for_action (ds_policy state) name with
  | None => send_error request_id "validation_failure" (lit ("unknown action: " ++ name))
  | Some min_role =>
      if negb (bool_decide (min_role = Observer))
      then send_error request_id "authorization_failure"
             (lit (name ++ " is not a read-only action; use preview+execute instead"))
      else if str_in name OBSERVER_MUTATING_ACTIONS
      then send_error request_id "authorization_failure"
             (lit (name ++ " mutates the host and is not available through query_action; "
                   ++ "use preview+execute instead"))
      else
        match validate_action_platform state name with
        | Err message => send_error request_id "unsupported_platform" message
        | Ok _ =>
            if (name =? "ListJobHistory")%string then query_job_history name params request_id
            else
              match build_action_spec name params with
              | Err e => send_error request_id "validation_failure" (lit (show_executor_error e))
              | Ok spec =>
                  output ← call (ExecuteQuiet spec);
                  match output with
                  | Err e => send_error request_id "execution_failure" (lit (show_executor_error e))
                  | Ok out =>
                      if is_nonzero out && negb (informational_exit name (exit_code out))
                      then send_error request_id "execution_failure"
                             (lit (name ++ " failed with exit code " ++ dec_of_Z (exit_code out)
                                   ++ if is_empty (str_trim (stderr out)) then ""
                                      else ": " ++ str_trim (stderr out)))
                      else
                        send_response (QueryActionResponse request_id name
                          (lit (if is_empty (stderr out) then stdout out
                                else stdout out ++ String LF ("[stderr]" ++ String LF (stderr out)))))
                  end
              end
        end
  end.

Definition describe_command (name : string) (params : json) (spec : ActionSpec) : string :=
  match mechanism spec with
  | Command program args =>
      match redact_argv name params args with
      | [] => program
      | display_args => program ++ " " ++ join " " display_args
      end
  | FileScan path => "read " ++ path
  | FileWrite path _ => "write " ++ path
  | FilePatch path _ _ => "patch " ++ path
  | FileDelete path => "rm " ++ path
  end.

(** [format!("{:?}", risk).to_lowercase()] *)
Definition risk_lower (r : RiskLevel) : string :=
  match r with Low => "low" | Medium => "medium" | High => "high" end.

Definition handle_describe (state : DaemonState) (caller : CallerAttribution) (name : string)
    (params : json) (request_id : string) : prog (result HandlerError ()) :=
  match min_role_for_action (ds_policy state) name with
  | None => send_error request_id "validation_failure" (lit ("unknown action: " ++ name))
  | Some _ =>
      if negb (authorize_action (ds_policy state) (att_role caller) name)
      then send_error request_id "authorization_failure"
             (authorization_failure_message (ds_policy state) (att_role caller) name)
      else
        match validate_action_platform state name with
        | Err message => send_error request_id "unsupported_platform" message
        | Ok _ =>
            if (name =? "ListJobHistory")%string
            then send_response (DescribeResponse request_id
                   (lit "query daemon job history (SQLite)") "low" false)
            else
              match build_action_spec name params with
              | Err e => send_error request_id "validation_failure"
                  (lit ("unknown action: " ++ name ++ " (" ++ show_executor_error e ++ ")"))
              | Ok spec =>
                  send_response (DescribeResponse request_id
                    (lit (describe_command name params spec)) (risk_lower (spec_risk_level spec))
                    (spec_reboot_required spec))
              end
        end
  end.

(** ** Preview *)

(** [runner.run(..)] offloaded to the blocking pool. *)
Definition simulate_autoremove_set : prog (result string (list string)) :=
  out ← call (RunProgram "apt-get" ["-s"; "autoremove"]);
  Ret match out with
      | Ok out => Ok (parse_autoremove_removals out)
      | Err (RunFailed e) => Err ("apt-get -s autoremove failed: " ++ e)%string
      | Err (TaskPanicked e) => Err ("autoremove simulate task panicked: " ++ e)%string
      end.

Definition resolve_deployment_identity (index : N) : prog (result string string) :=
  out ← call (RunProgram "rpm-ostree" ["status"; "--json"]);
  Ret match out with
      | Ok out => parse_deployment_identity json_parse out index
      | Err (RunFailed e) => Err ("rpm-ostree status --json failed: " ++ e)%string
      | Err (TaskPanicked e) => Err ("deployment status task panicked: " ++ e)%string
      end.

(** [proposed_change[key] = v] on the object under construction. *)
Definition jset (key : string) (v : json) (o : json) : json :=
  match o with JObj m => JObj (m ++ [(key, v)]) | _ => o end.

Definition is_deployment_pin (name : string) : bool :=
  str_in name ["PinDeployment"; "UnpinDeployment"].

(** The autoremove set captured at preview time, and its warning. *)
Definition capture_autoremove (name : string) (change : json) : prog (json * option string) :=
  if (name =? "AptAutoremove")%string then
    set ← simulate_autoremove_set;
    Ret match set with
        | Ok set =>
            (jset AUTOREMOVE_REMOVALS_KEY (JArr (map JStr set)) change,
             autoremove_kernel_warning set)
        | Err _ =>
            (change, Some ("Could not compute which packages autoremove would delete; approving this "
                           ++ "preview will not let it run until a preview captures the set.")%string)
        end
  else Ret (change, None).

Definition capture_deployment (name : string) (params change : json)
    : prog (json * option string) :=
  if is_deployment_pin name then
    match jget "index" params ≫= as_u64 with
    | Some index =>
        identity ← resolve_deployment_identity (as_u32 index);
        Ret match identity with
            | Ok identity => (jset DEPLOYMENT_IDENTITY_KEY (JStr identity) change, None)
            | Err _ =>
                (change, Some ("Could not read which deployment sits at that index; approving this "
                               ++ "preview will not let it run until a preview captures one.")%string)
            end
    | None => Ret (change, Some "No deployment index was supplied, so nothing could be bound.")
    end
  else Ret (change, None).

Definition STATE_UNAVAILABLE_WARNING : string :=
  "System state could not be collected; this preview was generated without it. "
  ++ "Review the action carefully before approving.".

Definition push_warnings (p : PreviewEnvelope) (more : list string) : PreviewEnvelope :=
  mkPreviewEnvelope (prv_summary p) (prv_risk_level p) (prv_current_state p)
    (prv_proposed_change p) (prv_expected_side_effects p) (prv_reboot_required p)
    (prv_rollback_available p) (prv_warnings p ++ more) (prv_request_hash p).

Definition handle_preview (state : DaemonState) (caller : CallerAttribution)
    (request_id name : string) (params : json) (unattended : bool)
    : prog (result HandlerError ()) :=
  match build_action_spec name params with
  | Err e => send_error request_id "validation_failure" (lit (show_executor_error e))
  | Ok spec =>
      if negb (authorize_action (ds_policy state) (att_role caller) name)
      then send_error request_id "authorization_failure"
             (authorization_failure_message (ds_policy state) (att_role caller) name)
      else
        match validate_action_platform state name with
        | Err message => send_error request_id "unsupported_platform" message
        | Ok _ =>
            let request_hash := compute_request_hash (ds_request_hash_key state) name params in
            collected ← call CollectState;
            let current_state :=
              match collected with
              | Ok s => default JNull (collected_to_value s)
              | Err _ => JNull
              end in
            let proposed_change :=
              JObj [("action", JStr name); ("params", redact_params name params)] in
            '(proposed_change, autoremove_warning) ← capture_autoremove name proposed_change;
            '(proposed_change, deployment_warning) ← capture_deployment name params proposed_change;
            let envelope := mkRequestEnvelope name request_id params (att_role caller) request_hash in
            let preview := push_warnings (preview_action envelope current_state proposed_change)
              (option_list autoremove_warning ++ option_list deployment_warning
               ++ (if is_null current_state then [STATE_UNAVAILABLE_WARNING] else [])
               ++ (if unattended then [UNATTENDED_WARNING] else [])) in
            let new_tx := mkNewTransaction request_id request_hash name (spec_risk_level spec)
              (prv_summary preview) (prv_warnings preview) (att_role caller)
              (att_principal caller) in
            recorded ← call (RecordPreviewed new_tx preview);
            match recorded with
            | Err e => send_error request_id "transient_infrastructure_failure"
                         (lit ("failed to record preview transaction: " ++ show_store_error e))
            | Ok transaction =>
                _ ← (if ds_forwarder state
                     then call (ForwardAudit (tr_transaction_id transaction) (att_role caller) None)
                     else Ret tt);
                send_response (PreviewResponse request_id preview (tr_transaction_id transaction))
            end
        end
  end.

(** ** Execute *)

(** The locks a request will hold while it runs. *)
Definition is_high_risk_reboot (spec : ActionSpec) : bool :=
  bool_decide (spec_risk_level spec = High) && spec_reboot_required spec.

Definition execute_is_mutating (policy : PolicyTable) (name : string) (spec : ActionSpec) : bool :=
  match min_role_for_action policy name with
  | Some r => role_ltb Observer r
  | None => true
  end || is_high_risk_reboot spec.

Definition resources_to_claim (mutating : bool) (spec : ActionSpec) : list ExclusiveResource :=
  if mutating then
    let to_claim := if is_high_risk_reboot spec then [System] else [] in
    match exclusive_resource spec with
    | Some r => if bool_decide (r ∈ to_claim) then to_claim else to_claim ++ [r]
    | None => to_claim
    end
  else [].

Definition conflict_message (blocking : ExclusiveResource) (running_hash : string) : string :=
  "another mutating action is already executing and holds " ++ label blocking ++ " (request_hash "
  ++ running_hash ++ "); retry after the current job completes. This approval "
  ++ "expires " ++ dec_of_Z APPROVAL_RECEIPT_TTL_MINUTES
  ++ " minutes after it was issued, and that window is anchored to "
  ++ "when the preview was created — re-running `sysknife approve` on this same "
  ++ "transaction will not renew it. If the running job is still going once the "
  ++ "window has passed, re-run the preview (which mints a fresh transaction) and "
  ++ "approve that new transaction instead".

(** The preview an execution is checked against: the refusal's category and
    text, or the preview. *)
Definition approved_preview (transaction_id : string)
    : prog (result (string * text) PreviewEnvelope) :=
  p ← call (GetPreview transaction_id);
  Ret match p with
      | Ok (Some p) => Ok p
      | Ok None => Err ("stale_approval",
          lit "no persisted preview for this transaction; preview before executing")
      | Err e => Err ("transient_infrastructure_failure",
          lit ("preview lookup failed: " ++ show_store_error e))
      end.

Definition check_autoremove (transaction_id name : string)
    : prog (result (string * text) ()) :=
  if (name =? "AptAutoremove")%string then
    p ← approved_preview transaction_id;
    match p with
    | Err refusal => Ret (Err refusal)
    | Ok p =>
        live ← simulate_autoremove_set;
        Ret match live with
            | Err e => Err ("execution_failure",
                lit ("could not confirm the autoremove set before executing: " ++ e))
            | Ok live =>
                match verify_autoremove_binding (prv_proposed_change p) live with
                | Err reason => Err ("stale_approval", lit reason)
                | Ok _ => Ok tt
                end
            end
    end
  else Ret (Ok tt).

Definition check_deployment (transaction_id name : string) (params : json)
    : prog (result (string * text) ()) :=
  if is_deployment_pin name then
    p ← approved_preview transaction_id;
    match p with
    | Err refusal => Ret (Err refusal)
    | Ok p =>
        match jget "index" params ≫= as_u64 with
        | None => Ret (Err ("validation_failure",
            lit "no deployment index was supplied, so the approval cannot be bound to one"))
        | Some index =>
            live ← resolve_deployment_identity (as_u32 index);
            Ret match live with
                | Err e => Err ("execution_failure",
                    lit ("could not confirm which deployment is at that index: " ++ e))
                | Ok live =>
                    match verify_deployment_binding (prv_proposed_change p) live with
                    | Err reason => Err ("stale_approval", lit reason)
                    | Ok _ => Ok tt
                    end
                end
        end
    end
  else Ret (Ok tt).

(** [release_exclusive_slots]: nothing to do when nothing was claimed. *)
Definition release_exclusive_slots (claimed : list ExclusiveResource) (hash : string) : prog () :=
  match claimed with [] => Ret tt | _ => call (Release claimed hash) end.

(** [AuditStore::update_status]: read, then compare-and-swap. *)
Definition update_status_effects (id : string) (target : JobState) : prog (result StoreError ()) :=
  current ← call (ReadTransition id target);
  match current with
  | Err e => Ret (Err e)
  | Ok current => call (CasStatus id current target)
  end.

Fixpoint update_terminal_attempts (left : nat) (attempt : N) (id : string) (target : JobState)
    : prog (result StoreError ()) :=
  done ← update_status_effects id target;
  match done with
  | Ok _ => Ret (Ok tt)
  | Err error =>
      record ← call (GetTx id);
      if match record with
         | Ok (Some r) => bool_decide (tr_status r = target)
         | _ => false
         end
      then Ret (Ok tt)
      else
        match left with
        | O => Ret (Err error)
        | S left' =>
            _ ← call (Sleep (TERMINAL_STATUS_RETRY_BACKOFF_MS * (attempt + 1)));
            update_terminal_attempts left' (attempt + 1) id target
        end
  end.

Definition update_terminal_status (id : string) (target : JobState)
    : prog (result StoreError ()) :=
  update_terminal_attempts (TERMINAL_STATUS_RETRY_ATTEMPTS - 1) 0 id target.

Definition is_not_stopped (output : result ExecutorError ExecutionOutput) : bool :=
  match output with Err (ActionNotStopped _ _ _) => true | _ => false end.

(** How the run ended, before any rollback: the status and its summary. *)
Definition initial_outcome (name : string) (spec : ActionSpec)
    (output : result ExecutorError ExecutionOutput) : JobState * string :=
  match output with
  | Ok out =>
      if is_success out then
        if spec_reboot_required spec then (NeedsReboot, (name ++ " completed; reboot required")%string)
        else (Succeeded, (name ++ " completed successfully")%string)
      else (Failed, (name ++ " failed with exit code " ++ dec_of_Z (exit_code out))%string)
  | Err e => (Failed, (name ++ " failed: " ++ show_executor_error e)%string)
  end.

Definition completion_line (name : string) (output : result ExecutorError ExecutionOutput)
    : string :=
  match output with
  | Ok out => name ++ " completed with exit code " ++ dec_of_Z (exit_code out)
  | Err e => name ++ " completed with error: " ++ show_executor_error e
  end.

Definition progress (job_id line : string) : prog () := send_ignored (JobProgress job_id (lit line)).

Definition attempt_rollback_if_needed (job_id name : string) (spec : ActionSpec)
    (status : JobState) (summary : string) (action_may_still_be_running : bool)
    : prog (JobState * string * option string) :=
  if negb (bool_decide (status = Failed)) || negb (spec_rollback_available spec)
  then Ret (status, summary, None)
  else if action_may_still_be_running then
    _ ← progress job_id
          (name ++ " could not be confirmed stopped, so automatic rollback was "
           ++ "skipped: rolling back over a running transaction would be worse than "
           ++ "leaving it. Inspect the host before retrying.");
    Ret (status, (summary ++ " (automatic rollback skipped)")%string, None)
  else
    match rollback_spec_for name with
    | None => Ret (status, summary, None)
    | Some rb_spec =>
        _ ← progress job_id
              (name ++ " failed — attempting automatic rollback via rpm-ostree rollback");
        rb ← call (ExecuteQuiet rb_spec);
        match rb with
        | Ok rb_out =>
            if is_success rb_out then
              _ ← progress job_id "Rollback succeeded — previous deployment restored";
              Ret (RolledBack,
                   (name ++ " failed and was automatically rolled back to the previous deployment")%string,
                   Some "rpm-ostree rollback")
            else
              _ ← progress job_id ("Rollback also failed (exit code " ++ dec_of_Z (exit_code rb_out)
                                   ++ ") — system may need manual intervention");
              Ret (status, summary, None)
        | Err e =>
            _ ← progress job_id ("Rollback also failed (" ++ show_executor_error e
                                 ++ ") — system may need manual intervention");
            Ret (status, summary, None)
        end
    end.

Definition job_state_str (s : JobState) : string :=
  match s with
  | Queued => "queued" | Running => "running" | Succeeded => "succeeded" | Failed => "failed"
  | Canceled => "canceled" | RolledBack => "rolled_back" | NeedsReboot => "needs_reboot"
  end.

(** Everything after the job ran: the rollback, the locks, the stored outcome
    and the final frame. *)
Definition finish_execution (state : DaemonState) (caller : CallerAttribution)
    (transaction_id name job_id : string) (spec : ActionSpec)
    (to_claim : list ExclusiveResource) (stored_hash : string)
    (output : result ExecutorError ExecutionOutput) : prog (result HandlerError ()) :=
  let '(initial_status, initial_summary) := initial_outcome name spec output in
  _ ← progress job_id (completion_line name output);
  let action_may_still_be_running := is_not_stopped output in
  '(final_status, summary, rollback_ref) ← attempt_rollback_if_needed job_id name spec
     initial_status initial_summary action_may_still_be_running;
  _ ← (if action_may_still_be_running then Ret tt
       else release_exclusive_slots to_claim stored_hash);
  updated ← update_terminal_status transaction_id final_status;
  warnings ← match updated with
             | Ok _ =>
                 _ ← (if ds_forwarder state
                      then call (ForwardAudit transaction_id (att_role caller) (Some final_status))
                      else Ret tt);
                 Ret []
             | Err e => Ret [lit ("audit trail update failed: " ++ show_store_error e)]
             end;
  send_response (JobCompleted job_id
    (mkJobResult (job_state_str final_status) (lit summary) warnings job_id
       (bool_decide (final_status = NeedsReboot)) rollback_ref transaction_id)).

(** From [JobStarted] on. The executor streams its output lines; they are sent as
    they come and the rest once it is done, each failed send ignored. *)
Definition run_claimed (state : DaemonState) (caller : CallerAttribution)
    (request_id transaction_id name : string) (spec : ActionSpec)
    (to_claim : list ExclusiveResource) (stored_hash : string) : prog (result HandlerError ()) :=
  job_id ← call NewJobId;
  started ← send_response (JobStarted request_id job_id transaction_id);
  match started with
  | Err send_error =>
      _ ← release_exclusive_slots to_claim stored_hash;
      _ ← update_terminal_status transaction_id Failed;
      Ret (Err send_error)
  | Ok _ =>
      _ ← progress job_id ("Authorization passed for " ++ name);
      _ ← progress job_id ("Executing " ++ name ++ "...");
      '(lines, output) ← call (Execute spec);
      _ ← for_each lines (progress job_id);
      finish_execution state caller transaction_id name job_id spec to_claim stored_hash output
  end.

(** The claim and the checks made on what it claimed. *)
Definition claim_and_run (state : DaemonState) (caller : CallerAttribution)
    (request_id transaction_id name : string) (params : json) (approval_receipt : string)
    (spec : ActionSpec) (to_claim : list ExclusiveResource) (stored_hash : string)
    : prog (result HandlerError ()) :=
  let refuse category message :=
    _ ← release_exclusive_slots to_claim stored_hash; send_error request_id category message in
  claimed ← call (Claim transaction_id (approval_receipt_digest approval_receipt)
                    (att_principal caller));
  match claimed with
  | Err e => refuse "transient_infrastructure_failure"
               (lit ("failed to claim transaction: " ++ show_store_error e))
  | Ok false => refuse "stale_approval"
      (lit "transaction is not approved for this receipt, expired, or already consumed")
  | Ok true =>
      autoremove ← check_autoremove transaction_id name;
      match autoremove with
      | Err (category, message) => refuse category message
      | Ok _ =>
          deployment ← check_deployment transaction_id name params;
          match deployment with
          | Err (category, message) => refuse category message
          | Ok _ => run_claimed state caller request_id transaction_id name spec to_claim stored_hash
          end
      end
  end.

(** The concurrency gate. *)
Definition gate_and_claim (state : DaemonState) (caller : CallerAttribution)
    (request_id transaction_id name : string) (params : json) (approval_receipt : string)
    (spec : ActionSpec) (stored_hash : string) : prog (result HandlerError ()) :=
  let is_mutating := execute_is_mutating (ds_policy state) name spec in
  let to_claim := resources_to_claim is_mutating spec in
  let proceed := claim_and_run state caller request_id transaction_id name params approval_receipt
                   spec to_claim stored_hash in
  if is_mutating then
    blocking ← call (TryClaim (exclusive_resource spec) to_claim stored_hash);
    match blocking with
    | Some (resource, running_hash) =>
        send_response (ConflictResponse request_id (lit (conflict_message resource running_hash))
                         None)
    | None => proceed
    end
  else proceed.

Definition handle_execute (state : DaemonState) (caller : CallerAttribution)
    (request_id transaction_id name : string) (params : json) (approval_receipt : string)
    : prog (result HandlerError ()) :=
  match build_action_spec name params with
  | Err e => send_error request_id "validation_failure" (lit (show_executor_error e))
  | Ok spec =>
      o ← caller_owns_transaction caller transaction_id;
      match ownership_refusal transaction_id o with
      | Some message => send_error request_id "authorization_failure" message
      | None =>
          if negb (authorize_action (ds_policy state) (att_role caller) name)
          then send_error request_id "authorization_failure"
                 (authorization_failure_message (ds_policy state) (att_role caller) name)
          else
            match validate_action_platform state name with
            | Err message => send_error request_id "unsupported_platform" message
            | Ok _ =>
                let submitted_hash :=
                  compute_request_hash (ds_request_hash_key state) name params in
                prior_tx ← call (GetTx transaction_id);
                match prior_tx with
                | Err e => send_error request_id "transient_infrastructure_failure"
                             (lit ("transaction lookup failed: " ++ show_store_error e))
                | Ok None => send_error request_id "stale_approval"
                    (lit "no prior preview found for this transaction; preview before executing")
                | Ok (Some prior_tx) =>
                    if negb (tr_action_name prior_tx =? name)%string
                       || negb (tr_request_hash prior_tx =? submitted_hash)%string
                    then send_error request_id "stale_approval"
                           (lit "action or parameters differ from the approved preview")
                    else gate_and_claim state caller request_id transaction_id name params
                           approval_receipt spec (tr_request_hash prior_tx)
                end
            end
      end
  end.

(** ** The dispatch of one request *)

Definition handle_request (state : DaemonState) (caller : CallerAttribution) (r : DaemonRequest)
    : prog (result HandlerError ()) :=
  match r with
  | QueryState request_id => handle_query_state (ds_host_distro state) request_id
  | Preview request_id name params unattended =>
      handle_preview state caller request_id name params unattended
  | ExecuteRequest request_id transaction_id name params receipt =>
      handle_execute state caller request_id transaction_id name params receipt
  | ApproveRequest request_id transaction_id => handle_approve state caller request_id transaction_id
  | ApprovalDetails request_id transaction_id =>
      handle_approval_details state caller request_id transaction_id
  | QueryAction request_id name params => handle_query_action state name params request_id
  | QueryHistory request_id limit status_filter action_filter since_hours since =>
      handle_query_history state request_id limit status_filter action_filter since_hours since
  | Describe request_id name params => handle_describe state caller name params request_id
  | CancelRequest request_id transaction_id => handle_cancel state caller request_id transaction_id
  end.
End Dispatcher.

(** ** The exclusion map under its mutex *)

Abbreviation Slots := (gmap ExclusiveResource string).

Definition blocking_slot (own : option ExclusiveResource) (slots : Slots)
    : option (ExclusiveResource * string) :=
  match slots !! System with
  | Some h => Some (System, h)
  | None => r ← own; h ← slots !! r; Some (r, h)
  end.

Definition try_claim (own : option ExclusiveResource) (to_claim : list ExclusiveResource)
    (hash : string) (slots : Slots) : option (ExclusiveResource * string) * Slots :=
  match blocking_slot own slots with
  | Some b => (Some b, slots)
  | None => (None, fold_left (fun m r => <[r := hash]> m) to_claim slots)
  end.

Definition release_slots (claimed : list ExclusiveResource) (hash : string) (slots : Slots) : Slots :=
  fold_left (fun m r => if bool_decide (m !! r = Some hash) then delete r m else m) claimed slots.
