(* ===== verification/Handlers.v ===== *)
(** * Properties of the request handlers

    Statements about every run of a handler of [Dispatcher.v], whatever the
    store, the host and the client answer, including other connections acting
    between any two effects. A run is the list of its effects with their
    answers. *)

From Stdlib Require Import Ascii String NArith ZArith Lia.
From stdpp Require Import base list sets strings gmap.
From S2P Require Import Prelude Json Types Jobs Auth Distro AuditChain Signing Store Catalogue.
From S2P Require Import Preview Actions Policy Program Effects Bindings Dispatcher.

(** ** Classes of effects *)

Definition not_execute X (e : effect X) : Prop :=
  match e with Execute _ => False | _ => True end.
Definition not_release X (e : effect X) : Prop :=
  match e with Release _ _ => False | _ => True end.
(** What a check after the claim may do. *)
Definition check_effect X (e : effect X) : Prop :=
  match e with GetPreview _ | RunProgram _ _ => True | _ => False end.
(** What [finish_execution] may do. *)
Definition finish_effect X (e : effect X) : Prop :=
  match e with
  | Send _ | ExecuteQuiet _ | Release _ _ | ReadTransition _ _ | CasStatus _ _ _ | GetTx _
  | Sleep _ | ForwardAudit _ _ _ => True
  | _ => False
  end.

(** Effects that touch neither the locks nor a transaction's status, and run no
    action under a claim. *)
Definition quiet X (e : effect X) : Prop :=
  match e with
  | TryClaim _ _ _ | Release _ _ | Execute _ | Claim _ _ _ | CasStatus _ _ _
  | ReadTransition _ _ => False
  | _ => True
  end.

(** The transaction a request would execute. *)
Definition executes (r : DaemonRequest) : option string :=
  match r with ExecuteRequest _ id _ _ _ => Some id | _ => None end.

Section Parts.
Context `{DispatcherEnv} `{StoreEnv} `{Crypto} `{ActionCatalogue}.

Lemma progress_only job_id line : only finish_effect (progress job_id line).
Proof. unfold progress, send_ignored, send_response. repeat ostep; done. Qed.

Lemma release_only claimed hash : only finish_effect (release_exclusive_slots claimed hash).
Proof. unfold release_exclusive_slots. repeat ostep; done. Qed.

Lemma update_status_only id target : only finish_effect (update_status_effects id target).
Proof. unfold update_status_effects. repeat ostep; done. Qed.

Lemma update_terminal_only id target : only finish_effect (update_terminal_status id target).
Proof.
  unfold update_terminal_status. generalize 0%N as attempt.
  induction (TERMINAL_STATUS_RETRY_ATTEMPTS - 1) as [|n IH]; intros attempt;
    cbn [update_terminal_attempts]; repeat ostep; auto using update_status_only; done.
Qed.

Lemma rollback_only job_id name spec status summary running :
  only finish_effect (attempt_rollback_if_needed job_id name spec status summary running).
Proof.
  unfold attempt_rollback_if_needed. repeat ostep; auto using progress_only; done.
Qed.

Lemma finish_only state caller id name job_id spec to_claim hash output :
  only finish_effect (finish_execution state caller id name job_id spec to_claim hash output).
Proof.
  unfold finish_execution, send_response.
  repeat (ostep; auto using progress_only, rollback_only, release_only, update_terminal_only); done.
Qed.

Lemma progress_quiet job_id line : only quiet (progress job_id line).
Proof. unfold progress, send_ignored, send_response. repeat ostep; done. Qed.

Lemma owns_quiet caller id : only quiet (caller_owns_transaction caller id).
Proof. unfold caller_owns_transaction. repeat ostep; done. Qed.

Lemma authorize_quiet state caller rid id cat msg :
  only quiet (authorize_for_transaction state caller rid id cat msg).
Proof.
  unfold authorize_for_transaction, send_error, send_response.
  repeat (ostep; auto using owns_quiet); done.
Qed.

Lemma check_autoremove_only id name : only check_effect (check_autoremove id name).
Proof.
  unfold check_autoremove, approved_preview, simulate_autoremove_set. repeat ostep; done.
Qed.

Lemma check_deployment_only id name params : only check_effect (check_deployment id name params).
Proof.
  unfold check_deployment, approved_preview, resolve_deployment_identity. repeat ostep; done.
Qed.

Lemma check_effect_quiet X (e : effect X) : check_effect X e -> quiet X e.
Proof. by destruct e. Qed.

Lemma check_autoremove_quiet id name : only quiet (check_autoremove id name).
Proof. apply (only_mono check_effect), check_autoremove_only. apply check_effect_quiet. Qed.

Lemma check_deployment_quiet id name params : only quiet (check_deployment id name params).
Proof. apply (only_mono check_effect), check_deployment_only. apply check_effect_quiet. Qed.

Lemma rollback_quiet job_id name spec status summary running :
  only quiet (attempt_rollback_if_needed job_id name spec status summary running).
Proof.
  unfold attempt_rollback_if_needed. repeat ostep; auto using progress_quiet; done.
Qed.

(** Every request but an execution is quiet. *)
Lemma handle_other_quiet state caller r :
  executes r = None -> only quiet (handle_request state caller r).
Proof.
  destruct r; cbn [handle_request executes]; try done; intros _.
  - unfold handle_query_state, send_error, send_response. repeat ostep; done.
  - unfold handle_preview, capture_autoremove, capture_deployment, simulate_autoremove_set,
      resolve_deployment_identity, send_error, send_response. repeat ostep; done.
  - unfold handle_approve, send_error, send_response.
    repeat (ostep; auto using authorize_quiet); done.
  - unfold handle_approval_details, send_error, send_response.
    repeat (ostep; auto using owns_quiet); done.
  - unfold handle_cancel, send_error, send_response.
    repeat (ostep; auto using authorize_quiet); done.
  - unfold handle_query_action, query_job_history, send_error, send_response. repeat ostep; done.
  - unfold handle_query_history, send_error, send_response. repeat ostep; done.
  - unfold handle_describe, send_error, send_response. repeat ostep; done.
Qed.
End Parts.

(** An event is in a run that was built up one event at a time. *)
Ltac in_run :=
  repeat first [ apply elem_of_app; right; apply list_elem_of_singleton; reflexivity
               | apply elem_of_app; left ].

(** ** What an execution was checked against *)

Section Execute.
Context `{DispatcherEnv} `{StoreEnv} `{Crypto} `{ActionCatalogue}.
Variables (state : DaemonState) (caller : CallerAttribution).
Variables (id name : string) (params : json) (receipt : string).

(** The ownership evidence in a run. *)
Definition owner_evidence (pre : list event) : Prop :=
  att_principal caller <> Unattributed
  /\ exists row, mkEvent _ (FetchChainRow id) (Ok row) ∈ pre
       /\ forall r, row = Some r -> cr_caller_principal r = Some (as_signed_str (att_principal caller)).

Definition preview_evidence (pre : list event) (p : PreviewEnvelope) : Prop :=
  mkEvent _ (GetPreview id) (Ok (Some p)) ∈ pre.

(** The approval is bound to the state the operator saw. *)
Definition binding_evidence (pre : list event) : Prop :=
  (name = "AptAutoremove" -> exists p out,
     preview_evidence pre p
     /\ mkEvent _ (RunProgram "apt-get" ["-s"; "autoremove"]) (Ok out) ∈ pre
     /\ verify_autoremove_binding (prv_proposed_change p) (parse_autoremove_removals out) = Ok tt)
  /\ (is_deployment_pin name = true -> exists p index out live,
     preview_evidence pre p
     /\ jget "index" params ≫= as_u64 = Some index
     /\ mkEvent _ (RunProgram "rpm-ostree" ["status"; "--json"]) (Ok out) ∈ pre
     /\ parse_deployment_identity json_parse out (as_u32 index) = Ok live
     /\ verify_deployment_binding (prv_proposed_change p) live = Ok tt).

Record execution_evidence (pre : list event) (spec : ActionSpec) : Prop := {
  ee_spec : build_action_spec name params = Ok spec;
  ee_role : action_allowed (ds_policy state) (att_role caller) name = true;
  ee_platform : validate_action_platform state name = Ok tt;
  ee_owner : owner_evidence pre;
  ee_record : exists rec, mkEvent _ (GetTx id) (Ok (Some rec)) ∈ pre
    /\ tr_action_name rec = name
    /\ tr_request_hash rec = compute_request_hash (ds_request_hash_key state) name params;
  ee_claim : mkEvent _ (Claim id (approval_receipt_digest receipt) (att_principal caller)) (Ok true)
             ∈ pre;
  ee_locks : execute_is_mutating (ds_policy state) name spec = true ->
    mkEvent _ (TryClaim (exclusive_resource spec) (resources_to_claim true spec)
                 (compute_request_hash (ds_request_hash_key state) name params)) None ∈ pre;
  ee_kept : Forall (fun ev => not_release _ (ev_effect ev) /\ not_execute _ (ev_effect ev)) pre;
  ee_bound : binding_evidence pre }.

(** What holds of a run before the binding checks. *)
Record claimed_evidence (pre : list event) (spec : ActionSpec) : Prop := {
  ce_spec : build_action_spec name params = Ok spec;
  ce_role : action_allowed (ds_policy state) (att_role caller) name = true;
  ce_platform : validate_action_platform state name = Ok tt;
  ce_owner : owner_evidence pre;
  ce_record : exists rec, mkEvent _ (GetTx id) (Ok (Some rec)) ∈ pre
    /\ tr_action_name rec = name
    /\ tr_request_hash rec = compute_request_hash (ds_request_hash_key state) name params;
  ce_claim : mkEvent _ (Claim id (approval_receipt_digest receipt) (att_principal caller)) (Ok true)
             ∈ pre;
  ce_locks : execute_is_mutating (ds_policy state) name spec = true ->
    mkEvent _ (TryClaim (exclusive_resource spec) (resources_to_claim true spec)
                 (compute_request_hash (ds_request_hash_key state) name params)) None ∈ pre;
  ce_kept : Forall (fun ev => not_release _ (ev_effect ev) /\ not_execute _ (ev_effect ev)) pre }.

Lemma claimed_evidence_snoc pre spec ev :
  claimed_evidence pre spec -> not_release _ (ev_effect ev) -> not_execute _ (ev_effect ev) ->
  claimed_evidence (pre ++ [ev]) spec.
Proof.
  intros [Hs Hr Hp [Ho (row & Hrow & Hown)] (rec & Hrec & Hn & Hh) Hc Hl Hk] Hnr Hne.
  split; try done.
  - split; [done|]. exists row. split; [set_solver|done].
  - exists rec. split_and!; [set_solver|done|done].
  - set_solver.
  - intros Hm. specialize (Hl Hm). set_solver.
  - apply Forall_app. split; [done|]. by constructor.
Qed.

Definition allow_execute X (pre : list event) (e : effect X) : Prop :=
  match e with Execute spec => execution_evidence pre spec | _ => True end.

Lemma holds_no_execute {A} (p : prog A) pre :
  only not_execute p -> holds (history allow_execute) (fun _ _ => True) pre p.
Proof.
  intros Hp. apply (holds_only _ not_execute (fun _ => True)); try done.
  intros X g e Hq _. split; [by destruct e|done].
Qed.

Lemma owns_evidence (P : forall X, list event -> effect X -> Prop) pre :
  (forall g, P _ g (FetchChainRow id)) ->
  holds (history P) (fun g o =>
      (g = pre \/ exists r, g = pre ++ [mkEvent _ (FetchChainRow id) r])
      /\ (ownership_refusal id o = None -> owner_evidence g))
    pre (caller_owns_transaction caller id).
Proof.
  intros HP. unfold caller_owns_transaction.
  destruct (att_principal caller) eqn:Ea;
    [| |apply holds_ret; split; [by left|done]];
    (repeat (hstep; cbn [next history]); [apply HP|..];
     (split; [right; by eexists|]); cbn [ownership_refusal]; intros Hn; try done;
     (split; [by rewrite Ea|]); eexists; (split; [in_run|]);
     intros r' Hr'; simplify_eq; rewrite ?Ea;
     match goal with Hp : cr_caller_principal _ = _ |- _ => rewrite Hp end; f_equal;
     by apply String.eqb_eq).
Qed.

(** Both binding checks, started from a claimed run. *)
Lemma check_autoremove_evidence pre spec :
  claimed_evidence pre spec ->
  holds (history allow_execute) (fun g r => claimed_evidence g spec
      /\ (r = Ok tt -> name = "AptAutoremove" -> exists p out,
            preview_evidence g p
            /\ mkEvent _ (RunProgram "apt-get" ["-s"; "autoremove"]) (Ok out) ∈ g
            /\ verify_autoremove_binding (prv_proposed_change p) (parse_autoremove_removals out)
               = Ok tt))
    pre (check_autoremove id name).
Proof.
  intros Hc. unfold check_autoremove, approved_preview, simulate_autoremove_set.
  destruct (String.eqb_spec name "AptAutoremove") as [Hname|Hname];
    [|apply holds_ret; split; [done|by intros _ ?]].
  repeat (hstep; cbn [next history]); try done;
    (split; [repeat (apply claimed_evidence_snoc; [|done|done]); done|]);
    intros Hr Hn; simplify_eq; repeat (case_match; simplify_eq).
  do 2 eexists. split_and!; [unfold preview_evidence; in_run|in_run|].
  by match goal with u : () |- _ => destruct u end.
Qed.
Lemma check_deployment_evidence pre spec :
  claimed_evidence pre spec ->
  holds (history allow_execute) (fun g r => claimed_evidence g spec
      /\ (forall ev, ev ∈ pre -> ev ∈ g)
      /\ (r = Ok tt -> is_deployment_pin name = true -> exists p index out live,
            preview_evidence g p
            /\ jget "index" params ≫= as_u64 = Some index
            /\ mkEvent _ (RunProgram "rpm-ostree" ["status"; "--json"]) (Ok out) ∈ g
            /\ parse_deployment_identity json_parse out (as_u32 index) = Ok live
            /\ verify_deployment_binding (prv_proposed_change p) live = Ok tt))
    pre (check_deployment id name params).
Proof.
  intros Hc. unfold check_deployment, approved_preview, resolve_deployment_identity.
  destruct (is_deployment_pin name) eqn:Epin; [|apply holds_ret; by split_and!].
  repeat (hstep; cbn [next history]); try done;
    (split_and!; [repeat (apply claimed_evidence_snoc; [|done|done]); done
                 |intros ev Hev; in_run; done|]);
    intros Hr _; simplify_eq; repeat (case_match; simplify_eq).
  do 4 eexists. split_and!; [unfold preview_evidence; in_run|done|in_run|done|].
  by match goal with u : () |- _ => destruct u end.
Qed.

Lemma finish_no_execute X (e : effect X) : finish_effect X e -> not_execute X e.
Proof. by destruct e. Qed.

Lemma run_claimed_evidence request_id spec to_claim hash pre :
  execution_evidence pre spec ->
  holds (history allow_execute) (fun _ _ => True) pre
    (run_claimed state caller request_id id name spec to_claim hash).
Proof.
  intros He. unfold run_claimed, progress, send_ignored, send_response.
  assert (Hkeep : forall g ev, execution_evidence g spec -> not_release _ (ev_effect ev) ->
            not_execute _ (ev_effect ev) -> execution_evidence (g ++ [ev]) spec).
  { intros g ev [Hs Hr Hp Ho Hrec Hc Hl Hk [Hb1 Hb2]] Hnr Hne.
    destruct (claimed_evidence_snoc g spec ev) as [? ? ? ? ? ? ? ?]; [by split|done|done|].
    split; try done. split.
    - intros Hn. destruct (Hb1 Hn) as (p & out & Hpv & Hrun & Hv). exists p, out.
      unfold preview_evidence in *. split_and!; [in_run; done|in_run; done|done].
    - intros Hn. destruct (Hb2 Hn) as (p & index & out & live & Hpv & Hi & Hrun & Hpd & Hv).
      exists p, index, out, live. unfold preview_evidence in *.
      split_and!; [in_run; done|done|in_run; done|done|done]. }
  hgo. hstep.
  - hgo. apply holds_perform; [cbn; by repeat apply Hkeep|]. intros [lines output]. cbv beta iota.
    apply holds_no_execute, only_bind; [apply only_for_each; intros line|intros _].
    + apply (only_mono finish_effect); [apply finish_no_execute|apply progress_only].
    + apply (only_mono finish_effect); [apply finish_no_execute|apply finish_only].
  - apply holds_no_execute. apply (only_mono finish_effect); [apply finish_no_execute|].
    repeat (ostep; auto using release_only, update_terminal_only).
Qed.

Lemma claim_and_run_evidence request_id spec to_claim pre hash :
  (forall ev, ev = mkEvent _ (Claim id (approval_receipt_digest receipt) (att_principal caller)) (Ok true) ->
     claimed_evidence (pre ++ [ev]) spec) ->
  holds (history allow_execute) (fun _ _ => True) pre
    (claim_and_run state caller request_id id name params receipt spec to_claim hash).
Proof.
  intros Hc. unfold claim_and_run.
  assert (Hrefuse : forall g category message, holds (history allow_execute) (fun _ _ => True) g
    (_ ← release_exclusive_slots to_claim hash; send_error request_id category message)).
  { intros g category message. apply holds_no_execute, only_bind.
    - apply (only_mono finish_effect); [apply finish_no_execute|apply release_only].
    - intros _. by apply only_call. }
  hstep. hstep; [done|]. destruct x as [[]|e]; [|apply Hrefuse..].
  cbn [next history]. specialize (Hc _ eq_refl).
  hstep. eapply holds_mono; [|by apply (check_autoremove_evidence _ spec)].
  cbv beta. intros g1 r1 [Hc1 Hb1]. destruct r1 as [[]|[category message]]; [|apply Hrefuse].
  hstep. eapply holds_mono; [|by apply (check_deployment_evidence _ spec)].
  cbv beta. intros g2 r2 (Hc2 & Hsub & Hb2). destruct r2 as [[]|[category message]]; [|apply Hrefuse].
  apply run_claimed_evidence. destruct Hc2. split; try done. split.
  - intros Hn. destruct (Hb1 eq_refl Hn) as (p & out & Hp & Hout & Hv). exists p, out.
    unfold preview_evidence in *. auto.
  - intros Hn. by apply Hb2.
Qed.

Lemma handle_execute_evidence request_id :
  holds (history allow_execute) (fun _ _ => True) []
    (handle_execute state caller request_id id name params receipt).
Proof.
  unfold handle_execute. hstep; [|by repeat hstep].
  hstep. eapply holds_mono; [|apply owns_evidence; done].
  cbv beta. intros g o [Hg Ho]. destruct (ownership_refusal id o) eqn:Er; [by repeat hstep|].
  specialize (Ho eq_refl). hstep; [by repeat hstep|]. hstep; [|by repeat hstep].
  hstep. hstep; [done|]. cbn [next history]. do 2 (hstep; [|by repeat hstep]).
  hstep; [by repeat hstep|]. subst.
  match goal with Hb : _ || _ = false |- _ => apply orb_false_iff in Hb as [Hn%negb_false_iff Hh%negb_false_iff] end.
  apply String.eqb_eq in Hn, Hh. rewrite Hh. set (hash := compute_request_hash _ _ _) in *.
  set (ev1 := mkEvent _ (GetTx id) _).
  assert (Hclaim : forall mid, (execute_is_mutating (ds_policy state) name a = true ->
     mkEvent _ (TryClaim (exclusive_resource a) (resources_to_claim true a) hash) None ∈ mid) ->
     Forall (fun ev => not_release _ (ev_effect ev) /\ not_execute _ (ev_effect ev)) mid ->
     forall ev, ev = mkEvent _ (Claim id (approval_receipt_digest receipt) (att_principal caller)) (Ok true) ->
     claimed_evidence (((g ++ [ev1]) ++ mid) ++ [ev]) a).
  { intros mid Hmid Hkept ev ->. destruct Ho as (Hu & row & Hrow & Hown).
    assert (Hg' : Forall (fun ev => not_release _ (ev_effect ev) /\ not_execute _ (ev_effect ev)) g).
    { destruct Hg as [->|[r ->]]; by repeat constructor. }
    split; try done.
    - by apply negb_false_iff.
    - by match goal with Hp : validate_action_platform _ _ = Ok ?u |- _ => destruct u end.
    - split; [done|]. exists row. split; [in_run; done|done].
    - eexists. split; [do 2 (apply elem_of_app; left); apply elem_of_app; right;
        apply list_elem_of_singleton; reflexivity|done].
    - in_run.
    - intros Hm. apply elem_of_app. left. apply elem_of_app. right. by apply Hmid.
    - rewrite !Forall_app. split_and!; try done; by repeat constructor. }
  unfold gate_and_claim. destruct (execute_is_mutating (ds_policy state) name a) eqn:Em.
  - hstep. hstep; [done|]. cbn [next history]. hstep; [by repeat hstep|].
    apply claim_and_run_evidence, Hclaim; [intros _; subst; by apply list_elem_of_singleton|].
    by repeat constructor.
  - apply claim_and_run_evidence. intros ev Hev. rewrite <-(app_nil_r (g ++ [ev1])).
    by apply Hclaim.
Qed.
End Execute.

(** C1: nothing runs that was not approved. Whenever [handle_execute] starts the
    executor, in any run: it is on the specification built from the submitted
    name and parameters; the policy allows the caller that action and the
    platform fence passes it; the caller is identified and the chain row of the
    transaction, where the store has one, names the caller's own account; the stored
    record has the same action and the hash of the same parameters; the claim with
    the caller's receipt was answered true; every lock of an action that the gate
    counts as mutating was taken and none was given back; the autoremove set or
    deployment is still the one of the approved preview; and nothing was executed
    before. *)
Theorem execute_runs_what_was_approved `{DispatcherEnv} `{StoreEnv} `{Crypto} `{ActionCatalogue}
    state caller request_id id name params receipt tr res pre spec x suf :
  runs (handle_execute state caller request_id id name params receipt) tr res ->
  tr = pre ++ mkEvent _ (Execute spec) x :: suf ->
  execution_evidence state caller id name params receipt pre spec.
Proof.
  intros Hr E.
  destruct (history_runs _ _ _ _ _ (handle_execute_evidence state caller id name params receipt
    request_id) Hr) as [_ Hall].
  exact (Hall pre _ (Execute spec) x suf E).
Qed.

(** ** Who may change a transaction *)

Section Writes.
Context `{DispatcherEnv} `{StoreEnv} `{Crypto} `{ActionCatalogue}.
Variables (state : DaemonState) (caller : CallerAttribution).

(** The record of the transaction was read and the caller may act on its action. *)
Definition role_evidence (id : string) (pre : list event) : Prop :=
  exists rec, mkEvent _ (GetTx id) (Ok (Some rec)) ∈ pre
    /\ action_allowed (ds_policy state) (att_role caller) (tr_action_name rec) = true.

(** What must have happened before each change of the store. *)
Definition write_allowed X (pre : list event) (e : effect X) : Prop :=
  match e with
  | Approve id who | CancelQueued id who =>
      who = att_principal caller /\ owner_evidence caller id pre /\ role_evidence id pre
  | Revoke id who =>
      who = att_principal caller
      /\ exists receipt request_id error,
           mkEvent _ (Approve id who) (Ok (Some receipt)) ∈ pre
           /\ mkEvent _ (Send (ApprovalResponse request_id id receipt)) (Err error) ∈ pre
  | Claim id digest who => who = att_principal caller /\ owner_evidence caller id pre
  | RecordPreviewed t p =>
      nt_caller_principal t = att_principal caller /\ nt_caller_role t = att_role caller
      /\ action_allowed (ds_policy state) (att_role caller) (nt_action_name t) = true
      /\ validate_action_platform state (nt_action_name t) = Ok tt
  | _ => True
  end.

Definition no_write X (e : effect X) : Prop :=
  match e with
  | Approve _ _ | CancelQueued _ _ | Revoke _ _ | Claim _ _ _ | RecordPreviewed _ _ => False
  | _ => True
  end.

Lemma holds_no_write {A} (p : prog A) pre :
  only no_write p -> holds (history write_allowed) (fun _ _ => True) pre p.
Proof.
  intros Hp. apply (holds_only _ no_write (fun _ => True)); try done.
  intros X g e He _. split; [by destruct e|done].
Qed.

Lemma authorize_evidence request_id id cat msg pre :
  holds (history write_allowed) (fun g r => r = Ok true ->
      owner_evidence caller id g /\ role_evidence id g)
    pre (authorize_for_transaction state caller request_id id cat msg).
Proof.
  unfold authorize_for_transaction, send_error, send_response.
  assert (Hrefuse : forall g response, holds (history write_allowed)
      (fun g r => r = Ok true -> owner_evidence caller id g /\ role_evidence id g) g
      (r ← call (Send response); Ret (_ ← r; Ok false))).
  { intros g response. hstep. hstep; [done|]. apply holds_ret. by destruct x. }
  hstep. hstep; [done|]. cbn [next history]. do 2 (hstep; [|apply Hrefuse]).
  hstep. eapply holds_mono; [|by apply (owns_evidence caller id)]. cbv beta. intros g o [Hg Ho].
  destruct (ownership_refusal id o); [apply Hrefuse|].
  destruct (authorize_action _ _ _) eqn:Ea; [|apply Hrefuse].
  apply holds_ret. intros _. split; [by apply Ho|]. exists t. split; [|done].
  destruct Hg as [->|[r ->]]; in_run.
Qed.

Lemma handle_approve_writes request_id id :
  holds (history write_allowed) (fun _ _ => True) [] (handle_approve state caller request_id id).
Proof.
  unfold handle_approve. hstep. eapply holds_mono; [|apply authorize_evidence].
  cbv beta. intros g [[]|e] Hauth; [|by apply holds_ret..].
  destruct (Hauth eq_refl) as [Ho Hr]. hstep. hstep; [done|]. cbn [next history].
  destruct x as [[receipt|]|e]; [|apply holds_no_write; by apply only_call|].
  - unfold send_response. hstep. hstep; [done|]. cbn [next history]. destruct x as [u|error]; [by apply holds_ret|].
    hstep. hstep; [|by apply holds_ret]. split; [done|]. exists receipt, request_id, error. split; in_run.
  - apply holds_no_write. destruct e; by apply only_call.
Qed.

Lemma handle_cancel_writes request_id id :
  holds (history write_allowed) (fun _ _ => True) [] (handle_cancel state caller request_id id).
Proof.
  unfold handle_cancel. hstep. eapply holds_mono; [|apply authorize_evidence].
  cbv beta. intros g [[]|e] Hauth; [|by apply holds_ret..].
  destruct (Hauth eq_refl) as [Ho Hr]. hstep. hstep; [done|].
  apply holds_no_write. unfold send_error, send_response. repeat ostep; done.
Qed.

Lemma handle_preview_writes request_id name params unattended :
  holds (history write_allowed) (fun _ _ => True) []
    (handle_preview state caller request_id name params unattended).
Proof.
  unfold handle_preview. destruct (build_action_spec name params) as [spec|e];
    [|apply holds_no_write; by apply only_call].
  destruct (authorize_action _ _ _) eqn:Ea; [|apply holds_no_write; by apply only_call].
  destruct (validate_action_platform state name) as [[]|m] eqn:Ep; [|apply holds_no_write; by apply only_call].
  cbn [negb]. cbv zeta. hstep. hstep; [done|]. cbn [next history].
  assert (Hcap : forall {A} (p : prog A) (f : A -> prog (result HandlerError ())) g,
    only no_write p -> (forall g a, holds (history write_allowed) (fun _ _ => True) g (f a)) ->
    holds (history write_allowed) (fun _ _ => True) g (p ≫= f)).
  { intros A p f g Hp Hf. apply holds_bind. eapply holds_mono; [|by apply holds_no_write]. auto. }
  apply Hcap; [unfold capture_autoremove, simulate_autoremove_set; repeat ostep; done|].
  intros g1 [change w1]. cbv beta iota.
  apply Hcap; [unfold capture_deployment, resolve_deployment_identity; repeat ostep; done|].
  intros g2 [change' w2]. cbv beta iota.
  hstep. hstep; [by split_and!|]. apply holds_no_write.
  unfold send_error, send_response. repeat ostep; done.
Qed.

(** The part of an execution before the claim writes nothing, and what follows
    the claim writes only the status. *)
Lemma claim_and_run_writes request_id id name params receipt spec to_claim hash pre :
  owner_evidence caller id pre ->
  holds (history write_allowed) (fun _ _ => True) pre
    (claim_and_run state caller request_id id name params receipt spec to_claim hash).
Proof.
  intros Ho. unfold claim_and_run. hstep. hstep; [done|]. apply holds_no_write.
  assert (Hf : forall X (e : effect X), finish_effect X e -> no_write X e) by by intros X [].
  assert (Hc : forall X (e : effect X), check_effect X e -> no_write X e) by by intros X [].
  assert (Hrefuse : forall category message, only no_write
     (_ ← release_exclusive_slots to_claim hash; send_error request_id category message)).
  { intros. apply only_bind; [apply (only_mono finish_effect), release_only; done|by intros]. }
  destruct x as [[]|e]; [|apply Hrefuse..].
  apply only_bind; [apply (only_mono check_effect), check_autoremove_only; done|].
  intros [u|[c m]]; [|apply Hrefuse].
  apply only_bind; [apply (only_mono check_effect), check_deployment_only; done|].
  intros [u'|[c m]]; [|apply Hrefuse].
  assert (Hfin : forall B (p : prog B), only finish_effect p -> only no_write p)
    by (intros B p; by apply only_mono).
  unfold run_claimed, send_response.
  repeat first [ostep|apply Hfin]; auto using progress_only, release_only, update_terminal_only, finish_only; done.
Qed.

Lemma handle_execute_writes request_id id name params receipt :
  holds (history write_allowed) (fun _ _ => True) []
    (handle_execute state caller request_id id name params receipt).
Proof.
  unfold handle_execute. destruct (build_action_spec name params) as [spec|e];
    [|apply holds_no_write; by apply only_call].
  hstep. eapply holds_mono; [|by apply (owns_evidence caller id)]. cbv beta. intros g o [_ Ho].
  destruct (ownership_refusal id o); [apply holds_no_write; by apply only_call|]. specialize (Ho eq_refl).
  assert (Hkeep : forall g ev, owner_evidence caller id g -> owner_evidence caller id (g ++ [ev])).
  { intros g' ev [Hu (row & Hrow & Hown)]. split; [done|]. exists row. split; [in_run; done|done]. }
  destruct (negb _); [apply holds_no_write; by apply only_call|].
  destruct (validate_action_platform state name); [|apply holds_no_write; by apply only_call].
  hstep. hstep; [done|]. cbn [next history].
  destruct x as [[rec|]|e]; [|apply holds_no_write; by apply only_call..].
  destruct (negb _ || _); [apply holds_no_write; by apply only_call|].
  unfold gate_and_claim. destruct (execute_is_mutating _ _ _).
  - hstep. hstep; [done|]. cbn [next history]. destruct x as [[r h]|]; [by apply holds_no_write, only_call|].
    apply claim_and_run_writes. auto.
  - apply claim_and_run_writes. auto.
Qed.

Lemma handle_request_writes r :
  holds (history write_allowed) (fun _ _ => True) [] (handle_request state caller r).
Proof.
  destruct r; cbn [handle_request]; auto using handle_preview_writes, handle_approve_writes,
    handle_execute_writes, handle_cancel_writes; apply holds_no_write;
    unfold handle_query_state, handle_approval_details, handle_query_action, query_job_history,
      handle_query_history, handle_describe, caller_owns_transaction, send_error, send_response;
    repeat ostep; done.
Qed.
End Writes.

(** C15: every change of a transaction is authorised. In any run of any request,
    and whatever the answers: an approval or a cancellation is asked of the store
    for the caller's own principal only, after the stored row was seen to name
    that account and after the policy was seen to allow the caller the stored
    action; a claim only after the ownership was seen; an approval is revoked only
    after its receipt could not be sent; and a preview is recorded under the
    caller's own role and principal, for an action the policy allows it and the
    platform fence passes. *)
Theorem writes_are_authorised `{DispatcherEnv} `{StoreEnv} `{Crypto} `{ActionCatalogue}
    state caller r tr res pre X (e : effect X) x suf :
  runs (handle_request state caller r) tr res -> tr = pre ++ mkEvent X e x :: suf ->
  write_allowed state caller X pre e.
Proof.
  intros Hr E. destruct (history_runs _ _ _ _ _ (handle_request_writes state caller r) Hr) as [_ Hall].
  exact (Hall pre X e x suf E).
Qed.

(** ** The query path *)

Section Query.
Context `{DispatcherEnv} `{StoreEnv} `{Crypto} `{ActionCatalogue} `{!ActionCatalogueLaws}.
Variables (state : DaemonState) (name : string) (params : json).

(** A query may answer, read the job history, or run a command that the policy
    opens to every caller and the catalogue calls low risk. *)
Definition query_effect X (e : effect X) : Prop :=
  match e with
  | Send _ | ListTransactions _ _ _ _ => True
  | ExecuteQuiet spec =>
      build_action_spec name params = Ok spec /\ spec_risk_level spec = Low
      /\ str_in name OBSERVER_MUTATING_ACTIONS = false /\ validate_action_platform state name = Ok tt
      /\ min_role_for_action (ds_policy state) name = Some Observer
  | _ => False
  end.

Lemma observer_is_low raw spec :
  NoDup (map fst raw) -> from_overrides raw = Ok (ds_policy state) ->
  min_role_for_action (ds_policy state) name = Some Observer -> name <> "ListJobHistory" ->
  build_action_spec name params = Ok spec -> spec_risk_level spec = Low.
Proof.
  intros Hnd Hraw Hmin Hne Hb. apply build_catalogued in Hb.
  unfold min_role_for_action, baseline_role, role_exception in Hmin.
  apply String.eqb_neq in Hne. rewrite Hne, Hb in Hmin. cbn [fmap option_fmap option_map mbind option_bind] in Hmin.
  injection Hmin as Hrole.
  pose proof (from_entries_spec ∅ raw Hnd) as HS. unfold from_overrides in Hraw.
  destruct (from_entries ∅ raw) as [m|]; [|done]. injection Hraw as Hm. rewrite <-Hm in Hrole.
  destruct HS as [Hall Hother]. cbn [overrides] in Hrole.
  destruct (m !! name) as [role|] eqn:El; cbn [default from_option id] in Hrole.
  - destruct (decide (name ∈ map fst raw)) as [Hin|Hin]; [|rewrite Hother in El by done; done].
    apply list_elem_of_fmap in Hin as ([n level] & En & Hin). cbn in En. subst n.
    rewrite Forall_forall in Hall. destruct (Hall _ Hin) as (r & Hc & Hr). assert (r = Observer) by congruence. subst r.
    assert (Hb' : baseline_role name = Some (role_for_risk_level (spec_risk_level spec))).
    { unfold baseline_role, role_exception. by rewrite Hne, Hb. }
    pose proof (check_override_raises _ _ _ _ Hc Hb') as Hle.
    by destruct (spec_risk_level spec).
  - by destruct (spec_risk_level spec).
Qed.

Lemma query_action_effects raw request_id :
  NoDup (map fst raw) -> from_overrides raw = Ok (ds_policy state) ->
  only query_effect (handle_query_action state name params request_id).
Proof.
  intros Hnd Hraw. unfold handle_query_action, query_job_history, send_error, send_response.
  repeat ostep; try done. cbn [query_effect].
  apply negb_false_iff, bool_decide_eq_true in Heqb. subst. destruct a.
  split_and!; try done. eapply observer_is_low; try done. by apply String.eqb_neq.
Qed.
End Query.

(** The query path changes nothing. With any policy the daemon accepted, every
    run of a query action only answers, reads the job history, or runs one command
    built from the query that is low risk in the catalogue, is none of the
    read-only-looking actions that change the host, suits the platform and is open
    to every caller. It takes no lock, writes no transaction and never starts the
    executor of approved actions. *)
Theorem query_path_is_read_only `{DispatcherEnv} `{StoreEnv} `{Crypto} `{ActionCatalogue}
    `{!ActionCatalogueLaws} state name params request_id raw tr res :
  NoDup (map fst raw) -> from_overrides raw = Ok (ds_policy state) ->
  runs (handle_query_action state name params request_id) tr res ->
  Forall (fun ev => query_effect state name params _ (ev_effect ev)) tr.
Proof.
  intros Hnd Hraw Hr. eapply only_runs; [|exact Hr]. by eapply query_action_effects.
Qed.

(** ** A daemon to run *)

Module DaemonSample.
#[local] Existing Instance Toy.crypto.

#[export] Instance env : DispatcherEnv := {|
  json_display := fun v => match v with JStr s => s | JNum _ => "0" | _ => "{}" end;
  json_parse := fun s => Ok (JStr s);
  collected_to_value := fun s => Some (JObj [("host_name", JStr (cs_host_name s))]);
  parse_rfc3339 := fun s => Err "unsupported";
  show_store_error := fun e => "store error" |}.

Definition state : DaemonState :=
  mkDaemonState ["h"%char] empty_policy (Some (Ubuntu 24 4)) false.
Definition caller : CallerAttribution := from_peer_uid 1000 Admin.

(** The approved transaction of an action without parameters. *)
Definition hash (name : string) : string :=
  compute_request_hash (ds_request_hash_key state) name (JObj []).
Definition row (name : string) : ChainRow :=
  mkChainRow 1 "v1" "t1" "rq" (hash name) name High "s" None "[]" "t" "" "" CHAIN_VERSION_V2
    (Some "admin") (Some "") (Some "uid:1000").
Definition record (name : string) : TransactionRecord :=
  mkTransactionRecord "t1" "rq" (hash name) name High Queued None "s" [].

(** Answers on which everything goes well; [program] answers the simulations. *)
Definition host (name : string) (program : result RunError string) : oracle := fun X _ e =>
  match e in effect X return X with
  | Send _ => Ok tt
  | FetchChainRow _ => Ok (Some (row name))
  | GetTx _ => Ok (Some (record name))
  | GetPreview _ => Ok (Some (mkPreviewEnvelope "s" High JNull
                                (JObj [(AUTOREMOVE_REMOVALS_KEY, JArr [])]) [] false false [] (hash name)))
  | RecordPreviewed _ _ => Ok (record name)
  | Approve _ _ => Ok (Some "r")
  | Revoke _ _ => Ok true
  | Claim _ _ _ => Ok true
  | CancelQueued _ _ => Ok true
  | ReadTransition _ _ => Ok Running
  | CasStatus _ _ _ => Ok tt
  | ListTransactions _ _ _ _ => Ok []
  | ListHistory _ _ _ _ => Ok []
  | TryClaim _ _ _ => None
  | Release _ _ => tt
  | RunProgram _ _ => program
  | CollectState => Err (RunFailed "probe")
  | Execute _ => (["done"], Ok (mkOutput "done" "" 0))
  | ExecuteQuiet _ => Ok (mkOutput "done" "" 0)
  | NewJobId => "j1"
  | Sleep _ => tt
  | ForwardAudit _ _ _ => tt
  end.

Definition execute (name : string) : prog (result HandlerError ()) :=
  handle_execute state caller "rq2" "t1" name (JObj []) "r".
Definition trace (name : string) (program : result RunError string) : list event :=
  (interp (host name program) 0 (execute name)).1.
End DaemonSample.

Section Witness.
#[local] Existing Instance Toy.crypto.
#[local] Existing Instance StoreSample.env.
#[local] Existing Instance DaemonSample.env.

Lemma execute_runs_what_was_approved_witness :
  let tr := DaemonSample.trace "AptUpgrade" (Ok "") in
  tr !! 8 = Some (mkEvent _ (Execute Apt.apt_upgrade) (["done"], Ok (mkOutput "done" "" 0)))
  /\ execution_evidence DaemonSample.state DaemonSample.caller "t1" "AptUpgrade" (JObj []) "r"
       (take 8 tr) Apt.apt_upgrade.
Proof.
  split; [vm_compute; reflexivity|].
  apply (execute_runs_what_was_approved DaemonSample.state DaemonSample.caller "rq2" "t1"
           "AptUpgrade" (JObj []) "r" (DaemonSample.trace "AptUpgrade" (Ok ""))
           (interp (DaemonSample.host "AptUpgrade" (Ok "")) 0 (DaemonSample.execute "AptUpgrade")).2
           _ _ (["done"], Ok (mkOutput "done" "" 0)) (drop 9 (DaemonSample.trace "AptUpgrade" (Ok "")))).
  - apply interp_runs.
  - vm_compute. reflexivity.
Defined.

Lemma writes_are_authorised_witness :
  let p := handle_approve DaemonSample.state DaemonSample.caller "rq2" "t1" in
  let tr := (interp (DaemonSample.host "AptUpgrade" (Ok "")) 0 p).1 in
  tr !! 2 = Some (mkEvent _ (Approve "t1" (Uid 1000)) (Ok (Some "r")))
  /\ owner_evidence DaemonSample.caller "t1" (take 2 tr)
  /\ role_evidence DaemonSample.state DaemonSample.caller "t1" (take 2 tr).
Proof.
  split; [vm_compute; reflexivity|].
  apply (writes_are_authorised DaemonSample.state DaemonSample.caller (ApproveRequest "rq2" "t1")
           (interp (DaemonSample.host "AptUpgrade" (Ok "")) 0
              (handle_approve DaemonSample.state DaemonSample.caller "rq2" "t1")).1
           (interp (DaemonSample.host "AptUpgrade" (Ok "")) 0
              (handle_approve DaemonSample.state DaemonSample.caller "rq2" "t1")).2
           _ _ (Approve "t1" (Uid 1000)) (Ok (Some "r"))
           (drop 3 (interp (DaemonSample.host "AptUpgrade" (Ok "")) 0
              (handle_approve DaemonSample.state DaemonSample.caller "rq2" "t1")).1)).
  - apply interp_runs.
  - vm_compute. reflexivity.
Defined.

Lemma query_path_is_read_only_witness :
  let p := handle_query_action DaemonSample.state "AptListInstalled" (JObj []) "rq2" in
  let tr := (interp (DaemonSample.host "AptListInstalled" (Ok "")) 0 p).1 in
  length tr = 2
  /\ Forall (fun ev => query_effect DaemonSample.state "AptListInstalled" (JObj []) _ (ev_effect ev)) tr.
Proof.
  split; [vm_compute; reflexivity|].
  apply (query_path_is_read_only DaemonSample.state "AptListInstalled" (JObj []) "rq2" []
           (interp (DaemonSample.host "AptListInstalled" (Ok "")) 0
              (handle_query_action DaemonSample.state "AptListInstalled" (JObj []) "rq2")).1
           (interp (DaemonSample.host "AptListInstalled" (Ok "")) 0
              (handle_query_action DaemonSample.state "AptListInstalled" (JObj []) "rq2")).2).
  - constructor.
  - reflexivity.
  - apply interp_runs.
Defined.

(** *** What a run shows *)

Definition claims (ev : event) : bool :=
  match ev with mkEvent _ e x =>
    match e in effect X return X -> bool with
    | Claim _ _ _ => fun x => match x with Ok b => b | Err _ => false end
    | _ => fun _ => false
    end x end.
Definition settles (ev : event) : bool :=
  match ev_effect ev with CasStatus _ _ _ | ReadTransition _ _ | Execute _ => true | _ => false end.
Definition releases (ev : event) : bool :=
  match ev_effect ev with Release _ _ => true | _ => false end.

(** An execution whose claim succeeded and whose binding check then refused: the
    locks are given back and the refusal is answered, but nothing moves the claimed
    transaction out of the Running state the claim put it in. *)
Lemma binding_refusal_leaves_running :
  let tr := DaemonSample.trace "AptAutoremove" (Err (RunFailed "apt is locked")) in
  existsb claims tr = true /\ existsb releases tr = true /\ existsb settles tr = false.
Proof. vm_compute. done. Qed.

(** AptUpdate changes the package lists, and asks for no lock: its catalogued risk
    opens it to observers, and only actions above that are gated. *)
Lemma apt_update_takes_no_lock :
  exclusive_resource Apt.apt_update = Some Dpkg
  /\ str_in "AptUpdate" OBSERVER_MUTATING_ACTIONS = true
  /\ execute_is_mutating empty_policy "AptUpdate" Apt.apt_update = false.
Proof. vm_compute. done. Qed.
End Witness.

(** A system-wide action is not held back by a package action that is running:
    the gate looks at the system slot and the action's own resource. *)
Lemma system_claim_ignores_package_locks :
  (try_claim None [System] "reboot" {[Dpkg := "upgrade"]}).1 = None.
Proof. reflexivity. Qed.
