(* ===== verification/Supervision.v ===== *)
(** * Supervised execution

    The dispatcher's execution path run on the executor: the automatic rollback
    of [Dispatcher.v] and the teardown verdict of [Executor.v] together. *)

From Stdlib Require Import Ascii String NArith ZArith Lia.
From stdpp Require Import base list strings gmap sets.
From S2P Require Import Prelude Json Types Jobs Auth Distro AuditChain Signing Store Catalogue.
From S2P Require Import Preview Actions Executor Policy Program Effects Bindings Dispatcher Handlers.

(** The action did not succeed. *)
Definition output_failed (output : result ExecutorError ExecutionOutput) : bool :=
  match output with Ok out => negb (is_success out) | Err _ => true end.

(** An action is run by the dispatcher on its own account only after the
    execution it belongs to. *)
Definition allow_rollback X (pre : list event) (e : effect X) : Prop :=
  match e with
  | ExecuteQuiet _ => exists spec lines output,
      mkEvent _ (Execute spec) (lines, output) ∈ pre
      /\ output_failed output = true /\ is_not_stopped output = false
  | _ => True
  end.

Definition no_quiet_run X (e : effect X) : Prop :=
  match e with ExecuteQuiet _ => False | _ => True end.

Lemma holds_no_quiet_run {A} (p : prog A) pre :
  only no_quiet_run p -> holds (history allow_rollback) (fun _ _ => True) pre p.
Proof.
  intros Hp. apply (holds_only _ no_quiet_run (fun _ => True)); try done.
  intros X g e Hq _. split; [by destruct e|done].
Qed.

Section Rollback.
Context `{DispatcherEnv} `{StoreEnv} `{Crypto} `{ActionCatalogue}.

Notation rollback_ok := (holds (history allow_rollback) (fun _ _ => True)).

Lemma keeps_event {A} (ev : event) (p : prog A) g :
  only no_quiet_run p -> ev ∈ g -> holds (history allow_rollback) (fun g' _ => ev ∈ g') g p.
Proof.
  intros Hp Hin. apply (holds_only _ no_quiet_run (fun g' => ev ∈ g')); try done.
  intros X g' e Hq Hg'. split; [by destruct e|]. intros x. cbn. in_run. done.
Qed.

Lemma rollback_ok_bind {A B} (p : prog A) (f : A -> prog B) g :
  only no_quiet_run p -> (forall a g', rollback_ok g' (f a)) -> rollback_ok g (p ≫= f).
Proof.
  intros Hp Hf. apply holds_bind. eapply holds_mono; [|by apply holds_no_quiet_run].
  intros g' a _. apply Hf.
Qed.

Lemma progress_nq job_id line : only no_quiet_run (progress job_id line).
Proof. unfold progress, send_ignored, send_response. repeat ostep; done. Qed.
Lemma release_nq claimed hash : only no_quiet_run (release_exclusive_slots claimed hash).
Proof. unfold release_exclusive_slots. repeat ostep; done. Qed.
Lemma update_terminal_nq id target : only no_quiet_run (update_terminal_status id target).
Proof.
  unfold update_terminal_status. generalize 0%N as attempt.
  induction (TERMINAL_STATUS_RETRY_ATTEMPTS - 1) as [|n IH]; intros attempt;
    cbn [update_terminal_attempts]; unfold update_status_effects; repeat ostep; auto; done.
Qed.

Lemma failed_outcome name spec output :
  (initial_outcome name spec output).1 = Failed -> output_failed output = true.
Proof. unfold initial_outcome. destruct output as [out|e]; [|done]. cbn. by repeat case_match. Qed.

Lemma rollback_holds job_id name spec status summary spec0 lines output g :
  mkEvent _ (Execute spec0) (lines, output) ∈ g ->
  (status = Failed -> output_failed output = true) ->
  holds (history allow_rollback) (fun _ _ => True) g
    (attempt_rollback_if_needed job_id name spec status summary (is_not_stopped output)).
Proof.
  intros Hin Hst. unfold attempt_rollback_if_needed, progress, send_ignored, send_response.
  destruct (bool_decide_reflect (status = Failed)) as [Hs|Hs]; cbn [negb orb]; [|by hgo].
  destruct (spec_rollback_available spec); cbn [negb]; [|by hgo].
  destruct (is_not_stopped output) eqn:En; [by hgo|].
  destruct (rollback_spec_for name) as [rb|]; [|by hgo].
  hgo. apply holds_perform; [|intros r; apply holds_no_quiet_run; repeat ostep; done].
  exists spec0, lines, output. split_and!; [in_run; done|by apply Hst|done].
Qed.

Lemma finish_holds state caller id name job_id spec to_claim hash spec0 lines output g :
  mkEvent _ (Execute spec0) (lines, output) ∈ g ->
  rollback_ok g (finish_execution state caller id name job_id spec to_claim hash output).
Proof.
  intros Hin. unfold finish_execution. destruct (initial_outcome name spec output) as [st sm] eqn:Ei.
  apply holds_bind. eapply holds_mono; [|apply keeps_event; [apply progress_nq|exact Hin]].
  intros g1 ? Hin1. apply holds_bind.
  eapply holds_mono; [|apply (rollback_holds _ _ _ _ _ spec0 lines output); [exact Hin1|]].
  2: { intros ->. apply (failed_outcome name spec). by rewrite Ei. }
  intros g' [[final summary] rb] _. apply holds_no_quiet_run. unfold send_response.
  repeat (ostep; auto using release_nq, update_terminal_nq); done.
Qed.

Lemma run_claimed_holds state caller rid id name spec to_claim hash g :
  rollback_ok g (run_claimed state caller rid id name spec to_claim hash).
Proof.
  unfold run_claimed, send_response. hgo. hstep.
  - do 2 (apply rollback_ok_bind; [apply progress_nq|intros _ ?]).
    hstep. apply holds_perform; [done|]. intros [lines output]. cbn [next history].
    cbv beta iota. apply holds_bind.
    eapply holds_mono; [|apply (keeps_event (mkEvent _ (Execute spec) (lines, output)))].
    + intros g2 ? Hg'. by apply (finish_holds _ _ _ _ _ _ _ _ spec lines output).
    + apply only_for_each. intros line. apply progress_nq.
    + in_run.
  - apply holds_no_quiet_run. repeat (ostep; auto using release_nq, update_terminal_nq); done.
Qed.

Lemma owns_nq caller id : only no_quiet_run (caller_owns_transaction caller id).
Proof. unfold caller_owns_transaction. repeat ostep; done. Qed.
Lemma check_effect_nq X (e : effect X) : check_effect X e -> no_quiet_run X e.
Proof. by destruct e. Qed.

Lemma claim_and_run_holds state caller rid id name params receipt spec to_claim hash g :
  rollback_ok g (claim_and_run state caller rid id name params receipt spec to_claim hash).
Proof.
  unfold claim_and_run.
  assert (Hrefuse : forall category message g', rollback_ok g'
    (_ ← release_exclusive_slots to_claim hash; send_error rid category message)).
  { intros category message g'. apply rollback_ok_bind; [apply release_nq|]. intros _ ?. by hgo. }
  apply rollback_ok_bind; [by apply only_call|]. intros [[]|e] g1; [|apply Hrefuse..].
  apply rollback_ok_bind.
  { apply (only_mono check_effect), check_autoremove_only. apply check_effect_nq. }
  intros [[]|[category message]] g2; [|apply Hrefuse]. apply rollback_ok_bind.
  { apply (only_mono check_effect), check_deployment_only. apply check_effect_nq. }
  intros [[]|[category message]] g3; [apply run_claimed_holds|apply Hrefuse].
Qed.

Lemma handle_execute_holds state caller rid id name params receipt g :
  rollback_ok g (handle_execute state caller rid id name params receipt).
Proof.
  unfold handle_execute, gate_and_claim, send_error, send_response. hstep; [|by repeat hstep].
  apply rollback_ok_bind; [apply owns_nq|]. intros o g1.
  repeat lazymatch goal with
    | |- holds _ _ _ (claim_and_run _ _ _ _ _ _ _ _ _ _) => apply claim_and_run_holds
    | |- _ => hstep
    end; done.
Qed.
End Rollback.

(** ** The property *)

(** C20: the automatic rollback never runs over live work. Whenever an
    execution runs a second action, the approved one was run before and failed,
    and its failure was not ActionNotStopped. So when the executor of
    [Executor.v] gave that answer for a command it started, the watch over the
    command's child, from its start to the state where the watch ended, found the
    child exited; or the watch was given up in that state and the teardown ran from
    there to the last state of the command, where the child's group is gone (unless
    the child had no id any more, having been reaped). *)
Theorem rollback_waits_for_teardown `{DispatcherEnv} `{StoreEnv} `{Crypto} `{ActionCatalogue}
    `{HostLaws} state caller rid id name params receipt tr res pre rb x suf :
  runs (handle_execute state caller rid id name params receipt) tr res ->
  tr = pre ++ mkEvent _ (ExecuteQuiet rb) x :: suf ->
  exists spec lines output,
    mkEvent _ (Execute spec) (lines, output) ∈ pre
    /\ output_failed output = true /\ is_not_stopped output = false
    /\ forall program args fuel s s1 deadline s',
         spawn program args s = (Ok tt, s1) -> deadline_after action_timeout s1 = Some deadline ->
         execute_command_with_progress fuel program args s = ((lines, Done output), s') ->
         (exists code st, watched deadline s1 (ExitedWith code) st)
         \/ exists cause st e, watched deadline s1 (StopFor cause) st /\ output = Err e
              /\ kill_and_reap program args cause st = (e, s')
              /\ (child_id st = None
                  \/ exists pid, child_id st = Some pid /\ tore_down (as_i32 pid) program args s'
                       /\ group_at (as_i32 pid) s' = Gone).
Proof.
  intros Hr E. destruct (history_runs _ _ _ _ _ (handle_execute_holds state caller rid id name params
    receipt []) Hr) as [_ Hall].
  destruct (Hall pre _ (ExecuteQuiet rb) x suf E) as (spec & lines & output & Hin & Hf & Hn).
  exists spec, lines, output. split_and!; [done..|].
  intros program args fuel s s1 deadline s' Hs Hd Hrun.
  destruct (wp_run _ _ _ _ _ (command_watched _ _ _ _ _ _ Hs Hd) Hrun output eq_refl) as (w & st & Hw & He).
  destruct w as [cause|code]; [|left; by exists code, st]. right.
  destruct He as (e & -> & Hk & Hc). exists cause, st, e. split_and!; [done..|].
  destruct (child_id st) as [pid|]; [|by left]. right. exists pid. destruct Hc as [Ht Hc]. split_and!; [done..|].
  destruct (group_at (as_i32 pid) s') eqn:Eg; [done|..]; exfalso;
    assert (e = ActionNotStopped program (as_i32 pid) action_timeout) as -> by (by apply Hc); by cbn in Hn.
Qed.

(** ** A run with a rollback *)

Module SupervisionSample.
#[local] Existing Instance Toy.crypto.
#[local] Existing Instance StoreSample.env.
#[local] Existing Instance DaemonSample.env.
#[local] Existing Instance ExecutorSample.sample.
#[local] Existing Instance ExecutorSample.sample_laws.

Definition state : DaemonState := mkDaemonState ["h"%char] empty_policy (Some (FedoraSilverblue 41)) false.

(** Everything goes well but the update, which outran its deadline. *)
Definition host : oracle := fun X i e =>
  match e in effect X return X with
  | Execute _ => (["Staging..."],
      Err (ExecIo "sudo exceeded the 60s action timeout and was stopped"))
  | e => DaemonSample.host "UpdateSystem" (Ok "") _ i e
  end.
Definition trace : list event :=
  (interp host 0 (handle_execute state DaemonSample.caller "rq2" "t1" "UpdateSystem" (JObj []) "r")).1.

Definition rollback : ActionSpec :=
  mkSpec "RollbackDeployment" (Command "rpm-ostree" ["rollback"]) High true false.

Lemma rollback_waits_for_teardown_witness :
  trace !! 12 = Some (mkEvent _ (ExecuteQuiet rollback) (Ok (mkOutput "done" "" 0)))
  /\ exists spec lines output,
    mkEvent _ (Execute spec) (lines, output) ∈ take 12 trace
    /\ output_failed output = true /\ is_not_stopped output = false
    /\ forall program args fuel s s1 deadline s',
         spawn program args s = (Ok tt, s1) -> deadline_after action_timeout s1 = Some deadline ->
         execute_command_with_progress fuel program args s = ((lines, Done output), s') ->
         (exists code st, watched deadline s1 (ExitedWith code) st)
         \/ exists cause st e, watched deadline s1 (StopFor cause) st /\ output = Err e
              /\ kill_and_reap program args cause st = (e, s')
              /\ (child_id st = None
                  \/ exists pid, child_id st = Some pid /\ tore_down (as_i32 pid) program args s'
                       /\ group_at (as_i32 pid) s' = Gone).
Proof.
  split; [vm_compute; reflexivity|].
  apply (rollback_waits_for_teardown (H3 := ExecutorSample.sample) state DaemonSample.caller "rq2" "t1"
           "UpdateSystem" (JObj []) "r" trace
           (interp host 0 (handle_execute state DaemonSample.caller "rq2" "t1" "UpdateSystem"
              (JObj []) "r")).2 _ rollback (Ok (mkOutput "done" "" 0)) (drop 13 trace)).
  - apply interp_runs.
  - vm_compute. reflexivity.
Defined.
End SupervisionSample.
