(* ===== verification/Connection.v ===== *)
(** * Connections

    crates/sysknife-daemon/src/dispatcher.rs, lines 1236 to 1622, and the accept
    loops of main.rs: a connection is a sequence of requests, each handled to its
    end before the next is read, under read deadlines; a vsock connection first
    has to present its token. What the peer does is the list of what each read of
    the framed stream ends with and after how long; the bytes of a frame are read
    by [Framing.v]. *)

From Stdlib Require Import Ascii String NArith ZArith Lia.
From stdpp Require Import base list strings gmap.
From S2P Require Import Prelude Json Types Framing Jobs Auth Distro AuditChain Signing Store.
From S2P Require Import Catalogue Preview Actions Policy Program Effects Bindings Dispatcher Handlers.

(** serde_json and the deserializers derived by serde: the bytes of a frame as a
    JSON value, a value as a request, and the bytes of an authentication frame as
    its type and token. *)
Class WireEnv : Type := {
  value_from_slice : bytes -> result string json;
  request_from_value : json -> result string DaemonRequest;
  auth_frame_from_slice : bytes -> result string (string * string) }.

(** One read of the stream: how long the peer was silent, and what the read
    answered. *)
Record Arrival : Type := mkArrival { waited_ms : N; answer : result FramingError bytes }.

(** ** Deadlines, in seconds *)

Definition VSOCK_AUTH_FRAME_TIMEOUT_SECS : N := 10.
Definition IDLE_CONNECTION_TIMEOUT : N := 15 * 60.
Definition FIRST_REQUEST_TIMEOUT : N := 30.

Definition read_deadline (requests_served : nat) : N :=
  match requests_served with O => FIRST_REQUEST_TIMEOUT | S _ => IDLE_CONNECTION_TIMEOUT end.

(** [tokio::time::timeout(deadline, framed.recv())] *)
Definition recv_within (deadline : N) (a : Arrival) : option (result FramingError bytes) :=
  if (waited_ms a <=? deadline * 1000)%N then Some (answer a) else None.

(** Why the loop ended; [StillOpen]: it is waiting for the next request. *)
Inductive Closed : Type :=
| PeerClosed
| FramingViolation
| TimedOut (requests_served : nat)
| MalformedJson
| StillOpen.

(** ** The dispatch loop *)

Section Loop.
Context `{WireEnv} `{DispatcherEnv} `{StoreEnv} `{Crypto} `{ActionCatalogue}.

Definition unknown_message (e : string) : prog (result HandlerError ()) :=
  send_error "" "validation_failure" (lit ("unknown message type: " ++ e)).

(** The result of a handler is logged and otherwise ignored. *)
Fixpoint dispatch_loop (state : DaemonState) (caller : CallerAttribution) (requests_served : nat)
    (arrivals : list Arrival) : prog Closed :=
  match arrivals with
  | [] => Ret StillOpen
  | a :: rest =>
      match recv_within (read_deadline requests_served) a with
      | None => Ret (TimedOut requests_served)
      | Some (Err (Io _)) => Ret PeerClosed
      | Some (Err (MessageTooLarge _)) => Ret FramingViolation
      | Some (Ok raw) =>
          match value_from_slice raw with
          | Err _ => Ret MalformedJson
          | Ok msg =>
              match request_from_value msg with
              | Err e =>
                  _ ← unknown_message e;
                  dispatch_loop state caller (S requests_served) rest
              | Ok request =>
                  _ ← handle_request state caller request;
                  dispatch_loop state caller (S requests_served) rest
              end
          end
      end
  end.

(** The connection of a Unix-socket peer. *)
Definition unix_connection_handler (state : DaemonState) (caller : CallerAttribution)
    (arrivals : list Arrival) : prog Closed :=
  dispatch_loop state caller 0 arrivals.

(** *** The vsock handshake *)

(** The token file and the configured role, as [validate_token_against_file]
    finds them. *)
Record TokenFile : Type := mkTokenFile {
  tf_role : option string; tf_mode : option N; tf_contents : option string }.

Definition authenticate_vsock_token (file : TokenFile) (a : Arrival) : option CallerRole :=
  match recv_within VSOCK_AUTH_FRAME_TIMEOUT_SECS a with
  | Some (Ok raw) =>
      match auth_frame_from_slice raw with
      | Ok (msg_type, token) =>
          if negb (msg_type =? "auth")%string then None
          else validate_token_against_file (tf_role file) token (tf_mode file) (tf_contents file)
      | Err _ => None
      end
  | _ => None
  end.

(** [None]: closed before any request, without an answer. *)
Definition vsock_connection_handler (state : DaemonState) (file : TokenFile)
    (arrivals : list Arrival) : prog (option Closed) :=
  match arrivals with
  | [] => Ret None
  | a :: rest =>
      match authenticate_vsock_token file a with
      | None => Ret None
      | Some role =>
          reason ← dispatch_loop state (from_vsock_token role) 0 rest; Ret (Some reason)
      end
  end.

(** ** The reference: which requests a connection serves *)

(** What is done with a frame that is a JSON value. *)
Definition serve (state : DaemonState) (caller : CallerAttribution) (r : result string DaemonRequest)
    : prog (result HandlerError ()) :=
  match r with Ok request => handle_request state caller request | Err e => unknown_message e end.

(** A frame read within the deadline that is a JSON value. *)
Definition frame_value (deadline : N) (a : Arrival) : option json :=
  match recv_within deadline a with
  | Some (Ok raw) => match value_from_slice raw with Ok msg => Some msg | Err _ => None end
  | _ => None
  end.

(** The requests of the longest prefix of such frames: the first one has the
    short deadline, the others the long one. *)
Definition later_requests : list Arrival -> list (result string DaemonRequest) :=
  fix go l := match l with
              | [] => []
              | a :: rest => match frame_value IDLE_CONNECTION_TIMEOUT a with
                             | Some msg => request_from_value msg :: go rest
                             | None => []
                             end
              end.
Definition requests_of (arrivals : list Arrival) : list (result string DaemonRequest) :=
  match arrivals with
  | [] => []
  | a :: rest => match frame_value FIRST_REQUEST_TIMEOUT a with
                 | Some msg => request_from_value msg :: later_requests rest
                 | None => []
                 end
  end.
End Loop.

(** ** What a connection does *)

Section Facts.
Context `{WireEnv} `{DispatcherEnv} `{StoreEnv} `{Crypto} `{ActionCatalogue}.
Variables (state : DaemonState) (caller : CallerAttribution).

(** A run of a sequence of requests: one run of each handler, one after the
    other. *)
Definition served_in_order (requests : list (result string DaemonRequest)) (tr : list event) : Prop :=
  exists trs, tr = concat trs
    /\ Forall2 (fun r t => exists res, runs (serve state caller r) t res) requests trs.

Lemma served_nil tr : served_in_order [] tr <-> tr = [].
Proof.
  split.
  - intros (trs & -> & HF). by inversion HF.
  - intros ->. exists []. by split.
Qed.

Lemma served_cons r rs tr :
  served_in_order (r :: rs) tr
  <-> exists t tr' res, tr = t ++ tr' /\ runs (serve state caller r) t res /\ served_in_order rs tr'.
Proof.
  split.
  - intros (trs & -> & HF). inversion HF as [|? t ? trs' [res Hr] HF']; subst.
    exists t, (concat trs'), res. split_and!; [done..|]. by exists trs'.
  - intros (t & tr' & res & -> & Hr & trs & -> & HF). exists (t :: trs). split; [done|].
    constructor; [by exists res|done].
Qed.

(** One turn of the loop. *)
Lemma loop_turn n a rest tr reason :
  runs (dispatch_loop state caller n (a :: rest)) tr reason
  <-> match frame_value (read_deadline n) a with
      | Some msg => exists t tr' res, tr = t ++ tr'
          /\ runs (serve state caller (request_from_value msg)) t res
          /\ runs (dispatch_loop state caller (S n) rest) tr' reason
      | None => tr = [] /\ reason = match recv_within (read_deadline n) a with
                                   | None => TimedOut n
                                   | Some (Err (Io _)) => PeerClosed
                                   | Some (Err (MessageTooLarge _)) => FramingViolation
                                   | Some (Ok _) => MalformedJson
                                   end
      end.
Proof.
  cbn [dispatch_loop]. unfold frame_value.
  destruct (recv_within (read_deadline n) a) as [[raw|[k|e]]|]; try apply runs_ret_iff.
  destruct (value_from_slice raw) as [msg|e]; [|apply runs_ret_iff].
  destruct (request_from_value msg) as [r|e]; cbn [serve]; apply runs_bind.
Qed.

Lemma later_spec n arrivals tr :
  (exists reason, runs (dispatch_loop state caller (S n) arrivals) tr reason)
  <-> served_in_order (later_requests arrivals) tr.
Proof.
  revert n tr. induction arrivals as [|a rest IH]; intros n tr.
  - cbn [dispatch_loop later_requests]. rewrite served_nil. split.
    + intros [reason Hr]. by apply runs_ret_iff in Hr as [-> _].
    + intros ->. exists StillOpen. by apply runs_ret_iff.
  - cbn [later_requests]. setoid_rewrite loop_turn. cbn [read_deadline].
    destruct (frame_value IDLE_CONNECTION_TIMEOUT a) as [msg|].
    + rewrite served_cons. setoid_rewrite <-(IH (S n)). naive_solver.
    + rewrite served_nil. naive_solver.
Qed.

Lemma served_spec arrivals tr :
  (exists reason, runs (dispatch_loop state caller 0 arrivals) tr reason)
  <-> served_in_order (requests_of arrivals) tr.
Proof.
  destruct arrivals as [|a rest].
  - cbn [dispatch_loop requests_of]. rewrite served_nil. split.
    + intros [reason Hr]. by apply runs_ret_iff in Hr as [-> _].
    + intros ->. exists StillOpen. by apply runs_ret_iff.
  - cbn [requests_of]. setoid_rewrite loop_turn. cbn [read_deadline].
    destruct (frame_value FIRST_REQUEST_TIMEOUT a) as [msg|].
    + rewrite served_cons. setoid_rewrite <-(later_spec 0). naive_solver.
    + rewrite served_nil. naive_solver.
Qed.
End Facts.

(** ** The accept loops (main.rs) *)

Inductive ErrorKind : Type := ConnectionAborted | ConnectionReset | OtherKind.
Inductive AcceptErrorAction : Type := LogTransient | BreakFatal.

Definition classify_accept_error (kind : ErrorKind) : AcceptErrorAction :=
  match kind with ConnectionAborted | ConnectionReset => LogTransient | OtherKind => BreakFatal end.

Definition MAX_CONNECTIONS : nat := 16.

(** What the loop's [select!] and the tasks it spawned wake up with. *)
Inductive AcceptEvent : Type :=
| PeerConnected
| HandlerEnded
| AcceptFailed (kind : ErrorKind)
| ShutdownSignal.

(** The permits of the semaphore that are free, the connections being handled,
    those dropped at the limit, and whether the loop still runs. *)
Record Listener : Type := mkListener {
  permits : nat; handling : nat; dropped : nat; accepting : bool }.

Definition fresh_listener : Listener := mkListener MAX_CONNECTIONS 0 0 true.

(** A handler that ends gives its permit back whether or not the loop still
    runs; nothing else happens once it does not. *)
Definition accept_step (l : Listener) (ev : AcceptEvent) : Listener :=
  match ev with
  | HandlerEnded =>
      match handling l with
      | O => l
      | S n => mkListener (S (permits l)) n (dropped l) (accepting l)
      end
  | PeerConnected =>
      if accepting l then
        match permits l with
        | S p => mkListener p (S (handling l)) (dropped l) true
        | O => mkListener O (handling l) (S (dropped l)) true
        end
      else l
  | AcceptFailed kind =>
      match classify_accept_error kind with
      | LogTransient => l
      | BreakFatal => mkListener (permits l) (handling l) (dropped l) false
      end
  | ShutdownSignal => mkListener (permits l) (handling l) (dropped l) false
  end.

Definition accept_loop (evs : list AcceptEvent) : Listener := fold_left accept_step evs fresh_listener.

Lemma permits_conserved evs : forall l,
  permits (fold_left accept_step evs l) + handling (fold_left accept_step evs l)
  = permits l + handling l.
Proof.
  induction evs as [|ev evs IH]; intros l; [done|]. cbn [fold_left]. rewrite IH.
  destruct l as [[|p] [|h] d [|]], ev as [| |[]|]; cbn; lia.
Qed.

(** ** The properties *)

Section Properties.
Context `{WireEnv} `{DispatcherEnv} `{StoreEnv} `{Crypto} `{ActionCatalogue}.

Lemma loop_silence state caller pre a rest n tr reason :
  (read_deadline (n + length pre) * 1000 < waited_ms a)%N ->
  runs (dispatch_loop state caller n (pre ++ a :: rest)) tr reason ->
  reason <> StillOpen /\ runs (dispatch_loop state caller n (pre ++ [a])) tr reason.
Proof.
  intros Hw. revert n tr Hw. induction pre as [|b pre IH]; intros n tr Hw Hr; cbn [app length] in *.
  - rewrite Nat.add_0_r in Hw. apply loop_turn in Hr. rewrite loop_turn.
    unfold frame_value, recv_within in *. destruct (N.leb_spec (waited_ms a) (read_deadline n * 1000)); [lia|].
    destruct Hr as [-> ->]. done.
  - apply loop_turn in Hr. rewrite loop_turn. destruct (frame_value (read_deadline n) b) as [msg|].
    + destruct Hr as (t & tr' & res & -> & Ht & Hl). apply IH in Hl as [Hne Hl].
      * split; [done|]. by exists t, tr', res.
      * replace (S n + length pre) with (n + S (length pre)) by lia. done.
    + destruct Hr as [-> ->]. split; [|done]. by repeat case_match.
Qed.

Lemma still_open_served state caller arrivals : forall n tr,
  runs (dispatch_loop state caller n arrivals) tr StillOpen ->
  Forall2 (fun i a => is_Some (frame_value (read_deadline i) a)) (seq n (length arrivals)) arrivals.
Proof.
  induction arrivals as [|a rest IH]; intros n tr Hr; cbn [length seq]; [done|].
  apply loop_turn in Hr. destruct (frame_value (read_deadline n) a) as [msg|] eqn:E.
  - destruct Hr as (t & tr' & res & -> & Ht & Hl). constructor; [by rewrite E|]. by eapply IH.
  - destruct Hr as [_ Hr]. by repeat case_match.
Qed.

(** C22: a connection serves its peer's requests in order, one at a time, and
    nothing else. The runs of the dispatch loop are exactly those made of one run
    of the handler of each request of the reference, one after the other, where
    the reference takes the frames up to the first that is late, broken or not
    JSON, with the short deadline for the first frame and the long one for the
    rest; and the loop is still waiting only when every frame so far was served. *)
Theorem connection_serves_in_order state caller arrivals tr :
  ((exists reason, runs (unix_connection_handler state caller arrivals) tr reason)
   <-> served_in_order state caller (requests_of arrivals) tr)
  /\ (runs (unix_connection_handler state caller arrivals) tr StillOpen ->
      forall i a, arrivals !! i = Some a -> is_Some (frame_value (read_deadline i) a)).
Proof.
  split; [apply served_spec|]. intros Hr i a Ha.
  pose proof (still_open_served _ _ _ _ _ Hr) as HF.
  apply Forall2_lookup_r with (i := i) (y := a) in HF as (j & Hj & Hf); [|done].
  apply lookup_seq in Hj as [-> _]. done.
Qed.

(** A silent peer cannot keep its connection. Once it stays silent for
    longer than the deadline (30 seconds before its first request, 15 minutes
    after), the loop ends, in every run, and whatever the peer sends later is
    not served. *)
Theorem silent_peers_are_closed state caller pre a rest tr reason :
  (read_deadline (length pre) * 1000 < waited_ms a)%N ->
  runs (unix_connection_handler state caller (pre ++ a :: rest)) tr reason ->
  reason <> StillOpen /\ runs (unix_connection_handler state caller (pre ++ [a])) tr reason.
Proof. intros Hw. by apply loop_silence. Qed.

(** The account a change of the store is made for. *)
Definition written_for X (e : effect X) : option CallerPrincipal :=
  match e with
  | Approve _ who | Revoke _ who | CancelQueued _ who => Some who
  | Claim _ _ who => Some who
  | RecordPreviewed t _ => Some (nt_caller_principal t)
  | _ => None
  end.

Lemma serve_written_for state caller r t res ev who :
  runs (serve state caller r) t res -> ev ∈ t -> written_for _ (ev_effect ev) = Some who ->
  who = att_principal caller.
Proof.
  intros Hr [pre (suf & E)]%list_elem_of_split Hw. destruct ev as [X e x]. cbn in Hw.
  assert (Ha : write_allowed state caller X pre e).
  { destruct r as [request|error]; cbn [serve] in Hr.
    - destruct (history_runs _ _ _ _ _ (handle_request_writes state caller request) Hr) as [_ Hall].
      exact (Hall pre X e x suf E).
    - apply runs_inv in Hr as (y & tr' & Et & Hr). rewrite Et in E. apply runs_ret_iff in Hr as [-> _].
      destruct pre as [|? [|]]; [|done..].
      pose proof (f_equal (fun l => match l with ev :: _ => written_for _ (ev_effect ev) | [] => None end) E)
        as HE. cbn in HE. congruence. }
  destruct e; cbn in Hw; simplify_eq; cbn in Ha; tauto.
Qed.

(** Over vsock nothing happens without the token, and nothing is done in
    anyone else's name. A connection with any effect at all began, within the
    handshake deadline, with an authentication frame whose token is the trimmed
    contents of a token file closed to group and others; its requests are served
    with the configured role, and every change they make to the store is made
    for the token's own principal. *)
Theorem vsock_needs_token state file arrivals tr res ev :
  runs (vsock_connection_handler state file arrivals) tr res -> ev ∈ tr ->
  (exists a rest raw token mode contents,
     arrivals = a :: rest /\ (waited_ms a <= VSOCK_AUTH_FRAME_TIMEOUT_SECS * 1000)%N
     /\ answer a = Ok raw /\ auth_frame_from_slice raw = Ok ("auth", token) /\ token <> ""
     /\ tf_mode file = Some mode /\ N.land mode 63 = 0%N
     /\ tf_contents file = Some contents /\ str_trim contents = token
     /\ served_in_order state (from_vsock_token (token_role (tf_role file))) (requests_of rest) tr)
  /\ forall who, written_for _ (ev_effect ev) = Some who -> who = VsockToken.
Proof.
  intros Hr Hev. unfold vsock_connection_handler in Hr.
  destruct arrivals as [|a rest]; [apply runs_ret_iff in Hr as [-> _]; by apply not_elem_of_nil in Hev|].
  destruct (authenticate_vsock_token file a) as [role|] eqn:Ea;
    [|apply runs_ret_iff in Hr as [-> _]; by apply not_elem_of_nil in Hev].
  apply runs_bind in Hr as (t & u & reason & -> & Hr & Hu). apply runs_ret_iff in Hu as [-> _].
  rewrite app_nil_r in *.
  assert (Hserved : served_in_order state (from_vsock_token role) (requests_of rest) t).
  { apply served_spec. by exists reason. }
  unfold authenticate_vsock_token, recv_within in Ea.
  destruct (N.leb_spec (waited_ms a) (VSOCK_AUTH_FRAME_TIMEOUT_SECS * 1000)); [|done].
  destruct (answer a) as [raw|] eqn:Ew; [|done].
  destruct (auth_frame_from_slice raw) as [[msg_type token]|] eqn:Ef; [|done].
  destruct (String.eqb_spec msg_type "auth") as [->|]; cbn [negb] in Ea; [|done].
  apply token_validation in Ea as (Hne & (mode & Hm & Hmask) & (contents & Hc & Ht) & ->).
  split.
  - exists a, rest, raw, token, mode, contents. by split_and!.
  - intros who Hw. destruct Hserved as (trs & -> & HF).
    apply list_elem_of_In, in_concat in Hev as (u & Hu%list_elem_of_In & Hev%list_elem_of_In).
    apply list_elem_of_lookup in Hu as [i Hi].
    destruct (Forall2_lookup_r _ _ _ _ _ HF Hi) as (r & _ & [res' Hr']).
    by rewrite (serve_written_for _ _ _ _ _ _ _ Hr' Hev Hw).
Qed.
End Properties.

(** At most MAX_CONNECTIONS connections are handled at a time. Whatever the
    accept loop and its tasks go through, the free permits and the handled
    connections add up to the limit; a connection that arrives while the loop runs
    is dropped exactly when the limit is reached, and is handled otherwise. *)
Theorem connections_bounded evs :
  permits (accept_loop evs) + handling (accept_loop evs) = MAX_CONNECTIONS
  /\ (accepting (accept_loop evs) = true ->
      let l := accept_step (accept_loop evs) PeerConnected in
      if decide (handling (accept_loop evs) = MAX_CONNECTIONS)
      then handling l = handling (accept_loop evs) /\ dropped l = S (dropped (accept_loop evs))
      else handling l = S (handling (accept_loop evs)) /\ dropped l = dropped (accept_loop evs)).
Proof.
  pose proof (permits_conserved evs fresh_listener) as Hc. fold (accept_loop evs) in Hc. cbn in Hc.
  split; [done|]. intros Ha. cbn [accept_step]. rewrite Ha.
  destruct (accept_loop evs) as [[|p] h d acc]; cbn in *; case_decide; unfold MAX_CONNECTIONS in *;
    cbn; lia.
Qed.

(** ** A peer *)

Module ConnectionSample.
#[local] Existing Instance Toy.crypto.
#[local] Existing Instance StoreSample.env.
#[local] Existing Instance DaemonSample.env.

(** A wire whose frames are bare words. *)
#[export] Instance wire : WireEnv := {|
  value_from_slice := fun bs => Ok (JStr (string_of_list_ascii bs));
  request_from_value := fun v =>
    match v with
    | JStr "approve" => Ok (ApproveRequest "rq" "t1")
    | JStr "describe" => Ok (Describe "rq" "AptUpgrade" (JObj []))
    | _ => Err "unknown variant"
    end;
  auth_frame_from_slice := fun bs => Ok ("auth", string_of_list_ascii bs) |}%string.

Definition frame (waited : N) (word : string) : Arrival := mkArrival waited (Ok (list_ascii_of_string word)).

(** Describe, a word that is no request, approve, then silence for an hour. *)
Definition session : list Arrival :=
  [frame 100 "describe"; frame 500 "hello"; frame 60000 "approve"; frame 3600000 "describe"].
Definition host : oracle := DaemonSample.host "AptUpgrade" (Ok "").
Definition handled (arrivals : list Arrival) : list event * Closed :=
  interp host 0 (unix_connection_handler DaemonSample.state DaemonSample.caller arrivals).

Lemma session_requests :
  requests_of session = [Ok (Describe "rq" "AptUpgrade" (JObj [])); Err "unknown variant";
                         Ok (ApproveRequest "rq" "t1")]
  /\ (handled session).2 = TimedOut 3 /\ length (handled session).1 = 6.
Proof. vm_compute. done. Qed.

Lemma connection_serves_in_order_witness :
  served_in_order DaemonSample.state DaemonSample.caller (requests_of session) (handled session).1
  /\ is_Some (frame_value FIRST_REQUEST_TIMEOUT (frame 100 "describe")).
Proof.
  split.
  - apply (connection_serves_in_order DaemonSample.state DaemonSample.caller session).
    exists (handled session).2. apply interp_runs.
  - destruct (connection_serves_in_order DaemonSample.state DaemonSample.caller
      [frame 100 "describe"] (handled [frame 100 "describe"]).1) as [_ Hs].
    refine (Hs _ 0 _ eq_refl). apply interp_runs.
Defined.

Lemma silent_peers_are_closed_witness :
  runs (unix_connection_handler DaemonSample.state DaemonSample.caller [mkArrival 31000 (Ok [])])
    [] (TimedOut 0).
Proof.
  apply (silent_peers_are_closed DaemonSample.state DaemonSample.caller []
           (mkArrival 31000 (Ok [])) [frame 1 "approve"] [] (TimedOut 0)).
  - vm_compute. reflexivity.
  - constructor.
Defined.

Definition token_file : TokenFile := mkTokenFile (Some "admin") (Some 384%N) (Some "s3cret").
Definition vsock_session : list Arrival := [frame 10 "s3cret"; frame 100 "describe"].
Definition vsock_handled : list event * option Closed :=
  interp host 0 (vsock_connection_handler DaemonSample.state token_file vsock_session).

Lemma vsock_needs_token_witness :
  exists a rest raw token mode contents,
     vsock_session = a :: rest /\ (waited_ms a <= VSOCK_AUTH_FRAME_TIMEOUT_SECS * 1000)%N
     /\ answer a = Ok raw /\ auth_frame_from_slice raw = Ok ("auth", token) /\ token <> ""
     /\ tf_mode token_file = Some mode /\ N.land mode 63 = 0%N
     /\ tf_contents token_file = Some contents /\ str_trim contents = token
     /\ served_in_order DaemonSample.state (from_vsock_token (token_role (tf_role token_file)))
          (requests_of rest) vsock_handled.1.
Proof.
  assert (Hr : runs (vsock_connection_handler DaemonSample.state token_file vsock_session)
                 vsock_handled.1 vsock_handled.2) by apply interp_runs.
  assert (Hev : exists ev, ev ∈ vsock_handled.1).
  { assert (Hl : length vsock_handled.1 = 1) by (vm_compute; reflexivity). revert Hl.
    generalize vsock_handled.1. intros [|ev tr]; [discriminate|]. exists ev. by left. }
  destruct Hev as [ev Hev]. exact (proj1 (vsock_needs_token _ _ _ _ _ ev Hr Hev)).
Defined.

Lemma connections_bounded_witness :
  permits (accept_loop (repeat PeerConnected 20)) + handling (accept_loop (repeat PeerConnected 20))
  = MAX_CONNECTIONS.
Proof. exact (proj1 (connections_bounded (repeat PeerConnected 20))). Defined.
End ConnectionSample.
