(* ===== verification/Concurrency.v ===== *)
(** * Requests running beside each other

    The daemon serves every connection in its own task and all of them share the
    audit store and the exclusion map (crates/sysknife-daemon/src/state.rs,
    dispatcher.rs). A system is that shared world with a pool of request
    programs; one step lets one task perform its next effect and get an answer,
    or admits a new request. The store answers by the functions of [Store.v] at
    some instant, or with an error that leaves it alone; the exclusion map
    answers by [try_claim] and [release_slots]; everything outside the daemon
    answers anything. *)

From Stdlib Require Import Ascii String NArith ZArith Lia.
From stdpp Require Import base list sets strings gmap.
From S2P Require Import Prelude Json Types Jobs Auth Distro AuditChain Signing Store Actions.
From S2P Require Import Catalogue Preview Policy Program Effects Bindings Dispatcher Handlers.

(** A request being served: what is left of its program. *)
Abbreviation Task := (DaemonRequest * prog (result HandlerError ()))%type.
Abbreviation Pool := (gmap nat Task).

(** [w_log] records the tasks whose action was run, in order. *)
Record World : Type := mkWorld { w_db : Db; w_slots : Slots; w_log : list nat }.
Definition with_db (w : World) (db : Db) : World := mkWorld db (w_slots w) (w_log w).
Definition with_slots (w : World) (slots : Slots) : World := mkWorld (w_db w) slots (w_log w).

Section System.
Context `{DispatcherEnv} `{StoreEnv} `{Crypto} `{ActionCatalogue}.
Variables (key : AuditKey) (state : DaemonState).

(** A store operation: its result at some instant, or a failure. *)
Definition store_write {A} (op : Z -> Db -> result StoreError (A * Db)) (w : World)
    (x : result StoreError A) (w' : World) : Prop :=
  (exists now a db', op now (w_db w) = Ok (a, db') /\ x = Ok a /\ w' = with_db w db')
  \/ (exists e, x = Err e /\ w' = w).
Definition store_read {A} (op : Db -> result StoreError A) (w : World)
    (x : result StoreError A) (w' : World) : Prop :=
  (x = op (w_db w) \/ exists e, x = Err e) /\ w' = w.

(** What an effect may be answered in a world, and the world it leaves. *)
Definition answers {X} (w : World) (e : effect X) : X -> World -> Prop :=
  match e in effect X return X -> World -> Prop with
  | FetchChainRow id => fun x w' => store_read (fun db => Ok (fetch_chain_row db id)) w x w'
  | GetTx id => fun x w' => store_read (fun db => get db id) w x w'
  | GetPreview id => fun x w' => store_read (fun db => Ok (Store.get_preview db id)) w x w'
  | RecordPreviewed t p => fun x w' =>
      exists uuid, store_write (fun now db =>
        '(r, db') ← record_previewed (Some key) now uuid t p db; Ok (fst r, db')) w x w'
  | Approve id who => fun x w' => store_write (fun now => approve_transaction (Some key) now id who) w x w'
  | Revoke id who => fun x w' =>
      store_write (fun now => revoke_unconsumed_approval (Some key) now id who) w x w'
  | Claim id digest who => fun x w' =>
      store_write (fun now => claim_approved_for_execution (Some key) now id digest who) w x w'
  | CancelQueued id who => fun x w' => store_write (fun now => cancel_queued (Some key) now id who) w x w'
  | ReadTransition id target => fun x w' => store_read (fun db => read_transition db id target) w x w'
  | CasStatus id current target => fun x w' =>
      store_write (fun now db =>
        db' ← cas_status (Some key) now id current target db; Ok (tt, db')) w x w'
  | TryClaim own to_claim hash => fun x w' =>
      x = (try_claim own to_claim hash (w_slots w)).1
      /\ w' = with_slots w (try_claim own to_claim hash (w_slots w)).2
  | Release claimed hash => fun _ w' => w' = with_slots w (release_slots claimed hash (w_slots w))
  | _ => fun _ w' => w' = w
  end.



Definition logged {X} (task : nat) (e : effect X) (w : World) : World :=
  match e with
  | Execute _ => mkWorld (w_db w) (w_slots w) (w_log w ++ [task])
  | _ => w
  end.

Inductive sys_step : World * Pool -> World * Pool -> Prop :=
| sys_request w pool task caller request :
    pool !! task = None ->
    sys_step (w, pool) (w, <[task := (request, handle_request state caller request)]> pool)
| sys_effect w pool task request X (e : effect X) k x w' :
    pool !! task = Some (request, Vis e k) -> answers w e x w' ->
    sys_step (w, pool) (logged task e w', <[task := (request, k x)]> pool).

Inductive sys_reachable : World * Pool -> Prop :=
| sys_start db : Store.reachable key db -> sys_reachable (mkWorld db ∅ [], ∅)
| sys_next s s' : sys_reachable s -> sys_step s s' -> sys_reachable s'.
End System.

(** ** The lock discipline of one request *)

Record Locks : Type := mkLocks { lk_held : list ExclusiveResource; lk_hash : string; lk_stuck : bool }.
Definition no_locks : Locks := mkLocks [] "" false.

Section LockMonitor.
Context `{DispatcherEnv} `{StoreEnv} `{Crypto} `{ActionCatalogue} `{!ActionCatalogueLaws}.
Variable policy : PolicyTable.

Definition lock_allow X (g : Locks) (e : effect X) : Prop :=
  match e with
  | TryClaim own to_claim hash =>
      lk_held g = [] /\ NoDup to_claim /\ forall r, r ∈ to_claim -> r = System \/ own = Some r
  | Release claimed hash => claimed = lk_held g /\ hash = lk_hash g
  | Execute spec =>
      execute_is_mutating policy (action_name spec) spec = true ->
      lk_held g = resources_to_claim true spec
  | _ => True
  end.

Definition lock_next X (g : Locks) (e : effect X) : X -> Locks :=
  match e in effect X return X -> Locks with
  | TryClaim _ to_claim hash => fun x =>
      match x with None => mkLocks to_claim hash (lk_stuck g) | Some _ => g end
  | Release _ _ => fun _ => mkLocks [] (lk_hash g) (lk_stuck g)
  | Execute _ => fun x => mkLocks (lk_held g) (lk_hash g) (is_not_stopped x.2)
  | _ => fun _ => g
  end.

Definition lock_monitor : Monitor Locks := mkMonitor Locks lock_allow lock_next.

(** A request ends holding no lock, unless its action could not be confirmed
    stopped. *)
Definition locks_released {A} (g : Locks) (_ : A) : Prop := lk_held g = [] \/ lk_stuck g = true.

Definition lock_free X (e : effect X) : Prop :=
  match e with TryClaim _ _ _ | Release _ _ | Execute _ => False | _ => True end.

Lemma holds_lock_free {A} (post : Locks -> A -> Prop) g p :
  only lock_free p -> (forall a, post g a) -> holds lock_monitor post g p.
Proof.
  intros Hp Hpost. apply (holds_only _ lock_free (fun g' => g' = g)); try done.
  - intros X g' e He ->. by destruct e.
  - intros g' a ->. apply Hpost.
Qed.

Lemma resources_nodup b spec : NoDup (resources_to_claim b spec).
Proof.
  unfold resources_to_claim. destruct b; [|constructor].
  destruct (is_high_risk_reboot spec), (exclusive_resource spec) as [[]|]; cbn;
    repeat case_bool_decide; try set_solver; repeat constructor; set_solver.
Qed.

Lemma resources_own b spec r :
  r ∈ resources_to_claim b spec -> r = System \/ exclusive_resource spec = Some r.
Proof.
  unfold resources_to_claim. destruct b; [|set_solver].
  destruct (is_high_risk_reboot spec), (exclusive_resource spec) as [r'|]; cbn;
    repeat case_bool_decide; set_solver.
Qed.

Lemma release_holds {A} (post : Locks -> A -> Prop) claimed hash g (p : prog A) :
  lk_held g = claimed -> (claimed <> [] -> lk_hash g = hash) ->
  (forall g', lk_held g' = [] -> holds lock_monitor post g' p) ->
  holds lock_monitor post g (_ ← release_exclusive_slots claimed hash; p).
Proof.
  intros Hh Hx Hp. apply holds_bind. unfold release_exclusive_slots.
  destruct claimed as [|r claimed]; [by apply Hp|].
  apply holds_perform; [split; [done|by rewrite Hx]|]. intros []. by apply Hp.
Qed.

Lemma refuse_holds claimed hash g request_id category message :
  lk_held g = claimed -> (claimed <> [] -> lk_hash g = hash) ->
  holds lock_monitor locks_released g
    (_ ← release_exclusive_slots claimed hash; send_error request_id category message).
Proof.
  intros Hh Hx. apply release_holds; [done|done|]. intros g' Hg'. apply holds_lock_free.
  - by apply only_call.
  - by left.
Qed.

Lemma holds_lock_free_bind {A B} (post : Locks -> B -> Prop) (f : A -> prog B) g p :
  only lock_free p -> (forall a, holds lock_monitor post g (f a)) ->
  holds lock_monitor post g (p ≫= f).
Proof. intros Hp Hf. apply holds_bind. by apply holds_lock_free. Qed.

Lemma update_terminal_lock_free id target : only lock_free (update_terminal_status id target).
Proof.
  unfold update_terminal_status. generalize 0%N as attempt.
  induction (TERMINAL_STATUS_RETRY_ATTEMPTS - 1) as [|n IH]; intros attempt;
    cbn [update_terminal_attempts]; unfold update_status_effects; repeat ostep; auto; done.
Qed.

Lemma quiet_lock_free {A} (p : prog A) : only quiet p -> only lock_free p.
Proof. apply only_mono. by intros X []. Qed.
#[local] Hint Resolve quiet_lock_free progress_quiet owns_quiet check_autoremove_quiet
  check_deployment_quiet rollback_quiet : core.

Lemma finish_locks (state : DaemonState) caller id name job_id spec to_claim hash output g :
  lk_held g = to_claim -> (to_claim <> [] -> lk_hash g = hash) ->
  lk_stuck g = is_not_stopped output ->
  holds lock_monitor locks_released g
    (finish_execution state caller id name job_id spec to_claim hash output).
Proof.
  intros Hh Hx Hs. unfold finish_execution. destruct (initial_outcome _ _ _) as [status summary].
  apply holds_lock_free_bind; [auto|intros _].
  apply holds_lock_free_bind; [auto|]. intros [[final s] rb].
  assert (Htail : forall g', lk_held g' = [] \/ lk_stuck g' = true ->
    holds lock_monitor locks_released g'
     (updated ← update_terminal_status id final;
      warnings ← match updated with
                 | Ok _ =>
                     _ ← (if ds_forwarder state
                          then call (ForwardAudit id (att_role caller) (Some final))
                          else Ret tt);
                     Ret []
                 | Err e => Ret [lit ("audit trail update failed: " ++ show_store_error e)]
                 end;
      send_response (JobCompleted job_id
        (mkJobResult (job_state_str final) (lit s) warnings job_id
           (bool_decide (final = NeedsReboot)) rb id)))).
  { intros g' Hg'. apply holds_lock_free; [|done].
    apply only_bind; [apply update_terminal_lock_free|]. intros u.
    unfold send_response. repeat ostep; done. }
  destruct (is_not_stopped output) eqn:E.
  - apply holds_bind, holds_ret, Htail. by right.
  - apply release_holds; [done|done|]. intros g' Hg'. apply Htail. by left.
Qed.

Lemma run_claimed_locks (state : DaemonState) caller request_id id name spec to_claim hash g :
  lk_held g = to_claim -> (to_claim <> [] -> lk_hash g = hash) ->
  (execute_is_mutating policy (action_name spec) spec = true ->
   to_claim = resources_to_claim true spec) ->
  holds lock_monitor locks_released g
    (run_claimed state caller request_id id name spec to_claim hash).
Proof.
  intros Hh Hx Hm. unfold run_claimed, send_response.
  apply holds_lock_free_bind; [by apply only_call|]. intros job_id.
  apply holds_lock_free_bind; [by apply only_call|]. intros [|e].
  - do 2 (apply holds_lock_free_bind; [auto|intros _]).
    hstep. apply holds_perform; [cbn; intros Hmut; by rewrite Hh, Hm|]. intros [lines output].
    cbv beta iota. cbn [next lock_monitor lock_next].
    apply holds_lock_free_bind; [apply only_for_each; auto|intros _].
    by apply finish_locks.
  - apply release_holds; [done|done|]. intros g' Hg'. apply holds_lock_free; [|by left].
    apply only_bind; [apply update_terminal_lock_free|by intros].
Qed.

Lemma claim_and_run_locks (state : DaemonState) caller request_id id name params receipt spec
    to_claim hash g :
  lk_held g = to_claim -> (to_claim <> [] -> lk_hash g = hash) ->
  (execute_is_mutating policy (action_name spec) spec = true ->
   to_claim = resources_to_claim true spec) ->
  holds lock_monitor locks_released g
    (claim_and_run state caller request_id id name params receipt spec to_claim hash).
Proof.
  intros Hh Hx Hm. unfold claim_and_run.
  apply holds_lock_free_bind; [by apply only_call|]. intros [[]|e]; [|by apply refuse_holds..].
  apply holds_lock_free_bind; [auto|].
  intros [u|[category message]]; [|by apply refuse_holds].
  apply holds_lock_free_bind; [auto|].
  intros [u'|[category message]]; [|by apply refuse_holds].
  by apply run_claimed_locks.
Qed.

Lemma handle_execute_locks state caller request_id id name params receipt :
  ds_policy state = policy ->
  holds lock_monitor locks_released no_locks
    (handle_execute state caller request_id id name params receipt).
Proof.
  intros Hpol. unfold handle_execute.
  assert (Hend : forall p : prog (result HandlerError ()), only lock_free p ->
            holds lock_monitor locks_released no_locks p).
  { intros p Hp. apply holds_lock_free; [done|by left]. }
  destruct (build_action_spec name params) as [spec|e] eqn:Es; [|by apply Hend, only_call].
  apply holds_lock_free_bind; [auto|]. intros o.
  destruct (ownership_refusal id o); [by apply Hend, only_call|].
  destruct (negb _); [by apply Hend, only_call|].
  destruct (validate_action_platform state name); [|by apply Hend, only_call].
  apply holds_lock_free_bind; [by apply only_call|].
  intros [[rec|]|e]; [|by apply Hend, only_call..].
  destruct (negb _ || _); [by apply Hend, only_call|].
  pose proof (build_names_action name params spec Es) as Hname.
  unfold gate_and_claim. rewrite Hpol. destruct (execute_is_mutating policy name spec) eqn:Em.
  - hstep. apply holds_perform.
    { cbn. split_and!; [done|apply (resources_nodup true)|apply (resources_own true)]. }
    intros [[r h]|]; [by apply Hend, only_call|].
    by apply claim_and_run_locks.
  - apply claim_and_run_locks; [done|done|]. rewrite Hname, Em. done.
Qed.

Lemma handle_request_locks state caller r :
  ds_policy state = policy ->
  holds lock_monitor locks_released no_locks (handle_request state caller r).
Proof.
  intros Hpol. destruct (executes r) as [id|] eqn:Er.
  - destruct r; simplify_eq/=. by apply handle_execute_locks.
  - apply holds_lock_free; [|by left]. apply quiet_lock_free. by apply handle_other_quiet.
Qed.
End LockMonitor.

(** ** The exclusion map *)

Lemma blocking_slot_None own slots :
  blocking_slot own slots = None <->
  slots !! System = None /\ forall r, own = Some r -> slots !! r = None.
Proof.
  unfold blocking_slot. destruct (slots !! System); [naive_solver|].
  destruct own as [r|]; simpl; [|naive_solver]. destruct (slots !! r) eqn:E; simpl; naive_solver.
Qed.

Lemma lookup_claimed to_claim hash (slots : gmap ExclusiveResource string) r :
  fold_left (fun m r => <[r := hash]> m) to_claim slots !! r =
  if bool_decide (r ∈ to_claim) then Some hash else slots !! r.
Proof.
  revert slots. induction to_claim as [|r0 l IH]; intros slots; cbn [fold_left];
    [by rewrite bool_decide_eq_false_2 by set_solver|].
  rewrite IH. destruct (decide (r ∈ l)) as [Hin|Hin].
  - rewrite !bool_decide_eq_true_2 by set_solver. done.
  - rewrite (bool_decide_eq_false_2 (r ∈ l)) by done. destruct (decide (r = r0)) as [->|Hne].
    + rewrite lookup_insert_eq, bool_decide_eq_true_2 by set_solver. done.
    + rewrite lookup_insert_ne, bool_decide_eq_false_2 by set_solver. done.
Qed.

Lemma lookup_released claimed hash (slots : gmap ExclusiveResource string) r :
  (forall r, r ∈ claimed -> slots !! r = Some hash) -> NoDup claimed ->
  release_slots claimed hash slots !! r = if bool_decide (r ∈ claimed) then None else slots !! r.
Proof.
  unfold release_slots. revert slots. induction claimed as [|r0 l IH]; intros slots Hs Hnd;
    cbn [fold_left]; [by rewrite bool_decide_eq_false_2 by set_solver|].
  apply NoDup_cons in Hnd as [Hr0 Hnd].
  rewrite (bool_decide_eq_true_2 (slots !! r0 = Some hash)) by (apply Hs; set_solver).
  rewrite IH; [|intros r' Hr'; rewrite lookup_delete_ne by set_solver; apply Hs; set_solver|done].
  destruct (decide (r = r0)) as [->|Hne].
  - rewrite (bool_decide_eq_true_2 (r0 ∈ r0 :: l)) by set_solver.
    case_bool_decide; [done|apply lookup_delete_eq].
  - rewrite lookup_delete_ne by done. by repeat case_bool_decide; set_solver.
Qed.

Lemma release_nil hash (slots : Slots) : release_slots [] hash slots = slots.
Proof. done. Qed.

Section Exclusion.
Context `{DispatcherEnv} `{StoreEnv} `{Crypto} `{ActionCatalogue} `{!ActionCatalogueLaws}.
Variables (key : AuditKey) (state : DaemonState).

(** Every task follows the discipline from some locks; the locks of the tasks are
    disjoint, and they are what the map holds. *)
Record LockInv (w : World) (pool : Pool) (held : nat -> Locks) : Prop := {
  li_task : forall t q p, pool !! t = Some (q, p) ->
    holds (lock_monitor (ds_policy state)) locks_released (held t) p;
  li_idle : forall t, pool !! t = None -> lk_held (held t) = [];
  li_nodup : forall t, NoDup (lk_held (held t));
  li_slots : forall t r, r ∈ lk_held (held t) -> w_slots w !! r = Some (lk_hash (held t));
  li_owner : forall r h, w_slots w !! r = Some h -> exists t, r ∈ lk_held (held t);
  li_disjoint : forall t t' r, r ∈ lk_held (held t) -> r ∈ lk_held (held t') -> t = t' }.

Definition at_task (held : nat -> Locks) (t : nat) (g : Locks) : nat -> Locks :=
  fun t' => if decide (t' = t) then g else held t'.

Lemma at_task_same held t g : at_task held t g t = g.
Proof. unfold at_task. by rewrite decide_True. Qed.
Lemma at_task_other held t g t' : t' <> t -> at_task held t g t' = held t'.
Proof. unfold at_task. intros. by rewrite decide_False. Qed.

Lemma at_task_inv w pool held task q p w' g p' :
  LockInv w pool held -> pool !! task = Some (q, p) ->
  holds (lock_monitor (ds_policy state)) locks_released g p' ->
  lk_held g = lk_held (held task) -> lk_hash g = lk_hash (held task) -> w_slots w' = w_slots w ->
  LockInv w' (<[task := (q, p')]> pool) (at_task held task g).
Proof.
  intros [I1 I2 I3 I4 I5 I6] Hp Hg Hh Hx Hw.
  assert (Hsame : forall t, lk_held (at_task held task g t) = lk_held (held t)
                         /\ lk_hash (at_task held task g t) = lk_hash (held t)).
  { intros t. destruct (decide (t = task)) as [->|Hne]; [by rewrite at_task_same|].
    by rewrite at_task_other. }
  split.
  - intros t q' p'' Ht. destruct (decide (t = task)) as [->|Hne].
    + rewrite lookup_insert_eq in Ht. simplify_eq. by rewrite at_task_same.
    + rewrite lookup_insert_ne in Ht by done. rewrite at_task_other by done. by eapply I1.
  - intros t Ht. rewrite (proj1 (Hsame t)). apply I2. by apply lookup_insert_None in Ht as [? _].
  - intros t. rewrite (proj1 (Hsame t)). apply I3.
  - intros t r. rewrite (proj1 (Hsame t)), (proj2 (Hsame t)), Hw. apply I4.
  - intros r h Hr. rewrite Hw in Hr. destruct (I5 r h Hr) as [t Ht]. exists t.
    by rewrite (proj1 (Hsame t)).
  - intros t t' r. rewrite (proj1 (Hsame t)), (proj1 (Hsame t')). apply I6.
Qed.

Lemma claim_inv w pool held task q own to_claim hash
    (k : option (ExclusiveResource * string) -> prog (result HandlerError ())) :
  LockInv w pool held -> pool !! task = Some (q, Vis (TryClaim own to_claim hash) k) ->
  let x := (try_claim own to_claim hash (w_slots w)).1 in
  let w' := with_slots w (try_claim own to_claim hash (w_slots w)).2 in
  exists held', LockInv w' (<[task := (q, k x)]> pool) held'.
Proof.
  intros HI Hp. cbv zeta. pose proof HI as [I1 I2 I3 I4 I5 I6].
  pose proof (I1 _ _ _ Hp) as [(Hfree & Hnd & Hown) Hk]. cbn in Hfree, Hown.
  unfold try_claim. destruct (blocking_slot own (w_slots w)) as [b|] eqn:Eb; cbn [fst snd].
  - exists (at_task held task (held task)).
    by apply (at_task_inv w pool held task q _ _ _ _ HI Hp (Hk (Some b))).
  - apply blocking_slot_None in Eb as [Hsys Hres].
    assert (Hnew : forall r, r ∈ to_claim -> w_slots w !! r = None).
    { intros r Hr. destruct (Hown r Hr) as [->|Ho]; [done|by apply Hres]. }
    exists (at_task held task (mkLocks to_claim hash (lk_stuck (held task)))). split.
    + intros t q' p' Ht. destruct (decide (t = task)) as [->|Hne].
      * rewrite lookup_insert_eq in Ht. simplify_eq. rewrite at_task_same. exact (Hk None).
      * rewrite lookup_insert_ne in Ht by done. rewrite at_task_other by done. by eapply I1.
    + intros t [Ht Hne]%lookup_insert_None. rewrite at_task_other by done. by apply I2.
    + intros t. destruct (decide (t = task)) as [->|Hne]; [by rewrite at_task_same|].
      by rewrite at_task_other.
    + intros t r. cbn [w_slots with_slots]. rewrite lookup_claimed.
      destruct (decide (t = task)) as [->|Hne].
      * rewrite at_task_same. cbn. intros Hr. by rewrite bool_decide_eq_true_2.
      * rewrite at_task_other by done. intros Hr. pose proof (I4 t r Hr) as Hs.
        rewrite bool_decide_eq_false_2; [done|]. intros Hin. rewrite Hnew in Hs; done.
    + intros r h Hr. cbn [w_slots with_slots] in Hr. rewrite lookup_claimed in Hr. case_bool_decide.
      * exists task. by rewrite at_task_same.
      * destruct (I5 r h Hr) as [t Ht]. exists t. rewrite at_task_other; [done|].
        intros ->. rewrite Hfree in Ht. by apply not_elem_of_nil in Ht.
    + intros t t' r. destruct (decide (t = task)) as [->|Hne], (decide (t' = task)) as [->|Hne'];
        rewrite ?at_task_same, ?at_task_other by done; cbn; intros Hr Hr'; [done| | |by eapply I6];
        [pose proof (I4 _ _ Hr') as Hs|pose proof (I4 _ _ Hr) as Hs]; rewrite Hnew in Hs; done.
Qed.

Lemma release_inv w pool held task q claimed hash (k : () -> prog (result HandlerError ())) :
  LockInv w pool held -> pool !! task = Some (q, Vis (Release claimed hash) k) ->
  exists held', LockInv (with_slots w (release_slots claimed hash (w_slots w)))
                  (<[task := (q, k tt)]> pool) held'.
Proof.
  intros HI Hp. pose proof HI as [I1 I2 I3 I4 I5 I6].
  pose proof (I1 _ _ _ Hp) as [[Hc Hh] Hk]. cbn in Hc, Hh. subst claimed hash.
  pose proof (fun r => lookup_released (lk_held (held task)) (lk_hash (held task)) (w_slots w) r
    (I4 task) (I3 task)) as HL.
  exists (at_task held task (mkLocks [] (lk_hash (held task)) (lk_stuck (held task)))). split.
  - intros t q' p' Ht. destruct (decide (t = task)) as [->|Hne].
    + rewrite lookup_insert_eq in Ht. simplify_eq. rewrite at_task_same. exact (Hk tt).
    + rewrite lookup_insert_ne in Ht by done. rewrite at_task_other by done. by eapply I1.
  - intros t [Ht Hne]%lookup_insert_None. rewrite at_task_other by done. by apply I2.
  - intros t. destruct (decide (t = task)) as [->|Hne]; [rewrite at_task_same; constructor|].
    by rewrite at_task_other.
  - intros t r. cbn [w_slots with_slots]. rewrite HL. destruct (decide (t = task)) as [->|Hne].
    + rewrite at_task_same. cbn. set_solver.
    + rewrite at_task_other by done. intros Hr. rewrite bool_decide_eq_false_2; [by apply I4|].
      intros Hin. apply Hne. by eapply I6.
  - intros r h. cbn [w_slots with_slots]. rewrite HL. case_bool_decide; [done|]. intros Hr.
    destruct (I5 r h Hr) as [t Ht]. exists t. rewrite at_task_other; [done|]. by intros ->.
  - intros t t' r. destruct (decide (t = task)) as [->|Hne], (decide (t' = task)) as [->|Hne'];
      rewrite ?at_task_same, ?at_task_other by done; cbn; try set_solver.
Qed.

Lemma sys_step_locks w pool w' pool' held :
  LockInv w pool held -> sys_step key state (w, pool) (w', pool') ->
  exists held', LockInv w' pool' held'.
Proof.
  intros HI Hs. inversion Hs as [? ? task caller request Hnone|? ? task q X e k x w1 Hp Ha];
    subst; clear Hs.
  - pose proof HI as [I1 I2 I3 I4 I5 I6]. pose proof (I2 task Hnone) as Hidle.
    exists (at_task held task no_locks).
    assert (Hh : forall t, lk_held (at_task held task no_locks t) = lk_held (held t)).
    { intros t. destruct (decide (t = task)) as [->|Hne]; [by rewrite at_task_same, Hidle|].
      by rewrite at_task_other. }
    split.
    + intros t q' p' Ht. destruct (decide (t = task)) as [->|Hne].
      * rewrite lookup_insert_eq in Ht. simplify_eq. rewrite at_task_same.
        by apply handle_request_locks.
      * rewrite lookup_insert_ne in Ht by done. rewrite at_task_other by done. by eapply I1.
    + intros t [Ht Hne]%lookup_insert_None. rewrite Hh. by apply I2.
    + intros t. rewrite Hh. apply I3.
    + intros t r. destruct (decide (t = task)) as [->|Hne].
      * rewrite at_task_same. cbn. set_solver.
      * rewrite at_task_other by done. apply I4.
    + intros r h Hr. destruct (I5 r h Hr) as [t Ht]. exists t. by rewrite Hh.
    + intros t t' r. rewrite !Hh. apply I6.
  - pose proof (li_task _ _ _ HI _ _ _ Hp) as [Hallow Hk].
    destruct e; cbn [answers] in Ha;
      try (exists (at_task held task (held task));
           apply (at_task_inv w pool held task q _ _ _ _ HI Hp (Hk x)); try done;
           repeat match goal with
             | Hw : store_read _ _ _ _ |- _ => destruct Hw as [_ ->]
             | Hw : exists uuid, _ |- _ => destruct Hw as [? Hw]
             | Hw : store_write _ _ _ _ |- _ => destruct Hw as [(? & ? & ? & _ & _ & ->)|(? & _ & ->)]
             end; by subst).
    + destruct Ha as [-> ->]. by eapply claim_inv.
    + destruct x. subst. by eapply release_inv.
    + subst w1. exists (at_task held task (mkLocks (lk_held (held task)) (lk_hash (held task))
        (is_not_stopped x.2))).
      by apply (at_task_inv w pool held task q _ _ _ _ HI Hp (Hk x)).
Qed.

Lemma sys_reachable_locks s :
  sys_reachable key state s -> exists held, LockInv s.1 s.2 held.
Proof.
  intros Hr. induction Hr as [db _|[w pool] [w' pool'] _ [held HI] Hs].
  - exists (fun _ => no_locks). split; cbn; try done; try constructor; set_solver.
  - by eapply sys_step_locks.
Qed.
End Exclusion.

(** ** One execution per transaction *)

(** What one task did: whether its claim was answered true, whether it ran its
    action, and the last status it read before a write. *)
Record Claims : Type := mkClaims {
  cl_claimed : bool; cl_ran : bool; cl_read : option (string * JobState * JobState) }.
Definition no_claims : Claims := mkClaims false false None.

Definition final_state (s : JobState) : Prop :=
  s = Succeeded \/ s = Failed \/ s = RolledBack \/ s = NeedsReboot.

Section ClaimMonitor.
Context `{DispatcherEnv} `{StoreEnv} `{Crypto} `{ActionCatalogue}.
Variable mine : option string.

Definition claim_allow X (g : Claims) (e : effect X) : Prop :=
  match e with
  | Claim id _ _ => mine = Some id /\ cl_claimed g = false
  | Execute _ => cl_claimed g = true /\ cl_ran g = false
  | CasStatus id current target =>
      cl_read g = Some (id, target, current) /\ final_state target
  | _ => True
  end.

Definition claim_next X (g : Claims) (e : effect X) : X -> Claims :=
  match e in effect X return X -> Claims with
  | Claim _ _ _ => fun x =>
      match x with Ok true => mkClaims true (cl_ran g) (cl_read g) | _ => g end
  | Execute _ => fun _ => mkClaims (cl_claimed g) true (cl_read g)
  | ReadTransition id target => fun x =>
      match x with Ok current => mkClaims (cl_claimed g) (cl_ran g) (Some (id, target, current)) | _ => g end
  | _ => fun _ => g
  end.

Definition claim_monitor : Monitor Claims := mkMonitor Claims claim_allow claim_next.
Definition any_end {A} (g : Claims) (_ : A) : Prop := True.

Definition claim_free X (e : effect X) : Prop :=
  match e with
  | Claim _ _ _ | Execute _ | CasStatus _ _ _ | ReadTransition _ _ => False
  | _ => True
  end.

Lemma holds_claim_free {A} (post : Claims -> A -> Prop) g p :
  only claim_free p -> (forall a, post g a) -> holds claim_monitor post g p.
Proof.
  intros Hp Hpost. apply (holds_only _ claim_free (fun g' => g' = g)); try done.
  - intros X g' e He ->. by destruct e.
  - intros g' a ->. apply Hpost.
Qed.

Lemma holds_claim_free_bind {A B} (post : Claims -> B -> Prop) (f : A -> prog B) g p :
  only claim_free p -> (forall a, holds claim_monitor post g (f a)) ->
  holds claim_monitor post g (p ≫= f).
Proof. intros Hp Hf. apply holds_bind. by apply holds_claim_free. Qed.

Lemma update_status_claims id target g :
  final_state target -> holds claim_monitor any_end g (update_status_effects id target).
Proof.
  intros Ht. unfold update_status_effects. hstep. apply holds_perform; [done|]. intros [cur|e].
  - by apply holds_perform.
  - by apply holds_ret.
Qed.

Lemma update_terminal_claims id target g :
  final_state target -> holds claim_monitor any_end g (update_terminal_status id target).
Proof.
  intros Ht. unfold update_terminal_status. generalize 0%N as attempt. revert g.
  induction (TERMINAL_STATUS_RETRY_ATTEMPTS - 1) as [|n IH]; intros g attempt;
    cbn [update_terminal_attempts];
    (hstep; eapply holds_mono; [|by apply update_status_claims]);
    cbv beta; intros g1 [u|e] _; (try by apply holds_ret);
    (apply holds_claim_free_bind; [by apply only_call|]); intros r;
    (destruct (match r with Ok (Some r) => _ | _ => _ end); [by apply holds_ret|]).
  - by apply holds_ret.
  - apply holds_claim_free_bind; [by apply only_call|]. intros _. apply IH.
Qed.

Lemma quiet_claim_free {A} (p : prog A) : only quiet p -> only claim_free p.
Proof. apply only_mono. by intros X []. Qed.
#[local] Hint Resolve quiet_claim_free progress_quiet owns_quiet check_autoremove_quiet
  check_deployment_quiet : core.

Lemma release_claim_free claimed hash : only claim_free (release_exclusive_slots claimed hash).
Proof. unfold release_exclusive_slots. repeat ostep; done. Qed.

Lemma initial_outcome_final name spec output : final_state (initial_outcome name spec output).1.
Proof. unfold initial_outcome, final_state. repeat case_match; cbn; tauto. Qed.

Lemma rollback_claims job_id name spec status summary running g :
  final_state status ->
  holds claim_monitor (fun g' r => g' = g /\ final_state r.1.1) g
    (attempt_rollback_if_needed job_id name spec status summary running).
Proof.
  intros Hs. unfold attempt_rollback_if_needed.
  destruct (negb _ || negb _); [by apply holds_ret|]. destruct running.
  - apply holds_claim_free_bind; [auto|intros _; by apply holds_ret].
  - destruct (rollback_spec_for name); [|by apply holds_ret].
    apply holds_claim_free_bind; [auto|intros _].
    apply holds_claim_free_bind; [by apply only_call|]. intros [o|e].
    + destruct (is_success o); (apply holds_claim_free_bind; [auto|intros _]);
        apply holds_ret; [|done]. split; [done|]. unfold final_state. cbn. tauto.
    + apply holds_claim_free_bind; [auto|intros _; by apply holds_ret].
Qed.

Lemma finish_claims (state : DaemonState) caller id name job_id spec to_claim hash output g :
  holds claim_monitor any_end g
    (finish_execution state caller id name job_id spec to_claim hash output).
Proof.
  unfold finish_execution. pose proof (initial_outcome_final name spec output) as Hf.
  destruct (initial_outcome _ _ _) as [status summary].
  apply holds_claim_free_bind; [auto|intros _].
  hstep. eapply holds_mono; [|by apply rollback_claims]. cbv beta. intros g' [[final s] rb] [-> Hfin].
  apply holds_claim_free_bind.
  { destruct (is_not_stopped output); [done|apply release_claim_free]. }
  intros _. hstep. eapply holds_mono; [|by apply update_terminal_claims]. cbv beta.
  intros g2 u _. apply holds_claim_free; [|done]. unfold send_response. repeat ostep; done.
Qed.

Lemma run_claimed_claims (state : DaemonState) caller request_id id name spec to_claim hash g :
  cl_claimed g = true -> cl_ran g = false ->
  holds claim_monitor any_end g
    (run_claimed state caller request_id id name spec to_claim hash).
Proof.
  intros Hc Hr. unfold run_claimed, send_response.
  apply holds_claim_free_bind; [by apply only_call|]. intros job_id.
  apply holds_claim_free_bind; [by apply only_call|]. intros [u|e].
  - do 2 (apply holds_claim_free_bind; [auto|intros _]).
    hstep. apply holds_perform; [done|]. intros [lines output]. cbv beta iota.
    apply holds_claim_free_bind; [apply only_for_each; auto|intros _].
    apply finish_claims.
  - apply holds_claim_free_bind; [apply release_claim_free|intros _].
    hstep. eapply holds_mono; [|apply update_terminal_claims; unfold final_state; tauto].
    cbv beta. intros. by apply holds_ret.
Qed.

Lemma claim_and_run_claims (state : DaemonState) caller request_id id name params receipt spec
    to_claim hash g :
  mine = Some id -> cl_claimed g = false -> cl_ran g = false ->
  holds claim_monitor any_end g
    (claim_and_run state caller request_id id name params receipt spec to_claim hash).
Proof.
  intros Hm Hc Hr. unfold claim_and_run.
  assert (Hrefuse : forall g category message, holds claim_monitor any_end g
    (_ ← release_exclusive_slots to_claim hash; send_error request_id category message)).
  { intros. apply holds_claim_free_bind; [apply release_claim_free|intros _].
    apply holds_claim_free; [by apply only_call|done]. }
  hstep. apply holds_perform; [done|]. intros [[]|e]; [|apply Hrefuse..].
  cbn [next claim_monitor claim_next].
  apply holds_claim_free_bind; [auto|].
  intros [u|[category message]]; [|apply Hrefuse].
  apply holds_claim_free_bind; [auto|].
  intros [u'|[category message]]; [|apply Hrefuse].
  by apply run_claimed_claims.
Qed.

Lemma handle_execute_claims state caller request_id id name params receipt :
  mine = Some id ->
  holds claim_monitor any_end no_claims
    (handle_execute state caller request_id id name params receipt).
Proof.
  intros Hm. unfold handle_execute.
  assert (Hend : forall p : prog (result HandlerError ()), only claim_free p ->
            holds claim_monitor any_end no_claims p).
  { intros p Hp. by apply holds_claim_free. }
  destruct (build_action_spec name params) as [spec|e] eqn:Es; [|by apply Hend, only_call].
  apply holds_claim_free_bind; [auto|]. intros o.
  destruct (ownership_refusal id o); [by apply Hend, only_call|].
  destruct (negb _); [by apply Hend, only_call|].
  destruct (validate_action_platform state name); [|by apply Hend, only_call].
  apply holds_claim_free_bind; [by apply only_call|].
  intros [[rec|]|e]; [|by apply Hend, only_call..].
  destruct (negb _ || _); [by apply Hend, only_call|].
  unfold gate_and_claim. destruct (execute_is_mutating _ name spec); [|by apply claim_and_run_claims].
  apply holds_claim_free_bind; [by apply only_call|].
  intros [[r h]|]; [by apply Hend, only_call|]. by apply claim_and_run_claims.
Qed.
End ClaimMonitor.

Lemma handle_request_claims `{DispatcherEnv} `{StoreEnv} `{Crypto} `{ActionCatalogue}
    state caller r :
  holds (claim_monitor (executes r)) any_end no_claims (handle_request state caller r).
Proof.
  destruct (executes r) as [id|] eqn:Er.
  - destruct r; simplify_eq/=. by apply handle_execute_claims.
  - apply holds_claim_free; [|done]. apply quiet_claim_free. by apply handle_other_quiet.
Qed.

Section Once.
Context `{DispatcherEnv} `{StoreEnv} `{CryptoLaws} `{ActionCatalogue}.
Variables (key : AuditKey) (state : DaemonState).

Definition spent_in (db : Db) (id : string) : Prop := exists s d, abs db id = Some (s, Spent d).

(** What a task did is true of the store. *)
Record ClaimInv (w : World) (pool : Pool) (did : nat -> Claims) : Prop := {
  ki_store : Store.reachable key (w_db w);
  ki_task : forall t q p, pool !! t = Some (q, p) ->
    holds (claim_monitor (executes q)) any_end (did t) p;
  ki_idle : forall t, pool !! t = None -> did t = no_claims;
  ki_spent : forall t q p id, pool !! t = Some (q, p) -> cl_claimed (did t) = true ->
    executes q = Some id -> spent_in (w_db w) id;
  ki_once : forall t t' q q' p p', pool !! t = Some (q, p) -> pool !! t' = Some (q', p') ->
    cl_claimed (did t) = true -> cl_claimed (did t') = true ->
    executes q = executes q' -> executes q <> None -> t = t';
  ki_mine : forall t q p, pool !! t = Some (q, p) -> cl_claimed (did t) = true -> executes q <> None;
  ki_ran : forall t, cl_ran (did t) = true -> cl_claimed (did t) = true;
  ki_log : NoDup (w_log w) /\ forall t, t ∈ w_log w <-> cl_ran (did t) = true;
  ki_read : forall t id target current, cl_read (did t) = Some (id, target, current) ->
    allowed_transition current target = true }.

Definition at_did (did : nat -> Claims) (t : nat) (g : Claims) : nat -> Claims :=
  fun t' => if decide (t' = t) then g else did t'.

(** A spent approval stays spent. *)
Lemma spent_step db db' id :
  Store.reachable key db -> Store.step key db db' -> spent_in db id -> spent_in db' id.
Proof.
  intros Hr Hs (s & d & Hd). destruct (reachable_inv key db Hr) as [HC HL].
  destruct (step_good key db db' HC HL Hs) as [_ _ Habs _ _].
  destruct (Habs id) as [E|Ha].
  - exists s, d. congruence.
  - rewrite Hd in Ha. inversion Ha as [| | | |a Hnot|s' d' Hallow]; subst.
    + exfalso. by eapply Hnot.
    + by eexists _, _.
Qed.

Lemma final_from_running current target :
  allowed_transition current target = true -> final_state target -> current = Running.
Proof. by destruct current, target; intros; unfold final_state in *; naive_solver. Qed.

(** Every effect leaves the tables alone or is one step of the store. *)
Lemma answers_step {X} w (e : effect X) x w' :
  answers key w e x w' ->
  match e with CasStatus _ current target => current = Running /\ final_state target | _ => True end ->
  w_log w' = w_log w /\ (w_db w' = w_db w \/ Store.step key (w_db w) (w_db w')).
Proof.
  intros Ha Hcas. destruct e; cbn [answers] in Ha;
    repeat match goal with
      | Hw : store_read _ _ _ _ |- _ => destruct Hw as [_ ->]
      | Hw : exists uuid, _ |- _ => destruct Hw as [? Hw]
      | Hw : store_write _ _ _ _ |- _ =>
          destruct Hw as [(now & a & db' & Hop & _ & ->)|(? & _ & ->)]
      | Hw : _ /\ _ |- _ => destruct Hw
      end; subst; cbn; try (split; [done|by left]); (split; [done|]); right.
  - destruct (record_previewed _ _ _ _ _ _) as [[r db2]|] eqn:E; cbn in Hop; simplify_eq.
    by eapply step_record_previewed.
  - by eapply step_approve.
  - by eapply step_revoke.
  - by eapply step_claim.
  - by eapply step_cancel.
  - destruct (cas_status _ _ _ _ _ _) as [db2|] eqn:E; cbn in Hop; simplify_eq.
    eapply step_finish; [|done]. unfold final_state in *. by destruct target; naive_solver.
Qed.

Lemma claim_not_spent now id digest who db db' :
  Store.reachable key db ->
  claim_approved_for_execution (Some key) now id digest who db = Ok (true, db') ->
  ~ spent_in db id /\ spent_in db' id.
Proof.
  intros Hr E. destruct (reachable_inv key db Hr) as [HC HL].
  destruct (claim_spends key now id digest who db db' Hr E) as [Hspent _].
  split; [|by exists Running, digest].
  apply (claim_effect key) in E as [(? & _)|(_ & t & rows & Hf & Hs & Hfr & Hgr & _)];
    [done| |done].
  intros (s & d & Habs). unfold abs, abs_view in Habs. rewrite (view_of_status _ _ _ Hf) in Habs.
  unfold view in Habs. cbn in Habs. unfold granted in Hgr. by rewrite Hgr in Habs.
Qed.

(** What one effect of a task changes of what it did. *)
Lemma claim_facts w task q (g : Claims) X (e : effect X) x w1 :
  Store.reachable key (w_db w) -> claim_allow (executes q) X g e -> answers key w e x w1 ->
  (forall id target current, cl_read g = Some (id, target, current) ->
     allowed_transition current target = true) ->
  (cl_ran g = true -> cl_claimed g = true) ->
  let g' := claim_next X g e x in
  (w_db w1 = w_db w \/ Store.step key (w_db w) (w_db w1))
  /\ (cl_claimed g' = true -> cl_claimed g = true
       \/ exists id, executes q = Some id /\ ~ spent_in (w_db w) id /\ spent_in (w_db w1) id)
  /\ (cl_ran g' = true -> cl_claimed g' = true)
  /\ ((w_log (logged task e w1) = w_log w /\ cl_ran g' = cl_ran g)
      \/ (w_log (logged task e w1) = w_log w ++ [task] /\ cl_ran g = false /\ cl_ran g' = true))
  /\ (forall id target current, cl_read g' = Some (id, target, current) ->
       allowed_transition current target = true).
Proof.
  intros Hr Hallow Ha Hread Hran g'.
  destruct (answers_step w e x w1 Ha) as [Hlog Hdb].
  { destruct e; try done. destruct Hallow as [Hrd Hf]. split; [|done].
    eapply final_from_running; [by eapply Hread|done]. }
  split; [done|]. destruct e; try (by split_and!; auto).
  - destruct Hallow as [Hm Hc]. cbn [claim_next] in g'. destruct x as [[]|err]; cbn [logged];
      try (by split_and!; auto).
    split_and!; auto. right. exists id. split; [done|].
    destruct Ha as [(now & a & db' & Hop & Hx & ->)|(? & ? & _)]; [|done]. simplify_eq.
    by eapply claim_not_spent.
  - cbn [claim_next] in g'. destruct x as [cur|err]; cbn [logged]; try (by split_and!; auto).
    split_and!; auto. cbn. intros i tg c [= <- <- <-].
    destruct Ha as [[Hx|[? ?]] _]; [|done]. unfold read_transition in Hx.
    destruct (find_tx (w_db w) id); cbn in Hx; [|done]. by case_match; simplify_eq.
  - destruct Hallow as [Hc Hn]. cbn [answers] in Ha. subst w1. split_and!; auto.
Qed.

Lemma sys_step_claims w pool w' pool' did :
  ClaimInv w pool did -> sys_step key state (w, pool) (w', pool') ->
  exists did', ClaimInv w' pool' did'.
Proof.
  intros HI Hs. pose proof HI as [K1 K2 K3 K4 K5 K6 K7 [K8 K9] K10].
  inversion Hs as [? ? task caller request Hnone|? ? task q X e k x w1 Hp Ha]; subst; clear Hs.
  - exists did. pose proof (K3 task Hnone) as Hidle.
    assert (Hold : forall t q p, <[task:=(request, handle_request state caller request)]> pool !! t
              = Some (q, p) -> cl_claimed (did t) = true -> pool !! t = Some (q, p)).
    { intros t q p Ht Hc. destruct (decide (t = task)) as [->|Hne]; [by rewrite Hidle in Hc|].
      by rewrite lookup_insert_ne in Ht. }
    split; try done; try (split; done).
    + intros t q p Ht. destruct (decide (t = task)) as [->|Hne].
      * rewrite lookup_insert_eq in Ht. simplify_eq. rewrite Hidle. apply handle_request_claims.
      * rewrite lookup_insert_ne in Ht by done. by eapply K2.
    + intros t [Ht Hne]%lookup_insert_None. by apply K3.
    + intros t q p id Ht Hc He. eapply K4; eauto.
    + intros t t' q q' p p' Ht Ht' Hc Hc' He Hne. eapply K5; [eapply Hold|eapply Hold|..]; eauto.
    + intros t q p Ht Hc. eapply K6; eauto.
  - pose proof (K2 _ _ _ Hp) as [Hallow Hk]. cbn [allow claim_monitor] in Hallow.
    destruct (claim_facts w task q (did task) X e x w1 K1 Hallow Ha (K10 task) (K7 task))
      as (Hdb & Hcl & Hrn & Hlg & Hrd).
    set (g' := claim_next X (did task) e x) in *. exists (at_did did task g').
    assert (Hdid : forall t, at_did did task g' t = if decide (t = task) then g' else did t) by done.
    assert (Hw' : w_db (logged task e w1) = w_db w1) by by destruct e.
    assert (Hlook : forall t q2 p2, <[task:=(q, k x)]> pool !! t = Some (q2, p2) ->
              exists p3, pool !! t = Some (q2, p3)).
    { intros t q2 p2 Ht. destruct (decide (t = task)) as [->|Hne].
      - rewrite lookup_insert_eq in Ht. simplify_eq. by eexists.
      - rewrite lookup_insert_ne in Ht by done. by eexists. }
    assert (Hspent : forall id, spent_in (w_db w) id -> spent_in (w_db w1) id).
    { intros id Hsp. destruct Hdb as [->|Hst]; [done|]. by eapply spent_step. }
    (* a claimed task was claimed before, or is this one, claiming now *)
    assert (Hwas : forall t q2 p2, pool !! t = Some (q2, p2) -> cl_claimed (at_did did task g' t) = true ->
              cl_claimed (did t) = true \/ t = task /\ exists id, executes q2 = Some id
                /\ ~ spent_in (w_db w) id /\ spent_in (w_db w1) id).
    { intros t q2 p2 Ht. rewrite Hdid. destruct (decide (t = task)) as [->|]; [|by left].
      rewrite Hp in Ht. simplify_eq. intros Hc. destruct (Hcl Hc); [by left|by right]. }
    split; rewrite ?Hw'.
    + destruct Hdb as [->|Hst]; [done|by eapply reachable_step].
    + intros t q2 p2 Ht. rewrite Hdid. destruct (decide (t = task)) as [->|Hne].
      * rewrite lookup_insert_eq in Ht. simplify_eq. apply Hk.
      * rewrite lookup_insert_ne in Ht by done. by eapply K2.
    + intros t [Ht Hne]%lookup_insert_None. rewrite Hdid, decide_False by done. by apply K3.
    + intros t q2 p2 id Ht Hc He. destruct (Hlook _ _ _ Ht) as [p3 Hp3].
      destruct (Hwas _ _ _ Hp3 Hc) as [Hold|(_ & id' & He' & _ & Hsp)]; [|congruence].
      apply Hspent. by eapply K4.
    + intros t t' q2 q2' p2 p2' Ht Ht' Hc Hc' He Hne.
      destruct (Hlook _ _ _ Ht) as [p3 Hp3], (Hlook _ _ _ Ht') as [p3' Hp3'].
      destruct (Hwas _ _ _ Hp3 Hc) as [Hold|(-> & id & Hid & Hns & _)],
        (Hwas _ _ _ Hp3' Hc') as [Hold'|(-> & id' & Hid' & Hns' & _)]; try done.
      * by eapply K5.
      * exfalso. apply Hns'. eapply K4; [exact Hp3|exact Hold|congruence].
      * exfalso. apply Hns. eapply K4; [exact Hp3'|exact Hold'|congruence].
    + intros t q2 p2 Ht Hc. destruct (Hlook _ _ _ Ht) as [p3 Hp3].
      destruct (Hwas _ _ _ Hp3 Hc) as [Hold|(_ & id' & He' & _)]; [by eapply K6|congruence].
    + intros t. rewrite Hdid. destruct (decide (t = task)); [done|apply K7].
    + assert (Hiff : forall t, t <> task -> (cl_ran (at_did did task g' t) = true <-> t ∈ w_log w)).
      { intros t Hne. rewrite Hdid, decide_False by done. symmetry. apply K9. }
      assert (Htask : at_did did task g' task = g') by by rewrite Hdid, decide_True.
      destruct Hlg as [[-> Hran]|(-> & Hran & Hran')].
      * split; [done|]. intros t. destruct (decide (t = task)) as [->|Hne].
        -- rewrite Htask, Hran. apply K9.
        -- by rewrite Hiff.
      * split.
        -- apply NoDup_app. split_and!; [done| |apply NoDup_singleton].
           intros t Hin ->%list_elem_of_singleton. apply K9 in Hin. congruence.
        -- intros t. rewrite elem_of_app, list_elem_of_singleton.
           destruct (decide (t = task)) as [->|Hne]; [rewrite Htask; tauto|].
           rewrite Hiff by done. tauto.
    + intros t id target current. rewrite Hdid. destruct (decide (t = task)); [apply Hrd|apply K10].
Qed.

Lemma sys_reachable_claims s :
  sys_reachable key state s -> exists did, ClaimInv s.1 s.2 did.
Proof.
  intros Hr. induction Hr as [db Hdb|[w pool] [w' pool'] _ [did HI] Hs].
  - exists (fun _ => no_claims). split; cbn; try done.
    split; [constructor|]. intros t. split; [by intros ?%not_elem_of_nil|done].
  - by eapply sys_step_claims.
Qed.
End Once.

(** C3: one transaction, one execution. However many requests run beside each
    other, in any interleaving, no transaction's action is run twice: two tasks
    whose action was run serve different transactions, each ran it once, and the
    approval of each such transaction is spent in the store, which is a store the
    honest daemon reaches, so its audit trail verifies. *)
Theorem executed_at_most_once `{DispatcherEnv} `{StoreEnv} `{CryptoLaws} `{ActionCatalogue}
    key state w pool :
  sys_reachable key state (w, pool) ->
  NoDup (w_log w)
  /\ Store.reachable key (w_db w)
  /\ (forall t q p, t ∈ w_log w -> pool !! t = Some (q, p) ->
       exists id, executes q = Some id /\ spent_in (w_db w) id)
  /\ (forall t t' q q' p p', t ∈ w_log w -> t' ∈ w_log w ->
       pool !! t = Some (q, p) -> pool !! t' = Some (q', p') ->
       executes q = executes q' -> t = t').
Proof.
  intros Hr. destruct (sys_reachable_claims key state _ Hr) as [did [K1 K2 K3 K4 K5 K6 K7 [K8 K9] K10]].
  cbn [fst snd] in *.
  assert (Hc : forall t, t ∈ w_log w -> cl_claimed (did t) = true)
    by (intros t Ht; by apply K7, K9).
  split_and!; [done|done| |].
  - intros t q p Ht Hp. destruct (executes q) as [id|] eqn:He; [|by destruct (K6 t q p Hp (Hc t Ht))].
    exists id. split; [done|]. by eapply K4; [|apply Hc|].
  - intros t t' q q' p p' Ht Ht' Hp Hp' He. eapply K5; [done|done|by apply Hc|by apply Hc|done|].
    by eapply K6; [|apply Hc].
Qed.

(** The action a task is about to run. *)
Definition executing (p : prog (result HandlerError ())) : option ActionSpec :=
  match p with
  | Vis e _ => match e with Execute spec => Some spec | _ => None end
  | Ret _ => None
  end.
Definition about_to_run (pool : Pool) (t : nat) : option ActionSpec :=
  '(_, p) ← pool !! t; executing p.

(** What a task about to run a mutating action holds. *)
Lemma about_to_run_holds `{DispatcherEnv} `{StoreEnv} `{Crypto} `{ActionCatalogue}
    state w pool held t spec :
  LockInv state w pool held -> about_to_run pool t = Some spec ->
  execute_is_mutating (ds_policy state) (action_name spec) spec = true ->
  lk_held (held t) = resources_to_claim true spec.
Proof.
  intros [I1 _ _ _ _ _] Ht Hm. unfold about_to_run in Ht.
  destruct (pool !! t) as [[q p]|] eqn:Ep; [|done]. cbn in Ht.
  destruct p as [|X e k]; [done|]. destruct e; simplify_eq/=. destruct (I1 _ _ _ Ep) as [Ha _]. by apply Ha.
Qed.

Lemma own_is_claimed spec r : exclusive_resource spec = Some r -> r ∈ resources_to_claim true spec.
Proof. intros Hx. unfold resources_to_claim. rewrite Hx. case_bool_decide; set_solver. Qed.
Lemma system_is_claimed spec : is_high_risk_reboot spec = true -> System ∈ resources_to_claim true spec.
Proof.
  intros Hh. unfold resources_to_claim. rewrite Hh.
  destruct (exclusive_resource spec); [case_bool_decide|]; set_solver.
Qed.

(** C4: contending actions exclude each other. Whenever two tasks are both about
    to run a mutating action, in any interleaving, the two contend for no common
    lock and are not both system-wide; and each lock of an action that is about
    to run is in the exclusion map. *)
Theorem contending_actions_exclude `{DispatcherEnv} `{StoreEnv} `{Crypto}
    `{ActionCatalogue} `{!ActionCatalogueLaws} key state w pool t1 t2 s1 s2 :
  sys_reachable key state (w, pool) -> t1 <> t2 ->
  about_to_run pool t1 = Some s1 -> about_to_run pool t2 = Some s2 ->
  execute_is_mutating (ds_policy state) (action_name s1) s1 = true ->
  execute_is_mutating (ds_policy state) (action_name s2) s2 = true ->
  (forall r, exclusive_resource s1 = Some r -> exclusive_resource s2 <> Some r)
  /\ (is_high_risk_reboot s1 = true -> is_high_risk_reboot s2 = false)
  /\ (forall r, exclusive_resource s1 = Some r -> is_Some (w_slots w !! r)).
Proof.
  intros Hr Hne Hp1 Hp2 Hm1 Hm2.
  destruct (sys_reachable_locks key state _ Hr) as [held HI]. cbn [fst snd] in *.
  pose proof (about_to_run_holds _ _ _ _ _ _ HI Hp1 Hm1) as E1.
  pose proof (about_to_run_holds _ _ _ _ _ _ HI Hp2 Hm2) as E2. destruct HI as [I1 I2 I3 I4 I5 I6].
  split_and!.
  - intros r Hr1 Hr2. apply Hne. apply (I6 t1 t2 r); [rewrite E1|rewrite E2]; by apply own_is_claimed.
  - intros Hh1. apply not_true_is_false. intros Hh2. apply Hne.
    apply (I6 t1 t2 System); [rewrite E1|rewrite E2]; by apply system_is_claimed.
  - intros r Hx. exists (lk_hash (held t1)). apply I4. rewrite E1. by apply own_is_claimed.
Qed.

(** C34: no request leaks a lock. Along every run of every request, whatever the
    answers, a lock is claimed only while none is held, exactly the claimed locks
    are given back under the hash they were taken with, an action that is gated
    runs only with all its locks held, and at the end no lock is held, unless the
    action that ran could not be confirmed stopped. *)
Theorem locks_are_given_back `{DispatcherEnv} `{StoreEnv} `{Crypto}
    `{ActionCatalogue} `{!ActionCatalogueLaws} state caller r tr res :
  runs (handle_request state caller r) tr res ->
  let locks_after := after (lock_monitor (ds_policy state)) no_locks in
  (lk_held (locks_after tr) = [] \/ lk_stuck (locks_after tr) = true)
  /\ forall pre X (e : effect X) x suf, tr = pre ++ mkEvent X e x :: suf ->
       lock_allow (ds_policy state) X (locks_after pre) e.
Proof.
  intros Hr. exact (holds_runs _ _ _ _ _ _
    (handle_request_locks (ds_policy state) state caller r eq_refl) Hr).
Qed.

(** The gate is exact. A claim on the exclusion map is refused exactly when
    the system slot or the action's own resource is taken, and then names the slot
    and its owner and leaves the map alone; a claim that is granted enters exactly
    the claimed resources under the request's hash; and giving them back restores
    the map there was. *)
Theorem gate_exact own to_claim hash (slots : Slots) :
  NoDup to_claim -> (forall r, r ∈ to_claim -> r = System \/ own = Some r) ->
  match try_claim own to_claim hash slots with
  | (Some (r, h), slots') =>
      slots' = slots /\ slots !! r = Some h /\ (r = System \/ own = Some r)
  | (None, slots') =>
      slots !! System = None /\ (forall r, own = Some r -> slots !! r = None)
      /\ (forall r, slots' !! r = if bool_decide (r ∈ to_claim) then Some hash else slots !! r)
      /\ release_slots to_claim hash slots' = slots
  end.
Proof.
  intros Hnd Hown. unfold try_claim. destruct (blocking_slot own slots) as [[r h]|] eqn:Eb.
  - split; [done|]. unfold blocking_slot in Eb. destruct (slots !! System) eqn:Es; [naive_solver|].
    destruct own as [r'|]; [|done]. cbn in Eb. destruct (slots !! r') eqn:Er; naive_solver.
  - pose proof Eb as [Hs Ho]%blocking_slot_None.
    split_and!; [done|done|intros r; apply lookup_claimed|]. apply map_eq. intros r.
    rewrite lookup_released; [|intros r' Hr'; by rewrite lookup_claimed, bool_decide_eq_true_2|done].
    rewrite lookup_claimed. case_bool_decide; [|done]. destruct (Hown r) as [->|Hr]; [done|done|].
    symmetry. by apply Ho.
Qed.

Lemma gate_exact_witness :
  let slots : Slots := {[Snap := "other"]} in
  (try_claim (Some Snap) [Snap] "mine" slots).1 = Some (Snap, "other")
  /\ release_slots [System; Dpkg] "mine" (try_claim (Some Dpkg) [System; Dpkg] "mine" slots).2 = slots.
Proof.
  split; [reflexivity|].
  assert (Hnd : NoDup [System; Dpkg]) by (repeat constructor; set_solver).
  assert (Hown : forall r, r ∈ [System; Dpkg] -> r = System \/ Some Dpkg = Some r) by set_solver.
  exact (proj2 (proj2 (proj2 (gate_exact (Some Dpkg) [System; Dpkg] "mine" {[Snap := "other"]} Hnd Hown)))).
Defined.

(** ** Running a system

    A schedule is a list of choices; the daemon's own parts answer by their
    functions, at a chosen instant, and the outside well. Every state a schedule
    comes to is reachable. *)

Section Schedule.
Context `{DispatcherEnv} `{StoreEnv} `{Crypto} `{ActionCatalogue}.
Variables (key : AuditKey) (state : DaemonState).

Definition store_reply {A} (op : Db -> result StoreError (A * Db)) (w : World)
    : result StoreError A * World :=
  match op (w_db w) with Ok (a, db) => (Ok a, with_db w db) | Err e => (Err e, w) end.

Definition reply (now : Z) (uuid : string) (w : World) {X} (e : effect X) : X * World :=
  match e in effect X return X * World with
  | FetchChainRow id => (Ok (fetch_chain_row (w_db w) id), w)
  | GetTx id => (get (w_db w) id, w)
  | GetPreview id => (Ok (Store.get_preview (w_db w) id), w)
  | RecordPreviewed t p => store_reply (fun db =>
      '(r, db') ← record_previewed (Some key) now uuid t p db; Ok (fst r, db')) w
  | Approve id who => store_reply (approve_transaction (Some key) now id who) w
  | Revoke id who => store_reply (revoke_unconsumed_approval (Some key) now id who) w
  | Claim id digest who => store_reply (claim_approved_for_execution (Some key) now id digest who) w
  | CancelQueued id who => store_reply (cancel_queued (Some key) now id who) w
  | ReadTransition id target => (read_transition (w_db w) id target, w)
  | CasStatus id current target => store_reply (fun db =>
      db' ← cas_status (Some key) now id current target db; Ok (tt, db')) w
  | TryClaim own to_claim hash =>
      let '(x, slots) := try_claim own to_claim hash (w_slots w) in (x, with_slots w slots)
  | Release claimed hash => (tt, with_slots w (release_slots claimed hash (w_slots w)))
  | Send _ => (Ok tt, w)
  | ListTransactions _ _ _ _ => (Ok [], w)
  | ListHistory _ _ _ _ => (Ok [], w)
  | RunProgram _ _ => (Ok "", w)
  | CollectState => (Err (RunFailed "probe"), w)
  | Execute _ => (([], Ok (mkOutput "" "" 0)), w)
  | ExecuteQuiet _ => (Ok (mkOutput "" "" 0), w)
  | NewJobId => (uuid, w)
  | Sleep _ => (tt, w)
  | ForwardAudit _ _ _ => (tt, w)
  end.

Lemma store_reply_write {A} now (op : Z -> Db -> result StoreError (A * Db)) w :
  store_write op w (store_reply (op now) w).1 (store_reply (op now) w).2.
Proof.
  unfold store_reply. destruct (op now (w_db w)) as [[a db]|e] eqn:E; [left|right]; cbn; eauto 10.
Qed.

Lemma reply_answers now uuid w X (e : effect X) :
  answers key w e (reply now uuid w e).1 (reply now uuid w e).2.
Proof.
  destruct e; cbn [reply answers]; try done; try (split; [by left|done]);
    try exact (store_reply_write now (fun now db =>
      db' ← cas_status (Some key) now _ _ _ db; Ok (tt, db')) w);
    try exact (store_reply_write now (fun now => _ (Some key) now _ _) w);
    try exact (store_reply_write now (fun now => _ (Some key) now _ _ _) w).
  - exists uuid. exact (store_reply_write now (fun now db =>
      '(r, db') ← record_previewed (Some key) now uuid t p db; Ok (fst r, db')) w).
  - by destruct (try_claim _ _ _ _).
Qed.

Inductive choice : Type :=
| Admit (task : nat) (caller : CallerAttribution) (request : DaemonRequest)
| Advance (task : nat) (now : Z) (uuid : string).

Definition perform (s : World * Pool) (c : choice) : World * Pool :=
  let '(w, pool) := s in
  match c with
  | Admit task caller request =>
      match pool !! task with
      | None => (w, <[task := (request, handle_request state caller request)]> pool)
      | Some _ => s
      end
  | Advance task now uuid =>
      match pool !! task with
      | Some (request, Vis e k) =>
          let '(x, w') := reply now uuid w e in (logged task e w', <[task := (request, k x)]> pool)
      | _ => s
      end
  end.
Definition schedule (s : World * Pool) (choices : list choice) : World * Pool :=
  fold_left perform choices s.

Lemma schedule_reachable choices s :
  sys_reachable key state s -> sys_reachable key state (schedule s choices).
Proof.
  unfold schedule. revert s. induction choices as [|c choices IH]; intros s Hs; [done|].
  cbn [fold_left]. apply IH. destruct s as [w pool], c as [task caller request|task now uuid]; cbn [perform].
  - destruct (pool !! task) eqn:Ep; [done|]. eapply sys_next; [exact Hs|by constructor].
  - destruct (pool !! task) as [[request [r|X e k]]|] eqn:Ep; [done| |done].
    pose proof (reply_answers now uuid w X e) as Ha. destruct (reply now uuid w e) as [x w'].
    eapply sys_next; [exact Hs|]. by eapply sys_effect.
Qed.

(** [n] effects of one task. *)
Definition run_for (task n : nat) (now : Z) (uuid : string) : list choice :=
  replicate n (Advance task now uuid).
End Schedule.

#[local] Existing Instance Toy.crypto.
#[local] Existing Instance Toy.crypto_laws.
#[local] Existing Instance StoreSample.env.
#[local] Existing Instance DaemonSample.env.

(** Two transactions are previewed and approved; two connections execute the
    first of them at the same time, a third the second. *)
Module SystemSample.
Definition caller : CallerAttribution := DaemonSample.caller.
Definition snap : json := JObj [("name", JStr "hello")].
Definition receipt (id name : string) (params : json) : string :=
  approval_receipt StoreSample.key id
    (compute_request_hash (ds_request_hash_key DaemonSample.state) name params).
Definition start : World * Pool := (mkWorld empty_db ∅ [], ∅).

Definition prepare : list choice :=
  Admit 0 caller (Preview "rq0" "AptUpgrade" (JObj []) false) :: run_for 0 4 1 "t1"
  ++ Admit 1 caller (ApproveRequest "rq1" "t1") :: run_for 1 4 2 ""
  ++ Admit 2 caller (Preview "rq2" "SnapRemove" snap false) :: run_for 2 4 3 "t2"
  ++ Admit 3 caller (ApproveRequest "rq3" "t2") :: run_for 3 4 4 "".
Definition contend : list choice :=
  let apt := ExecuteRequest "rq4" "t1" "AptUpgrade" (JObj []) (receipt "t1" "AptUpgrade" (JObj [])) in
  [Admit 4 caller apt; Admit 5 caller apt;
   Admit 6 caller (ExecuteRequest "rq6" "t2" "SnapRemove" snap (receipt "t2" "SnapRemove" snap))]
  ++ concat (replicate 8 [Advance 5 5 "j5"; Advance 4 5 "j4"; Advance 6 5 "j6"]).

Definition contending : World * Pool :=
  schedule StoreSample.key DaemonSample.state start (prepare ++ contend).
Definition finished : World * Pool :=
  schedule StoreSample.key DaemonSample.state start
    (prepare ++ contend ++ run_for 4 20 6 "j4" ++ run_for 5 20 6 "j5" ++ run_for 6 20 6 "j6").

Lemma reaches choices :
  sys_reachable StoreSample.key DaemonSample.state
    (schedule StoreSample.key DaemonSample.state start choices).
Proof. apply schedule_reachable. apply sys_start. constructor. Qed.
Lemma contending_reachable : sys_reachable StoreSample.key DaemonSample.state contending.
Proof. exact (reaches (prepare ++ contend)). Qed.
End SystemSample.

Lemma executed_at_most_once_witness :
  w_log SystemSample.finished.1 = [5; 6]
  /\ NoDup (w_log SystemSample.finished.1)
  /\ Store.reachable StoreSample.key (w_db SystemSample.finished.1).
Proof.
  split; [vm_compute; reflexivity|].
  pose proof (SystemSample.reaches (SystemSample.prepare ++ SystemSample.contend
    ++ run_for 4 20 6 "j4" ++ run_for 5 20 6 "j5" ++ run_for 6 20 6 "j6")) as Hr.
  rewrite (surjective_pairing (schedule _ _ _ _)) in Hr.
  pose proof (executed_at_most_once StoreSample.key DaemonSample.state _ _ Hr) as (H1 & H2 & _).
  exact (conj H1 H2).
Defined.

Lemma contending_actions_exclude_witness :
  let '(w, pool) := SystemSample.contending in
  about_to_run pool 5 = Some Apt.apt_upgrade
  /\ about_to_run pool 6 = Some (Snap.snap_remove "hello")
  /\ is_Some (w_slots w !! Dpkg).
Proof.
  pose proof SystemSample.contending_reachable as Hr.
  assert (H5 : about_to_run SystemSample.contending.2 5 = Some Apt.apt_upgrade) by (vm_compute; reflexivity).
  assert (H6 : about_to_run SystemSample.contending.2 6 = Some (Snap.snap_remove "hello"))
    by (vm_compute; reflexivity).
  destruct SystemSample.contending as [w pool]. cbn [snd] in H5, H6. split_and!; [done|done|].
  refine (proj2 (proj2 (contending_actions_exclude StoreSample.key DaemonSample.state w pool 5 6
    Apt.apt_upgrade (Snap.snap_remove "hello") Hr _ H5 H6 _ _)) Dpkg _);
    [lia|vm_compute; reflexivity..].
Defined.

Definition execute_run : list event * result HandlerError () :=
  interp (DaemonSample.host "AptUpgrade" (Ok "")) 0 (DaemonSample.execute "AptUpgrade").

Lemma locks_are_given_back_witness :
  let locks_after := after (lock_monitor (ds_policy DaemonSample.state)) no_locks in
  lk_held (locks_after (take 4 execute_run.1)) = [Dpkg]
  /\ (lk_held (locks_after execute_run.1) = [] \/ lk_stuck (locks_after execute_run.1) = true).
Proof.
  split; [vm_compute; reflexivity|].
  exact (proj1 (locks_are_given_back DaemonSample.state DaemonSample.caller
    (ExecuteRequest "rq2" "t1" "AptUpgrade" (JObj []) "r") execute_run.1 execute_run.2
    (interp_runs _ _ _))).
Defined.
