(* ===== verification/OperatorText.v ===== *)
(** * Text shown to the operator

    apps/sysknife-cli/src/operator_text.rs: untrusted text is neutralised before
    it reaches the terminal the operator approves on. A [text] is a Rust [str] by
    its [char]s, since the rules are about characters; [chars] reads them from the
    UTF-8 bytes the other files hold. *)

From Stdlib Require Import Ascii String NArith ZArith Lia.
From stdpp Require Import base list strings.
From S2P Require Import Prelude.

Abbreviation text := (list N).

(** The characters of a valid UTF-8 string. *)
Fixpoint chars (s : string) : text :=
  let tail c := (N_of_ascii c mod 64)%N in
  match s with
  | EmptyString => []
  | String a s1 =>
      let n := N_of_ascii a in
      if (n <? 128)%N then n :: chars s1
      else match s1 with
      | EmptyString => []
      | String b s2 =>
          if (n <? 224)%N then ((n mod 32) * 64 + tail b)%N :: chars s2
          else match s2 with
          | EmptyString => []
          | String c s3 =>
              if (n <? 240)%N then (((n mod 16) * 64 + tail b) * 64 + tail c)%N :: chars s3
              else match s3 with
              | EmptyString => []
              | String d s4 =>
                  ((((n mod 8) * 64 + tail b) * 64 + tail c) * 64 + tail d)%N :: chars s4
              end
          end
      end
  end.

Definition in_range (lo hi c : N) : bool := ((lo <=? c) && (c <=? hi))%N.

(** [char::is_whitespace]: Unicode [White_Space] *)
Definition is_whitespace (c : N) : bool :=
  in_range 9 13 c || existsb (N.eqb c) [32; 133; 160; 5760; 8232; 8233; 8239; 8287; 12288]%N
  || in_range 8192 8202 c.

Fixpoint take_while {A} (p : A -> bool) (l : list A) : list A :=
  match l with
  | [] => []
  | a :: l' => if p a then a :: take_while p l' else []
  end.

(** [str::lines]: as [Prelude.lines], over characters. *)
Fixpoint split_char (sep : N) (s : text) : list text :=
  match s with
  | [] => [[]]
  | c :: s' => if (c =? sep)%N then [] :: split_char sep s'
               else match split_char sep s' with [] => [[c]] | h :: t => (c :: h) :: t end
  end.
Definition strip_cr (l : text) : text :=
  match last l with Some c => if (c =? 13)%N then removelast l else l | None => l end.
Fixpoint text_lines_of (l : list text) : list text :=
  match l with
  | [] => []
  | [last] => match last with [] => [] | _ => [last] end
  | p :: l' => strip_cr p :: text_lines_of l'
  end.
Definition text_lines (s : text) : list text := text_lines_of (split_char 10 s).

(** [lines.join("\n")] *)
Fixpoint join_char (sep : N) (l : list text) : text :=
  match l with
  | [] => []
  | [x] => x
  | x :: l' => x ++ sep :: join_char sep l'
  end.

(** [haystack.ends_with(needle)] *)
Definition text_ends_with (needle hay : text) : bool :=
  bool_decide (drop (length hay - length needle) hay = needle).

Definition dec_text (n : nat) : text := chars (dec_of_N (N.of_nat n)).

(** ** One line *)

Definition MAX_RENDERED_LEN : nat := 512.
Definition TRUNCATION_MARKER : text := chars "… [truncated]".
Definition MAX_RENDERED_LINES : nat := 40.
Definition LINE_TRUNCATION_MARKER : text := chars "… [truncated: block too long to display]".

(** The arm of the match that collapses, and the arms that drop. *)
Definition is_break (ch : N) : bool := existsb (N.eqb ch) [9; 10; 13; 32]%N.
Definition is_dropped (ch : N) : bool :=
  (ch <? 32)%N || (ch =? 127)%N || in_range 128 159 ch
  || in_range 8232 8238 ch || in_range 8294 8297 ch
  || in_range 8203 8207 ch || (ch =? 65279)%N
  || (ch =? 1564)%N
  || (ch =? 173)%N || (ch =? 847)%N || in_range 6155 6158 ch
  || in_range 8288 8292 ch || in_range 8298 8303 ch || in_range 65529 65531 ch
  || in_range 917504 917631 ch.

Definition safe_step (st : text * bool) (ch : N) : text * bool :=
  let '(out, pending_space) := st in
  if is_break ch then (out, true)
  else if is_dropped ch then (out, pending_space)
  else ((if pending_space && negb (bool_decide (out = [])) then out ++ [32%N] else out) ++ [ch], false).

Definition operator_safe_chars (s : text) : text := (fold_left safe_step s ([], false)).1.

Definition operator_safe (s : text) : text :=
  let out := operator_safe_chars s in
  if MAX_RENDERED_LEN <? length out then take MAX_RENDERED_LEN out ++ TRUNCATION_MARKER else out.

Definition operator_safe_unbounded (s : text) : text := operator_safe_chars s.

(** ** Blocks *)

Record OperatorBlock : Type := mkBlock {
  ob_text : text; withheld_lines : nat; shortened_lines : nat }.

Definition is_complete (b : OperatorBlock) : bool :=
  (withheld_lines b =? 0) && (shortened_lines b =? 0).

(** [&line[..indent_len]] *)
Definition indentation (line : text) : text := take_while is_whitespace line.

Definition block_line (render : text -> text) (line : text) : text := indentation line ++ render line.

Definition operator_safe_block (s : text) : OperatorBlock :=
  let total := length (text_lines s) in
  let kept := take MAX_RENDERED_LINES (text_lines s) in
  let shortened :=
    length (filter (fun line => text_ends_with TRUNCATION_MARKER (operator_safe line) = true) kept) in
  let withheld := total - MAX_RENDERED_LINES in
  let lines := map (block_line operator_safe) kept
    ++ (if 0 <? withheld
        then [LINE_TRUNCATION_MARKER ++ chars " (" ++ dec_text withheld ++ chars " more)"] else []) in
  mkBlock (join_char 10 lines) withheld shortened.

Definition operator_safe_block_full (s : text) : OperatorBlock :=
  mkBlock (join_char 10 (map (block_line operator_safe_unbounded) (text_lines s))) 0 0.

(** ** The rules, word by word

    What a line becomes: its visible characters, the words between breaks joined
    by single spaces. *)

Definition visible (ch : N) : bool := negb (is_break ch) && negb (is_dropped ch).

Fixpoint words_of (s : text) : text * list text :=
  match s with
  | [] => ([], [])
  | c :: s' =>
      let '(w, ws) := words_of s' in
      if is_break c then ([], match w with [] => ws | _ => w :: ws end)
      else if is_dropped c then (w, ws)
      else (c :: w, ws)
  end.
Definition words (s : text) : list text :=
  let '(w, ws) := words_of s in match w with [] => ws | _ => w :: ws end.

Definition spaced (ws : list text) : text := concat (map (cons 32%N) ws).

Lemma join_spaced w ws : join_char 32 (w :: ws) = w ++ spaced ws.
Proof.
  revert w. induction ws as [|v ws IH]; intros w; [by rewrite app_nil_r|].
  change (join_char 32 (w :: v :: ws)) with (w ++ 32%N :: join_char 32 (v :: ws)). by rewrite IH.
Qed.

Lemma fold_safe s out p :
  (fold_left safe_step s (out, p)).1 =
    let '(w, ws) := words_of s in
    match out with
    | [] => join_char 32 (words s)
    | _ => out ++ if p then spaced (words s) else w ++ spaced ws
    end.
Proof.
  unfold words. revert out p. induction s as [|c s IH]; intros out p.
  { cbn. destruct out, p; rewrite ?app_nil_r; done. }
  cbn [fold_left safe_step words_of]. destruct (words_of s) as [w ws] eqn:Ew.
  destruct (is_break c); [|destruct (is_dropped c)].
  - rewrite IH. destruct out; [done|]. by destruct p.
  - apply IH.
  - rewrite IH. destruct out as [|o out].
    + rewrite andb_false_r. rewrite join_spaced. done.
    + case_bool_decide; [done|]. rewrite andb_true_r. destruct p; cbn [app spaced map concat];
        by rewrite <-?app_assoc.
Qed.

(** The whole of [operator_safe_chars]: the words, single-spaced. *)
Lemma operator_safe_chars_words s : operator_safe_chars s = join_char 32 (words s).
Proof. unfold operator_safe_chars. rewrite fold_safe. by destruct (words_of s). Qed.

Lemma words_of_visible s w ws :
  words_of s = (w, ws) ->
  Forall (fun c => visible c = true) w
  /\ Forall (fun v => v <> [] /\ Forall (fun c => visible c = true) v) ws
  /\ w ++ concat ws = filter (fun c => visible c = true) s.
Proof.
  revert w ws. induction s as [|c s IH]; intros w ws; cbn [words_of].
  { intros [= <- <-]. by split_and!. }
  destruct (words_of s) as [w' ws'] eqn:Ew. destruct (IH w' ws' eq_refl) as (Hw & Hws & Hc).
  assert (V : visible c = negb (is_break c) && negb (is_dropped c)) by done.
  destruct (is_break c) eqn:Eb; [|destruct (is_dropped c) eqn:Ed]; cbn in V; intros [= <- <-].
  - rewrite filter_cons_False by congruence. destruct w'; cbn in *; split_and!; auto.
  - rewrite filter_cons_False by congruence. auto.
  - rewrite filter_cons_True by congruence. cbn. split_and!; [by constructor|done|by f_equal].
Qed.

Lemma words_visible s :
  Forall (fun v => v <> [] /\ Forall (fun c => visible c = true) v) (words s)
  /\ concat (words s) = filter (fun c => visible c = true) s.
Proof.
  unfold words. destruct (words_of s) as [w ws] eqn:E.
  destruct (words_of_visible s w ws E) as (Hw & Hws & Hc). destruct w; [done|]. by split; [constructor|].
Qed.

(** What one line of untrusted text becomes: exactly its visible characters,
    in order, as words joined by single spaces — no control, bidirectional or
    invisible character of the code's set, no line break, no layout — and, past
    512 characters, cut there and marked as cut. *)
Theorem operator_safe_spec s :
  exists ws, operator_safe_chars s = join_char 32 ws
    /\ Forall (fun w => w <> [] /\ Forall (fun c => visible c = true) w) ws
    /\ concat ws = filter (fun c => visible c = true) s
    /\ operator_safe s =
         (if decide (length (join_char 32 ws) <= 512) then join_char 32 ws
          else take 512 (join_char 32 ws) ++ chars "… [truncated]").
Proof.
  exists (words s). destruct (words_visible s) as [Hv Hc].
  split_and!; [apply operator_safe_chars_words|done|done|].
  unfold operator_safe. rewrite operator_safe_chars_words.
  unfold MAX_RENDERED_LEN. case_decide as Hl.
  - by rewrite (proj2 (Nat.ltb_ge _ _) Hl).
  - by rewrite (proj2 (Nat.ltb_lt _ _)) by lia.
Qed.

(** ** Complete blocks *)

Lemma text_ends_with_app a b : text_ends_with b (a ++ b) = true.
Proof.
  unfold text_ends_with. rewrite length_app, Nat.add_sub. apply bool_decide_eq_true. apply drop_app_length.
Qed.

(** A line that was cut is counted. *)
Lemma uncut_line line :
  text_ends_with TRUNCATION_MARKER (operator_safe line) = false ->
  operator_safe line = operator_safe_unbounded line /\ length (operator_safe_chars line) <= MAX_RENDERED_LEN.
Proof.
  unfold operator_safe. case_match eqn:E; [by rewrite text_ends_with_app|].
  intros _. split; [done|]. by apply Nat.ltb_ge.
Qed.

Lemma complete_block_lines s :
  is_complete (operator_safe_block s) = true ->
  length (text_lines s) <= MAX_RENDERED_LINES
  /\ Forall (fun l => operator_safe l = operator_safe_unbounded l
                      /\ length (operator_safe_chars l) <= MAX_RENDERED_LEN) (text_lines s).
Proof.
  unfold is_complete, operator_safe_block. cbn [withheld_lines shortened_lines]. intros H.
  apply andb_true_iff in H as [Hw Hs]. apply Nat.eqb_eq in Hw, Hs.
  assert (Hl : length (text_lines s) <= MAX_RENDERED_LINES) by lia. split; [done|].
  rewrite take_ge in Hs by done. apply length_zero_iff_nil in Hs.
  apply Forall_forall. intros l Hin. apply uncut_line. apply not_true_is_false. intros Ht.
  assert (Hf : l ∈ filter (fun line => text_ends_with TRUNCATION_MARKER (operator_safe line) = true) (text_lines s))
    by by apply list_elem_of_filter.
  rewrite Hs in Hf. by apply elem_of_nil in Hf.
Qed.

Lemma complete_block_text s :
  is_complete (operator_safe_block s) = true ->
  ob_text (operator_safe_block s) = ob_text (operator_safe_block_full s).
Proof.
  intros H. destruct (complete_block_lines s H) as [Hl Hf].
  unfold operator_safe_block, operator_safe_block_full. cbn [ob_text].
  rewrite take_ge by done. rewrite (proj2 (Nat.sub_0_le _ _) Hl), app_nil_r. cbn [Nat.ltb Nat.leb].
  f_equal. apply map_ext_Forall. eapply Forall_impl; [exact Hf|]. intros l [E _].
  unfold block_line. by rewrite E.
Qed.

(** A block the operator is asked about hides nothing: when it reports itself
    complete, the text on screen is, character for character, the uncapped
    rendering of every line, at most 40 lines of at most 512 visible characters. *)
Theorem complete_block_is_whole s :
  is_complete (operator_safe_block s) = true ->
  ob_text (operator_safe_block s) = ob_text (operator_safe_block_full s)
  /\ length (text_lines s) <= 40
  /\ Forall (fun l => length (operator_safe_chars l) <= 512) (text_lines s).
Proof.
  intros H. destruct (complete_block_lines s H) as [Hl Hf]. split_and!; [by apply complete_block_text|done|].
  eapply Forall_impl; [exact Hf|]. by intros l [_ Hc].
Qed.

Lemma complete_block_is_whole_witness :
  let s := chars (String.append "{ " (String LF "  x: 1 }")) in
  is_complete (operator_safe_block s) = true
  /\ ob_text (operator_safe_block s) = ob_text (operator_safe_block_full s).
Proof.
  split; [by vm_compute|].
  apply (complete_block_is_whole (chars (String.append "{ " (String LF "  x: 1 }")))). by vm_compute.
Defined.

(** The indentation of a line goes out as it is, whatever characters it is made
    of: a C1 control that is white space (U+0085) reaches the terminal, and a long
    indentation counts as nothing omitted. *)
Lemma indentation_is_not_neutralised :
  ob_text (operator_safe_block (133%N :: chars "x")) = 133%N :: chars "x"
  /\ is_dropped 133 = true
  /\ is_complete (operator_safe_block (133%N :: chars "x")) = true
  /\ is_complete (operator_safe_block (repeat 32%N 2000 ++ chars "x")) = true
  /\ length (ob_text (operator_safe_block (repeat 32%N 2000 ++ chars "x"))) = 2001.
Proof. split_and!; by vm_compute. Qed.

(** Variation selectors, which render as nothing, are not in the set. *)
Lemma variation_selectors_survive :
  operator_safe [97; 65024; 917760; 98]%N = [97; 65024; 917760; 98]%N.
Proof. by vm_compute. Qed.
