(* ===== verification/Approval.v ===== *)
(** * Plans and the approval policy

    crates/sysknife-brain/src/planner.rs (a plan and its authorized form),
    apps/sysknife-cli/src/approval.rs (which steps need a human),
    apps/sysknife-cli/src/cli.rs (the two keys of an unattended run),
    apps/sysknife-cli/src/distro_routing.rs, and the gates of
    apps/sysknife-cli/src/runner.rs that are pure. *)

From Stdlib Require Import Ascii String NArith ZArith Lia.
From stdpp Require Import base list strings.
From S2P Require Import Prelude Json Distro Types ActionFamily Actions Params Builder Catalogue Preview.

(** ** Plans *)

Inductive PlanRiskLevel : Type := PlanLow | PlanMedium | PlanHigh.
#[export] Instance PlanRiskLevel_eq_dec : EqDecision PlanRiskLevel.
Proof. solve_decision. Defined.

(** The derived [Ord]: declaration order. *)
Definition plan_rank (r : PlanRiskLevel) : nat :=
  match r with PlanLow => 0 | PlanMedium => 1 | PlanHigh => 2 end.
Definition risk_le (a b : PlanRiskLevel) : bool := plan_rank a <=? plan_rank b.

Definition plan_risk_str (r : PlanRiskLevel) : string :=
  match r with PlanLow => "low" | PlanMedium => "medium" | PlanHigh => "high" end.

Definition requires_approval (r : PlanRiskLevel) : bool :=
  match r with PlanLow => false | _ => true end.

Record PlanStep : Type := mkStep {
  step_action_name : string; step_summary : string; step_risk_level : PlanRiskLevel;
  step_params : json }.

Inductive PrefChangeKind : Type := Remember | Forget.
Record PendingPrefChange : Type := mkPref { pref_kind : PrefChangeKind; pref_fact : string }.

Record Plan : Type := mkPlan {
  plan_intent : string; plan_summary : string; plan_explanation : string;
  plan_steps : list PlanStep; plan_pref_changes : list PendingPrefChange }.

Definition plan_new (intent summary explanation : string) (steps : list PlanStep) : result string Plan :=
  if is_empty intent then Err "Plan intent must not be empty"
  else if is_empty summary then Err "Plan summary must not be empty"
  else if is_empty explanation then Err "Plan explanation must not be empty"
  else match steps with
       | [] => Err "Plan must have at least one step"
       | _ => Ok (mkPlan intent summary explanation steps [])
       end.

(** [AuthorizedPlan]: private field, so only [into_authorized] makes one. *)
Record AuthorizedPlan : Type := mkAuthorized { authorized : Plan }.

Definition into_authorized (risk_for : string -> PlanRiskLevel) (p : Plan) : AuthorizedPlan :=
  mkAuthorized {|
    plan_intent := plan_intent p; plan_summary := plan_summary p;
    plan_explanation := plan_explanation p;
    plan_steps := map (fun s => mkStep (step_action_name s) (step_summary s)
                                  (risk_for (step_action_name s)) (step_params s)) (plan_steps p);
    plan_pref_changes := plan_pref_changes p |}.

Definition steps (p : AuthorizedPlan) : list PlanStep := plan_steps (authorized p).

Definition risk_max (a b : PlanRiskLevel) : PlanRiskLevel := if risk_le a b then b else a.

(** [iter().map(risk_level).max()] *)
Definition highest_risk (p : AuthorizedPlan) : option PlanRiskLevel :=
  fold_left (fun best s => Some match best with
                                | None => step_risk_level s
                                | Some b => risk_max b (step_risk_level s)
                                end) (steps p) None.

(** ** The approval policy *)

Inductive MaxRisk : Type := MaxLow | MaxMedium | MaxHigh.
#[export] Instance MaxRisk_eq_dec : EqDecision MaxRisk.
Proof. solve_decision. Defined.

Definition max_rank (m : MaxRisk) : nat := match m with MaxLow => 0 | MaxMedium => 1 | MaxHigh => 2 end.
(** [Ord::min] *)
Definition max_risk_min (a b : MaxRisk) : MaxRisk := if max_rank b <? max_rank a then b else a.

Definition HARDCODED_MAX_AUTO_APPROVE : MaxRisk := MaxMedium.
Definition UNATTENDED_MAX_AUTO_APPROVE : MaxRisk := MaxHigh.

Definition includes (m : MaxRisk) (risk : PlanRiskLevel) : bool :=
  match m with
  | MaxLow => match risk with PlanLow => true | _ => false end
  | MaxMedium => match risk with PlanLow | PlanMedium => true | _ => false end
  | MaxHigh => true
  end.

Record ApprovalPolicy : Type := mkPolicy {
  pol_yes : bool; pol_max_risk : option MaxRisk; pol_non_interactive : bool; pol_dry_run : bool;
  pol_skip_approval : bool }.

Inductive ApprovalDecision : Type :=
| AutoApproved
| RequiresPrompt
| RequiresInteraction
| ExceedsCeiling (ceiling : MaxRisk).
#[export] Instance ApprovalDecision_eq_dec : EqDecision ApprovalDecision.
Proof. solve_decision. Defined.

Definition effective_auto_ceiling (p : ApprovalPolicy) : option MaxRisk :=
  if negb (pol_yes p) then None
  else
    let requested := default MaxLow (pol_max_risk p) in
    let cap := if pol_skip_approval p then UNATTENDED_MAX_AUTO_APPROVE else HARDCODED_MAX_AUTO_APPROVE in
    Some (max_risk_min requested cap).

Definition decide_step (p : ApprovalPolicy) (risk : PlanRiskLevel) : ApprovalDecision :=
  let ask := if pol_non_interactive p then RequiresInteraction else RequiresPrompt in
  let auto := match effective_auto_ceiling p with
              | Some auto_ceiling => if includes auto_ceiling risk then AutoApproved else ask
              | None => ask
              end in
  if pol_dry_run p then AutoApproved
  else match pol_max_risk p with
       | Some ceiling => if negb (includes ceiling risk) then ExceedsCeiling ceiling else auto
       | None => auto
       end.

Fixpoint decide_steps (p : ApprovalPolicy) (worst : ApprovalDecision) (l : list PlanStep) : ApprovalDecision :=
  match l with
  | [] => worst
  | s :: l' =>
      match decide_step p (step_risk_level s) with
      | ExceedsCeiling c => ExceedsCeiling c
      | RequiresInteraction => RequiresInteraction
      | RequiresPrompt => decide_steps p RequiresPrompt l'
      | AutoApproved => decide_steps p worst l'
      end
  end.
Definition decide_plan (p : ApprovalPolicy) (plan : AuthorizedPlan) : ApprovalDecision :=
  decide_steps p AutoApproved (steps plan).

(** ** The two keys of an unattended run *)

Definition UNATTENDED_CONSENT_VAR : string := "SYSKNIFE_I_ACCEPT_UNATTENDED_ROOT".
Definition UNATTENDED_CONSENT_VALUE : string := "1".

Inductive UnattendedConsent : Type := NotRequested | Granted | FlagWithoutEnv | EnvWithoutFlag.

Definition consent_resolve (flag : bool) (env_value : option string) : UnattendedConsent :=
  let env_ok := bool_decide (env_value = Some UNATTENDED_CONSENT_VALUE) in
  match flag, env_ok with
  | true, true => Granted
  | true, false => FlagWithoutEnv
  | false, true => EnvWithoutFlag
  | false, false => NotRequested
  end.

Definition is_granted (c : UnattendedConsent) : bool := match c with Granted => true | _ => false end.

Definition consent_refusal (c : UnattendedConsent) : option string :=
  match c with
  | FlagWithoutEnv =>
      let nl := String LF "" in
      Some ("--dangerously-skip-approval was passed but " ++ UNATTENDED_CONSENT_VAR ++ " is not set to "
            ++ UNATTENDED_CONSENT_VALUE ++ "." ++ nl ++ nl
            ++ "This flag lets an LLM's plan execute HIGH-risk actions as root with nobody watching. It needs two keys on purpose, so that neither a flag left in a script nor a variable left in a profile is enough on its own."
            ++ nl ++ nl ++ "If you meant it:  " ++ UNATTENDED_CONSENT_VAR ++ "=" ++ UNATTENDED_CONSENT_VALUE
            ++ " sysknife --dangerously-skip-approval ...")%string
  | _ => None
  end.

(** The two keys together, and nothing else, lift the gate; a flag alone is refused. *)
Lemma consent_needs_both flag env :
  (is_granted (consent_resolve flag env) = true <-> flag = true /\ env = Some UNATTENDED_CONSENT_VALUE)
  /\ (is_Some (consent_refusal (consent_resolve flag env)) <-> flag = true /\ env <> Some UNATTENDED_CONSENT_VALUE).
Proof.
  unfold consent_resolve. case_bool_decide as He; destruct flag; cbn; split; split;
    try (by intros []); try (by intros [? ?]); try (intros []; done); try done; by eauto.
Qed.

(** ** Errors of the client *)

Inductive CliError : Type :=
| Rejected
| ExecutionFailed (e : string)
| TimedOut (secs : N)
| NeedsRebootPause (e : string)
| PlanningFailed (e : string)
| Refused (reason : string) (suggestion : option string)
| ConfigOrDaemon (e : string)
| RiskCeilingExceeded (highest : PlanRiskLevel) (ceiling : MaxRisk)
| NonInteractive
| UnattendedConsentMissing (e : string)
| ApprovalNeedsTerminal
| ApprovalViewIncomplete (transaction_id : string) (withheld : nat) (shortened_note : string)
| RunViewIncomplete (what : string) (withheld : nat) (shortened_note : string)
| Exit (code : Z).

Definition exit_code (e : CliError) : Z :=
  match e with
  | Rejected | Refused _ _ | RiskCeilingExceeded _ _ | NonInteractive | UnattendedConsentMissing _
  | ApprovalNeedsTerminal | ApprovalViewIncomplete _ _ _ | RunViewIncomplete _ _ _ => 1
  | ExecutionFailed _ | TimedOut _ => 2
  | PlanningFailed _ => 3
  | ConfigOrDaemon _ => 4
  | NeedsRebootPause _ => 5
  | Exit code => code
  end.

(** ** Gates *)

Inductive GateAction : Type := Proceed | AskOperator | Refuse (e : CliError).

Definition gate_action (d : ApprovalDecision) (highest : PlanRiskLevel) : GateAction :=
  match d with
  | AutoApproved => Proceed
  | RequiresPrompt => AskOperator
  | RequiresInteraction => Refuse NonInteractive
  | ExceedsCeiling ceiling => Refuse (RiskCeilingExceeded highest ceiling)
  end.

Definition plan_risk_of (r : RiskLevel) : PlanRiskLevel :=
  match r with Low => PlanLow | Medium => PlanMedium | High => PlanHigh end.
Definition authoritative_plan_risk (name : string) : PlanRiskLevel := plan_risk_of (gate_risk name).

Definition post_preview_confirmation_required (step_by_step : bool) (risk : PlanRiskLevel) : bool :=
  step_by_step || risk_le PlanMedium risk.

Definition daemon_risk_within_approved (approved daemon : PlanRiskLevel) : bool := risk_le daemon approved.

(** [reject_unrunnable_params]: the first step whose specification cannot be built. *)
Fixpoint reject_unrunnable_params_in (l : list PlanStep) : result CliError () :=
  match l with
  | [] => Ok tt
  | s :: l' =>
      match build_action_spec (step_action_name s) (step_params s) with
      | Err e => Err (PlanningFailed ("step " ++ step_action_name s
                        ++ " has parameters the daemon cannot run: " ++ show_executor_error e)%string)
      | Ok _ => reject_unrunnable_params_in l'
      end
  end.
Definition reject_unrunnable_params (p : Plan) : result CliError () :=
  reject_unrunnable_params_in (plan_steps p).

Definition family_label (f : DistroFamily) : string :=
  match f with
  | FedoraFamily => "Fedora family" | DebianFamily => "Debian family" | OtherFamily => "unknown family"
  end.

Definition check_action_distro (action_name : string) (distro : option DistroId) : result string () :=
  match distro with
  | None => Ok tt
  | Some d =>
      let fam := Distro.family d in
      if str_in action_name UBUNTU_ONLY_ACTIONS && negb (action_matches_distro action_name d)
      then Err (action_name ++ " requires Ubuntu itself; current distro is " ++ distro_display d)%string
      else if str_in action_name DEBIAN_ONLY_ACTIONS && negb (bool_decide (fam = DebianFamily))
      then Err (action_name ++ " is only valid on Debian-family distros (apt/dpkg/GRUB); "
                ++ "current distro is " ++ distro_display d ++ " (" ++ family_label fam ++ ")")%string
      else if str_in action_name FEDORA_ONLY_ACTIONS && negb (bool_decide (fam = FedoraFamily))
      then Err (action_name ++ " is only valid on Fedora-family distros (rpm-ostree/dnf); "
                ++ "current distro is " ++ distro_display d ++ " (" ++ family_label fam ++ ")")%string
      else if action_requires_supported_host action_name && negb (is_supported d)
      then Err (action_name ++ " is disabled on unsupported distro " ++ distro_display d ++ "; "
                ++ "see docs/distro-support.md")%string
      else Ok tt
  end.

(** What the client's routing test accepts. *)
Lemma check_action_distro_ok name d :
  is_ok (check_action_distro name (Some d)) =
    action_matches_distro name d && (negb (action_requires_supported_host name) || is_supported d).
Proof.
  pose proof fences_disjoint as HD.
  apply andb_true_iff in HD as [[[[HFD HFU]%andb_true_iff HDU]%andb_true_iff _]%andb_true_iff _].
  unfold check_action_distro.
  assert (Hu : str_in name UBUNTU_ONLY_ACTIONS = true ->
               str_in name DEBIAN_ONLY_ACTIONS = false /\ str_in name FEDORA_ONLY_ACTIONS = false).
  { intros Hu. split; apply not_true_is_false; intros Hx.
    - pose proof (names_disjoint_spec _ _ name HDU Hx). congruence.
    - pose proof (names_disjoint_spec _ _ name HFU Hx). congruence. }
  assert (Hd : str_in name DEBIAN_ONLY_ACTIONS = true -> str_in name FEDORA_ONLY_ACTIONS = false).
  { intros Hd. apply not_true_is_false. intros Hx.
    pose proof (names_disjoint_spec _ _ name HFD Hx). congruence. }
  assert (Hrest : is_ok (if action_requires_supported_host name && negb (is_supported d)
       then Err (E := string) (name ++ " is disabled on unsupported distro " ++ distro_display d ++ "; " ++ "see docs/distro-support.md")%string
       else Ok tt) = negb (action_requires_supported_host name) || is_supported d).
  { by destruct (action_requires_supported_host name), (is_supported d). }
  unfold action_matches_distro. destruct (str_in name UBUNTU_ONLY_ACTIONS).
  { destruct (Hu eq_refl) as [-> ->]. cbn [andb]. destruct (is_ubuntu d); cbn [negb]; [exact Hrest|done]. }
  cbn [andb]. destruct (str_in name DEBIAN_ONLY_ACTIONS).
  { rewrite (Hd eq_refl). cbn [andb]. destruct (bool_decide _); cbn [negb]; [exact Hrest|done]. }
  cbn [andb]. destruct (str_in name FEDORA_ONLY_ACTIONS); cbn [andb]; [|exact Hrest].
  destruct (bool_decide _); cbn [negb]; [exact Hrest|done].
Qed.

Lemma unfenced_matches name d : action_requires_distro name = false -> action_matches_distro name d = true.
Proof.
  rewrite requires_distro_cases. unfold action_matches_distro. intros [[Hf Hd]%orb_false_iff Hu]%orb_false_iff. by rewrite Hf, Hd, Hu.
Qed.
