(* ===== verification/Render.v ===== *)
(** * What the client prints

    apps/sysknife-cli/src/render.rs: the plan, a step's header, its output and its
    result, as the lines that go to the terminal, with the count of what a bounded
    block left out ([Omissions]). Colour and [serde_json]'s pretty printer are other
    libraries' code: the class [Terminal]. *)

From Stdlib Require Import Ascii String NArith ZArith Lia.
From stdpp Require Import base list strings.
From S2P Require Import Prelude Json Types Approval OperatorText.

Inductive Style : Type := Bold | Dimmed | Green | Yellow | Red | RedBold | Cyan.
Inductive Stream : Type := Stdout | Stderr.

(** [if_supports_color] and [serde_json::to_string_pretty] *)
Class Terminal : Type := {
  paint : Stream -> Style -> text -> text;
  to_string_pretty : json -> text }.

Record Omissions : Type := mkOmissions { om_withheld : nat; om_shortened : nat }.
Definition no_omissions : Omissions := mkOmissions 0 0.
Definition is_none (o : Omissions) : bool := (om_withheld o =? 0) && (om_shortened o =? 0).
Definition record (o : Omissions) (b : OperatorBlock) : Omissions :=
  mkOmissions (om_withheld o + withheld_lines b) (om_shortened o + shortened_lines b).

Section Render.
Context `{Terminal}.

Definition risk_colored (r : PlanRiskLevel) : text :=
  chars "● " ++ match r with
                | PlanLow => paint Stdout Green (chars "low")
                | PlanMedium => paint Stdout Yellow (chars "medium")
                | PlanHigh => paint Stdout RedBold (chars "HIGH")
                end.

Definition json_block (value : json) : option OperatorBlock :=
  match value with
  | JNull | JObj [] | JArr [] => None
  | _ => Some (operator_safe_block (to_string_pretty value))
  end.

Definition indent (t prefix : text) : text := join_char 10 (map (app prefix) (text_lines t)).

(** [{:<32}] *)
Definition pad_text (n : nat) (t : text) : text := t ++ repeat 32%N (n - length t).

Definition RULE_WIDTH : nat := 50.

(** [replace(['\n', '\r'], " ")] *)
Definition on_one_line (t : text) : text :=
  map (fun c => if (c =? 10)%N || (c =? 13)%N then 32%N else c) t.

(** *** The plan *)

Definition print_step (i : nat) (step : PlanStep) : list text * option OperatorBlock :=
  let approval_label := if requires_approval (step_risk_level step)
                        then paint Stdout Yellow (chars "approval required")
                        else paint Stdout Dimmed (chars "auto") in
  let block := json_block (step_params step) in
  ([chars "  " ++ paint Stdout Dimmed (dec_text (S i))
      ++ chars "  " ++ paint Stdout Bold (pad_text 32 (chars (step_action_name step)))
      ++ chars "  " ++ risk_colored (step_risk_level step) ++ chars "  " ++ approval_label;
    chars "     " ++ paint Stdout Dimmed (operator_safe (chars (step_summary step)))]
   ++ match block with
      | Some b => [chars "     params:"; indent (ob_text b) (chars "       ")]
      | None => []
      end, block).

Definition fact_block (c : PendingPrefChange) : OperatorBlock :=
  operator_safe_block (on_one_line (chars (pref_fact c))).

Definition print_pref (c : PendingPrefChange) : text :=
  chars "    " ++ match pref_kind c with Remember => chars "remember" | Forget => chars "forget" end
    ++ chars ": " ++ ob_text (fact_block c).

(** Every bounded block of the plan's view, in order. *)
Definition plan_blocks (plan : AuthorizedPlan) : list OperatorBlock :=
  omap (fun s => json_block (step_params s)) (steps plan)
  ++ map fact_block (plan_pref_changes (authorized plan)).

Definition print_plan (plan : AuthorizedPlan) : list text * Omissions :=
  let changes := plan_pref_changes (authorized plan) in
  ([chars "";
    chars "  " ++ paint Stdout Bold (operator_safe (chars (plan_summary (authorized plan))));
    chars "  " ++ paint Stdout Dimmed (concat (repeat (chars "─") RULE_WIDTH))]
   ++ concat (imap (fun i s => (print_step i s).1) (steps plan))
   ++ match changes with
      | [] => []
      | _ => [chars ""; chars "  Preference changes (saved only if you confirm them below):"]
             ++ map print_pref changes
      end
   ++ [chars ""],
   fold_left record (plan_blocks plan) no_omissions).

(** *** A step *)

Definition effects_block (preview : PreviewEnvelope) : OperatorBlock :=
  operator_safe_block
    (join_char 10 (map (fun e => chars "- " ++ on_one_line (chars e)) (prv_expected_side_effects preview))).

Definition step_header_text (action : string) (preview : PreviewEnvelope) : text * Omissions :=
  let change := json_block (prv_proposed_change preview) in
  let effects := match prv_expected_side_effects preview with
                 | [] => None
                 | _ => Some (effects_block preview)
                 end in
  let lines :=
    [10%N :: chars "  " ++ paint Stderr Cyan (chars "▶") ++ chars " " ++ paint Stderr Bold (chars action)
       ++ chars "  " ++ paint Stderr Dimmed (operator_safe (chars (prv_summary preview)))]
    ++ (if prv_reboot_required preview
        then [chars "    " ++ paint Stderr Yellow (chars "⚠") ++ chars " reboot required after this step"]
        else [])
    ++ map (fun w => chars "    " ++ paint Stderr Yellow (chars "!") ++ chars " " ++ operator_safe (chars w))
         (prv_warnings preview)
    ++ match change with
       | Some b => [chars "    proposed change:"; indent (ob_text b) (chars "      ")]
       | None => []
       end
    ++ match effects with
       | Some b => [chars "    side effects:"; indent (ob_text b) (chars "      ")]
       | None => []
       end in
  (join_char 10 lines, fold_left record (option_list change ++ option_list effects) no_omissions).

Definition print_output_line (line : string) : text := chars "  › " ++ chars line.

Definition print_step_done (r : ResultEnvelope) : list text :=
  let '(icon, label) := match res_status r with
    | Queued => (chars "○", "queued")
    | Running => (paint Stdout Cyan (chars "●"), "running")
    | Succeeded => (paint Stdout Green (chars "✓"), "succeeded")
    | Failed => (paint Stdout Red (chars "✗"), "failed")
    | Canceled => (paint Stdout Yellow (chars "⊘"), "canceled")
    | RolledBack => (paint Stdout Cyan (chars "↩"), "rolled back")
    | NeedsReboot => (paint Stdout Yellow (chars "↺"), "needs reboot")
    end in
  [chars "  " ++ icon ++ chars "  " ++ operator_safe (chars (res_summary r)) ++ chars " — " ++ chars label]
  ++ match res_rollback_ref r with
     | Some ref => [chars "    rolled back with: " ++ operator_safe (chars ref)]
     | None => []
     end
  ++ (if res_needs_reboot r
      then [chars "    " ++ paint Stdout Yellow (chars "⚠") ++ chars " reboot required"] else [])
  ++ map (fun w => chars "    " ++ paint Stdout Yellow (chars "!") ++ chars " " ++ operator_safe (chars w))
       (res_warnings r)
  ++ match res_job_id r with Some id => [chars "    job  " ++ chars id] | None => [] end.
End Render.

(** ** What the counts mean *)

Lemma recorded_none bs o :
  is_none (fold_left record bs o) = true <-> is_none o = true /\ Forall (fun b => is_complete b = true) bs.
Proof.
  revert o. induction bs as [|b bs IH]; intros o; cbn [fold_left].
  { split; [by split|by intros []]. }
  rewrite IH, Forall_cons. unfold is_none, is_complete. cbn. rewrite !andb_true_iff, !Nat.eqb_eq.
  split; [intros [[? ?] ?]|intros [[? ?] [[? ?] ?]]]; split_and!; try done; lia.
Qed.

(** *** What an uncut view shows

    The text of a block is on screen whole: every line of it, at its full length. *)
Definition whole (t : text) : Prop := ob_text (operator_safe_block t) = ob_text (operator_safe_block_full t).

Section Whole.
Context `{Terminal}.

Definition json_texts (value : json) : list text :=
  match value with JNull | JObj [] | JArr [] => [] | _ => [to_string_pretty value] end.

(** The texts under "proposed change" and "side effects". *)
Definition step_texts (preview : PreviewEnvelope) : list text :=
  json_texts (prv_proposed_change preview)
  ++ match prv_expected_side_effects preview with
     | [] => []
     | effects => [join_char 10 (map (fun e => chars "- " ++ on_one_line (chars e)) effects)]
     end.

(** The parameters of the steps and the facts of the preference changes. *)
Definition plan_texts (plan : AuthorizedPlan) : list text :=
  concat (map (fun s => json_texts (step_params s)) (steps plan))
  ++ map (fun c => on_one_line (chars (pref_fact c))) (plan_pref_changes (authorized plan)).

Lemma json_block_texts value : option_list (json_block value) = map operator_safe_block (json_texts value).
Proof. by destruct value as [| | | |[]|[]]. Qed.

Lemma complete_whole l :
  Forall (fun b => is_complete b = true) (map operator_safe_block l) -> Forall whole l.
Proof. rewrite Forall_map. intros Hl. eapply Forall_impl; [exact Hl|]. intros t. apply complete_block_text. Qed.

(** A view that counts no omission left out nothing of these texts. *)
Lemma step_view_whole action preview :
  is_none (step_header_text action preview).2 = true -> Forall whole (step_texts preview).
Proof.
  unfold step_header_text. cbn [snd]. intros [_ Hb]%recorded_none. apply complete_whole.
  unfold step_texts. rewrite map_app, <-json_block_texts. unfold effects_block in Hb. destruct (prv_expected_side_effects preview); exact Hb.
Qed.

Lemma plan_view_whole plan : is_none (print_plan plan).2 = true -> Forall whole (plan_texts plan).
Proof.
  unfold print_plan. cbn [snd]. intros [_ Hb]%recorded_none. apply complete_whole.
  unfold plan_texts. rewrite map_app, map_map. unfold plan_blocks in Hb.
  enough (omap (fun s => json_block (step_params s)) (steps plan)
          = map operator_safe_block (concat (map (fun s => json_texts (step_params s)) (steps plan)))) as <- by done.
  clear Hb. induction (steps plan) as [|s l IH]; [done|]. cbn [map concat]. rewrite map_app, <-json_block_texts, <-IH.
  cbn [omap list_omap]. by destruct (json_block (step_params s)).
Qed.
End Whole.

(** A terminal without colour, for evaluation. *)
Module PlainTerminal.
#[export] Instance terminal : Terminal := {|
  paint := fun _ _ t => t;
  to_string_pretty := fun v => match v with JStr s => chars s | _ => chars "{}" end |}.

Definition long_warning (n : nat) : PreviewEnvelope := {|
  prv_summary := "AptInstall preview (high-risk)"; prv_risk_level := High;
  prv_current_state := JNull; prv_proposed_change := JNull; prv_expected_side_effects := [];
  prv_reboot_required := false; prv_rollback_available := false;
  prv_warnings := [string_of_list_ascii (repeat (chr 97) n)]; prv_request_hash := "" |}.

(** A warning past the width cap is cut, and the cut is not counted as an
    omission: the view of the preview still counts as complete. *)
Lemma cut_warning_is_not_counted :
  is_none (step_header_text "AptInstall" (long_warning 600)).2 = true
  /\ length (step_header_text "AptInstall" (long_warning 600)).1
     = length (step_header_text "AptInstall" (long_warning 700)).1.
Proof. split; by vm_compute. Qed.
End PlainTerminal.
