(* ===== verification/Unattended.v ===== *)
(** * The notice of an unattended run

    apps/sysknife-cli/src/unattended.rs: what is printed, and the pause that is taken,
    when both keys of an unattended run were turned. The machine's answers are
    arguments; printing and sleeping are effects. *)

From Stdlib Require Import Ascii String NArith Lia.
From stdpp Require Import base list strings gmap.
From S2P Require Import Prelude Program Config.

Definition INTERACTIVE_PAUSE : N := 5.

Record RunTarget : Type := mkRunTarget { rt_host : string; rt_user : string; rt_euid : N }.

(** [hostname_file] is /etc/hostname, if it can be read. *)
Definition detect (hostname_file : option string) (env : environ) (euid : N) : RunTarget :=
  let host :=
    match (s ← str_trim <$> hostname_file; if is_empty s then None else Some s) with
    | Some s => s
    | None => default "unknown-host" (env !! "HOSTNAME")
    end in
  let user :=
    match env !! "USER" with Some u => u | None => default "unknown-user" (env !! "LOGNAME") end in
  mkRunTarget host user euid.

Definition nl : string := String LF "".
Definition RULE : string :=
  "================================================================================".

Definition root_note (euid : N) : string :=
  if (euid =? 0)%N then "  Every action runs as root, because this process is already root."
  else "  Privileged actions run as root through the daemon.".

Definition banner (target : RunTarget) : string :=
  (RULE ++ nl
  ++ "  UNATTENDED MODE — the approval gate is OFF for this run" ++ nl
  ++ RULE ++ nl
  ++ nl
  ++ "  host   " ++ rt_host target ++ nl
  ++ "  user   " ++ rt_user target ++ " (euid " ++ dec_of_N (rt_euid target) ++ ")" ++ nl
  ++ nl
  ++ "  A plan written by a language model will execute without anyone confirming" ++ nl
  ++ "  it, including steps rated HIGH risk." ++ nl
  ++ root_note (rt_euid target) ++ nl
  ++ nl
  ++ "  Still enforced, and not affected by this flag:" ++ nl
  ++ "    - only actions in the typed catalogue can run, with validated parameters" ++ nl
  ++ "    - the polkit allowlist still gates every privileged call" ++ nl
  ++ "    - the run aborts if the daemon rates a step above what was approved" ++ nl
  ++ "    - every step is still signed into the audit chain, and each transaction" ++ nl
  ++ "      previewed in this mode carries a warning inside the signed record" ++ nl
  ++ nl
  ++ "  Turn this off by dropping --dangerously-skip-approval, or by unsetting" ++ nl
  ++ "  SYSKNIFE_I_ACCEPT_UNATTENDED_ROOT." ++ nl
  ++ nl
  ++ RULE)%string.

Inductive NoticeEffect : Type -> Type :=
| StderrIsTerminal : NoticeEffect bool
| ErrLine (line : string) : NoticeEffect ()
| Sleep (secs : N) : NoticeEffect ().

Definition ESC : string := String (chr 27) "".

Definition warn_and_pause (target : RunTarget) : prog NoticeEffect N :=
  let text := banner target in
  tty ← call StderrIsTerminal;
  if (tty : bool) then
    _ ← call (ErrLine (ESC ++ "[1;31m" ++ text ++ ESC ++ "[0m")%string);
    _ ← call (ErrLine ("  Starting in " ++ dec_of_N INTERACTIVE_PAUSE ++ "s. Ctrl-C now to stop.")%string);
    _ ← call (Sleep INTERACTIVE_PAUSE);
    Ret INTERACTIVE_PAUSE
  else
    _ ← call (ErrLine text);
    Ret 0%N.

(** ** What the operator is told *)

(** The banner's own text is printable ASCII and UTF-8, in lines: a class of bytes that has
    these holds of the banner when it holds of the two labels. *)
Lemma banner_adds_no_escapes (p : ascii -> bool) target :
  p LF = true -> (forall c, 32 <= nat_of_ascii c -> p c = true) ->
  str_all p (banner target) = str_all p (rt_host target) && str_all p (rt_user target).
Proof.
  intros Hl Hp.
  assert (Hc : forall s, str_all (fun c => Nat.leb 32 (nat_of_ascii c) || Ascii.eqb c LF) s = true ->
               str_all p s = true).
  { intros s. induction s as [|c s IH]; [done|]. cbn [str_all]. intros [Hc Hs]%andb_true_iff. rewrite IH by done.
    apply orb_true_iff in Hc as [Hc| ->%Ascii.eqb_eq]; [|by rewrite Hl].
    apply Nat.leb_le in Hc. by rewrite Hp. }
  assert (Hd : str_all p (dec_of_N (rt_euid target)) = true).
  { apply Hc. eapply str_all_mono; [|apply dec_of_N_digits]. intros c Hcd. unfold is_digit, between in Hcd.
    apply orb_true_iff. left. bools. apply Nat.leb_le in H. apply Nat.leb_le. lia. }
  assert (Hr : str_all p (root_note (rt_euid target)) = true) by (unfold root_note; case_match; by apply Hc).
  unfold banner. rewrite !str_all_app, Hd, Hr.
  repeat match goal with |- context [str_all p ?s] =>
    lazymatch s with rt_host _ => fail | rt_user _ => fail | _ => rewrite (Hc s) by reflexivity end end.
  cbn [andb]. by rewrite !andb_true_r.
Qed.

Lemma contains_here q b : contains q (q ++ b)%string = true.
Proof. apply contains_spec. exists "", b. reflexivity. Qed.
Lemma contains_later q a s : contains q s = true -> contains q (a ++ s)%string = true.
Proof. intros (x & y & ->)%contains_spec. apply contains_spec. exists (a ++ x)%string, y. by rewrite str_app_assoc. Qed.

(** The labels are on the screen, whatever they are. *)
Lemma banner_names_the_machine target :
  contains (rt_host target) (banner target) = true /\ contains (rt_user target) (banner target) = true.
Proof.
  unfold banner. split.
  - do 8 apply contains_later. apply contains_here.
  - do 11 apply contains_later. apply contains_here.
Qed.

(** The run waits when somebody can read the notice and not otherwise, and it never starts
    before the whole banner was printed. *)
Lemma notice_comes_first target tr secs :
  runs (warn_and_pause target) tr secs ->
  exists tty line rest, tr = mkEvent _ StderrIsTerminal tty :: mkEvent _ (ErrLine line) tt :: rest
    /\ contains (banner target) line = true
    /\ secs = (if tty then INTERACTIVE_PAUSE else 0%N)
    /\ (tty = true -> exists l, rest = [mkEvent _ (ErrLine l) tt; mkEvent _ (Sleep INTERACTIVE_PAUSE) tt]).
Proof.
  intros H. apply runs_inv in H as (tty & t1 & -> & H). cbn [mbind prog_bind] in H. destruct tty.
  - apply runs_inv in H as ([] & t2 & -> & H). apply runs_inv in H as ([] & t3 & -> & H).
    apply runs_inv in H as ([] & t4 & -> & H). apply runs_inv in H as [-> ->].
    exists true. do 2 eexists. split; [reflexivity|]. split_and!; [|done|eauto].
    apply contains_later, contains_later, contains_here.
  - apply runs_inv in H as ([] & t2 & -> & H). apply runs_inv in H as [-> ->].
    exists false. do 2 eexists. split; [reflexivity|]. split_and!; [|done|done].
    rewrite <- (str_app_nil (banner target)) at 2. apply contains_here.
Qed.

(** The labels are printed as they are: an account whose name carries an escape sequence
    (the variable is the caller's) has it in the banner. *)
Lemma hostile_account_reaches_the_banner :
  let target := detect (Some "prod-db-01") (<["USER" := (ESC ++ "[2J")%string]> ∅) 1000 in
  str_has (chr 27) (banner target) = true.
Proof. vm_compute. reflexivity. Qed.

(** An empty variable is taken as the label, though no label is meant to be empty. *)
Lemma labels_can_be_empty :
  detect None (<["HOSTNAME" := ""]> (<["USER" := ""]> ∅)) 0 = mkRunTarget "" "" 0.
Proof. vm_compute. reflexivity. Qed.
