(* ===== verification/Run.v ===== *)
(** * Running a plan from the client

    apps/sysknife-cli/src/runner.rs: [run_intent] after the planner is built,
    [execute_plan], and [approve_with_confirmation]. The planner, the daemon and
    the terminal answer the effects of [ClientEffect]; what the daemon does with a
    call is the other files' subject. Left out: spinners, the planner's progress
    events, and the socket the options name (one daemon answers). The lines of an
    execution are printed when it ends rather than as they arrive. *)

From Stdlib Require Import Ascii String NArith ZArith Lia.
From stdpp Require Import base list sets strings.
From S2P Require Import Prelude Program Json Distro Types ActionFamily Actions Builder Preview Approval OperatorText Render Dispatcher.
From S2P Require AuditChain.

(** ** The client's world *)

Record ApprovalDetailsReply : Type := mkDetails {
  ad_transaction_id : string; ad_action_name : string; ad_preview : PreviewEnvelope }.

Inductive ClientEffect : Type -> Type :=
| Println (t : text) : ClientEffect ()
| PrintStderr (t : text) : ClientEffect ()
| Eprint (t : text) : ClientEffect ()
| ReadLine : ClientEffect (result string string)
| ApplyPref (c : PendingPrefChange) : ClientEffect (result string bool)
| PlanIntent (intent : string) : ClientEffect (result CliError Plan)
| PlanIntentWithFeedback (intent feedback : string) : ClientEffect (result CliError Plan)
| PreviewDeclaring (name : string) (params : json) (unattended : bool)
    : ClientEffect (result CliError (string * PreviewEnvelope))
| ApproveTx (transaction_id : string) : ClientEffect (result CliError string)
| ExecuteTx (transaction_id name : string) (params : json) (receipt : string)
    : ClientEffect (list string * result CliError ResultEnvelope)
| GetDetails (transaction_id : string) : ClientEffect (result CliError ApprovalDetailsReply)
| Elapsed : ClientEffect text
| PanicWith (message : string) : ClientEffect Empty_set.

Abbreviation cprog := (Program.prog ClientEffect).
Abbreviation cevent := (Program.event ClientEffect).

(** [p?; f]: return the error. *)
Definition try_then {A B} (p : cprog (result CliError A)) (f : A -> cprog (result CliError B))
    : cprog (result CliError B) :=
  r ← p; match r with Err e => Ret (Err e) | Ok a => f a end.

(** [thiserror]'s [Display] of [CliError] *)
Definition max_risk_str (m : MaxRisk) : string :=
  match m with MaxLow => "low" | MaxMedium => "medium" | MaxHigh => "high" end.
Definition show_nat (n : nat) : string := dec_of_N (N.of_nat n).
Definition show_cli_error (e : CliError) : string :=
  match e with
  | Rejected => "plan rejected by user"
  | ExecutionFailed e => "execution failed: " ++ e
  | TimedOut n => "operation timed out after " ++ dec_of_N n ++ "s"
  | NeedsRebootPause e => "execution paused: " ++ e
  | PlanningFailed e => "planning failed: " ++ e
  | Refused reason _ => "cannot satisfy that request: " ++ reason
  | ConfigOrDaemon e => "config/daemon error: " ++ e
  | RiskCeilingExceeded highest ceiling =>
      "plan contains a " ++ plan_risk_str highest ++ " step, but --max-risk ceiling is "
      ++ max_risk_str ceiling
  | NonInteractive => "plan requires interactive approval but --non-interactive was set"
  | UnattendedConsentMissing e => e
  | ApprovalNeedsTerminal =>
      "sysknife approve needs a terminal to confirm on, and stdin is not one (it is a pipe, a redirect, or a non-interactive ssh command). Run it directly in a shell."
  | ApprovalViewIncomplete id withheld note =>
      "the proposed change does not fit the approval view: " ++ show_nat withheld
      ++ " line(s) were not shown" ++ note ++ ". Approving would mean consenting to text you were not shown. Re-run with --full to see all of it: sysknife approve "
      ++ id ++ " --full"
  | RunViewIncomplete what withheld note =>
      what ++ " does not fit on screen: " ++ show_nat withheld ++ " line(s) were not shown" ++ note
      ++ ". Approving would mean consenting to text you were not shown. Re-run with --json to see all of it before you answer"
  | Exit code => "subcommand exit code " ++ dec_of_Z code
  end%string.

Record RunOpts : Type := mkOpts {
  opt_yes : bool; opt_max_risk : option MaxRisk; opt_non_interactive : bool; opt_dry_run : bool;
  opt_json : bool; opt_step_by_step : bool; opt_skip_approval : bool }.

Definition approval_policy (o : RunOpts) : ApprovalPolicy :=
  mkPolicy (opt_yes o) (opt_max_risk o) (opt_non_interactive o) (opt_dry_run o) (opt_skip_approval o).

(** What serde writes for the values printed under [--json]. *)
Class JsonOutput : Type := {
  value_json : json -> text;
  preview_json : PreviewEnvelope -> text;
  preview_value : PreviewEnvelope -> json;
  result_json : ResultEnvelope -> text }.

Definition unattended_marker_present (warnings : list string) : bool :=
  existsb (fun w => (w =? UNATTENDED_WARNING)%string) warnings.

Definition shortened_note (shortened : nat) : string :=
  if shortened =? 0 then ""
  else (", and " ++ show_nat shortened ++ " shown line(s) were cut short")%string.

Definition require_complete_view (view : Omissions) (what : string) : result CliError () :=
  if is_none view then Ok tt
  else Err (RunViewIncomplete what (om_withheld view) (shortened_note (om_shortened view))).

Definition step_completion_verdict (name : string) (status : JobState) (summary : string)
    : result CliError () :=
  match status with
  | Succeeded => Ok tt
  | NeedsReboot =>
      Err (NeedsRebootPause ("step " ++ name ++ " needs a reboot before subsequent steps can run: "
                             ++ summary)%string)
  | other =>
      Err (ExecutionFailed ("step " ++ name ++ " ended in " ++ AuditChain.state_debug other ++ ": "
                            ++ summary)%string)
  end.

(** ** Prompts *)

Definition affirmative (buf : string) : bool := str_in (to_lower (str_trim buf)) ["y"; "yes"].

Definition prompt_confirm (msg : text) : cprog bool :=
  _ ← call (Eprint (msg ++ chars " [y/N] "));
  line ← call ReadLine;
  match line with
  | Ok EmptyString =>
      _ ← call (PrintStderr (10%N :: chars "sysknife: stdin closed (EOF) — treating as 'no'")); Ret false
  | Err e =>
      _ ← call (PrintStderr (10%N :: chars ("sysknife: stdin read error (" ++ e ++ ") — treating as 'no'")%string));
      Ret false
  | Ok buf => Ret (affirmative buf)
  end.

Definition prompt_exact (msg expected : string) : cprog bool :=
  _ ← call (Eprint (chars (msg ++ " (" ++ expected ++ "): ")%string));
  line ← call ReadLine;
  match line with
  | Ok EmptyString | Err _ => Ret false
  | Ok buf => Ret (str_trim buf =? expected)%string
  end.

(** ** Executing a plan *)

Section Execute.
Context `{Terminal} `{JsonOutput}.

Definition println_all (l : list text) : cprog () := for_each l (fun t => call (Println t)).

Definition plan_value (plan : AuthorizedPlan) : json :=
  let p := authorized plan in
  JObj [("plan", JObj [
    ("intent", JStr (plan_intent p));
    ("summary", JStr (plan_summary p));
    ("steps", JArr (map (fun s => JObj [
        ("action", JStr (step_action_name s)); ("summary", JStr (step_summary s));
        ("risk", JStr (plan_risk_str (step_risk_level s))); ("params", step_params s)]) (steps plan)));
    ("preference_changes", JArr (map (fun c => JObj [
        ("kind", JStr match pref_kind c with Remember => "remember" | Forget => "forget" end);
        ("fact", JStr (pref_fact c))]) (plan_pref_changes p)))])].

Definition show_plan (plan : AuthorizedPlan) (opts : RunOpts) : cprog Omissions :=
  if opt_json opts
  then _ ← call (Println (value_json (plan_value plan))); Ret no_omissions
  else _ ← println_all (print_plan plan).1; Ret (print_plan plan).2.

Definition plan_question (opts : RunOpts) (n : nat) (highest : PlanRiskLevel) : text :=
  if opt_json opts then chars "Execute this plan?"
  else chars ("  " ++ show_nat n ++ " step" ++ (if (n =? 1)%nat then "" else "s") ++ ", ")%string
       ++ risk_colored highest ++ chars " risk — execute?".

(** The whole-plan gate. *)
Definition plan_gate (plan : AuthorizedPlan) (opts : RunOpts) (plan_view : Omissions)
    (highest : PlanRiskLevel) : cprog (result CliError ()) :=
  match gate_action (decide_plan (approval_policy opts) plan) highest with
  | Proceed => Ret (Ok tt)
  | Refuse err => Ret (Err err)
  | AskOperator =>
      if opt_step_by_step opts then Ret (Ok tt)
      else
        try_then (Ret (require_complete_view plan_view "the plan")) (fun _ =>
        yes ← prompt_confirm (plan_question opts (length (steps plan)) highest);
        Ret (if yes : bool then Ok tt else Err Rejected))
  end.

(** The planner's preference changes. *)
Definition save_pref (c : PendingPrefChange) : cprog () :=
  r ← call (ApplyPref c);
  match r with
  | Ok true => Ret tt
  | Ok false => call (PrintStderr (chars "Preference not found, nothing removed: "
                                   ++ operator_safe (chars (pref_fact c))))
  | Err e => call (PrintStderr (chars ("Preference not saved: " ++ e)%string))
  end.

Definition pref_gate (plan : AuthorizedPlan) (opts : RunOpts) (plan_view : Omissions)
    : cprog (result CliError ()) :=
  match plan_pref_changes (authorized plan) with
  | [] => Ret (Ok tt)
  | changes =>
      if opt_yes opts || opt_non_interactive opts
      then
        _ ← call (PrintStderr (chars "Preference changes not saved: they need an interactive confirmation, and this run is unattended."));
        Ret (Ok tt)
      else
        try_then (Ret (require_complete_view plan_view "the plan")) (fun _ =>
        let n := length changes in
        yes ← prompt_confirm (chars ("  Save the " ++ show_nat n ++ " preference change"
                                     ++ (if (n =? 1)%nat then "" else "s") ++ " listed above?")%string);
        if yes : bool
        then _ ← for_each changes save_pref; Ret (Ok tt)
        else _ ← call (PrintStderr (chars "Preference changes not saved.")); Ret (Ok tt))
  end.

Definition preview_error (executed_steps : nat) (name : string) (err : CliError) : CliError :=
  if executed_steps =? 0 then err
  else
    let reason := match err with PlanningFailed message => message | other => show_cli_error other end in
    ExecutionFailed (name ++ " preview failed after " ++ show_nat executed_steps ++ " executed step(s): "
                     ++ reason)%string.

Definition step_question (opts : RunOpts) (step : PlanStep) : text :=
  if opt_json opts
  then chars ("Execute " ++ step_action_name step ++ " (")%string
       ++ operator_safe (chars (step_summary step)) ++ chars ")?"
  else chars ("Apply " ++ step_action_name step ++ " (")%string ++ risk_colored (step_risk_level step)
       ++ chars " risk) as previewed above?".

Definition show_step (opts : RunOpts) (step : PlanStep) (preview : PreviewEnvelope) : cprog Omissions :=
  if opt_json opts
  then _ ← call (Println (preview_json preview)); Ret no_omissions
  else let '(t, omitted) := step_header_text (step_action_name step) preview in
       _ ← call (PrintStderr t); Ret omitted.

(** The approval decision taken on the daemon's preview. *)
Definition step_gate (opts : RunOpts) (step : PlanStep) (step_view : Omissions)
    : cprog (result CliError ()) :=
  if post_preview_confirmation_required (opt_step_by_step opts) (step_risk_level step)
  then match gate_action (decide_step (approval_policy opts) (step_risk_level step)) (step_risk_level step) with
       | Proceed => Ret (Ok tt)
       | Refuse err => Ret (Err err)
       | AskOperator =>
           try_then (Ret (require_complete_view step_view
                            ("the " ++ step_action_name step ++ " preview")%string)) (fun _ =>
           yes ← prompt_confirm (step_question opts step);
           Ret (if yes : bool then Ok tt else Err Rejected))
       end
  else Ret (Ok tt).

Definition execute_step_checked (opts : RunOpts) (transaction_id : string) (step : PlanStep)
    (receipt : string) : cprog (result CliError ()) :=
  '(lines, reply) ← call (ExecuteTx transaction_id (step_action_name step) (step_params step) receipt);
  _ ← for_each lines (fun line =>
        call (Println (if opt_json opts then chars line else print_output_line line)));
  match reply with
  | Err e => Ret (Err e)
  | Ok result =>
      _ ← (if opt_json opts then call (Println (result_json result))
           else println_all (print_step_done result));
      Ret (step_completion_verdict (step_action_name step) (res_status result) (res_summary result))
  end.

Definition run_step (opts : RunOpts) (executed_steps : nat) (step : PlanStep)
    : cprog (result CliError ()) :=
  prepared ← call (PreviewDeclaring (step_action_name step) (step_params step) (opt_skip_approval opts));
  match prepared with
  | Err err => Ret (Err (preview_error executed_steps (step_action_name step) err))
  | Ok (transaction_id, preview) =>
      if opt_skip_approval opts && negb (unattended_marker_present (prv_warnings preview))
      then Ret (Err (ConfigOrDaemon (step_action_name step
             ++ ": this run has the approval gate lifted, but the daemon did not record it in the preview warnings, so the audit row would not show that no human approved. The daemon is older than this CLI. Upgrade it, or drop --dangerously-skip-approval.")%string))
      else
        let daemon_risk := plan_risk_of (prv_risk_level preview) in
        if negb (daemon_risk_within_approved (step_risk_level step) daemon_risk)
        then Ret (Err (ConfigOrDaemon (step_action_name step ++ ": the running daemon rates this "
               ++ plan_risk_str daemon_risk ++ " risk, above the " ++ plan_risk_str (step_risk_level step)
               ++ " the CLI approved — the CLI and daemon builds may differ. Aborting without executing; upgrade the CLI (or re-run with a matching --max-risk) so risk gating agrees.")%string))
        else
          step_view ← show_step opts step preview;
          try_then (step_gate opts step step_view) (fun _ =>
          try_then (call (ApproveTx transaction_id)) (fun receipt =>
          execute_step_checked opts transaction_id step receipt))
  end.

Fixpoint run_steps (opts : RunOpts) (executed_steps : nat) (l : list PlanStep)
    : cprog (result CliError ()) :=
  match l with
  | [] => Ret (Ok tt)
  | step :: l' => try_then (run_step opts executed_steps step) (fun _ => run_steps opts (S executed_steps) l')
  end.

Definition print_success (opts : RunOpts) : cprog () :=
  if opt_json opts then Ret tt
  else elapsed ← call Elapsed;
       call (Println (10%N :: paint Stdout Green (chars "✓") ++ chars "  succeeded  " ++ elapsed
                      ++ chars (String.append "s" (String LF "")))).

Definition dry_run_notes (plan : AuthorizedPlan) (opts : RunOpts) : cprog () :=
  _ ← (if opt_step_by_step opts
       then call (PrintStderr (chars "warning: --step-by-step has no effect with --dry-run")) else Ret tt);
  match plan_pref_changes (authorized plan) with
  | [] => Ret tt
  | _ => call (PrintStderr (chars "Preference changes not saved: this is a dry run."))
  end.

Definition execute_plan (plan : AuthorizedPlan) (opts : RunOpts) : cprog (result CliError ()) :=
  plan_view ← show_plan plan opts;
  if opt_dry_run opts then _ ← dry_run_notes plan opts; Ret (Ok tt)
  else match highest_risk plan with
  | None => Vis (PanicWith "plan has steps") (fun e : Empty_set => match e with end)
  | Some highest =>
      try_then (plan_gate plan opts plan_view highest) (fun _ =>
      try_then (pref_gate plan opts plan_view) (fun _ =>
      try_then (run_steps opts 0 (steps plan)) (fun _ =>
      _ ← print_success opts; Ret (Ok tt))))
  end.

(** ** From an intent to a plan *)

Definition param_feedback (error : CliError) : string :=
  ("The daemon rejected your previous plan with this exact error: " ++ String (chr 34) ""
   ++ show_cli_error error ++ String (chr 34) ""
   ++ ". Correct the plan parameters and call `propose_plan` again. Preserve the requested action and intent.")%string.

Definition plan_intent_with_param_correction (intent : string) : cprog (result CliError Plan) :=
  try_then (call (PlanIntent intent)) (fun plan =>
  match reject_unrunnable_params plan with
  | Ok _ => Ret (Ok plan)
  | Err error =>
      try_then (call (PlanIntentWithFeedback intent (param_feedback error))) (fun corrected =>
      Ret (match reject_unrunnable_params corrected with Ok _ => Ok corrected | Err e => Err e end))
  end).

(** The first step the target cannot run. *)
Fixpoint check_distros (distro : option DistroId) (l : list PlanStep) : result CliError () :=
  match l with
  | [] => Ok tt
  | step :: l' =>
      match check_action_distro (step_action_name step) distro with
      | Err msg => Err (ConfigOrDaemon msg)
      | Ok _ => check_distros distro l'
      end
  end.

Definition report_risk_mismatch (step : PlanStep) : cprog () :=
  let authoritative := authoritative_plan_risk (step_action_name step) in
  if bool_decide (step_risk_level step = authoritative) then Ret tt
  else call (PrintStderr (chars ("sysknife: " ++ step_action_name step ++ " — planner rated "
         ++ plan_risk_str (step_risk_level step) ++ " risk; using " ++ plan_risk_str authoritative
         ++ " (ActionSpec-derived)")%string)).

(** [run_intent] from the planning call on; [distro] is the daemon's host. *)
Definition run_intent (intent : string) (distro : option DistroId) (opts : RunOpts)
    : cprog (result CliError ()) :=
  try_then (plan_intent_with_param_correction intent) (fun plan =>
  try_then (Ret (if opt_dry_run opts then Ok tt else check_distros distro (plan_steps plan))) (fun _ =>
  _ ← for_each (plan_steps plan) report_risk_mismatch;
  execute_plan (into_authorized authoritative_plan_risk plan) opts)).

(** ** [sysknife approve] *)

Definition approval_view (context pretty : text) (transaction_id : string) (full : bool)
    : result CliError text :=
  if full
  then Ok (chars "Proposed change (complete):" ++ 10%N :: ob_text (operator_safe_block_full pretty)
           ++ [10; 10]%N ++ context)
  else
    let block := operator_safe_block pretty in
    if negb (is_complete block)
    then Err (ApprovalViewIncomplete transaction_id (withheld_lines block)
                (shortened_note (shortened_lines block)))
    else Ok (context ++ 10%N :: chars "Proposed change:" ++ 10%N :: ob_text block).

Definition risk_debug (r : RiskLevel) : string :=
  match r with Low => "Low" | Medium => "Medium" | High => "High" end.

Definition approve_context (d : ApprovalDetailsReply) : text :=
  chars ("Action:  " ++ ad_action_name d ++ String LF "Risk:    " ++ risk_debug (prv_risk_level (ad_preview d))
         ++ String LF "Summary: ")%string
  ++ operator_safe (chars (prv_summary (ad_preview d))).

Definition approve_confirm (risk : RiskLevel) (action_name transaction_id : string) : cprog bool :=
  match risk with
  | High => prompt_exact "High-risk action. Type the exact action name to approve" action_name
  | _ => prompt_confirm (chars ("Approve transaction " ++ transaction_id ++ "?")%string)
  end.

Definition approve_dry_run (d : ApprovalDetailsReply) (opts : RunOpts) (full : bool) : cprog () :=
  let pretty := to_string_pretty (prv_proposed_change (ad_preview d)) in
  if opt_json opts
  then call (Println (value_json (JObj [
         ("transaction_id", JStr (ad_transaction_id d)); ("action_name", JStr (ad_action_name d));
         ("preview", preview_value (ad_preview d)); ("dry_run", JBool true)])))
  else call (Println (chars (String.append "Dry run: approval preview only." (String LF ""))
         ++ approve_context d ++ 10%N :: chars "Proposed change:" ++ 10%N
         :: ob_text (if full then operator_safe_block_full pretty else operator_safe_block pretty))).

Definition approve_with_confirmation (transaction_id : string) (opts : RunOpts) (full terminal : bool)
    : cprog (result CliError ()) :=
  if opt_non_interactive opts && negb (opt_dry_run opts) then Ret (Err NonInteractive)
  else if negb terminal && negb (opt_dry_run opts) then Ret (Err ApprovalNeedsTerminal)
  else
    try_then (call (GetDetails transaction_id)) (fun details =>
    if opt_dry_run opts then _ ← approve_dry_run details opts full; Ret (Ok tt)
    else
      let pretty := to_string_pretty (prv_proposed_change (ad_preview details)) in
      let risk := plan_risk_of (prv_risk_level (ad_preview details)) in
      let policy := mkPolicy false (opt_max_risk opts) (opt_non_interactive opts) false false in
      match gate_action (decide_step policy risk) risk with
      | Refuse error => Ret (Err error)
      | _ =>
          try_then (Ret (approval_view (approve_context details) pretty transaction_id full)) (fun view =>
          _ ← call (PrintStderr view);
          approved ← approve_confirm (prv_risk_level (ad_preview details)) (ad_action_name details)
                       (ad_transaction_id details);
          if negb approved then Ret (Err Rejected)
          else
            try_then (call (ApproveTx transaction_id)) (fun receipt =>
            _ ← call (Println (if opt_json opts
                  then value_json (JObj [("transaction_id", JStr transaction_id); ("approval_receipt", JStr receipt)])
                  else chars ("Approval receipt: " ++ receipt)%string));
            Ret (Ok tt)))
      end).
End Execute.

(** ** Consent

    What the history of a run must hold for the daemon to be asked for a receipt. *)

(** Close a goal about a program that only prints. *)
Ltac prints := repeat first [ostep | exact I].

Section Consent.
Context `{Terminal} `{JsonOutput}.
Implicit Types (opts : RunOpts) (plan : AuthorizedPlan) (pre : list cevent).

(** The question, and the line the operator typed. *)
Definition asked (question : text) (buf : string) : list cevent :=
  [mkEvent _ (Eprint (question ++ chars " [y/N] ")) tt; mkEvent _ ReadLine (Ok buf)].

(** The daemon's preview of the step, and its print. *)
Definition previewed opts (s : PlanStep) (id : string) (preview : PreviewEnvelope) : list cevent :=
  [mkEvent _ (PreviewDeclaring (step_action_name s) (step_params s) (opt_skip_approval opts)) (Ok (id, preview));
   if opt_json opts then mkEvent _ (Println (preview_json preview)) tt
   else mkEvent _ (PrintStderr (step_header_text (step_action_name s) preview).1) tt].

(** What the print shows whole: the preview's proposed change and side effects, the plan's
    parameters and facts. ([--json] prints everything; otherwise summaries and warnings
    are one line each, cut at 512 characters.) *)
Definition step_shown opts (s : PlanStep) (preview : PreviewEnvelope) : Prop :=
  opt_json opts = true \/ Forall whole (step_texts preview).
Definition plan_shown opts plan : Prop := opt_json opts = true \/ Forall whole (plan_texts plan).

(** The print of the plan. *)
Definition plan_printed opts plan : list cevent :=
  if opt_json opts then [mkEvent _ (Println (value_json (plan_value plan))) tt]
  else map (fun l => mkEvent _ (Println l) tt) (print_plan plan).1.

(** The plan was printed, and the question about it that came next was answered yes. *)
Definition plan_accepted plan opts pre : Prop :=
  opt_non_interactive opts = false /\ plan_shown opts plan
  /\ exists a buf b highest, affirmative buf = true /\ highest_risk plan = Some highest
      /\ pre = a ++ plan_printed opts plan ++ asked (plan_question opts (length (steps plan)) highest) buf ++ b.

Definition step_consent plan opts pre (s : PlanStep) (preview : PreviewEnvelope) (answers : list cevent) : Prop :=
  let risk := step_risk_level s in
  (answers = [] /\ decide_step (approval_policy opts) risk = AutoApproved)
  \/ (answers = [] /\ risk = PlanLow /\ opt_step_by_step opts = false /\ plan_accepted plan opts pre)
  \/ (opt_non_interactive opts = false /\ step_shown opts s preview
      /\ exists buf, affirmative buf = true /\ answers = asked (step_question opts s) buf).

(** [pre] ends with the preview of a step of the plan, its print, and the consent
    the step needs; the preview's risk and warnings are acceptable. *)
Definition approval_due plan opts pre (id : string) (s : PlanStep) (preview : PreviewEnvelope) : Prop :=
  exists before answers,
    pre = before ++ previewed opts s id preview ++ answers
    /\ s ∈ steps plan
    /\ opt_dry_run opts = false
    /\ risk_le (plan_risk_of (prv_risk_level preview)) (step_risk_level s) = true
    /\ (opt_skip_approval opts = true -> UNATTENDED_WARNING ∈ prv_warnings preview)
    /\ step_consent plan opts before s preview answers.

(** What each effect of a run needs. *)
Definition allowed plan opts X pre (e : ClientEffect X) : Prop :=
  match e with
  | ApproveTx id => exists s preview, approval_due plan opts pre id s preview
  | ExecuteTx id name params receipt =>
      exists s preview pre', approval_due plan opts pre' id s preview
        /\ pre = pre' ++ [mkEvent _ (ApproveTx id) (Ok receipt)]
        /\ name = step_action_name s /\ params = step_params s
  | ApplyPref c =>
      opt_yes opts = false /\ opt_non_interactive opts = false /\ opt_dry_run opts = false
      /\ c ∈ plan_pref_changes (authorized plan) /\ plan_shown opts plan
      /\ exists a question buf b, pre = a ++ asked question buf ++ b /\ affirmative buf = true
  | _ => True
  end.

(** *** Policy lemmas *)

Lemma decide_steps_auto p worst l :
  decide_steps p worst l = AutoApproved ->
  worst = AutoApproved /\ Forall (fun s => decide_step p (step_risk_level s) = AutoApproved) l.
Proof.
  revert worst. induction l as [|s l IH]; intros worst; cbn [decide_steps]; [by split|].
  destruct (decide_step p (step_risk_level s)) eqn:E; intros Hd; try done.
  - destruct (IH _ Hd). by split; [|constructor].
  - by destruct (IH _ Hd).
Qed.

(** A question is only put by a policy that may. *)
Lemma prompt_interactive p r : decide_step p r = RequiresPrompt -> pol_non_interactive p = false.
Proof. unfold decide_step. repeat case_match; congruence. Qed.
Lemma plan_prompt_interactive p worst l :
  decide_steps p worst l = RequiresPrompt -> worst = AutoApproved -> pol_non_interactive p = false.
Proof.
  intros Hd Hw. assert (Hq : worst = RequiresPrompt -> pol_non_interactive p = false) by (by subst).
  clear Hw. revert worst Hq Hd. induction l as [|s l IH]; intros worst Hq; cbn [decide_steps]; [done|].
  destruct (decide_step p (step_risk_level s)) eqn:E; try done; apply IH; [done|].
  intros _. by apply prompt_interactive in E.
Qed.

(** *** The parts of a run *)

Lemma complete_view opts (view : Omissions) what (shown : Prop) e :
  require_complete_view view what = Ok e -> (is_none view = true -> shown) -> shown.
Proof. unfold require_complete_view. case_match; [auto|done]. Qed.

Section Parts.
Variables (plan : AuthorizedPlan) (opts : RunOpts).

Definition print_effect X (e : ClientEffect X) : Prop :=
  match e with Println _ | PrintStderr _ | Elapsed => True | _ => False end.

Lemma print_allowed X pre (e : ClientEffect X) : print_effect X e -> allowed plan opts X pre e.
Proof. by destruct e. Qed.

(** A prompt is answered no, or by a yes at the end of the history. *)
Lemma prompt_confirm_holds (post : list cevent -> bool -> Prop) g q :
  (forall g', g `prefix_of` g' -> post g' false) ->
  (forall buf, affirmative buf = true -> post (g ++ asked q buf) true) ->
  holds (history (allowed plan opts)) post g (prompt_confirm q).
Proof.
  intros Hno Hyes. unfold prompt_confirm. hgo. destruct x0 as [buf|e].
  - assert (Hb : affirmative buf = true -> post ((g ++ [mkEvent _ (Eprint (q ++ chars " [y/N] ")) x])
                                       ++ [mkEvent _ ReadLine (Ok buf)]) true).
    { intros Ha. destruct x. rewrite <-app_assoc. by apply Hyes. }
    destruct buf as [|c buf].
    + hgo. apply Hno. rewrite <-!app_assoc. by apply prefix_app_r.
    + hgo. destruct (affirmative _) eqn:Ea; [by apply Hb|].
      apply Hno. rewrite <-!app_assoc. by apply prefix_app_r.
  - hgo. apply Hno. rewrite <-!app_assoc. by apply prefix_app_r.
Qed.

Lemma only_prints l : only print_effect (println_all l).
Proof. apply only_for_each. intros t. by apply only_call. Qed.

Lemma printed (post : list cevent -> () -> Prop) g p :
  only print_effect p -> (forall g' a, g `prefix_of` g' -> post g' a) ->
  holds (history (allowed plan opts)) post g p.
Proof. intros Hp Hpost. apply (history_only _ _ _ _ _ Hp); [|done]. intros X pre e _. apply print_allowed. Qed.

Lemma println_all_holds (post : list cevent -> () -> Prop) g l :
  post (g ++ map (fun t => mkEvent _ (Println t) tt) l) tt ->
  holds (history (allowed plan opts)) post g (println_all l).
Proof.
  unfold println_all. revert g. induction l as [|t l IH]; intros g Hp; cbn [for_each map].
  - rewrite app_nil_r in Hp. exact Hp.
  - hgo. destruct x. apply IH. rewrite <-app_assoc. exact Hp.
Qed.

Lemma show_plan_holds g :
  holds (history (allowed plan opts))
    (fun g' view => g' = g ++ plan_printed opts plan /\ (is_none view = true -> plan_shown opts plan)) g
    (show_plan plan opts).
Proof.
  unfold show_plan, plan_shown, plan_printed. destruct (opt_json opts).
  - hgo. destruct x. split; [done|by left].
  - apply holds_bind, println_all_holds. apply conj; [reflexivity|]. intros Hn. right. by apply plan_view_whole.
Qed.

Definition plan_settled pre : Prop :=
  decide_plan (approval_policy opts) plan = AutoApproved \/ opt_step_by_step opts = true
  \/ plan_accepted plan opts pre.

Lemma plan_settled_extends g g' : g `prefix_of` g' -> plan_settled g -> plan_settled g'.
Proof.
  intros [t ->] [Hd|[Hd|(Hi & Hs & a & buf & b & h & Hb & Hh & ->)]]; [by left|by right; left|].
  right; right. split_and!; [done..|]. exists a, buf, (b ++ t), h.
  split_and!; [done..|]. by rewrite <-!app_assoc.
Qed.

Lemma plan_gate_holds g0 g view highest :
  g = g0 ++ plan_printed opts plan ->
  highest_risk plan = Some highest -> (is_none view = true -> plan_shown opts plan) ->
  holds (history (allowed plan opts))
    (fun g' r => g `prefix_of` g' /\ (is_ok r = true -> plan_settled g')) g
    (plan_gate plan opts view highest).
Proof.
  intros Hg Hh Hv. unfold plan_gate, decide_plan. destruct (decide_steps _ _ _) eqn:Ed; cbn [gate_action].
  - hgo. split; [done|]. intros _. by left.
  - destruct (opt_step_by_step opts) eqn:Es; [hgo; split; [done|]; intros _; right; by left|].
    unfold try_then. hgo. destruct (require_complete_view _ _) as [[]|] eqn:Ev; [|by hgo].
    apply holds_bind, prompt_confirm_holds; cbn; [by split|].
    intros buf Hb. split; [by apply prefix_app_r|]. intros _. right; right. split_and!.
    + by apply (plan_prompt_interactive (approval_policy opts) AutoApproved (steps plan)).
    + by apply (complete_view opts view _ _ _ Ev).
    + exists g0, buf, [], highest. by rewrite Hg, app_nil_r, <-app_assoc.
  - by hgo.
  - by hgo.
Qed.

Definition pref_effect (changes : list PendingPrefChange) X (e : ClientEffect X) : Prop :=
  match e with ApplyPref c => c ∈ changes | _ => print_effect X e end.

Lemma only_save_prefs changes : only (pref_effect changes) (for_each changes save_pref).
Proof.
  enough (forall l, l ⊆ changes -> only (pref_effect changes) (for_each l save_pref)) as Hl by by apply Hl.
  induction l as [|c l IH]; intros Hl; cbn [for_each]; [done|]. apply only_bind.
  - unfold save_pref. ostep; [ostep; cbn; set_solver|]. by repeat ostep.
  - intros _. apply IH. set_solver.
Qed.

Lemma pref_gate_holds g view :
  opt_dry_run opts = false -> (is_none view = true -> plan_shown opts plan) ->
  holds (history (allowed plan opts)) (fun g' _ => g `prefix_of` g') g (pref_gate plan opts view).
Proof.
  intros Hd Hv. unfold pref_gate.
  assert (Hc : forall changes, plan_pref_changes (authorized plan) = changes -> plan_pref_changes (authorized plan) ⊆ changes)
    by set_solver.
  destruct (plan_pref_changes (authorized plan)) as [|c0 changes] eqn:Ec; [by hgo|].
  destruct (opt_yes opts || opt_non_interactive opts) eqn:Eu; [hgo; by apply prefix_app_r|].
  apply orb_false_iff in Eu as [Ey Ei]. unfold try_then. hgo.
  destruct (require_complete_view _ _) as [[]|] eqn:Ev; [|by hgo].
  apply holds_bind, prompt_confirm_holds.
  - intros g' Hg. hgo. by apply prefix_app_r.
  - intros buf Hb. apply holds_bind.
    apply (history_only _ (pref_effect (c0 :: changes)) _ _ _ (only_save_prefs _)).
    + intros X pre e [t Ht]. destruct e; try done. cbn [pref_effect allowed]. intros Hin. rewrite Ec. split_and!; try done.
      { by apply (complete_view opts view _ _ _ Ev). }
      eexists g, _, buf, t. by rewrite Ht, <-app_assoc.
    + intros g' _ Hg. hgo. etrans; [|exact Hg]. by apply prefix_app_r.
Qed.
Lemma settled_consent before s preview :
  plan_settled before -> s ∈ steps plan ->
  post_preview_confirmation_required (opt_step_by_step opts) (step_risk_level s) = false ->
  step_consent plan opts before s preview [].
Proof.
  unfold post_preview_confirmation_required, step_consent. intros Hs Hin Hp.
  apply orb_false_iff in Hp as [Hsb Hr].
  destruct Hs as [Hd|[Hd|Hd]]; [left|congruence|right; left].
  - split; [done|]. apply decide_steps_auto in Hd as [_ Hd]. rewrite Forall_forall in Hd. by apply Hd.
  - split_and!; [done| |done..]. by destruct (step_risk_level s).
Qed.

Lemma step_gate_holds g before s preview view :
  plan_settled before -> s ∈ steps plan -> (is_none view = true -> step_shown opts s preview) ->
  holds (history (allowed plan opts))
    (fun g' r => g `prefix_of` g' /\ (is_ok r = true ->
        exists answers, g' = g ++ answers /\ step_consent plan opts before s preview answers)) g
    (step_gate opts s view).
Proof.
  intros Hs Hin Hv. unfold step_gate. destruct (post_preview_confirmation_required _ _) eqn:Ep.
  - destruct (decide_step _ _) eqn:Ed; cbn [gate_action]; [| |by hgo|by hgo].
    + hgo. split; [done|]. intros _. exists []. rewrite app_nil_r. split; [done|]. by left.
    + unfold try_then. hgo. destruct (require_complete_view _ _) as [[]|] eqn:Ev; [|by hgo].
      apply holds_bind, prompt_confirm_holds; cbn; [by split|].
      intros buf Hb. split; [by apply prefix_app_r|]. intros _. eexists. split; [done|].
      right; right. split_and!; [by apply prompt_interactive in Ed| |by exists buf].
      by apply (complete_view opts view _ _ _ Ev).
  - hgo. split; [done|]. intros _. exists []. rewrite app_nil_r. split; [done|]. by apply settled_consent.
Qed.

Lemma execute_step_holds pre id s preview receipt :
  approval_due plan opts pre id s preview ->
  let g := pre ++ [mkEvent _ (ApproveTx id) (Ok receipt)] in
  holds (history (allowed plan opts)) (fun g' _ => g `prefix_of` g') g (execute_step_checked opts id s receipt).
Proof.
  intros Hdue g. unfold execute_step_checked. apply holds_bind, holds_perform.
  { exists s, preview, pre. by split_and!. }
  intros [lines reply]. cbn [next history]. apply holds_bind, printed.
  { apply only_for_each. intros line. by apply only_call. }
  intros g1 _ H1. assert (Hg : g `prefix_of` g1) by (etrans; [|exact H1]; by apply prefix_app_r).
  destruct reply as [r|e]; [|by hgo]. apply holds_bind, printed.
  { destruct (opt_json opts); [by apply only_call|apply only_prints]. }
  intros g2 _ H2. hgo. by etrans.
Qed.

Lemma run_step_holds g n s :
  opt_dry_run opts = false -> plan_settled g -> s ∈ steps plan ->
  holds (history (allowed plan opts)) (fun g' _ => g `prefix_of` g') g (run_step opts n s).
Proof.
  intros Hd Hs Hin. unfold run_step. hgo. destruct x as [[id preview]|err]; [|hgo; by apply prefix_app_r].
  destruct (opt_skip_approval opts && _) eqn:Em; [hgo; by apply prefix_app_r|].
  destruct (negb (daemon_risk_within_approved _ _)) eqn:Er; [hgo; by apply prefix_app_r|].
  apply negb_false_iff in Er. apply holds_bind.
  assert (Hshow : forall (P : list cevent -> Omissions -> Prop),
    (forall view, (is_none view = true -> step_shown opts s preview) -> P (g ++ previewed opts s id preview) view) ->
    holds (history (allowed plan opts)) P
      (g ++ [mkEvent _ (PreviewDeclaring (step_action_name s) (step_params s) (opt_skip_approval opts)) (Ok (id, preview))])
      (show_step opts s preview)).
  { intros P HP. unfold show_step, previewed, step_shown in *.
    pose proof (step_view_whole (step_action_name s) preview) as Hw.
    destruct (step_header_text (step_action_name s) preview) as [t om] eqn:Et. cbn [fst snd] in HP, Hw.
    destruct (opt_json opts); hgo; destruct x; rewrite <-app_assoc; apply HP; auto. }
  apply Hshow. intros view Hview. unfold try_then. apply holds_bind.
  eapply holds_mono; [|by apply (step_gate_holds _ g s preview view)].
  cbn beta. intros g' [[]|e] [Hpre Hok]; [|hgo; etrans; [|exact Hpre]; by apply prefix_app_r].
  destruct (Hok eq_refl) as (answers & -> & Hc).
  assert (Hdue : approval_due plan opts ((g ++ previewed opts s id preview) ++ answers) id s preview).
  { exists g, answers. split_and!; [by rewrite <-app_assoc|done..| |done].
    intros Hk. rewrite Hk in Em. cbn in Em. apply negb_false_iff in Em.
    unfold unattended_marker_present in Em. apply existsb_exists in Em as (w & Hw & E).
    apply String.eqb_eq in E as ->. by apply list_elem_of_In. }
  apply holds_bind, holds_perform; [by exists s, preview|]. intros [receipt|e]; cbn [next history].
  - eapply holds_mono; [|by apply (execute_step_holds _ id s preview receipt Hdue)].
    cbn beta. intros g2 _ H2. etrans; [|exact H2]. rewrite <-!app_assoc. by apply prefix_app_r.
  - hgo. rewrite <-!app_assoc. by apply prefix_app_r.
Qed.

Lemma run_steps_holds g n l :
  opt_dry_run opts = false -> plan_settled g -> l ⊆ steps plan ->
  holds (history (allowed plan opts)) (fun g' _ => g `prefix_of` g') g (run_steps opts n l).
Proof.
  intros Hd. revert g n. induction l as [|s l IH]; intros g n Hs Hl; cbn [run_steps]; [by hgo|].
  unfold try_then. apply holds_bind.
  eapply holds_mono; [|by apply (run_step_holds g n s Hd Hs); set_solver].
  cbn beta. intros g' [[]|e] Hg; [|by hgo].
  eapply holds_mono; [|apply IH; [by apply (plan_settled_extends g)|set_solver]].
  cbn beta. intros g2 _ H2. by etrans.
Qed.

(** Every effect of a run is allowed where it happens. *)
Lemma execute_plan_holds g : holds (history (allowed plan opts)) (fun g' _ => g `prefix_of` g') g (execute_plan plan opts).
Proof.
  unfold execute_plan. apply holds_bind. eapply holds_mono; [|apply show_plan_holds].
  cbn beta. intros g1 view [E1 Hv]. assert (H1 : g `prefix_of` g1) by (rewrite E1; by apply prefix_app_r).
  destruct (opt_dry_run opts) eqn:Hd.
  { unfold dry_run_notes. apply holds_bind, printed; [|intros g2 _ H2; hgo; by etrans].
    apply only_bind; [destruct (opt_step_by_step opts); prints|].
    intros _. destruct (plan_pref_changes _); prints. }
  destruct (highest_risk plan) as [highest|] eqn:Eh; [|by split].
  unfold try_then. apply holds_bind. eapply holds_mono; [|by apply (plan_gate_holds g g1 view highest E1 Eh Hv)].
  cbn beta. intros g2 r2 [H2 Hs]. pose proof (transitivity H1 H2) as H12.
  destruct r2 as [[]|e]; [|by hgo]. specialize (Hs eq_refl).
  apply holds_bind. eapply holds_mono; [|by apply (pref_gate_holds g2 view Hd Hv)].
  cbn beta. intros g3 r3 H3. pose proof (transitivity H12 H3) as H13. destruct r3 as [[]|e]; [|by hgo].
  apply holds_bind. eapply holds_mono; [|exact (run_steps_holds g3 0 (steps plan) Hd (plan_settled_extends g2 g3 H3 Hs) (reflexivity (R := (⊆)) _))].
  cbn beta. intros g4 r4 H4. pose proof (transitivity H13 H4) as H14. destruct r4 as [[]|e]; [|by hgo].
  apply holds_bind, printed.
  { unfold print_success. destruct (opt_json opts); prints. }
  intros g5 _ H5. hgo. by etrans.
Qed.
End Parts.
End Consent.

(** ** The run of an intent *)

Section Intent.
Context `{Terminal} `{JsonOutput}.
Variables (intent : string) (distro : option DistroId) (opts : RunOpts).

(** The planner returned the plan, and it passed the checks made before it is shown. *)
Definition planned (pre : list cevent) (plan : Plan) : Prop :=
  (mkEvent _ (PlanIntent intent) (Ok plan) ∈ pre
   \/ exists feedback, mkEvent _ (PlanIntentWithFeedback intent feedback) (Ok plan) ∈ pre)
  /\ reject_unrunnable_params plan = Ok tt
  /\ (opt_dry_run opts = false -> check_distros distro (plan_steps plan) = Ok tt).

Definition intent_allowed X (pre : list cevent) (e : ClientEffect X) : Prop :=
  exists plan, match e with
  | ApproveTx _ | ExecuteTx _ _ _ _ | ApplyPref _ =>
      planned pre plan /\ allowed (into_authorized authoritative_plan_risk plan) opts X pre e
  | _ => True
  end.

Definition no_plan : Plan := mkPlan "" "" "" [] [].

Lemma prefix_elem {A} (l l' : list A) x : l `prefix_of` l' -> x ∈ l -> x ∈ l'.
Proof. intros [t ->]. set_solver. Qed.

Lemma planned_extends pre pre' plan : pre `prefix_of` pre' -> planned pre plan -> planned pre' plan.
Proof.
  intros Hp ([Hi|[fb Hi]] & Hr & Hd); split_and!; try done; [left|right; exists fb]; by eapply prefix_elem.
Qed.

Lemma planning_holds g :
  holds (history intent_allowed)
    (fun g' r => forall plan, r = Ok plan -> reject_unrunnable_params plan = Ok tt
       /\ (mkEvent _ (PlanIntent intent) (Ok plan) ∈ g'
           \/ exists feedback, mkEvent _ (PlanIntentWithFeedback intent feedback) (Ok plan) ∈ g'))
    g (plan_intent_with_param_correction intent).
Proof.
  unfold plan_intent_with_param_correction, try_then. apply holds_bind, holds_perform; [by exists no_plan|].
  intros [p|e]; cbn [next history]; [|by hgo]. destruct (reject_unrunnable_params p) as [[]|e] eqn:Er.
  { hgo. intros plan [= <-]. split; [done|]. left. set_solver. }
  apply holds_bind, holds_perform; [by exists no_plan|]. intros [c|e']; cbn [next history]; [|by hgo].
  hgo. destruct (reject_unrunnable_params c) as [[]|e'] eqn:Er'; [|done].
  intros plan [= <-]. split; [done|]. right. exists (param_feedback e). set_solver.
Qed.

Lemma run_intent_holds : holds (history intent_allowed) (fun _ _ => True) [] (run_intent intent distro opts).
Proof.
  unfold run_intent, try_then. apply holds_bind. eapply holds_mono; [|apply planning_holds].
  cbn beta. intros g [plan|e] Hp; [|by hgo]. destruct (Hp plan eq_refl) as [Hr Hi]. hgo.
  destruct (if opt_dry_run opts then _ else _) as [[]|e] eqn:Ed; [|by hgo].
  assert (Hpl : planned g plan).
  { split_and!; [done..|]. intros Hdr. by rewrite Hdr in Ed. }
  apply holds_bind. eapply (history_only _ print_effect).
  { apply only_for_each. intros s. unfold report_risk_mismatch. destruct (bool_decide _); prints. }
  { intros X pre e _ He. exists plan. by destruct e. }
  intros g1 [] H1. eapply holds_mono; [by intros|].
  eapply history_mono; [|apply execute_plan_holds].
  intros X pre e Hg Ha. exists plan.
  pose proof (planned_extends _ _ _ (transitivity H1 Hg) Hpl). by destruct e.
Qed.
End Intent.

Lemma authorized_steps risk_for plan s :
  s ∈ steps (into_authorized risk_for plan) -> step_risk_level s = risk_for (step_action_name s).
Proof. unfold steps, into_authorized. cbn. intros (s' & -> & _)%list_elem_of_fmap. done. Qed.

(** C17: a receipt is only ever asked for a step of a plan the planner returned,
    whose parameters the daemon can run and whose actions the target supports,
    right after the daemon's preview of that step was printed; the preview rates
    it no higher than the catalogue's risk, an unattended run is on record in it,
    and the consent the policy calls for was given: the policy approves the step's
    risk by itself, or the question that came right after the print was answered
    yes — the print of this preview, with its proposed change and side effects whole,
    or, for a low-risk step outside step-by-step, the print of the plan, with the
    parameters of its steps and its preference changes whole. (Summaries and warnings
    are printed up to 512 characters; a longer one is cut and not counted.) *)
Theorem receipts_need_consent `{Terminal} `{JsonOutput} intent distro opts tr r pre id x suf :
  runs (run_intent intent distro opts) tr r -> tr = pre ++ mkEvent _ (ApproveTx id) x :: suf ->
  exists plan s preview,
    planned intent distro opts pre plan
    /\ approval_due (into_authorized authoritative_plan_risk plan) opts pre id s preview.
Proof.
  intros Hr E. destruct (history_runs _ _ _ _ _ (run_intent_holds intent distro opts) Hr) as [_ Ha].
  destruct (Ha pre _ _ x suf E) as (plan & Hp & s & preview & Hd). by exists plan, s, preview.
Qed.

(** Without the override, the policy approves nothing of high risk. *)
Lemma high_not_automatic opts :
  opt_skip_approval opts = false -> opt_dry_run opts = false ->
  decide_step (approval_policy opts) PlanHigh <> AutoApproved.
Proof.
  intros Hs Hd. unfold decide_step, effective_auto_ceiling. cbn. rewrite Hs, Hd.
  destruct (opt_yes opts), (opt_max_risk opts) as [[]|], (opt_non_interactive opts); by cbn.
Qed.

Lemma high_step plan s preview :
  s ∈ steps (into_authorized authoritative_plan_risk plan) ->
  risk_le (plan_risk_of (prv_risk_level preview)) (step_risk_level s) = true ->
  gate_risk (step_action_name s) = High \/ prv_risk_level preview = High -> step_risk_level s = PlanHigh.
Proof.
  intros Hin Hle [Hg|Hp].
  - rewrite (authorized_steps _ _ _ Hin). unfold authoritative_plan_risk. by rewrite Hg.
  - rewrite Hp in Hle. by destruct (step_risk_level s).
Qed.

(** C2: nothing of high risk is approved unasked: unless both keys of an unattended
    run were turned, a receipt for a step the catalogue or the daemon rates high
    risk is asked for right after the daemon's preview of it was printed, with its
    proposed change and side effects whole (its summary and each warning up to 512
    characters), and the line read in answer to that step's own question was a yes,
    in a run without [--non-interactive] — whatever the model, [--yes] or
    [--max-risk] said. Who typed the line is not checked: it is what the standard
    input holds. *)
Theorem high_risk_needs_a_yes `{Terminal} `{JsonOutput} intent distro opts tr r pre id x suf :
  runs (run_intent intent distro opts) tr r -> tr = pre ++ mkEvent _ (ApproveTx id) x :: suf ->
  opt_skip_approval opts = false ->
  exists before s preview answers,
    pre = before ++ previewed opts s id preview ++ answers
    /\ (gate_risk (step_action_name s) = High \/ prv_risk_level preview = High ->
        opt_non_interactive opts = false /\ step_shown opts s preview
        /\ exists buf, affirmative buf = true /\ answers = asked (step_question opts s) buf).
Proof.
  intros Hr E Hs. destruct (history_runs _ _ _ _ _ (run_intent_holds intent distro opts) Hr) as [_ Ha].
  destruct (Ha pre _ _ x suf E) as (plan & _ & s & preview & before & answers & -> & Hin & Hd & Hle & _ & Hc).
  exists before, s, preview, answers. split; [done|]. intros Hh.
  pose proof (high_step plan s preview Hin Hle Hh) as Hrisk.
  destruct Hc as [[_ Hc]|[(_ & Hc & _)|Hc]]; [|congruence|done].
  rewrite Hrisk in Hc. by apply high_not_automatic in Hc.
Qed.

(** A preference the model asked for is written only in an attended run that
    is not a dry run, only when the planner put it in the plan, and only after the
    operator was shown the whole plan and answered yes; [--yes] never writes one. *)
Theorem preferences_need_a_yes `{Terminal} `{JsonOutput} intent distro opts tr r pre c x suf :
  runs (run_intent intent distro opts) tr r -> tr = pre ++ mkEvent _ (ApplyPref c) x :: suf ->
  opt_yes opts = false /\ opt_non_interactive opts = false /\ opt_dry_run opts = false
  /\ exists plan question buf a b,
      planned intent distro opts pre plan /\ c ∈ plan_pref_changes plan
      /\ plan_shown opts (into_authorized authoritative_plan_risk plan)
      /\ pre = a ++ asked question buf ++ b /\ affirmative buf = true.
Proof.
  intros Hr E. destruct (history_runs _ _ _ _ _ (run_intent_holds intent distro opts) Hr) as [_ Ha].
  destruct (Ha pre _ _ x suf E) as (plan & Hp & Hy & Hi & Hd & Hc & Hv & a & q & buf & b & Hpre & Hb).
  split_and!; [done..|]. by exists plan, q, buf, a, b.
Qed.

(** ** Steps run in order, and the first failure stops the run *)

Definition succeeded (reply : result CliError ResultEnvelope) : bool :=
  match reply with Ok r => bool_decide (res_status r = Succeeded) | Err _ => false end.

(** The executions of a run: the action, its parameters, and whether it succeeded. *)
Definition execution (ev : cevent) : option (string * json * bool) :=
  match ev_effect ev in ClientEffect X return X -> option (string * json * bool) with
  | ExecuteTx _ name params _ => fun answer => Some (name, params, succeeded answer.2)
  | _ => fun _ => None
  end (ev_answer ev).
Definition executions (tr : list cevent) : list (string * json * bool) := omap execution tr.

Definition executed (ok : bool) (s : PlanStep) : string * json * bool :=
  (step_action_name s, step_params s, ok).

Section Order.
Context `{Terminal} `{JsonOutput}.

Definition no_execution X (e : ClientEffect X) : Prop :=
  match e with ExecuteTx _ _ _ _ => False | _ => True end.

Ltac quiet := repeat first [ostep | exact I].

Lemma quiet_trace tr : Forall (fun ev => no_execution _ (ev_effect ev)) tr -> executions tr = [].
Proof.
  unfold executions. induction 1 as [|[X e x] tr He Hf IH]; [done|]. cbn [omap list_omap].
  assert (execution (mkEvent X e x) = None) as -> by by destruct e. exact IH.
Qed.
Lemma quiet_executions {A} (p : cprog A) tr a : only no_execution p -> runs p tr a -> executions tr = [].
Proof. intros Hp Hr. exact (quiet_trace tr (only_runs _ _ _ _ Hp Hr)). Qed.

(** A program that starts with nothing to execute. *)
Lemma quiet_bind {A B} (p : cprog A) (f : A -> cprog B) tr b :
  only no_execution p -> runs (p ≫= f) tr b ->
  exists a tr', runs (f a) tr' b /\ executions tr = executions tr'.
Proof.
  intros Hp (t & tr' & a & -> & Hr & Hf)%runs_bind. exists a, tr'. split; [done|].
  unfold executions. rewrite omap_app. fold (executions t). by rewrite (quiet_executions p t a Hp Hr).
Qed.

Lemma only_println l : only no_execution (println_all l).
Proof. unfold println_all. quiet. Qed.
Lemma only_prompt q : only no_execution (prompt_confirm q).
Proof. unfold prompt_confirm. quiet. Qed.
Lemma only_show_plan plan opts : only no_execution (show_plan plan opts).
Proof. unfold show_plan. destruct (opt_json opts); [quiet|]. ostep; [apply only_println|quiet]. Qed.
Lemma only_show_step opts s preview : only no_execution (show_step opts s preview).
Proof. unfold show_step. quiet. Qed.
Lemma only_step_gate opts s view : only no_execution (step_gate opts s view).
Proof.
  unfold step_gate, try_then. destruct (post_preview_confirmation_required _ _); [|quiet].
  destruct (gate_action _ _); [quiet| |quiet]. ostep; [quiet|]. destruct a; [|quiet].
  ostep; [apply only_prompt|quiet].
Qed.
Lemma only_plan_gate plan opts view highest : only no_execution (plan_gate plan opts view highest).
Proof.
  unfold plan_gate, try_then. destruct (gate_action _ _); [quiet| |quiet].
  destruct (opt_step_by_step opts); [quiet|]. ostep; [quiet|]. destruct a; [|quiet].
  ostep; [apply only_prompt|quiet].
Qed.
Lemma only_pref_gate plan opts view : only no_execution (pref_gate plan opts view).
Proof.
  unfold pref_gate, try_then. destruct (plan_pref_changes _) as [|c l]; [quiet|].
  destruct (_ || _); [quiet|]. ostep; [quiet|]. destruct a; [|quiet].
  ostep; [apply only_prompt|]. ostep; [|quiet]. ostep; [|quiet]. ostep. unfold save_pref. quiet.
Qed.

(** One step is executed at most once, and an [Ok] means it succeeded. *)
Lemma execute_step_once opts id s receipt tr r :
  runs (execute_step_checked opts id s receipt) tr r -> executions tr = [executed (is_ok r) s].
Proof.
  unfold execute_step_checked. intros (t & tr' & [lines reply] & -> & Ht & Hr)%runs_bind.
  apply runs_inv in Ht as (x & t' & -> & Ht). apply runs_ret_iff in Ht as [-> <-].
  unfold executions. rewrite omap_app. cbn [omap list_omap execution ev_effect ev_answer snd app].
  fold (executions tr'). unfold executed. apply quiet_bind in Hr as (? & t2 & Hr & ->); [|quiet].
  destruct reply as [res|e].
  - apply quiet_bind in Hr as (? & t3 & Hr & ->); [|destruct (opt_json opts); [quiet|apply only_println]].
    apply runs_ret_iff in Hr as [-> ->]. cbn. by destruct (res_status res).
  - by apply runs_ret_iff in Hr as [-> ->].
Qed.

Lemma run_step_once opts n s tr r :
  runs (run_step opts n s) tr r ->
  executions tr = [executed (is_ok r) s] \/ (executions tr = [] /\ is_ok r = false).
Proof.
  unfold run_step. intros (x & t & Hr & ->)%quiet_bind; [|quiet]. destruct x as [[id preview]|e];
    [|by apply runs_ret_iff in Hr as [-> ->]; right].
  destruct (_ && _); [by apply runs_ret_iff in Hr as [-> ->]; right|].
  destruct (negb _); [by apply runs_ret_iff in Hr as [-> ->]; right|].
  apply quiet_bind in Hr as (view & t2 & Hr & ->); [|apply only_show_step].
  unfold try_then in Hr. apply quiet_bind in Hr as (g & t3 & Hr & ->); [|apply only_step_gate].
  destruct g as [[]|e]; [|by apply runs_ret_iff in Hr as [-> ->]; right].
  apply quiet_bind in Hr as (receipt & t4 & Hr & ->); [|quiet].
  destruct receipt as [receipt|e]; [|by apply runs_ret_iff in Hr as [-> ->]; right].
  left. by apply execute_step_once in Hr.
Qed.

Definition stops_at (l : list PlanStep) (ok : bool) (done : list (string * json * bool)) : Prop :=
  if ok then done = map (executed true) l
  else exists ran failed, ran ++ failed `prefix_of` l /\ length failed <= 1
       /\ done = map (executed true) ran ++ map (executed false) failed.

Lemma run_steps_order opts n l tr r : runs (run_steps opts n l) tr r -> stops_at l (is_ok r) (executions tr).
Proof.
  revert n tr. induction l as [|s l IH]; intros n tr; cbn [run_steps].
  { by intros [-> ->]%runs_ret_iff. }
  unfold try_then. intros (t & tr' & a & -> & Ht & Hr)%runs_bind. unfold executions. rewrite omap_app.
  fold (executions t) (executions tr'). destruct (run_step_once _ _ _ _ _ Ht) as [->|[-> Hno]]; destruct a as [[]|e];
    try done; cbn [is_ok].
  - specialize (IH _ _ Hr). unfold stops_at in *. destruct (is_ok r); [by rewrite IH|].
    destruct IH as (ran & failed & Hp & Hl & ->). exists (s :: ran), failed. split_and!; [by apply prefix_cons|done..].
  - apply runs_ret_iff in Hr as [-> ->]. exists [], [s]. split_and!; [by apply prefix_cons, prefix_nil|done..].
  - apply runs_ret_iff in Hr as [-> ->]. exists [], []. split_and!; [apply prefix_nil|cbn; lia|done].
Qed.

Lemma stops_early l : stops_at l false [].
Proof. exists [], []. split_and!; [apply prefix_nil|cbn; lia|done]. Qed.

(** A quiet part that may end the run. *)
Lemma quiet_try {A} l (p : cprog (result CliError A)) f tr r :
  only no_execution p -> runs (try_then p f) tr r ->
  (forall a t, runs (f a) t r -> stops_at l (is_ok r) (executions t)) -> stops_at l (@is_ok CliError () r) (executions tr).
Proof.
  unfold try_then. intros Hp Hr Hk. apply quiet_bind in Hr as (a & t & Hr & ->); [|done].
  destruct a as [a|e]; [by apply (Hk a)|]. apply runs_ret_iff in Hr as [-> ->]. apply stops_early.
Qed.

(** The steps of a plan are executed in the plan's order, each at most once and
    with the parameters that were planned, each only after the one before it
    succeeded: a run that ends well executed all of them successfully, any other
    run some first steps successfully and at most one more, which did not succeed;
    a dry run executes nothing. *)
Theorem steps_run_in_order plan opts tr r :
  runs (execute_plan plan opts) tr r ->
  if opt_dry_run opts then executions tr = []
  else if is_ok r
  then executions tr = map (fun s => (step_action_name s, step_params s, true)) (steps plan)
  else exists ran failed, ran ++ failed `prefix_of` steps plan /\ length failed <= 1
    /\ executions tr = map (fun s => (step_action_name s, step_params s, true)) ran
                       ++ map (fun s => (step_action_name s, step_params s, false)) failed.
Proof.
  unfold execute_plan. intros (view & t & Hr & ->)%quiet_bind; [|apply only_show_plan].
  destruct (opt_dry_run opts).
  { apply quiet_bind in Hr as (? & t2 & Hr & ->); [by apply runs_ret_iff in Hr as [-> ->]|].
    unfold dry_run_notes. quiet. }
  destruct (highest_risk plan) as [highest|]; [|by apply runs_inv in Hr as ([] & _)].
  change (stops_at (steps plan) (is_ok r) (executions t)).
  apply (quiet_try _ _ _ _ _ (only_plan_gate _ _ _ _) Hr). clear t Hr. intros _ t Hr.
  apply (quiet_try _ _ _ _ _ (only_pref_gate _ _ _) Hr). clear t Hr. intros _ t Hr.
  unfold try_then in Hr. apply runs_bind in Hr as (t1 & t2 & a & -> & H1 & H2).
  unfold executions. rewrite omap_app. fold (executions t1) (executions t2).
  pose proof (run_steps_order _ _ _ _ _ H1) as Ho. destruct a as [[]|e].
  - apply quiet_bind in H2 as (? & t3 & H2 & ->); [|unfold print_success; quiet].
    apply runs_ret_iff in H2 as [-> ->]. by rewrite app_nil_r.
  - apply runs_ret_iff in H2 as [-> ->]. by rewrite app_nil_r.
Qed.
End Order.

(** ** Approving by hand *)

Section ByHand.
Context `{Terminal} `{JsonOutput}.

(** The answer that counts as a yes: for high risk, the action's exact name. *)
Definition said_yes (d : ApprovalDetailsReply) (buf : string) : Prop :=
  match prv_risk_level (ad_preview d) with
  | High => str_trim buf = ad_action_name d
  | _ => affirmative buf = true
  end.

Definition by_hand (id : string) opts (full terminal : bool) X (pre : list cevent) (e : ClientEffect X) : Prop :=
  match e with
  | ApproveTx id' =>
      exists d view question buf,
        id' = id /\ terminal = true /\ opt_non_interactive opts = false /\ opt_dry_run opts = false
        /\ (forall ceiling, opt_max_risk opts = Some ceiling ->
              includes ceiling (plan_risk_of (prv_risk_level (ad_preview d))) = true)
        /\ approval_view (approve_context d) (to_string_pretty (prv_proposed_change (ad_preview d))) id full = Ok view
        /\ said_yes d buf
        /\ pre = [mkEvent _ (GetDetails id) (Ok d); mkEvent _ (PrintStderr view) tt;
                  mkEvent _ (Eprint question) tt; mkEvent _ ReadLine (Ok buf)]
  | ExecuteTx _ _ _ _ | ApplyPref _ => False
  | _ => True
  end.

Lemma approve_confirm_holds id opts full terminal (post : list cevent -> bool -> Prop) d g :
  (forall g', post g' false) ->
  (forall question buf, said_yes d buf ->
     post (g ++ [mkEvent _ (Eprint question) tt; mkEvent _ ReadLine (Ok buf)]) true) ->
  holds (history (by_hand id opts full terminal)) post g
    (approve_confirm (prv_risk_level (ad_preview d)) (ad_action_name d) (ad_transaction_id d)).
Proof.
  intros Hno Hyes. unfold approve_confirm.
  assert (Hc : forall q, (forall buf, affirmative buf = true -> said_yes d buf) ->
    holds (history (by_hand id opts full terminal)) post g (prompt_confirm q)).
  { intros q Hb. unfold prompt_confirm. hgo. destruct x0 as [[|c buf]|e]; [hgo; apply Hno| |hgo; apply Hno].
    hgo. destruct (affirmative (String c buf)) eqn:Ea; [|apply Hno]. destruct x. rewrite <-app_assoc. by apply Hyes, Hb. }
  unfold said_yes in Hc. destruct (prv_risk_level (ad_preview d)) eqn:Er; [by apply Hc|by apply Hc|].
  unfold prompt_exact. hgo. destruct x0 as [[|c buf]|e]; [hgo; apply Hno| |hgo; apply Hno].
  hgo. destruct (str_trim (String c buf) =? ad_action_name d)%string eqn:Ea; [|apply Hno].
  destruct x. rewrite <-app_assoc. apply Hyes. unfold said_yes. rewrite Er. by apply String.eqb_eq.
Qed.

Lemma approve_holds id opts full terminal :
  holds (history (by_hand id opts full terminal)) (fun _ _ => True) []
    (approve_with_confirmation id opts full terminal).
Proof.
  unfold approve_with_confirmation, try_then.
  destruct (opt_non_interactive opts && negb (opt_dry_run opts)) eqn:Ei; [by hgo|].
  destruct (negb terminal && negb (opt_dry_run opts)) eqn:Et; [by hgo|]. hgo.
  destruct x as [d|e]; [|by hgo]. destruct (opt_dry_run opts) eqn:Ed.
  { apply holds_bind. unfold approve_dry_run. destruct (opt_json opts); by hgo. }
  rewrite andb_true_r in Ei, Et. apply negb_false_iff in Et. cbv zeta.
  destruct (gate_action _ _) as [| |err] eqn:Eg; [| |by hgo].
  all: hgo; destruct (approval_view _ _ _ _) as [view|err] eqn:Ev; [|by hgo].
  all: hgo; apply approve_confirm_holds; [intros g'; by hgo|intros question buf Hyes].
  all: cbn [negb]; apply holds_bind, holds_perform; [|intros [receipt|e]; by hgo].
  all: exists d, view, question, buf; split_and!; try done; try (by destruct x).
  all: intros ceiling Hm; unfold decide_step in Eg; cbn in Eg; rewrite Hm in Eg;
    destruct (includes ceiling _) eqn:Einc; [done|by cbn in Eg].
Qed.

Lemma approval_view_whole context pretty id full view :
  approval_view context pretty id full = Ok view ->
  exists front back, view = front ++ ob_text (operator_safe_block_full pretty) ++ back.
Proof.
  unfold approval_view. destruct full.
  - intros [= <-]. exists (chars "Proposed change (complete):" ++ [10%N]), ([10; 10]%N ++ context).
    by rewrite <-(app_assoc _ [10%N]).
  - destruct (is_complete _) eqn:Ec; [|done]. rewrite (complete_block_text _ Ec). intros [= <-].
    exists (context ++ [10%N] ++ chars "Proposed change:" ++ [10%N]), [].
    by rewrite app_nil_r, <-!(app_assoc context), <-(app_assoc [10%N]), <-(app_assoc (chars _)).
Qed.

(** [sysknife approve] takes a receipt from a person only: at a terminal, with
    neither [--non-interactive] nor [--dry-run], for the transaction named and under
    the given ceiling, right after printing a view that holds the daemon's whole
    proposed change, every line of it unshortened, and reading the person's answer:
    yes, or for high risk the exact name of the action. *)
Theorem approve_needs_a_person id opts full terminal tr r pre id' x suf :
  runs (approve_with_confirmation id opts full terminal) tr r -> tr = pre ++ mkEvent _ (ApproveTx id') x :: suf ->
  exists d view question buf front back,
    id' = id /\ terminal = true /\ opt_non_interactive opts = false /\ opt_dry_run opts = false
    /\ (forall ceiling, opt_max_risk opts = Some ceiling ->
          includes ceiling (plan_risk_of (prv_risk_level (ad_preview d))) = true)
    /\ view = front ++ ob_text (operator_safe_block_full (to_string_pretty (prv_proposed_change (ad_preview d)))) ++ back
    /\ said_yes d buf
    /\ pre = [mkEvent _ (GetDetails id) (Ok d); mkEvent _ (PrintStderr view) tt;
              mkEvent _ (Eprint question) tt; mkEvent _ ReadLine (Ok buf)].
Proof.
  intros Hr E. destruct (history_runs _ _ _ _ _ (approve_holds id opts full terminal) Hr) as [_ Ha].
  destruct (Ha pre _ _ x suf E) as (d & view & q & buf & -> & -> & Hi & Hd & Hm & Hv & Hy & Hpre).
  destruct (approval_view_whole _ _ _ _ _ Hv) as (front & back & Hw).
  by exists d, view, q, buf, front, back.
Qed.
End ByHand.

(** ** The client's routing test and the daemon's fence *)

(** On a supported host the client refuses before approval exactly the actions
    the daemon would refuse for the platform, so a plan the operator is shown never
    dies at the fence and none is withheld that would have run. *)
Theorem routing_agrees state d name :
  ds_host_distro state = Some d -> is_supported d = true ->
  is_ok (check_action_distro name (Some d)) = is_ok (validate_action_platform state name).
Proof.
  intros Hd Hs. rewrite check_action_distro_ok, Hs, orb_true_r, andb_true_r.
  unfold validate_action_platform. rewrite Hd, Hs. cbn [negb].
  destruct (negb (action_requires_distro name) && _) eqn:Ef.
  - apply andb_true_iff in Ef as [Ef _]. apply negb_true_iff in Ef. by rewrite unfenced_matches.
  - by destruct (action_matches_distro name d).
Qed.

(** ** A run *)

Module RunSample.
#[local] Existing Instance PlainTerminal.terminal.
#[local] Instance output : JsonOutput := {|
  value_json := fun _ => chars "{}"; preview_json := fun _ => chars "{}"; preview_value := fun _ => JNull;
  result_json := fun _ => chars "{}" |}.

(** The model underrates the step. *)
Definition upgrade : PlanStep := mkStep "AptUpgrade" "upgrade packages" PlanLow (JObj []).
Definition plan : Plan :=
  mkPlan "upgrade" "Upgrade the packages" "because" [upgrade] [mkPref Remember "prefers vim"].
Definition preview : PreviewEnvelope := {|
  prv_summary := "AptUpgrade preview (high-risk)"; prv_risk_level := High;
  prv_current_state := JNull; prv_proposed_change := JNull; prv_expected_side_effects := ["packages change"];
  prv_reboot_required := false; prv_rollback_available := false; prv_warnings := [];
  prv_request_hash := "" |}.
Definition outcome : ResultEnvelope := {|
  res_status := Succeeded; res_summary := "done"; res_warnings := []; res_job_id := None;
  res_needs_reboot := false; res_rollback_ref := None; res_transaction_id := "tx" |}.

(** What the world answers, the operator typing [typed] at every prompt. *)
Definition answers (typed : string) (X : Type) (e : ClientEffect X) : option X :=
  match e in ClientEffect X return option X with
  | Println _ | PrintStderr _ | Eprint _ => Some tt
  | ReadLine => Some (Ok (String.append typed (String LF "")))
  | ApplyPref _ => Some (Ok true)
  | PlanIntent _ | PlanIntentWithFeedback _ _ => Some (Ok plan)
  | PreviewDeclaring _ _ _ => Some (Ok ("tx", preview))
  | ApproveTx _ => Some (Ok "receipt")
  | ExecuteTx _ _ _ _ => Some ([], Ok outcome)
  | GetDetails id => Some (Ok (mkDetails id "AptUpgrade" preview))
  | Elapsed => Some (chars "1.0")
  | PanicWith _ => None
  end.

(** The run on these answers. *)
Fixpoint play {A} (typed : string) (p : cprog A) : option (list cevent * A) :=
  match p with
  | Ret a => Some ([], a)
  | Vis e k => match answers typed _ e with
               | Some x => '(tr, a) ← play typed (k x); Some (mkEvent _ e x :: tr, a)
               | None => None
               end
  end.
Lemma play_runs {A} typed (p : cprog A) tr a : play typed p = Some (tr, a) -> runs p tr a.
Proof.
  revert tr. induction p as [b|X e k IH]; intros tr; cbn [play]; [intros [= <- <-]; constructor|].
  destruct (answers typed X e) as [x|]; [|done]. destruct (play typed (k x)) as [[tr' a']|] eqn:E; [|done].
  intros [= <- <-]. constructor. by apply IH.
Qed.

Definition opts : RunOpts := mkOpts false None false false false false false.
Definition host : DistroId := Ubuntu 24 4.
Definition run : cprog (result CliError ()) := run_intent "upgrade" (Some host) opts.
Definition trace : list cevent := match play "y" run with Some (tr, _) => tr | None => [] end.

(** Position of the first effect that satisfies [p]. *)
Fixpoint position (p : cevent -> bool) (tr : list cevent) : nat :=
  match tr with [] => 0 | ev :: tr' => if p ev then 0 else S (position p tr') end.
Definition is_approve (ev : cevent) : bool := match ev_effect ev with ApproveTx _ => true | _ => false end.
Definition is_pref (ev : cevent) : bool := match ev_effect ev with ApplyPref _ => true | _ => false end.

Lemma trace_runs : runs run trace (Ok tt).
Proof. apply (play_runs "y"). vm_compute. reflexivity. Qed.
Lemma approve_at : trace !! position is_approve trace = Some (mkEvent _ (ApproveTx "tx") (Ok "receipt")).
Proof. vm_compute. reflexivity. Qed.
Lemma pref_at : trace !! position is_pref trace = Some (mkEvent _ (ApplyPref (mkPref Remember "prefers vim")) (Ok true)).
Proof. vm_compute. reflexivity. Qed.
End RunSample.

Section Witness.
#[local] Existing Instance PlainTerminal.terminal.
#[local] Existing Instance RunSample.output.
Import RunSample.

Lemma receipts_need_consent_witness :
  let pre := take (position is_approve trace) trace in
  exists p s v,
    planned "upgrade" (Some host) opts pre p
    /\ approval_due (into_authorized authoritative_plan_risk p) opts pre "tx" s v.
Proof.
  exact (receipts_need_consent "upgrade" (Some host) opts trace (Ok tt) _ "tx" (Ok "receipt") _
           trace_runs (event_at _ _ _ approve_at)).
Defined.

Lemma high_risk_needs_a_yes_witness :
  gate_risk "AptUpgrade" = High
  /\ exists before s v answers,
    take (position is_approve trace) trace = before ++ previewed opts s "tx" v ++ answers
    /\ (gate_risk (step_action_name s) = High \/ prv_risk_level v = High ->
        opt_non_interactive opts = false /\ step_shown opts s v
        /\ exists buf, affirmative buf = true /\ answers = asked (step_question opts s) buf).
Proof.
  split; [vm_compute; reflexivity|].
  exact (high_risk_needs_a_yes "upgrade" (Some host) opts trace (Ok tt) _ "tx" (Ok "receipt") _
           trace_runs (event_at _ _ _ approve_at) eq_refl).
Defined.

Lemma preferences_need_a_yes_witness :
  let pre := take (position is_pref trace) trace in
  exists p question buf a b,
    planned "upgrade" (Some host) opts pre p /\ pre = a ++ asked question buf ++ b /\ affirmative buf = true.
Proof.
  destruct (preferences_need_a_yes "upgrade" (Some host) opts trace (Ok tt) _ _ (Ok true) _
           trace_runs (event_at _ _ _ pref_at)) as (_ & _ & _ & p & q & buf & a & b & Hp & _ & _ & Hpre & Hb).
  exists p, q, buf, a, b. split; [exact Hp|]. split; [exact Hpre|exact Hb].
Defined.

Definition plan_run : list cevent * result CliError () :=
  default ([], Err Rejected) (play "y" (execute_plan (into_authorized authoritative_plan_risk plan) opts)).

Lemma plan_run_runs : runs (execute_plan (into_authorized authoritative_plan_risk plan) opts) plan_run.1 (Ok tt).
Proof. apply (play_runs "y"). vm_compute. reflexivity. Qed.

Lemma steps_run_in_order_witness :
  executions plan_run.1 = [("AptUpgrade", JObj [], true)].
Proof.
  exact (steps_run_in_order (into_authorized authoritative_plan_risk plan) opts plan_run.1 (Ok tt) plan_run_runs).
Defined.

Definition approve_run : list cevent * result CliError () :=
  default ([], Err Rejected) (play "AptUpgrade" (approve_with_confirmation "tx" opts false true)).

Lemma approve_run_runs : runs (approve_with_confirmation "tx" opts false true) approve_run.1 (Ok tt).
Proof. apply (play_runs "AptUpgrade"). vm_compute. reflexivity. Qed.
Lemma approve_run_at :
  approve_run.1 = take 4 approve_run.1 ++ mkEvent _ (ApproveTx "tx") (Ok "receipt") :: drop 5 approve_run.1.
Proof. vm_compute. reflexivity. Qed.

Lemma approve_needs_a_person_witness :
  exists d question buf view, said_yes d buf
    /\ take 4 approve_run.1 = [mkEvent _ (GetDetails "tx") (Ok d); mkEvent _ (PrintStderr view) tt;
              mkEvent _ (Eprint question) tt; mkEvent _ ReadLine (Ok buf)].
Proof.
  destruct (approve_needs_a_person "tx" opts false true approve_run.1 (Ok tt) _ "tx" (Ok "receipt") _
              approve_run_runs approve_run_at)
    as (d & view & q & buf & front & back & _ & _ & _ & _ & _ & _ & Hy & Hpre).
  exists d, q, buf, view. split; [exact Hy|exact Hpre].
Defined.

Lemma routing_agrees_witness :
  let state := mkDaemonState [] Policy.empty_policy (Some host) false in
  is_supported host = true
  /\ is_ok (check_action_distro "AddLayeredPackage" (Some host))
     = is_ok (validate_action_platform state "AddLayeredPackage").
Proof.
  split; [vm_compute; reflexivity|].
  apply (routing_agrees (mkDaemonState [] Policy.empty_policy (Some host) false) host); vm_compute; reflexivity.
Defined.
End Witness.
