(* ===== verification/TextFile.v ===== *)
(** * Files of lines

    What [str::lines] reads back from text that was written line by line, shared by
    the components that keep a plain text file. *)

From Stdlib Require Import Ascii String.
From stdpp Require Import base list strings.
From S2P Require Import Prelude.

(** Every line followed by a line feed. *)
Fixpoint unlines (l : list string) : string :=
  match l with
  | [] => ""
  | s :: l' => (s ++ String LF (unlines l'))%string
  end.

Definition strip_cr (p : string) : string := default p (strip_suffix (String CR "") p).

(** A string that is one line when it is followed by a line feed. *)
Definition is_line (s : string) : bool := negb (str_has LF s) && negb (ends_with (String CR "") s).

Lemma str_has_app c s t : str_has c (s ++ t) = str_has c s || str_has c t.
Proof.
  unfold str_has. induction s as [|a s IH]; [done|]. cbn [String.append str_exists]. by rewrite IH, orb_assoc.
Qed.

Lemma lines_of_pieces_app a b :
  b <> [] -> lines_of_pieces (a ++ b) = map strip_cr a ++ lines_of_pieces b.
Proof.
  intros Hb. induction a as [|p a IH]; [done|]. cbn [app map]. rewrite <-IH.
  cbn [lines_of_pieces]. destruct (a ++ b) eqn:E; [|done].
  destruct a; [by subst|done].
Qed.

Lemma lines_cut s t : lines (s ++ String LF t)%string = map strip_cr (split_on LF s) ++ lines t.
Proof. unfold lines. rewrite split_on_app. apply lines_of_pieces_app, split_on_not_nil. Qed.

Lemma strip_cr_line s : ends_with (String CR "") s = false -> strip_cr s = s.
Proof.
  intros H. unfold strip_cr. destruct (strip_suffix _ s) as [t|] eqn:E; [|done].
  apply strip_suffix_spec in E. assert (Ht : ends_with (String CR "") s = true) by (apply ends_with_spec; eauto).
  congruence.
Qed.

Lemma lines_cons s t : is_line s = true -> lines (s ++ String LF t)%string = s :: lines t.
Proof.
  intros [H1%negb_true_iff H2%negb_true_iff]%andb_true_iff.
  rewrite lines_cut, split_on_none by done. cbn [map]. by rewrite strip_cr_line.
Qed.

(** What was written line by line is read back. *)
Lemma lines_unlines l : Forall (fun s => is_line s = true) l -> lines (unlines l) = l.
Proof. induction 1 as [|s l Hs Hl IH]; [done|]. cbn [unlines]. by rewrite lines_cons, IH. Qed.

(** Text that is empty or whose last line is ended. *)
Definition line_ended (s : string) : bool := is_empty s || ends_with (String LF "") s.

Lemma lines_app s t : line_ended s = true -> lines (s ++ t)%string = lines s ++ lines t.
Proof.
  intros [H|H]%orb_true_iff; [by destruct s|].
  apply ends_with_spec in H as [u ->]. rewrite str_app_assoc. cbn [String.append]. by rewrite !lines_cut, app_nil_r.
Qed.

Lemma line_ended_unlines l : line_ended (unlines l) = true.
Proof.
  unfold line_ended. apply orb_true_iff. induction l as [|s l IH]; [by left|right].
  apply ends_with_spec. cbn [unlines]. destruct IH as [H|[u Hu]%ends_with_spec].
  - exists s. destruct l; [done|]. cbn [unlines] in *. by destruct s0.
  - exists (s ++ String LF u)%string. rewrite Hu, str_app_assoc. done.
Qed.

Lemma unlines_app a b : unlines (a ++ b) = (unlines a ++ unlines b)%string.
Proof. induction a as [|s a IH]; [done|]. cbn [app unlines]. rewrite IH, str_app_assoc. done. Qed.
