(* ===== verification/RateLimit.v ===== *)
(** * The planning rate limit

    crates/sysknife-brain/src/rate_limit.rs: a sliding window over the call times
    kept in a text file. A call reads the file, counts, and writes it back; the
    file system answers whether the read and the write worked. Times and stamps are
    64-bit; an addition past 64 bits wraps, as a release build does. *)

From Stdlib Require Import Ascii String NArith Lia.
From stdpp Require Import base list sorting strings.
From S2P Require Import Prelude TextFile.

#[local] Open Scope N_scope.

Definition RATE_LIMIT_WINDOW_SECS : N := 60.

(** [RateLimiter::new]: the effective limit; [None] is the panic of the assertion. *)
Definition rate_limiter_new (max_rpm_var : option string) (max_per_minute : N) : option N :=
  if max_per_minute =? 0 then None
  else
    let from_env := v ← max_rpm_var; n ← parse_u64 (str_trim v); if 1 <=? n then Some n else None in
    Some (default max_per_minute from_env).

(** [raw.lines().filter_map(...)] *)
Definition timestamps (raw : string) : list N := omap (fun l => parse_u64 (str_trim l)) (lines raw).

Definition in_window (window_start : N) (l : list N) : list N := filter (fun t => window_start <= t) l.

(** [iter().min()] *)
Definition oldest_of (l : list N) : option N :=
  match l with [] => None | t :: l' => Some (fold_left N.min l' t) end.

Definition u64_add (a b : N) : N := N.land (a + b) U64_MAX.

(** [check_and_consume] at time [now]: the answer and the file left behind. *)
Definition check_and_consume (max_per_minute now : N) (readable persisted : bool) (file : string)
    : result N () * string :=
  let window_start := now - RATE_LIMIT_WINDOW_SECS in
  let raw := if readable then file else "" in
  let in_window := in_window window_start (timestamps raw) in
  if max_per_minute <=? N.of_nat (length in_window) then
    let oldest := default window_start (oldest_of in_window) in
    (Err (N.max 1 (u64_add oldest RATE_LIMIT_WINDOW_SECS - now)), file)
  else
    let new_content := unlines (map dec_of_N in_window ++ [dec_of_N now]) in
    (Ok tt, if persisted then new_content else file).

(** Calls one after the other: the times of those that were allowed. *)
Fixpoint allowed_calls (max_per_minute : N) (file : string) (times : list N) : list N * string :=
  match times with
  | [] => ([], file)
  | now :: times' =>
      let '(r, file') := check_and_consume max_per_minute now true true file in
      let '(allowed, final) := allowed_calls max_per_minute file' times' in
      (if is_ok r then now :: allowed else allowed, final)
  end.

(** ** The file is read back as it was written *)

(** A byte of no white space. *)
Definition solid (c : ascii) : bool := forallb (fun w => negb (str_has c w)) whitespace_encodings.

Lemma solid_prefix w s : w ∈ whitespace_encodings -> str_all solid s = true ->
  strip_prefix w s = None /\ strip_suffix w s = None.
Proof.
  intros Hw Hs. assert (Hne : forall u v, s = (u ++ w ++ v)%string -> False).
  { intros u v ->. rewrite !str_all_app in Hs. apply andb_true_iff in Hs as [_ [Hs _]%andb_true_iff].
    assert (He : w <> "").
    { intros ->. apply str_in_spec in Hw. vm_compute in Hw. discriminate. }
    destruct w as [|c w]; [done|]. cbn [String.append str_all] in Hs. apply andb_true_iff in Hs as [Hs _]. unfold solid in Hs.
    rewrite forallb_forall in Hs. specialize (Hs _ (proj1 (list_elem_of_In _ _) Hw)). cbn in Hs.
    by rewrite Ascii.eqb_refl in Hs. }
  split.
  - destruct (strip_prefix w s) as [r|] eqn:E; [|done]. apply strip_prefix_spec in E. by destruct (Hne "" r).
  - destruct (strip_suffix w s) as [r|] eqn:E; [|done]. apply strip_suffix_spec in E.
    destruct (Hne r ""). by rewrite str_app_nil.
Qed.

Lemma find_map_none {A B} (f : A -> option B) l : (forall a, a ∈ l -> f a = None) -> find_map f l = None.
Proof.
  induction l as [|a l IH]; [done|]. intros H. cbn. rewrite (H a) by by left. apply IH. intros b Hb. apply H. by right.
Qed.

Lemma trim_solid s : str_all solid s = true -> str_trim s = s.
Proof.
  intros Hs. unfold str_trim.
  assert (H1 : trim_start_go (String.length s) s = s).
  { destruct s as [|c s']; [done|]. cbn [trim_start_go String.length].
    rewrite find_map_none; [done|]. intros w Hw. by apply solid_prefix. }
  rewrite H1. destruct s as [|c s']; [done|]. cbn [trim_end_go String.length].
  rewrite find_map_none; [done|]. intros w Hw. by apply solid_prefix.
Qed.

Lemma digit_solid c : is_digit c = true -> solid c = true.
Proof. destruct c as [[] [] [] [] [] [] [] []]; vm_compute; done. Qed.

Lemma dec_is_line n : is_line (dec_of_N n) = true.
Proof.
  pose proof (dec_of_N_digits n) as H. unfold is_line. apply andb_true_iff. split; apply negb_true_iff.
  - by apply (str_all_not_has is_digit).
  - apply not_true_is_false. intros [t E]%ends_with_spec. rewrite E, str_all_app in H.
    by apply andb_true_iff in H as [_ H].
Qed.

Lemma timestamps_written l :
  Forall (fun t => t <= U64_MAX) l -> timestamps (unlines (map dec_of_N l)) = l.
Proof.
  intros H. unfold timestamps. rewrite lines_unlines.
  - induction H as [|t l Ht Hl IH]; [done|]. cbn.
    rewrite trim_solid by (eapply str_all_mono; [apply digit_solid|apply dec_of_N_digits]).
    unfold parse_u64. rewrite parse_dec_of_N by done. cbn. by f_equal.
  - apply Forall_map, Forall_true. intros t. apply dec_is_line.
Qed.

(** ** No window holds more calls than the limit *)

(** Calls at or after [b], and calls in the closed window of 60 seconds from [b]. *)
Definition since (b : N) (l : list N) : nat := length (filter (fun t => b <= t) l).
Definition within (b : N) (l : list N) : nat :=
  length (filter (fun t => b <= t /\ t <= b + RATE_LIMIT_WINDOW_SECS) l).

Lemma since_app b l1 l2 : since b (l1 ++ l2) = (since b l1 + since b l2)%nat.
Proof. unfold since. by rewrite filter_app, length_app. Qed.

Lemma since_anti b b' l : b <= b' -> (since b' l <= since b l)%nat.
Proof.
  intros Hb. unfold since. induction l as [|t l IH]; [done|].
  rewrite !filter_cons. repeat case_decide; cbn; lia.
Qed.

Lemma within_since b l : (within b l <= since b l)%nat.
Proof.
  unfold since, within. induction l as [|t l IH]; [done|].
  rewrite !filter_cons. repeat case_decide; cbn; lia.
Qed.

Lemma within_snoc b l t : within b (l ++ [t]) = (within b l + within b [t])%nat.
Proof. unfold within. by rewrite filter_app, length_app. Qed.

Lemma since_in_window b w l : w <= b -> since b (in_window w l) = since b l.
Proof.
  intros Hw. unfold since, in_window. induction l as [|t l IH]; [done|].
  rewrite (filter_cons _ t l). case_decide; rewrite !filter_cons; case_decide; cbn; rewrite ?IH; try done; lia.
Qed.

Lemma in_window_since w l : length (in_window w l) = since w l.
Proof. done. Qed.

(** What the file says of the calls of the past: at least as many. *)
Definition covers (file : string) (past : list N) (now : N) : Prop :=
  forall b, now - RATE_LIMIT_WINDOW_SECS <= b -> (since b past <= since b (timestamps file))%nat.

Lemma timestamps_bound file : Forall (fun t => t <= U64_MAX) (timestamps file).
Proof.
  unfold timestamps. induction (lines file) as [|l ls IH]; cbn; [done|].
  destruct (parse_u64 _) eqn:E; [|done]. constructor; [by eapply parse_uint_bound|done].
Qed.

Lemma call_spec max now file past :
  now <= U64_MAX -> covers file past now ->
  let '(r, file') := check_and_consume max now true true file in
  (is_ok r = true -> (since (now - RATE_LIMIT_WINDOW_SECS) past < N.to_nat max)%nat)
  /\ covers file' (if is_ok r then past ++ [now] else past) now.
Proof.
  intros Hn Hc. unfold check_and_consume. cbv zeta. rewrite in_window_since.
  destruct (_ <=? _) eqn:E; cbn [is_ok]; [by split|]. apply N.leb_gt in E. split.
  - intros _. specialize (Hc _ (N.le_refl _)). lia.
  - intros b Hb. rewrite since_app.
    change [dec_of_N now] with (map dec_of_N [now]). rewrite <-map_app, timestamps_written.
    + rewrite since_app, since_in_window by done. specialize (Hc b Hb). lia.
    + apply Forall_app. split; [|by constructor]. apply Forall_forall. intros t [_ Ht]%list_elem_of_filter.
      pose proof (timestamps_bound file) as Hb'. rewrite Forall_forall in Hb'. by apply Hb'.
Qed.

Lemma covers_later file past now now' : now <= now' -> covers file past now -> covers file past now'.
Proof. intros Hle Hc b Hb. apply Hc. lia. Qed.

(** Times that do not go back. *)
Definition in_order (times : list N) : Prop := StronglySorted N.le times.

Lemma allowed_bounded max file times past before :
  in_order times -> Forall (fun t => before <= t /\ t <= U64_MAX) times -> covers file past before ->
  (forall b, (within b past <= N.to_nat max)%nat) ->
  forall b, (within b (past ++ (allowed_calls max file times).1) <= N.to_nat max)%nat.
Proof.
  revert file past before. induction times as [|now times IH]; intros file past before Hs Ht Hc Hp b;
    cbn [allowed_calls]; [by rewrite app_nil_r|].
  apply StronglySorted_inv in Hs as [Hs Hle]. apply Forall_cons in Ht as [[Hb Hm] Ht].
  pose proof (call_spec max now file past Hm (covers_later _ _ _ _ Hb Hc)) as Hcall.
  destruct (check_and_consume max now true true file) as [r file']. destruct Hcall as [Hok Hc'].
  assert (Hnext : forall past', covers file' past' now -> (forall b, (within b past' <= N.to_nat max)%nat) ->
            (within b (past' ++ (allowed_calls max file' times).1) <= N.to_nat max)%nat).
  { intros past' H1 H2. apply (IH file' past' now Hs); try done.
    apply Forall_forall. intros t Hin. rewrite Forall_forall in Hle, Ht. specialize (Ht t Hin). split; [|by apply Ht].
    by apply Hle. }
  destruct (allowed_calls max file' times) as [allowed final]. cbn [fst] in *.
  destruct (is_ok r); [|by apply Hnext].
  change (past ++ now :: allowed) with (past ++ [now] ++ allowed). rewrite app_assoc. apply Hnext; [done|].
  intros b'. rewrite within_snoc. unfold within at 2. rewrite filter_cons. case_decide as Hd; [|cbn; rewrite Nat.add_0_r; apply Hp].
  cbn. pose proof (within_since b' past). pose proof (since_anti (now - RATE_LIMIT_WINDOW_SECS) b' past ltac:(lia)).
  specialize (Hok eq_refl). lia.
Qed.

(** C36: the limit holds over every window: whatever the file held, when the clock
    does not go back and the file can be read and written, no 60 seconds, both ends
    included, hold more allowed calls than the limit. *)
Theorem rate_is_bounded max_per_minute file times b :
  in_order times -> Forall (fun t => t <= U64_MAX) times ->
  (within b (allowed_calls max_per_minute file times).1 <= N.to_nat max_per_minute)%nat.
Proof.
  intros Hs Ht. apply (allowed_bounded max_per_minute file times [] 0 Hs); cbn; try lia.
  - eapply Forall_impl; [exact Ht|]. intros t Hm. split; [lia|exact Hm].
  - intros b' _. cbn. lia.
Qed.

Lemma rate_is_bounded_witness :
  Forall (fun b => (within b (allowed_calls 2 "17" [100; 130; 140; 160; 161; 200])%N.1 <= 2)%nat) [90; 100; 101; 140]
  /\ (allowed_calls 2 "17" [100; 130; 140; 160; 161; 200]).1 = [100; 130; 161; 200].
Proof.
  split; [|vm_compute; reflexivity]. apply Forall_forall. intros b _. apply (rate_is_bounded 2).
  - repeat constructor; discriminate.
  - repeat constructor; discriminate.
Defined.

(** The window is closed at both ends, so the call that a refusal says will have
    aged out is still in it after the announced wait. *)
Lemma retry_after_is_too_short :
  let full := (check_and_consume 1 100 true true "").2 in
  (check_and_consume 1 100 true true full).1 = Err 60
  /\ (check_and_consume 1 160 true true full).1 = Err 1
  /\ (check_and_consume 1 161 true true full).1 = Ok tt.
Proof. vm_compute. auto. Qed.

(** A file that cannot be read counts as empty: the limit is off. *)
Lemma unreadable_file_fails_open max now persisted file :
  1 <= max -> (check_and_consume max now false persisted file).1 = Ok tt.
Proof.
  intros Hm. unfold check_and_consume. cbn. destruct max as [|p]; [lia|]. done.
Qed.
