(* ===== verification/PlanTools.v ===== *)
(** * The planner's tools

    crates/sysknife-brain/src/planning_tools: which actions a host is offered
    ([available_on]), the query tools and the daemon actions behind them, the
    refusal, and the parser of a proposed plan. Descriptions and schemas are prose
    for the model and are left out. serde_json's text parser is the argument
    [json_from_str], the [Debug] rendering of a string (which reads Unicode tables)
    the argument [debug_str]; the outer [None] of a parser is a panic of the
    normaliser. *)

From Stdlib Require Import Ascii String NArith Lia.
From stdpp Require Import base list strings.
From S2P Require Import Prelude Json Types ActionFamily Approval Sanitize Prefs.

(** ** What a host is offered *)

Record DistroHint : Type := mkHint { hint_id : string; hint_family : string; hint_version : option string }.

Definition DISTRO_FAMILY_FEDORA : string := "fedora".
Definition DISTRO_FAMILY_DEBIAN : string := "debian".
Definition DISTRO_FAMILY_OTHER : string := "other".

Definition CREDENTIAL_ACTIONS_WITHOUT_ENTRY : list string := ["ProAttach"].
Definition CREDENTIAL_PARAMS_WITHOUT_ENTRY : list (string * string) := [("ConfigureWifi", "password")].

Definition requires_unavailable_credential_entry (action : string) : bool :=
  str_in action CREDENTIAL_ACTIONS_WITHOUT_ENTRY.

Definition forbidden_credential_param (action : string) (params : json) : option string :=
  find_map (fun '(a, p) => if (a =? action)%string && bool_decide (is_Some (jget p params)) then Some p else None)
    CREDENTIAL_PARAMS_WITHOUT_ENTRY.

Definition available_on (action : string) (hint : option DistroHint) : bool :=
  if requires_unavailable_credential_entry action then false
  else match hint with
  | None => true
  | Some hint =>
      if (hint_id hint =? "ubuntu-core")%string then negb (action_requires_supported_host action)
      else if negb (hint_id hint =? "ubuntu")%string && str_in action UBUNTU_ONLY_ACTIONS then false
      else if (hint_family hint =? DISTRO_FAMILY_DEBIAN)%string && negb (hint_id hint =? "ubuntu")%string
              && str_in action NON_CANONICAL_ON_DEBIAN_HOST then false
      else if (hint_family hint =? DISTRO_FAMILY_DEBIAN)%string then
        negb (str_in action FEDORA_ONLY_ACTIONS) && negb (str_in action NON_CANONICAL_ON_DEBIAN)
      else if (hint_family hint =? DISTRO_FAMILY_FEDORA)%string then
        negb (str_in action DEBIAN_ONLY_ACTIONS) && negb (str_in action UBUNTU_ONLY_ACTIONS)
        && negb (str_in action NON_CANONICAL_ON_FEDORA)
      else if (hint_family hint =? DISTRO_FAMILY_OTHER)%string then negb (action_requires_supported_host action)
      else true
  end.

(** ** Query tools *)

(** The names of [query_tools], in order. *)
Definition query_tools : list string := [
  "query_ufw_rules"; "query_services"; "query_firewall"; "query_deployments"; "query_packages";
  "query_containers"; "query_users"; "query_logs"; "query_kernel_args"; "query_flatpak_remotes";
  "query_toolboxes"; "query_groups"; "query_flatpak_info"; "query_container_info"; "query_package_repos";
  "query_diagnostics"; "query_deployment_history"; "query_disk_usage"; "query_processes"; "query_memory";
  "query_network"; "query_authorized_keys"; "query_current_user"; "query_job_history"].

Definition query_tool_action_name (tool_name : string) : option string :=
  assoc tool_name [
    ("query_ufw_rules", "UfwStatus"); ("query_services", "ListServices");
    ("query_firewall", "GetFirewallBackendState"); ("query_deployments", "ListDeployments");
    ("query_packages", "GetLayeredPackages"); ("query_containers", "ListContainers");
    ("query_users", "ListUsers"); ("query_logs", "GetServiceLogs");
    ("query_kernel_args", "GetKernelArguments"); ("query_flatpak_remotes", "ListFlatpakRemotes");
    ("query_toolboxes", "ListToolboxes"); ("query_groups", "ListGroups");
    ("query_flatpak_info", "GetFlatpakAppInfo"); ("query_container_info", "GetContainerInfo");
    ("query_package_repos", "ListPackageRepositories"); ("query_diagnostics", "CollectDiagnostics");
    ("query_deployment_history", "GetDeploymentHistory"); ("query_disk_usage", "GetDiskUsage");
    ("query_processes", "ListProcesses"); ("query_memory", "GetMemoryInfo");
    ("query_network", "GetNetworkStatus"); ("query_authorized_keys", "GetAuthorizedKeys");
    ("query_job_history", "ListJobHistory")].

Definition query_tools_for_distro (hint : option DistroHint) : list string :=
  base.filter (fun tool =>
    (if (tool =? "query_current_user")%string then true
     else match query_tool_action_name tool with
          | Some action => available_on action hint
          | None => false
          end) = true) query_tools.

Definition require_str_param (input : json) (key tool_name : string) : result string string :=
  match jget key input ≫= as_str with
  | Some s => if is_empty s then Err (tool_name ++ " requires '" ++ key ++ "' param")%string else Ok s
  | None => Err (tool_name ++ " requires '" ++ key ++ "' param")%string
  end.

Definition plain_query (action : string) : result string (option (string * json)) := Ok (Some (action, JObj [])).

Definition param_query (input : json) (key tool_name action : string) : result string (option (string * json)) :=
  v ← require_str_param input key tool_name; Ok (Some (action, JObj [(key, JStr v)])).

(** The fields of [query_job_history] that are forwarded when present. *)
Definition JOB_HISTORY_FIELDS : list string := ["limit"; "status_filter"; "action_filter"; "since_hours"].

Definition query_tool_to_action (tool_name : string) (input : json) : result string (option (string * json)) :=
  if (tool_name =? "query_ufw_rules")%string then Ok (Some ("UfwStatus", JObj [("numbered", JBool true)]))
  else if (tool_name =? "query_services")%string then plain_query "ListServices"
  else if (tool_name =? "query_firewall")%string then plain_query "GetFirewallBackendState"
  else if (tool_name =? "query_deployments")%string then plain_query "ListDeployments"
  else if (tool_name =? "query_packages")%string then plain_query "GetLayeredPackages"
  else if (tool_name =? "query_containers")%string then plain_query "ListContainers"
  else if (tool_name =? "query_users")%string then plain_query "ListUsers"
  else if (tool_name =? "query_logs")%string then param_query input "unit" tool_name "GetServiceLogs"
  else if (tool_name =? "query_kernel_args")%string then plain_query "GetKernelArguments"
  else if (tool_name =? "query_flatpak_remotes")%string then plain_query "ListFlatpakRemotes"
  else if (tool_name =? "query_toolboxes")%string then plain_query "ListToolboxes"
  else if (tool_name =? "query_groups")%string then plain_query "ListGroups"
  else if (tool_name =? "query_flatpak_info")%string then param_query input "app_id" tool_name "GetFlatpakAppInfo"
  else if (tool_name =? "query_container_info")%string then param_query input "name" tool_name "GetContainerInfo"
  else if (tool_name =? "query_package_repos")%string then plain_query "ListPackageRepositories"
  else if (tool_name =? "query_diagnostics")%string then plain_query "CollectDiagnostics"
  else if (tool_name =? "query_deployment_history")%string then plain_query "GetDeploymentHistory"
  else if (tool_name =? "query_disk_usage")%string then plain_query "GetDiskUsage"
  else if (tool_name =? "query_processes")%string then plain_query "ListProcesses"
  else if (tool_name =? "query_memory")%string then plain_query "GetMemoryInfo"
  else if (tool_name =? "query_network")%string then plain_query "GetNetworkStatus"
  else if (tool_name =? "query_authorized_keys")%string then param_query input "username" tool_name "GetAuthorizedKeys"
  else if (tool_name =? "query_job_history")%string then
    Ok (Some ("ListJobHistory",
              JObj (omap (fun key => v ← jget key input; Some (key, v)) JOB_HISTORY_FIELDS)))
  else Ok None.

(** ** Errors of planning *)

Inductive ProviderError : Type :=
| Http (status : N) (body : string)
| ProvAuth (message : string)
| ProvRateLimit (message : string)
| ProvParse (message : string)
| ProvRequest (message : string)
| CassetteMiss (message : string).

Inductive PlanningError : Type :=
| EmptyIntent
| IntentTooLong (len max : nat)
| IntentContainsSensitiveData
| RateLimitExceeded (retry_after_secs : N)
| StateUnavailable (message : string)
| PlannerStuck
| NoPlanProposed
| PlanRefused (reason : string) (suggestion : option string)
| ProviderFailed (e : ProviderError)
| InvalidPlanOutput (message : string).

(** ** Refusals and plans *)

(** A computation that may panic ([None]) or fail. *)
Definition and_then {E A B} (r : option (result E A)) (f : A -> option (result E B)) : option (result E B) :=
  match r with
  | None => None
  | Some (Err e) => Some (Err e)
  | Some (Ok a) => f a
  end.

Definition required_str (key : string) (v : json) : option string :=
  s ← jget key v ≫= as_str; if is_empty s then None else Some s.

Definition is_object (v : json) : bool := match v with JObj _ => true | _ => false end.

Section Parsers.
Variables (nfc debug_str : string -> string) (json_from_str : string -> option json).

Definition normalise_operator_text (raw : string) : option string :=
  normalise_free_text_capped nfc raw MAX_OUTPUT_BYTES.

Record Refusal : Type := mkRefusal { refusal_reason : string; refusal_suggestion : option string }.

Definition parse_refusal (input : json) : option (result string Refusal) :=
  let reason := default "" (str_trim <$> (jget "reason" input ≫= as_str)) in
  if is_empty reason
  then Some (Err "'reason' is required and must not be empty: a refusal has to say why")
  else
    let suggestion := s ← str_trim <$> (jget "suggestion" input ≫= as_str); if is_empty s then None else Some s in
    reason ← normalise_operator_text reason;
    suggestion ← match suggestion with
                 | None => Some None
                 | Some s => Some <$> normalise_operator_text s
                 end;
    Some (Ok (mkRefusal reason suggestion)).

Definition invalid {A} (message : string) : option (result PlanningError A) := Some (Err (InvalidPlanOutput message)).

Definition some_or {A} (message : string) (o : option A) : option (result PlanningError A) :=
  match o with Some a => Some (Ok a) | None => invalid message end.

Definition step_params_of (at_step : string) (v : option json) : option (result PlanningError json) :=
  match v with
  | Some (JStr s) =>
      if is_empty s then Some (Ok (JObj []))
      else some_or (at_step ++ "'params' is not valid JSON: " ++ debug_str s)%string (json_from_str s)
  | Some v => Some (Ok v)
  | None => Some (Ok (JObj []))
  end.

(** [PlanStep::new] *)
Definition plan_step_new (action_name summary : string) (risk : PlanRiskLevel) (params : json)
    : option (result PlanningError PlanStep) :=
  if is_empty summary then invalid "PlanStep summary must not be empty"
  else Some (Ok (mkStep action_name summary risk params)).

(** The body of the loop over the steps. *)
Definition parse_step (i : nat) (step_val : json) : option (result PlanningError PlanStep) :=
  let at_step := ("step " ++ dec_of_N (N.of_nat i) ++ ": ")%string in
  and_then (some_or (at_step ++ "missing 'action_name'") (required_str "action_name" step_val)) (fun action_name_str =>
  if requires_unavailable_credential_entry action_name_str
  then invalid (at_step ++ "action '" ++ action_name_str ++ "' requires credential entry unavailable to the planner")
  else match parse_action_name action_name_str with
  | Err _ => invalid (at_step ++ "unknown action_name '" ++ action_name_str ++ "'")
  | Ok action_name =>
  and_then (some_or (at_step ++ "missing 'summary'") (required_str "summary" step_val)) (fun step_summary =>
  and_then (some_or (at_step ++ "missing 'risk_level'") (jget "risk_level" step_val ≫= as_str)) (fun risk_str =>
  and_then (if (risk_str =? "low")%string then Some (Ok PlanLow)
            else if (risk_str =? "medium")%string then Some (Ok PlanMedium)
            else if (risk_str =? "high")%string then Some (Ok PlanHigh)
            else invalid (at_step ++ "invalid risk_level '" ++ risk_str ++ "'")) (fun risk_level =>
  and_then (step_params_of at_step (jget "params" step_val)) (fun params =>
  if negb (is_object params) then invalid (at_step ++ "'params' must be an object")
  else match forbidden_credential_param action_name_str params with
  | Some param =>
      invalid (at_step ++ "'" ++ action_name_str ++ "' param '" ++ param
               ++ "' is a credential, and the planner has no entry channel for one")
  | None =>
      summary ← normalise_operator_text step_summary;
      plan_step_new action_name summary risk_level params
  end))))
  end)%string.

Fixpoint parse_steps (i : nat) (l : list json) : option (result PlanningError (list PlanStep)) :=
  match l with
  | [] => Some (Ok [])
  | v :: l' =>
      and_then (parse_step i v) (fun step =>
      and_then (parse_steps (S i) l') (fun steps => Some (Ok (step :: steps))))
  end.

Definition parse_proposed_plan (intent : string) (input : json) : option (result PlanningError Plan) :=
  and_then (some_or "missing or empty 'summary'" (required_str "summary" input)) (fun summary =>
  and_then (some_or "missing or empty 'explanation'" (required_str "explanation" input)) (fun explanation =>
  and_then (some_or "'steps' must be an array" (jget "steps" input ≫= as_array)) (fun steps_value =>
  if match steps_value with [] => true | _ => false end then invalid "'steps' must not be empty"
  else
  and_then (parse_steps 0 steps_value) (fun steps =>
    summary ← normalise_operator_text summary;
    explanation ← normalise_operator_text explanation;
    match plan_new intent summary explanation steps with
    | Ok plan => Some (Ok plan)
    | Err e => invalid e
    end)))).
End Parsers.

(** ** What an accepted plan is *)

Lemma and_then_ok {E A B} (r : option (result E A)) (f : A -> option (result E B)) b :
  and_then r f = Some (Ok b) -> exists a, r = Some (Ok a) /\ f a = Some (Ok b).
Proof. destruct r as [[a|e]|]; cbn; [by eauto|discriminate..]. Qed.

Lemma some_or_ok {A} message (o : option A) a : some_or message o = Some (Ok a) -> o = Some a.
Proof. destruct o; cbn; [by intros [= ->]|discriminate]. Qed.

Lemma required_str_spec key v s : required_str key v = Some s -> jget key v = Some (JStr s) /\ s <> "".
Proof.
  unfold required_str. destruct (jget key v) as [[| | |t| |]|]; cbn; try discriminate.
  destruct (is_empty t) eqn:E; [discriminate|]. intros [= ->]. split; [done|]. by intros ->.
Qed.

(** Text as the operator may be shown it. *)
Definition shown_text (t : string) : Prop :=
  String.length t <= MAX_OUTPUT_BYTES /\ Forall (fun tag => contains tag t = false) envelope_tags.

Lemma normalised_shown nfc raw t : normalise_operator_text nfc raw = Some t -> shown_text t.
Proof.
  unfold normalise_operator_text, normalise_free_text_capped.
  destruct (normalise_unbounded_text nfc raw) as [s|] eqn:E; cbn [mbind option_bind]; [|discriminate]. intros [= <-].
  split; [apply truncate_length; unfold MAX_OUTPUT_BYTES; lia|]. apply Forall_forall. intros q Hin.
  destruct (envelope_tag q Hin) as (Hq & Hb & Ht). apply (truncate_free q Hq Hb); [|exact Ht].
  by apply (normalised_free nfc raw).
Qed.

(** The parameters of a step of the proposal: an object, the text of one, or nothing. *)
Definition proposed_params (from_str : string -> option json) (v p : json) : Prop :=
  match jget "params" v with
  | None | Some (JStr EmptyString) => p = JObj []
  | Some (JStr s) => from_str s = Some p
  | Some q => p = q
  end.

(** A text of the proposal as the operator will read it. *)
Definition proposed_text (nfc : string -> string) (key : string) (v : json) (t : string) : Prop :=
  t <> "" /\ shown_text t /\ exists raw, jget key v = Some (JStr raw) /\ normalise_operator_text nfc raw = Some t.

Lemma normalised_text nfc key v raw t :
  jget key v = Some (JStr raw) -> normalise_operator_text nfc raw = Some t -> is_empty t = false -> proposed_text nfc key v t.
Proof. intros Hr Hn He. split; [by intros ->|]. split; [by eapply normalised_shown|by exists raw]. Qed.

(** How a step of the plan comes from an element of the proposal. *)
Definition fenced_step (nfc : string -> string) (from_str : string -> option json) (v : json) (s : PlanStep) : Prop :=
  jget "action_name" v = Some (JStr (step_action_name s))
  /\ jget "risk_level" v = Some (JStr (plan_risk_str (step_risk_level s)))
  /\ str_in (step_action_name s) KNOWN_ACTION_NAMES = true
  /\ requires_unavailable_credential_entry (step_action_name s) = false
  /\ is_object (step_params s) = true
  /\ forbidden_credential_param (step_action_name s) (step_params s) = None
  /\ proposed_params from_str v (step_params s)
  /\ proposed_text nfc "summary" v (step_summary s).

Lemma parse_step_fenced nfc debug_str from_str i v s :
  parse_step nfc debug_str from_str i v = Some (Ok s) -> fenced_step nfc from_str v s.
Proof.
  unfold parse_step. cbv zeta. intros (name & Hn & H)%and_then_ok.
  apply some_or_ok, required_str_spec in Hn as [Hn _].
  destruct (requires_unavailable_credential_entry name) eqn:Ec; [discriminate H|].
  destruct (parse_action_name name) as [n|] eqn:Ep; [|discriminate H].
  unfold parse_action_name in Ep. destruct (str_in name _) eqn:Ek; [|discriminate Ep]. injection Ep as <-.
  apply and_then_ok in H as (summary & Hsum & H). apply some_or_ok, required_str_spec in Hsum as [Hsum _].
  apply and_then_ok in H as (risk_str & Hr & H).
  apply some_or_ok in Hr. apply and_then_ok in H as (risk & Hrisk & H). apply and_then_ok in H as (params & Hparams & H).
  destruct (is_object params) eqn:Eo; [|discriminate H]. cbn [negb] in H.
  destruct (forbidden_credential_param name params) eqn:Ef; [discriminate H|].
  destruct (normalise_operator_text nfc summary) as [t|] eqn:Et; cbn [mbind option_bind] in H; [|discriminate H].
  unfold plan_step_new in H. destruct (is_empty t) eqn:Ee; [discriminate H|]. injection H as <-.
  unfold fenced_step. cbn [step_action_name step_risk_level step_params step_summary].
  assert (Hs : risk_str = plan_risk_str risk).
  { repeat match type of Hrisk with (if (?x =? ?y)%string then _ else _) = _ => destruct (String.eqb_spec x y) as [->|_] end;
      [injection Hrisk as <-; reflexivity..|discriminate Hrisk]. }
  split_and!; try assumption.
  - destruct (jget "risk_level" v) as [[| | |x| |]|]; cbn in Hr; congruence.
  - unfold proposed_params, step_params_of in *. destruct (jget "params" v) as [[| | |x| |]|]; try congruence.
    destruct x as [|ch x]; cbn [is_empty] in Hparams; [congruence|]. by apply some_or_ok in Hparams.
  - by eapply normalised_text.
Qed.

Lemma parse_steps_fenced nfc debug_str from_str i l steps :
  parse_steps nfc debug_str from_str i l = Some (Ok steps) -> Forall2 (fenced_step nfc from_str) l steps.
Proof.
  revert i steps. induction l as [|v l IH]; intros i steps; cbn [parse_steps]; [intros [= <-]; constructor|].
  intros (s & Hs & H)%and_then_ok. apply and_then_ok in H as (rest & Hr & [= <-]).
  constructor; [by eapply parse_step_fenced|by eapply IH].
Qed.

(** The whole fence: the plan has the intent it was asked for and the proposal's
    steps, one for one and in order, and what the operator will read is present,
    bounded, and free of the prompt's tags. *)
Definition fenced_plan (nfc : string -> string) (from_str : string -> option json) (intent : string) (input : json) (plan : Plan) : Prop :=
  Approval.plan_intent plan = intent /\ intent <> "" /\ plan_steps plan <> [] /\ plan_pref_changes plan = []
  /\ proposed_text nfc "summary" input (plan_summary plan)
  /\ proposed_text nfc "explanation" input (plan_explanation plan)
  /\ exists vs, jget "steps" input = Some (JArr vs) /\ Forall2 (fenced_step nfc from_str) vs (plan_steps plan).

Lemma parse_fenced nfc debug_str from_str intent input plan :
  parse_proposed_plan nfc debug_str from_str intent input = Some (Ok plan) -> fenced_plan nfc from_str intent input plan.
Proof.
  unfold parse_proposed_plan. intros (summary & Hsum & H)%and_then_ok. apply and_then_ok in H as (explanation & Hexp & H).
  apply some_or_ok, required_str_spec in Hsum as [Hsum _]. apply some_or_ok, required_str_spec in Hexp as [Hexp _].
  apply and_then_ok in H as (vs & Hv & H). apply some_or_ok in Hv.
  destruct (match vs with [] => true | _ => false end); [discriminate H|].
  apply and_then_ok in H as (steps & Hs & H).
  destruct (normalise_operator_text nfc summary) as [t|] eqn:Et; cbn [mbind option_bind] in H; [|discriminate H].
  destruct (normalise_operator_text nfc explanation) as [u|] eqn:Eu; cbn [mbind option_bind] in H; [|discriminate H].
  unfold plan_new in H. destruct (is_empty intent) eqn:E1; [discriminate H|].
  destruct (is_empty t) eqn:E2; [discriminate H|]. destruct (is_empty u) eqn:E3; [discriminate H|].
  destruct steps as [|s steps]; [discriminate H|]. injection H as <-.
  unfold fenced_plan. cbn [Approval.plan_intent plan_steps plan_pref_changes plan_summary plan_explanation].
  split_and!; try done; [by intros ->|by eapply normalised_text..|].
  exists vs. split; [|by eapply parse_steps_fenced].
  destruct (jget "steps" input) as [[| | | |x|]|]; cbn in Hv; congruence.
Qed.

(** A proposal with its parameters as text, and one with a password. *)
Definition wifi_step (params : json) : json :=
  JObj [("action_name", JStr "ConfigureWifi"); ("summary", JStr "join the open network");
        ("risk_level", JStr "medium"); ("params", params)].
Definition proposal (step : json) : json :=
  JObj [("summary", JStr "join wifi"); ("explanation", JStr "connects the laptop"); ("steps", JArr [step])].
Definition toy_from_str (s : string) : option json :=
  if (s =? "open")%string then Some (JObj [("ssid", JStr "cafe")])
  else if (s =? "secret")%string then Some (JObj [("ssid", JStr "cafe"); ("password", JStr "hunter2")]) else None.

Definition parse_toy (step : json) : option (result PlanningError Plan) :=
  parse_proposed_plan (fun s => s) (fun s => s) toy_from_str "join cafe" (proposal step).

Example open_network_is_accepted :
  match parse_toy (wifi_step (JStr "open")) with
  | Some (Ok plan) => map step_params (plan_steps plan) = [JObj [("ssid", JStr "cafe")]]
  | _ => False
  end.
Proof. vm_compute. reflexivity. Qed.

Example password_is_refused :
  parse_toy (wifi_step (JStr "secret"))
  = invalid "step 0: 'ConfigureWifi' param 'password' is a credential, and the planner has no entry channel for one".
Proof. vm_compute. reflexivity. Qed.
