(* ===== verification/Planner.v ===== *)
(** * The planner

    crates/sysknife-brain/src/planner.rs (the planning loop, its retries and its
    admission checks) and the message types of provider.rs. The provider, the
    daemon's read-only queries, the rate limiter, the preference file, the audit log,
    the progress channel and the clock are effects; a run is one planning call. The
    prose of the system prompt and the schemas of the tools are not modelled: the
    prompt is a function of the preferences, a tool is its name. *)

From Stdlib Require Import Ascii String NArith Lia.
From stdpp Require Import base list gmap strings.
From S2P Require Import Prelude Program Json Types Actions Builder Catalogue Preview Policy ActionFamily Approval Sanitize Prefs PlanTools.

(** ** Messages *)

Inductive Role : Type := UserRole | AssistantRole.

Inductive ContentBlock : Type :=
| TextBlock (t : string)
| ToolUse (id : string) (call_id : option string) (name : string) (input : json)
| ToolResult (tool_use_id : string) (call_id : option string) (content : string) (is_error : bool).

Record Message : Type := mkMessage { role : Role; content : list ContentBlock }.

Definition user_text (t : string) : Message := mkMessage UserRole [TextBlock t].

Record ToolResultBlock : Type := mkToolResult {
  tr_tool_use_id : string; tr_call_id : option string; tr_content : string; tr_is_error : bool }.

Definition tool_results (results : list ToolResultBlock) : Message :=
  mkMessage UserRole (map (fun r => ToolResult (tr_tool_use_id r) (tr_call_id r) (tr_content r) (tr_is_error r)) results).

Inductive StopReason : Type := EndTurn | StopToolUse | MaxTokens.

Record Completion : Type := mkCompletion { completion_content : list ContentBlock; stop_reason : StopReason }.

Inductive PlanEvent : Type := Thinking | QueryingTool (label : string) | ProposingPlan.

(** ** The world of a planning call *)

Inductive PlannerEffect : Type -> Type :=
| Emit (e : PlanEvent) : PlannerEffect ()
| Complete (system : string) (messages : list Message) (tools : list string) (max_tokens : N)
    : PlannerEffect (result ProviderError Completion)
| GetCuratedState : PlannerEffect (result PlanningError string)
| QueryDaemon (action : string) (params : json) : PlannerEffect (result PlanningError string)
| CurrentUser : PlannerEffect (result PlanningError string)
| CheckAndConsume : PlannerEffect (result N ())
| ReadPrefsFile : PlannerEffect (result string (option string))
| LogRejection (intent reason raw_plan : string) : PlannerEffect ()
| Warn (message : string) : PlannerEffect ()
| SleepMillis (millis : N) : PlannerEffect ()
| PlannerPanic : PlannerEffect Empty_set.

Abbreviation pprog := (Program.prog PlannerEffect).
Abbreviation pevent := (Program.event PlannerEffect).

Definition or_panic {A} (o : option A) : pprog A :=
  match o with
  | Some a => Ret a
  | None => e ← call PlannerPanic; match e : Empty_set with end
  end.

(** ** Errors *)

Definition show_provider_error (e : ProviderError) : string :=
  match e with
  | Http status body => "http error " ++ dec_of_N status ++ ": " ++ body
  | ProvAuth m => "authentication failed: " ++ m
  | ProvRateLimit m => "rate limited: " ++ m
  | ProvParse m => "invalid response: " ++ m
  | ProvRequest m => "request error: " ++ m
  | CassetteMiss m => "cassette miss: " ++ m
  end%string.

Definition show_planning_error (e : PlanningError) : string :=
  match e with
  | EmptyIntent => "intent must not be empty"
  | IntentTooLong len max =>
      "intent exceeds maximum length of " ++ dec_of_N (N.of_nat max) ++ " bytes (got " ++ dec_of_N (N.of_nat len)
      ++ "); shorten the request or split it into multiple commands"
  | IntentContainsSensitiveData =>
      "intent contains sensitive data (API keys, passwords, or tokens must not be forwarded to LLM providers)"
  | RateLimitExceeded n =>
      "rate limit exceeded; too many planning requests in the last 60 seconds (retry after " ++ dec_of_N n ++ "s)"
  | StateUnavailable m => "state unavailable: " ++ m
  | PlannerStuck => "planner did not propose a plan within the allowed turns"
  | NoPlanProposed => "planner ended without proposing a plan"
  | PlanRefused reason _ => reason
  | ProviderFailed e => "provider error: " ++ show_provider_error e
  | InvalidPlanOutput m => "invalid plan output: " ++ m
  end%string.

(** The message is lowered before it is searched. The markers are ASCII without a
    [k], so lowering the characters that are not ASCII brings no match. *)
Definition MARKERS : list string := ["tool_use_failed"; "was not in request.tools"].

Definition is_invalid_tool_call (e : ProviderError) : bool :=
  match e with
  | ProvAuth _ | CassetteMiss _ => false
  | _ => let t := to_lower (show_provider_error e) in existsb (fun m => contains (to_lower m) t) MARKERS
  end.

Definition is_retryable (e : ProviderError) : bool :=
  match e with
  | ProvParse _ | ProvRequest _ | ProvRateLimit _ => true
  | Http status _ => (500 <=? status)%N || (status =? 429)%N || (status =? 408)%N || is_invalid_tool_call e
  | ProvAuth _ | CassetteMiss _ => false
  end.

(** ** Constants *)

Definition PLANNING_MAX_TOKENS : N := 4096.
Definition SUMMARIZATION_MAX_TOKENS : N := 512.
Definition PROVIDER_RETRY_LIMIT : nat := 2.
Definition PROVIDER_RETRY_BACKOFF : N := 400.
Definition PROVIDER_RETRY_RATE_LIMIT_BACKOFF : N := 2000.
Definition INTENT_MAX_BYTES : nat := 2048.
Definition NOTICE_FRAGMENT_MAX_BYTES : nat := 1024.

Definition tool_call_correction (e : ProviderError) (tools : list string) : option string :=
  if negb (is_invalid_tool_call e) then None
  else Some ("Your previous response was rejected: it called a tool that does not exist. Call one of these tools by its exact name: "
             ++ join ", " tools
             ++ ". Emit a real tool call, not a JSON object describing one, and do not wrap the call in another name. If the plan you had in mind was correct, send the same plan through `propose_plan`.")%string.

(** ** The planner *)

(** What [LlmPlanner] holds beside its provider and its state client. *)
Record PlannerConfig : Type := mkPlanner {
  max_turns : nat; has_audit_log : bool; prefs_path : option string; has_rate_limiter : bool;
  distro_hint : option DistroHint }.

(** [LlmPlanner::new]; [None] is the panic of its assertion. *)
Definition planner_new (max_turns : nat) : option PlannerConfig :=
  if 1 <=? max_turns then Some (mkPlanner max_turns false None false None) else None.

Definition tool_defs (c : PlannerConfig) : list string :=
  ["get_system_state"] ++ query_tools_for_distro (distro_hint c) ++ ["remember"; "forget"; "propose_plan"; "refuse"].

Definition is_text (b : ContentBlock) : bool := match b with TextBlock _ => true | _ => false end.

Definition tool_calls (l : list ContentBlock) : list (string * option string * string * json) :=
  omap (fun b => match b with ToolUse id call_id name input => Some (id, call_id, name, input) | _ => None end) l.

(** A tool's answer, or the end of planning. *)
Inductive ToolOutcome : Type :=
| Finished (r : result PlanningError Plan)
| Answered (b : ToolResultBlock) (pref_changes : list PendingPrefChange).

Definition with_pref_changes (p : Plan) (changes : list PendingPrefChange) : Plan :=
  mkPlan (Approval.plan_intent p) (plan_summary p) (plan_explanation p) (plan_steps p) changes.

Definition progress_event (name : string) (tools : list string) : PlanEvent :=
  if (name =? "propose_plan")%string then ProposingPlan
  else if (name =? "get_system_state")%string then QueryingTool "system state"
  else if str_in name tools then QueryingTool (str_map (fun c => if Ascii.eqb c "_"%char then " "%char else c) name)
  else QueryingTool "unknown tool".

Section Planner.
Variables (nfc debug_str : string -> string) (value_display : json -> string).
Variables (json_from_str : string -> option json) (is_match : list string -> string -> bool).
(** The prompt around the preferences, and the message of a failed blocking task. *)
Variables (build_system_prompt : option string -> option DistroHint -> string) (join_error : string).
Variable c : PlannerConfig.

(** [terminal_fragment] *)
Definition terminal_fragment (raw : string) : option string :=
  t ← normalise_free_text_capped nfc raw NOTICE_FRAGMENT_MAX_BYTES;
  Some (str_map (fun ch => if Ascii.eqb ch LF || Ascii.eqb ch CR || Ascii.eqb ch TAB then " "%char else ch) t).

Definition rejected_plan_notice (reason raw_plan : string) (turn max : nat) : option string :=
  reason ← terminal_fragment reason;
  raw_plan ← terminal_fragment raw_plan;
  Some ("[SYSKNIFE SAFETY] propose_plan rejected (turn " ++ dec_of_N (N.of_nat turn) ++ "/" ++ dec_of_N (N.of_nat max)
        ++ "): " ++ reason ++ ". Input: " ++ raw_plan)%string.

Definition unknown_tool_notice (name : string) (turn max : nat) : option string :=
  name ← terminal_fragment name;
  Some ("[SYSKNIFE WARNING] LLM called unknown tool '" ++ name ++ "' (turn " ++ dec_of_N (N.of_nat turn) ++ "/"
        ++ dec_of_N (N.of_nat max) ++ "); sending error feedback.")%string.

(** [if let Some(audit) = self.audit_log.clone() { ... }] *)
Definition log_rejection (intent reason raw_plan : string) : pprog () :=
  if has_audit_log c then call (LogRejection intent reason raw_plan) else Ret tt.

Definition check_and_consume : pprog (result N ()) :=
  if has_rate_limiter c then call CheckAndConsume else Ret (Ok tt).

Definition admit_request (t : string) : pprog (result PlanningError ()) :=
  if INTENT_MAX_BYTES <? String.length t then Ret (Err (IntentTooLong (String.length t) INTENT_MAX_BYTES))
  else if contains_sensitive is_match t then Ret (Err IntentContainsSensitiveData)
  else
    r ← check_and_consume;
    Ret (match r with Ok _ => Ok tt | Err n => Err (RateLimitExceeded n) end).

Definition tenths (millis : N) : string :=
  (dec_of_N (millis / 1000) ++ "." ++ dec_of_N (millis mod 1000 / 100))%string.

(** The loop of [complete_with_retry]: [retries] attempts are left. *)
Fixpoint complete_attempts (retries : nat) (system : string) (messages : list Message) (tools : list string)
    : pprog (result ProviderError Completion) :=
  r ← call (Complete system messages tools PLANNING_MAX_TOKENS);
  match r with
  | Ok completion => Ret (Ok completion)
  | Err error =>
      match retries with
      | S retries' =>
          if negb (is_retryable error) then Ret (Err error)
          else
            let messages := match tool_call_correction error tools with
                            | Some correction => messages ++ [user_text correction]
                            | None => messages
                            end in
            token ← check_and_consume;
            match token with
            | Err _ => Ret (Err error)
            | Ok _ =>
                let attempt := PROVIDER_RETRY_LIMIT - retries in
                let base := match error with
                            | ProvRateLimit _ => PROVIDER_RETRY_RATE_LIMIT_BACKOFF
                            | Http status _ => if (status =? 429)%N then PROVIDER_RETRY_RATE_LIMIT_BACKOFF
                                               else PROVIDER_RETRY_BACKOFF
                            | _ => PROVIDER_RETRY_BACKOFF
                            end in
                let backoff := (base * 2 ^ N.of_nat attempt)%N in
                _ ← call (Warn ("[sysknife-brain] provider call failed (" ++ show_provider_error error
                                ++ "); retrying in " ++ tenths backoff ++ "s (attempt " ++ dec_of_N (N.of_nat (S attempt))
                                ++ "/" ++ dec_of_N (N.of_nat PROVIDER_RETRY_LIMIT) ++ ")")%string);
                _ ← call (SleepMillis backoff);
                complete_attempts retries' system messages tools
            end
      | O => Ret (Err error)
      end
  end.
Definition complete_with_retry := complete_attempts PROVIDER_RETRY_LIMIT.

(** [prepare_pref_op] *)
Definition prepare_pref_op (input : json) (kind : PrefChangeKind) : result string string :=
  let fact := default "" (jget "fact" input ≫= as_str) in
  if is_empty fact then Err "Error: 'fact' parameter must not be empty."
  else if match kind with Remember => contains_sensitive is_match fact | Forget => false end
  then Err "Error: preference rejected — it appears to contain sensitive data (passwords, tokens, keys). Preferences must not store secrets."
  else match prefs_path c with
       | Some _ => Ok fact
       | None => Err "Error: preference storage is not configured."
       end.

(** [sanitize_tool_output(..).into_tool_result(..)] *)
Definition sanitized_result (id : string) (call_id : option string) (tool raw : string) (is_error : bool)
    (prefs : list PendingPrefChange) : pprog ToolOutcome :=
  t ← or_panic (sanitize_tool_output nfc tool raw);
  Ret (Answered (mkToolResult id call_id t is_error) prefs).

(** The arm of each tool in the loop over the calls. *)
Definition call_get_state (id : string) (call_id : option string) (prefs : list PendingPrefChange) : pprog ToolOutcome :=
  state ← call GetCuratedState;
  match state with
  | Err e => Ret (Finished (Err e))
  | Ok state_json => sanitized_result id call_id "get_system_state" state_json false prefs
  end.

Definition call_propose_plan (intent : string) (turn : nat) (id : string) (call_id : option string) (input : json)
    (prefs : list PendingPrefChange) : pprog ToolOutcome :=
  parsed ← or_panic (parse_proposed_plan nfc debug_str json_from_str intent input);
  match parsed with
  | Ok plan => Ret (Finished (Ok (with_pref_changes plan prefs)))
  | Err e =>
      let reason := show_planning_error e in
      let raw_plan := value_display input in
      notice ← or_panic (rejected_plan_notice reason raw_plan (S turn) (max_turns c));
      _ ← call (Warn notice);
      _ ← log_rejection intent reason raw_plan;
      Ret (Answered (mkToolResult id call_id
        ("Plan rejected: " ++ reason ++ ". Correct the plan and call propose_plan again.")%string true) prefs)
  end.

Definition call_refuse (intent : string) (turn : nat) (id : string) (call_id : option string) (input : json)
    (prefs : list PendingPrefChange) : pprog ToolOutcome :=
  parsed ← or_panic (parse_refusal nfc input);
  match parsed with
  | Ok refusal => Ret (Finished (Err (PlanRefused (refusal_reason refusal) (refusal_suggestion refusal))))
  | Err reason =>
      _ ← call (Warn ("[SYSKNIFE SAFETY] refuse rejected (turn " ++ dec_of_N (N.of_nat (S turn)) ++ "/"
                      ++ dec_of_N (N.of_nat (max_turns c)) ++ "): " ++ reason)%string);
      _ ← log_rejection intent reason (value_display input);
      Ret (Answered (mkToolResult id call_id
        ("Refusal rejected: " ++ reason ++ ". Either call `refuse` again with a concrete reason, or propose a plan.")%string
        true) prefs)
  end.

Definition call_pref (kind : PrefChangeKind) (id : string) (call_id : option string) (input : json)
    (prefs : list PendingPrefChange) : ToolOutcome :=
  match prepare_pref_op input kind with
  | Ok fact =>
      let verb := match kind with Remember => "save" | Forget => "remove" end in
      Answered (mkToolResult id call_id
        ("Queued, not yet done: the operator will be asked to " ++ verb ++ " this preference after the plan is shown: "
         ++ fact)%string false) (prefs ++ [mkPref kind fact])
  | Err message => Answered (mkToolResult id call_id message true) prefs
  end.

Definition call_current_user (id : string) (call_id : option string) (prefs : list PendingPrefChange) : pprog ToolOutcome :=
  user ← call CurrentUser;
  match user with
  | Ok u => sanitized_result id call_id "query_current_user" ("Current user: " ++ u) false prefs
  | Err e => sanitized_result id call_id "query_current_user"
               ("Error: cannot determine current user: " ++ show_planning_error e) true prefs
  end%string.

Definition call_query (intent : string) (turn : nat) (name id : string) (call_id : option string) (input : json)
    (prefs : list PendingPrefChange) : pprog ToolOutcome :=
  match query_tool_to_action name input with
  | Ok (Some (action, params)) =>
      output ← call (QueryDaemon action params);
      match output with
      | Ok output => sanitized_result id call_id name output false prefs
      | Err e => sanitized_result id call_id name ("Query failed: " ++ show_planning_error e) true prefs
      end
  | Err message => Ret (Answered (mkToolResult id call_id message true) prefs)
  | Ok None =>
      notice ← or_panic (unknown_tool_notice name (S turn) (max_turns c));
      _ ← call (Warn notice);
      _ ← log_rejection intent ("unknown tool: " ++ name) (value_display input);
      Ret (Answered (mkToolResult id call_id ("unknown tool: " ++ name) true) prefs)
  end%string.

Definition call_tool (intent : string) (turn : nat) (tools : list string) (tc : string * option string * string * json)
    (prefs : list PendingPrefChange) : pprog ToolOutcome :=
  let '(id, call_id, name, input) := tc in
  _ ← call (Emit (progress_event name tools));
  if (name =? "get_system_state")%string then call_get_state id call_id prefs
  else if (name =? "propose_plan")%string then call_propose_plan intent turn id call_id input prefs
  else if (name =? "refuse")%string then call_refuse intent turn id call_id input prefs
  else if (name =? "remember")%string then Ret (call_pref Remember id call_id input prefs)
  else if (name =? "forget")%string then Ret (call_pref Forget id call_id input prefs)
  else if (name =? "query_current_user")%string then call_current_user id call_id prefs
  else call_query intent turn name id call_id input prefs.

(** The loop over a turn's calls: a final result, or the answers. *)
Fixpoint call_tools (intent : string) (turn : nat) (tools : list string) (l : list (string * option string * string * json))
    (results : list ToolResultBlock) (prefs : list PendingPrefChange)
    : pprog (result PlanningError Plan + list ToolResultBlock * list PendingPrefChange) :=
  match l with
  | [] => Ret (inr (results, prefs))
  | tc :: l' =>
      outcome ← call_tool intent turn tools tc prefs;
      match outcome with
      | Finished r => Ret (inl r)
      | Answered b prefs => call_tools intent turn tools l' (results ++ [b]) prefs
      end
  end.

(** The last screening before the results join the conversation. *)
Definition screen (b : ToolResultBlock) : ToolResultBlock :=
  mkToolResult (tr_tool_use_id b) (tr_call_id b) (redact_tool_secrets (tr_content b)) (tr_is_error b).

Definition CALL_PROPOSE_PLAN : string :=
  "You must call the `propose_plan` tool. Do not output JSON or text directly — your response must be a tool call to `propose_plan`.".

(** [for turn in 0..self.max_turns]: [left] turns are left. *)
Fixpoint plan_turns (left : nat) (intent system : string) (tools : list string) (messages : list Message)
    (prefs : list PendingPrefChange) : pprog (result PlanningError Plan) :=
  match left with
  | O => Ret (Err PlannerStuck)
  | S left' =>
      let turn := max_turns c - left in
      _ ← call (Emit Thinking);
      completion ← complete_with_retry system messages tools;
      match completion with
      | Err e => Ret (Err (ProviderFailed e))
      | Ok completion =>
          let messages := messages ++ [mkMessage AssistantRole (completion_content completion)] in
          match stop_reason completion with
          | MaxTokens => Ret (Err NoPlanProposed)
          | EndTurn =>
              let has_text := existsb is_text (completion_content completion) in
              if has_text && (S turn <? max_turns c)
              then plan_turns left' intent system tools (messages ++ [user_text CALL_PROPOSE_PLAN]) prefs
              else
                _ ← (if has_text
                     then call (Warn ("[sysknife-brain] LLM returned text instead of propose_plan on the final turn (turn "
                                      ++ dec_of_N (N.of_nat (S turn)) ++ "/" ++ dec_of_N (N.of_nat (max_turns c))
                                      ++ "); discarding output.")%string)
                     else Ret tt);
                Ret (Err NoPlanProposed)
          | StopToolUse =>
              match tool_calls (completion_content completion) with
              | [] => Ret (Err NoPlanProposed)
              | calls =>
                  outcome ← call_tools intent turn tools calls [] prefs;
                  match outcome with
                  | inl r => Ret r
                  | inr (results, prefs) =>
                      plan_turns left' intent system tools (messages ++ [tool_results (map screen results)]) prefs
                  end
              end
          end
      end
  end.

(** The preferences of the prompt: any failure to read them leaves them out. *)
Definition read_prefs_content : pprog (option string) :=
  match prefs_path c with
  | None => Ret None
  | Some path =>
      read ← call ReadPrefsFile;
      match default (Err join_error) (read_prefs nfc read) with
      | Ok content => Ret content
      | Err e =>
          _ ← call (Warn ("[sysknife-brain] failed to read preferences from " ++ path ++ ": " ++ e)%string);
          Ret None
      end
  end.

(** [plan_intent_with_context]; [plan_intent] gives no feedback. *)
Definition plan_intent_with_context (intent : string) (feedback : option string) : pprog (result PlanningError Plan) :=
  let intent := str_trim intent in
  if is_empty intent then Ret (Err EmptyIntent)
  else
    let admission_text := match feedback with
                          | Some feedback => (intent ++ String LF (String LF feedback))%string
                          | None => intent
                          end in
    admitted ← admit_request admission_text;
    match admitted with
    | Err e => Ret (Err e)
    | Ok _ =>
        prefs_content ← read_prefs_content;
        plan_turns (max_turns c) intent (build_system_prompt prefs_content (distro_hint c)) (tool_defs c)
          [user_text admission_text] []
    end.

Definition plan_intent (intent : string) : pprog (result PlanningError Plan) := plan_intent_with_context intent None.

Definition summarize (prompt : string) : pprog (result PlanningError string) :=
  admitted ← admit_request prompt;
  match admitted with
  | Err e => Ret (Err e)
  | Ok _ =>
      completion ← call (Complete "You are a concise technical writer. Respond with a short plain-language summary. Do not use markdown formatting."
                           [user_text prompt] [] SUMMARIZATION_MAX_TOKENS);
      match completion with
      | Err e => Ret (Err (ProviderFailed e))
      | Ok completion =>
          let t := join (String LF "") (omap (fun b => match b with TextBlock t => Some t | _ => None end)
                                          (completion_content completion)) in
          Ret (if is_empty t then Err NoPlanProposed else Ok t)
      end
  end.
End Planner.

(** ** Query tools and the daemon's query gate *)

Lemma query_tool_maps name input action params :
  query_tool_to_action name input = Ok (Some (action, params)) -> query_tool_action_name name = Some action.
Proof.
  unfold query_tool_to_action, plain_query, param_query. intros H.
  repeat match type of H with
  | (if (?x =? ?y)%string then _ else _) = _ => destruct (String.eqb_spec x y) as [->|_]
  end;
  try discriminate H; try (injection H as <- _; reflexivity);
  apply bind_Ok in H as (v & _ & H); injection H as <- _; reflexivity.
Qed.

(** What a planner may ask of the daemon: an action the default policy opens to
    every caller and the query path serves, whose command is low risk. *)
Definition observer_query (action : string) (params : json) : Prop :=
  min_role_for_action empty_policy action = Some Observer
  /\ str_in action OBSERVER_MUTATING_ACTIONS = false
  /\ forall spec, build_action_spec action params = Ok spec -> spec_risk_level spec = Low.

Definition observer_action (action : string) : bool :=
  match min_role_for_action empty_policy action with Some Observer => true | _ => false end
  && negb (str_in action OBSERVER_MUTATING_ACTIONS)
  && match SPEC_META !! action with Some m => bool_decide (risk_level m = Low) | None => true end.

Lemma observer_action_query action params : observer_action action = true -> observer_query action params.
Proof.
  unfold observer_action, observer_query. intros [[H1 H2]%andb_true_iff H3]%andb_true_iff.
  split; [|split].
  { clear -H1. destruct (min_role_for_action empty_policy action) as [[]|]; [reflexivity|discriminate H1..]. }
  { apply negb_true_iff. exact H2. }
  intros spec Hb. apply built_meta in Hb as [_ Hm]. rewrite Hm in H3. apply bool_decide_eq_true in H3. exact H3.
Qed.

Lemma query_actions_observe :
  forallb (fun tool => match query_tool_action_name tool with Some a => observer_action a | None => true end) query_tools
  = true.
Proof. vm_compute. reflexivity. Qed.

Lemma query_tool_known name action : query_tool_action_name name = Some action -> str_in name query_tools = true.
Proof.
  unfold query_tool_action_name. cbn [assoc].
  repeat match goal with |- context [(?x =? ?y)%string] => destruct (String.eqb_spec x y) as [->|_] end;
  intros H; try reflexivity; discriminate H.
Qed.

Lemma query_tool_observes name input action params :
  query_tool_to_action name input = Ok (Some (action, params)) -> observer_query action params.
Proof.
  intros H%query_tool_maps. apply observer_action_query. pose proof (query_tool_known _ _ H) as Hk.
  apply str_in_spec, list_elem_of_In in Hk. pose proof query_actions_observe as Hall.
  rewrite forallb_forall in Hall. specialize (Hall _ Hk). by rewrite H in Hall.
Qed.

(** ** What a run can do *)

(** The history only grows. *)
Lemma history_grows {F : Type -> Type} {A} (P : forall X, list (event F) -> F X -> Prop)
    (post : list (event F) -> A -> Prop) g p :
  holds (history P) post g p -> holds (history P) (fun g' a => g `prefix_of` g' /\ post g' a) g p.
Proof.
  enough (Hgen : forall g', g `prefix_of` g' -> holds (history P) post g' p ->
            holds (history P) (fun g' a => g `prefix_of` g' /\ post g' a) g' p) by (apply Hgen; done).
  induction p as [a|X e k IH]; intros g' Hg; cbn; [done|]. intros [He Hk]. split; [done|]. intros x.
  apply IH; [by apply prefix_app_r|apply Hk].
Qed.

Section Runs.
Variables (nfc debug_str : string -> string) (value_display : json -> string).
Variables (json_from_str : string -> option json) (is_match : list string -> string -> bool).
Variables (build_system_prompt : option string -> option DistroHint -> string) (join_error : string).
Variable c : PlannerConfig.

Notation plan_with := (plan_intent_with_context nfc debug_str value_display json_from_str is_match build_system_prompt join_error c).
Notation turns := (plan_turns nfc debug_str value_display json_from_str is_match c).
Notation tool_step := (call_tool nfc debug_str value_display json_from_str is_match c).
Notation tool_steps := (call_tools nfc debug_str value_display json_from_str is_match c).
Notation attempts := (complete_attempts c).

Definition planner_effect X (e : PlannerEffect X) : Prop :=
  match e with QueryDaemon action params => observer_query action params | _ => True end.

Lemma only_or_panic {A} (Q : forall X, PlannerEffect X -> Prop) (o : option A) :
  Q _ PlannerPanic -> only Q (or_panic o).
Proof. intros HQ. destruct o; cbn; [done|]. by split. Qed.

Ltac observes := repeat first [ostep | apply only_or_panic | exact I].

Lemma attempts_observe retries system messages tools : only planner_effect (attempts retries system messages tools).
Proof.
  revert messages. induction retries as [|retries IH]; intros messages; cbn [complete_attempts]; [observes|].
  unfold check_and_consume. observes; apply IH.
Qed.

Lemma tool_step_observes intent turn tools tc prefs : only planner_effect (tool_step intent turn tools tc prefs).
Proof.
  unfold call_tool, call_get_state, call_propose_plan, call_refuse, call_current_user, call_query, sanitized_result, log_rejection.
  destruct tc as [[[id call_id] name] input]. observes. cbn [planner_effect]. by eapply query_tool_observes.
Qed.

Lemma tool_steps_observe intent turn tools l results prefs :
  only planner_effect (tool_steps intent turn tools l results prefs).
Proof.
  revert results prefs. induction l as [|tc l IH]; intros results prefs; cbn [call_tools]; [exact I|].
  ostep; [apply tool_step_observes|]. observes. apply IH.
Qed.

Lemma turns_observe left intent system tools messages prefs :
  only planner_effect (turns left intent system tools messages prefs).
Proof.
  revert messages prefs. induction left as [|left IH]; intros messages prefs; cbn [plan_turns]; [exact I|].
  ostep; [observes|]. ostep; [apply attempts_observe|]. cbv zeta.
  ostep; [|exact I]. ostep; [observes; apply IH| |exact I].
  ostep; [exact I|]. ostep; [apply tool_steps_observe|]. observes. apply IH.
Qed.

Lemma plan_observes intent feedback : only planner_effect (plan_with intent feedback).
Proof.
  unfold plan_intent_with_context, admit_request, read_prefs_content, check_and_consume. cbv zeta.
  ostep; [exact I|]. ostep; [observes|]. ostep; [|exact I]. ostep; [observes|apply turns_observe].
Qed.
(** *** What the provider is sent, and what a plan comes from *)

Definition admitted_text (t : string) : Prop :=
  contains_sensitive is_match t = false /\ String.length t <= INTENT_MAX_BYTES.

(** The messages after the first one. *)
Inductive later_message : Message -> Prop :=
| later_assistant l : later_message (mkMessage AssistantRole l)
| later_nudge : later_message (user_text CALL_PROPOSE_PLAN)
| later_correction e t : tool_call_correction e (tool_defs c) = Some t -> later_message (user_text t)
| later_results l : later_message (tool_results (map screen l)).

Definition conversation (messages : list Message) : Prop :=
  exists t rest, messages = user_text t :: rest /\ admitted_text t /\ Forall later_message rest.

Lemma conversation_snoc messages m : conversation messages -> later_message m -> conversation (messages ++ [m]).
Proof.
  intros (t & rest & -> & Ht & Hr) Hm. exists t, (rest ++ [m]). split; [done|]. split; [done|].
  apply Forall_app. by split; [|constructor].
Qed.

Definition token_taken (pre : list pevent) : Prop :=
  has_rate_limiter c = true -> mkEvent _ CheckAndConsume (Ok tt) ∈ pre.

Lemma token_later g g' : g `prefix_of` g' -> token_taken g -> token_taken g'.
Proof. intros [suf ->] Ht Hc. apply elem_of_app. left. by apply Ht. Qed.

Definition sent X (pre : list pevent) (e : PlannerEffect X) : Prop :=
  match e with
  | Complete _ messages tools _ => tools = tool_defs c /\ conversation messages /\ token_taken pre
  | _ => True
  end.

(** The model called [propose_plan] with [input]. *)
Definition proposed (pre : list pevent) (input : json) : Prop :=
  exists system messages tools max_tokens completion id call_id,
    mkEvent _ (Complete system messages tools max_tokens) (Ok completion) ∈ pre
    /\ ToolUse id call_id "propose_plan" input ∈ completion_content completion.

Definition pref_ok (p : PendingPrefChange) : Prop :=
  pref_fact p <> "" /\ match pref_kind p with Remember => contains_sensitive is_match (pref_fact p) = false | Forget => True end.

Definition plan_result (intent : string) (pre : list pevent) (r : result PlanningError Plan) : Prop :=
  match r with
  | Ok plan => exists input plan0 prefs,
      proposed pre input /\ fenced_plan nfc json_from_str intent input plan0
      /\ plan = with_pref_changes plan0 prefs /\ Forall pref_ok prefs
  | Err _ => True
  end.

Lemma proposed_later g g' input : g `prefix_of` g' -> proposed g input -> proposed g' input.
Proof.
  intros [suf ->] (system & messages & tools & mt & completion & id & call_id & Hin & Hu).
  exists system, messages, tools, mt, completion, id, call_id. split; [|done]. apply elem_of_app. by left.
Qed.

Lemma attempts_sent retries system messages g :
  conversation messages -> token_taken g ->
  holds (history sent) (fun g' r => match r with
    | Ok completion => exists system messages tools mt, mkEvent _ (Complete system messages tools mt) (Ok completion) ∈ g'
    | Err _ => True end) g (attempts retries system messages (tool_defs c)).
Proof.
  revert messages g. induction retries as [|retries IH]; intros messages g Hm Hg; cbn [complete_attempts];
    hstep; (apply holds_perform; [done|]); intros r; cbv beta; cbn [next history]; (destruct r as [completion|e];
    [apply holds_ret; exists system, messages, (tool_defs c), PLANNING_MAX_TOKENS; apply elem_of_app; right; by left|]);
    [done|].
  destruct (negb (is_retryable e)); [done|]. cbv zeta.
  assert (Hm' : conversation match tool_call_correction e (tool_defs c) with
                             | Some correction => messages ++ [user_text correction] | None => messages end).
  { destruct (tool_call_correction _ _) eqn:E; [|done]. apply conversation_snoc; [done|]. by econstructor. }
  set (g1 := g ++ [_]). assert (Hg1 : token_taken g1) by (eapply token_later; [|exact Hg]; by apply prefix_app_r).
  clearbody g1. unfold check_and_consume.
  apply holds_bind. apply (holds_mono _ (fun g' _ => token_taken g')).
  2: { destruct (has_rate_limiter c); [|exact Hg1]. apply holds_perform; [exact I|]. intros x.
       eapply token_later; [|exact Hg1]. by apply prefix_app_r. }
  intros g2 token Hg2. destruct token as [|]; [|done]. hgo. apply IH; [exact Hm'|].
  do 2 (eapply token_later; [by apply prefix_app_r|]). exact Hg2.
Qed.

(** A tool call: a plan only from a fenced proposal, and only checked changes queued. *)
Definition step_ok (intent : string) (tc : string * option string * string * json) (o : ToolOutcome) : Prop :=
  match o with
  | Finished (Ok plan) => exists plan0 prefs,
      tc.1.2 = "propose_plan" /\ fenced_plan nfc json_from_str intent tc.2 plan0 /\ plan = with_pref_changes plan0 prefs
      /\ Forall pref_ok prefs
  | Finished (Err _) => True
  | Answered _ prefs => Forall pref_ok prefs
  end.

Lemma or_panic_sent {A} (post : list pevent -> A -> Prop) g (o : option A) :
  (forall a, o = Some a -> post g a) -> holds (history sent) post g (or_panic o).
Proof. destruct o as [a|]; intros Hp; [by apply Hp|]. split; [exact I|]. intros []. Qed.

Lemma pref_step_ok kind id call_id input prefs :
  Forall pref_ok prefs ->
  match call_pref is_match c kind id call_id input prefs with Answered _ prefs' => Forall pref_ok prefs' | Finished _ => False end.
Proof.
  intros Hp. unfold call_pref, prepare_pref_op. destruct (is_empty _) eqn:Ee; [done|].
  destruct (match kind with Remember => _ | Forget => false end) eqn:Es; [done|].
  destruct (prefs_path c); [|done]. apply Forall_app. split; [done|]. constructor; [|done].
  split; cbn [pref_fact pref_kind]; [intros H; by rewrite H in Ee|by destruct kind].
Qed.

Lemma tool_step_sent intent turn tools tc prefs g :
  Forall pref_ok prefs ->
  holds (history sent) (fun _ o => step_ok intent tc o) g (tool_step intent turn tools tc prefs).
Proof.
  intros Hp. destruct tc as [[[id call_id] name] input]. unfold call_tool. hgo.
  assert (Hres : forall tool raw err g, holds (history sent) (fun _ o => step_ok intent (id, call_id, name, input) o) g
            (sanitized_result nfc id call_id tool raw err prefs)).
  { intros tool raw err g'. unfold sanitized_result. hstep. by apply or_panic_sent. }
  destruct (name =? "get_system_state")%string.
  { unfold call_get_state. hgo. case_match; [apply Hres|done]. }
  destruct (String.eqb_spec name "propose_plan") as [->|_].
  { unfold call_propose_plan, log_rejection. hstep. apply or_panic_sent. intros [plan|e] Hplan; cbv zeta.
    - apply holds_ret. exists plan, prefs. split_and!; try done. by eapply parse_fenced.
    - hstep. apply or_panic_sent. intros notice _. hgo. by destruct (has_audit_log c). }
  destruct (name =? "refuse")%string.
  { unfold call_refuse, log_rejection. hstep. apply or_panic_sent. intros [r|e] _; [done|]. hgo.
    by destruct (has_audit_log c). }
  destruct (name =? "remember")%string.
  { pose proof (pref_step_ok Remember id call_id input prefs Hp). apply holds_ret. by destruct (call_pref _ _ _ _ _ _ _). }
  destruct (name =? "forget")%string.
  { pose proof (pref_step_ok Forget id call_id input prefs Hp). apply holds_ret. by destruct (call_pref _ _ _ _ _ _ _). }
  destruct (name =? "query_current_user")%string.
  { unfold call_current_user. hgo. case_match; apply Hres. }
  unfold call_query, log_rejection. destruct (query_tool_to_action name input) as [[[action params]|]|]; [| |done].
  - hgo. case_match; apply Hres.
  - hstep. apply or_panic_sent. intros notice _. hgo. by destruct (has_audit_log c).
Qed.

Lemma tool_steps_sent intent turn tools l results prefs g :
  Forall pref_ok prefs ->
  holds (history sent) (fun _ o => match o with
    | inl (Ok plan) => exists input plan0 prefs, (exists id call_id, (id, call_id, "propose_plan", input) ∈ l)
        /\ fenced_plan nfc json_from_str intent input plan0 /\ plan = with_pref_changes plan0 prefs /\ Forall pref_ok prefs
    | inl (Err _) => True
    | inr (_, prefs) => Forall pref_ok prefs end) g (tool_steps intent turn tools l results prefs).
Proof.
  revert results prefs g. induction l as [|tc l IH]; intros results prefs g Hp; cbn [call_tools]; [done|].
  apply holds_bind. eapply holds_mono; [|by apply tool_step_sent].
  intros g' o Ho. destruct o as [[plan|e]|b prefs']; cbn [step_ok] in Ho; [|done|].
  - apply holds_ret. destruct Ho as (plan0 & prefs0 & Hn & Hf & -> & Hp0).
    destruct tc as [[[id call_id] name] input]. cbn in Hn, Hf. subst name.
    exists input, plan0, prefs0. split; [|done]. exists id, call_id. by left.
  - eapply holds_mono; [|by apply IH]. intros g2 [[plan|e]|[rs ps]]; try done.
    intros (input & plan0 & prefs0 & (id & call_id & Hin) & H). exists input, plan0, prefs0. split; [|done].
    exists id, call_id. by right.
Qed.

Lemma tool_calls_in id call_id name input l : (id, call_id, name, input) ∈ tool_calls l -> ToolUse id call_id name input ∈ l.
Proof.
  unfold tool_calls. intros (b & Hb & E)%list_elem_of_omap. destruct b; [discriminate| |discriminate].
  by injection E as -> -> -> ->.
Qed.

Lemma turns_sent left intent system messages prefs g :
  conversation messages -> token_taken g -> Forall pref_ok prefs ->
  holds (history sent) (plan_result intent) g (turns left intent system (tool_defs c) messages prefs).
Proof.
  revert messages prefs g. induction left as [|left IH]; intros messages prefs g Hm Hg Hp; cbn [plan_turns]; [done|].
  hgo. cbv zeta. set (g0 := g ++ [_]).
  assert (Hg0 : token_taken g0) by (eapply token_later; [|exact Hg]; by apply prefix_app_r). clearbody g0.
  eapply holds_mono; [|apply history_grows, attempts_sent; done].
  intros g1 r [Hg1 Hr]. destruct r as [completion|]; [|done]. cbn beta iota zeta.
  pose proof (token_later _ _ Hg1 Hg0) as Ht1.
  assert (Hm' : conversation (messages ++ [mkMessage AssistantRole (completion_content completion)]))
    by (apply conversation_snoc; [done|constructor]).
  destruct (stop_reason completion); [| |done].
  - destruct (_ && _).
    + apply IH; [|done|done]. apply conversation_snoc; [done|constructor].
    + hstep. by destruct (existsb _ _).
  - destruct (tool_calls _) as [|tc l] eqn:El; [done|]. apply holds_bind.
    eapply holds_mono; [|apply history_grows, tool_steps_sent; done].
    intros g2 o [Hg2 Ho]. destruct o as [[plan|e]|[results prefs']]; [|done|].
    + apply holds_ret. destruct Ho as (input & plan0 & prefs0 & (id & call_id & Hin) & Hf & Hpl & Hp0).
      rewrite <-El in Hin. apply tool_calls_in in Hin. exists input, plan0, prefs0. split; [|done].
      destruct Hr as (sys & msgs & tls & mt & Hev). exists sys, msgs, tls, mt, completion, id, call_id. split; [|done].
      destruct Hg2 as [suf ->]. apply elem_of_app. by left.
    + apply IH; [|by eapply token_later|done]. apply conversation_snoc; [done|constructor].
Qed.

Lemma plan_sent intent feedback : holds (history sent) (plan_result (str_trim intent)) [] (plan_with intent feedback).
Proof.
  unfold plan_intent_with_context. cbv zeta. destruct (is_empty _); [done|].
  set (t := match feedback with Some _ => _ | None => _ end). clearbody t.
  apply holds_bind. unfold admit_request. destruct (_ <? _) eqn:El; [done|]. apply Nat.ltb_ge in El.
  destruct (contains_sensitive _ _) eqn:Es; [done|]. apply holds_bind.
  apply (holds_mono _ (fun g' r => r = Ok tt -> token_taken g')).
  2: { unfold check_and_consume, token_taken. destruct (has_rate_limiter c); [|done]. apply holds_perform; [exact I|].
       intros x -> _. cbn [next history]. by left. }
  intros g r Hg. apply holds_ret. destruct r as [[]|]; [|done]. specialize (Hg eq_refl).
  apply holds_bind. eapply holds_mono; [|apply history_grows].
  - intros g' prefs [Hg' _]. apply turns_sent; [|by eapply token_later|constructor].
    exists t, []. by repeat split.
  - instantiate (1 := fun _ _ => True). unfold read_prefs_content. destruct (prefs_path c); [|done]. hgo.
    destruct (default _ _); [done|]. by hgo.
Qed.

(** *** What a run costs *)

Section Cost.
Variable w : forall X, PlannerEffect X -> N.

Definition budget : Monitor PlannerEffect N :=
  mkMonitor N (fun _ _ _ => True) (fun X spent e _ => (spent + w X e)%N).

(** No run of the program costs more. *)
Definition spends {A} (n : N) (p : pprog A) : Prop := forall g, holds budget (fun g' _ => (g' <= g + n)%N) g p.

Definition total (tr : list pevent) : N := fold_right (fun ev n => (w _ (ev_effect ev) + n)%N) 0%N tr.

Lemma after_total tr g : after budget g tr = (g + total tr)%N.
Proof. revert g. induction tr as [|[X e x] tr IH]; intros g; cbn [after total fold_right]; [lia|]. rewrite IH. cbn. unfold total. lia. Qed.

Lemma spends_runs {A} n (p : pprog A) tr a : spends n p -> runs p tr a -> (total tr <= n)%N.
Proof. intros Hs Hr. destruct (holds_runs _ _ _ _ _ _ (Hs 0%N) Hr) as [H _]. rewrite after_total in H. lia. Qed.

Lemma spends_bind {A B} n m k (p : pprog A) (f : A -> pprog B) :
  spends n p -> (forall a, spends m (f a)) -> (n + m <= k)%N -> spends k (p ≫= f).
Proof.
  intros Hp Hf Hk g. apply holds_bind. eapply holds_mono; [|apply Hp]. intros g' a Hg'. cbv beta in Hg'.
  eapply holds_mono; [|apply Hf]. cbv beta. intros. lia.
Qed.

Lemma spends_bind_free {A B} k (p : pprog A) (f : A -> pprog B) :
  spends 0 p -> (forall a, spends k (f a)) -> spends k (p ≫= f).
Proof. intros Hp Hf. by apply (spends_bind 0 k). Qed.

Lemma spends_ret {A} n (a : A) : spends n (Ret a).
Proof. intros g. cbn. lia. Qed.

Lemma spends_call {X} n (e : PlannerEffect X) : (w X e <= n)%N -> spends n (call e).
Proof. intros He g. apply holds_perform; [exact I|]. intros x. cbn. lia. Qed.

Lemma spends_free {A} n (p : pprog A) : only (fun X e => w X e = 0%N) p -> spends n p.
Proof.
  intros Hp g. apply (holds_only _ _ (fun g' => g' <= g)%N _ _ _ Hp); [lia| |intros; lia].
  intros X g' e He Hg'. split; [exact I|]. intros x. cbn. rewrite He. lia.
Qed.

(** Only requests and waits cost something. *)
Hypothesis w_quiet : forall X (e : PlannerEffect X),
  match e with Complete _ _ _ _ | SleepMillis _ => True | _ => w X e = 0%N end.

Ltac is_free := cbv beta; match goal with |- w ?X ?e = _ => exact (w_quiet X e) end.

Lemma tool_steps_free intent turn tools l results prefs :
  only (fun X e => w X e = 0%N) (tool_steps intent turn tools l results prefs).
Proof.
  revert results prefs. induction l as [|tc l IH]; intros results prefs; cbn [call_tools]; [exact I|].
  ostep; [|ostep; [exact I|apply IH]].
  unfold call_tool, call_get_state, call_propose_plan, call_refuse, call_current_user, call_query, sanitized_result, log_rejection.
  destruct tc as [[[id call_id] name] input]. repeat first [ostep | apply only_or_panic | exact I | is_free].
Qed.

Lemma turns_spend per left intent system tools messages prefs :
  (forall system messages tools, spends per (complete_with_retry c system messages tools)) ->
  spends (N.of_nat left * per) (turns left intent system tools messages prefs).
Proof.
  intros Hper. revert messages prefs. induction left as [|left IH]; intros messages prefs; cbn [plan_turns]; [apply spends_ret|].
  apply spends_bind_free; [apply spends_call, N.eq_le_incl, (w_quiet _ (Emit _))|]. intros _.
  eapply (spends_bind per (N.of_nat left * per)); [apply Hper| |rewrite Nat2N.inj_succ, N.mul_succ_l; lia]. intros [completion|e]; [|apply spends_ret]. cbv zeta.
  destruct (stop_reason completion); [| |apply spends_ret].
  - destruct (_ && _); [apply IH|]. apply spends_free.
    repeat first [ostep | exact I | is_free].
  - destruct (tool_calls _); [apply spends_ret|].
    apply spends_bind_free; [apply spends_free, tool_steps_free|].
    intros [r|[results prefs']]; [apply spends_ret|apply IH].
Qed.

Lemma plan_spends per intent feedback :
  (forall system messages tools, spends per (complete_with_retry c system messages tools)) ->
  spends (N.of_nat (max_turns c) * per) (plan_with intent feedback).
Proof.
  intros Hper. unfold plan_intent_with_context, admit_request, check_and_consume, read_prefs_content. cbv zeta.
  destruct (is_empty _); [apply spends_ret|].
  apply spends_bind_free; [apply spends_free; repeat first [ostep | exact I | is_free]|].
  intros [[]|e]; [|apply spends_ret].
  apply spends_bind_free; [apply spends_free; repeat first [ostep | exact I | is_free]|].
  intros prefs. by apply turns_spend.
Qed.
End Cost.

Definition one_request X (e : PlannerEffect X) : N := match e with Complete _ _ _ _ => 1%N | _ => 0%N end.
Definition waited X (e : PlannerEffect X) : N := match e with SleepMillis n => n | _ => 0%N end.

Ltac spend_steps :=
  repeat first
    [ apply spends_ret
    | progress cbv zeta
    | match goal with
      | |- spends _ _ (match ?x with _ => _ end) => destruct x eqn:?
      | |- spends _ _ (if ?x then _ else _) => destruct x eqn:?
      end ].

Lemma check_free (w : forall X, PlannerEffect X -> N) n : w _ CheckAndConsume = 0%N -> spends w n (check_and_consume c).
Proof. intros Hw. unfold check_and_consume. destruct (has_rate_limiter c); [apply spends_call; lia|apply spends_ret]. Qed.

Lemma attempts_request retries system messages tools :
  spends one_request (N.of_nat (S retries)) (attempts retries system messages tools).
Proof.
  revert messages. induction retries as [|retries IH]; intros messages; cbn [complete_attempts].
  { eapply (spends_bind _ 1 0); [by apply spends_call|intros r; by spend_steps|done]. }
  eapply (spends_bind _ 1 (N.of_nat (S retries))); [by apply spends_call|intros r|lia]. spend_steps.
  apply spends_bind_free; [by apply check_free|]. intros [[]|]; [|apply spends_ret].
  apply spends_bind_free; [by apply spends_call|]. intros _.
  apply spends_bind_free; [by apply spends_call|]. intros _. apply IH.
Qed.

(** The longest wait before a retry. *)
Definition longest_backoff (retries : nat) : N :=
  (PROVIDER_RETRY_RATE_LIMIT_BACKOFF * 2 ^ N.of_nat (PROVIDER_RETRY_LIMIT - retries))%N.

Fixpoint longest_wait (retries : nat) : N :=
  match retries with O => 0 | S r => longest_backoff retries + longest_wait r end.

Lemma attempts_wait retries system messages tools :
  spends waited (longest_wait retries) (attempts retries system messages tools).
Proof.
  revert messages. induction retries as [|retries IH]; intros messages; cbn [complete_attempts].
  all: apply spends_bind_free; [by apply spends_call|]; intros r.
  - by spend_steps.
  - spend_steps. cbn [longest_wait].
    apply spends_bind_free; [by apply check_free|].
    intros [[]|]; [|apply spends_ret]. cbv zeta.
    apply spends_bind_free; [by apply spends_call|]. intros _.
    eapply (spends_bind _ (longest_backoff (S retries))); [apply spends_call| |reflexivity].
    + cbn [waited]. unfold longest_backoff. apply N.mul_le_mono_r.
      unfold PROVIDER_RETRY_RATE_LIMIT_BACKOFF, PROVIDER_RETRY_BACKOFF. repeat case_match; lia.
    + intros _. apply IH.
Qed.

(** C33: the provider only ever sees screened text: every request of a planning call
    carries the offered tools and a conversation that starts with the admitted
    intent — within the length limit and not flagged as sensitive — and otherwise
    holds the model's own messages, the planner's two fixed corrections, and tool
    results with their credentials redacted; with a rate limiter, a token was taken
    before. *)
Theorem provider_sees_screened_text intent feedback tr r pre system messages tools max_tokens x suf :
  runs (plan_with intent feedback) tr r ->
  tr = pre ++ mkEvent _ (Complete system messages tools max_tokens) x :: suf ->
  tools = tool_defs c /\ conversation messages /\ token_taken pre.
Proof. intros Hr. destruct (history_runs _ _ _ _ _ (plan_sent intent feedback) Hr) as [_ Ha]. apply Ha. Qed.

(** C29: a returned plan is a fenced proposal: the model called the plan tool with
    it in some answer of the run, and the plan is that proposal as the fence let it
    through — the trimmed intent, the proposal's steps one for one and in order,
    each a known action with the risk and the parameters proposed for it (an object, or
    the text of one), none an action or a parameter that needs a credential, and every
    text for the operator the proposal's as the normaliser left it, present, bounded
    and free of the prompt's tags. The preference changes it carries are not
    empty, and none to be remembered is flagged as sensitive. *)
Theorem returned_plans_are_fenced intent feedback tr plan :
  runs (plan_with intent feedback) tr (Ok plan) ->
  exists input plan0 prefs,
    proposed tr input /\ fenced_plan nfc json_from_str (str_trim intent) input plan0
    /\ plan = with_pref_changes plan0 prefs /\ Forall pref_ok prefs.
Proof. intros Hr. by destruct (history_runs _ _ _ _ _ (plan_sent intent feedback) Hr) as [Hp _]. Qed.

(** Planning only looks: whatever the model answers, the daemon is only asked for
    its curated state and for actions that the default policy opens to every caller,
    that the query path serves, and whose commands the catalogue calls low risk. *)
Theorem planning_only_observes intent feedback tr r :
  runs (plan_with intent feedback) tr r -> Forall (fun ev => planner_effect _ (ev_effect ev)) tr.
Proof. apply only_runs, plan_observes. Qed.

(** C35: planning is bounded: a planning call ends, sends at most three requests per
    allowed turn, and sleeps at most six seconds per turn between them. *)
Theorem planning_is_bounded intent feedback tr r :
  runs (plan_with intent feedback) tr r ->
  (total one_request tr <= 3 * N.of_nat (max_turns c))%N
  /\ (total waited tr <= 6000 * N.of_nat (max_turns c))%N.
Proof.
  intros Hr. split; rewrite N.mul_comm; (eapply spends_runs; [|exact Hr]); apply plan_spends.
  - by intros ? [].
  - intros. apply (attempts_request PROVIDER_RETRY_LIMIT).
  - by intros ? [].
  - intros. apply (attempts_wait PROVIDER_RETRY_LIMIT).
Qed.
End Runs.

(** ** A planner to run *)

Module PlannerSample.
Definition config : PlannerConfig := mkPlanner 4 true (Some "/home/alice/prefs.md") true (Some (mkHint "ubuntu" "debian" None)).
Definition flags (l : list string) (s : string) : bool := contains "hunter2" s.
Definition build (prefs : option string) (hint : option DistroHint) : string := append_prefs "You plan." prefs.
Definition plan_call (intent : string) : pprog (result PlanningError Plan) :=
  plan_intent (fun s => s) (fun s => s) (fun _ => "{}") toy_from_str flags build "join error" config intent.

(** The provider answers from a script; everything else goes well. *)
Definition answers (output : string) (script : list (result ProviderError Completion)) (X : Type) (e : PlannerEffect X)
    : option X * list (result ProviderError Completion) :=
  match e in PlannerEffect X return option X * _ with
  | Emit _ | LogRejection _ _ _ | Warn _ | SleepMillis _ => (Some tt, script)
  | Complete _ _ _ _ => (head script, tail script)
  | GetCuratedState => (Some (Ok "{}"), script)
  | QueryDaemon _ _ => (Some (Ok output), script)
  | CurrentUser => (Some (Ok "alice"), script)
  | CheckAndConsume => (Some (Ok tt), script)
  | ReadPrefsFile => (Some (Ok (Some "- prefer vim")), script)
  | PlannerPanic => (None, script)
  end.
Definition panics {X} (e : PlannerEffect X) : bool := match e with PlannerPanic => true | _ => false end.

(** The run on these answers, and its result, or whether it stopped at a panic. *)
Fixpoint play {A} (output : string) (script : list (result ProviderError Completion)) (p : pprog A)
    : list pevent * (A + bool) :=
  match p with
  | Ret a => ([], inl a)
  | Vis e k =>
      let '(x, script) := answers output script _ e in
      match x with
      | Some x => let '(tr, r) := play output script (k x) in (mkEvent _ e x :: tr, r)
      | None => ([], inr (panics e))
      end
  end.
Lemma play_planner_runs {A} output script (p : pprog A) tr a : play output script p = (tr, inl a) -> runs p tr a.
Proof.
  revert script tr. induction p as [b|X e k IH]; intros script tr; cbn [play]; [intros [= <- <-]; constructor|].
  destruct (answers output script X e) as [[x|] script']; [|intros H; discriminate H].
  destruct (play output script' (k x)) as [tr' r] eqn:E. intros [= <- ->]. constructor. by eapply IH.
Qed.

Definition ask (name : string) (input : json) : result ProviderError Completion :=
  Ok (mkCompletion [ToolUse "id" None name input] StopToolUse).
Definition script : list (result ProviderError Completion) := [
  Err (ProvParse "truncated"); ask "query_users" (JObj []); ask "remember" (JObj [("fact", JStr "keep logs")]);
  ask "propose_plan" (proposal (wifi_step (JStr "open")))].
Definition run : list pevent * (result PlanningError Plan + bool) := play "alice:1000" script (plan_call "  join cafe ").
Definition trace : list pevent := run.1.
Definition plan : Plan :=
  match run.2 with inl (Ok p) => p | _ => mkPlan "" "" "" [] [] end.

Lemma planner_trace_runs : runs (plan_call "  join cafe ") trace (Ok plan).
Proof. apply (play_planner_runs "alice:1000" script). vm_compute. reflexivity. Qed.

Definition is_request (ev : pevent) : bool := match ev_effect ev with Complete _ _ _ _ => true | _ => false end.
Definition is_token (ev : pevent) : bool := match ev_effect ev with CheckAndConsume => true | _ => false end.
Definition is_query (ev : pevent) : bool := match ev_effect ev with QueryDaemon _ _ => true | _ => false end.
Fixpoint position (p : pevent -> bool) (tr : list pevent) : nat :=
  match tr with [] => 0 | ev :: tr' => if p ev then 0 else S (position p tr') end.
End PlannerSample.

Section Witness.
Import PlannerSample.

Lemma request_at :
  trace !! position is_request trace
  = Some (mkEvent _ (Complete (build (Some "- prefer vim") None) [user_text "join cafe"] (tool_defs config)
                       PLANNING_MAX_TOKENS) (Err (ProvParse "truncated"))).
Proof. vm_compute. reflexivity. Qed.

Lemma provider_sees_screened_text_witness :
  token_taken config (take (position is_request trace) trace)
  /\ length (List.filter is_request trace) = 4.
Proof.
  split; [|vm_compute; reflexivity].
  exact (proj2 (proj2 (provider_sees_screened_text _ _ _ _ _ _ _ _ _ _ _ _ _ _ _ _ _ _ _ planner_trace_runs
                         (event_at _ _ _ request_at)))).
Defined.

Lemma returned_plans_are_fenced_witness :
  (exists input plan0 prefs,
    proposed trace input /\ fenced_plan (fun s => s) toy_from_str (str_trim "  join cafe ") input plan0
    /\ plan = with_pref_changes plan0 prefs /\ Forall (pref_ok flags) prefs)
  /\ plan_pref_changes plan = [mkPref Remember "keep logs"].
Proof.
  split; [|vm_compute; reflexivity].
  exact (returned_plans_are_fenced _ _ _ _ _ _ _ _ _ _ _ _ planner_trace_runs).
Defined.

Lemma planning_only_observes_witness :
  Forall (fun ev => planner_effect _ (ev_effect ev)) trace /\ existsb is_query trace = true.
Proof.
  split; [|vm_compute; reflexivity].
  exact (planning_only_observes _ _ _ _ _ _ _ _ _ _ _ _ planner_trace_runs).
Defined.

Lemma planning_is_bounded_witness :
  (total one_request trace <= 12)%N /\ (total waited trace <= 24000)%N.
Proof.
  exact (planning_is_bounded _ _ _ _ _ _ _ _ _ _ _ _ planner_trace_runs).
Defined.
End Witness.

(** ** What the model shows *)

(** Only the first request of a planning call and its retries take a token: here
    four requests take two. *)
Lemma turns_take_no_token :
  length (List.filter PlannerSample.is_request PlannerSample.trace) = 4
  /\ length (List.filter PlannerSample.is_token PlannerSample.trace) = 2.
Proof. vm_compute. split; reflexivity. Qed.

(** Five query tools are always refused by the daemon: the action behind each
    requires a user name the tool has no parameter for. *)
Definition missing_username (action : string) (params : json) : Prop :=
  build_action_spec action params = Err (MissingParam "username").

Lemma plain_queries_lack_username :
  Forall (fun action => missing_username action (JObj [])) ["ListContainers"; "ListFlatpakRemotes"; "ListToolboxes"].
Proof. repeat constructor. Qed.

Lemma info_queries_lack_username v :
  missing_username "GetFlatpakAppInfo" (JObj [("app_id", JStr v)])
  /\ missing_username "GetContainerInfo" (JObj [("name", JStr v)]).
Proof. split; lazy; reflexivity. Qed.

Lemma some_query_tools_never_work name input action params :
  In name ["query_containers"; "query_flatpak_remotes"; "query_toolboxes"; "query_flatpak_info"; "query_container_info"] ->
  query_tool_to_action name input = Ok (Some (action, params)) -> missing_username action params.
Proof.
  pose proof plain_queries_lack_username as Hp. rewrite !Forall_cons in Hp. destruct Hp as (P1 & P2 & P3 & _).
  intros [<-|[<-|[<-|[<-|[<-|[]]]]]] H.
  - change (plain_query "ListContainers" = Ok (Some (action, params))) in H. injection H as <- <-. exact P1.
  - change (plain_query "ListFlatpakRemotes" = Ok (Some (action, params))) in H. injection H as <- <-. exact P2.
  - change (plain_query "ListToolboxes" = Ok (Some (action, params))) in H. injection H as <- <-. exact P3.
  - change (param_query input "app_id" "query_flatpak_info" "GetFlatpakAppInfo" = Ok (Some (action, params))) in H.
    apply bind_Ok in H as (v & _ & H). injection H as <- <-. apply info_queries_lack_username.
  - change (param_query input "name" "query_container_info" "GetContainerInfo" = Ok (Some (action, params))) in H.
    apply bind_Ok in H as (v & _ & H). injection H as <- <-. apply info_queries_lack_username.
Qed.

(** One byte sequence in a tool's output ends the planner with a panic. *)
Lemma hostile_output_panics_planner :
  (PlannerSample.play (String ESC "€") (drop 1 PlannerSample.script) (PlannerSample.plan_call "join cafe")).2 = inr true.
Proof. vm_compute. reflexivity. Qed.
