(* ===== verification/Wire.v ===== *)
(** * The messages on the socket

    The JSON forms of the daemon's requests and responses
    (crates/sysknife-daemon/src/dispatcher.rs, lines 225 to 443, the envelopes of
    crates/sysknife-types/src/lib.rs and [DistroId]), as serde derives them from
    their attributes: an enum tagged by its [type] field, snake-case names, newtypes
    as bare strings. What serde writes is a definition here; what it reads back is
    a parameter, because its readers accept more than what was written, and
    [encodes_request] says which values have to be read as which request. *)

From Stdlib Require Import Ascii String NArith Lia.
From stdpp Require Import base list strings.
From S2P Require Import Prelude Json Types Distro Signing Store Program Effects Dispatcher.

(** [Debug] for [str], whose escapes follow Unicode tables. *)
Class StrDebug : Type := str_debug : string -> string.

Section Text.
Context `{StrDebug}.

Definition show_piece (p : piece) : string :=
  match p with Lit s => s | Dbg s => str_debug s end.

Definition show_text (t : text) : string := foldr (fun p s => show_piece p ++ s)%string EmptyString t.

Lemma show_text_lit s : show_text (lit s) = s.
Proof. unfold lit. cbn. apply str_app_nil. Qed.
End Text.

(** ** Values *)

Definition opt_value (o : option string) : json := match o with Some s => JStr s | None => JNull end.
Definition nat_value (n : N) : json := JNum (NPos n).
Definition opt_nat_value (o : option N) : json := match o with Some n => nat_value n | None => JNull end.
Definition strings_value (l : list string) : json := JArr (map JStr l).

Definition preview_value (p : PreviewEnvelope) : json := JObj [
  ("summary", JStr (prv_summary p)); ("risk_level", JStr (risk_str (prv_risk_level p)));
  ("current_state", prv_current_state p); ("proposed_change", prv_proposed_change p);
  ("expected_side_effects", strings_value (prv_expected_side_effects p));
  ("reboot_required", JBool (prv_reboot_required p));
  ("rollback_available", JBool (prv_rollback_available p));
  ("warnings", strings_value (prv_warnings p)); ("request_hash", JStr (prv_request_hash p))].

Definition history_value (h : JobHistoryEntry) : json := JObj [
  ("transaction_id", JStr (jh_transaction_id h)); ("action_name", JStr (jh_action_name h));
  ("risk_level", JStr (risk_str (jh_risk_level h))); ("status", JStr (job_state_str (jh_status h)));
  ("summary", JStr (jh_summary h)); ("created_at", JStr (jh_created_at h))].

(** A variant with fields is an object with the variant's name as its one key. *)
Definition distro_value (d : DistroId) : json :=
  let variant name fields := JObj [(name, JObj fields)] in
  match d with
  | Fedora v => variant "Fedora" [("version", nat_value v)]
  | FedoraSilverblue v => variant "FedoraSilverblue" [("version", nat_value v)]
  | Ubuntu major minor => variant "Ubuntu" [("major", nat_value major); ("minor", nat_value minor)]
  | UbuntuCore major minor => variant "UbuntuCore" [("major", nat_value major); ("minor", nat_value minor)]
  | Debian v => variant "Debian" [("version", opt_nat_value v)]
  | Other id version_id id_like =>
      variant "Other" [("id", JStr id); ("version_id", opt_value version_id); ("id_like", strings_value id_like)]
  end.

Definition collected_value (s : CollectedState) : json := JObj [
  ("host_distro", match cs_host_distro s with Some d => distro_value d | None => JNull end);
  ("host_name", JStr (cs_host_name s)); ("deployment", JStr (cs_deployment s));
  ("services", strings_value (cs_services s)); ("flatpaks", strings_value (cs_flatpaks s));
  ("toolboxes", strings_value (cs_toolboxes s));
  ("layered_packages", strings_value (cs_layered_packages s));
  ("containers", strings_value (cs_containers s)); ("users", strings_value (cs_users s));
  ("machine_id_hash", opt_value (cs_machine_id_hash s))].

Section Responses.
Context `{StrDebug}.

Definition job_result_value (r : JobResult) : json := JObj [
  ("status", JStr (jr_status r)); ("summary", JStr (show_text (jr_summary r)));
  ("warnings", strings_value (map show_text (jr_warnings r))); ("job_id", JStr (jr_job_id r));
  ("needs_reboot", JBool (jr_needs_reboot r)); ("rollback_ref", opt_value (jr_rollback_ref r));
  ("transaction_id", JStr (jr_transaction_id r))].

Definition response_value (r : DaemonResponse) : json :=
  let tagged name fields := JObj (("type", JStr name) :: fields) in
  match r with
  | StateResponse rid state =>
      tagged "state_response" [("request_id", JStr rid); ("state", collected_value state)]
  | PreviewResponse rid preview id =>
      tagged "preview_response" [("request_id", JStr rid); ("preview", preview_value preview);
                                 ("transaction_id", JStr id)]
  | ApprovalResponse rid id receipt =>
      tagged "approval_response" [("request_id", JStr rid); ("transaction_id", JStr id);
                                  ("approval_receipt", JStr receipt)]
  | ApprovalDetailsResponse rid id name preview =>
      tagged "approval_details_response" [("request_id", JStr rid); ("transaction_id", JStr id);
                                          ("action_name", JStr name); ("preview", preview_value preview)]
  | JobStarted rid job id =>
      tagged "job_started" [("request_id", JStr rid); ("job_id", JStr job); ("transaction_id", JStr id)]
  | JobProgress job line => tagged "job_progress" [("job_id", JStr job); ("line", JStr (show_text line))]
  | JobCompleted job result => tagged "job_completed" [("job_id", JStr job); ("result", job_result_value result)]
  | QueryActionResponse rid name output =>
      tagged "query_action_response" [("request_id", JStr rid); ("action_name", JStr name);
                                      ("output", JStr (show_text output))]
  | HistoryResponse rid entries =>
      tagged "history_response" [("request_id", JStr rid); ("entries", JArr (map history_value entries))]
  | CancelResponse rid id => tagged "cancel_response" [("request_id", JStr rid); ("transaction_id", JStr id)]
  | DescribeResponse rid command risk reboot =>
      tagged "describe_response" [("request_id", JStr rid); ("command", JStr (show_text command));
                                  ("risk_level", JStr risk); ("reboot_required", JBool reboot)]
  | ErrorResponse rid category message =>
      tagged "error_response" [("request_id", JStr rid); ("category", JStr category);
                               ("message", JStr (show_text message))]
  | ConflictResponse rid message retry =>
      tagged "conflict_response" [("request_id", JStr rid); ("message", JStr (show_text message));
                                  ("retry_after_seconds", opt_nat_value retry)]
  end.
End Responses.

(** ** Requests *)

(** The field of an object that an [Option<A>] is read from: absent and null are
    both [None]. *)
Definition reads_option {A} (enc : A -> json) (o : option A) (field : option json) : Prop :=
  match o with
  | Some a => field = Some (enc a)
  | None => field = None \/ field = Some JNull
  end.

Definition request_tag (r : DaemonRequest) : string :=
  match r with
  | QueryState _ => "query_state"
  | Preview _ _ _ _ => "preview"
  | ApproveRequest _ _ => "approve"
  | ApprovalDetails _ _ => "approval_details"
  | ExecuteRequest _ _ _ _ _ => "execute"
  | CancelRequest _ _ => "cancel"
  | QueryAction _ _ _ => "query_action"
  | QueryHistory _ _ _ _ _ _ => "query_history"
  | Describe _ _ _ => "describe"
  end.

(** The value is the request: its tag and every field of the variant are there,
    with [#[serde(default)]] a missing [unattended] is false, and fields the
    variant does not have are not looked at. *)
Definition encodes_request (r : DaemonRequest) (v : json) : Prop :=
  let str k s := jget k v = Some (JStr s) in
  let u32 (o : option N) := from_option (fun n => n <= U32_MAX)%N True o in
  str "type" (request_tag r) /\
  match r with
  | QueryState rid => str "request_id" rid
  | Preview rid name params unattended =>
      str "request_id" rid /\ str "action_name" name /\ jget "params" v = Some params
      /\ (jget "unattended" v = Some (JBool unattended) \/ jget "unattended" v = None /\ unattended = false)
  | ApproveRequest rid id | ApprovalDetails rid id | CancelRequest rid id =>
      str "request_id" rid /\ str "transaction_id" id
  | ExecuteRequest rid id name params receipt =>
      str "request_id" rid /\ str "transaction_id" id /\ str "action_name" name
      /\ jget "params" v = Some params /\ str "approval_receipt" receipt
  | QueryAction rid name params | Describe rid name params =>
      str "request_id" rid /\ str "action_name" name /\ jget "params" v = Some params
  | QueryHistory rid limit status_filter action_filter since_hours since =>
      str "request_id" rid
      /\ u32 limit /\ reads_option nat_value limit (jget "limit" v)
      /\ reads_option JStr status_filter (jget "status_filter" v)
      /\ reads_option JStr action_filter (jget "action_filter" v)
      /\ u32 since_hours /\ reads_option nat_value since_hours (jget "since_hours" v)
      /\ reads_option JStr since (jget "since" v)
  end.

(** ** Terminal frames

    A request is answered by one of these; a job that started is first reported by
    other frames. *)
Definition is_final (r : DaemonResponse) : bool :=
  match r with JobStarted _ _ _ | JobProgress _ _ => false | _ => true end.

(** The frames a handler got through to the peer, in order. *)
Definition sent_frame (ev : event) : option DaemonResponse :=
  match ev with
  | mkEvent X e x =>
      match e in effect X return X -> option DaemonResponse with
      | Send r => fun x => match x with Ok _ => Some r | Err _ => None end
      | _ => fun _ => None
      end x
  end.
Definition sent (tr : list event) : list DaemonResponse := omap sent_frame tr.

Definition failed_send (ev : event) : bool :=
  match ev with
  | mkEvent X e x =>
      match e in effect X return X -> bool with
      | Send _ => fun x => match x with Ok _ => false | Err _ => true end
      | _ => fun _ => false
      end x
  end.

Lemma sent_app t1 t2 : sent (t1 ++ t2) = sent t1 ++ sent t2.
Proof. apply omap_app. Qed.

Lemma sent_snoc tr ev : sent (tr ++ [ev]) = sent tr ++ option_list (sent_frame ev).
Proof. by rewrite sent_app. Qed.

(** A frame that got through is a [Send] of the run. *)
Lemma sent_in (tr : list event) r :
  r ∈ sent tr -> exists pre x suf, tr = pre ++ mkEvent _ (Send r) (Ok x) :: suf.
Proof.
  unfold sent. rewrite list_elem_of_omap. intros ([X e x] & Hin & Hs). cbn in Hs.
  apply list_elem_of_split in Hin as (pre & suf & ->).
  destruct e; try discriminate Hs. destruct x as [x|]; [|discriminate Hs]. simplify_eq. by eauto.
Qed.
