(* ===== verification/Client.v ===== *)
(** * The daemon client

    apps/sysknife-cli/src/client.rs: where the daemon listens, the client's side of
    the framing, and the operations the command line and the planner use, each one
    connection, one request and its reply, or the frames of an execution.
    [CuratedState] is crates/sysknife-brain/src/state_client.rs. What the socket
    does is an argument ([Link]); a request is the JSON value that is written. *)

From Stdlib Require Import Ascii String NArith Lia.
From stdpp Require Import base list strings.
From S2P Require Import Prelude Json Types Distro Framing Store Approval PlanTools.

(** ** Where the daemon listens *)

Inductive SocketTarget : Type :=
| Unix (path : string)
| Vsock (cid port : N).

Definition try_from_str (s : string) : result string SocketTarget :=
  match strip_prefix "vsock://" s with
  | Some rest =>
      match split_once ":"%char rest with
      | None => Err ("vsock URI must be vsock://CID:PORT, got: " ++ s)%string
      | Some (cid_str, port_str) =>
          match parse_uint U32_MAX cid_str with
          | None => Err ("invalid CID in vsock URI: " ++ s)%string
          | Some cid =>
              match parse_uint U32_MAX port_str with
              | None => Err ("invalid port in vsock URI: " ++ s)%string
              | Some port => Ok (Vsock cid port)
              end
          end
      end
  | None =>
      match strip_prefix "unix://" s with
      | Some path => Ok (Unix path)
      | None => Ok (Unix s)
      end
  end.

Definition label (t : SocketTarget) : string :=
  match t with
  | Unix path => "unix://" ++ path
  | Vsock cid port => "vsock://" ++ dec_of_N cid ++ ":" ++ dec_of_N port
  end%string.

(** ** Framing *)

Definition write_framed (msg : bytes) : result string bytes :=
  let len := N.of_nat (length msg) in
  if (U32_MAX <? len)%N then Err "message too large" else Ok (to_le_bytes len ++ msg).

Section Frames.
(** [Display] of an I/O error. *)
Variable show_io : IoError -> string.

Definition read_framed (st : list event) : result string bytes * list event :=
  let '(h, st1, _) := read_exact 4 st in
  match h with
  | Err e => (Err (show_io e), st1)
  | Ok len_buf =>
      let len := from_le_bytes len_buf in
      if (MAX_MESSAGE_BYTES <? len)%N then (Err ("frame too large: " ++ dec_of_N len ++ " bytes")%string, st1)
      else
        let '(b, st2, _) := read_exact (N.to_nat len) st1 in
        (match b with Ok buf => Ok buf | Err e => Err (show_io e) end, st2)
  end.
End Frames.

(** ** What the socket does *)

Definition SOCKET_TIMEOUT : N := 10.
Definition EXECUTE_FRAME_TIMEOUT : N := 2 * 60 * 60 + 300.

(** One read of a frame: how long the daemon was silent, and what it ended with. *)
Record Reply : Type := mkReply { rp_waited_ms : N; rp_answer : result string bytes }.

(** A connection as it will go: [None] is an attempt that was still pending when its
    deadline passed, the end of [ln_reads] a daemon that stays silent. *)
Record Link : Type := mkLink {
  ln_unix : option (result string ());
  ln_vsock : result string ();
  ln_set_timeout : result string ();
  ln_token : option string;
  ln_auth : option (result string ());
  ln_write : option (result string ());
  ln_reads : list Reply }.

(** The answer to a read that timed out in the kernel. *)
Definition WOULD_BLOCK : string := "Resource temporarily unavailable (os error 11)".

(** serde_json, the derived readers and the crate that strips escape sequences. *)
Class ClientEnv : Type := {
  to_vec : json -> result string bytes;
  from_slice : bytes -> result string json;
  preview_from_value : json -> result string PreviewEnvelope;
  result_from_value : json -> result string ResultEnvelope;
  history_from_value : json -> result string (list JobHistoryEntry);
  distro_from_value : json -> option DistroId;
  debug_value : json -> string;
  display_value : json -> string;
  strip_ansi : string -> string }.

(** [v[key]]: null when there is no such field. *)
Definition jidx (k : string) (v : json) : json := default JNull (jget k v).
Definition str_or (fallback : string) (v : json) : string := default fallback (as_str v).

(** ** The state the planner sees *)

Record CuratedState : Type := mkCurated {
  cu_host_name : string; cu_deployment : string; cu_services : list string;
  cu_flatpaks : list string; cu_toolboxes : list string; cu_layered_packages : list string;
  cu_containers : list string; cu_users : list string }.

Definition curated_new (host_name deployment : string)
    (services flatpaks toolboxes layered_packages containers users : list string)
    : result string CuratedState :=
  if (host_name =? "")%string then Err "host_name must not be empty"
  else Ok (mkCurated host_name deployment services flatpaks toolboxes layered_packages containers users).

Fixpoint strings_from (field : string) (i : N) (l : list json) : result PlanningError (list string) :=
  match l with
  | [] => Ok []
  | x :: l' =>
      match as_str x with
      | None => Err (StateUnavailable ("field '" ++ field ++ "[" ++ dec_of_N i ++ "]' is not a string")%string)
      | Some s => rest ← strings_from field (i + 1) l'; Ok (s :: rest)
      end
  end.

Definition string_array (field : string) (v : json) : result PlanningError (list string) :=
  if is_null v then Ok []
  else
    match as_array v with
    | None => Err (StateUnavailable ("field '" ++ field ++ "' is not an array")%string)
    | Some arr => strings_from field 0 arr
    end.

(** ** Requests *)

Definition auth_request (token : string) : json := JObj [("type", JStr "auth"); ("token", JStr token)].
Definition state_request (request_id : string) : json :=
  JObj [("type", JStr "query_state"); ("request_id", JStr request_id)].
Definition query_action_request (name : string) (params : json) : json :=
  JObj [("type", JStr "query_action"); ("request_id", JStr ("cli-query-" ++ name)%string);
        ("action_name", JStr name); ("params", params)].
Definition query_history_request (limit : option N) (status_filter action_filter since : option string) : json :=
  let opt o := match o with Some s => JStr s | None => JNull end in
  JObj [("type", JStr "query_history"); ("request_id", JStr "cli-query-history");
        ("limit", match limit with Some n => JNum (NPos n) | None => JNull end);
        ("status_filter", opt status_filter); ("action_filter", opt action_filter); ("since", opt since)].
Definition preview_request (name : string) (params : json) (unattended : bool) : json :=
  JObj [("type", JStr "preview"); ("request_id", JStr ("cli-preview-" ++ name)%string);
        ("action_name", JStr name); ("params", params); ("unattended", JBool unattended)].
Definition approval_details_request (id : string) : json :=
  JObj [("type", JStr "approval_details"); ("request_id", JStr ("cli-approval-details-" ++ id)%string);
        ("transaction_id", JStr id)].
Definition approve_request (id : string) : json :=
  JObj [("type", JStr "approve"); ("request_id", JStr ("cli-approve-" ++ id)%string);
        ("transaction_id", JStr id)].
Definition describe_request (name : string) (params : json) : json :=
  JObj [("type", JStr "describe"); ("request_id", JStr ("cli-describe-" ++ name)%string);
        ("action_name", JStr name); ("params", params)].
Definition execute_request (id name : string) (params : json) (receipt : string) : json :=
  JObj [("type", JStr "execute"); ("request_id", JStr ("cli-exec-" ++ name)%string);
        ("transaction_id", JStr id); ("action_name", JStr name); ("params", params);
        ("approval_receipt", JStr receipt)].

(** ** Connecting and one exchange *)

Section Client.
Context `{ClientEnv}.

Definition NO_TOKEN : string :=
  "SYSKNIFE_TOKEN is not set; vsock connections require a pre-shared token".

(** [vsock_token]: an empty variable is no token. *)
Definition vsock_token (link : Link) : option string :=
  t ← ln_token link; if (t =? "")%string then None else Some t.

(** Writing a frame: refused for its length, or as the socket answers. *)
Definition write_outcome (answer : option (result string ())) (v : bytes) : option (result string ()) :=
  match write_framed v with Err e => Some (Err e) | Ok _ => answer end.

Definition connect_async (target : SocketTarget) (link : Link) : result CliError () :=
  match target with
  | Unix path =>
      match ln_unix link with
      | None => Err (ConfigOrDaemon ("timed out connecting to " ++ path)%string)
      | Some (Err e) => Err (ConfigOrDaemon ("cannot connect to " ++ path ++ ": " ++ e)%string)
      | Some (Ok _) => Ok tt
      end
  | Vsock cid port =>
      match ln_vsock link with
      | Err e => Err (ConfigOrDaemon ("cannot connect to vsock " ++ dec_of_N cid ++ ":" ++ dec_of_N port ++ ": " ++ e)%string)
      | Ok _ =>
          match vsock_token link with
          | None => Err (ConfigOrDaemon NO_TOKEN)
          | Some token =>
              match to_vec (auth_request token) with
              | Err e => Err (ConfigOrDaemon ("serialize auth: " ++ e)%string)
              | Ok auth_bytes =>
                  match write_outcome (ln_auth link) auth_bytes with
                  | None => Err (ConfigOrDaemon "auth frame send timed out")
                  | Some (Err e) => Err (ConfigOrDaemon ("send auth: " ++ e)%string)
                  | Some (Ok _) => Ok tt
                  end
              end
          end
      end
  end.

Definition unavailable {A} (what e : string) : result PlanningError A :=
  Err (StateUnavailable (what ++ e)%string).

Definition connect_sync (target : SocketTarget) (link : Link) : result PlanningError () :=
  let unreachable e := unavailable ("cannot reach the SysKnife daemon at " ++ label target ++ ": ")%string e in
  match target with
  | Unix _ =>
      match ln_unix link with
      | Some (Ok _) => match ln_set_timeout link with Ok _ => Ok tt | Err e => unavailable "set timeout: " e end
      | Some (Err e) => unreachable e
      | None => unreachable WOULD_BLOCK
      end
  | Vsock _ _ =>
      match ln_vsock link with
      | Err e => unreachable e
      | Ok _ =>
          match ln_set_timeout link with
          | Err e => unavailable "set timeout: " e
          | Ok _ =>
              match vsock_token link with
              | None => Err (StateUnavailable NO_TOKEN)
              | Some token =>
                  match to_vec (auth_request token) with
                  | Err e => unavailable "serialize auth: " e
                  | Ok auth_bytes =>
                      match write_outcome (ln_auth link) auth_bytes with
                      | Some (Ok _) => Ok tt
                      | Some (Err e) => unavailable "send auth: " e
                      | None => unavailable "send auth: " WOULD_BLOCK
                      end
                  end
              end
          end
      end
  end.

(** [tokio::time::timeout(secs, stream.read_frame())] *)
Definition read_within (secs : N) (reads : list Reply) : option (result string bytes) :=
  match reads with
  | [] => None
  | r :: _ => if (rp_waited_ms r <=? secs * 1000)%N then Some (rp_answer r) else None
  end.

Definition SEND_TIMED_OUT : string :=
  "timed out after " ++ dec_of_N SOCKET_TIMEOUT ++ "s sending the request to the daemon".
Definition read_timed_out (secs : N) : string :=
  "timed out after " ++ dec_of_N secs
  ++ "s waiting for the next frame from the daemon; the job may still be running server-side".

(** The steps the one-reply operations share: connect, serialise, write, read, parse. *)
Definition exchange (target : SocketTarget) (link : Link) (req : json) : result CliError json :=
  _ ← connect_async target link;
  match to_vec req with
  | Err e => Err (ConfigOrDaemon ("serialize: " ++ e)%string)
  | Ok bs =>
      match write_outcome (ln_write link) bs with
      | None => Err (ConfigOrDaemon SEND_TIMED_OUT)
      | Some (Err e) => Err (ConfigOrDaemon ("send: " ++ e)%string)
      | Some (Ok _) =>
          match read_within SOCKET_TIMEOUT (ln_reads link) with
          | None => Err (ConfigOrDaemon (read_timed_out SOCKET_TIMEOUT))
          | Some (Err e) => Err (ConfigOrDaemon ("recv: " ++ e)%string)
          | Some (Ok raw) =>
              match from_slice raw with
              | Err e => Err (ConfigOrDaemon ("parse response: " ++ e)%string)
              | Ok resp => Ok resp
              end
          end
      end
  end.

Definition exchange_sync (target : SocketTarget) (link : Link) (req : json) : result PlanningError json :=
  _ ← connect_sync target link;
  match to_vec req with
  | Err e => unavailable "serialize: " e
  | Ok bs =>
      match write_outcome (ln_write link) bs with
      | None => unavailable "send: " WOULD_BLOCK
      | Some (Err e) => unavailable "send: " e
      | Some (Ok _) =>
          match ln_reads link with
          | [] => unavailable "recv: " WOULD_BLOCK
          | r :: _ =>
              match rp_answer r with
              | Err e => unavailable "recv: " e
              | Ok raw => match from_slice raw with Err e => unavailable "parse: " e | Ok resp => Ok resp end
              end
          end
      end
  end.

Definition kind (resp : json) : option string := as_str (jidx "type" resp).
Definition is_kind (name : string) (resp : json) : bool :=
  match kind resp with Some k => (k =? name)%string | None => false end.

Definition category_message (resp : json) : string :=
  str_or "error" (jidx "category" resp) ++ ": " ++ str_or "unknown" (jidx "message" resp).
Definition unexpected_type (resp : json) : string :=
  "unexpected response type: " ++ debug_value (jidx "type" resp).

(** The answer of the operations that fail as a planning error. *)
Definition daemon_error {A} (resp : json) : result PlanningError A :=
  if is_kind "error_response" resp then unavailable "daemon error: " (str_or "unknown" (jidx "message" resp))
  else Err (StateUnavailable "unexpected response type").

(** ** Blocking operations *)

Definition state_with_distro (target : SocketTarget) (link : Link)
    : result PlanningError (CuratedState * option DistroId) :=
  resp ← exchange_sync target link (state_request "cli-state");
  if is_kind "state_response" resp then
    match jget "state" resp with
    | None => Err (StateUnavailable "missing state field")
    | Some s =>
        match as_str (jidx "host_name" s) with
        | None => Err (StateUnavailable "missing host_name")
        | Some host =>
            services ← string_array "services" (jidx "services" s);
            flatpaks ← string_array "flatpaks" (jidx "flatpaks" s);
            toolboxes ← string_array "toolboxes" (jidx "toolboxes" s);
            layered_packages ← string_array "layered_packages" (jidx "layered_packages" s);
            containers ← string_array "containers" (jidx "containers" s);
            users ← string_array "users" (jidx "users" s);
            match curated_new host (str_or "" (jidx "deployment" s)) services flatpaks toolboxes
                    layered_packages containers users with
            | Err e => Err (StateUnavailable e)
            | Ok state => Ok (state, jget "host_distro" s ≫= distro_from_value)
            end
        end
    end
  else daemon_error resp.

Definition curated_state (target : SocketTarget) (link : Link) : result PlanningError CuratedState :=
  fst <$> state_with_distro target link.

Definition machine_id_hash (target : SocketTarget) (link : Link) : option string :=
  match exchange_sync target link (state_request "cli-machine-id") with
  | Err _ => None
  | Ok resp =>
      state ← jget "state" resp;
      hash ← jget "machine_id_hash" state ≫= as_str;
      if (hash =? "")%string then None else Some hash
  end.

Definition query_action (target : SocketTarget) (link : Link) (name : string) (params : json)
    : result PlanningError string :=
  resp ← exchange_sync target link (query_action_request name params);
  if is_kind "query_action_response" resp then
    match as_str (jidx "output" resp) with
    | None => Err (StateUnavailable "query_action_response missing 'output' string field")
    | Some output => Ok (strip_ansi output)
    end
  else daemon_error resp.

Definition query_history (target : SocketTarget) (link : Link) (limit : option N)
    (status_filter action_filter since : option string) : result PlanningError (list JobHistoryEntry) :=
  resp ← exchange_sync target link (query_history_request limit status_filter action_filter since);
  if is_kind "history_response" resp then
    match history_from_value (jidx "entries" resp) with
    | Err e => unavailable "parse entries: " e
    | Ok entries => Ok entries
    end
  else daemon_error resp.

(** *** The distribution plans are made for *)

Record TargetDistro : Type := mkTarget { td_distro : option DistroId; td_source : string }.

(** [detected] is the local detection; it is not tried when the daemon answered. *)
Definition resolve_with (remote detected : option DistroId) : TargetDistro :=
  match remote with
  | Some distro => mkTarget (Some distro) "daemon"
  | None => mkTarget detected "local fallback"
  end.

Definition target_distro_with (target : SocketTarget) (link : Link) (detected : option DistroId) : TargetDistro :=
  resolve_with (match state_with_distro target link with Ok (_, d) => d | Err _ => None end) detected.

Definition target_label (t : TargetDistro) : string :=
  match td_distro t with Some d => distro_display d | None => "unknown" end.

Definition target_warning (t : TargetDistro) : option string :=
  if (td_source t =? "daemon")%string then None
  else Some "daemon distro unavailable; using local fallback. The daemon may be unreachable or too old to report its distro. Restart the MCP server after the daemon is ready to refresh its tool list.".

(** ** Previews, approvals, descriptions *)

Record PreparedPreview : Type := mkPrepared { pp_transaction_id : string; pp_preview : PreviewEnvelope }.
Record ApprovalView : Type := mkApprovalView {
  av_transaction_id : string; av_action_name : string; av_preview : PreviewEnvelope }.

Definition nonempty (v : json) : option string :=
  s ← as_str v; if (s =? "")%string then None else Some s.

Definition preview_declaring (target : SocketTarget) (link : Link) (name : string) (params : json)
    (unattended : bool) : result CliError PreparedPreview :=
  resp ← exchange target link (preview_request name params unattended);
  if is_kind "preview_response" resp then
    match preview_from_value (jidx "preview" resp) with
    | Err e => Err (ConfigOrDaemon ("parse preview envelope: " ++ e)%string)
    | Ok envelope =>
        match nonempty (jidx "transaction_id" resp) with
        | None => Err (ConfigOrDaemon "preview_response missing transaction_id")
        | Some id => Ok (mkPrepared id envelope)
        end
    end
  else if is_kind "error_response" resp then Err (PlanningFailed (category_message resp))
  else Err (ConfigOrDaemon (unexpected_type resp)).

Definition preview (target : SocketTarget) (link : Link) (name : string) (params : json)
    : result CliError PreparedPreview :=
  preview_declaring target link name params false.

Definition required (field : string) (resp : json) : result CliError string :=
  match nonempty (jidx field resp) with
  | Some s => Ok s
  | None => Err (ConfigOrDaemon ("approval_details_response missing " ++ field)%string)
  end.

Definition category_in (what : string) (resp : json) : CliError :=
  ConfigOrDaemon (what ++ " (" ++ str_or "error" (jidx "category" resp) ++ "): "
                  ++ str_or "unknown" (jidx "message" resp))%string.

Definition approval_details (target : SocketTarget) (link : Link) (id : string) : result CliError ApprovalView :=
  resp ← exchange target link (approval_details_request id);
  if is_kind "approval_details_response" resp then
    transaction_id ← required "transaction_id" resp;
    action_name ← required "action_name" resp;
    match preview_from_value (jidx "preview" resp) with
    | Err e => Err (ConfigOrDaemon ("parse approval preview: " ++ e)%string)
    | Ok preview => Ok (mkApprovalView transaction_id action_name preview)
    end
  else if is_kind "error_response" resp then Err (category_in "approval lookup failed" resp)
  else Err (ConfigOrDaemon (unexpected_type resp)).

(** The receipt the daemon minted. *)
Definition approve (target : SocketTarget) (link : Link) (id : string) : result CliError string :=
  resp ← exchange target link (approve_request id);
  if is_kind "approval_response" resp then
    match nonempty (jidx "approval_receipt" resp) with
    | Some receipt => Ok receipt
    | None => Err (ConfigOrDaemon "approval_response missing approval_receipt")
    end
  else if is_kind "error_response" resp then Err (category_in "approval rejected" resp)
  else Err (ConfigOrDaemon (unexpected_type resp)).

Definition describe (target : SocketTarget) (link : Link) (name : string) (params : json)
    : result CliError string :=
  resp ← exchange target link (describe_request name params);
  if is_kind "describe_response" resp then Ok (str_or "" (jidx "command" resp))
  else if is_kind "error_response" resp then Err (PlanningFailed (category_message resp))
  else Err (ConfigOrDaemon ("unexpected response type: " ++ display_value (jidx "type" resp))%string).

(** ** Executing *)

Record ExecuteFailure : Type := mkFailure { ef_error : CliError; ef_outcome_unknown : bool }.

Definition failed (error : CliError) : ExecuteFailure := mkFailure error false.
Definition unknown (error : CliError) : ExecuteFailure := mkFailure error true.
Definition unknown_execution (e : string) : ExecuteFailure := unknown (ExecutionFailed e).

(** The frames of an execution: the lines shown, and how it ended. *)
Fixpoint execute_frames (reads : list Reply) : list string * result ExecuteFailure ResultEnvelope :=
  match reads with
  | [] => ([], Err (unknown_execution (read_timed_out EXECUTE_FRAME_TIMEOUT)))
  | r :: reads' =>
      if negb (rp_waited_ms r <=? EXECUTE_FRAME_TIMEOUT * 1000)%N
      then ([], Err (unknown_execution (read_timed_out EXECUTE_FRAME_TIMEOUT)))
      else
        match rp_answer r with
        | Err e => ([], Err (unknown_execution ("recv: " ++ e)%string))
        | Ok raw =>
            match from_slice raw with
            | Err e => ([], Err (unknown_execution ("parse: " ++ e)%string))
            | Ok resp =>
                if is_kind "job_started" resp then execute_frames reads'
                else if is_kind "job_progress" resp then
                  match as_str (jidx "line" resp) with
                  | None => ([], Err (unknown_execution "job_progress message missing 'line' string field"))
                  | Some line =>
                      let '(lines, outcome) := execute_frames reads' in (strip_ansi line :: lines, outcome)
                  end
                else if is_kind "job_completed" resp then
                  ([], match result_from_value (jidx "result" resp) with
                       | Err e => Err (unknown_execution ("parse result: " ++ e)%string)
                       | Ok envelope => Ok envelope
                       end)
                else if is_kind "error_response" resp then
                  ([], Err (failed (ExecutionFailed (category_message resp))))
                else if is_kind "conflict_response" resp then
                  ([], Err (match as_str (jidx "message" resp) with
                            | None => unknown_execution "conflict_response message missing 'message' string field"
                            | Some message => failed (ExecutionFailed ("conflict: " ++ message)%string)
                            end))
                else ([], Err (unknown_execution (unexpected_type resp)))
            end
        end
  end.

Definition execute_with_outcome (target : SocketTarget) (link : Link) (id name : string) (params : json)
    (receipt : string) : list string * result ExecuteFailure ResultEnvelope :=
  match connect_async target link with
  | Err e => ([], Err (failed e))
  | Ok _ =>
      match to_vec (execute_request id name params receipt) with
      | Err e => ([], Err (failed (ConfigOrDaemon ("serialize: " ++ e)%string)))
      | Ok bs =>
          match write_outcome (ln_write link) bs with
          | None => ([], Err (unknown (ConfigOrDaemon SEND_TIMED_OUT)))
          | Some (Err e) => ([], Err (unknown (ConfigOrDaemon ("send: " ++ e)%string)))
          | Some (Ok _) => execute_frames (ln_reads link)
          end
      end
  end.

Definition execute (target : SocketTarget) (link : Link) (id name : string) (params : json) (receipt : string)
    : list string * result CliError ResultEnvelope :=
  let '(lines, outcome) := execute_with_outcome target link id name params receipt in
  (lines, match outcome with Ok r => Ok r | Err f => Err (ef_error f) end).
End Client.

(** ** Properties of the socket's two ends *)

Lemma parse_dec_u32 n : (n <= U32_MAX)%N -> parse_uint U32_MAX (dec_of_N n) = Some n.
Proof. apply parse_dec_of_N. Qed.

Lemma label_of_path path : try_from_str (label (Unix path)) = Ok (Unix path).
Proof.
  unfold try_from_str, label.
  assert (strip_prefix "vsock://" ("unix://" ++ path)%string = None) as -> by reflexivity.
  by rewrite (proj2 (strip_prefix_spec _ _ path)).
Qed.

(** The label of a target can be pasted back: it names that target. *)
Lemma label_roundtrip t :
  match t with Vsock cid port => (cid <= U32_MAX)%N /\ (port <= U32_MAX)%N | Unix _ => True end ->
  try_from_str (label t) = Ok t.
Proof.
  destruct t as [path|cid port]; [intros _; apply label_of_path|]. intros [Hc Hp].
  unfold try_from_str, label. rewrite (proj2 (strip_prefix_spec _ _ _) eq_refl).
  rewrite (proj2 (split_once_spec ":"%char _ (dec_of_N cid) (dec_of_N port))).
  - by rewrite !parse_dec_u32.
  - split; [done|]. by apply (str_all_not_has is_digit), dec_of_N_digits.
Qed.

(** What the client makes of what [recv] answers on the same bytes. *)
Definition client_answer (show_io : IoError -> string) (a : result FramingError bytes) : result string bytes :=
  match a with
  | Ok body => Ok body
  | Err (MessageTooLarge n) => Err ("frame too large: " ++ dec_of_N n ++ " bytes")%string
  | Err (Io e) => Err (show_io e)
  end.

Lemma read_exact_spec0 n st :
  no_io_error st ->
  exists st' wants,
    read_exact n st =
      (if length (carried st) <? n then Err UnexpectedEof else Ok (take n (carried st)), st', wants)
    /\ no_io_error st'
    /\ (n <= length (carried st) -> carried st' = drop n (carried st)).
Proof.
  intros Hst. destruct n as [|n].
  - exists st, []. split_and!; [|done|by rewrite drop_0]. by rewrite take_0.
  - destruct (read_exact_spec (S n) st ltac:(lia) Hst) as (st' & w & E & Hst' & Hd & _). eauto.
Qed.

Lemma read_framed_spec show_io st :
  no_io_error st ->
  exists st', read_framed show_io st = (client_answer show_io (recv_answer (carried st)), st')
    /\ no_io_error st'
    /\ (forall body, recv_answer (carried st) = Ok body ->
        carried st' = drop (length body) (drop 4 (carried st))).
Proof.
  intros Hst. destruct (read_exact_spec0 4 st Hst) as (st1 & w1 & E & Hst1 & Hd1).
  unfold read_framed, recv_answer. rewrite E. clear E.
  destruct (Nat.ltb_spec (length (carried st)) 4); [by exists st1|]. specialize (Hd1 ltac:(lia)).
  cbv zeta. set (len := from_le_bytes (take 4 (carried st))). case_match; [by exists st1|].
  destruct (read_exact_spec0 (N.to_nat len) st1 Hst1) as (st2 & w2 & E2 & Hst2 & Hd2).
  rewrite E2, Hd1 in *. exists st2. split_and!; [by case_match|done|].
  case_match eqn:El; [done|]. intros body [= <-]. apply Nat.ltb_ge in El.
  rewrite Hd2 by done. by rewrite length_take_le by done.
Qed.

(** The client writes the frames the daemon's own sender writes, as long as they are
    within the bound; the client itself does not check the bound, and a larger
    message is refused by its reader. *)
Lemma write_framed_send msg :
  (N.of_nat (length msg) <= MAX_MESSAGE_BYTES)%N -> exists frame, write_framed msg = Ok frame /\ send msg = Ok frame.
Proof.
  intros Hl. unfold write_framed, send.
  rewrite (proj2 (N.ltb_ge U32_MAX _)) by (unfold MAX_MESSAGE_BYTES, U32_MAX in *; lia).
  rewrite (proj2 (N.ltb_ge MAX_MESSAGE_BYTES _)) by done. by eexists.
Qed.

Lemma write_framed_oversized msg frame :
  (MAX_MESSAGE_BYTES < N.of_nat (length msg))%N -> write_framed msg = Ok frame ->
  recv_answer frame = Err (MessageTooLarge (N.of_nat (length msg))).
Proof.
  unfold write_framed. intros Hl H. case_match eqn:E; [done|]. apply N.ltb_ge in E.
  assert (frame = to_le_bytes (N.of_nat (length msg)) ++ msg) as -> by congruence. clear H.
  unfold recv_answer. rewrite (proj2 (Nat.ltb_ge _ 4)) by (rewrite length_app, length_to_le_bytes; lia).
  assert (Ht : from_le_bytes (take 4 (to_le_bytes (N.of_nat (length msg)) ++ msg)) = N.of_nat (length msg))
    by exact (from_to_le_bytes _ E).
  cbv zeta. rewrite Ht. by rewrite (proj2 (N.ltb_lt _ _) Hl).
Qed.

(** The two ends of the socket read frames alike. On every stream, however its
    bytes are cut into segments, the client's reader answers what the daemon's
    answers (an over-long length, a short header or body, or the body) and leaves
    the same bytes for the next read. *)
Theorem both_ends_frame_alike show_io st :
  no_io_error st ->
  exists st1 st2 wants,
    read_framed show_io st = (client_answer show_io (recv_answer (carried st)), st1)
    /\ recv st = (recv_answer (carried st), st2, wants)
    /\ forall body, recv_answer (carried st) = Ok body -> carried st1 = carried st2.
Proof.
  intros Hst. destruct (read_framed_spec show_io st Hst) as (st1 & E1 & _ & H1).
  destruct (recv_spec st Hst) as (st2 & w & E2 & _ & H2 & _).
  exists st1, st2, w. split_and!; [done|done|]. intros body Hb. by rewrite (H1 _ Hb), (H2 _ Hb).
Qed.

Lemma both_ends_frame_alike_witness :
  let st := [Seg [chr 2; chr 0]; Seg [chr 0; chr 0; "h"%char]; Seg ["i"%char; "x"%char]] in
  exists st1 st2 wants,
    read_framed (fun _ => "io") st = (Ok ["h"%char; "i"%char], st1)
    /\ recv st = (Ok ["h"%char; "i"%char], st2, wants) /\ carried st1 = carried st2.
Proof.
  destruct (both_ends_frame_alike (fun _ => "io")
    [Seg [chr 2; chr 0]; Seg [chr 0; chr 0; "h"%char]; Seg ["i"%char; "x"%char]]
    ltac:(repeat constructor)) as (st1 & st2 & w & E1 & E2 & Hc).
  exists st1, st2, w. split_and!; [exact E1|exact E2|exact (Hc _ eq_refl)].
Defined.
