(* ===== verification/Answers.v ===== *)
(** * What the daemon's answers mean

    Statements about every run of a request ([Dispatcher.handle_request]), whatever
    the store, the host and other connections do in between: a request is answered
    by one final frame, sent last; and a frame says what happened, an error answer
    in particular that nothing was recorded, approved, cancelled or executed. *)

From Stdlib Require Import Ascii String NArith ZArith Lia.
From stdpp Require Import base list sets strings gmap.
From S2P Require Import Prelude Json Types Jobs Auth Distro AuditChain Signing Store.
From S2P Require Import Preview Actions Policy Program Effects Bindings Dispatcher Handlers Wire.

(** ** What has happened in a run *)

(** No final frame got through yet. *)
Definition open (tr : list event) : Prop := existsb is_final (sent tr) = false.
(** A final frame got through, or the connection failed. *)
Definition settled (tr : list event) : Prop :=
  existsb is_final (sent tr) = true \/ existsb failed_send tr = true.

(** The effects that change what a client asked about: a transaction recorded,
    approved or cancelled, an action started. *)
Definition committed (ev : event) : bool :=
  match ev with
  | mkEvent X e x =>
      match e in effect X return X -> bool with
      | RecordPreviewed _ _ => fun x => match x with Ok _ => true | Err _ => false end
      | Approve _ _ => fun x => match x with Ok (Some _) => true | _ => false end
      | CancelQueued _ _ => fun x => match x with Ok b => b | Err _ => false end
      | Execute _ => fun _ => true
      | _ => fun _ => false
      end x
  end.
Definition uncommitted (tr : list event) : Prop := Forall (fun ev => committed ev = false) tr.

(** How the status reported for an execution follows from what the executor
    answered, and a rollback from a rollback that succeeded. *)
Definition true_status (tr : list event) (spec : ActionSpec)
    (output : result ExecutorError ExecutionOutput) (s : JobState) : Prop :=
  match output with
  | Ok out => is_success out = true /\ s = (if spec_reboot_required spec then NeedsReboot else Succeeded)
  | Err _ => False
  end
  \/ match output with Ok out => is_success out = false | Err _ => True end
     /\ (s = Failed
         \/ s = RolledBack /\ exists rollback out,
              mkEvent _ (ExecuteQuiet rollback) (Ok out) ∈ tr /\ is_success out = true).

(** What a frame says of the run before it. *)
Definition backed (tr : list event) (r : DaemonResponse) : Prop :=
  match r with
  | StateResponse _ s => exists c, mkEvent _ CollectState (Ok c) ∈ tr
      /\ s = mkCollected (cs_host_distro s) (cs_host_name c) (cs_deployment c) (cs_services c) (cs_flatpaks c)
               (cs_toolboxes c) (cs_layered_packages c) (cs_containers c) (cs_users c) (cs_machine_id_hash c)
  | PreviewResponse _ p id => exists t rec, mkEvent _ (RecordPreviewed t p) (Ok rec) ∈ tr /\ tr_transaction_id rec = id
  | ApprovalResponse _ id receipt => exists who, mkEvent _ (Approve id who) (Ok (Some receipt)) ∈ tr
  | ApprovalDetailsResponse _ id name p => exists rec,
      mkEvent _ (GetTx id) (Ok (Some rec)) ∈ tr /\ tr_action_name rec = name
      /\ mkEvent _ (GetPreview id) (Ok (Some p)) ∈ tr
  | JobStarted _ _ id => exists digest who, mkEvent _ (Claim id digest who) (Ok true) ∈ tr
  | JobProgress _ _ => True
  | JobCompleted _ r => exists spec lines output s,
      mkEvent _ (Execute spec) (lines, output) ∈ tr
      /\ jr_status r = job_state_str s /\ true_status tr spec output s
  | QueryActionResponse _ name _ =>
      (exists spec out, mkEvent _ (ExecuteQuiet spec) (Ok out) ∈ tr)
      \/ (exists n s a h l, mkEvent _ (ListTransactions n s a h) (Ok l) ∈ tr)
  | HistoryResponse _ entries => exists n s a h, mkEvent _ (ListHistory n s a h) (Ok entries) ∈ tr
  | CancelResponse _ id => exists who, mkEvent _ (CancelQueued id who) (Ok true) ∈ tr
  | DescribeResponse _ _ _ _ => uncommitted tr
  | ErrorResponse _ _ _ | ConflictResponse _ _ _ => uncommitted tr
  end.

(** Frames come while the request is open and say the truth; what commits is done
    while it is open. *)
Definition truthful X (pre : list event) (e : effect X) : Prop :=
  match e with
  | Send r => open pre /\ backed pre r
  | RecordPreviewed _ _ | Approve _ _ | CancelQueued _ _ | Execute _ => open pre
  | _ => True
  end.

(** Effects that neither send nor commit anything. *)
Definition silent X (e : effect X) : Prop :=
  match e with
  | Send _ | Execute _ | RecordPreviewed _ _ | Approve _ _ | CancelQueued _ _ => False
  | _ => True
  end.

(** The run so far sent no final frame and committed nothing. *)
Definition fresh (tr : list event) : Prop := open tr /\ uncommitted tr.

Lemma open_snoc tr ev :
  open tr -> from_option is_final false (sent_frame ev) = false -> open (tr ++ [ev]).
Proof.
  unfold open. rewrite sent_app, existsb_app. intros -> H. cbn.
  destruct (sent_frame ev); cbn in *; by rewrite ?H.
Qed.

Lemma uncommitted_snoc tr ev : uncommitted tr -> committed ev = false -> uncommitted (tr ++ [ev]).
Proof. intros Ht He. apply Forall_app. split; [done|]. by constructor. Qed.

Lemma silent_events X (e : effect X) x :
  silent X e -> sent_frame (mkEvent X e x) = None /\ failed_send (mkEvent X e x) = false /\ committed (mkEvent X e x) = false.
Proof. by destruct e. Qed.

Lemma fresh_snoc tr X (e : effect X) x : silent X e -> fresh tr -> fresh (tr ++ [mkEvent X e x]).
Proof.
  intros He [Ho Hc]. destruct (silent_events X e x He) as (H1 & _ & H3).
  split; [apply open_snoc; [done|by rewrite H1]|by apply uncommitted_snoc].
Qed.

Lemma settled_app tr tr' : settled tr -> settled (tr ++ tr').
Proof. unfold settled. rewrite sent_app, !existsb_app. intros [->| ->]; [by left|right; by rewrite orb_true_l]. Qed.

(** A program of silent effects keeps a fresh run fresh, and what happened in it. *)
Lemma silent_fresh {A} (p : prog A) g :
  only silent p -> fresh g ->
  holds (history truthful) (fun g' _ => fresh g' /\ (forall ev, ev ∈ g -> ev ∈ g')) g p.
Proof.
  intros Hp Hg.
  apply (holds_only _ silent (fun g' => fresh g' /\ (forall ev, ev ∈ g -> ev ∈ g')) _ _ _ Hp); [by split| |done].
  intros X g' e He [Hf Hin]. split; [by destruct e|]. intros x. split; [by apply fresh_snoc|].
  intros ev Hev. apply elem_of_app. left. by apply Hin.
Qed.

Lemma silent_after_settled {A} (p : prog A) g :
  only silent p -> settled g -> holds (history truthful) (fun g' _ => settled g') g p.
Proof.
  intros Hp Hg. apply (holds_only _ silent settled _ _ _ Hp); [done| |done].
  intros X g' e He Hs. split; [by destruct e|]. intros x. by apply settled_app.
Qed.

(** Sending a final frame settles the request. *)
Lemma send_final g r x : is_final r = true -> settled (g ++ [mkEvent _ (Send r) x]).
Proof.
  intros Hr. unfold settled. rewrite sent_app, !existsb_app. destruct x as [x|x]; cbn.
  - left. by rewrite Hr, orb_true_r.
  - right. by rewrite orb_true_r.
Qed.

Lemma answer (g : list event) r :
  is_final r = true -> open g -> backed g r ->
  holds (history truthful) (fun g' _ => settled g') g (send_response r).
Proof. intros Hr Ho Hb. apply holds_perform; [by split|]. intros x. by apply send_final. Qed.

Lemma refuse (g : list event) rid category message :
  fresh g -> holds (history truthful) (fun g' _ => settled g') g (send_error rid category message).
Proof. intros [Ho Hu]. by apply answer. Qed.

(** A silent effect in a fresh run. *)
Lemma fresh_call {A X} (post : list event -> A -> Prop) (e : effect X) (f : X -> prog A) g :
  silent X e -> fresh g ->
  (forall x, fresh (g ++ [mkEvent X e x]) -> holds (history truthful) post (g ++ [mkEvent X e x]) (f x)) ->
  holds (history truthful) post g (call e ≫= f).
Proof.
  intros He Hg Hf. apply holds_call; [by destruct e|]. intros x. apply Hf. by apply fresh_snoc.
Qed.

(** An effect that commits on some answers: the run stays open, and fresh when this
    answer did not commit. *)
Lemma commit_call {A X} (post : list event -> A -> Prop) (e : effect X) (f : X -> prog A) g :
  truthful X g e -> (forall x, sent_frame (mkEvent X e x) = None) -> fresh g ->
  (forall x, open (g ++ [mkEvent X e x]) ->
     (committed (mkEvent X e x) = false -> fresh (g ++ [mkEvent X e x])) ->
     holds (history truthful) post (g ++ [mkEvent X e x]) (f x)) ->
  holds (history truthful) post g (call e ≫= f).
Proof.
  intros Ht He [Ho Hu] Hf. apply holds_call; [done|]. intros x.
  assert (open (g ++ [mkEvent X e x])) by (apply open_snoc; [done|by rewrite He]).
  apply Hf; [done|]. intros Hc. split; [done|]. by apply uncommitted_snoc.
Qed.

(** ** The handlers *)

(** The evidence a frame needs is an event of the run. *)
Ltac evidence := cbn [backed]; repeat eexists; in_run.

(** One step of a handler, by its outermost form. *)
Ltac astep :=
  match goal with
  | |- holds _ _ _ (send_error _ _ _) => apply refuse; by auto
  | |- holds _ _ _ (send_response _) =>
      apply answer; [reflexivity|first [assumption | by match goal with Hf : fresh _ |- _ => apply Hf end]|]
  | |- holds _ _ _ (call _ ≫= _) =>
      apply fresh_call; [exact I|assumption|let y := fresh "x" in intros y ?]
  | |- holds _ _ _ (match ?x with _ => _ end) => destruct x eqn:?
  end.

Section Handlers.
Context `{DispatcherEnv} `{StoreEnv} `{Crypto} `{ActionCatalogue}.
Variables (state : DaemonState) (caller : CallerAttribution).

Lemma owns_silent id : only silent (caller_owns_transaction caller id).
Proof. unfold caller_owns_transaction. repeat ostep; done. Qed.

Lemma check_effect_silent X (e : effect X) : check_effect X e -> silent X e.
Proof. by destruct e. Qed.

Lemma authorize_answers rid id cat msg g :
  fresh g ->
  holds (history truthful) (fun g' r => match r with Ok true => fresh g' | Ok false | Err _ => settled g' end) g
    (authorize_for_transaction state caller rid id cat msg).
Proof.
  intros Hg. unfold authorize_for_transaction.
  assert (Hrefuse : forall g category message, fresh g ->
    holds (history truthful) (fun g' r => match r with Ok true => fresh g' | Ok false | Err _ => settled g' end) g
      (r ← send_error rid category message; Ret (_ ← r; Ok false))).
  { intros g' category message Hg'. apply holds_bind. eapply holds_mono; [|by apply refuse].
    cbv beta. intros g1 r Hs. apply holds_ret. by destruct r. }
  astep. repeat astep; try by apply Hrefuse.
  apply holds_bind. eapply holds_mono; [|by apply silent_fresh; [apply owns_silent|]].
  cbv beta. intros g1 o [Hf _]. repeat astep; try by apply Hrefuse. by apply holds_ret.
Qed.

Lemma approve_answers rid id g :
  fresh g -> holds (history truthful) (fun g' _ => settled g') g (handle_approve state caller rid id).
Proof.
  intros Hg. unfold handle_approve. apply holds_bind.
  eapply holds_mono; [|by apply authorize_answers]. cbv beta. intros g1 r Hr.
  destruct r as [[]|]; [|by apply holds_ret..].
  apply commit_call; [by match goal with Hf : fresh _ |- _ => apply Hf end|done|done|]. intros x Ho Hf.
  destruct x as [[receipt|]|[]]; try (apply refuse; by apply Hf).
  apply holds_bind. apply holds_perform; [split; [done|evidence]|]. intros x.
  cbn [next history]. destruct x as [[]|e]; [apply holds_ret; by apply send_final|].
  apply holds_bind. eapply holds_mono; [|apply (silent_after_settled (call _)); [by split|by apply send_final]].
  cbv beta. intros g2 _ Hs. by apply holds_ret.
Qed.

Lemma details_answers rid id g :
  fresh g -> holds (history truthful) (fun g' _ => settled g') g (handle_approval_details state caller rid id).
Proof.
  intros Hg. unfold handle_approval_details. apply holds_bind.
  eapply holds_mono; [|by apply silent_fresh; [apply owns_silent|]].
  cbv beta. intros g1 o [Hf _]. repeat astep. subst. evidence.
Qed.

Lemma cancel_answers rid id g :
  fresh g -> holds (history truthful) (fun g' _ => settled g') g (handle_cancel state caller rid id).
Proof.
  intros Hg. unfold handle_cancel. apply holds_bind.
  eapply holds_mono; [|by apply authorize_answers]. cbv beta. intros g1 r Hr.
  destruct r as [[]|]; [|by apply holds_ret..].
  apply commit_call; [by match goal with Hf : fresh _ |- _ => apply Hf end|done|done|]. intros x Ho Hf.
  destruct x as [[]|e]; try (apply refuse; by apply Hf).
  apply answer; [done|done|evidence].
Qed.

(** A collection task that panicked leaves its request without an answer. *)
Definition panicked (tr : list event) : Prop :=
  exists e, mkEvent _ CollectState (Err (TaskPanicked e)) ∈ tr.

Lemma query_state_answers d rid g :
  fresh g -> holds (history truthful) (fun g' r => settled g' \/ sent g' = sent g /\ panicked g') g (handle_query_state d rid).
Proof.
  intros Hg. unfold handle_query_state. astep. destruct x as [c|[e|e]].
  - eapply holds_mono; [|apply answer; [done|by match goal with Hf : fresh _ |- _ => apply Hf end|]]; [by left|].
    exists c. split; [in_run|done].
  - eapply holds_mono; [|by apply refuse]. by left.
  - apply holds_ret. right. split; [by rewrite sent_app, app_nil_r|]. exists e. in_run.
Qed.

Lemma history_answers rid limit sf af sh since g :
  fresh g -> holds (history truthful) (fun g' _ => settled g') g (handle_query_history state rid limit sf af sh since).
Proof. intros Hg. unfold handle_query_history. repeat astep. evidence. Qed.

Lemma query_action_answers name params rid g :
  fresh g -> holds (history truthful) (fun g' _ => settled g') g (handle_query_action state name params rid).
Proof.
  intros Hg. unfold handle_query_action, query_job_history. repeat astep.
  - right. subst. evidence.
  - left. subst. evidence.
Qed.

Lemma describe_answers name params rid g :
  fresh g -> holds (history truthful) (fun g' _ => settled g') g (handle_describe state caller name params rid).
Proof. intros Hg. unfold handle_describe. repeat astep; apply Hg. Qed.

Lemma capture_autoremove_silent name change : only silent (capture_autoremove name change).
Proof. unfold capture_autoremove, simulate_autoremove_set. repeat ostep; done. Qed.

Lemma capture_deployment_silent name params change : only silent (capture_deployment name params change).
Proof. unfold capture_deployment, resolve_deployment_identity. repeat ostep; done. Qed.

(** A silent program and what follows it. *)
Lemma silent_then {A B} (post : list event -> B -> Prop) (p : prog A) (f : A -> prog B) g :
  only silent p -> fresh g ->
  (forall g' a, fresh g' -> (forall ev, ev ∈ g -> ev ∈ g') -> holds (history truthful) post g' (f a)) ->
  holds (history truthful) post g (p ≫= f).
Proof.
  intros Hp Hg Hf. apply holds_bind. eapply holds_mono; [|by apply silent_fresh]. cbv beta.
  intros g' a [? ?]. by apply Hf.
Qed.

Lemma preview_answers rid name params unattended g :
  fresh g -> holds (history truthful) (fun g' _ => settled g') g (handle_preview state caller rid name params unattended).
Proof.
  intros Hg. unfold handle_preview. repeat astep.
  apply silent_then; [apply capture_autoremove_silent|done|]. intros g1 [c1 w1] Hf1 _. cbv beta iota.
  apply silent_then; [apply capture_deployment_silent|done|]. intros g2 [c2 w2] Hf2 _. cbv beta iota zeta.
  apply commit_call; [by match goal with Hf : fresh _ |- _ => apply Hf end|done|done|]. intros recorded Ho Hf.
  destruct recorded as [rec|e]; [|apply refuse; by apply Hf].
  apply holds_bind. destruct (ds_forwarder state).
  - apply holds_perform; [exact I|]. intros y. cbn [next history].
    apply answer; [done|by apply open_snoc|evidence; done].
  - apply holds_ret. apply answer; [done|done|evidence; done].
Qed.

(** *** Executions *)

(** Silent effects and progress reports. *)
Definition reporting X (e : effect X) : Prop :=
  match e with Send (JobProgress _ _) => True | _ => silent X e end.

(** What a program of reports keeps of a run. *)
Definition extends (g g' : list event) : Prop :=
  open g' /\ (uncommitted g -> uncommitted g') /\ forall ev, ev ∈ g -> ev ∈ g'.

Lemma extends_refl g : open g -> extends g g.
Proof. unfold extends. auto. Qed.

Lemma extends_trans g1 g2 g3 : extends g1 g2 -> extends g2 g3 -> extends g1 g3.
Proof. unfold extends. intros (Ho1 & Hu1 & Hi1) (Ho2 & Hu2 & Hi2). split_and!; auto. Qed.

Lemma extends_snoc g g' X (e : effect X) x :
  reporting X e -> extends g g' -> extends g (g' ++ [mkEvent X e x]).
Proof.
  intros He (Ho & Hu & Hin).
  assert (sent_frame (mkEvent X e x) = None \/ exists j l, sent_frame (mkEvent X e x) = Some (JobProgress j l)) as Hs.
  { destruct e; try (by left). destruct r; try done. destruct x; cbn; eauto. }
  split_and!.
  - apply open_snoc; [done|]. by destruct Hs as [->|(j & l & ->)].
  - intros Hg. apply uncommitted_snoc; [auto|]. destruct e; try done.
  - intros ev Hev. apply elem_of_app. left. auto.
Qed.

Lemma reporting_extends {A} (p : prog A) g :
  only reporting p -> open g -> holds (history truthful) (fun g' _ => extends g g') g p.
Proof.
  intros Hp Hg. apply (holds_only _ reporting (extends g) _ _ _ Hp); [by apply extends_refl| |done].
  intros X g' e He Hx. split; [|intros x; by apply extends_snoc].
  destruct e; try done. destruct r; try done. split; [by destruct Hx|exact I].
Qed.

Lemma progress_reporting job_id line : only reporting (progress job_id line).
Proof. unfold progress, send_ignored, send_response. repeat ostep; done. Qed.

Lemma release_silent claimed hash : only silent (release_exclusive_slots claimed hash).
Proof. unfold release_exclusive_slots. repeat ostep; done. Qed.

Lemma update_terminal_silent id target : only silent (update_terminal_status id target).
Proof.
  unfold update_terminal_status. generalize 0%N as attempt.
  induction (TERMINAL_STATUS_RETRY_ATTEMPTS - 1) as [|n IH]; intros attempt;
    cbn [update_terminal_attempts]; unfold update_status_effects; repeat ostep; auto; done.
Qed.

Lemma silent_reporting X (e : effect X) : silent X e -> reporting X e.
Proof. by destruct e. Qed.

(** Reports and what follows them. *)
Lemma report_then {A B} (post : list event -> B -> Prop) (p : prog A) (f : A -> prog B) g :
  only reporting p -> open g ->
  (forall g' a, extends g g' -> holds (history truthful) post g' (f a)) ->
  holds (history truthful) post g (p ≫= f).
Proof.
  intros Hp Hg Hf. apply holds_bind. eapply holds_mono; [|by apply reporting_extends]. cbv beta.
  intros g' a Hx. by apply Hf.
Qed.

(** A status after the rollback attempt: the initial one, or a rollback that ran. *)
Definition rolled (g : list event) (status status' : JobState) : Prop :=
  status' = status
  \/ status = Failed /\ status' = RolledBack
     /\ exists rollback out, mkEvent _ (ExecuteQuiet rollback) (Ok out) ∈ g /\ is_success out = true.

Lemma rollback_answers job_id name spec status summary running g :
  open g ->
  holds (history truthful) (fun g' r => extends g g' /\ rolled g' status r.1.1) g
    (attempt_rollback_if_needed job_id name spec status summary running).
Proof.
  intros Hg. unfold attempt_rollback_if_needed.
  assert (Hkeep : forall g' (r : JobState * string * option string), extends g g' -> r.1.1 = status ->
    holds (history truthful) (fun g' r => extends g g' /\ rolled g' status r.1.1) g' (Ret r)).
  { intros g' r Hx Hr. apply holds_ret. split; [done|by left]. }
  destruct (negb (bool_decide (status = Failed)) || negb (spec_rollback_available spec)) eqn:Ef;
    [by apply Hkeep; [apply extends_refl|]|].
  apply orb_false_iff in Ef as [Ef%negb_false_iff%bool_decide_eq_true _]. destruct running.
  { apply report_then; [apply progress_reporting|done|]. intros g' _ Hx. by apply Hkeep. }
  destruct (rollback_spec_for name) as [rb|]; [|by apply Hkeep; [apply extends_refl|]].
  apply report_then; [apply progress_reporting|done|]. intros g1 _ Hx1.
  apply holds_call; [exact I|]. intros x. cbn [next history].
  assert (Hx2 : extends g (g1 ++ [mkEvent _ (ExecuteQuiet rb) x])) by by apply extends_snoc.
  destruct x as [out|e]; [destruct (is_success out) eqn:Es|];
    (apply report_then; [apply progress_reporting|apply Hx2|]; intros g3 _ Hx3);
    [|by apply Hkeep; [eapply extends_trans|]..].
  apply holds_ret. split; [by eapply extends_trans|]. right. split_and!; [done|done|].
  exists rb, out. split; [|done]. apply Hx3. in_run.
Qed.

Lemma outcome_status g name spec output s :
  rolled g (initial_outcome name spec output).1 s -> true_status g spec output s.
Proof.
  unfold rolled, initial_outcome, true_status. intros Hr. destruct output as [out|e].
  - destruct (is_success out).
    + left. destruct Hr as [->|(Hf & _)]; destruct (spec_reboot_required spec); done.
    + right. split; [done|]. destruct Hr as [->|(_ & -> & Hx)]; [by left|by right].
  - right. split; [done|]. destruct Hr as [->|(_ & -> & Hx)]; [by left|by right].
Qed.

Lemma true_status_mono g g' spec output s :
  (forall ev, ev ∈ g -> ev ∈ g') -> true_status g spec output s -> true_status g' spec output s.
Proof.
  intros Hin [Ht|[Ho [->|(-> & rb & out & Hev & Hs)]]]; [by left|right; split; [done|by left]|].
  right. split; [done|right]. split; [done|]. exists rb, out. auto.
Qed.

Lemma finish_answers id name job_id spec to_claim hash lines output g :
  open g -> mkEvent _ (Execute spec) (lines, output) ∈ g ->
  holds (history truthful) (fun g' _ => settled g') g
    (finish_execution state caller id name job_id spec to_claim hash output).
Proof.
  intros Ho Hev. unfold finish_execution.
  destruct (initial_outcome name spec output) as [initial summary] eqn:Ei.
  apply report_then; [apply progress_reporting|done|]. intros g1 _ Hx1. cbv zeta.
  apply holds_bind. eapply holds_mono; [|by apply rollback_answers; destruct Hx1]. cbv beta.
  intros g2 [[final summary'] rb] [Hx2 Hroll]. cbn [fst] in Hroll.
  apply report_then; [|apply Hx2|].
  { destruct (is_not_stopped output); [done|]. apply (only_mono silent), release_silent. apply silent_reporting. }
  intros g3 _ Hx3. apply report_then; [|apply Hx3|].
  { apply (only_mono silent), update_terminal_silent. apply silent_reporting. }
  intros g4 updated Hx4. apply report_then; [|apply Hx4|].
  { repeat (ostep; try done). }
  intros g5 warnings Hx5. apply answer; [done|apply Hx5|].
  assert (Hx : forall ev, ev ∈ g2 -> ev ∈ g5) by (intros ev ?; apply Hx5, Hx4, Hx3; done).
  exists spec, lines, output, final. split_and!; [by apply Hx, Hx2, Hx1|done|].
  eapply true_status_mono; [exact Hx|]. apply (outcome_status _ name). by rewrite Ei.
Qed.

Lemma run_claimed_answers rid id name spec to_claim hash digest who g :
  fresh g -> mkEvent _ (Claim id digest who) (Ok true) ∈ g ->
  holds (history truthful) (fun g' _ => settled g') g
    (run_claimed state caller rid id name spec to_claim hash).
Proof.
  intros Hg Hev. unfold run_claimed. astep. apply holds_bind. apply holds_perform.
  { split; [by match goal with Hf : fresh (_ ++ _) |- _ => apply Hf end|]. exists digest, who. in_run. done. }
  intros started. cbn [next history].
  assert (Ho : open ((g ++ [mkEvent _ NewJobId x]) ++ [mkEvent _ (Send (JobStarted rid x id)) started])).
  { apply open_snoc; [by match goal with Hf : fresh (_ ++ _) |- _ => apply Hf end|]. by destruct started. }
  destruct started as [[]|e].
  - apply report_then; [apply progress_reporting|exact Ho|]. intros g1 _ Hx1.
    apply report_then; [apply progress_reporting|apply Hx1|]. intros g2 _ Hx2.
    apply holds_call; [apply Hx2|]. intros [lines output]. cbn [next history].
    assert (Ho2 : open (g2 ++ [mkEvent _ (Execute spec) (lines, output)])) by (apply open_snoc; [apply Hx2|done]).
    apply report_then; [apply only_for_each; intros; apply progress_reporting|exact Ho2|]. intros g3 _ Hx3.
    apply (finish_answers _ _ _ _ _ _ lines); [apply Hx3|]. apply Hx3. in_run.
  - assert (Hs : forall B (p : prog B), only silent p -> forall g', settled g' ->
      forall C (f : B -> prog C), (forall g'' b, settled g'' -> holds (history truthful) (fun g' _ => settled g') g'' (f b)) ->
      holds (history truthful) (fun g' _ => settled g') g' (p ≫= f)).
    { intros B p Hp g' Hg' C f Hf. apply holds_bind. eapply holds_mono; [|by apply silent_after_settled].
      cbv beta. intros g'' b Hb. by apply Hf. }
    apply Hs; [apply release_silent|right; by rewrite existsb_app, orb_true_r|].
    intros g1 _ Hg1. apply Hs; [apply update_terminal_silent|done|]. intros g2 _ Hg2. by apply holds_ret.
Qed.

Lemma check_silent_autoremove id name : only silent (check_autoremove id name).
Proof. apply (only_mono check_effect), check_autoremove_only. apply check_effect_silent. Qed.

Lemma check_silent_deployment id name params : only silent (check_deployment id name params).
Proof. apply (only_mono check_effect), check_deployment_only. apply check_effect_silent. Qed.

Lemma claim_and_run_answers rid id name params receipt spec to_claim hash g :
  fresh g -> holds (history truthful) (fun g' _ => settled g') g
    (claim_and_run state caller rid id name params receipt spec to_claim hash).
Proof.
  intros Hg. unfold claim_and_run.
  assert (Hrefuse : forall g category message, fresh g -> holds (history truthful) (fun g' _ => settled g') g
    (_ ← release_exclusive_slots to_claim hash; send_error rid category message)).
  { intros g' category message Hg'. apply silent_then; [apply release_silent|done|].
    intros g1 _ Hf1 _. by apply refuse. }
  astep. destruct x as [[]|e]; [|by apply Hrefuse..].
  apply silent_then; [apply check_silent_autoremove|done|]. intros g1 r1 Hf1 Hin1.
  destruct r1 as [[]|[]]; [|by apply Hrefuse].
  apply silent_then; [apply check_silent_deployment|done|]. intros g2 r2 Hf2 Hin2.
  destruct r2 as [[]|[]]; [|by apply Hrefuse].
  eapply run_claimed_answers; [done|]. apply Hin2, Hin1. in_run.
Qed.

Lemma execute_answers rid id name params receipt g :
  fresh g -> holds (history truthful) (fun g' _ => settled g') g
    (handle_execute state caller rid id name params receipt).
Proof.
  intros Hg. unfold handle_execute. destruct (build_action_spec name params) as [spec|e]; [|by apply refuse].
  apply silent_then; [apply owns_silent|done|]. intros g1 o Hf1 _.
  repeat astep. unfold gate_and_claim. destruct (execute_is_mutating _ _ _).
  - repeat astep; [by match goal with Hf : fresh (_ ++ _) |- _ => apply Hf end|]. by apply claim_and_run_answers.
  - by apply claim_and_run_answers.
Qed.

(** Every request: what its frames say holds when they are sent, and it is answered,
    but for a state query whose collection panicked. *)
Lemma request_answers r g :
  fresh g ->
  holds (history truthful)
    (fun g' _ => settled g' \/ (exists rid, r = QueryState rid) /\ sent g' = sent g /\ panicked g') g
    (handle_request state caller r).
Proof.
  intros Hg.
  assert (Hs : forall p, holds (history truthful) (fun g' _ => settled g') g p ->
    holds (history truthful) (fun g' (_ : result HandlerError ()) =>
      settled g' \/ (exists rid, r = QueryState rid) /\ sent g' = sent g /\ panicked g') g p).
  { intros p Hp. eapply holds_mono; [|exact Hp]. by left. }
  destruct r; cbn [handle_request];
    [eapply holds_mono; [|by apply query_state_answers]; cbv beta; intros g' _ [Hx|[? ?]]; eauto|apply Hs..];
    auto using preview_answers, approve_answers, details_answers, execute_answers, cancel_answers,
      query_action_answers, history_answers, describe_answers.
Qed.
End Handlers.

(** ** Whose answer a frame is *)

Definition request_id_of (r : DaemonRequest) : string :=
  match r with
  | QueryState rid | Preview rid _ _ _ | ApproveRequest rid _ | ApprovalDetails rid _
  | ExecuteRequest rid _ _ _ _ | CancelRequest rid _ | QueryAction rid _ _ | QueryHistory rid _ _ _ _ _
  | Describe rid _ _ => rid
  end.

(** A frame is of the kind its request asks for, and carries the identifiers of the
    request. *)
Definition answers_to (r : DaemonRequest) (f : DaemonResponse) : Prop :=
  match f with
  | StateResponse rid _ => r = QueryState rid
  | PreviewResponse rid _ _ => exists name params unattended, r = Preview rid name params unattended
  | ApprovalResponse rid id _ => r = ApproveRequest rid id
  | ApprovalDetailsResponse rid id _ _ => r = ApprovalDetails rid id
  | JobStarted rid _ id => rid = request_id_of r /\ executes r = Some id
  | JobProgress _ _ => executes r <> None
  | JobCompleted _ result => executes r = Some (jr_transaction_id result)
  | QueryActionResponse rid name _ => exists params, r = QueryAction rid name params
  | HistoryResponse rid _ => exists limit sf af hours since, r = QueryHistory rid limit sf af hours since
  | CancelResponse rid id => r = CancelRequest rid id
  | DescribeResponse rid _ _ _ => exists name params, r = Describe rid name params
  | ErrorResponse rid _ _ => rid = request_id_of r
  | ConflictResponse rid _ _ => rid = request_id_of r /\ executes r <> None
  end.

Definition addressed (r : DaemonRequest) X (e : effect X) : Prop :=
  match e with Send f => answers_to r f | _ => True end.

Section Addressed.
Context `{DispatcherEnv} `{StoreEnv} `{Crypto} `{ActionCatalogue}.
Variables (state : DaemonState) (caller : CallerAttribution).

Lemma silent_addressed r X (e : effect X) : silent X e -> addressed r X e.
Proof. by destruct e. Qed.

Lemma silent_only {A} r (p : prog A) : only silent p -> only (addressed r) p.
Proof. apply only_mono, silent_addressed. Qed.

Lemma progress_addressed r job_id line :
  executes r <> None -> only (addressed r) (progress job_id line).
Proof. intros Hr. unfold progress, send_ignored, send_response. by repeat (ostep; try done). Qed.

Lemma rollback_addressed r job_id name spec status summary running :
  executes r <> None -> only (addressed r) (attempt_rollback_if_needed job_id name spec status summary running).
Proof.
  intros Hr. unfold attempt_rollback_if_needed. repeat (ostep; auto using progress_addressed); done.
Qed.

Lemma authorize_addressed r id cat msg :
  only (addressed r) (authorize_for_transaction state caller (request_id_of r) id cat msg).
Proof.
  unfold authorize_for_transaction, send_error, send_response.
  repeat (ostep; auto using silent_only, owns_silent); done.
Qed.

Lemma execute_addressed rid id name params receipt :
  only (addressed (ExecuteRequest rid id name params receipt))
    (handle_execute state caller rid id name params receipt).
Proof.
  assert (Hx : executes (ExecuteRequest rid id name params receipt) <> None) by done.
  unfold handle_execute, gate_and_claim, claim_and_run, run_claimed, finish_execution, send_error, send_response.
  repeat (ostep; auto using silent_only, owns_silent, progress_addressed, rollback_addressed, release_silent,
    update_terminal_silent, check_silent_autoremove, check_silent_deployment); done.
Qed.

Lemma request_addressed r : only (addressed r) (handle_request state caller r).
Proof.
  destruct r; cbn [handle_request]; [| | | |apply execute_addressed| | | |].
  - unfold handle_query_state, send_error, send_response. repeat ostep; done.
  - unfold handle_preview, send_error, send_response.
    repeat (ostep; auto using silent_only, capture_autoremove_silent, capture_deployment_silent);
      cbn [addressed answers_to]; eauto.
  - unfold handle_approve, send_error, send_response.
    apply only_bind; [apply (authorize_addressed (ApproveRequest _ _))|intros]. repeat ostep; done.
  - unfold handle_approval_details, send_error, send_response.
    repeat (ostep; auto using silent_only, owns_silent); done.
  - unfold handle_cancel, send_error, send_response.
    apply only_bind; [apply (authorize_addressed (CancelRequest _ _))|intros]. repeat ostep; done.
  - unfold handle_query_action, query_job_history, send_error, send_response.
    repeat ostep; cbn [addressed answers_to]; eauto.
  - unfold handle_query_history, send_error, send_response. repeat ostep; cbn [addressed answers_to]; eauto 10.
  - unfold handle_describe, send_error, send_response. repeat ostep; cbn [addressed answers_to]; eauto.
Qed.

(** The frames of a run are the request's own. *)
Lemma sent_addressed r tr res f :
  runs (handle_request state caller r) tr res -> f ∈ sent tr -> answers_to r f.
Proof.
  intros Hr (pre & x & suf & E)%sent_in.
  pose proof (only_runs _ _ _ _ (request_addressed r) Hr) as Hall.
  rewrite E, Forall_app, Forall_cons in Hall. apply Hall.
Qed.
End Addressed.

(** ** What a request runs on the host, and whose job a report is of *)

(** The commands that only look: what an approval is bound to is read with them. *)
Definition PROBES : list (string * list string) :=
  [("apt-get", ["-s"; "autoremove"]); ("rpm-ostree", ["status"; "--json"])].

(** The command of the query, of an action that every caller may run and that is none of
    those that change the host all the same. *)
Definition queried `{ActionCatalogue} (state : DaemonState) (r : DaemonRequest) (spec : ActionSpec) : Prop :=
  exists rid name params, r = QueryAction rid name params /\ build_action_spec name params = Ok spec
    /\ min_role_for_action (ds_policy state) name = Some Observer
    /\ str_in name OBSERVER_MUTATING_ACTIONS = false.

(** The job was announced to the client, under this request and its transaction. *)
Definition announced (pre : list event) (r : DaemonRequest) (job_id : string) : Prop :=
  exists id, executes r = Some id /\ mkEvent _ (Send (JobStarted (request_id_of r) job_id id)) (Ok tt) ∈ pre.

(** The frames that carry no identifier of a request carry the one of its job. *)
Definition of_job (pre : list event) (r : DaemonRequest) (f : DaemonResponse) : Prop :=
  match f with
  | JobProgress job_id _ => announced pre r job_id
  | JobCompleted job_id result => announced pre r job_id /\ jr_job_id result = job_id
  | _ => True
  end.

Definition own `{ActionCatalogue} (state : DaemonState) (r : DaemonRequest) X (pre : list event) (e : effect X) : Prop :=
  match e with
  | Send f => of_job pre r f
  | ExecuteQuiet spec => queried state r spec \/ exists spec0 x, mkEvent _ (Execute spec0) x ∈ pre
  | RunProgram program args => (program, args) ∈ PROBES
  | _ => True
  end.

(** Outside a job, and after its command was run. *)
Definition aside `{ActionCatalogue} (state : DaemonState) (r : DaemonRequest) X (e : effect X) : Prop :=
  match e with
  | Send (JobProgress _ _) | Send (JobCompleted _ _) => False
  | ExecuteQuiet spec => queried state r spec
  | RunProgram program args => (program, args) ∈ PROBES
  | _ => True
  end.
Definition in_job (job_id : string) X (e : effect X) : Prop :=
  match e with
  | Send (JobProgress j _) => j = job_id
  | Send (JobCompleted j result) => j = job_id /\ jr_job_id result = job_id
  | RunProgram _ _ => False
  | _ => True
  end.

Section Own.
Context `{DispatcherEnv} `{StoreEnv} `{Crypto} `{ActionCatalogue}.
Variables (state : DaemonState) (caller : CallerAttribution).

Lemma aside_own r {A} (p : prog A) g : only (aside state r) p -> holds (history (own state r)) (fun _ _ => True) g p.
Proof.
  intros Hp. apply (history_only _ _ _ _ _ Hp); [|done]. intros X pre e _ He.
  destruct e as [[]| | | | | | | | | | | | | | | | | | | | |]; try done. by left.
Qed.

Lemma aside_then r {A B} (p : prog A) (f : A -> prog B) g :
  only (aside state r) p -> (forall a g', holds (history (own state r)) (fun _ _ => True) g' (f a)) ->
  holds (history (own state r)) (fun _ _ => True) g (p ≫= f).
Proof.
  intros Hp Hf. apply holds_bind. eapply holds_mono; [|by apply aside_own]. intros g' a _. apply Hf.
Qed.

Lemma owns_aside r id : only (aside state r) (caller_owns_transaction caller id).
Proof. unfold caller_owns_transaction. repeat ostep; done. Qed.
Lemma release_aside r claimed hash : only (aside state r) (release_exclusive_slots claimed hash).
Proof. unfold release_exclusive_slots. repeat ostep; done. Qed.
Definition status_effect X (e : effect X) : Prop :=
  match e with ReadTransition _ _ | CasStatus _ _ _ | GetTx _ | Sleep _ => True | _ => False end.
Lemma update_terminal_status_only id target : only status_effect (update_terminal_status id target).
Proof.
  unfold update_terminal_status. generalize 0%N as attempt.
  induction (TERMINAL_STATUS_RETRY_ATTEMPTS - 1) as [|n IH]; intros attempt;
    cbn [update_terminal_attempts]; unfold update_status_effects; repeat ostep; auto; done.
Qed.
Lemma update_terminal_aside r id target : only (aside state r) (update_terminal_status id target).
Proof. apply (only_mono status_effect), update_terminal_status_only. by intros X []. Qed.

Lemma probe_in program args : In (program, args) PROBES -> (program, args) ∈ PROBES.
Proof. by rewrite <-list_elem_of_In. Qed.
#[local] Hint Resolve probe_in owns_aside release_aside update_terminal_aside : core.

Ltac aside_steps :=
  repeat (ostep; auto); try exact I; try (cbn [aside]; apply probe_in; cbn; tauto).

Lemma check_autoremove_aside r id name : only (aside state r) (check_autoremove id name).
Proof. unfold check_autoremove, approved_preview, simulate_autoremove_set. aside_steps. Qed.
Lemma check_deployment_aside r id name params : only (aside state r) (check_deployment id name params).
Proof. unfold check_deployment, approved_preview, resolve_deployment_identity. aside_steps. Qed.
Lemma capture_autoremove_aside r name change : only (aside state r) (capture_autoremove name change).
Proof. unfold capture_autoremove, simulate_autoremove_set. aside_steps. Qed.
Lemma capture_deployment_aside r name params change : only (aside state r) (capture_deployment name params change).
Proof. unfold capture_deployment, resolve_deployment_identity. aside_steps. Qed.
Lemma authorize_aside r rid id cat msg : only (aside state r) (authorize_for_transaction state caller rid id cat msg).
Proof. unfold authorize_for_transaction, send_error, send_response. aside_steps. Qed.

Lemma progress_in_job job_id line : only (in_job job_id) (progress job_id line).
Proof. unfold progress, send_ignored, send_response. repeat ostep; done. Qed.

Lemma finish_in_job id name job_id spec to_claim hash output :
  only (in_job job_id) (finish_execution state caller id name job_id spec to_claim hash output).
Proof.
  unfold finish_execution, attempt_rollback_if_needed, release_exclusive_slots, send_response.
  assert (Hu : forall target, only (in_job job_id) (update_terminal_status id target)).
  { intros target. apply (only_mono status_effect), update_terminal_status_only. by intros X []. }
  repeat (ostep; auto using progress_in_job); done.
Qed.

(** The job, once it was announced. *)
Lemma job_own r (job_id : string) {A} (p : prog A) g :
  only (in_job job_id) p -> announced g r job_id -> (exists spec0 x, mkEvent _ (Execute spec0) x ∈ g) ->
  holds (history (own state r)) (fun _ _ => True) g p.
Proof.
  intros Hp (id & Hid & Hs) (spec0 & x & Hx). apply (history_only _ _ _ _ _ Hp); [|done].
  intros X pre e Hg He. assert (Ha : announced pre r job_id).
  { exists id. split; [done|]. by eapply elem_of_prefix. }
  destruct e as [[]| | | | | | | | | | | | | | | | | | | | |]; cbn in He; try done.
  - cbn. by subst.
  - cbn. by destruct He as [-> ->].
  - right. exists spec0, x. by eapply elem_of_prefix.
Qed.

Lemma progress_own r job_id line g :
  announced g r job_id ->
  holds (history (own state r)) (fun g' _ => announced g' r job_id) g (progress job_id line).
Proof.
  intros Ha. unfold progress, send_ignored, send_response. apply holds_bind, holds_perform; [exact Ha|].
  intros x. apply holds_ret. destruct Ha as (id & Hid & Hs). exists id. split; [done|]. in_run. exact Hs.
Qed.

Lemma run_claimed_own rid id name params receipt spec to_claim hash g :
  holds (history (own state (ExecuteRequest rid id name params receipt))) (fun _ _ => True) g
    (run_claimed state caller rid id name spec to_claim hash).
Proof.
  unfold run_claimed, send_response. apply holds_call; [done|]. intros job_id.
  apply holds_bind, holds_perform; [done|]. intros [[]|e]; cbn [next history]; [|apply aside_own; aside_steps].
  apply holds_bind. eapply holds_mono; [|apply progress_own; exists id; split; [done|in_run]].
  cbv beta. intros g1 _ Ha1. apply holds_bind. eapply holds_mono; [|by apply progress_own].
  cbv beta. intros g2 _ Ha2. apply holds_call; [done|]. intros [lines output]. cbn [next history].
  apply (job_own _ job_id).
  - apply only_bind; [apply only_for_each; intros line; apply progress_in_job|intros _; apply finish_in_job].
  - destruct Ha2 as (id' & Hid & Hs). exists id'. split; [done|]. in_run. exact Hs.
  - exists spec, (lines, output). in_run.
Qed.

Lemma claim_and_run_own rid id name params receipt spec to_claim hash g :
  holds (history (own state (ExecuteRequest rid id name params receipt))) (fun _ _ => True) g
    (claim_and_run state caller rid id name params receipt spec to_claim hash).
Proof.
  unfold claim_and_run.
  assert (Hrefuse : forall category message g', holds (history (own state (ExecuteRequest rid id name params receipt)))
    (fun _ _ => True) g' (_ ← release_exclusive_slots to_claim hash; send_error rid category message)).
  { intros category message g'. apply aside_own. unfold send_error, send_response. aside_steps. }
  apply holds_call; [done|]. intros [[]|e]; [|apply Hrefuse..].
  apply aside_then; [apply check_autoremove_aside|]. intros [[]|[category message]] g1; [|apply Hrefuse].
  apply aside_then; [apply check_deployment_aside|]. intros [[]|[category message]] g2; [|apply Hrefuse].
  apply run_claimed_own.
Qed.

Lemma execute_own rid id name params receipt g :
  holds (history (own state (ExecuteRequest rid id name params receipt))) (fun _ _ => True) g
    (handle_execute state caller rid id name params receipt).
Proof.
  unfold handle_execute, gate_and_claim, send_error, send_response. hstep; [|apply aside_own; aside_steps].
  apply aside_then; [auto|]. intros o g1.
  repeat lazymatch goal with
    | |- holds _ _ _ (claim_and_run _ _ _ _ _ _ _ _ _ _) => apply claim_and_run_own
    | |- _ => hstep
    end; done.
Qed.

Lemma request_own r g : holds (history (own state r)) (fun _ _ => True) g (handle_request state caller r).
Proof.
  destruct r; cbn [handle_request]; try apply execute_own; apply aside_own.
  - unfold handle_query_state, send_error, send_response. aside_steps.
  - unfold handle_preview, send_error, send_response.
    repeat (ostep; auto using capture_autoremove_aside, capture_deployment_aside); done.
  - unfold handle_approve, send_error, send_response. apply only_bind; [apply authorize_aside|intros]. aside_steps.
  - unfold handle_approval_details, send_error, send_response. aside_steps.
  - unfold handle_cancel, send_error, send_response. apply only_bind; [apply authorize_aside|intros]. aside_steps.
  - unfold handle_query_action, query_job_history, send_error, send_response. repeat ostep; try done.
    apply negb_false_iff, bool_decide_eq_true in Heqb. subst. cbn [aside].
    exists request_id, action_name, params. by split_and!.
  - unfold handle_query_history, send_error, send_response. aside_steps.
  - unfold handle_describe, send_error, send_response. aside_steps.
Qed.

Lemma request_owns r tr res pre X (e : effect X) x suf :
  runs (handle_request state caller r) tr res -> tr = pre ++ mkEvent X e x :: suf -> own state r X pre e.
Proof. intros Hr E. destruct (history_runs _ _ _ _ _ (request_own r []) Hr) as [_ Hall]. by eapply Hall. Qed.
End Own.

(** ** Properties *)

Section Properties.
Context `{DispatcherEnv} `{StoreEnv} `{Crypto} `{ActionCatalogue}.
Variables (state : DaemonState) (caller : CallerAttribution) (r : DaemonRequest).

Lemma request_runs tr res :
  runs (handle_request state caller r) tr res ->
  (settled tr \/ (exists rid, r = QueryState rid) /\ sent tr = [] /\ panicked tr)
  /\ forall pre X (e : effect X) x suf, tr = pre ++ mkEvent X e x :: suf -> truthful X pre e.
Proof.
  intros Hr. refine (history_runs _ _ _ _ _ (request_answers state caller r [] _) Hr). split; [reflexivity|constructor].
Qed.

(** Frames that got through before an open point are reports. *)
Lemma open_reports tr : open tr -> Forall (fun f => is_final f = false) (sent tr).
Proof.
  unfold open. intros Ho. apply Forall_forall. intros f Hf. destruct (is_final f) eqn:Ef; [|done].
  rewrite <-Ho. symmetry. apply existsb_exists. exists f. by rewrite <-list_elem_of_In.
Qed.

(** The final frame that got through is the last one. *)
Lemma final_is_last tr res :
  runs (handle_request state caller r) tr res -> existsb is_final (sent tr) = true ->
  exists reports answer, sent tr = reports ++ [answer]
    /\ Forall (fun f => is_final f = false) reports /\ is_final answer = true.
Proof.
  intros Hr Hf. destruct (request_runs _ _ Hr) as [_ Hall]. clear Hr.
  induction tr as [|ev tr IH] using rev_ind; [done|].
  rewrite sent_snoc in *. destruct ev as [X e x].
  destruct (existsb is_final (sent tr)) eqn:Et.
  - assert (sent_frame (mkEvent X e x) = None) as Hn.
    { pose proof (Hall tr X e x [] eq_refl) as Ht. destruct e; try done. destruct Ht as [Ht _].
      unfold open in Ht. congruence. }
    rewrite Hn, app_nil_r. apply IH; [done|].
    intros pre X' e' x' suf ->. apply (Hall pre X' e' x' (suf ++ [mkEvent X e x])). by rewrite <-app_assoc.
  - rewrite existsb_app, Et in Hf. destruct (sent_frame (mkEvent X e x)) as [f|]; [|done].
    exists (sent tr), f. split_and!; [done|by apply open_reports|]. cbn in Hf. by destruct (is_final f).
Qed.

(** Nothing is committed once a final frame got through. *)
Lemma closed_commits_nothing tr res pre suf :
  runs (handle_request state caller r) tr res -> tr = pre ++ suf ->
  existsb is_final (sent pre) = true -> uncommitted suf.
Proof.
  intros Hr -> Hc. destruct (request_runs _ _ Hr) as [_ Hall]. clear Hr.
  apply Forall_forall. intros ev Hev. apply list_elem_of_split in Hev as (a & b & ->).
  destruct ev as [X e x]. specialize (Hall (pre ++ a) X e x b). rewrite <-app_assoc in Hall.
  specialize (Hall eq_refl).
  assert (~ open (pre ++ a)) by (unfold open; rewrite sent_app, existsb_app, Hc; done).
  by destruct e.
Qed.

Definition is_refusal (f : DaemonResponse) : bool :=
  match f with ErrorResponse _ _ _ | ConflictResponse _ _ _ => true | _ => false end.

Lemma refused_uncommitted tr res f :
  runs (handle_request state caller r) tr res -> f ∈ sent tr -> is_refusal f = true -> uncommitted tr.
Proof.
  intros Hr Hf Hi. apply sent_in in Hf as (pre & x & suf & E).
  destruct (request_runs _ _ Hr) as [_ Hall]. destruct (Hall _ _ _ _ _ E) as [_ Hb].
  assert (Hs : uncommitted suf).
  { apply (closed_commits_nothing tr res (pre ++ [mkEvent _ (Send f) (Ok x)]) suf Hr).
    - by rewrite E, <-app_assoc.
    - rewrite sent_snoc, existsb_app. cbn. by destruct f; try discriminate Hi; rewrite orb_true_r. }
  rewrite E. apply Forall_app. split; [by destruct f|]. by constructor.
Qed.
End Properties.

(** C11: every request is answered, once. In every run of a request whose frames all
    get through to the peer, the frames are reports followed by exactly one final
    frame, sent last; the only exception is a state query whose collection task
    panicked, which is left without any answer. *)
Theorem every_request_is_answered `{DispatcherEnv} `{StoreEnv} `{Crypto} `{ActionCatalogue}
    state caller r tr res :
  runs (handle_request state caller r) tr res -> existsb failed_send tr = false ->
  (exists reports answer, sent tr = reports ++ [answer]
     /\ Forall (fun f => is_final f = false) reports /\ is_final answer = true)
  \/ (exists rid, r = QueryState rid) /\ sent tr = [] /\ panicked tr.
Proof.
  intros Hr Hf. destruct (request_runs state caller r tr res Hr) as [[[Hs|Hs]|Hp] _].
  - left. by apply (final_is_last state caller r tr res).
  - congruence.
  - by right.
Qed.

(** Frames tell the truth. Whenever a request sends a frame, what the frame says
    has happened in the run: a preview or a receipt that was stored under that
    transaction, a cancellation that was made, state and history that were read, the
    status of an execution as it follows from what the executor answered, with a
    rollback only if the rollback ran and succeeded. *)
Theorem frames_tell_the_truth `{DispatcherEnv} `{StoreEnv} `{Crypto} `{ActionCatalogue}
    state caller r tr res pre frame x suf :
  runs (handle_request state caller r) tr res -> tr = pre ++ mkEvent _ (Send frame) x :: suf ->
  backed pre frame.
Proof.
  intros Hr E. destruct (request_runs state caller r tr res Hr) as [_ Hall].
  by destruct (Hall _ _ _ _ _ E) as [_ Hb].
Qed.

(** C37: frames are the request's own. Every frame that a request got through is of
    the kind the request asks for, or a refusal of it, and carries the request's
    identifier and, where it names a transaction, the one the request named. The two
    frames that have no field for the request's identifier, progress and completion,
    carry the identifier of a job that this run announced before, in a JobStarted frame
    that got through with the request's identifier and its transaction. *)
Theorem frames_are_the_requests_own `{DispatcherEnv} `{StoreEnv} `{Crypto} `{ActionCatalogue}
    state caller r tr res :
  runs (handle_request state caller r) tr res ->
  Forall (answers_to r) (sent tr)
  /\ forall pre f x suf, tr = pre ++ mkEvent _ (Send f) x :: suf -> of_job pre r f.
Proof.
  intros Hr. split; [apply Forall_forall; intros f; by apply sent_addressed with state caller res|].
  intros pre f x suf E. exact (request_owns _ _ _ _ _ _ _ _ _ _ Hr E).
Qed.


(** ** Runs *)

Section Witness.
#[local] Existing Instance Toy.crypto.
#[local] Existing Instance StoreSample.env.
#[local] Existing Instance DaemonSample.env.

Definition ask (name : string) (program : result RunError string) (r : DaemonRequest)
    : list event * result HandlerError () :=
  interp (DaemonSample.host name program) 0 (handle_request DaemonSample.state DaemonSample.caller r).

Lemma ask_runs name program r :
  runs (handle_request DaemonSample.state DaemonSample.caller r) (ask name program r).1 (ask name program r).2.
Proof. apply interp_runs. Qed.

Definition upgrade : DaemonRequest := ExecuteRequest "rq2" "t1" "AptUpgrade" (JObj []) "r".
(** An autoremove whose package set cannot be read back. *)
Definition autoremove : DaemonRequest := ExecuteRequest "rq2" "t1" "AptAutoremove" (JObj []) "r".
Definition simulation_fails : result RunError string := Err (RunFailed "apt is locked").

Definition completed : DaemonResponse :=
  JobCompleted "j1" (mkJobResult "succeeded" (lit "AptUpgrade completed successfully") [] "j1" false None "t1").

Lemma every_request_is_answered_witness :
  length (sent (ask "AptUpgrade" (Ok "") upgrade).1) = 6
  /\ exists reports answer, sent (ask "AptUpgrade" (Ok "") upgrade).1 = reports ++ [answer]
       /\ Forall (fun f => is_final f = false) reports /\ is_final answer = true.
Proof.
  split; [vm_compute; reflexivity|].
  destruct (every_request_is_answered _ _ _ _ _ (ask_runs "AptUpgrade" (Ok "") upgrade)) as [Ha|[[rid Hr] _]].
  - vm_compute. reflexivity.
  - exact Ha.
  - discriminate Hr.
Defined.

Definition is_completion (ev : event) : bool :=
  match ev with
  | mkEvent X e _ =>
      match e in effect X return bool with Send (JobCompleted _ _) => true | _ => false end
  end.
Fixpoint event_position (p : event -> bool) (tr : list event) : nat :=
  match tr with [] => 0 | ev :: tr' => if p ev then 0 else S (event_position p tr') end.

Lemma completion_at :
  let tr := (ask "AptUpgrade" (Ok "") upgrade).1 in
  tr !! event_position is_completion tr = Some (mkEvent _ (Send completed) (Ok tt)).
Proof. vm_compute. reflexivity. Qed.

Lemma frames_tell_the_truth_witness :
  let tr := (ask "AptUpgrade" (Ok "") upgrade).1 in
  backed (take (event_position is_completion tr) tr) completed.
Proof.
  exact (frames_tell_the_truth _ _ _ _ _ _ _ _ _ (ask_runs "AptUpgrade" (Ok "") upgrade)
           (event_at _ _ _ completion_at)).
Defined.

Lemma frames_are_the_requests_own_witness :
  let tr := (ask "AptUpgrade" (Ok "") upgrade).1 in
  sent tr <> [] /\ Forall (answers_to upgrade) (sent tr).
Proof.
  split; [vm_compute; discriminate|].
  exact (proj1 (frames_are_the_requests_own _ _ _ _ _ (ask_runs "AptUpgrade" (Ok "") upgrade))).
Defined.


(** A state query whose collection task panics gets no answer at all, although the
    connection is fine: the client waits until it gives up. *)
Definition panicking : oracle := fun X i e =>
  match e in effect X return X with
  | CollectState => Err (TaskPanicked "stack overflow")
  | e => DaemonSample.host "AptUpgrade" (Ok "") _ i e
  end.

Lemma panicked_query_is_unanswered :
  let tr := (interp panicking 0 (handle_request DaemonSample.state DaemonSample.caller (QueryState "q"))).1 in
  sent tr = [] /\ existsb failed_send tr = false /\ panicked tr.
Proof.
  split_and!; [vm_compute; reflexivity|vm_compute; reflexivity|].
  exists "stack overflow". left.
Qed.
End Witness.
