(* ===== verification/Session.v ===== *)
(** * A client and the daemon

    The operations of [Client.v] against the runs of [Dispatcher.v]: what a command
    line user is told about a request is what the daemon did. The request the client
    writes is read as the request it means; the client reads a part of the frames
    the daemon sent, and after that the connection may fail at any point. *)

From Stdlib Require Import Ascii String NArith ZArith Lia.
From stdpp Require Import base list sets strings gmap.
From S2P Require Import Prelude Json Types Jobs Auth Distro AuditChain Signing Store Framing.
From S2P Require Import Preview Actions Policy Program Effects Bindings Dispatcher Handlers Wire Answers.
From S2P Require Import Connection Approval PlanTools.
From S2P Require Client.
Import Client (SocketTarget, Link, Reply, rp_waited_ms, rp_answer, ln_reads, from_slice, to_vec, strip_ansi).

(** ** What the derived readers make of what was written *)

(** A request is read from every value that encodes it. *)
Class RequestReader `{WireEnv} : Prop :=
  reads_request : forall r v, encodes_request r v -> request_from_value v = Ok r.

Definition envelope_of `{StrDebug} (r : JobResult) (s : JobState) : ResultEnvelope := {|
  res_status := s; res_summary := show_text (jr_summary r); res_warnings := map show_text (jr_warnings r);
  res_job_id := Some (jr_job_id r); res_needs_reboot := jr_needs_reboot r;
  res_rollback_ref := jr_rollback_ref r; res_transaction_id := jr_transaction_id r |}.

Class ReplyReader `{Client.ClientEnv} `{StrDebug} : Prop := {
  preview_read_back p : Client.preview_from_value (preview_value p) = Ok p;
  result_read_back r s :
    jr_status r = job_state_str s -> Client.result_from_value (job_result_value r) = Ok (envelope_of r s);
  history_read_back l : Client.history_from_value (JArr (map history_value l)) = Ok l }.

(** ** Requests *)

Lemma reads_opt_value o : reads_option JStr o (Some (opt_value o)).
Proof. destruct o; [done|by right]. Qed.

Lemma reads_opt_nat o : reads_option nat_value o (Some (opt_nat_value o)).
Proof. destruct o; [done|by right]. Qed.

(** Every request the client writes encodes the request it means. *)
Lemma client_requests_encode :
  (forall rid, encodes_request (QueryState rid) (Client.state_request rid))
  /\ (forall name params, encodes_request (QueryAction ("cli-query-" ++ name) name params)
        (Client.query_action_request name params))
  /\ (forall limit sf af since, from_option (fun n => n <= U32_MAX)%N True limit ->
        encodes_request (QueryHistory "cli-query-history" limit sf af None since)
          (Client.query_history_request limit sf af since))
  /\ (forall name params unattended, encodes_request (Preview ("cli-preview-" ++ name) name params unattended)
        (Client.preview_request name params unattended))
  /\ (forall id, encodes_request (ApprovalDetails ("cli-approval-details-" ++ id) id)
        (Client.approval_details_request id))
  /\ (forall id, encodes_request (ApproveRequest ("cli-approve-" ++ id) id) (Client.approve_request id))
  /\ (forall name params, encodes_request (Describe ("cli-describe-" ++ name) name params)
        (Client.describe_request name params))
  /\ (forall id name params receipt, encodes_request (ExecuteRequest ("cli-exec-" ++ name) id name params receipt)
        (Client.execute_request id name params receipt)).
Proof.
  split_and!; intros; unfold encodes_request; cbv zeta;
    repeat match goal with |- _ /\ _ => split end;
    first [reflexivity | assumption | exact I | left; reflexivity
          | apply reads_opt_value | apply reads_opt_nat].
Qed.

(** ** Frames on the way *)

Section Session.
Context `{Client.ClientEnv} `{StrDebug} `{!ReplyReader}.

(** A frame that arrives in time and whole. *)
Definition delivers (secs : N) (r : DaemonResponse) (a : Reply) : Prop :=
  (rp_waited_ms a <= secs * 1000)%N
  /\ exists raw, rp_answer a = Ok raw /\ from_slice raw = Ok (response_value r).

(** A read that brings no frame: an error, or silence past the deadline. *)
Definition lost (a : Reply) : Prop :=
  (Client.EXECUTE_FRAME_TIMEOUT * 1000 < rp_waited_ms a)%N \/ exists e, rp_answer a = Err e.

(** The output lines among the frames, as they are shown. *)
Definition shown (l : list DaemonResponse) : list string :=
  omap (fun r => match r with JobProgress _ line => Some (strip_ansi (show_text line)) | _ => None end) l.

(** The way the client takes on one frame of an execution. *)
Lemma execute_frame r a rest :
  delivers Client.EXECUTE_FRAME_TIMEOUT r a ->
  match r with
  | JobStarted _ _ _ => Client.execute_frames (a :: rest) = Client.execute_frames rest
  | JobProgress _ line =>
      Client.execute_frames (a :: rest)
      = (strip_ansi (show_text line) :: (Client.execute_frames rest).1, (Client.execute_frames rest).2)
  | JobCompleted _ jr => forall s, jr_status jr = job_state_str s ->
      Client.execute_frames (a :: rest) = ([], Ok (envelope_of jr s))
  | ErrorResponse _ _ _ | ConflictResponse _ _ _ => exists e,
      Client.execute_frames (a :: rest) = ([], Err (Client.failed e))
  | _ => True
  end.
Proof.
  intros (Hw & raw & Ha & Hs). cbn [Client.execute_frames].
  rewrite (proj2 (N.leb_le _ _) Hw), Ha, Hs. cbn [negb].
  destruct r; try exact I.
  - reflexivity.
  - cbn. by destruct (Client.execute_frames rest).
  - intros s Hst. cbn -[job_result_value]. by rewrite (result_read_back _ _ Hst).
  - by eexists.
  - by eexists.
Qed.

Lemma execute_lost rest :
  Forall lost rest -> exists f, Client.execute_frames rest = ([], Err f) /\ Client.ef_outcome_unknown f = true.
Proof.
  intros Hl. destruct rest as [|a rest]; [by eexists|]. apply Forall_cons in Hl as [Ha _].
  cbn [Client.execute_frames]. destruct (negb _) eqn:Ew; [by eexists|].
  apply negb_false_iff, N.leb_le in Ew. destruct Ha as [Ha|[e ->]]; [lia|by eexists].
Qed.

(** Reports are passed over, their lines shown. *)
Lemma execute_reports l frames rest :
  Forall2 (delivers Client.EXECUTE_FRAME_TIMEOUT) l frames -> Forall (fun f => is_final f = false) l ->
  Client.execute_frames (frames ++ rest)
  = (shown l ++ (Client.execute_frames rest).1, (Client.execute_frames rest).2).
Proof.
  induction 1 as [|r a l frames Hd Hl IH]; intros Hf.
  - cbn. by destruct (Client.execute_frames rest).
  - apply Forall_cons in Hf as [Hr Hf]. specialize (IH Hf). cbn [app].
    pose proof (execute_frame r a (frames ++ rest) Hd) as He.
    destruct r; try discriminate Hr; rewrite He, IH; reflexivity.
Qed.
End Session.

(** ** The verdict of an execution *)

Section Verdict.
Context `{WireEnv} `{!RequestReader} `{Client.ClientEnv} `{StrDebug} `{!ReplyReader}.
Context `{DispatcherEnv} `{StoreEnv} `{Crypto} `{ActionCatalogue}.
Variables (state : DaemonState) (caller : CallerAttribution).

(** What the daemon does with a value the client wrote. *)
Definition served (v : json) : prog (result HandlerError ()) := serve state caller (request_from_value v).

Lemma served_request r v : encodes_request r v -> served v = handle_request state caller r.
Proof. intros Hv. unfold served, serve. by rewrite (reads_request _ _ Hv). Qed.

Variables (id name : string) (params : json) (receipt : string).

Lemma execute_encodes :
  encodes_request (ExecuteRequest ("cli-exec-" ++ name) id name params receipt)
    (Client.execute_request id name params receipt).
Proof. apply client_requests_encode. Qed.

Definition execution := served (Client.execute_request id name params receipt).

Lemma execution_is : execution = handle_request state caller (ExecuteRequest ("cli-exec-" ++ name) id name params receipt).
Proof. apply served_request, execute_encodes. Qed.

(** What the client is told is true of the daemon's run: [Ok], the reported status
    is the one the executor's answer stands for; a known failure, nothing was done;
    otherwise the final frame did not arrive. *)
Definition true_verdict (tr : list event) (l : list DaemonResponse)
    (outcome : result Client.ExecuteFailure ResultEnvelope) : Prop :=
  match outcome with
  | Ok envelope => res_transaction_id envelope = id /\ exists spec lines output,
      mkEvent _ (Execute spec) (lines, output) ∈ tr /\ true_status tr spec output (res_status envelope)
  | Err f => if Client.ef_outcome_unknown f then Forall (fun r => is_final r = false) l else uncommitted tr
  end.

(** The final frame of an execution. *)
Lemma final_verdict tr res f a rest :
  runs execution tr res -> f ∈ sent tr -> is_final f = true ->
  delivers Client.EXECUTE_FRAME_TIMEOUT f a ->
  (Client.execute_frames (a :: rest)).1 = []
  /\ forall l, true_verdict tr l (Client.execute_frames (a :: rest)).2.
Proof.
  rewrite execution_is. intros Hr Hin Hf Hd.
  pose proof (execute_frame f a rest Hd) as He. pose proof (sent_addressed _ _ _ _ _ _ Hr Hin) as Ha.
  destruct f; try discriminate Hf; cbn [answers_to] in Ha; try discriminate Ha;
    try (by destruct Ha as (? & ?)); try (by destruct Ha as (? & ? & ?));
    try (by destruct Ha as (? & ? & ? & ?)); try (by destruct Ha as (? & ? & ? & ? & ? & ?)).
  - destruct (sent_in _ _ Hin) as (pre & x & suf & E).
    destruct (request_runs _ _ _ _ _ Hr) as [_ Hall]. destruct (Hall _ _ _ _ _ E) as [_ Hb].
    destruct Hb as (spec & lines & output & s & Hev & Hst & Htrue). rewrite (He s Hst). split; [done|].
    intros l. split; [by injection Ha as ->|]. exists spec, lines, output.
    assert (Hsub : forall ev, ev ∈ pre -> ev ∈ tr) by (intros ev Hp; rewrite E; apply elem_of_app; by left).
    split; [by apply Hsub|]. by apply (true_status_mono pre).
  - destruct He as [e ->]. split; [done|]. intros l. by eapply refused_uncommitted.
  - destruct He as [e ->]. split; [done|]. intros l. by eapply refused_uncommitted.
Qed.

Lemma verdict tr res l frames rest :
  runs execution tr res -> l `prefix_of` sent tr ->
  Forall2 (delivers Client.EXECUTE_FRAME_TIMEOUT) l frames -> Forall lost rest ->
  (Client.execute_frames (frames ++ rest)).1 = shown l
  /\ true_verdict tr l (Client.execute_frames (frames ++ rest)).2.
Proof.
  intros Hr [more Hl] Hd Hrest.
  destruct (existsb is_final l) eqn:Ef.
  - rewrite execution_is in Hr.
    destruct (final_is_last _ _ _ _ _ Hr) as (reports & f & Es & Hrep & Hf).
    { by rewrite Hl, existsb_app, Ef. }
    rewrite <-execution_is in Hr.
    assert (l = reports ++ [f]) as ->.
    { rewrite Hl in Es. destruct more as [|m more _] using rev_ind; [by rewrite app_nil_r in Es|].
      rewrite app_assoc in Es. apply app_inj_tail in Es as [Es _]. exfalso.
      rewrite <-Es, Forall_app in Hrep. destruct Hrep as [Hrep _].
      apply existsb_exists in Ef as (g & Hg & Hfin). rewrite Forall_forall in Hrep.
      rewrite <-list_elem_of_In in Hg. specialize (Hrep _ Hg). congruence. }
    apply Forall2_app_inv_l in Hd as (fr1 & fr2 & Hd1 & Hd2 & ->).
    apply Forall2_cons_inv_l in Hd2 as (a & nil & Ha & Hnil & ->). apply Forall2_nil_inv_l in Hnil as ->.
    rewrite <-app_assoc, (execute_reports _ _ _ Hd1 Hrep). cbn [app fst snd].
    destruct (final_verdict tr res f a rest Hr) as [E1 E2]; [|done|done|].
    { rewrite Es. apply elem_of_app. right. by left. }
    split; [|by apply E2]. rewrite E1. unfold shown. rewrite omap_app. f_equal.
    by destruct f.
  - assert (Hrep : Forall (fun f => is_final f = false) l).
    { apply Forall_forall. intros f Hf. destruct (is_final f) eqn:E; [|done].
      rewrite <-Ef. symmetry. apply existsb_exists. exists f. by rewrite <-list_elem_of_In. }
    rewrite (execute_reports _ _ _ Hd Hrep).
    destruct (execute_lost rest Hrest) as (f & -> & Hu). cbn [fst snd]. rewrite app_nil_r.
    split; [done|]. cbn. by rewrite Hu.
Qed.
End Verdict.

(** C9: the client's verdict is what the daemon did. A client writes an execution
    request; the daemon runs it (in any run, whatever the store, the host and other
    connections do) and the client gets the first frames of it, whole and in time,
    and then nothing but errors or silence. Then the lines shown are exactly those
    sent, in order, and: a result carries this transaction and a status that follows
    from what the executor answered, with a rollback only if the rollback succeeded;
    a failure the client calls known means the daemon recorded, approved and ran
    nothing; and the client calls the outcome unknown only when the final frame did
    not arrive. *)
Theorem client_verdict_is_true `{WireEnv} `{!RequestReader} `{Client.ClientEnv} `{StrDebug} `{!ReplyReader}
    `{DispatcherEnv} `{StoreEnv} `{Crypto} `{ActionCatalogue}
    state caller id name params receipt tr res l frames rest :
  runs (execution state caller id name params receipt) tr res -> l `prefix_of` sent tr ->
  Forall2 (delivers Client.EXECUTE_FRAME_TIMEOUT) l frames -> Forall lost rest ->
  (Client.execute_frames (frames ++ rest)).1 = shown l
  /\ true_verdict id tr l (Client.execute_frames (frames ++ rest)).2.
Proof. intros Hr Hl Hd Hrest. by eapply verdict. Qed.

(** ** Previews, approvals and receipts *)

Lemma nonempty_str s x : Client.nonempty (JStr s) = Some x -> x = s.
Proof. unfold Client.nonempty. cbn. case_match; [discriminate|]. by intros [= ->]. Qed.

Ltac read_nonempty :=
  match goal with |- context [Client.nonempty (JStr ?s)] =>
    let E := fresh "E" in
    destruct (Client.nonempty (JStr s)) eqn:E; [apply nonempty_str in E as ->|discriminate]
  end.

Section Stored.
Context `{WireEnv} `{!RequestReader} `{Client.ClientEnv} `{StrDebug} `{!ReplyReader}.
Context `{DispatcherEnv} `{StoreEnv} `{Crypto} `{ActionCatalogue}.
Variables (state : DaemonState) (caller : CallerAttribution).
Variables (target : SocketTarget) (link : Link) (f : DaemonResponse) (a : Reply) (more : list Reply).
Hypothesis Hreads : ln_reads link = a :: more.
Hypothesis Harrives : delivers Client.SOCKET_TIMEOUT f a.

(** The reply an operation works on is the frame that arrived. *)
Lemma exchange_reply v resp : Client.exchange target link v = Ok resp -> resp = response_value f.
Proof.
  destruct Harrives as (Hw & raw & Ha & Hs). unfold Client.exchange, Client.read_within. rewrite Hreads.
  intros E. destruct (Client.connect_async target link); [|discriminate E]. cbn [mbind result_bind] in E.
  destruct (to_vec v); [|discriminate E]. destruct (Client.write_outcome _ _) as [[]|]; [|discriminate E..].
  rewrite (proj2 (N.leb_le _ _) Hw), Ha, Hs in E. congruence.
Qed.

(** A frame of a request's run, as backed by the run. *)
Lemma served_backed r v tr res :
  encodes_request r v -> runs (served state caller v) tr res -> f ∈ sent tr ->
  answers_to r f /\ exists pre, backed pre f /\ forall ev, ev ∈ pre -> ev ∈ tr.
Proof.
  intros Hv Hr Hin. rewrite (served_request _ _ _ _ Hv) in Hr. split; [by eapply sent_addressed|].
  destruct (sent_in _ _ Hin) as (pre & x & suf & E).
  destruct (request_runs _ _ _ _ _ Hr) as [_ Hall]. destruct (Hall _ _ _ _ _ E) as [_ Hb].
  exists pre. split; [done|]. intros ev Hev. rewrite E. apply elem_of_app. by left.
Qed.

Lemma preview_stored name params unattended p tr res :
  runs (served state caller (Client.preview_request name params unattended)) tr res -> f ∈ sent tr ->
  Client.preview_declaring target link name params unattended = Ok p ->
  exists t rec, mkEvent _ (RecordPreviewed t (Client.pp_preview p)) (Ok rec) ∈ tr
    /\ tr_transaction_id rec = Client.pp_transaction_id p.
Proof.
  intros Hr Hin. unfold Client.preview_declaring.
  destruct (Client.exchange target link _) as [resp|] eqn:E; [|discriminate].
  apply exchange_reply in E as ->. cbn [mbind result_bind].
  destruct (served_backed (Preview ("cli-preview-" ++ name) name params unattended) _ _ _
    ltac:(apply client_requests_encode) Hr Hin) as (_ & pre & Hb & Hsub).
  destruct f; cbn -[preview_value Client.nonempty]; try discriminate. rewrite preview_read_back.
  cbn -[preview_value Client.nonempty]. read_nonempty. intros [= <-].
  destruct Hb as (t & rec & Hev & Hid). exists t, rec. auto.
Qed.

Lemma details_stored id d tr res :
  runs (served state caller (Client.approval_details_request id)) tr res -> f ∈ sent tr ->
  Client.approval_details target link id = Ok d ->
  Client.av_transaction_id d = id /\ exists rec, mkEvent _ (GetTx id) (Ok (Some rec)) ∈ tr
    /\ tr_action_name rec = Client.av_action_name d
    /\ mkEvent _ (GetPreview id) (Ok (Some (Client.av_preview d))) ∈ tr.
Proof.
  intros Hr Hin. unfold Client.approval_details.
  destruct (Client.exchange target link _) as [resp|] eqn:E; [|discriminate].
  apply exchange_reply in E as ->. cbn [mbind result_bind].
  destruct (served_backed (ApprovalDetails ("cli-approval-details-" ++ id) id) _ _ _
    ltac:(apply client_requests_encode) Hr Hin) as (Ha & pre & Hb & Hsub).
  destruct f; cbn -[preview_value Client.nonempty]; try discriminate. assert (transaction_id = id) as -> by (cbn [answers_to] in Ha; congruence).
  unfold Client.required. cbn -[preview_value Client.nonempty].
  read_nonempty. cbn -[preview_value Client.nonempty]. read_nonempty.
  cbn -[preview_value]. rewrite preview_read_back. intros [= <-].
  destruct Hb as (rec & Htx & Hn & Hp). cbn. eauto 10.
Qed.

Lemma receipt_stored id receipt tr res :
  runs (served state caller (Client.approve_request id)) tr res -> f ∈ sent tr ->
  Client.approve target link id = Ok receipt ->
  exists who, mkEvent _ (Approve id who) (Ok (Some receipt)) ∈ tr.
Proof.
  intros Hr Hin. unfold Client.approve.
  destruct (Client.exchange target link _) as [resp|] eqn:E; [|discriminate].
  apply exchange_reply in E as ->. cbn [mbind result_bind].
  destruct (served_backed (ApproveRequest ("cli-approve-" ++ id) id) _ _ _
    ltac:(apply client_requests_encode) Hr Hin) as (Ha & pre & Hb & Hsub).
  destruct f; cbn -[preview_value Client.nonempty]; try discriminate. assert (transaction_id = id) as -> by (cbn [answers_to] in Ha; congruence).
  cbn -[Client.nonempty]. read_nonempty. intros [= <-].
  destruct Hb as [who Hev]. eauto.
Qed.
End Stored.

(** What the client gets is what the daemon stored. When the reply that arrives
    is a frame the daemon sent for the client's request: a preview comes with the
    transaction it was recorded under; the details shown before an approval are
    those of the transaction asked about, its recorded action and the preview stored
    with it; a receipt is one the store granted for that very transaction. *)
Theorem replies_are_what_was_stored `{WireEnv} `{!RequestReader} `{Client.ClientEnv} `{StrDebug} `{!ReplyReader}
    `{DispatcherEnv} `{StoreEnv} `{Crypto} `{ActionCatalogue} state caller target link f a more v tr res :
  ln_reads link = a :: more -> delivers Client.SOCKET_TIMEOUT f a ->
  runs (served state caller v) tr res -> f ∈ sent tr ->
  (forall name params unattended p, v = Client.preview_request name params unattended ->
     Client.preview_declaring target link name params unattended = Ok p ->
     exists t rec, mkEvent _ (RecordPreviewed t (Client.pp_preview p)) (Ok rec) ∈ tr
       /\ tr_transaction_id rec = Client.pp_transaction_id p)
  /\ (forall id d, v = Client.approval_details_request id -> Client.approval_details target link id = Ok d ->
     Client.av_transaction_id d = id /\ exists rec, mkEvent _ (GetTx id) (Ok (Some rec)) ∈ tr
       /\ tr_action_name rec = Client.av_action_name d
       /\ mkEvent _ (GetPreview id) (Ok (Some (Client.av_preview d))) ∈ tr)
  /\ (forall id receipt, v = Client.approve_request id -> Client.approve target link id = Ok receipt ->
     exists who, mkEvent _ (Approve id who) (Ok (Some receipt)) ∈ tr).
Proof.
  intros Hreads Hd Hr Hin. split_and!.
  - intros name params unattended p -> Hc. by eapply preview_stored.
  - intros id d -> Hc. by eapply details_stored.
  - intros id receipt -> Hc. by eapply receipt_stored.
Qed.

(** ** A session *)

Module SessionSample.
#[local] Existing Instance Toy.crypto.
#[local] Existing Instance StoreSample.env.
#[local] Existing Instance DaemonSample.env.

#[export] Instance str_debug : StrDebug := fun s => s.

(** A reader of requests, field by field. *)
Definition str_field (k : string) (v : json) : option string := jget k v ≫= as_str.
Definition opt_field {A} (read : json -> option A) (k : string) (v : json) : option (option A) :=
  match jget k v with None | Some JNull => Some None | Some x => Some <$> read x end.
Definition u32_value (v : json) : option N := n ← as_u64 v; if (n <=? U32_MAX)%N then Some n else None.
Definition flag_field (k : string) (v : json) : option bool :=
  match jget k v with None => Some false | Some x => as_bool x end.

Definition read_fields (tag rid : string) (v : json) : option DaemonRequest :=
  if (tag =? "query_state")%string then Some (QueryState rid)
  else if (tag =? "preview")%string then
    name ← str_field "action_name" v; params ← jget "params" v; u ← flag_field "unattended" v;
    Some (Preview rid name params u)
  else if (tag =? "approve")%string then id ← str_field "transaction_id" v; Some (ApproveRequest rid id)
  else if (tag =? "approval_details")%string then id ← str_field "transaction_id" v; Some (ApprovalDetails rid id)
  else if (tag =? "cancel")%string then id ← str_field "transaction_id" v; Some (CancelRequest rid id)
  else if (tag =? "execute")%string then
    id ← str_field "transaction_id" v; name ← str_field "action_name" v; params ← jget "params" v;
    receipt ← str_field "approval_receipt" v; Some (ExecuteRequest rid id name params receipt)
  else if (tag =? "query_action")%string then
    name ← str_field "action_name" v; params ← jget "params" v; Some (QueryAction rid name params)
  else if (tag =? "describe")%string then
    name ← str_field "action_name" v; params ← jget "params" v; Some (Describe rid name params)
  else if (tag =? "query_history")%string then
    limit ← opt_field u32_value "limit" v; sf ← opt_field as_str "status_filter" v;
    af ← opt_field as_str "action_filter" v; hours ← opt_field u32_value "since_hours" v;
    since ← opt_field as_str "since" v; Some (QueryHistory rid limit sf af hours since)
  else None.

Definition read_request (v : json) : result string DaemonRequest :=
  match tag ← str_field "type" v; rid ← str_field "request_id" v; read_fields tag rid v with
  | Some r => Ok r
  | None => Err "not a request"
  end.

#[export] Instance wire : WireEnv := {|
  value_from_slice := fun _ => Err "no bytes";
  request_from_value := read_request;
  auth_frame_from_slice := fun _ => Err "no bytes" |}.

Lemma str_field_some k v s : jget k v = Some (JStr s) -> str_field k v = Some s.
Proof. unfold str_field. by intros ->. Qed.

Lemma opt_str_some o k v : reads_option JStr o (jget k v) -> opt_field as_str k v = Some o.
Proof. unfold opt_field. destruct o; cbn; [by intros ->|]. by intros [->| ->]. Qed.

Lemma opt_u32_some o k v :
  reads_option nat_value o (jget k v) -> from_option (fun n => n <= U32_MAX)%N True o ->
  opt_field u32_value k v = Some o.
Proof.
  unfold opt_field, u32_value. destruct o as [n|]; cbn; [|by intros [->| ->] _].
  intros -> Hn. cbn. by rewrite (proj2 (N.leb_le _ _) Hn).
Qed.

Lemma flag_some b k v :
  jget k v = Some (JBool b) \/ jget k v = None /\ b = false -> flag_field k v = Some b.
Proof. unfold flag_field. by intros [->|[-> ->]]. Qed.

(** The fields a request has are found. *)
Ltac find_fields :=
  repeat first
    [ progress cbn [mbind option_bind]
    | erewrite str_field_some by eassumption
    | erewrite flag_some by eassumption
    | erewrite opt_str_some by eassumption
    | erewrite opt_u32_some by eassumption
    | match goal with Hp : jget "params" ?v = Some _ |- _ => rewrite Hp end ].

#[export] Instance request_reader : RequestReader.
Proof.
  intros r v [Ht Hf]. unfold request_from_value, wire, read_request.
  rewrite (str_field_some _ _ _ Ht). cbn [mbind option_bind].
  destruct r; cbn [request_tag]; cbv zeta in *; destruct_and?; find_fields;
    unfold read_fields; cbn [String.eqb Ascii.eqb Bool.eqb]; find_fields; reflexivity.
Qed.

(** A reader of results. *)
Definition read_strings (v : json) : option (list string) :=
  l ← as_array v; mapM as_str l.
Definition read_state (s : string) : option JobState :=
  find (fun st => (job_state_str st =? s)%string)
    [Queued; Running; Succeeded; Failed; Canceled; RolledBack; NeedsReboot].
Definition read_risk (s : string) : option RiskLevel :=
  find (fun r => (risk_str r =? s)%string) [Low; Medium; High].

Definition read_result (v : json) : option ResultEnvelope :=
  status ← str_field "status" v; state ← read_state status; summary ← str_field "summary" v;
  warnings ← jget "warnings" v ≫= read_strings; job ← opt_field as_str "job_id" v;
  reboot ← jget "needs_reboot" v ≫= as_bool; rollback ← opt_field as_str "rollback_ref" v;
  id ← str_field "transaction_id" v;
  Some (mkResultEnvelope state summary warnings job reboot rollback id).

Definition read_preview (v : json) : option PreviewEnvelope :=
  summary ← str_field "summary" v; risk ← str_field "risk_level" v ≫= read_risk;
  current ← jget "current_state" v; proposed ← jget "proposed_change" v;
  effects ← jget "expected_side_effects" v ≫= read_strings; reboot ← jget "reboot_required" v ≫= as_bool;
  rollback ← jget "rollback_available" v ≫= as_bool; warnings ← jget "warnings" v ≫= read_strings;
  hash ← str_field "request_hash" v;
  Some (mkPreviewEnvelope summary risk current proposed effects reboot rollback warnings hash).

Definition read_history (v : json) : option JobHistoryEntry :=
  id ← str_field "transaction_id" v; name ← str_field "action_name" v;
  risk ← str_field "risk_level" v ≫= read_risk; state ← str_field "status" v ≫= read_state;
  summary ← str_field "summary" v; created ← str_field "created_at" v;
  Some (mkHistory id name risk state summary created).

Lemma read_strings_value l : read_strings (strings_value l) = Some l.
Proof. unfold read_strings, strings_value. cbn. induction l as [|s l IH]; [done|]. cbn. by rewrite IH. Qed.
Lemma read_state_str s : read_state (job_state_str s) = Some s.
Proof. by destruct s. Qed.
Lemma read_risk_str r : read_risk (risk_str r) = Some r.
Proof. by destruct r. Qed.

Definition or_err {A} (o : option A) : result string A := match o with Some a => Ok a | None => Err "malformed" end.

(** Frames are numbered; [table] is what they hold. *)
Definition client (table : list json) : Client.ClientEnv := {|
  Client.to_vec := fun _ => Ok [];
  Client.from_slice := fun bs => match bs with [c] => or_err (table !! nat_of_ascii c) | _ => Err "malformed" end;
  Client.preview_from_value := fun v => or_err (read_preview v);
  Client.result_from_value := fun v => or_err (read_result v);
  Client.history_from_value := fun v => or_err (as_array v ≫= mapM read_history);
  Client.distro_from_value := fun _ => None;
  Client.debug_value := fun _ => "value"; Client.display_value := fun _ => "value";
  Client.strip_ansi := fun s => s |}.

Lemma read_history_value h : read_history (history_value h) = Some h.
Proof.
  destruct h. unfold read_history, str_field. cbn -[read_state job_state_str read_risk risk_str].
  rewrite read_risk_str. cbn -[read_state job_state_str]. by rewrite read_state_str.
Qed.
Lemma read_histories l : mapM read_history (map history_value l) = Some l.
Proof. induction l as [|h l IH]; [done|]. cbn [map mapM]. by rewrite read_history_value, IH. Qed.

Lemma reply_reader table : @ReplyReader (client table) str_debug.
Proof.
  split.
  - intros []. cbn -[read_strings strings_value read_risk risk_str].
    unfold read_preview, str_field. cbn -[read_strings strings_value read_risk risk_str].
    rewrite read_risk_str. cbn -[read_strings strings_value]. rewrite read_strings_value.
    cbn -[read_strings strings_value]. by rewrite read_strings_value.
  - intros [] s Hs. cbn in Hs. subst. cbn -[read_strings strings_value read_state job_state_str].
    unfold read_result, str_field. cbn -[read_strings strings_value read_state job_state_str].
    rewrite read_state_str. cbn -[read_strings strings_value]. rewrite read_strings_value.
    by destruct jr_rollback_ref.
  - intros l. cbn -[mapM]. by rewrite read_histories.
Qed.

(** An upgrade that is executed, and the frames of it. *)
Definition host : oracle := DaemonSample.host "AptUpgrade" (Ok "").
Definition upgrade : prog (result HandlerError ()) :=
  execution DaemonSample.state DaemonSample.caller "t1" "AptUpgrade" (JObj []) "r".
Definition upgrade_trace : list event := (interp host 0 upgrade).1.
Definition table : list json := map response_value (sent upgrade_trace).
Definition frame (n : nat) : Reply := Client.mkReply 0 (Ok [ascii_of_nat n]).
(** The connection breaks after [n] frames. *)
Definition frames (n : nat) : list Reply := map frame (seq 0 n).
Definition broken : list Reply := [Client.mkReply 0 (Err "connection reset by peer")].

Lemma frames_delivered n :
  n = 2 \/ n = 6 ->
  Forall2 (@delivers (client table) str_debug Client.EXECUTE_FRAME_TIMEOUT) (take n (sent upgrade_trace)) (frames n).
Proof.
  intros [->| ->]; vm_compute take; cbn [frames map seq];
    repeat (constructor; [split; [vm_compute; discriminate|eexists; split; [reflexivity|vm_compute; reflexivity]]|]);
    constructor.
Qed.

Lemma broken_lost : Forall lost broken.
Proof. constructor; [right; by eexists|constructor]. Qed.

(** The approval of a transaction, and its receipt. *)
Definition approval : prog (result HandlerError ()) :=
  served DaemonSample.state DaemonSample.caller (Client.approve_request "t1").
Definition approval_trace : list event := (interp host 0 approval).1.
Definition receipt_frame : DaemonResponse := ApprovalResponse "cli-approve-t1" "t1" "r".
Definition link : Link :=
  Client.mkLink (Some (Ok tt)) (Ok tt) (Ok tt) None (Some (Ok tt)) (Some (Ok tt)) [frame 0].
Definition approval_client : Client.ClientEnv := client [response_value receipt_frame].
End SessionSample.

Section Witness.
Import SessionSample.
#[local] Existing Instance Toy.crypto.
#[local] Existing Instance StoreSample.env.
#[local] Existing Instance DaemonSample.env.

Lemma client_verdict_is_true_witness :
  @Client.execute_frames (client table) (frames 6)
  = (["Authorization passed for AptUpgrade"; "Executing AptUpgrade..."; "done"; "AptUpgrade completed with exit code 0"],
     Ok (mkResultEnvelope Succeeded "AptUpgrade completed successfully" [] (Some "j1") false None "t1"))
  /\ true_verdict "t1" upgrade_trace (sent upgrade_trace) (@Client.execute_frames (client table) (frames 6 ++ [])).2
  /\ true_verdict "t1" upgrade_trace (take 2 (sent upgrade_trace))
       (@Client.execute_frames (client table) (frames 2 ++ broken)).2.
Proof.
  split; [vm_compute; reflexivity|]. split.
  - refine (proj2 (@client_verdict_is_true _ _ (client table) _ (reply_reader table) _ _ _ _ DaemonSample.state
      DaemonSample.caller "t1" "AptUpgrade" (JObj []) "r" upgrade_trace (interp host 0 upgrade).2 (sent upgrade_trace) (frames 6) []
      (interp_runs _ _ _) _ (frames_delivered 6 _) _)); [by exists []; rewrite app_nil_r|by right|constructor].
  - refine (proj2 (@client_verdict_is_true _ _ (client table) _ (reply_reader table) _ _ _ _ DaemonSample.state
      DaemonSample.caller "t1" "AptUpgrade" (JObj []) "r" upgrade_trace (interp host 0 upgrade).2 (take 2 (sent upgrade_trace)) (frames 2) broken
      (interp_runs _ _ _) _ (frames_delivered 2 _) broken_lost)); [|by left].
    exists (drop 2 (sent upgrade_trace)). by rewrite take_drop.
Defined.

Lemma replies_are_what_was_stored_witness :
  @Client.approve approval_client (Client.Unix "/run/sysknife/daemon.sock") link "t1" = Ok "r"
  /\ exists who, mkEvent _ (Approve "t1" who) (Ok (Some "r")) ∈ approval_trace.
Proof.
  split; [vm_compute; reflexivity|].
  destruct (@replies_are_what_was_stored _ _ approval_client _ (reply_reader _) _ _ _ _ DaemonSample.state
    DaemonSample.caller (Client.Unix "/run/sysknife/daemon.sock") link receipt_frame (frame 0) []
    (Client.approve_request "t1") approval_trace (interp host 0 approval).2) as (_ & _ & Hr).
  - reflexivity.
  - split; [vm_compute; discriminate|]. eexists. split; [reflexivity|vm_compute; reflexivity].
  - apply interp_runs.
  - vm_compute. left.
  - apply Hr; [reflexivity|vm_compute; reflexivity].
Defined.
End Witness.
