(* ===== verification/Collector.v ===== *)
(** * The state collector

    crates/sysknife-daemon/src/state_collector.rs: the probes whose answers are the
    snapshot the planner and the previews see, the parsers of their output, and the
    machine identity. What a command prints is the argument [runner]
    ([CommandRunner]); [real_run] is its production instance, from what the operating
    system answers. serde_json's text parser is the argument [json_from_str]. *)

From Stdlib Require Import Ascii String NArith Lia.
From stdpp Require Import base list strings.
From S2P Require Import Prelude Json Types Distro Signing Executor Store Effects Dispatcher Approval PlanTools Wire Client.

(** ** Running a probe *)

(** [io::Error]: whether its kind is [NotFound], and its [Display]. *)
Record IoFailure : Type := mkIoFailure { io_not_found : bool; io_display : string }.

(** [std::process::Output], with the [Display] of its status. *)
Record ProcessOutput : Type := mkProcessOutput {
  po_success : bool; po_status : string; po_stdout : string; po_stderr : string }.

Definition Runner : Type := string -> list string -> result IoFailure string.

Definition real_run (spawn : string -> list string -> result IoFailure ProcessOutput) : Runner :=
  fun program args =>
    output ← spawn program args;
    if negb (po_success output) then
      Err (mkIoFailure false
        (program ++ " exited with status " ++ po_status output ++ ": "
         ++ str_trim (from_utf8_lossy (po_stderr output)))%string)
    else Ok (from_utf8_lossy (po_stdout output)).

(** The value, and the line it leaves on the daemon's stderr. *)
Definition probe_or_warn {T} (label : string) (empty : T) (r : result IoFailure string)
    (parse : string -> T) : list string * T :=
  match r with
  | Ok s => ([], parse s)
  | Err e =>
      (if io_not_found e then []
       else ["[sysknife-daemon] state: " ++ label ++ " probe failed (" ++ io_display e
             ++ "); reporting empty"]%string, empty)
  end.

(** ** Parsers *)

Definition parse_service_lines (output : string) : list string :=
  omap (fun l => head (split_whitespace l)) (lines output).

Definition parse_lines (output : string) : list string :=
  filter (fun l => is_empty l = false) (map str_trim (lines output)).

Definition local_user (line : string) : option string :=
  let fields := split_on ":" line in
  if length fields <? 7 then None
  else
    username ← fields !! 0;
    uid ← fields !! 2 ≫= parse_u32;
    shell ← fields !! 6;
    if (1000 <=? uid)%N && negb (username =? "nobody")%string && negb (username =? "nfsnobody")%string
       && negb (ends_with "nologin" shell) && negb (ends_with "/false" shell)
    then Some username else None.

Definition parse_local_users (output : string) : list string := omap local_user (lines output).

Section Json.
Variable json_from_str : string -> option json.

Definition booted_deployment (json_output : string) : option json :=
  val ← json_from_str json_output;
  (jget "deployments" val ≫= as_array) ≫= head.

Definition parse_deployment_summary (json_output : string) : string :=
  match booted_deployment json_output with
  | None => ""
  | Some dep =>
      let origin := default "unknown" (jget "origin" dep ≫= as_str) in
      let is_booted := default false (jget "booted" dep ≫= as_bool) in
      let version := jget "version" dep ≫= as_str in
      let tags := (if is_booted then ["booted"] else [])
                  ++ match version with Some v => [("v" ++ v)%string] | None => [] end in
      match tags with
      | [] => origin
      | _ => (origin ++ " (" ++ join ", " tags ++ ")")%string
      end
  end.

Definition requested (key : string) (booted : json) : list string :=
  match jget key booted ≫= as_array with
  | Some arr => filter (fun s => is_empty s = false) (omap as_str arr)
  | None => []
  end.

Definition parse_layered_packages (json_output : string) : list string :=
  match booted_deployment json_output with
  | None => []
  | Some booted => requested "requested-packages" booted ++ requested "requested-local-packages" booted
  end.

(** ** The snapshot *)

(** The probes, besides the host name: label, program and arguments. *)
Definition RPM_OSTREE_ARGS : list string := ["status"; "--booted"; "--json"].
Definition SYSTEMCTL_ARGS : list string :=
  ["list-units"; "--type=service"; "--state=running"; "--no-legend"; "--no-pager"; "--plain"].
Definition FLATPAK_ARGS : list string := ["list"; "--columns=application"].
Definition TOOLBOX_ARGS : list string := ["list"; "--containers"].
Definition PODMAN_ARGS : list string := ["ps"; "--format"; "{{.Names}}"].
Definition GETENT_ARGS : list string := ["passwd"; "--service"; "files"].

Definition probe (runner : Runner) {T} (empty : T) (program : string) (args : list string)
    (parse : string -> T) : list string * T :=
  probe_or_warn program empty (runner program args) parse.

(** The lines left on stderr, and the snapshot. *)
Definition collect_state (runner : Runner) (machine : option string)
    : list string * result string CollectedState :=
  match runner "hostname" [] with
  | Err e => ([], Err ("command failed for hostname: " ++ io_display e)%string)
  | Ok out =>
      let host_name := str_trim out in
      let '(w1, rpm_ostree_output) := probe runner "" "rpm-ostree" RPM_OSTREE_ARGS str_trim in
      let deployment := parse_deployment_summary rpm_ostree_output in
      let layered_packages := parse_layered_packages rpm_ostree_output in
      let '(w2, services) := probe runner [] "systemctl" SYSTEMCTL_ARGS parse_service_lines in
      let '(w3, flatpaks) := probe runner [] "flatpak" FLATPAK_ARGS parse_lines in
      let '(w4, toolboxes) := probe runner [] "toolbox" TOOLBOX_ARGS parse_lines in
      let '(w5, containers) := probe runner [] "podman" PODMAN_ARGS parse_lines in
      let '(w6, users) := probe runner [] "getent" GETENT_ARGS parse_local_users in
      (w1 ++ w2 ++ w3 ++ w4 ++ w5 ++ w6,
       Ok (mkCollected None host_name deployment services flatpaks toolboxes layered_packages
             containers users machine))
  end.

End Json.

(** ** The machine's identity *)

Section Machine.
Context `{Crypto}.

Definition hash_machine_id (machine_id : string) : string :=
  hex_encode (sha256 (bytes_of "sysknife-machine-id-v1" ++ [NUL] ++ bytes_of machine_id)).

(** [raw] is what /etc/machine-id reads as, if it can be read. *)
Definition machine_id_hash (raw : option string) : option string :=
  raw ← raw;
  let trimmed := str_trim raw in
  if is_empty trimmed then None else Some (hash_machine_id trimmed).

End Machine.

(** ** What the snapshot says *)

(** The probes and the command each runs. *)
Definition PROBES : list (string * list string) := [
  ("rpm-ostree", RPM_OSTREE_ARGS); ("systemctl", SYSTEMCTL_ARGS); ("flatpak", FLATPAK_ARGS);
  ("toolbox", TOOLBOX_ARGS); ("podman", PODMAN_ARGS); ("getent", GETENT_ARGS)].

Definition broke (runner : Runner) (p : string * list string) : option string :=
  match runner p.1 p.2 with
  | Err e => if io_not_found e then None
             else Some ("[sysknife-daemon] state: " ++ p.1 ++ " probe failed (" ++ io_display e
                        ++ "); reporting empty")%string
  | Ok _ => None
  end.

Lemma probe_fst runner {T} (empty : T) program args parse :
  (probe runner empty program args parse).1 = option_list (broke runner (program, args)).
Proof. unfold probe, probe_or_warn, broke. cbn. destruct runner as [s|e]; [done|]. by destruct io_not_found. Qed.

Lemma probe_snd runner {T} (empty : T) program args parse :
  (probe runner empty program args parse).2
  = match runner program args with Ok s => parse s | Err _ => empty end.
Proof. unfold probe, probe_or_warn. by destruct runner. Qed.

Lemma option_list_omap {A B} (f : A -> option B) x l :
  omap f (x :: l) = option_list (f x) ++ omap f l.
Proof. cbn. by destruct (f x). Qed.

(** Only the host name is required; a tool that is missing is passed over, and one that
    breaks is reported. *)
Theorem broken_probes_are_reported js runner machine :
  let '(warnings, r) := collect_state js runner machine in
  (is_ok r = true <-> is_ok (runner "hostname" []) = true)
  /\ (is_ok r = true -> warnings = omap (broke runner) PROBES).
Proof.
  unfold collect_state. destruct (runner "hostname" []) as [out|e]; [|done].
  repeat match goal with |- context [match probe ?r ?x ?p ?a ?f with _ => _ end] =>
    let w := fresh "w" in let v := fresh "v" in let E := fresh "E" in
    destruct (probe r x p a f) as [w v] eqn:E;
    apply (f_equal fst) in E; rewrite probe_fst in E; cbn [fst] in E end.
  split; [done|]. intros _. unfold PROBES. rewrite !option_list_omap. cbn [omap list_omap].
  subst. by rewrite app_nil_r.
Qed.

(** ** Local users *)

(** Whom the snapshot lists as a local user: the login of an entry with the seven fields
    of passwd(5), a user id of people, and a shell. *)
Lemma local_user_spec line u :
  local_user line = Some u <->
  exists fields uid shell, split_on ":" line = fields /\ 7 <= length fields
    /\ fields !! 0 = Some u /\ fields !! 2 ≫= parse_u32 = Some uid /\ fields !! 6 = Some shell
    /\ (1000 <= uid)%N /\ u <> "nobody" /\ u <> "nfsnobody"
    /\ ends_with "nologin" shell = false /\ ends_with "/false" shell = false.
Proof.
  unfold local_user. destruct (Nat.ltb_spec (length (split_on ":" line)) 7) as [Hl|Hl].
  { split; [done|]. intros (f & uid & sh & <- & ? & _). lia. }
  split.
  - intros (username & E0 & (uid & E2 & (shell & E6 & H)%bind_Some)%bind_Some)%bind_Some.
    case_match eqn:T; [|done]. simplify_eq. bools. exists (split_on ":" line), uid, shell.
    repeat split; try done. by apply N.leb_le.
  - intros (f & uid & shell & <- & _ & -> & E2 & E6 & Hu & N1 & N2 & S1 & S2).
    cbn [mbind option_bind] in *. rewrite E2, E6. cbn.
    rewrite (proj2 (N.leb_le _ _) Hu), (proj2 (String.eqb_neq _ _) N1), (proj2 (String.eqb_neq _ _) N2), S1, S2.
    done.
Qed.

Lemma local_users_are_people output u :
  u ∈ parse_local_users output <-> exists line, line ∈ lines output /\ local_user line = Some u.
Proof.
  unfold parse_local_users. rewrite list_elem_of_omap. naive_solver.
Qed.

(** ** Words *)

Lemma flush_words cur rest :
  Forall (fun w => is_empty w = false) rest -> Forall (fun w => is_empty w = false) (flush cur rest).
Proof. unfold flush. destruct (is_empty cur) eqn:E; [done|]. by constructor. Qed.

Lemma split_whitespace_words s : Forall (fun w => is_empty w = false) (split_whitespace s).
Proof.
  unfold split_whitespace. generalize (String.length s) as fuel, "" as cur. revert s.
  intros s fuel. revert s. induction fuel as [|fuel IH]; intros s cur; cbn [split_ws_go].
  { by apply flush_words. }
  destruct (find_map _ _); [by apply flush_words, IH|]. destruct s; [by apply flush_words|apply IH].
Qed.

(** No entry of a list of the snapshot is empty, whatever the tools print. *)
Lemma services_are_named output : Forall (fun w => is_empty w = false) (parse_service_lines output).
Proof.
  apply Forall_forall. intros w (l & _ & Hw)%list_elem_of_omap.
  pose proof (split_whitespace_words l) as H. destruct (split_whitespace l); [done|].
  cbn in Hw. simplify_eq. by inversion H.
Qed.

Lemma lines_are_named output : Forall (fun w => is_empty w = false) (parse_lines output).
Proof. apply Forall_forall. intros w [H _]%list_elem_of_filter. exact H. Qed.

Lemma packages_are_named js output : Forall (fun w => is_empty w = false) (parse_layered_packages js output).
Proof.
  unfold parse_layered_packages. destruct (booted_deployment js output) as [b|]; [|constructor].
  apply Forall_app; split; unfold requested; destruct (_ ≫= _); try constructor;
    apply Forall_forall; intros w [H _]%list_elem_of_filter; exact H.
Qed.

(** ** From the collector to the planner *)

(** The part of a snapshot the planner is shown. *)
Definition curated_of (s : CollectedState) : CuratedState :=
  mkCurated (cs_host_name s) (cs_deployment s) (cs_services s) (cs_flatpaks s) (cs_toolboxes s)
    (cs_layered_packages s) (cs_containers s) (cs_users s).

Lemma strings_from_written field i l : strings_from field i (map JStr l) = Ok l.
Proof. revert i. induction l as [|s l IH]; intros i; [done|]. cbn. by rewrite IH. Qed.

Lemma string_array_written field l : string_array field (strings_value l) = Ok l.
Proof. unfold string_array. cbn. apply strings_from_written. Qed.

Section Planning.
Context `{ClientEnv} `{StrDebug}.

(** What the planner is shown is what the daemon collected, field by field; a host without
    a name is refused, and nothing else is. *)
Lemma planner_sees_the_host (target : SocketTarget) (link : Link) rid s :
  exchange_sync target link (state_request "cli-state") = Ok (response_value (StateResponse rid s)) ->
  state_with_distro target link
  = if (cs_host_name s =? "")%string then Err (StateUnavailable "host_name must not be empty")
    else Ok (curated_of s,
             distro_from_value (match cs_host_distro s with Some d => distro_value d | None => JNull end)).
Proof.
  intros E. unfold state_with_distro. rewrite E. cbn -[string_array strings_value].
  rewrite !string_array_written. cbn. unfold curated_new. by destruct (_ =? _)%string.
Qed.

(** The same for the value of [machine_id_hash] `audit verify` compares. *)
Lemma client_sees_the_machine (target : SocketTarget) (link : Link) rid s :
  exchange_sync target link (state_request "cli-machine-id") = Ok (response_value (StateResponse rid s)) ->
  Client.machine_id_hash target link
  = h ← cs_machine_id_hash s; if is_empty h then None else Some h.
Proof.
  intros E. unfold Client.machine_id_hash. rewrite E. cbn. destruct (cs_machine_id_hash s) as [h|]; [|done].
  cbn. by destruct h.
Qed.

End Planning.

(** ** A host *)

Module CollectorSample.
Definition LFs : string := String LF "".
Definition status : json := JObj [("deployments", JArr [JObj [
  ("origin", JStr "fedora/41/x86_64/silverblue"); ("booted", JBool true); ("version", JStr "41.20260401.0");
  ("requested-packages", JArr [JStr "vim"; JStr "htop"])]])].
Definition js (s : string) : option json := if (s =? "status")%string then Some status else None.
Definition runner : Runner := fun program _ =>
  if (program =? "hostname")%string then Ok ("silverblue-lab" ++ LFs)%string
  else if (program =? "rpm-ostree")%string then Ok ("status" ++ LFs)%string
  else if (program =? "systemctl")%string then Ok ("sshd.service  loaded  active  running  OpenSSH server" ++ LFs)%string
  else if (program =? "getent")%string then
    Ok ("root:x:0:0:root:/root:/bin/bash" ++ LFs ++ "jane:x:1000:1000:Jane:/home/jane:/bin/bash" ++ LFs)%string
  else if (program =? "podman")%string then Err (mkIoFailure false "podman exited with status 125: no storage")
  else Err (mkIoFailure true "No such file or directory").

(** The host's snapshot; the broken tool is named on stderr, the missing ones are not. *)
Example a_host_is_described :
  collect_state js runner None
  = (["[sysknife-daemon] state: podman probe failed (podman exited with status 125: no storage); reporting empty"],
     Ok (mkCollected None "silverblue-lab" "fedora/41/x86_64/silverblue (booted, v41.20260401.0)"
           ["sshd.service"] [] [] ["vim"; "htop"] [] ["jane"] None)).
Proof. vm_compute. reflexivity. Qed.

(** A host whose [hostname] prints nothing. *)
Definition nameless : Runner := fun program args =>
  if (program =? "hostname")%string then Ok LFs else runner program args.
End CollectorSample.

(** The daemon takes an empty name for a snapshot; the planner's side refuses every snapshot
    without a name, so such a host cannot be planned for, and nothing says why. *)
Lemma nameless_host_is_collected_and_refused :
  (exists w s, collect_state CollectorSample.js CollectorSample.nameless None = (w, Ok s)
    /\ cs_host_name s = "")
  /\ (forall (target : SocketTarget) (link : Link) rid s (env : ClientEnv) (dbg : StrDebug), cs_host_name s = "" ->
      exchange_sync target link (state_request "cli-state") = Ok (response_value (StateResponse rid s)) ->
      state_with_distro target link = Err (StateUnavailable "host_name must not be empty")).
Proof.
  split; [do 2 eexists; split; vm_compute; reflexivity|].
  intros target link rid s env dbg Hn E. rewrite (planner_sees_the_host _ _ _ _ E), Hn. reflexivity.
Qed.
