(* ===== verification/Report.v ===== *)
(** * What `sysknife audit verify` reports

    apps/sysknife-cli/src/runner.rs, from the socket caveats to the printed or JSON
    verdict, with the readers of the store it verifies, and the audit half of
    apps/sysknife-cli/src/mcp_server.rs, which reports the same to an agent. What
    the machine answers (environment, file system, store, checkpoint database,
    daemon) is one record of answers. *)

From Stdlib Require Import Ascii String NArith ZArith Lia.
From stdpp Require Import base gmap list strings.
From S2P Require Import Prelude Json Types Signing Config Auth Approval Wire Client AuditChain Anchor Store.

(** ** Which daemon, and which machine was read *)

Definition resolve_socket_target (e : environ) (status : option string) : result text SocketTarget :=
  let raw := default (default_listen_uri e status) (e !! "SYSKNIFE_SOCKET") in
  match try_from_str raw with
  | Ok t => Ok t
  | Err why => Err [Lit "sysknife: invalid socket target "; Dbg raw; Lit ": "; Lit why]
  end.

Definition is_vsock (t : SocketTarget) : bool := match t with Vsock _ _ => true | Unix _ => false end.

Definition remote_daemon_caveat (socket_env : option (string * string)) (target : SocketTarget)
    : option string :=
  '(raw, source) ← socket_env;
  if is_vsock target then
    Some ("NOTE: " ++ source ++ " is " ++ raw ++ ", so the daemon runs in a VM while this "
      ++ "verification read a store on this machine. The chain lives where the daemon "
      ++ "wrote it. Verify inside the VM, or copy its database and exported public key "
      ++ "out and re-run with --pubkey <FILE>.")%string
  else
    Some ("NOTE: " ++ source ++ " is " ++ raw ++ ". If that socket is forwarded from another host "
      ++ "(for example `ssh -L`), the actions you took ran there while this verification "
      ++ "read a store on this machine. Verify on the host that owns the daemon, or copy "
      ++ "its database and exported public key out and re-run with --pubkey <FILE>.")%string.

Definition configured_socket_target (e : environ) : option (string * string * SocketTarget) :=
  match e !! "SYSKNIFE_SOCKET" with
  | Some raw =>
      match try_from_str raw with Ok t => Some (raw, "SYSKNIFE_SOCKET", t) | Err _ => None end
  | None =>
      match e !! "SYSKNIFE_LISTEN_URI" with
      | Some raw =>
          match try_from_str raw with Ok t => Some (raw, "SYSKNIFE_LISTEN_URI", t) | Err _ => None end
      | None => None
      end
  end.

Definition remote_daemon_caveat_from_env (e : environ) : option string :=
  '(raw, source, target) ← configured_socket_target e;
  if (source =? "SYSKNIFE_SOCKET")%string then remote_daemon_caveat (Some (raw, source)) target
  else if is_vsock target then remote_daemon_caveat (Some (raw, source)) target
  else None.

Inductive SocketOrigin : Type :=
| Remote (caveat : string)
| UnknownOrigin.

(** [None] is the panic of its [expect]. *)
Definition socket_origin_from (local_hash daemon_hash : option string) (raw source : string)
    (target : SocketTarget) : option SocketOrigin :=
  match local_hash, daemon_hash with
  | Some l, Some d =>
      if negb (l =? d)%string then Remote <$> remote_daemon_caveat (Some (raw, source)) target
      else Some UnknownOrigin
  | _, _ => Some UnknownOrigin
  end.

(** [local] is this host's hash, [daemon] what the daemon on a target answers. *)
Definition daemon_socket_origin (e : environ) (local : option string)
    (daemon : SocketTarget -> option string) : option SocketOrigin :=
  match configured_socket_target e with
  | None => Some UnknownOrigin
  | Some (raw, source, target) =>
      if negb (source =? "SYSKNIFE_LISTEN_URI")%string || is_vsock target then Some UnknownOrigin
      else socket_origin_from local (daemon target) raw source target
  end.

Definition resolve_daemon_socket_caveat (e : environ) (local : option string)
    (daemon : SocketTarget -> option string) : option (option string) :=
  (fun o => match o with
            | Remote caveat => Some caveat
            | UnknownOrigin => remote_daemon_caveat_from_env e
            end) <$> daemon_socket_origin e local daemon.

(** ** The anchor's part *)

Definition N_of (n : nat) : piece := Lit (dec_of_N (N.of_nat n)).

Definition anchor_line (o : CheckpointOutcome) : text :=
  match o with
  | CpConsistent checked =>
      [Lit "OK: "; N_of checked;
       Lit " anchored checkpoint(s) still match this chain (a deleted tail would show here)"]
  | Truncated checkpoint_seq current_max_seq =>
      [Lit "TRUNCATED: seq="; Lit (dec_of_N checkpoint_seq);
       Lit " was anchored but the chain now ends at seq="; Lit (dec_of_N current_max_seq);
       Lit ". Rows have been deleted since that checkpoint."]
  | TipMismatch seq anchored actual =>
      [Lit "REWRITTEN: the chain hash at seq="; Lit (dec_of_N seq);
       Lit (" does not match the anchored value." ++ String LF "  anchored: "); Lit anchored;
       Lit (String LF "  actual:   "); Lit actual]
  | BadSignature seq =>
      [Lit "BAD CHECKPOINT SIGNATURE: the checkpoint at seq="; Lit (dec_of_N seq);
       Lit " does not verify under this key"]
  | CpCannotVerify reason => Lit "ANCHOR NOT CHECKED: " :: reason
  end.

Definition anchor_caveat : string :=
  "NOTE: no independent checkpoint anchor is configured, so removal of the "
  ++ "newest rows would not be detectable — a truncated chain still verifies. "
  ++ "Set SYSKNIFE_CHECKPOINT_DB and run `sysknife audit checkpoint` "
  ++ "periodically; see docs/the-audit-chain.md.".

Definition anchor_configured (e : environ) : option string :=
  url ← e !! "SYSKNIFE_CHECKPOINT_DB"; if is_empty (str_trim url) then None else Some url.

Section Json.
Context `{StrDebug}.

Definition anchor_status (o : CheckpointOutcome) : string :=
  match o with
  | CpConsistent _ => "consistent"
  | Truncated _ _ => "truncated"
  | TipMismatch _ _ _ => "rewritten"
  | BadSignature _ => "bad_signature"
  | CpCannotVerify _ => "cannot_verify"
  end.

Definition anchor_json (o : CheckpointOutcome) : json := JObj [
  ("configured", JBool true);
  ("status", JStr (anchor_status o));
  ("detail", JStr (show_text (anchor_line o)))].

Definition audit_anchor_json (anchor : option CheckpointOutcome) : json :=
  match anchor with
  | Some o => anchor_json o
  | None => JObj [("configured", JBool false); ("caveat", JStr anchor_caveat)]
  end.

Definition unchecked_audit_anchor_json (e : environ) (reason : text) : json :=
  match anchor_configured e with
  | Some _ => JObj [
      ("configured", JBool true);
      ("status", JStr "cannot_verify");
      ("detail", JStr (show_text (Lit "ANCHOR NOT CHECKED: " :: reason)))]
  | None => audit_anchor_json None
  end.
End Json.

(** ** The verdict *)

Definition is_empty_intact (o : VerifyOutcome) : bool :=
  match o with Intact O => true | _ => false end.

Definition empty_unanchored_chain (v : AuditVerification) (anchor : option CheckpointOutcome) : bool :=
  is_empty_intact (av_chain v) && match anchor with None => true | Some _ => false end.

Definition combined_verification_exit_code (v : AuditVerification) (anchor : option CheckpointOutcome) : Z :=
  let codes := [AuditChain.exit_code v;
                match anchor with Some o => checkpoint_outcome_to_exit_code o | None => 0%Z end] in
  if existsb (Z.eqb 1) codes then 1%Z
  else if existsb (Z.eqb 2) codes || empty_unanchored_chain v anchor then 2%Z
  else 0%Z.

Definition status_word (code : Z) : string :=
  if (code =? 0)%Z then "intact" else if (code =? 1)%Z then "broken" else "cannot_verify".

Definition cannot_verify_all (reason : text) : AuditVerification := {|
  av_chain := CannotVerify reason;
  av_events := CannotVerify reason;
  av_binding := NotChecked;
  av_attribution := None;
  av_status := None |}.

Definition nat_json (n : nat) : json := nat_value (N.of_nat n).

Section VerdictJson.
Context `{StrDebug}.

Definition outcome_json (o : VerifyOutcome) : json :=
  match o with
  | Intact rows_checked => JObj [("status", JStr "intact"); ("rows_checked", nat_json rows_checked)]
  | Broken rows_checked seq id expected actual => JObj [
      ("status", JStr "broken");
      ("rows_checked", nat_json rows_checked);
      ("first_broken_seq", nat_value seq);
      ("first_broken_transaction_id", JStr id);
      ("expected", JStr (show_text expected));
      ("actual", JStr (show_text actual))]
  | CannotVerify reason => JObj [("status", JStr "cannot_verify"); ("reason", JStr (show_text reason))]
  end.

Definition binding_json (o : BindingOutcome) : json :=
  match o with
  | BindingConsistent n => JObj [("status", JStr "consistent"); ("bindings_checked", nat_json n)]
  | NotChecked => JObj [("status", JStr "not_checked")]
  | MissingEvent seq tip => JObj [
      ("status", JStr "missing_event"); ("transaction_seq", nat_value seq); ("event_tip", JStr tip)]
  end.

(** serde: tagged by [state], in snake case. *)
Definition status_json (o : StatusOutcome) : json :=
  match o with
  | Agrees n => JObj [("state", JStr "agrees"); ("rows_checked", nat_json n)]
  | Disagrees d => JObj [("state", JStr "disagrees"); ("detail", JStr (show_text d))]
  | StatusCannotVerify d => JObj [("state", JStr "cannot_verify"); ("detail", JStr (show_text d))]
  end.

Definition count_json (f : AttributionCensus -> nat) (c : option AttributionCensus) : json :=
  match c with Some c => nat_json (f c) | None => JNull end.

(** The payload of [emit_verification] under [--json]. *)
Definition verification_json (v : AuditVerification) (backend_label : string)
    (anchor : option CheckpointOutcome) (socket_caveat : option string) : json :=
  let census := av_attribution v in
  JObj [
    ("status", JStr (status_word (combined_verification_exit_code v anchor)));
    ("backend", JStr backend_label);
    ("chain", outcome_json (av_chain v));
    ("approval_events", outcome_json (av_events v));
    ("audit_anchor", audit_anchor_json anchor);
    ("daemon_socket_caveat", opt_value socket_caveat);
    ("rows_censused", count_json ac_rows census);
    ("attributed_rows", count_json ac_named census);
    ("unattributed_rows", count_json ac_attribution_failed census);
    ("rows_without_principal", count_json ac_not_recorded census);
    ("rows_unattested", count_json ac_unattested census);
    ("rows_naming_no_account", count_json census_unnamed census);
    ("binding", binding_json (av_binding v));
    ("status_check", match av_status v with Some s => status_json s | None => JNull end)].
End VerdictJson.

(** ** The readers *)

(** A [TransactionStore] opened read-only: what its three queries answer. *)
Record OpenStore : Type := mkOpen {
  os_chain : result string (list ChainRow);
  os_events : result string (list EventRow);
  os_status : result string StatusOutcome }.

(** The store of a database that answers. *)
Definition store_of (db : Db) : OpenStore :=
  mkOpen (Ok (fetch_chain_rows db)) (Ok (fetch_event_rows db)) (Ok (status_matches_chain db)).

(** The PostgreSQL store of a configuration: its pool, its connection with
    migrations, and its queries. *)
Record PgStore : Type := mkPg {
  pg_pool : result string ();
  pg_connect : result string ();
  pg_chain : result string (list ChainRow);
  pg_events : result string (list EventRow);
  pg_events_absent : result string bool;
  pg_status : result string StatusOutcome }.

Record PostgresConfig : Type := mkPgConfig {
  pc_url : string;
  pc_max_connections : N;
  pc_acquire_timeout : N;
  pc_statement_cache_capacity : N }.

(** [PostgresConfig::default] with the URL; the timeout in seconds. *)
Definition postgres_default (url : string) : PostgresConfig := mkPgConfig url 8 10 100.

Definition postgres_config (s : StorageSection) : result text PostgresConfig :=
  b ← parsed s;
  match b with
  | Sqlite => Err [Lit "postgres reader called with backend = "; Lit (quoted "sqlite");
                   Lit " — caller picked the wrong path"]
  | Postgres url pool =>
      let c := postgres_default url in
      Ok (mkPgConfig url
            (default (pc_max_connections c) (max_connections pool))
            (default (pc_acquire_timeout c) (acquire_timeout_secs pool))
            (default (pc_statement_cache_capacity c) (statement_cache_capacity pool)))
  end.

Section Readers.
Context `{Crypto}.

Inductive Verifier : Type :=
| Private (key : AuditKey)
| Public (hex : string).

Definition verifier_hex (v : Verifier) : string :=
  match v with Private key => verifying_key_hex key | Public hex => hex end.

Definition SUDO_HINT : string :=
  "; the system daemon's store is root-owned, so run this under sudo or set $SYSKNIFE_DATABASE_PATH".

(** Why the database at a path cannot be opened, before it is tried. *)
Definition unreachable_database (metadata : string -> FsProbe) (db_path : string) : option string :=
  if negb (path_is_present metadata db_path) then
    Some ("audit database not found at " ++ db_path
          ++ "; set $SYSKNIFE_DATABASE_PATH or run the daemon first")%string
  else if negb (path_exists (metadata db_path)) then
    Some ("audit database not found or not readable at " ++ db_path
          ++ "; set $SYSKNIFE_DATABASE_PATH or run the daemon first"
          ++ (if (db_path =? PRODUCTION_DATABASE_PATH)%string then SUDO_HINT else ""))%string
  else None.

Definition with_status (v : AuditVerification) (s : StatusOutcome) : AuditVerification :=
  mkVerification (av_chain v) (av_events v) (av_binding v) (av_attribution v) (Some s).

Definition status_verdict (s : result string StatusOutcome) : StatusOutcome :=
  match s with
  | Ok s => s
  | Err e => StatusCannotVerify [Lit "status cross-check failed: "; Lit e]
  end.

Definition checked_by (v : Verifier) (tx : list ChainRow) (ev : list EventRow) : AuditVerification :=
  match v with
  | Private key => verify_all key tx ev
  | Public hex => verify_all_with_pubkey hex tx ev
  end.

Definition verify_sqlite (metadata : string -> FsProbe) (open : string -> result string OpenStore)
    (db_path : string) (v : Verifier) : AuditVerification :=
  match unreachable_database metadata db_path with
  | Some reason => cannot_verify_all [Lit reason]
  | None =>
      match open db_path with
      | Err e => cannot_verify_all [Lit "opening audit database failed: "; Lit e]
      | Ok store =>
          match os_chain store with
          | Err e => cannot_verify_all [Lit "audit chain query failed: "; Lit e]
          | Ok tx_rows =>
              match os_events store with
              | Err e => cannot_verify_all [Lit "approval-event query failed: "; Lit e]
              | Ok event_rows =>
                  with_status (checked_by v tx_rows event_rows) (status_verdict (os_status store))
              end
          end
      end
  end.

(** [unreadable_events] of store/postgres.rs *)
Definition unreadable_events (hex : string) (tx_rows : list ChainRow) (reason : text) : AuditVerification := {|
  av_chain := verify_chain_with_pubkey hex tx_rows;
  av_events := CannotVerify reason;
  av_binding := NotChecked;
  av_attribution := Some (census_of tx_rows);
  av_status := Some (StatusCannotVerify (Lit "status cross-check not run: " :: reason)) |}.

(** [PostgresStore::verify_all_with_pubkey] *)
Definition pg_verify_with_pubkey (pg : PgStore) (hex : string) : result string AuditVerification :=
  _ ← pg_pool pg;
  tx_rows ← pg_chain pg;
  match pg_events pg with
  | Ok event_rows =>
      Ok (with_status (verify_all_with_pubkey hex tx_rows event_rows) (status_verdict (pg_status pg)))
  | Err err =>
      match pg_events_absent pg with
      | Ok true => Ok (with_status (verify_all_with_pubkey hex tx_rows []) (status_verdict (pg_status pg)))
      | Ok false => Ok (unreadable_events hex tx_rows
          [Lit "could not read the approval-event table: "; Lit err])
      | Err probe_err => Ok (unreadable_events hex tx_rows
          [Lit "could not read the approval-event table ("; Lit err;
           Lit "), and could not determine whether it exists ("; Lit probe_err; Lit ")"])
      end
  end.

(** [PostgresStore::verify_all] *)
Definition pg_verify_all (pg : PgStore) (key : AuditKey) : result string AuditVerification :=
  tx_rows ← pg_chain pg;
  event_rows ← pg_events pg;
  Ok (with_status (verify_all key tx_rows event_rows) (status_verdict (pg_status pg))).

Definition verify_postgres (postgres : PostgresConfig -> PgStore) (storage : StorageSection) (v : Verifier)
    : AuditVerification :=
  match postgres_config storage with
  | Err reason => cannot_verify_all reason
  | Ok cfg =>
      let pg := postgres cfg in
      match v with
      | Private key =>
          match pg_connect pg with
          | Err e => cannot_verify_all [Lit "postgres connect failed: "; Lit e]
          | Ok _ =>
              match pg_verify_all pg key with
              | Ok verification => verification
              | Err e => cannot_verify_all [Lit "postgres audit chain query failed: "; Lit e]
              end
          end
      | Public hex =>
          match pg_verify_with_pubkey pg hex with
          | Ok verification => verification
          | Err e => cannot_verify_all [Lit "postgres audit chain query failed: "; Lit e]
          end
      end
  end.
End Readers.

(** ** The commands *)

Definition uses_postgres (c : LacsConfig) : option StorageSection :=
  s ← cfg_storage c; if eq_ignore_case (backend s) "postgres" then Some s else None.

(** Everything the machine answers to a command. [mc_key] is the mode and the bytes
    of a key file, looked at when the file exists. *)
Record Machine (S : Type) : Type := mkMachine {
  mc_env : environ;
  mc_config : LacsConfig;
  mc_metadata : string -> FsProbe;
  mc_read : string -> result string string;
  mc_key : string -> KeyFile;
  mc_open : string -> result string OpenStore;
  mc_postgres : PostgresConfig -> PgStore;
  mc_sink : string -> result string S;
  mc_machine_hash : option string;
  mc_daemon_hash : SocketTarget -> option string;
  mc_now : string }.
Arguments mkMachine {S}. Arguments mc_env {S}. Arguments mc_config {S}. Arguments mc_metadata {S}.
Arguments mc_read {S}. Arguments mc_key {S}. Arguments mc_open {S}. Arguments mc_postgres {S}.
Arguments mc_sink {S}. Arguments mc_machine_hash {S}. Arguments mc_daemon_hash {S}. Arguments mc_now {S}.

(** [{mode:#o}] *)
Fixpoint octal_go (fuel : nat) (n : N) (acc : string) : string :=
  match fuel with
  | O => acc
  | Datatypes.S fuel' =>
      let acc := (dec_of_N (n mod 8) ++ acc)%string in
      if (n <? 8)%N then acc else octal_go fuel' (n / 8)%N acc
  end.
Definition octal (n : N) : string := ("0o" ++ octal_go (N.to_nat (N.size n)) n "")%string.

(** [AuditKeyError]'s text; a file that exists was read. *)
Definition show_key_error (path : string) (e : AuditKeyError) : text :=
  match e with
  | KeyIo => [Lit "io error reading audit key "; Lit path]
  | UnsafePermissions mode =>
      [Lit "audit key file "; Lit path; Lit " has unsafe permissions "; Lit (octal mode);
       Lit "; tighten with `chmod 600 "; Dbg path; Lit "` and restart"]
  | KeyTooShort len =>
      [Lit "audit key file "; Lit path; Lit " is too short ("; N_of len;
       Lit " bytes); expected at least 32 bytes of random material"]
  end.

Inductive output : Type :=
| OutLine (t : text)
| OutJson (v : json).

(** What a command leaves: its standard output, its standard error and its end. *)
Record Printed : Type := mkPrinted {
  pr_out : list output;
  pr_err : list text;
  pr_end : result CliError () }.

(** What the counts of the census may be called. *)
Inductive CountStanding : Type := Proven | BreakDetected | NotCheckedYet.

Definition count_standing (o : VerifyOutcome) : CountStanding :=
  match o with
  | Intact _ => Proven
  | Broken _ _ _ _ _ => BreakDetected
  | CannotVerify _ => NotCheckedYet
  end.

Definition standing_words (s : CountStanding) : string :=
  match s with
  | Proven => "authentic and verified"
  | BreakDetected | NotCheckedYet => "read, on a chain that did not verify to the end"
  end.

Definition emit_attribution (c : AttributionCensus) (s : CountStanding) : list text :=
  if ac_rows c =? 0 then []
  else
    [[Lit "ATTRIBUTION: "; N_of (ac_named c); Lit " of "; N_of (ac_rows c);
      Lit " row(s) name an account; "; N_of (census_unnamed c); Lit " name nobody."]]
    ++ match s with
       | Proven => []
       | BreakDetected => [lit
           ("  These counts describe what the rows claim, not what was proven. A break was "
            ++ "detected above, so rows past it were not checked by this walk. Some of them may "
            ++ "be perfectly authentic -- deleting or reordering a row breaks the link while "
            ++ "leaving every later signature valid -- and some may be an attacker's. This "
            ++ "command cannot tell you which, only that it did not vouch for them.")]
       | NotCheckedYet => [lit
           ("  These counts describe what the rows claim, not what was proven: the verdict "
            ++ "above says this build could not check the chain at all. That is a statement "
            ++ "about this binary or this key, not a finding about the rows.")]
       end
    ++ (if 0 <? ac_attribution_failed c then
          [[Lit "NOTE: "; N_of (ac_attribution_failed c);
            Lit " row(s) record that the daemon could not name the caller (principal `";
            Lit (as_signed_str Unattributed); Lit "`). Those actions are "; Lit (standing_words s);
            Lit (", but the trail cannot say which account took them. This happens when SO_PEERCRED "
                 ++ "yields no usable peer, or when the peer is not representable in the daemon's "
                 ++ "namespaces; see the daemon log for the connections concerned.")]]
        else [])
    ++ (if 0 <? ac_not_recorded c then
          [[Lit "NOTE: "; N_of (ac_not_recorded c);
            Lit (" row(s) carry no caller principal the signature covers, normally because they were "
                 ++ "written before the chain signed one (chain_version 1 and 2, so before 0.3.0). They are ");
            Lit (standing_words s);
            Lit (", and they name nobody. That cannot be repaired: writing a principal into an existing "
                 ++ "row would change the bytes its signature covers, so the trail keeps the gap instead of "
                 ++ "hiding it.")]]
        else [])
    ++ (if 0 <? ac_unattested c then
          [[Lit "WARNING: "; N_of (ac_unattested c);
            Lit (" row(s) have no caller principal that any signature vouches for. Three causes: the column "
                 ++ "is populated on an encoding that does not sign it (chain_version 1 and 2 leave it out of "
                 ++ "the signed message, so it can be written out of band without breaking anything); or the "
                 ++ "value is not one this build can read back as something the daemon could have written; or "
                 ++ "the row declares an encoding this build does not know, in which case its principal may be "
                 ++ "absent or kept somewhere this build cannot see. The first two are out-of-band writes to "
                 ++ "investigate. The third means a newer SysKnife wrote these rows, and the fix is to verify "
                 ++ "with a build at least that new. Either way these rows name nobody here.")]]
        else []).

Definition chain_line (v : AuditVerification) (anchor : option CheckpointOutcome) (backend_label : string)
    : text :=
  match av_chain v with
  | Intact n =>
      if empty_unanchored_chain v anchor then
        [Lit "CANNOT VERIFY: empty transaction log in "; Lit backend_label;
         Lit "; no independent anchor distinguishes a fresh log from an erased log"]
      else [Lit "OK: "; N_of n; Lit " row(s) verified in "; Lit backend_label]
  | Broken n seq id expected actual =>
      [Lit "BROKEN: chain intact for first "; N_of n; Lit " row(s); row seq="; Lit (dec_of_N seq);
       Lit " (transaction "; Lit id; Lit (") does not chain." ++ String LF "  expected: ")]
      ++ expected ++ [Lit (String LF "  actual:   ")] ++ actual
  | CannotVerify reason => Lit "CANNOT VERIFY: " :: reason
  end.

Definition events_line (o : VerifyOutcome) : text :=
  match o with
  | Intact n => [Lit "OK: "; N_of n; Lit " approval event(s) verified"]
  | Broken n seq id _ _ =>
      [Lit "BROKEN: approval events intact for first "; N_of n; Lit "; event seq="; Lit (dec_of_N seq);
       Lit " (transaction "; Lit id; Lit ") does not chain"]
  | CannotVerify reason => Lit "CANNOT VERIFY approval events: " :: reason
  end.

Definition binding_line (o : BindingOutcome) : text :=
  match o with
  | BindingConsistent n =>
      [Lit "OK: "; N_of n; Lit " row(s) still match the approval event they committed to"]
  | NotChecked => lit "CANNOT VERIFY binding: transaction or approval-event rows were not read"
  | MissingEvent seq tip =>
      [Lit "BROKEN: transaction seq="; Lit (dec_of_N seq); Lit " committed to approval event "; Lit tip;
       Lit (", which is no longer in the event chain — approval events were deleted from the end of "
            ++ "the chain")]
  end.

Definition status_line (o : option StatusOutcome) : text :=
  match o with
  | Some (Agrees n) => [Lit "OK: "; N_of n; Lit " row status(es) match the audit trail"]
  | Some (Disagrees d) => Lit "BROKEN status: " :: d
  | Some (StatusCannotVerify d) => Lit "CANNOT VERIFY status: " :: d
  | None => lit "CANNOT VERIFY status: status cross-check was not run"
  end.

Definition emit_verification `{StrDebug} (as_json : bool) (v : AuditVerification) (backend_label : string)
    (anchor : option CheckpointOutcome) (socket_caveat : option string) : list output :=
  if as_json then [OutJson (verification_json v backend_label anchor socket_caveat)]
  else map OutLine
    ([chain_line v anchor backend_label]
     ++ match av_attribution v with
        | Some c => emit_attribution c (count_standing (av_chain v))
        | None => []
        end
     ++ match socket_caveat with Some c => [lit c] | None => [] end
     ++ [match anchor with Some o => anchor_line o | None => lit anchor_caveat end]
     ++ [events_line (av_events v); binding_line (av_binding v); status_line (av_status v)]).

Definition show_sink_error (e : CheckpointSinkError) : string :=
  match e with
  | Connect e => "checkpoint sink connection error: " ++ e
  | Query e => "checkpoint sink query error: " ++ e
  end.

Section Commands.
Context `{Crypto} `{StrDebug} {S : Type} `{CheckpointSink S}.
Implicit Types m : Machine S.

Definition verify_configured_anchor m (db_path : string) (v : Verifier) : option CheckpointOutcome :=
  db_url ← anchor_configured (mc_env m);
  match uses_postgres (mc_config m) with
  | Some _ => Some (CpCannotVerify [Lit
      ("checkpoint anchoring is implemented for the sqlite backend only; "
       ++ "`sysknife audit checkpoint` cannot anchor a postgres chain either, "
       ++ "so this chain has no anchor to check against")])
  | None =>
      match (store ← mc_open m db_path; os_chain store) with
      | Err e => Some (CpCannotVerify
          [Lit "reading the local chain for the anchor check failed: "; Lit e])
      | Ok rows =>
          match mc_sink m db_url with
          | Err e => Some (CpCannotVerify [Lit "connecting to the checkpoint database failed: "; Lit e])
          | Ok sink =>
              match verify_against_anchor (verifier_hex v) rows sink with
              | Ok outcome => Some outcome
              | Err e => Some (CpCannotVerify
                  [Lit "reading anchored checkpoints failed: "; Lit (show_sink_error e)])
              end
          end
      end
  end.

Definition verify_store m (db_path : string) (v : Verifier) : AuditVerification :=
  match uses_postgres (mc_config m) with
  | Some s => verify_postgres (mc_postgres m) s v
  | None => verify_sqlite (mc_metadata m) (mc_open m) db_path v
  end.

Definition backend_label m (store : AuditStoreChoice) : string :=
  match uses_postgres (mc_config m) with Some _ => "postgres" | None => store_path store end.

(** The caveat of the commands; the panic inside cannot happen
    ([origin_never_panics]). *)
Definition socket_caveat m : option string :=
  default None (resolve_daemon_socket_caveat (mc_env m) (mc_machine_hash m) (mc_daemon_hash m)).

(** The verifier of [audit verify], or why there is none. *)
Definition load_verifier m (pubkey : option string) (db_path : string) : result text Verifier :=
  match pubkey with
  | Some pubkey_path =>
      match mc_read m pubkey_path with
      | Ok contents => Ok (Public (str_trim contents))
      | Err e => Err [Lit "public key file "; Lit pubkey_path; Lit " could not be read: "; Lit e]
      end
  | None =>
      let key_path := resolve_audit_key_path (mc_env m) db_path in
      if negb (path_exists (mc_metadata m key_path)) then
        Err [Lit "audit key not found or not readable at "; Lit key_path;
             Lit ("; the daemon generates this on first run, set $SYSKNIFE_AUDIT_KEY_PATH, or pass "
                  ++ "--pubkey <FILE> to verify with the exported public key");
             Lit (if (db_path =? PRODUCTION_DATABASE_PATH)%string then
                    "; the system daemon's key is root-owned, so run this under sudo or verify with --pubkey"
                  else "")]
      else
        match load_or_generate (Some (mc_key m key_path)) [] with
        | Ok k => Ok (Private k)
        | Err e => Err (Lit "audit key load failed: " :: show_key_error key_path e)
        end
  end.

Definition note_of (store : AuditStoreChoice) : list text :=
  match store_note store with Some note => [[Lit "note: "; Lit note]] | None => [] end.

Definition exit_with (code : Z) : result CliError () := if (code =? 0)%Z then Ok tt else Err (Exit code).

Definition run_audit_verify_with_store m (as_json : bool) (pubkey : option string)
    (store : AuditStoreChoice) : Printed :=
  let label := backend_label m store in
  let db_path := store_path store in
  match load_verifier m pubkey db_path with
  | Err reason =>
      mkPrinted (emit_verification as_json (cannot_verify_all reason) label None (socket_caveat m))
        (note_of store) (Err (Exit 2))
  | Ok v =>
      let outcome := verify_store m db_path v in
      let anchor := verify_configured_anchor m db_path v in
      mkPrinted (emit_verification as_json outcome label anchor (socket_caveat m)) (note_of store)
        (exit_with (combined_verification_exit_code outcome anchor))
  end.

Definition run_audit_verify m (as_json : bool) (pubkey : option string) : Printed :=
  run_audit_verify_with_store m as_json pubkey (resolve_audit_store (mc_metadata m) (mc_env m)).
End Commands.

(** ** Export and checkpoint *)

Section ExportAndCheckpoint.
Context `{Crypto} `{StrDebug} {S : Type} `{CheckpointSink S}.
Implicit Types m : Machine S.
(** chrono's [DateTime::parse_from_rfc3339], and the derived [Debug] of the two
    outcomes a checkpoint may print. *)
Variable parse_from_rfc3339 : string -> option Z.
Variable debug_verify : VerifyOutcome -> text.
Variable debug_checkpoint : CheckpointOutcome -> text.

(** serde of [ChainRow]. *)
Definition chain_row_value (r : ChainRow) : json := JObj [
  ("seq", nat_value (cr_seq r)); ("key_id", JStr (cr_key_id r));
  ("transaction_id", JStr (cr_transaction_id r)); ("request_id", JStr (cr_request_id r));
  ("request_hash", JStr (cr_request_hash r)); ("action_name", JStr (cr_action_name r));
  ("risk_level", JStr (risk_str (cr_risk_level r))); ("summary", JStr (cr_summary r));
  ("approval_id", opt_value (cr_approval_id r)); ("warnings_json", JStr (cr_warnings_json r));
  ("created_at", JStr (cr_created_at r)); ("prev_chain_hash", JStr (cr_prev_chain_hash r));
  ("chain_hash", JStr (cr_chain_hash r)); ("chain_version", nat_value (cr_chain_version r));
  ("caller_role", opt_value (cr_caller_role r)); ("event_tip", opt_value (cr_event_tip r));
  ("caller_principal", opt_value (cr_caller_principal r))].

Definition show_export_error (e : ChainExportError) : text :=
  match e with
  | InvalidSince since => [Lit "--since: "; Dbg since; Lit " is not a valid RFC 3339 timestamp"]
  | InvalidCreatedAt seq created_at =>
      [Lit "audit row "; Lit (dec_of_N seq); Lit " has an invalid RFC 3339 created_at value "; Dbg created_at]
  end.

Definition validate_export_since (since : string) : result ChainExportError () :=
  match parse_from_rfc3339 since with Some _ => Ok tt | None => Err (InvalidSince since) end.

Definition config_error {A} (t : text) : result CliError A := Err (ConfigOrDaemon (show_text t)).

Definition exported_rows m (db_path : string) : result CliError (list ChainRow) :=
  match uses_postgres (mc_config m) with
  | Some storage =>
      match postgres_config storage with
      | Err reason => config_error (Lit "audit export: " :: reason)
      | Ok cfg =>
          match (_ ← pg_pool (mc_postgres m cfg); pg_chain (mc_postgres m cfg)) with
          | Ok rows => Ok rows
          | Err e => config_error [Lit "postgres audit chain query failed: "; Lit e]
          end
      end
  | None =>
      match unreachable_database (mc_metadata m) db_path with
      | Some reason => config_error [Lit reason]
      | None =>
          match mc_open m db_path with
          | Err e => config_error [Lit "opening audit database failed: "; Lit e]
          | Ok store =>
              match os_chain store with
              | Ok rows => Ok rows
              | Err e => config_error [Lit "audit chain query failed: "; Lit e]
              end
          end
      end
  end.

Definition run_audit_export m (since : option string) (limit : option nat) : Printed :=
  match (match since with Some s => validate_export_since s | None => Ok tt end) with
  | Err e => mkPrinted [] [] (config_error (show_export_error e))
  | Ok _ =>
      let store := resolve_audit_store (mc_metadata m) (mc_env m) in
      match exported_rows m (store_path store) with
      | Err e => mkPrinted [] (note_of store) (Err e)
      | Ok rows =>
          match select_chain_rows_for_export parse_from_rfc3339 rows since limit with
          | Err e => mkPrinted [] (note_of store) (config_error (show_export_error e))
          | Ok rows => mkPrinted [OutJson (JArr (map chain_row_value rows))] (note_of store) (Ok tt)
          end
      end
  end.

Definition checkpoint_missing_path_message (path what : string) (inaccessible_system_store : bool) : string :=
  if inaccessible_system_store then
    (what ++ " not found or not readable at " ++ path
     ++ "; the system daemon's store is root-owned, so run this command under sudo")%string
  else (what ++ " not found at " ++ path)%string.

Definition require_exists m (path what : string) (system_store : bool) : option text :=
  if path_exists (mc_metadata m path) then None
  else Some (lit (checkpoint_missing_path_message path what
                    (system_store && path_is_present (mc_metadata m) path))).

Definition NO_CHECKPOINT_DB : string :=
  "no checkpoint database configured; pass --db <URL> or set "
  ++ "SYSKNIFE_CHECKPOINT_DB (preferred, keeps credentials off argv)".

(** The end of a checkpoint and the sink it leaves, if one was connected. *)
Definition run_audit_checkpoint m (db : option string) : Printed * option S :=
  let url := match db with Some u => Some u | None => mc_env m !! "SYSKNIFE_CHECKPOINT_DB" end in
  match url with
  | None => (mkPrinted [] [] (Err (ConfigOrDaemon NO_CHECKPOINT_DB)), None)
  | Some db_url =>
      let store := resolve_audit_store (mc_metadata m) (mc_env m) in
      let db_path := store_path store in
      let system_store := (db_path =? PRODUCTION_DATABASE_PATH)%string in
      let key_path := resolve_audit_key_path (mc_env m) db_path in
      let fail (why : text) := (mkPrinted [] (note_of store ++ [why]) (Err (Exit 2)), None) in
      match require_exists m key_path "audit key" system_store with
      | Some why => fail why
      | None =>
      match load_or_generate (Some (mc_key m key_path)) [] with
      | Err e => fail (Lit "audit key load failed: " :: show_key_error key_path e)
      | Ok key =>
      match require_exists m db_path "audit database" system_store with
      | Some why => fail why
      | None =>
      match mc_open m db_path with
      | Err e => fail [Lit "opening audit database failed: "; Lit e]
      | Ok st =>
      match os_chain st with
      | Err e => fail [Lit "reading audit chain failed: "; Lit e]
      | Ok rows =>
      match mc_sink m db_url with
      | Err e => fail [Lit "connecting to checkpoint database failed: "; Lit e]
      | Ok sink =>
          let '(anchored, sink) := anchor_once key rows (mc_now m) sink in
          let stop (why : text) (code : Z) :=
            (mkPrinted [] (note_of store ++ [why]) (Err (Exit code)), Some sink) in
          match anchored with
          | Err e => stop [Lit "checkpoint sink error: "; Lit (show_sink_error e)] 2%Z
          | Ok (Anchored seq checked) =>
              (mkPrinted [OutLine [Lit "anchored checkpoint: seq="; Lit (dec_of_N seq);
                                   Lit " -> external database"];
                          OutLine [Lit "checkpoints consistent ("; N_of checked; Lit " verified)"]]
                 (note_of store) (Ok tt), Some sink)
          | Ok ChainEmpty => stop (lit "audit chain is empty; nothing to checkpoint") 2%Z
          | Ok (ChainBroken broken) =>
              stop (Lit "refusing to anchor: local audit chain does not verify: " :: debug_verify broken)
                (outcome_to_exit_code broken)
          | Ok ReadBackMissing => stop (lit
              ("anchored checkpoint not found on read-back; the checkpoint database may be a lagging "
               ++ "replica or a different database than the write hit")) 2%Z
          | Ok (Inconsistent other) =>
              stop (Lit "checkpoint verification FAILED: " :: debug_checkpoint other)
                (checkpoint_outcome_to_exit_code other)
          end
      end end end end end end
  end.
End ExportAndCheckpoint.

(** ** The same for an agent (mcp_server.rs) *)

Record AuditVerifyReport : Type := mkReport {
  rp_status : string;
  rp_rows_checked : nat;
  rp_first_broken_seq : option N;
  rp_first_broken_transaction_id : option string;
  rp_expected : option text;
  rp_actual : option text;
  rp_reason : option text;
  rp_events_checked : nat;
  rp_approval_events_status : string;
  rp_binding_status : string;
  rp_status_check : option StatusOutcome;
  rp_backend : string;
  rp_audit_store_note : option string;
  rp_audit_anchor : json;
  rp_chain_status : string;
  rp_rows_censused : option nat;
  rp_attributed_rows : option nat;
  rp_unattributed_rows : option nat;
  rp_rows_without_principal : option nat;
  rp_rows_unattested : option nat;
  rp_rows_naming_no_account : option nat;
  rp_daemon_socket_caveat : option string }.

Definition outcome_label (o : VerifyOutcome) : string :=
  match o with Intact _ => "intact" | Broken _ _ _ _ _ => "broken" | CannotVerify _ => "cannot_verify" end.

Definition binding_outcome_label (o : BindingOutcome) : string :=
  match o with
  | BindingConsistent _ => "consistent" | NotChecked => "not_checked" | MissingEvent _ _ => "missing_event"
  end.

Definition rows_checked_of (o : VerifyOutcome) : nat :=
  match o with Intact n | Broken n _ _ _ _ => n | CannotVerify _ => 0 end.

Section Mcp.
Context `{StrDebug}.

Definition cannot_verify_report (e : environ) (backend : string) (reason : text) : AuditVerifyReport :=
  mkReport "cannot_verify" 0 None None None None (Some reason) 0 "cannot_verify"
    (binding_outcome_label NotChecked) None backend None (unchecked_audit_anchor_json e reason)
    "cannot_verify" None None None None None None None.

Definition outcome_to_report (v : AuditVerification) (backend : string)
    (anchor : option CheckpointOutcome) : AuditVerifyReport :=
  let c := av_attribution v in
  let '(seq, id, expected, actual, reason) :=
    match av_chain v with
    | Intact _ => (None, None, None, None, None)
    | Broken _ seq id expected actual => (Some seq, Some id, Some expected, Some actual, None)
    | CannotVerify reason => (None, None, None, None, Some reason)
    end in
  mkReport (status_word (combined_verification_exit_code v anchor))
    (rows_checked_of (av_chain v)) seq id expected actual reason
    (rows_checked_of (av_events v)) (outcome_label (av_events v)) (binding_outcome_label (av_binding v))
    (av_status v) backend None (audit_anchor_json anchor) (outcome_label (av_chain v))
    (ac_rows <$> c) (ac_named <$> c) (ac_attribution_failed <$> c) (ac_not_recorded <$> c)
    (ac_unattested <$> c) (census_unnamed <$> c) None.

Definition with_socket_caveat (r : AuditVerifyReport) (caveat : option string) : AuditVerifyReport :=
  mkReport (rp_status r) (rp_rows_checked r) (rp_first_broken_seq r) (rp_first_broken_transaction_id r)
    (rp_expected r) (rp_actual r) (rp_reason r) (rp_events_checked r) (rp_approval_events_status r)
    (rp_binding_status r) (rp_status_check r) (rp_backend r) (rp_audit_store_note r) (rp_audit_anchor r)
    (rp_chain_status r) (rp_rows_censused r) (rp_attributed_rows r) (rp_unattributed_rows r)
    (rp_rows_without_principal r) (rp_rows_unattested r) (rp_rows_naming_no_account r) caveat.

Definition with_audit_store_note (r : AuditVerifyReport) (note : option string) : AuditVerifyReport :=
  mkReport (rp_status r) (rp_rows_checked r) (rp_first_broken_seq r) (rp_first_broken_transaction_id r)
    (rp_expected r) (rp_actual r) (rp_reason r) (rp_events_checked r) (rp_approval_events_status r)
    (rp_binding_status r) (rp_status_check r) (rp_backend r) note (rp_audit_anchor r)
    (rp_chain_status r) (rp_rows_censused r) (rp_attributed_rows r) (rp_unattributed_rows r)
    (rp_rows_without_principal r) (rp_rows_unattested r) (rp_rows_naming_no_account r)
    (rp_daemon_socket_caveat r).

Context `{Crypto} {S : Type} `{CheckpointSink S}.
Implicit Types m : Machine S.

Definition audit_store_details m (store : AuditStoreChoice) : string * option string :=
  match uses_postgres (mc_config m) with
  | Some _ => ("postgres", None)
  | None => (store_path store, store_note store)
  end.

(** The daemon's key for an MCP check, or why there is none. *)
Definition local_key m (db_path : string) (missing : string -> text) : result text Verifier :=
  let key_path := resolve_audit_key_path (mc_env m) db_path in
  if negb (path_exists (mc_metadata m key_path)) then Err (missing key_path)
  else match load_or_generate (Some (mc_key m key_path)) [] with
       | Ok k => Ok (Private k)
       | Err e => Err (Lit "audit key load failed: " :: show_key_error key_path e)
       end.

Definition audit_verify_local_store_with_store m (store : AuditStoreChoice) : AuditVerifyReport :=
  let '(label, note) := audit_store_details m store in
  let db_path := store_path store in
  match local_key m db_path (fun key_path =>
          [Lit "audit key not found at "; Lit key_path;
           Lit "; the daemon generates this on first run, or set $SYSKNIFE_AUDIT_KEY_PATH"]) with
  | Err reason => with_audit_store_note (cannot_verify_report (mc_env m) label reason) note
  | Ok v =>
      with_audit_store_note
        (outcome_to_report (verify_store m db_path v) label (verify_configured_anchor m db_path v)) note
  end.

Definition audit_verify_inner m : AuditVerifyReport :=
  with_socket_caveat
    (audit_verify_local_store_with_store m (resolve_audit_store (mc_metadata m) (mc_env m)))
    (remote_daemon_caveat_from_env (mc_env m)).

Inductive VerifyOutcomeKind : Type := KIntact | KBroken | KUnknown.
Definition kind_word (k : VerifyOutcomeKind) : string :=
  match k with KIntact => "intact" | KBroken => "broken" | KUnknown => "unknown" end.

(** The doctor's check and the warnings it adds. *)
Definition audit_chain_quick_check m (store : AuditStoreChoice) : VerifyOutcomeKind * list text :=
  let db_path := store_path store in
  match local_key m db_path (fun key_path => [Lit "audit key not found at "; Lit key_path]) with
  | Err reason => (KUnknown, [reason])
  | Ok v =>
      let outcome := verify_store m db_path v in
      let warn (label : string) (o : VerifyOutcome) : list text :=
        match o with
        | CannotVerify reason => [Lit label :: Lit " cannot be verified: " :: reason]
        | _ => []
        end in
      (match AuditChain.exit_code outcome with 0%Z => KIntact | 1%Z => KBroken | _ => KUnknown end,
       warn "audit chain" (av_chain outcome) ++ warn "approval-event chain" (av_events outcome)
       ++ match av_binding outcome with
          | MissingEvent seq _ =>
              [[Lit "transaction seq="; Lit (dec_of_N seq);
                Lit " commits to an approval event that no longer exists"]]
          | _ => []
          end)
  end.
End Mcp.

(** ** Facts *)

(** The [expect] in [socket_origin_from] is never reached without a caveat. *)
Lemma origin_never_panics e local daemon : daemon_socket_origin e local daemon <> None.
Proof.
  unfold daemon_socket_origin, socket_origin_from, remote_daemon_caveat.
  destruct (configured_socket_target e) as [[[raw source] t]|]; [|done].
  repeat case_match; cbn; repeat case_match; done.
Qed.

Lemma combined_zero v anchor :
  combined_verification_exit_code v anchor = 0%Z
  <-> AuditChain.exit_code v = 0%Z
      /\ (forall o, anchor = Some o -> checkpoint_outcome_to_exit_code o = 0%Z)
      /\ empty_unanchored_chain v anchor = false.
Proof.
  unfold combined_verification_exit_code.
  assert (Hv : AuditChain.exit_code v = 0%Z \/ AuditChain.exit_code v = 1%Z \/ AuditChain.exit_code v = 2%Z)
    by (unfold AuditChain.exit_code; repeat case_match; auto).
  assert (Ha : forall o, checkpoint_outcome_to_exit_code o = 0%Z \/ checkpoint_outcome_to_exit_code o = 1%Z
                         \/ checkpoint_outcome_to_exit_code o = 2%Z) by (intros []; auto).
  destruct anchor as [o|]; [specialize (Ha o)|clear Ha];
    destruct Hv as [Hv|[Hv|Hv]]; rewrite ?Hv;
    try (destruct Ha as [Ha|[Ha|Ha]]; rewrite ?Ha);
    cbn [existsb Z.eqb Pos.eqb orb]; destruct (empty_unanchored_chain v _);
    split; intros; (split_and! || idtac); try done; naive_solver congruence.
Qed.

Lemma combined_range v anchor :
  let z := combined_verification_exit_code v anchor in z = 0%Z \/ z = 1%Z \/ z = 2%Z.
Proof. cbn zeta. unfold combined_verification_exit_code. repeat case_match; auto. Qed.

Section Passing.
Context `{Crypto}.

(** The key a verifier checks with, and the key id it expects. *)
Definition verifier_key (v : Verifier) : option (VerifyingKey * option string) :=
  match v with
  | Private key => Some (verifying_key key, Some (ak_key_id key))
  | Public hex => vk ← parse_verifying_key hex; Some (vk, None)
  end.

(** Every row signed, each linked to the one before. *)
Definition whole_trail (vk : VerifyingKey) (tx : list ChainRow) (ev : list EventRow) : Prop :=
  linked "" tx /\ Forall (row_signed vk row_message) tx
  /\ linked "" ev /\ Forall (row_signed vk event_row_message) ev
  /\ Forall (fun r => forall tip, cr_event_tip r = Some tip -> tip <> "" ->
               tip ∈ map er_chain_hash ev) tx.

Lemma checked_by_zero v tx ev s :
  AuditChain.exit_code (with_status (checked_by v tx ev) s) = 0%Z ->
  (exists vk e, verifier_key v = Some (vk, e) /\ whole_trail vk tx ev)
  /\ av_chain (checked_by v tx ev) = Intact (length tx) /\ status_outcome_to_exit_code s = 0%Z.
Proof.
  intros Hz. apply (proj1 (proj2 (exit_code_spec _))) in Hz as (Hc & He & Hb & Hs).
  cbn [with_status av_chain av_events av_binding av_status] in *.
  assert (HX : exists vk e, verifier_key v = Some (vk, e)
            /\ av_chain (checked_by v tx ev) = verify_rows vk e tx
            /\ av_events (checked_by v tx ev) = verify_event_rows vk e ev
            /\ av_binding (checked_by v tx ev) = verify_event_binding tx ev).
  { destruct v as [key|hex]; cbn [checked_by verifier_key].
    - eexists _, _. repeat split.
    - unfold verify_all_with_pubkey, verify_chain_with_pubkey, verify_event_chain_with_pubkey.
      cbn [checked_by verify_all_with_pubkey verify_chain_with_pubkey av_chain] in Hc.
      unfold verify_chain_with_pubkey in Hc. destruct (parse_verifying_key hex) as [vk|]; [|done].
      eexists _, _. repeat split. }
  destruct HX as (vk & e & Hk & E1 & E2 & E3). rewrite E1 in *. rewrite E2 in *. rewrite E3 in *.
  destruct (verify_rows vk e tx) as [n| |] eqn:Er; try done.
  destruct (verify_event_rows vk e ev) as [n'| |] eqn:Ee; try done.
  destruct (verify_event_binding tx ev) as [b| |] eqn:Eb; try done.
  pose proof Er as Er'. apply verify_rows_Intact in Er' as (? & ? & ->).
  apply verify_event_rows_Intact in Ee as (? & ? & ->). apply binding_from_spec in Eb.
  split_and!; [|done|by apply Hs]. by exists vk, e.
Qed.
End Passing.

Section Verdicts.
Context `{Crypto} `{StrDebug} {S : Type} `{CheckpointSink S}.
Implicit Types m : Machine S.

Lemma exit_with_zero code : exit_with code = Ok tt <-> code = 0%Z.
Proof. unfold exit_with. destruct (Z.eqb_spec code 0); split; congruence. Qed.

Lemma cannot_verify_all_code reason : AuditChain.exit_code (cannot_verify_all reason) = 2%Z.
Proof. reflexivity. Qed.

(** What a passing SQLite verification read. *)
Lemma verify_sqlite_zero metadata open db_path v :
  AuditChain.exit_code (verify_sqlite metadata open db_path v) = 0%Z ->
  exists st tx ev n, open db_path = Ok st /\ os_chain st = Ok tx /\ os_events st = Ok ev
    /\ os_status st = Ok (Agrees n)
    /\ (exists vk e, verifier_key v = Some (vk, e) /\ whole_trail vk tx ev)
    /\ av_chain (verify_sqlite metadata open db_path v) = Intact (length tx).
Proof.
  unfold verify_sqlite. destruct (unreachable_database metadata db_path); [done|].
  destruct (open db_path) as [st|]; [|done]. destruct (os_chain st) as [tx|] eqn:Et; [|done].
  destruct (os_events st) as [ev|] eqn:Ee; [|done]. intros Hz.
  apply checked_by_zero in Hz as (Hw & Hc & Hs).
  destruct (os_status st) as [[n|d|d]|] eqn:Es; try done.
  by exists st, tx, ev, n.
Qed.

(** The anchor was read, holds something, and every checkpoint in it is signed and
    names a row that is still in the chain. *)
Definition anchor_holds m (v : Verifier) (url : string) (tx : list ChainRow) : Prop :=
  exists sink cps vk, mc_sink m url = Ok sink /\ load_all sink = Ok cps /\ cps <> []
    /\ parse_verifying_key (verifier_hex v) = Some vk
    /\ Forall (fun c => signature_ok vk (checkpoint_message (cp_seq c) (cp_chain_tip c) (cp_created_at c))
                          (cp_signature c) = true
                        /\ exists r, r ∈ tx /\ cr_chain_hash r = cp_chain_tip c) cps.

(** An anchor that does not spoil the verdict was read whole, held something, and
    every checkpoint in it is signed and still in the chain. *)
Lemma anchor_zero m db_path v url o st tx :
  uses_postgres (mc_config m) = None -> mc_open m db_path = Ok st -> os_chain st = Ok tx ->
  anchor_configured (mc_env m) = Some url ->
  verify_configured_anchor m db_path v = Some o -> checkpoint_outcome_to_exit_code o = 0%Z ->
  anchor_holds m v url tx.
Proof.
  intros Hpg Ho Ht Hu Hv Hz. unfold verify_configured_anchor in Hv.
  rewrite Hu, Hpg, Ho in Hv. cbn in Hv. rewrite Ht in Hv.
  destruct (mc_sink m url) as [sink|] eqn:Esk; [|by simplify_eq].
  unfold verify_against_anchor in Hv. destruct (load_all sink) as [cps|] eqn:El; [|by simplify_eq].
  destruct (bool_decide (cps = [])) eqn:Eb; [by simplify_eq|]. apply bool_decide_eq_false in Eb.
  injection Hv as <-. destruct (verify_checkpoints (verifier_hex v) tx cps) as [n| | | |] eqn:Ec; try done.
  apply verify_checkpoints_consistent in Ec as (vk & Hk & Hc).
  exists sink, cps, vk. split_and!; try done. apply Forall_forall. intros c Hin.
  by eapply consistent_rows.
Qed.

Lemma configured_anchor_runs m db_path v url :
  anchor_configured (mc_env m) = Some url -> exists o, verify_configured_anchor m db_path v = Some o.
Proof. intros Hu. unfold verify_configured_anchor. rewrite Hu. cbn. repeat case_match; eauto. Qed.

(** What a passing PostgreSQL verification read. *)
Lemma verify_postgres_zero postgres storage v :
  AuditChain.exit_code (verify_postgres postgres storage v) = 0%Z ->
  exists cfg tx ev n, postgres_config storage = Ok cfg /\ pg_chain (postgres cfg) = Ok tx
    /\ (pg_events (postgres cfg) = Ok ev \/ pg_events_absent (postgres cfg) = Ok true /\ ev = [])
    /\ pg_status (postgres cfg) = Ok (Agrees n)
    /\ (exists vk e, verifier_key v = Some (vk, e) /\ whole_trail vk tx ev)
    /\ av_chain (verify_postgres postgres storage v) = Intact (length tx).
Proof.
  unfold verify_postgres. destruct (postgres_config storage) as [cfg|]; [|done]. cbv zeta.
  assert (Hpass : forall tx ev, let a := with_status (checked_by v tx ev) (status_verdict (pg_status (postgres cfg))) in
    AuditChain.exit_code a = 0%Z ->
    exists n, pg_status (postgres cfg) = Ok (Agrees n)
      /\ (exists vk e, verifier_key v = Some (vk, e) /\ whole_trail vk tx ev) /\ av_chain a = Intact (length tx)).
  { cbv zeta. intros tx ev Hz. apply checked_by_zero in Hz as (Hw & Hc & Hs).
    destruct (pg_status (postgres cfg)) as [[n|d|d]|]; try done. by exists n. }
  destruct v as [key|hex].
  - destruct (pg_connect _); [|done]. unfold pg_verify_all.
    destruct (pg_chain (postgres cfg)) as [tx|] eqn:Et; [|done]. cbn.
    destruct (pg_events (postgres cfg)) as [ev|] eqn:Ee; [|done]. intros Hz.
    destruct (Hpass tx ev Hz) as (n & ? & ? & ?). exists cfg, tx, ev, n. split_and!; auto.
  - unfold pg_verify_with_pubkey. destruct (pg_pool _); [|done]. cbn.
    destruct (pg_chain (postgres cfg)) as [tx|] eqn:Et; [|done]. cbn.
    destruct (pg_events (postgres cfg)) as [ev|] eqn:Ee.
    { intros Hz. destruct (Hpass tx ev Hz) as (n & ? & ? & ?). exists cfg, tx, ev, n. split_and!; auto. }
    destruct (pg_events_absent (postgres cfg)) as [[|]|] eqn:Ea.
    { intros Hz. destruct (Hpass tx [] Hz) as (n & ? & ? & ?). exists cfg, tx, [], n. split_and!; auto. }
    all: unfold unreadable_events, AuditChain.exit_code; cbn; by destruct (verify_chain_with_pubkey _ _).
Qed.

(** The rows the configured backend answers with, and that its status cross-check
    agrees. A PostgreSQL database without a table of events has none. *)
Definition reads_store m (db_path : string) (tx : list ChainRow) (ev : list EventRow) : Prop :=
  match uses_postgres (mc_config m) with
  | None => exists st n, mc_open m db_path = Ok st /\ os_chain st = Ok tx /\ os_events st = Ok ev
              /\ os_status st = Ok (Agrees n)
  | Some storage => exists cfg n, postgres_config storage = Ok cfg /\ pg_chain (mc_postgres m cfg) = Ok tx
              /\ (pg_events (mc_postgres m cfg) = Ok ev \/ pg_events_absent (mc_postgres m cfg) = Ok true /\ ev = [])
              /\ pg_status (mc_postgres m cfg) = Ok (Agrees n)
  end.

Lemma verify_store_zero m db_path v :
  AuditChain.exit_code (verify_store m db_path v) = 0%Z ->
  exists vk e tx ev, verifier_key v = Some (vk, e) /\ reads_store m db_path tx ev /\ whole_trail vk tx ev
    /\ av_chain (verify_store m db_path v) = Intact (length tx).
Proof.
  unfold verify_store, reads_store. destruct (uses_postgres (mc_config m)) as [storage|]; intros Hz.
  - apply verify_postgres_zero in Hz as (cfg & tx & ev & n & ? & ? & ? & ? & (vk & e & ? & ?) & ?).
    exists vk, e, tx, ev. eauto 10.
  - apply verify_sqlite_zero in Hz as (st & tx & ev & n & ? & ? & ? & ? & (vk & e & ? & ?) & ?).
    exists vk, e, tx, ev. eauto 10.
Qed.

(** A verdict on the anchor that does not spoil the command's is one on SQLite rows. *)
Lemma passing_anchor m db_path v url tx ev :
  anchor_configured (mc_env m) = Some url -> reads_store m db_path tx ev ->
  (forall o, verify_configured_anchor m db_path v = Some o -> checkpoint_outcome_to_exit_code o = 0%Z) ->
  uses_postgres (mc_config m) = None /\ anchor_holds m v url tx.
Proof.
  intros Hu Hst Ha. destruct (configured_anchor_runs m db_path v url Hu) as [o Eo].
  assert (Hpg : uses_postgres (mc_config m) = None).
  { specialize (Ha o Eo). revert Eo Ha. unfold verify_configured_anchor. rewrite Hu. cbn.
    by destruct (uses_postgres _) as [s|]; [intros [= <-]|]. }
  unfold reads_store in Hst. rewrite Hpg in Hst. destruct Hst as (st & n & Ho & Ht & _).
  split; [done|]. by eapply anchor_zero; eauto.
Qed.

(** C23: a passing `audit verify` is worth its exit code, on either backend. When the
    command ends without an error it has loaded a key and read a store in which both
    chains are signed and linked from the first row to the last, every approval event a
    row committed to is still there, every status agrees with the signed events, and
    the log is not empty. If an anchor is configured, the store is SQLite's, and the
    anchor was read, was not empty, and every checkpoint in it is signed and still in
    the chain; with PostgreSQL and an anchor the command does not pass. *)
Theorem passing_verdict_is_whole m as_json pubkey store :
  pr_end (run_audit_verify_with_store m as_json pubkey store) = Ok tt ->
  exists v vk e tx ev,
    load_verifier m pubkey (store_path store) = Ok v /\ verifier_key v = Some (vk, e)
    /\ reads_store m (store_path store) tx ev /\ whole_trail vk tx ev /\ tx <> []
    /\ forall url, anchor_configured (mc_env m) = Some url ->
         uses_postgres (mc_config m) = None /\ anchor_holds m v url tx.
Proof.
  unfold run_audit_verify_with_store.
  destruct (load_verifier m pubkey (store_path store)) as [v|]; [|done]. cbn [pr_end].
  rewrite exit_with_zero, combined_zero. intros (Hv & Ha & He).
  destruct (verify_store_zero _ _ _ Hv) as (vk & e & tx & ev & Hk & Hst & Hw & Hc).
  exists v, vk, e, tx, ev. split_and!; try done; [|by intros url Hu; eapply passing_anchor].
  intros ->. unfold empty_unanchored_chain in He. rewrite Hc in He. cbn in He.
  destruct (verify_configured_anchor m (store_path store) v) as [o|] eqn:Eo; [|done].
  destruct (anchor_configured (mc_env m)) as [url|] eqn:Eu.
  - destruct (passing_anchor m (store_path store) v url [] ev Eu Hst) as (_ & sink & [|c cps] & vk' & _ & _ & Hne & _ & Hf);
      [by rewrite Eo|done|].
    apply Forall_cons in Hf as [(_ & r & Hr & _) _]. by apply not_elem_of_nil in Hr.
  - unfold verify_configured_anchor in Eo. by rewrite Eu in Eo.
Qed.

(** What [local_key] and [load_verifier] find is the same key. *)
Lemma local_key_loads m db_path missing :
  match load_verifier m None db_path, local_key m db_path missing with
  | Ok v, Ok v' => v = v'
  | Err _, Err _ => True
  | _, _ => False
  end.
Proof.
  unfold load_verifier, local_key. cbn zeta.
  destruct (path_exists _); cbn [negb]; [|done]. by destruct (load_or_generate _ _).
Qed.

Definition word_code (status : string) : Z :=
  if (status =? "intact")%string then 0 else if (status =? "broken")%string then 1 else 2.

Lemma status_word_code v anchor :
  word_code (status_word (combined_verification_exit_code v anchor)) = combined_verification_exit_code v anchor.
Proof. by destruct (combined_range v anchor) as [->|[->| ->]]. Qed.

Definition count_value (c : option nat) : json := match c with Some n => nat_json n | None => JNull end.

(** A report and the JSON form say the same. *)
Definition same_report (r : AuditVerifyReport) (j : json) : Prop :=
  jget "status" j = Some (JStr (rp_status r))
  /\ jget "backend" j = Some (JStr (rp_backend r))
  /\ jget "chain" j ≫= jget "status" = Some (JStr (rp_chain_status r))
  /\ jget "approval_events" j ≫= jget "status" = Some (JStr (rp_approval_events_status r))
  /\ jget "binding" j ≫= jget "status" = Some (JStr (rp_binding_status r))
  /\ jget "status_check" j = Some (match rp_status_check r with Some s => status_json s | None => JNull end)
  /\ map (fun k => jget k j)
       ["rows_censused"; "attributed_rows"; "unattributed_rows"; "rows_without_principal";
        "rows_unattested"; "rows_naming_no_account"]
     = map (fun c => Some (count_value c))
         [rp_rows_censused r; rp_attributed_rows r; rp_unattributed_rows r;
          rp_rows_without_principal r; rp_rows_unattested r; rp_rows_naming_no_account r].

Lemma report_matches v label anchor note caveat :
  same_report (with_audit_store_note (outcome_to_report v label anchor) note)
    (verification_json v label anchor caveat).
Proof.
  destruct v as [ch ev b c s]. unfold same_report, outcome_to_report.
  destruct ch, ev, b, c; repeat split; reflexivity.
Qed.

Lemma report_headline v label anchor note :
  word_code (rp_status (with_audit_store_note (outcome_to_report v label anchor) note))
  = combined_verification_exit_code v anchor.
Proof.
  rewrite <-(status_word_code v anchor). unfold outcome_to_report. by destruct (av_chain v).
Qed.

(** The two surfaces agree. On one machine and one store, the report an agent
    gets and the JSON `audit verify` prints carry the same headline, the command's
    exit code is that headline's, and the chain, event, binding and status verdicts
    and all six attribution counts are the same (null exactly where the other is). *)
Theorem surfaces_agree m store :
  let r := audit_verify_local_store_with_store m store in
  let p := run_audit_verify_with_store m true None store in
  exists j, pr_out p = [OutJson j] /\ pr_end p = exit_with (word_code (rp_status r)) /\ same_report r j.
Proof.
  cbn zeta. unfold audit_verify_local_store_with_store, run_audit_verify_with_store, audit_store_details,
    backend_label.
  set (missing := fun key_path : string => _).
  pose proof (local_key_loads m (store_path store) missing) as HK.
  destruct (uses_postgres (mc_config m));
    destruct (load_verifier m None (store_path store)) as [v|]; destruct (local_key _ _ _) as [v'|]; try done;
    subst; (eexists; split; [reflexivity|]); try (repeat split; reflexivity);
    (split; [by rewrite report_headline|apply report_matches]).
Qed.

(** An honest store passes: a log the daemon wrote, read with the daemon's key,
    ends `audit verify` without an error, once it has a row. *)
Theorem honest_store_passes `{StoreEnv} `{!CryptoLaws} m as_json store key db :
  reachable key db -> db_transactions db <> [] ->
  uses_postgres (mc_config m) = None -> anchor_configured (mc_env m) = None ->
  load_verifier m None (store_path store) = Ok (Private key) ->
  path_exists (mc_metadata m (store_path store)) = true ->
  mc_open m (store_path store) = Ok (store_of db) ->
  pr_end (run_audit_verify_with_store m as_json None store) = Ok tt.
Proof.
  intros Hr Hne Hpg Hanc Hkey Hex Hop. unfold run_audit_verify_with_store.
  rewrite Hkey. cbn [pr_end]. rewrite exit_with_zero, combined_zero.
  assert (Ea : verify_configured_anchor m (store_path store) (Private key) = None)
    by (unfold verify_configured_anchor; by rewrite Hanc).
  rewrite Ea. unfold verify_store. rewrite Hpg.
  destruct (reachable_verifies key db Hr) as (E1 & E2 & (b & E3) & E4).
  unfold verify_audit_chain, store_verify_event_chain, store_verify_event_binding in *.
  assert (Eu : unreachable_database (mc_metadata m) (store_path store) = None).
  { unfold unreachable_database, path_is_present. destruct (mc_metadata m (store_path store)); done. }
  unfold verify_sqlite. rewrite Eu, Hop. cbn [store_of os_chain os_events os_status status_verdict checked_by].
  unfold verify_all. rewrite E1, E2, E3, E4. split_and!; [reflexivity|done|].
  unfold empty_unanchored_chain. cbn. by destruct (db_transactions db).
Qed.
End Verdicts.

Section ExportFacts.
Context `{Crypto} `{StrDebug} {S : Type} `{CheckpointSink S}.
Implicit Types m : Machine S.

Lemma anchored_is_consistent key rows t (sink sink' : S) seq n :
  anchor_once key rows t sink = (Ok (Anchored seq n), sink') ->
  rows <> [] /\ (exists k, verify_chain key rows = Intact k)
  /\ verify_against_anchor (verifying_key_hex key) rows sink' = Ok (CpConsistent n).
Proof.
  unfold anchor_once. destruct (last rows) as [tip|] eqn:El; [|done].
  destruct (verify_chain key rows) as [k| |]; [|done..].
  destruct (append _ sink) as [[[]|e] sk]; [|done].
  destruct (load_all sk) as [cps|] eqn:Ec; [|done].
  case_bool_decide as Hin; cbn [negb]; [|done].
  destruct (verify_checkpoints _ rows cps) as [c| | | |] eqn:Ev; try done.
  intros [= <- <- <-]. split_and!; [by intros ->|by exists k|].
  unfold verify_against_anchor. rewrite Ec, Ev. case_bool_decide as Hne; [|done].
  subst cps. by apply not_elem_of_nil in Hin.
Qed.

(** An `audit checkpoint` that succeeds has anchored something that can be
    checked: the log it read is not empty and verifies under the daemon's key, and
    verifying it against the anchor the command leaves is consistent. *)
Theorem checkpoint_success_is_checkable debug_verify debug_checkpoint m db pr sink' :
  run_audit_checkpoint debug_verify debug_checkpoint m db = (pr, Some sink') -> pr_end pr = Ok tt ->
  exists key st rows k n,
    mc_open m (store_path (resolve_audit_store (mc_metadata m) (mc_env m))) = Ok st
    /\ os_chain st = Ok rows /\ rows <> [] /\ verify_chain key rows = Intact k
    /\ verify_against_anchor (verifying_key_hex key) rows sink' = Ok (CpConsistent n).
Proof.
  unfold run_audit_checkpoint. set (store := resolve_audit_store _ _).
  destruct (match db with Some u => Some u | None => _ end) as [url|]; [|done]. cbv zeta.
  destruct (require_exists m _ "audit key" _); [done|].
  destruct (load_or_generate _ _) as [key|]; [|done].
  destruct (require_exists m _ "audit database" _); [done|].
  destruct (mc_open m (store_path store)) as [st|]; [|done].
  destruct (os_chain st) as [rows|] eqn:Ert; [|done]. destruct (mc_sink m url) as [sink|]; [|done].
  destruct (anchor_once key rows (mc_now m) sink) as [[o|e] sk] eqn:Ea;
    [|by intros [= <- <-]].
  destruct o as [seq n| | | |]; intros [= <- <-]; try done. intros _.
  apply anchored_is_consistent in Ea as (Hne & (k & Hk) & Hc).
  by exists key, st, rows, k, n.
Qed.

Lemma select_all parse rows : select_rows parse None (length rows) rows = Ok rows.
Proof. induction rows as [|r rows IH]; [done|]. cbn [length select_rows]. by rewrite IH. Qed.

(** An export without a filter is the whole log, row for row. *)
Lemma export_is_the_log parse m rows :
  exported_rows m (store_path (resolve_audit_store (mc_metadata m) (mc_env m))) = Ok rows ->
  pr_out (run_audit_export parse m None None) = [OutJson (JArr (map chain_row_value rows))].
Proof.
  intros Hr. unfold run_audit_export. cbv zeta. rewrite Hr.
  unfold select_chain_rows_for_export. cbn [default]. unfold mbind, result_bind. cbn.
  by rewrite select_all.
Qed.
End ExportFacts.

(** ** Concrete machines *)

Module ReportSample.
#[local] Existing Instance Toy.crypto.
#[local] Existing Instance Toy.crypto_laws.
#[local] Existing Instance StoreSample.env.
#[export] Instance str_debug : StrDebug := fun s => s.

Definition key_bytes : bytes := replicate 32 "k"%char.
Definition key : AuditKey := mkAuditKey CURRENT_KEY_ID key_bytes.
Definition db : Db := StoreSample.or_empty (record (Some key) 0 "t1" StoreSample.tx empty_db).
Definition store : AuditStoreChoice := Explicit "/srv/audit.sqlite".

(** A machine with the key beside the database; [hidden] is a path that is not
    there. *)
Definition machine (e : environ) (storage : option StorageSection) (hidden : string) (d : Db)
    (anchored : list Checkpoint) : Machine (list Checkpoint) := {|
  mc_env := e;
  mc_config := mkConfig None None None None storage;
  mc_metadata := fun p => if (p =? hidden)%string then ProbeFailed else Found;
  mc_read := fun _ => Ok (verifying_key_hex key);
  mc_key := fun _ => (384%N, key_bytes);
  mc_open := fun _ => Ok (store_of d);
  mc_postgres := fun _ => mkPg (Err "down") (Err "down") (Err "down") (Err "down") (Err "down") (Err "down");
  mc_sink := fun _ => Ok anchored;
  mc_machine_hash := None;
  mc_daemon_hash := fun _ => None;
  mc_now := "t1" |}.

Definition plain : Machine (list Checkpoint) := machine ∅ None "" db [].

Lemma reach : reachable key db.
Proof.
  eapply reachable_step; [constructor|]. eapply (step_record key 0 "t1" StoreSample.tx).
  vm_compute. reflexivity.
Qed.

Definition anchored_tip : list Checkpoint :=
  match fetch_chain_rows db with r :: _ => [sign_checkpoint key (cr_seq r) (cr_chain_hash r) "t1"] | [] => [] end.
Definition anchored_env : environ := {["SYSKNIFE_CHECKPOINT_DB" := "postgres://anchor"]}.
Definition anchored : Machine (list Checkpoint) := machine anchored_env None "" db anchored_tip.
Definition postgres_section : StorageSection := mkStorage "postgres" (Some "postgres://db/sysknife") None.
(** The same machine after the log was erased. *)
Definition erased : Machine (list Checkpoint) := machine anchored_env None "" empty_db anchored_tip.
End ReportSample.

#[local] Existing Instance Toy.crypto.
#[local] Existing Instance Toy.crypto_laws.
#[local] Existing Instance StoreSample.env.
#[local] Existing Instance ReportSample.str_debug.

Lemma honest_store_passes_witness :
  pr_end (run_audit_verify_with_store ReportSample.plain false None ReportSample.store) = Ok tt.
Proof.
  apply (honest_store_passes ReportSample.plain false ReportSample.store ReportSample.key ReportSample.db
           ReportSample.reach); try reflexivity.
  intros E. apply (f_equal length) in E. vm_compute in E. discriminate.
Defined.

Lemma passing_verdict_is_whole_witness :
  exists tx ev, length tx = 1 /\ os_chain (store_of ReportSample.db) = Ok tx
    /\ whole_trail (verifying_key ReportSample.key) tx ev.
Proof.
  destruct (passing_verdict_is_whole ReportSample.anchored true None ReportSample.store)
    as (v & vk & e & tx & ev & Hl & Hk & (st & n & Ho & Ht & _) & Hw & _).
  { vm_compute. reflexivity. }
  injection Ho as <-. exists tx, ev. split.
  - injection Ht as <-. vm_compute. reflexivity.
  - split; [exact Ht|].
    assert (Ev : v = Private ReportSample.key).
    { assert (E : load_verifier ReportSample.anchored None (store_path ReportSample.store)
                  = Ok (Private ReportSample.key)) by reflexivity. congruence. }
    subst v. injection Hk as <- _. exact Hw.
Defined.

(** The same log in PostgreSQL passes, and does not once an anchor is configured. *)
Example postgres_log_verdicts :
  let pg := mkPg (Ok tt) (Ok tt) (Ok (fetch_chain_rows ReportSample.db)) (Ok []) (Ok false) (Ok (Agrees 1)) in
  let m e := mkMachine e (mkConfig None None None None (Some ReportSample.postgres_section)) (fun _ => Found)
    (fun _ => Ok "") (fun _ => (384%N, ReportSample.key_bytes)) (fun _ => Err "") (fun _ => pg)
    (fun _ => Ok ReportSample.anchored_tip) None (fun _ => None) "t1" in
  pr_end (run_audit_verify_with_store (m ∅) true None ReportSample.store) = Ok tt
  /\ pr_end (run_audit_verify_with_store (m ReportSample.anchored_env) true None ReportSample.store) = Err (Exit 2).
Proof. vm_compute. done. Qed.

Lemma checkpoint_success_is_checkable_witness :
  exists key rows k n, length rows = 1 /\ verify_chain key rows = Intact k
    /\ verify_against_anchor (verifying_key_hex key) rows ReportSample.anchored_tip = Ok (CpConsistent n).
Proof.
  pose (m := ReportSample.machine (<["SYSKNIFE_DATABASE_PATH" := "/srv/audit.sqlite"]> ReportSample.anchored_env)
               None "" ReportSample.db []).
  destruct (checkpoint_success_is_checkable (fun _ => []) (fun _ => []) m None
      (run_audit_checkpoint (fun _ => []) (fun _ => []) m None).1 ReportSample.anchored_tip)
    as (key & st & rows & k & n & Ho & Ht & _ & Hk & Hc); [vm_compute; reflexivity|vm_compute; reflexivity|].
  exists key, rows, k, n. split; [|by split].
  injection Ho as <-. injection Ht as <-. vm_compute. reflexivity.
Defined.

(** An erased log is seen by the anchor, by both surfaces... *)
Example erased_log_is_seen :
  pr_end (run_audit_verify_with_store ReportSample.erased true None ReportSample.store) = Err (Exit 1)
  /\ rp_status (audit_verify_local_store_with_store ReportSample.erased ReportSample.store) = "broken".
Proof. vm_compute. done. Qed.

(** ... and not by the doctor, which reads no anchor and calls an empty log intact:
    where `audit verify` answers broken, or cannot verify when there is no anchor,
    the doctor's status is "intact". *)
Lemma doctor_calls_an_erased_log_intact :
  kind_word (audit_chain_quick_check ReportSample.erased ReportSample.store).1 = "intact"
  /\ kind_word (audit_chain_quick_check (ReportSample.machine ∅ None "" empty_db []) ReportSample.store).1
     = "intact"
  /\ rp_status (audit_verify_local_store_with_store (ReportSample.machine ∅ None "" empty_db [])
       ReportSample.store) = "cannot_verify".
Proof. vm_compute. done. Qed.

(** Without a key `audit verify` reports that no anchor is configured, whatever is
    configured; the report to an agent says it is configured and was not checked. *)
Lemma missing_key_hides_the_anchor :
  let m := ReportSample.machine ReportSample.anchored_env None "/srv/audit-key" ReportSample.db
             ReportSample.anchored_tip in
  pr_out (run_audit_verify_with_store m false None ReportSample.store) !! 1 = Some (OutLine (lit anchor_caveat))
  /\ jget "configured" (rp_audit_anchor (audit_verify_local_store_with_store m ReportSample.store))
     = Some (JBool true).
Proof. vm_compute. done. Qed.

(** A backend name the daemon refuses to start with is taken for SQLite by the
    audit commands: they verify the local file and pass. *)
Lemma unknown_backend_reads_sqlite :
  let s := mkStorage "postgresql" (Some "postgres://db") None in
  (exists why, parsed s = Err why)
  /\ pr_end (run_audit_verify_with_store (ReportSample.machine ∅ (Some s) "" ReportSample.db []) true None
       ReportSample.store) = Ok tt.
Proof. split; [by eexists|vm_compute; done]. Qed.

(** The command compares machine identities for a socket the configuration names;
    the agent's report looks at the environment only and stays silent. *)
Lemma agent_gets_no_machine_caveat :
  let e := {["SYSKNIFE_LISTEN_URI" := "unix:///run/forwarded.sock"]} : environ in
  (exists caveat, resolve_daemon_socket_caveat e (Some "here") (fun _ => Some "there") = Some (Some caveat))
  /\ remote_daemon_caveat_from_env e = None.
Proof. split; [by eexists|reflexivity]. Qed.
