(* ===== verification/Mcp.v ===== *)
(** * The MCP server

    apps/sysknife-cli/src/mcp_server.rs: the tools an agent is offered, what they ask
    the daemon, and the screening of everything that is handed back (the audit
    tools' reports are in Report.v). The protocol library that carries the tools is
    not modelled; a daemon connection is an argument ([Link]), one per operation. *)

From Stdlib Require Import Ascii String NArith ZArith Lia.
From stdpp Require Import base gmap list strings.
From S2P Require Import Prelude Json Types Distro ActionFamily Actions Catalogue Preview Policy Store Effects Dispatcher Approval Run Sanitize PlanTools Wire Client Signing AuditChain Anchor Config Report Handlers.

(** ** The result boundary *)

Definition MCP_MAX_OUTPUT_BYTES : nat := 64 * 1024.
Definition VERBATIM_KEYS : list string := ["params"; "transaction_id"; "approval_receipt"].

(** [Map::insert]; the order of an object's entries is not observed. *)
Fixpoint jinsert (k : string) (v : json) (m : list (string * json)) : list (string * json) :=
  match m with
  | [] => [(k, v)]
  | (k', v') :: m' => if (k =? k')%string then (k, v) :: m' else (k', v') :: jinsert k v m'
  end.

Definition COLLISION (safe_key : string) : text :=
  [Lit "two keys in the daemon's reply normalise to "; Dbg safe_key; Lit "; refusing to drop one of them"].

Section Boundary.
(** Unicode normalisation form C. *)
Variable nfc : string -> string.

Definition screen_text (s : string) : option string := normalise_free_text_capped nfc s MCP_MAX_OUTPUT_BYTES.

(** The loops over an array and over an object; the outer [None] is the panic of the
    normaliser. *)
Section Loops.
Variable sanitise : json -> option (result text json).

Fixpoint sanitise_items (items : list json) : option (result text (list json)) :=
  match items with
  | [] => Some (Ok [])
  | item :: items' =>
      and_then (sanitise item) (fun item =>
      and_then (sanitise_items items') (fun items' => Some (Ok (item :: items'))))
  end.

Fixpoint sanitise_entries (rebuilt map : list (string * json)) : option (result text (list (string * json))) :=
  match map with
  | [] => Some (Ok rebuilt)
  | (key, child) :: map' =>
      if str_in key VERBATIM_KEYS then sanitise_entries (jinsert key child rebuilt) map'
      else
        and_then (sanitise child) (fun child =>
        match screen_text key with
        | None => None
        | Some safe_key =>
            match assoc safe_key rebuilt with
            | Some _ => Some (Err (COLLISION safe_key))
            | None => sanitise_entries (jinsert safe_key child rebuilt) map'
            end
        end)
  end.
End Loops.

Fixpoint sanitise_result_json (value : json) : option (result text json) :=
  match value with
  | JStr s => s ← screen_text s; Some (Ok (JStr s))
  | JArr items =>
      and_then (sanitise_items sanitise_result_json items) (fun items => Some (Ok (JArr items)))
  | JObj map =>
      and_then (sanitise_entries sanitise_result_json [] map) (fun map => Some (Ok (JObj map)))
  | _ => Some (Ok value)
  end.

(** What reaches the caller instead of an error's text. *)
Definition tool_error (e : string) : option string :=
  sanitize_tool_output_capped nfc "sysknife_error" e MAX_OUTPUT_BYTES.
End Boundary.

(** ** The tools offered *)

Definition MCP_READ_ONLY_ACTIONS : list string :=
  ["GetSystemState"; "CollectDiagnostics"; "GetDeploymentHistory"; "ListDeployments";
   "GetKernelArguments"; "GetLayeredPackages"; "GetPendingUpdates"; "GetDiskUsage";
   "SearchFlatpakApps"; "ListFlatpakRemotes"; "ListInstalledFlatpaks"; "GetFlatpakAppInfo";
   "UbuntuListFlatpaks"; "ListToolboxes"; "ListServices"; "GetServiceLogs"; "GetServiceStatus";
   "ListTimers"; "GetServiceResourceLimits"; "ListProcesses"; "GetJournalLog"; "GetLvmReport";
   "GetSysctl"; "GetMounts"; "GetLogrotateStatus"; "GetPasswordAging"; "GetAuditRules";
   "GetCertificates"; "GetSudoGrants"; "GetFirewallState"; "GetNetworkStatus"; "GetListeningPorts";
   "GetNftablesRuleset"; "GetFirewallBackendState"; "ResolvectlStatus"; "GetDateTime"; "ListUsers";
   "ListGroups"; "GetAuthorizedKeys"; "ListPackageRepositories"; "GetMemoryInfo"; "GetHostState";
   "ListContainers"; "GetContainerInfo"; "CheckPendingReboot"; "AppArmorStatus"; "CloudInitStatus";
   "Fail2banStatus"; "AptSearch"; "AptListInstalled"; "AptShow"; "AptListUpgradable"; "AptHistoryList";
   "GetAptPins"; "SnapList"; "SnapInfo"; "UfwStatus"; "NetplanGetConfig"; "DistroboxList";
   "GrubGetKargs"; "ProStatus"; "LivepatchStatus"; "MultipassList"; "ListJobHistory"].

Fixpoint snake_go (index : nat) (s : string) : string :=
  match s with
  | EmptyString => EmptyString
  | String ch s' =>
      let rest := String (char_lower ch) (snake_go (S index) s') in
      if (0 <? index) && is_upper ch then String "_" rest else rest
  end.
Definition direct_action_tool_name (action_name : string) : string := "sysknife_" ++ snake_go 0 action_name.

Definition action_is_available_on_distro (action_name : string) (distro : option DistroId) : bool :=
  match distro with
  | Some d => is_ok (check_action_distro action_name (Some d))
  | None => negb (action_requires_distro action_name)
  end.

Definition is_low (r : RiskLevel) : bool := bool_decide (r = Low).

Definition direct_spec (distro : option DistroId) (s : ActionSpec) : bool :=
  is_low (spec_risk_level s) && str_in (action_name s) MCP_READ_ONLY_ACTIONS
  && negb (str_in (action_name s) OBSERVER_MUTATING_ACTIONS)
  && action_is_available_on_distro (action_name s) distro.

(** The routes added, in order: the tool's name and the action behind it. *)
Definition direct_read_only_tool_router (distro : option DistroId) : list (string * string) :=
  map (fun s => (direct_action_tool_name (action_name s), action_name s))
    (List.filter (direct_spec distro) all_specs).

Definition FIXED_TOOLS : list string :=
  ["sysknife_plan"; "sysknife_execute"; "sysknife_history"; "sysknife_doctor"; "sysknife_audit_verify"].

Definition for_distro (distro : option DistroId) : list string :=
  FIXED_TOOLS ++ map fst (direct_read_only_tool_router distro).

Definition SYSKNIFE_DISCOVERY_URI : string := "sysknife://about".

(** [read_resource]: which resources there are. *)
Definition read_resource (uri body : string) : option string :=
  if (uri =? SYSKNIFE_DISCOVERY_URI)%string then Some body else None.

(** ** Planning *)

Record PlanStepOutput : Type := mkStepOutput {
  so_action_name : string;
  so_summary : string;
  so_risk_level : string;
  so_params : json;
  so_command : string;
  so_transaction_id : string;
  so_warnings : list string;
  so_current_state : json;
  so_proposed_change : json;
  so_expected_side_effects : list string;
  so_reboot_required : bool;
  so_rollback_available : bool }.

Record PlanOutput : Type := mkPlanOutput {
  po_intent : string;
  po_summary : string;
  po_explanation : string;
  po_steps : list PlanStepOutput }.

(** A plan as [plan_intent_inner] serialises it and the tool reads it back: fields
    the plan does not have take their defaults. *)
Definition step_output_of (s : PlanStep) : PlanStepOutput := {|
  so_action_name := step_action_name s; so_summary := step_summary s;
  so_risk_level := plan_risk_str (step_risk_level s); so_params := step_params s;
  so_command := ""; so_transaction_id := ""; so_warnings := []; so_current_state := JNull;
  so_proposed_change := JNull; so_expected_side_effects := []; so_reboot_required := false;
  so_rollback_available := false |}.
Definition plan_output_of (p : Plan) : PlanOutput :=
  mkPlanOutput (plan_intent p) (plan_summary p) (plan_explanation p) (map step_output_of (plan_steps p)).

Fixpoint check_plan_steps_distro (action_names : list string) (distro : option DistroId) : result string () :=
  match action_names with
  | [] => Ok tt
  | a :: rest => _ ← check_action_distro a distro; check_plan_steps_distro rest distro
  end.

Definition merge_preview_into_step (step : PlanStepOutput) (p : PreviewEnvelope) : PlanStepOutput := {|
  so_action_name := so_action_name step; so_summary := so_summary step;
  so_risk_level := risk_str (prv_risk_level p); so_params := so_params step;
  so_command := so_command step; so_transaction_id := so_transaction_id step;
  so_warnings := prv_warnings p; so_current_state := prv_current_state p;
  so_proposed_change := prv_proposed_change p; so_expected_side_effects := prv_expected_side_effects p;
  so_reboot_required := prv_reboot_required p; so_rollback_available := prv_rollback_available p |}.

Definition with_command (step : PlanStepOutput) (command : string) : PlanStepOutput :=
  mkStepOutput (so_action_name step) (so_summary step) (so_risk_level step) (so_params step) command
    (so_transaction_id step) (so_warnings step) (so_current_state step) (so_proposed_change step)
    (so_expected_side_effects step) (so_reboot_required step) (so_rollback_available step).
Definition with_transaction (step : PlanStepOutput) (id : string) : PlanStepOutput :=
  mkStepOutput (so_action_name step) (so_summary step) (so_risk_level step) (so_params step)
    (so_command step) id (so_warnings step) (so_current_state step) (so_proposed_change step)
    (so_expected_side_effects step) (so_reboot_required step) (so_rollback_available step).

Section Operations.
Context `{ClientEnv}.

(** [links] are the two connections a step makes: its description, its preview. *)
Definition enrich_step (target : SocketTarget) (links : Link * Link) (step : PlanStepOutput)
    : result string PlanStepOutput :=
  match describe target links.1 (so_action_name step) (so_params step) with
  | Err e => Err ("describe failed for " ++ so_action_name step ++ ": " ++ show_cli_error e)%string
  | Ok command =>
      let step := with_command step command in
      match preview target links.2 (so_action_name step) (so_params step) with
      | Err e => Err ("preview failed for " ++ so_action_name step ++ ": " ++ show_cli_error e)%string
      | Ok prepared =>
          Ok (merge_preview_into_step (with_transaction step (pp_transaction_id prepared)) (pp_preview prepared))
      end
  end.

(** The loop over the steps; [links i] are those of the step at [i]. *)
Fixpoint enrich_steps (target : SocketTarget) (links : nat -> Link * Link) (i : nat)
    (steps : list PlanStepOutput) : result string (list PlanStepOutput) :=
  match steps with
  | [] => Ok []
  | step :: rest =>
      step ← enrich_step target (links i) step;
      rest ← enrich_steps target links (S i) rest;
      Ok (step :: rest)
  end.

Definition enrich_with_commands (target : SocketTarget) (links : nat -> Link * Link) (output : PlanOutput)
    : result string PlanOutput :=
  steps ← enrich_steps target links 0 (po_steps output);
  Ok (mkPlanOutput (po_intent output) (po_summary output) (po_explanation output) steps).

(** How far the planner came. *)
Inductive Planned : Type :=
| ConfigFailed (e : string)
| InitFailed (e : string)
| PlanFailed (e : PlanningError)
| PlanMade (plan : Plan).

(** [plan_intent_inner] on what the planner answered, then the enrichment. *)
Definition plan_intent_inner (distro : option DistroId) (show : PlanningError -> string) (planned : Planned)
    : result string PlanOutput :=
  match planned with
  | ConfigFailed e => Err ("config error: " ++ e)%string
  | InitFailed e => Err ("planner init error: " ++ e)%string
  | PlanFailed e => Err ("planning error: " ++ show e)%string
  | PlanMade plan =>
      _ ← check_plan_steps_distro (map step_action_name (plan_steps plan)) distro;
      Ok (plan_output_of plan)
  end.

(** ** Executing *)

Record StepToExecute : Type := mkStepToExecute {
  te_transaction_id : string;
  te_action_name : string;
  te_params : json;
  te_approval_receipt : string }.

Record StepResult : Type := mkStepResult {
  sr_action_name : string;
  sr_status : string;
  sr_summary : string;
  sr_output : list string;
  sr_warnings : list string;
  sr_needs_reboot : bool;
  sr_transaction_id : string;
  sr_rollback_ref : option string }.

Definition OUTPUT_LINE_LIMIT : nat := 500.

Definition truncate_output (lines : list string) : list string :=
  if OUTPUT_LINE_LIMIT <? length lines then
    take OUTPUT_LINE_LIMIT lines
    ++ [("[truncated: " ++ dec_of_N (N.of_nat (length lines - OUTPUT_LINE_LIMIT)) ++ " more lines omitted]")%string]
  else lines.

Definition UNKNOWN_WARNING : string :=
  "The daemon may have applied this action or may still be running it. Check transaction history and host state before retrying; do not automatically replay the plan.".

(** One step: its result, and whether the next one runs. *)
Definition execute_step (target : SocketTarget) (link : Link) (step : StepToExecute) : StepResult * bool :=
  let '(lines, outcome) :=
    execute_with_outcome target link (te_transaction_id step) (te_action_name step) (te_params step)
      (te_approval_receipt step) in
  match outcome with
  | Err failure =>
      let '(status, warnings) :=
        if ef_outcome_unknown failure then ("unknown", [UNKNOWN_WARNING]) else ("failed", []) in
      (mkStepResult (te_action_name step) status
         ("execute error for " ++ te_action_name step ++ ": " ++ show_cli_error (ef_error failure))%string
         (truncate_output lines) warnings false (te_transaction_id step) None, false)
  | Ok result =>
      (mkStepResult (te_action_name step) (job_state_str (res_status result)) (res_summary result)
         (truncate_output lines) (res_warnings result) (res_needs_reboot result) (res_transaction_id result)
         (res_rollback_ref result), bool_decide (res_status result = Succeeded))
  end.

Fixpoint execute_steps (target : SocketTarget) (links : nat -> Link) (i : nat) (steps : list StepToExecute)
    : list StepResult :=
  match steps with
  | [] => []
  | step :: rest =>
      let '(result, go_on) := execute_step target (links i) step in
      result :: (if go_on then execute_steps target links (S i) rest else [])
  end.

(** The results of the attempted steps, and whether one of them needs a reboot. *)
Definition execute_steps_with_client (target : SocketTarget) (links : nat -> Link) (steps : list StepToExecute)
    : list StepResult * bool :=
  let results := execute_steps target links 0 steps in (results, existsb sr_needs_reboot results).

(** What an assistant that follows the instructions submits for a step of the plan
    it was given: its fields, and the receipt the operator read out. *)
Definition resubmit (receipt : string) (step : json) : option StepToExecute :=
  id ← jget "transaction_id" step ≫= as_str;
  name ← jget "action_name" step ≫= as_str;
  params ← jget "params" step;
  Some (mkStepToExecute id name params receipt).

(** ** History *)

Definition HISTORY_DEFAULT_LIMIT : N := 20.

Record HistoryEntry : Type := mkHistoryEntry {
  he_transaction_id : string;
  he_action : string;
  he_status : string;
  he_summary : string;
  he_created_at : option string;
  he_risk_level : option string }.

Definition history_entry_from_row (row : JobHistoryEntry) : HistoryEntry :=
  mkHistoryEntry (jh_transaction_id row) (jh_action_name row) (to_lower (AuditChain.state_debug (jh_status row)))
    (jh_summary row) (Some (jh_created_at row)) (Some (risk_str (jh_risk_level row))).

(** [since_to_cutoff]: [parse] is chrono's reading of a date or datetime as seconds,
    [show] its RFC 3339 form in UTC where there is one. *)
Definition since_to_cutoff (parse : string -> option Z) (show : Z -> option string) (now : Z) (s : string)
    : option string :=
  epoch ← parse s; if (now <? epoch)%Z then None else show epoch.

Definition history_with_client (cutoff : string -> option string) (show : PlanningError -> string)
    (debug_str : string -> string) (target : SocketTarget) (link : Link)
    (status action since : option string) (limit : option N) : result string (list HistoryEntry) :=
  since ← match since with
          | None => Ok None
          | Some s =>
              match cutoff s with
              | Some c => Ok (Some c)
              | None => Err ("since: " ++ debug_str s ++ " is not a valid past ISO-8601 date or datetime "
                             ++ "(accepted: 2026-01-15 or 2026-01-15T10:30:00Z)")%string
              end
          end;
  match query_history target link (Some (default HISTORY_DEFAULT_LIMIT limit)) status action since with
  | Err e => Err ("daemon error: " ++ show e)%string
  | Ok rows => Ok (map history_entry_from_row rows)
  end.

(** ** Direct queries *)

Definition direct_query_with_client (nfc : string -> string) (show : PlanningError -> string)
    (target : SocketTarget) (link : Link) (action_name : string) (params : json)
    : option (result string string) :=
  match query_action target link action_name params with
  | Err e => Err <$> tool_error nfc ("query failed: " ++ show e)%string
  | Ok raw => Ok <$> sanitize_tool_output_capped nfc action_name raw MCP_MAX_OUTPUT_BYTES
  end.
End Operations.

(** ** The doctor *)

Record DoctorReport : Type := mkDoctor {
  dr_daemon_socket : string;
  dr_daemon_reachable : bool;
  dr_brain_provider : string;
  dr_brain_model : string;
  dr_distro : string;
  dr_distro_source : string;
  dr_audit_db_path : string;
  dr_audit_chain_status : string;
  dr_warnings : list text }.

Section Doctor.
Context `{ClientEnv} `{Crypto} {S : Type} `{CheckpointSink S}.

(** [detected] is the local detection, [brain] the configured provider and model,
    [show] the text of a planning error. *)
Definition doctor_at_socket (m : Machine S) (socket : SocketTarget) (link : Link)
    (detected : option DistroId) (brain : result string (string * string)) (show : PlanningError -> string)
    : DoctorReport :=
  let '(reachable, remote_distro, w_daemon) :=
    match state_with_distro socket link with
    | Ok (_, distro) => (true, distro, [])
    | Err e => (false, None, [[Lit "daemon unreachable: "; Lit (show e)]])
    end in
  let target := resolve_with remote_distro detected in
  let w_target := match target_warning target with Some w => [lit w] | None => [] end in
  let '(provider, model, w_brain) :=
    match brain with
    | Ok (provider, model) => (provider, model, [])
    | Err e => ("unknown", "unknown", [[Lit "brain config unreadable: "; Lit e]])
    end in
  let store := resolve_audit_store (mc_metadata m) (mc_env m) in
  let '(audit_db_path, store_note) := audit_store_details m store in
  let w_note := match store_note with Some note => [[Lit "audit database: "; Lit note]] | None => [] end in
  let '(chain, w_chain) := audit_chain_quick_check m store in
  mkDoctor (label socket) reachable provider model (target_label target) (td_source target) audit_db_path
    (kind_word chain) (w_daemon ++ w_target ++ w_brain ++ w_note ++ w_chain).
End Doctor.

(** *** What is handed back, as serde writes it *)

Definition step_value (s : PlanStepOutput) : json := JObj [
  ("action_name", JStr (so_action_name s)); ("summary", JStr (so_summary s));
  ("risk_level", JStr (so_risk_level s)); ("params", so_params s); ("command", JStr (so_command s));
  ("transaction_id", JStr (so_transaction_id s)); ("warnings", JArr (map JStr (so_warnings s)));
  ("current_state", so_current_state s); ("proposed_change", so_proposed_change s);
  ("expected_side_effects", JArr (map JStr (so_expected_side_effects s)));
  ("reboot_required", JBool (so_reboot_required s)); ("rollback_available", JBool (so_rollback_available s))].

Definition plan_output_value (o : PlanOutput) : json := JObj [
  ("intent", JStr (po_intent o)); ("summary", JStr (po_summary o));
  ("explanation", JStr (po_explanation o)); ("steps", JArr (map step_value (po_steps o)))].

Definition step_result_value (r : StepResult) : json := JObj [
  ("action_name", JStr (sr_action_name r)); ("status", JStr (sr_status r)); ("summary", JStr (sr_summary r));
  ("output", JArr (map JStr (sr_output r))); ("warnings", JArr (map JStr (sr_warnings r)));
  ("needs_reboot", JBool (sr_needs_reboot r)); ("transaction_id", JStr (sr_transaction_id r));
  ("rollback_ref", opt_value (sr_rollback_ref r))].

Definition execute_output_value (o : list StepResult * bool) : json := JObj [
  ("steps", JArr (map step_result_value o.1)); ("needs_reboot", JBool o.2)].

Definition history_entry_value (h : HistoryEntry) : json := JObj [
  ("transaction_id", JStr (he_transaction_id h)); ("action", JStr (he_action h)); ("status", JStr (he_status h));
  ("summary", JStr (he_summary h)); ("created_at", opt_value (he_created_at h));
  ("risk_level", opt_value (he_risk_level h))].

(** ** The tools *)

Section Tools.
Context `{ClientEnv} `{StrDebug}.
Variable nfc : string -> string.

(** A tool's answer on its way out: the outer [None] is a panic of the screen, an
    error the text in its envelope. *)
Definition tool_reply (r : result string json) : option (result string json) :=
  match r with
  | Err e => Err <$> tool_error nfc e
  | Ok v =>
      match sanitise_result_json nfc v with
      | None => None
      | Some (Ok v) => Some (Ok v)
      | Some (Err t) => Err <$> tool_error nfc (show_text t)
      end
  end.

Definition sysknife_plan (target : SocketTarget) (links : nat -> Link * Link) (distro : option DistroId)
    (show : PlanningError -> string) (planned : Planned) : option (result string json) :=
  tool_reply (output ← plan_intent_inner distro show planned;
              output ← enrich_with_commands target links output;
              Ok (plan_output_value output)).

Definition sysknife_execute (target : SocketTarget) (links : nat -> Link) (steps : list StepToExecute)
    : option (result string json) :=
  tool_reply (Ok (execute_output_value (execute_steps_with_client target links steps))).

Definition sysknife_history (entries : result string (list HistoryEntry)) : option (result string json) :=
  tool_reply (entries ← entries; Ok (JObj [("entries", JArr (map history_entry_value entries))])).
End Tools.

(** ** What the caller receives *)

Section Received.
Variable nfc : string -> string.
Notation screen_text := (screen_text nfc).
Notation sanitise_result_json := (sanitise_result_json nfc).

(** A text the screen let out. *)
Definition clean_text (s : string) : Prop := exists raw, screen_text raw = Some s.

(** Every string of a value, keys included, but what hangs under a verbatim key. *)
Inductive screened : json -> Prop :=
| screened_leaf v : (match v with JStr _ | JArr _ | JObj _ => False | _ => True end) -> screened v
| screened_str s : clean_text s -> screened (JStr s)
| screened_arr l : Forall screened l -> screened (JArr l)
| screened_obj m :
    Forall (fun kv => str_in kv.1 VERBATIM_KEYS = true \/ clean_text kv.1 /\ screened kv.2) m ->
    screened (JObj m).

Lemma clean_text_shape s :
  clean_text s ->
  String.length s <= MCP_MAX_OUTPUT_BYTES /\ Forall (fun tag => contains tag s = false) envelope_tags.
Proof.
  intros [raw Hs]. unfold screen_text, normalise_free_text_capped, normalise_unbounded_text in Hs.
  destruct (Sanitize.strip_ansi raw) as [t|]; [|done]. cbn [mbind option_bind] in Hs. injection Hs as <-. split.
  - apply truncate_length. unfold MCP_MAX_OUTPUT_BYTES. lia.
  - apply Forall_forall. intros q Hin. destruct (envelope_tag q Hin) as (Hq & Hb & Ht).
    apply (truncate_free q Hq Hb); [|exact Ht]. by apply (collapse_free q Hq Hb), neutralised.
Qed.

Lemma Forall_jinsert (P : string * json -> Prop) k v m : P (k, v) -> Forall P m -> Forall P (jinsert k v m).
Proof.
  intros Hkv. induction 1 as [|[k' v'] m Hx Hm IH]; cbn [jinsert]; [by constructor|].
  destruct (k =? k')%string; by constructor.
Qed.

Lemma assoc_jinsert k v m : assoc k (jinsert k v m) = Some v.
Proof.
  induction m as [|[k' v'] m IH]; cbn [jinsert assoc]; [by rewrite String.eqb_refl|].
  destruct (String.eqb_spec k k') as [->|Hne]; cbn [assoc]; [by rewrite String.eqb_refl|].
  by destruct (String.eqb_spec k k').
Qed.

Lemma assoc_jinsert_ne k k' v m : k <> k' -> assoc k (jinsert k' v m) = assoc k m.
Proof.
  intros Hne. induction m as [|[k2 v2] m IH]; cbn [jinsert assoc].
  - by destruct (String.eqb_spec k k').
  - destruct (String.eqb_spec k' k2) as [->|]; cbn [assoc]; [by destruct (String.eqb_spec k k2)|].
    by rewrite IH.
Qed.

Lemma items_screened (f : json -> option (result text json)) l l' :
  Forall (fun v => forall v', f v = Some (Ok v') -> screened v') l ->
  sanitise_items f l = Some (Ok l') -> Forall screened l' /\ length l' = length l.
Proof.
  intros HF. revert l'. induction HF as [|v l Hv HF IH]; intros l' E; cbn [sanitise_items] in E.
  { by injection E as <-. }
  apply and_then_ok in E as (x & Ex & E). apply and_then_ok in E as (t & Et & E). injection E as <-.
  destruct (IH t Et) as [H1 H2]. split; [constructor; [by apply Hv|done]|cbn; by rewrite H2].
Qed.

Definition entry_screened (kv : string * json) : Prop :=
  str_in kv.1 VERBATIM_KEYS = true \/ clean_text kv.1 /\ screened kv.2.

Lemma entries_screened f m rebuilt m' :
  Forall (fun kv => forall v', f kv.2 = Some (Ok v') -> screened v') m ->
  Forall entry_screened rebuilt -> sanitise_entries nfc f rebuilt m = Some (Ok m') ->
  Forall entry_screened m'.
Proof.
  intros HF. revert rebuilt. induction HF as [|[k v] m Hv HF IH]; intros rebuilt Hr E; cbn [sanitise_entries] in E.
  { by injection E as <-. }
  destruct (str_in k VERBATIM_KEYS) eqn:Ek.
  { eapply IH; [|exact E]. apply Forall_jinsert; [by left|done]. }
  apply and_then_ok in E as (x & Ex & E). destruct (screen_text k) as [k'|] eqn:Es; [|done].
  destruct (assoc k' rebuilt); [done|].
  eapply IH; [|exact E]. apply Forall_jinsert; [|done]. right. split; [by exists k|by apply Hv].
Qed.

Lemma result_screened v v' : sanitise_result_json v = Some (Ok v') -> screened v'.
Proof.
  revert v'. induction v as [| | |s|l HF|m HF] using json_ind'; intros v' E; cbn [Mcp.sanitise_result_json] in E.
  - injection E as <-. by constructor.
  - injection E as <-. by constructor.
  - injection E as <-. by constructor.
  - destruct (screen_text s) as [t|] eqn:Et; [|done]. cbn in E. injection E as <-.
    apply screened_str. by exists s.
  - apply and_then_ok in E as (l' & El & E). injection E as <-. apply screened_arr.
    by destruct (items_screened _ _ _ HF El).
  - apply and_then_ok in E as (m' & Em & E). injection E as <-. apply screened_obj.
    eapply entries_screened; [exact HF|constructor|exact Em].
Qed.

(** *** What passes unchanged *)

Lemma entries_keep f m rebuilt m' k v :
  sanitise_entries nfc f rebuilt m = Some (Ok m') ->
  assoc k rebuilt = Some v -> k ∉ map fst m -> assoc k m' = Some v.
Proof.
  revert rebuilt. induction m as [|[k1 v1] m IH]; intros rebuilt E Hk Hn; cbn [sanitise_entries] in E.
  { by injection E as <-. }
  cbn [map fst] in Hn. apply not_elem_of_cons in Hn as [Hne Hn].
  destruct (str_in k1 VERBATIM_KEYS).
  { eapply IH; [exact E| |done]. by rewrite assoc_jinsert_ne. }
  apply and_then_ok in E as (x & _ & E). destruct (screen_text k1) as [k2|]; [|done].
  destruct (assoc k2 rebuilt) eqn:E2; [done|].
  eapply IH; [exact E| |done]. rewrite assoc_jinsert_ne; [done|]. intros ->. congruence.
Qed.

(** An entry reaches the caller: a verbatim one as it is, one whose key the screen
    leaves alone with its value screened. *)
Lemma entries_at f m rebuilt m' k v :
  sanitise_entries nfc f rebuilt m = Some (Ok m') -> NoDup (map fst m) -> assoc k m = Some v ->
  (str_in k VERBATIM_KEYS = true -> assoc k m' = Some v)
  /\ (str_in k VERBATIM_KEYS = false -> screen_text k = Some k ->
      exists v', f v = Some (Ok v') /\ assoc k m' = Some v').
Proof.
  revert rebuilt. induction m as [|[k1 v1] m IH]; intros rebuilt E Hnd Hk; [done|].
  cbn [map fst] in Hnd. apply NoDup_cons in Hnd as [Hn Hnd]. cbn [assoc] in Hk.
  cbn [sanitise_entries] in E. destruct (String.eqb_spec k k1) as [->|Hne].
  - injection Hk as ->. split; intros Hv; rewrite Hv in E.
    + eapply entries_keep; [exact E|apply assoc_jinsert|done].
    + intros Hs. apply and_then_ok in E as (x & Ex & E). rewrite Hs in E.
      destruct (assoc k1 rebuilt); [done|]. exists x. split; [done|].
      eapply entries_keep; [exact E|apply assoc_jinsert|done].
  - destruct (str_in k1 VERBATIM_KEYS); [by eapply IH|].
    apply and_then_ok in E as (x & _ & E). destruct (screen_text k1) as [k2|]; [|done].
    destruct (assoc k2 rebuilt); [done|]. by eapply IH.
Qed.

Lemma object_at m v' k v :
  sanitise_result_json (JObj m) = Some (Ok v') -> NoDup (map fst m) -> assoc k m = Some v ->
  (str_in k VERBATIM_KEYS = true -> jget k v' = Some v)
  /\ (str_in k VERBATIM_KEYS = false -> screen_text k = Some k ->
      exists w, sanitise_result_json v = Some (Ok w) /\ jget k v' = Some w).
Proof.
  cbn [Mcp.sanitise_result_json]. intros E Hnd Hk. apply and_then_ok in E as (m' & Em & E).
  injection E as <-. exact (entries_at _ _ _ _ _ _ Em Hnd Hk).
Qed.

Lemma items_at (f : json -> option (result text json)) l l' i v :
  sanitise_items f l = Some (Ok l') -> l !! i = Some v ->
  exists v', f v = Some (Ok v') /\ l' !! i = Some v'.
Proof.
  revert l' i. induction l as [|x l IH]; intros l' i E Hi; [done|]. cbn [sanitise_items] in E.
  apply and_then_ok in E as (y & Ey & E). apply and_then_ok in E as (t & Et & E). injection E as <-.
  destruct i as [|i]; [injection Hi as ->; by exists y|]. by apply (IH t i).
Qed.

(** The keys under which an approval's request travels. *)
Definition approved_key (k : string) : bool := str_in k ["params"; "transaction_id"; "approval_receipt"].

(** What a value becomes on its way out, at every depth: a string is normalised, an
    array keeps its items in place, an object's entries are exactly those it had. One
    under a verbatim key is the same to the byte; of any other, key and value are what
    the normaliser made of them, and it arrives unless a verbatim entry takes its name. *)
Inductive crossed : json -> json -> Prop :=
| crossed_leaf v : (match v with JStr _ | JArr _ | JObj _ => False | _ => True end) -> crossed v v
| crossed_str s s' : screen_text s = Some s' -> crossed (JStr s) (JStr s')
| crossed_arr l l' : Forall2 crossed l l' -> crossed (JArr l) (JArr l')
| crossed_obj m m' :
    (forall k v', (k, v') ∈ m' ->
       approved_key k = true /\ (k, v') ∈ m
       \/ exists k0 v0, (k0, v0) ∈ m /\ approved_key k0 = false /\ screen_text k0 = Some k /\ crossed v0 v') ->
    (NoDup (map fst m) -> forall k v, assoc k m = Some v -> approved_key k = true -> assoc k m' = Some v) ->
    (forall k v, (k, v) ∈ m -> approved_key k = false ->
       exists k' v', screen_text k = Some k' /\ crossed v v' /\ (approved_key k' = true \/ assoc k' m' = Some v')) ->
    crossed (JObj m) (JObj m').

Lemma elem_of_jinsert k v m x : x ∈ jinsert k v m -> x = (k, v) \/ x ∈ m.
Proof.
  induction m as [|[k' v'] m IH]; cbn [jinsert]; [rewrite list_elem_of_singleton; auto|].
  destruct (k =? k')%string; rewrite !elem_of_cons; naive_solver.
Qed.

(** Entries of the result come from what was rebuilt before or from the map. *)
Lemma entries_from f m rebuilt m' k v' :
  sanitise_entries nfc f rebuilt m = Some (Ok m') -> (k, v') ∈ m' ->
  (k, v') ∈ rebuilt \/ str_in k VERBATIM_KEYS = true /\ (k, v') ∈ m
  \/ exists k0 v0, (k0, v0) ∈ m /\ str_in k0 VERBATIM_KEYS = false /\ screen_text k0 = Some k /\ f v0 = Some (Ok v').
Proof.
  revert rebuilt. induction m as [|[k1 v1] m IH]; intros rebuilt E Hin; cbn [sanitise_entries] in E.
  { injection E as <-. by left. }
  assert (Hmore : forall x, x ∈ m -> x ∈ (k1, v1) :: m) by (intros x Hx; by right).
  destruct (str_in k1 VERBATIM_KEYS) eqn:Ek.
  - destruct (IH _ E Hin) as [[[= -> ->]|?]%elem_of_jinsert|[[? ?]|(k0 & v0 & ? & ?)]].
    + right. left. split; [done|by left].
    + by left.
    + right. left. auto.
    + right. right. exists k0, v0. auto.
  - apply and_then_ok in E as (x & Ex & E). destruct (screen_text k1) as [k2|] eqn:Es; [|done].
    destruct (assoc k2 rebuilt); [done|].
    destruct (IH _ E Hin) as [[[= -> ->]|?]%elem_of_jinsert|[[? ?]|(k0 & v0 & ? & ?)]].
    + right. right. exists k1, v1. split_and!; try done. by left.
    + by left.
    + right. left. auto.
    + right. right. exists k0, v0. auto.
Qed.

(** An entry under a screened name stays once it is in. *)
Lemma entries_stay f m rebuilt m' k v :
  sanitise_entries nfc f rebuilt m = Some (Ok m') -> str_in k VERBATIM_KEYS = false ->
  assoc k rebuilt = Some v -> assoc k m' = Some v.
Proof.
  revert rebuilt. induction m as [|[k1 v1] m IH]; intros rebuilt E Hk Ha; cbn [sanitise_entries] in E.
  { by injection E as <-. }
  destruct (str_in k1 VERBATIM_KEYS) eqn:Ek.
  - eapply IH; [exact E|done|]. rewrite assoc_jinsert_ne; [done|]. congruence.
  - apply and_then_ok in E as (x & _ & E). destruct (screen_text k1) as [k2|]; [|done].
    destruct (assoc k2 rebuilt) eqn:E2; [done|].
    eapply IH; [exact E|done|]. rewrite assoc_jinsert_ne; [done|]. congruence.
Qed.

Lemma entries_arrive f m rebuilt m' k v :
  sanitise_entries nfc f rebuilt m = Some (Ok m') -> (k, v) ∈ m -> str_in k VERBATIM_KEYS = false ->
  exists k' v', screen_text k = Some k' /\ f v = Some (Ok v')
    /\ (str_in k' VERBATIM_KEYS = true \/ assoc k' m' = Some v').
Proof.
  revert rebuilt. induction m as [|[k1 v1] m IH]; intros rebuilt E Hin Hk; [by apply not_elem_of_nil in Hin|].
  cbn [sanitise_entries] in E. apply elem_of_cons in Hin as [[= <- <-]|Hin].
  - rewrite Hk in E. apply and_then_ok in E as (x & Ex & E). destruct (screen_text k) as [k2|] eqn:Es; [|done].
    destruct (assoc k2 rebuilt); [done|]. exists k2, x. split_and!; try done.
    destruct (str_in k2 VERBATIM_KEYS) eqn:E2; [by left|right].
    eapply entries_stay; [exact E|done|apply assoc_jinsert].
  - destruct (str_in k1 VERBATIM_KEYS); [by eapply IH|].
    apply and_then_ok in E as (x & _ & E). destruct (screen_text k1) as [k2|]; [|done].
    destruct (assoc k2 rebuilt); [done|]. by eapply IH.
Qed.

Lemma items_crossed (f : json -> option (result text json)) (R : json -> json -> Prop) l l' :
  Forall (fun v => forall v', f v = Some (Ok v') -> R v v') l ->
  sanitise_items f l = Some (Ok l') -> Forall2 R l l'.
Proof.
  intros HF. revert l'. induction HF as [|v l Hv HF IH]; intros l' E; cbn [sanitise_items] in E.
  { injection E as <-. constructor. }
  apply and_then_ok in E as (x & Ex & E). apply and_then_ok in E as (t & Et & E). injection E as <-.
  constructor; auto.
Qed.

Lemma result_crossed v v' : sanitise_result_json v = Some (Ok v') -> crossed v v'.
Proof.
  revert v'. induction v as [| | |s|l HF|m HF] using json_ind'; intros v' E; cbn [Mcp.sanitise_result_json] in E.
  1-3: injection E as <-; by constructor.
  - destruct (screen_text s) as [t|] eqn:Et; [|done]. cbn in E. injection E as <-. by constructor.
  - apply and_then_ok in E as (l' & El & E). injection E as <-. constructor. by eapply items_crossed.
  - apply and_then_ok in E as (m' & Em & E). injection E as <-.
    assert (Hf : forall k v w, (k, v) ∈ m -> sanitise_result_json v = Some (Ok w) -> crossed v w).
    { intros k v w Hin. rewrite Forall_forall in HF. exact (HF (k, v) Hin w). }
    constructor.
    + intros k v' Hin. destruct (entries_from _ _ _ _ _ _ Em Hin) as [Hn|[?|(k0 & v0 & ? & ? & ? & ?)]];
        [by apply not_elem_of_nil in Hn|by left|]. right. exists k0, v0. eauto 6.
    + intros Hnd k v Ha Hk. by eapply (entries_at _ _ _ _ _ _ Em Hnd Ha).
    + intros k v Hin Hk. destruct (entries_arrive _ _ _ _ _ _ Em Hin Hk) as (k' & w & ? & ? & ?). exists k', w. eauto.
Qed.

(** Letters, digits and underscores: the names the program itself writes. *)
Definition plain_char (c : ascii) : bool := is_alnum c || Ascii.eqb c "_"%char.

Lemma plain_char_facts c : plain_char c = true ->
  Ascii.eqb c ESC = false /\ is_continuation c = false /\ char_len c = 1
  /\ code_of (String c "") = N_of_ascii c /\ is_dangerous (N_of_ascii c) = false
  /\ Ascii.eqb c LF = false /\ Ascii.eqb "<"%char c = false.
Proof. destruct c as [[] [] [] [] [] [] [] []]; intros Hc; first [discriminate Hc|repeat split]. Qed.

Lemma take_one c s : str_take 1 (String c s) = String c "".
Proof. by destruct s. Qed.
Lemma drop_one c s : str_drop 1 (String c s) = s.
Proof.
  unfold str_drop. cbn [String.length Nat.sub String.substring]. rewrite Nat.sub_0_r.
  induction s as [|d s IH]; [done|]. cbn [String.length String.substring]. by rewrite IH.
Qed.

Section Plain.
Hypothesis nfc_plain : forall s, str_all plain_char s = true -> nfc s = s.

Lemma strip_plain fuel s : String.length s < fuel -> str_all plain_char s = true -> strip_ansi_go fuel s = Some s.
Proof.
  revert s. induction fuel as [|fuel IH]; intros [|c s] Hf Hs; cbn in Hf; try lia; [done|].
  cbn [str_all] in Hs. apply andb_true_iff in Hs as [Hc Hs].
  destruct (plain_char_facts c Hc) as (H1 & H2 & H3 & _).
  cbn [strip_ansi_go]. rewrite H1, H2, H3, take_one, drop_one, IH by (done || lia). done.
Qed.

Lemma filter_plain fuel s : String.length s <= fuel -> str_all plain_char s = true ->
  filter_chars fuel (fun c => negb (is_dangerous c)) s = s.
Proof.
  revert s. induction fuel as [|fuel IH]; intros [|c s] Hf Hs; cbn in Hf; try lia; try done.
  cbn [str_all] in Hs. apply andb_true_iff in Hs as [Hc Hs].
  destruct (plain_char_facts c Hc) as (_ & _ & H3 & H4 & H5 & _).
  cbn [filter_chars next_char]. rewrite H3, take_one, drop_one, H4, H5. cbn [negb String.append].
  by rewrite IH by (done || lia).
Qed.

Lemma replace_plain fuel from to s :
  str_all plain_char s = true -> starts_with "<" from = true -> replace_go fuel from to s = s.
Proof.
  intros Hs Hf. destruct from as [|a from]; [done|]. cbn in Hf.
  assert (a = "<"%char) as -> by (case_match; [by subst|done]).
  revert s Hs. induction fuel as [|fuel IH]; intros [|c s] Hs; try done.
  cbn [str_all] in Hs. apply andb_true_iff in Hs as [Hc Hs].
  destruct (plain_char_facts c Hc) as (_ & _ & _ & _ & _ & _ & H7).
  cbn [replace_go strip_prefix]. rewrite H7. by rewrite IH.
Qed.

Lemma collapse_plain k s : str_all plain_char s = true -> collapse_go k s = s.
Proof.
  revert k. induction s as [|c s IH]; intros k Hs; [done|].
  cbn [str_all] in Hs. apply andb_true_iff in Hs as [Hc Hs].
  destruct (plain_char_facts c Hc) as (_ & _ & _ & _ & _ & H6 & _).
  cbn [collapse_go]. rewrite H6. by rewrite IH.
Qed.

Lemma plain_passes s :
  str_all plain_char s = true -> String.length s <= MCP_MAX_OUTPUT_BYTES -> screen_text s = Some s.
Proof.
  intros Hs Hl. unfold Mcp.screen_text, normalise_free_text_capped, normalise_unbounded_text, Sanitize.strip_ansi.
  rewrite strip_plain by (done || lia). cbn [mbind option_bind].
  unfold strip_dangerous_unicode. rewrite filter_plain, nfc_plain by done.
  unfold neutralise_envelope_tags, neutralise_name, replace. cbn [fold_left PROMPT_ENVELOPE_NAMES].
  rewrite !(replace_plain _ _ _ s) by done. unfold collapse_blank_runs. rewrite collapse_plain by done.
  unfold truncate_with_marker. by rewrite (proj2 (Nat.leb_le _ _) Hl).
Qed.
End Plain.
End Received.

(** ** Properties *)

(** A tool's text in its envelope: one, sealed, of a bounded body. *)
Definition enveloped (max : nat) (e : string) : Prop :=
  exists safe_tool body, e = envelope safe_tool body /\ String.length body <= max
    /\ Forall (fun tag => contains tag body = false) envelope_tags.

Lemma capped_is_enveloped nfc tool raw max e :
  15 <= max -> sanitize_tool_output_capped nfc tool raw max = Some e -> enveloped max e.
Proof.
  intros Hm E. apply capped_is_sealed in E as (safe & body & -> & _ & _ & Hl & Ht).
  exists safe, body. split_and!; auto.
Qed.

Lemma error_is_enveloped nfc t e : tool_error nfc t = Some e -> enveloped MAX_OUTPUT_BYTES e.
Proof. intros E. eapply capped_is_enveloped; [|exact E]. apply Nat.leb_le. reflexivity. Qed.

(** C25: what a tool returns has crossed the boundary. The value a structured tool
    returns (the plan, the execution, the history) has, at every depth, each string,
    keys included, replaced by what the normaliser made of it, which fits in 64 KiB and
    holds no opening or closing tag of an envelope of the prompt; nothing else is in it,
    what hangs under one of the three verbatim keys, at any depth, is the same to the
    byte, and nothing is left out but what a verbatim entry takes the name of. The text
    a direct query returns is one sealed envelope of at most 64 KiB, and every error,
    of either kind of tool, one of at most 8 KiB. *)
Theorem reply_is_screened `{ClientEnv} `{StrDebug} nfc r show target link action params :
  (forall out, tool_reply nfc r = Some out ->
     match out with
     | Ok v' => (exists v, r = Ok v /\ crossed nfc v v') /\ screened nfc v'
         /\ forall s, clean_text nfc s -> String.length s <= MCP_MAX_OUTPUT_BYTES
                       /\ Forall (fun tag => contains tag s = false) envelope_tags
     | Err e => enveloped MAX_OUTPUT_BYTES e
     end)
  /\ forall out, direct_query_with_client nfc show target link action params = Some out ->
       match out with Ok t => enveloped MCP_MAX_OUTPUT_BYTES t | Err e => enveloped MAX_OUTPUT_BYTES e end.
Proof.
  split; intros out E.
  - destruct r as [v|t]; cbn [tool_reply] in E.
    2: { apply fmap_Some in E as (e & Ee & ->). by eapply error_is_enveloped. }
    destruct (sanitise_result_json nfc v) as [[v'|t]|] eqn:Es; [| |done].
    2: { apply fmap_Some in E as (e & Ee & ->). by eapply error_is_enveloped. }
    injection E as <-. split; [exists v; split; [done|by apply result_crossed]|].
    split; [by eapply result_screened|apply clean_text_shape].
  - unfold direct_query_with_client in E. destruct (query_action _ _ _ _) as [raw|e0].
    + apply fmap_Some in E as (t & Et & ->). eapply capped_is_enveloped; [|exact Et]. apply Nat.leb_le. reflexivity.
    + apply fmap_Some in E as (e & Ee & ->). by eapply error_is_enveloped.
Qed.

Lemma steps_at nfc o v' :
  (forall s, str_all plain_char s = true -> nfc s = s) ->
  sanitise_result_json nfc (plan_output_value o) = Some (Ok v') ->
  exists steps', jget "steps" v' = Some (JArr steps')
    /\ forall i step, po_steps o !! i = Some step ->
        exists st', sanitise_result_json nfc (step_value step) = Some (Ok st') /\ steps' !! i = Some st'.
Proof.
  intros Hnfc E.
  assert (Hnd : NoDup (map fst [("intent", JStr (po_intent o)); ("summary", JStr (po_summary o));
             ("explanation", JStr (po_explanation o)); ("steps", JArr (map step_value (po_steps o)))]))
    by (apply (bool_decide_unpack _); exact I).
  destruct (object_at nfc _ v' "steps" (JArr (map step_value (po_steps o))) E Hnd eq_refl) as [_ Hs].
  destruct (Hs eq_refl) as (w & Hw & Hg).
  { apply plain_passes; [done..|]. apply Nat.leb_le. reflexivity. }
  cbn [sanitise_result_json] in Hw. apply and_then_ok in Hw as (steps' & Hi & Hw). injection Hw as <-.
  exists steps'. split; [done|]. intros i step Hst.
  assert (Hm : map step_value (po_steps o) !! i = Some (step_value step)) by (by rewrite list_lookup_fmap, Hst).
  exact (items_at _ _ _ i _ Hi Hm).
Qed.

(** C24: the approved request survives the boundary. The assistant that takes the
    steps of a screened plan and hands them to the execution tool submits, for each
    step, the action, the parameters and the transaction the daemon previewed, byte
    for byte, so the request hash the approval was given for is the one the daemon
    computes again. *)
Theorem approved_request_survives `{DispatcherEnv} `{Crypto} nfc o v' i step receipt :
  (forall s, str_all plain_char s = true -> nfc s = s) ->
  sanitise_result_json nfc (plan_output_value o) = Some (Ok v') ->
  po_steps o !! i = Some step ->
  str_all plain_char (so_action_name step) = true ->
  String.length (so_action_name step) <= MCP_MAX_OUTPUT_BYTES ->
  exists steps' t, jget "steps" v' = Some (JArr steps') /\ steps' !! i ≫= resubmit receipt = Some t
    /\ te_transaction_id t = so_transaction_id step /\ te_approval_receipt t = receipt
    /\ te_action_name t = so_action_name step /\ te_params t = so_params step
    /\ forall key, compute_request_hash key (te_action_name t) (te_params t)
                   = compute_request_hash key (so_action_name step) (so_params step).
Proof.
  intros Hnfc E Hst Hp Hl. destruct (steps_at nfc o v' Hnfc E) as (steps' & Hg & Hat).
  destruct (Hat i step Hst) as (st' & Es & Hi).
  assert (Hnd : NoDup (map fst match step_value step with JObj m => m | _ => [] end))
    by (apply (bool_decide_unpack _); exact I).
  assert (jget "params" st' = Some (so_params step)) as Hpar
    by (by apply (object_at nfc _ st' "params" (so_params step) Es Hnd)).
  assert (jget "transaction_id" st' = Some (JStr (so_transaction_id step))) as Hid
    by (by apply (object_at nfc _ st' "transaction_id" (JStr (so_transaction_id step)) Es Hnd)).
  destruct (object_at nfc _ st' "action_name" (JStr (so_action_name step)) Es Hnd eq_refl) as [_ Ha].
  destruct (Ha eq_refl) as (w & Hw & Hn).
  { apply plain_passes; [done..|]. apply Nat.leb_le. reflexivity. }
  cbn [sanitise_result_json] in Hw. rewrite (plain_passes nfc Hnfc _ Hp Hl) in Hw.
  cbn [mbind option_bind] in Hw. injection Hw as <-.
  exists steps', (mkStepToExecute (so_transaction_id step) (so_action_name step) (so_params step) receipt).
  split_and!; try done. rewrite Hi. cbn [mbind option_bind]. unfold resubmit. rewrite Hid. cbn [mbind option_bind as_str].
  rewrite Hn. cbn [mbind option_bind as_str]. by rewrite Hpar.
Qed.

(** *** The tools without an approval *)

Lemma direct_names_nodup : NoDup (map (fun s => direct_action_tool_name (action_name s)) all_specs).
Proof. apply (bool_decide_unpack _). vm_compute. exact I. Qed.

Lemma low_is_classified :
  forallb (fun s => negb (is_low (spec_risk_level s))
                    || (str_in (action_name s) MCP_READ_ONLY_ACTIONS
                        && negb (str_in (action_name s) OBSERVER_MUTATING_ACTIONS))
                    || (str_in (action_name s) OBSERVER_MUTATING_ACTIONS
                        && negb (str_in (action_name s) MCP_READ_ONLY_ACTIONS))) all_specs = true.
Proof. vm_compute. reflexivity. Qed.

Lemma not_fixed_tool :
  forallb (fun s => negb (str_in (direct_action_tool_name (action_name s)) FIXED_TOOLS)) all_specs = true.
Proof. vm_compute. reflexivity. Qed.

Lemma direct_tools_spec distro tool action :
  (tool, action) ∈ direct_read_only_tool_router distro <->
  exists s, s ∈ all_specs /\ direct_spec distro s = true
    /\ tool = direct_action_tool_name (action_name s) /\ action = action_name s.
Proof.
  unfold direct_read_only_tool_router. rewrite list_elem_of_fmap.
  setoid_rewrite list_elem_of_In. setoid_rewrite filter_In. split.
  - intros (s & E & Hin & Hd). injection E as -> ->. by exists s.
  - intros (s & Hin & Hd & -> & ->). by exists s.
Qed.

Lemma catalogue_meta_spec (l : list ActionSpec) (m0 : gmap string SpecMeta) a meta :
  fold_left (fun m s => <[action_name s := meta_of s]> m) l m0 !! a = Some meta ->
  m0 !! a = Some meta \/ exists s, s ∈ l /\ action_name s = a /\ meta_of s = meta.
Proof.
  revert m0. induction l as [|s l IH]; intros m0 E; [by left|]. cbn [fold_left] in E.
  apply IH in E as [E|(t & Ht & ? & ?)]; [|right; exists t; split; [by right|done]].
  destruct (decide (action_name s = a)) as [<-|Hne].
  - rewrite lookup_insert_eq in E. injection E as E. right. exists s. split; [by left|done].
  - rewrite lookup_insert_ne in E by done. by left.
Qed.

Lemma specs_have_meta :
  forallb (fun s => match SPEC_META !! action_name s with
                    | Some m => bool_decide (risk_level m = spec_risk_level s)
                    | None => false
                    end) all_specs = true.
Proof. vm_compute. reflexivity. Qed.

Lemma job_history_has_no_spec : SPEC_META !! "ListJobHistory" = None.
Proof. vm_compute. reflexivity. Qed.

Lemma low_spec_role s :
  s ∈ all_specs ->
  (is_low (spec_risk_level s) = true <-> baseline_role (action_name s) = Some Observer)
  /\ action_name s <> "ListJobHistory".
Proof.
  intros Hin. pose proof specs_have_meta as HM. rewrite forallb_forall in HM.
  apply list_elem_of_In in Hin. specialize (HM s Hin).
  destruct (SPEC_META !! action_name s) as [m|] eqn:Em; [|done]. apply bool_decide_eq_true in HM.
  assert (Hn : action_name s <> "ListJobHistory").
  { intros E. rewrite E in Em. pose proof job_history_has_no_spec. congruence. }
  split; [|done]. unfold baseline_role, role_exception, is_low.
  apply String.eqb_neq in Hn. rewrite Hn. change (spec_meta (action_name s)) with (SPEC_META !! action_name s).
  rewrite Em. cbn. rewrite HM, bool_decide_eq_true. clear. destruct (spec_risk_level s); cbn; split; congruence.
Qed.

(** The tools an agent may call without an approval are exactly the queries the
    daemon answers for anyone. On a host the daemon supports, an action is offered
    as a direct tool if and only if the catalogue leaves it to every caller, it is
    not one of the mutations that look like a query, and the daemon's platform
    fence lets it through; no two tools share a name. *)
Theorem direct_tools_are_the_queries state d a :
  ds_host_distro state = Some d -> is_supported d = true ->
  ((exists tool, (tool, a) ∈ direct_read_only_tool_router (Some d))
   <-> a <> "ListJobHistory" /\ baseline_role a = Some Observer
       /\ str_in a OBSERVER_MUTATING_ACTIONS = false
       /\ is_ok (validate_action_platform state a) = true)
  /\ NoDup (for_distro (Some d)).
Proof.
  intros Hd Hs. pose proof low_is_classified as HL. rewrite forallb_forall in HL.
  setoid_rewrite <-list_elem_of_In in HL. split.
  - setoid_rewrite direct_tools_spec. rewrite <-(routing_agrees state d a Hd Hs).
    unfold direct_spec. split.
    + intros (tool & s & Hin & Hsp & _ & ->). bools. destruct (low_spec_role s Hin) as [Hr Hn].
      split_and!; [done|by apply Hr|done|done].
    + intros (Hn & Hr & Hm & Hp). pose proof Hr as Hr'. unfold baseline_role, role_exception in Hr.
      apply String.eqb_neq in Hn. rewrite Hn in Hr.
      destruct (spec_meta a) as [m|] eqn:Em; [|done].
      change (spec_meta a) with (SPEC_META !! a) in Em.
      apply catalogue_meta_spec in Em as [Em|(s & Hin & <- & _)]; [by rewrite lookup_empty in Em|].
      exists (direct_action_tool_name (action_name s)), s.
      destruct (low_spec_role s Hin) as [Hlow _]. apply Hlow in Hr'.
      specialize (HL s Hin). rewrite Hr', Hm in HL. cbn [negb orb andb] in HL. rewrite !andb_true_r, orb_false_r in HL.
      unfold action_is_available_on_distro. by rewrite Hr', HL, Hm, Hp.
  - unfold for_distro. apply NoDup_app. split_and!.
    + apply (bool_decide_unpack _). vm_compute. exact I.
    + intros t Ht Hin. unfold direct_read_only_tool_router in Hin. rewrite map_map in Hin.
      apply list_elem_of_fmap in Hin as (s & -> & Hin). apply list_elem_of_In, filter_In in Hin as [Hin _].
      pose proof not_fixed_tool as HF. rewrite forallb_forall in HF. specialize (HF s Hin).
      apply negb_true_iff in HF. apply str_in_spec in Ht. cbn [fst] in Ht. congruence.
    + unfold direct_read_only_tool_router. rewrite map_map. cbn [fst].
      pose proof direct_names_nodup as HN.
      revert HN. generalize all_specs. intros l. clear. induction l as [|s l IH]; intros HN; [done|]. cbn [map] in HN. apply NoDup_cons in HN as [Hn HN].
      cbn [List.filter]. destruct (direct_spec _ s); [|by apply IH]. cbn [map]. constructor; [|by apply IH].
      intros (t & E & Hin)%list_elem_of_fmap. apply list_elem_of_In, filter_In in Hin as [Hin _].
      apply Hn, list_elem_of_fmap. exists t. split; [done|]. by apply list_elem_of_In.
Qed.

(** *** Executing a plan *)

Section Executing.
Context `{ClientEnv}.

Lemma truncate_output_length lines : length (truncate_output lines) <= OUTPUT_LINE_LIMIT + 1.
Proof.
  unfold truncate_output. destruct (Nat.ltb_spec OUTPUT_LINE_LIMIT (length lines)).
  - rewrite length_app, length_take. cbn [length]. lia.
  - lia.
Qed.

(** A step goes on to the next exactly when the daemon's final frame said so. *)
Lemma execute_step_spec target link step :
  let '(result, go_on) := execute_step target link step in
  (go_on = true <-> sr_status result = "succeeded")
  /\ (go_on = true <->
      exists envelope, (execute_with_outcome target link (te_transaction_id step) (te_action_name step)
                          (te_params step) (te_approval_receipt step)).2 = Ok envelope
                       /\ res_status envelope = Succeeded)
  /\ sr_action_name result = te_action_name step /\ length (sr_output result) <= OUTPUT_LINE_LIMIT + 1.
Proof.
  unfold execute_step. destruct (execute_with_outcome _ _ _ _ _ _) as [lines [envelope|f]].
  - cbn. rewrite bool_decide_eq_true. split_and!; try done.
    + destruct (res_status envelope); cbn; split; congruence.
    + split; [by exists envelope|]. intros (x & [= ->] & ?). done.
    + apply truncate_output_length.
  - destruct (ef_outcome_unknown f); cbn; split_and!; try naive_solver; apply truncate_output_length.
Qed.

Lemma execute_steps_at target links k steps i r :
  execute_steps target links k steps !! i = Some r ->
  exists step, steps !! i = Some step /\ r = (execute_step target (links (k + i)) step).1
    /\ forall j, j < i -> exists rj, execute_steps target links k steps !! j = Some rj
                                    /\ sr_status rj = "succeeded".
Proof.
  revert k i. induction steps as [|s steps IH]; intros k i Hi; [done|]. cbn [execute_steps] in *.
  pose proof (execute_step_spec target (links k) s) as HS.
  destruct (execute_step target (links k) s) as [res go] eqn:E. destruct HS as (Hg & _).
  destruct i as [|i].
  { injection Hi as <-. exists s. rewrite Nat.add_0_r, E. split_and!; [done..|]. lia. }
  cbn [lookup list_lookup] in Hi. destruct go; [|done].
  destruct (IH (S k) i Hi) as (step & Hst & Hr & Hj). exists step. split; [done|].
  split; [by rewrite <-Nat.add_succ_comm|]. intros [|j] Hlt; [exists res; split; [done|by apply Hg]|].
  apply Hj. lia.
Qed.

Lemma execute_steps_stop target links k steps i step :
  steps !! i = Some step -> execute_steps target links k steps !! i = None ->
  exists j r, j < i /\ execute_steps target links k steps !! j = Some r /\ sr_status r <> "succeeded".
Proof.
  revert k i. induction steps as [|s steps IH]; intros k i Hi Hn; [done|]. cbn [execute_steps] in *.
  pose proof (execute_step_spec target (links k) s) as HS.
  destruct (execute_step target (links k) s) as [res go] eqn:E. destruct HS as (Hg & _).
  destruct i as [|i]; [done|]. cbn [lookup list_lookup] in Hi, Hn. destruct go.
  - destruct (IH (S k) i Hi Hn) as (j & r & Hlt & Hr & Hs). exists (S j), r. split_and!; [lia|done|done].
  - exists 0, res. split_and!; [lia|done|]. intros Hs. apply Hg in Hs. done.
Qed.
End Executing.

(** An assistant's plan runs in order and stops. The results are those of the
    first steps of the plan, each of the step at its place; every step before an
    attempted one ended, by the daemon's own final frame, as succeeded; a step that
    was not attempted comes after one that did not succeed; and no result carries
    more than 501 lines. *)
Theorem assistant_plan_stops_at_failure `{ClientEnv} target links steps :
  let results := (execute_steps_with_client target links steps).1 in
  (forall i r, results !! i = Some r ->
     exists step, steps !! i = Some step /\ sr_action_name r = te_action_name step
       /\ length (sr_output r) <= 501
       /\ (sr_status r = "succeeded" <->
           exists envelope, (execute_with_outcome target (links i) (te_transaction_id step)
                               (te_action_name step) (te_params step) (te_approval_receipt step)).2 = Ok envelope
                            /\ res_status envelope = Succeeded)
       /\ forall j, j < i -> exists rj, results !! j = Some rj /\ sr_status rj = "succeeded")
  /\ (forall i step, steps !! i = Some step -> results !! i = None ->
       exists j r, j < i /\ results !! j = Some r /\ sr_status r <> "succeeded").
Proof.
  cbn zeta. cbn [execute_steps_with_client fst]. split.
  - intros i r Hi. destruct (execute_steps_at _ _ _ _ _ _ Hi) as (step & Hst & -> & Hj).
    exists step. cbn [Nat.add]. pose proof (execute_step_spec target (links i) step) as HS.
    destruct (execute_step target (links i) step) as [res go]. cbn [fst].
    destruct HS as (H1 & H2 & H3 & H4). split_and!; try done. by rewrite <-H1.
  - intros i step Hi Hn. by eapply execute_steps_stop.
Qed.

(** ** Samples *)

Module McpSample.
#[export] Instance client : ClientEnv := {|
  to_vec := fun _ => Ok [];
  from_slice := fun b => if decide (b = ["k"%char]) then Ok (JObj [("type", JStr "job_completed"); ("result", JNull)])
                         else Err "not JSON";
  preview_from_value := fun _ => Err "none";
  result_from_value := fun _ => Ok (mkResultEnvelope Succeeded "done" [] None false None "t1");
  history_from_value := fun _ => Err "none";
  distro_from_value := fun _ => None;
  debug_value := fun _ => "";
  display_value := fun _ => "";
  Client.strip_ansi := fun s => s |}.

(** A connection on which the daemon's last frame arrives, and one that breaks. *)
Definition good : Link :=
  mkLink (Some (Ok tt)) (Err "no vsock") (Ok tt) None None (Some (Ok tt)) [mkReply 0 (Ok ["k"%char])].
Definition broken : Link :=
  mkLink (Some (Ok tt)) (Err "no vsock") (Ok tt) None None (Some (Ok tt)) [mkReply 0 (Err "reset")].
Definition links (i : nat) : Link := if i =? 0 then good else broken.
Definition step (id : string) : StepToExecute := mkStepToExecute id "AptInstall" (JObj []) "r".

(** Text that would close the envelope, under a visible and under a verbatim key. *)
Definition reply : list (string * json) :=
  [("summary", JStr hostile); ("steps", JArr [JObj [("params", JStr hostile)]])].
Definition received : json :=
  match sanitise_result_json (fun s => s) (JObj reply) with Some (Ok v) => v | _ => JNull end.

Definition plan_step : PlanStepOutput :=
  mkStepOutput "AptInstall" hostile "high" (JObj [("package", JStr hostile)]) "apt-get" "tx-1" [hostile]
    (JStr hostile) JNull [] false false.
Definition plan : PlanOutput := mkPlanOutput "install it" "one step" hostile [plan_step].
Definition shown : json :=
  match sanitise_result_json (fun s => s) (plan_output_value plan) with Some (Ok v) => v | _ => JNull end.
End McpSample.

#[local] Existing Instance McpSample.client.
#[local] Instance str_debug : StrDebug := fun s => s.

Lemma reply_is_screened_witness :
  screened (fun s => s) McpSample.received /\ crossed (fun s => s) (JObj McpSample.reply) McpSample.received
  /\ jget "steps" McpSample.received = Some (JArr [JObj [("params", JStr hostile)]]).
Proof.
  destruct (proj1 (reply_is_screened (fun s => s) (Ok (JObj McpSample.reply)) (fun _ => "") (Unix "/run/s") McpSample.good "GetDiskUsage"
              (JObj [])) (Ok McpSample.received)) as ((v & Hv & Hc) & Hs & _); [vm_compute; reflexivity|].
  injection Hv as <-. split; [exact Hs|]. split; [exact Hc|]. vm_compute. reflexivity.
Defined.

Lemma approved_request_survives_witness :
  exists steps' t, jget "steps" McpSample.shown = Some (JArr steps')
    /\ steps' !! 0 ≫= resubmit "receipt" = Some t /\ te_transaction_id t = "tx-1".
Proof.
  destruct (@approved_request_survives DaemonSample.env Toy.crypto (fun s => s) McpSample.plan McpSample.shown 0
      McpSample.plan_step "receipt") as (steps' & t & Hg & Ht & Hid & _).
  - reflexivity.
  - vm_compute. reflexivity.
  - reflexivity.
  - reflexivity.
  - apply Nat.leb_le. reflexivity.
  - exists steps', t. split; [exact Hg|]. split; [exact Ht|exact Hid].
Defined.

Lemma direct_tools_are_the_queries_witness :
  (exists tool, (tool, "GetDiskUsage") ∈ direct_read_only_tool_router (Some (Ubuntu 24 4)))
  /\ ~ (exists tool, (tool, "AptUpdate") ∈ direct_read_only_tool_router (Some (Ubuntu 24 4))).
Proof.
  split.
  - apply (proj1 (direct_tools_are_the_queries DaemonSample.state (Ubuntu 24 4) "GetDiskUsage" eq_refl eq_refl)).
    vm_compute. repeat split; discriminate.
  - intros Ht. apply (proj1 (direct_tools_are_the_queries DaemonSample.state (Ubuntu 24 4) "AptUpdate" eq_refl eq_refl)) in Ht.
    destruct Ht as (_ & _ & Hm & _). vm_compute in Hm. discriminate.
Defined.

Lemma assistant_plan_stops_at_failure_witness :
  exists j r, j < 2
    /\ (execute_steps_with_client (Unix "/run/s") McpSample.links (map McpSample.step ["t1"; "t2"; "t3"])).1 !! j
       = Some r /\ sr_status r <> "succeeded".
Proof.
  apply (proj2 (assistant_plan_stops_at_failure (Unix "/run/s") McpSample.links
    (map McpSample.step ["t1"; "t2"; "t3"])) 2 (McpSample.step "t3")); vm_compute; reflexivity.
Defined.

Example assistant_plan_results :
  map sr_status (execute_steps_with_client (Unix "/run/s") McpSample.links
    (map McpSample.step ["t1"; "t2"; "t3"])).1 = ["succeeded"; "unknown"].
Proof. vm_compute. reflexivity. Qed.

Example tool_names :
  direct_action_tool_name "GetDiskUsage" = "sysknife_get_disk_usage"
  /\ str_in "sysknife_apt_update" (for_distro (Some (Ubuntu 24 4))) = false.
Proof. vm_compute. done. Qed.

(** A verbatim key is put in without the test for a collision: an entry whose key
    normalises to it is dropped without a word, where the code says it refuses. *)
Lemma verbatim_key_overwrites :
  sanitise_result_json (fun s => s)
    (JObj [((String ESC "[0mparams")%string, JStr "what was changed"); ("params", JStr "nothing")])
  = Some (Ok (JObj [("params", JStr "nothing")])).
Proof. vm_compute. reflexivity. Qed.

(** An escape before a character that is not ASCII, in a preview's state: the tool
    dies in the screen. *)
Lemma hostile_preview_panics_tool nfc k :
  str_in k VERBATIM_KEYS = false -> sanitise_result_json nfc (JObj [(k, JStr (String ESC "€"))]) = None.
Proof.
  intros Hk. cbn [sanitise_result_json sanitise_entries]. rewrite Hk.
  unfold screen_text, normalise_free_text_capped, normalise_unbounded_text.
  assert (E : Sanitize.strip_ansi (String ESC "€") = None) by (vm_compute; reflexivity).
  by rewrite E.
Qed.

(** The history an agent reads names two states unlike every other surface, and
    unlike its own status filter. *)
Lemma history_status_differs row :
  he_status (history_entry_from_row row) = job_state_str (jh_status row)
  <-> jh_status row <> RolledBack /\ jh_status row <> NeedsReboot.
Proof. destruct row as [? ? ? s ? ?]. destruct s; vm_compute; split; (split || idtac); congruence || (intros [? ?]; congruence). Qed.
