(* ===== verification/Shell.v ===== *)
(** * The desktop shell

    apps/sysknife-shell/src-tauri/src: the commands behind the graphical client
    (commands.rs), its connection to the daemon (daemon_client.rs) and the poller of the
    daemon's health (main.rs). A connection is an argument ([ShellLink]); what is written
    to it and what the user is shown on the way is a list of events, in order. The
    planner is the other files' subject; its error texts are an argument. *)

From Stdlib Require Import Ascii String NArith Lia.
From stdpp Require Import base list gmap strings.
From S2P Require Import Prelude Json Types Distro Store Config Effects Dispatcher Approval OperatorText Sanitize PlanTools Wire Client Collector.

(** ** The connection *)

Definition MAX_RESPONSE_BYTES : N := 4 * 1024 * 1024.
Definition EXECUTE_STEP_TIMEOUT_SECS : N := 600.

(** A connection as it will go. [sl_connect]: [None] is an attempt still pending at its
    deadline; [sl_write]: the answer to each write; the end of [sl_reads] is a daemon that
    stays silent. *)
Record ShellLink : Type := mkShellLink {
  sl_connect : option (result string ());
  sl_timeouts : result string ();
  sl_write : nat -> result string ();
  sl_reads : list Reply }.

Inductive ShellEvent : Type :=
| Sent (request : json)
| Timeline (line : string).

Section Shell.
Context `{ClientEnv}.

(** [String::from] of the JSON strings of an array; anything else is dropped. *)
Definition shell_string_array (v : json) : list string :=
  match as_array v with Some a => omap as_str a | None => [] end.

(** One request and its reply on a blocking connection; a read past the timeout fails. *)
Definition blocking_exchange (cannot_connect sending reading parsing : string) (link : ShellLink)
    : result string json :=
  match sl_connect link with
  | None => Err (cannot_connect ++ WOULD_BLOCK)%string
  | Some (Err e) => Err (cannot_connect ++ e)%string
  | Some (Ok _) =>
      match sl_write link 0 with
      | Err e => Err (sending ++ e)%string
      | Ok _ =>
          match sl_reads link with
          | [] => Err (reading ++ WOULD_BLOCK)%string
          | r :: _ =>
              match rp_answer r with
              | Err e => Err (reading ++ e)%string
              | Ok msg => match from_slice msg with Err e => Err (parsing ++ e)%string | Ok resp => Ok resp end
              end
          end
      end
  end.

Definition other_kind (resp : json) : string := default "<missing>" (kind resp).

Definition query_state_inner (socket_path : string) (link : ShellLink) : result string CuratedState :=
  match sl_connect link with
  | Some (Ok _) =>
      match sl_timeouts link with
      | Err e => Err ("failed to set read timeout: " ++ e)%string
      | Ok _ =>
          resp ← blocking_exchange "" "failed to send query_state: " "failed to read daemon response: "
                   "invalid JSON from daemon: " link;
          match kind resp with
          | Some "state_response" =>
              match jget "state" resp with
              | None => Err "state_response missing 'state' object"
              | Some s =>
                  match jget "host_name" s ≫= as_str with
                  | None => Err "state.host_name missing or not a string"
                  | Some host_name =>
                      match curated_new host_name (default "" (jget "deployment" s ≫= as_str))
                              (shell_string_array (jidx "services" s)) (shell_string_array (jidx "flatpaks" s))
                              (shell_string_array (jidx "toolboxes" s)) (shell_string_array (jidx "layered_packages" s))
                              (shell_string_array (jidx "containers" s)) (shell_string_array (jidx "users" s)) with
                      | Err e => Err ("invalid state from daemon: " ++ e)%string
                      | Ok state => Ok state
                      end
                  end
              end
          | Some "error_response" =>
              Err ("daemon error (" ++ str_or "unknown" (jidx "category" resp) ++ "): "
                   ++ str_or "no message" (jidx "message" resp))%string
          | _ => Err ("unexpected response type from daemon: " ++ other_kind resp)%string
          end
      end
  | Some (Err e) => Err ("cannot connect to daemon at " ++ socket_path ++ ": " ++ e)%string
  | None => Err ("cannot connect to daemon at " ++ socket_path ++ ": " ++ WOULD_BLOCK)%string
  end.

Definition query_action_inner (link : ShellLink) : result string string :=
  resp ← blocking_exchange "daemon connect: " "send: " "read: " "parse: " link;
  match kind resp with
  | Some "query_action_response" => Ok (str_or "" (jidx "output" resp))
  | Some "error_response" => Err ("daemon error: " ++ str_or "unknown" (jidx "message" resp))%string
  | _ => Err ("unexpected: " ++ other_kind resp)%string
  end.

(** ** One step: preview, approve, execute *)

Definition preview_req (action_name : string) (params : json) : json :=
  JObj [("type", JStr "preview"); ("request_id", JStr "shell-preview");
        ("action_name", JStr action_name); ("params", params)].
Definition approve_req (transaction_id : string) : json :=
  JObj [("type", JStr "approve"); ("request_id", JStr "shell-approve"); ("transaction_id", JStr transaction_id)].
Definition execute_req (transaction_id action_name : string) (params : json) (approval_receipt : string) : json :=
  JObj [("type", JStr "execute"); ("request_id", JStr "shell-execute");
        ("transaction_id", JStr transaction_id); ("action_name", JStr action_name); ("params", params);
        ("approval_receipt", JStr approval_receipt)].

(** The next frame, within [secs]. *)
Definition next_json (secs : N) (timed_out failed invalid : string) (reads : list Reply) : result string json :=
  match read_within secs reads with
  | None => Err timed_out
  | Some (Err e) => Err (failed ++ e)%string
  | Some (Ok raw) => match from_slice raw with Err e => Err (invalid ++ e)%string | Ok v => Ok v end
  end.

(** The error of a reply that is not the one asked for. *)
Definition rejected (what during : string) (resp : json) : string :=
  match kind resp with
  | Some "error_response" =>
      (what ++ " (" ++ str_or "unknown" (jidx "category" resp) ++ "): "
       ++ str_or "no message" (jidx "message" resp))%string
  | _ => ("unexpected response type " ++ during ++ ": " ++ other_kind resp)%string
  end.

Definition transaction_of (action_name : string) (resp : json) : result string string :=
  match kind resp with
  | Some "preview_response" =>
      ok_or "preview_response missing transaction_id field" (as_str (jidx "transaction_id" resp))
  | _ => Err (rejected ("daemon rejected preview for '" ++ action_name ++ "'")%string "to preview" resp)
  end.

Definition receipt_of (resp : json) : result string string :=
  match kind resp with
  | Some "approval_response" => ok_or "approval_response missing receipt" (as_str (jidx "approval_receipt" resp))
  | _ => Err (rejected "daemon rejected approval" "to approval" resp)
  end.

Definition non_empty_str (v : json) : option string :=
  s ← as_str v; if is_empty s then None else Some s.

(** The frames of the execution. *)
Fixpoint stream_execute (action_name : string) (reads : list Reply) (lines : list string)
    : list ShellEvent * result string (string * list string) :=
  match next_json EXECUTE_STEP_TIMEOUT_SECS
          ("daemon execute timed out after " ++ dec_of_N EXECUTE_STEP_TIMEOUT_SECS
           ++ "s; the job may still be running on the daemon side")%string
          "failed to read execute response: " "invalid JSON in execute response: " reads, reads with
  | Err e, _ => ([], Err e)
  | Ok _, [] => ([], Err "")
  | Ok msg, _ :: reads' =>
      if is_kind "job_started" msg then
        let '(evs, r) := stream_execute action_name reads' lines in
        (Timeline ("Executing " ++ action_name ++ "…")%string :: evs, r)
      else if is_kind "job_progress" msg then
        match non_empty_str (jidx "line" msg) with
        | Some line => let '(evs, r) := stream_execute action_name reads' (lines ++ [line]) in (Timeline line :: evs, r)
        | None => stream_execute action_name reads' lines
        end
      else if is_kind "job_completed" msg then
        let status := str_or "failed" (jidx "status" (jidx "result" msg)) in
        match non_empty_str (jidx "summary" (jidx "result" msg)) with
        | Some summary => ([Timeline summary], Ok (status, lines ++ [summary]))
        | None => ([], Ok (status, lines))
        end
      else ([], Err (rejected "daemon error during execute" "during execute" msg))
  end.

Definition sending (link : ShellLink) (n : nat) (request : json) (what : string)
    (next : list ShellEvent * result string (string * list string))
    : list ShellEvent * result string (string * list string) :=
  match sl_write link n with
  | Err e => ([], Err ("failed to send " ++ what ++ ": " ++ e)%string)
  | Ok _ => (Sent request :: next.1, next.2)
  end.

Definition execute_action (socket_path : string) (link : ShellLink) (action_name : string) (params : json)
    : list ShellEvent * result string (string * list string) :=
  match sl_connect link with
  | None => ([], Err "connection to daemon timed out")
  | Some (Err e) => ([], Err ("cannot connect to daemon at " ++ socket_path ++ ": " ++ e)%string)
  | Some (Ok _) =>
      sending link 0 (preview_req action_name params) "preview request"
        match (resp ← next_json 30 "timed out waiting for preview response" "failed to read preview response: "
                        "invalid JSON in preview response: " (sl_reads link);
               transaction_of action_name resp) with
        | Err e => ([], Err e)
        | Ok transaction_id =>
            let '(evs, r) :=
              sending link 1 (approve_req transaction_id) "approval request"
                match (resp ← next_json 10 "timed out waiting for approval receipt" "failed to read approval response: "
                                "invalid JSON in approval response: " (tail (sl_reads link));
                       receipt_of resp) with
                | Err e => ([], Err e)
                | Ok approval_receipt =>
                    sending link 2 (execute_req transaction_id action_name params approval_receipt) "execute request"
                      (stream_execute action_name (tail (tail (sl_reads link))) [])
                end in
            (Timeline ("Preview ready for " ++ action_name)%string :: evs, r)
        end
  end.

(** ** The approved plan *)

Record PlanStepRequest : Type := mkStepRequest { psr_action_name : string; psr_params : json }.
Record StepOutput : Type := mkStepOut { so_action_name : string; so_status : string; so_output_lines : list string }.
Inductive DaemonJobOutcome : Type := OSucceeded | ONeedsReboot | OFailed | ORolledBack.

Fixpoint approve_steps (socket_path : string) (links : nat -> ShellLink) (i : nat) (steps : list PlanStepRequest)
    (final_status : string) : list ShellEvent * (string * list StepOutput) :=
  match steps with
  | [] => ([], (final_status, []))
  | step :: steps' =>
      let '(evs, r) := execute_action socket_path (links i) (psr_action_name step) (psr_params step) in
      let '(status, lines) := match r with Ok (status, lines) => (status, lines) | Err e => ("failed", [e]) end in
      let out := mkStepOut (psr_action_name step) status lines in
      if (status =? "succeeded")%string then
        let '(evs', (final, outs)) := approve_steps socket_path links (S i) steps' status in
        (evs ++ evs', (final, out :: outs))
      else (evs, (status, [out]))
  end.

Definition outcome_of (final_status : string) : DaemonJobOutcome :=
  match final_status with
  | "succeeded" => OSucceeded
  | "needs_reboot" => ONeedsReboot
  | "rolled_back" => ORolledBack
  | _ => OFailed
  end.

(** The events, the execution result, and the outcome the frontend is told. *)
Definition approve_preview (socket_path : string) (links : nat -> ShellLink) (steps : list PlanStepRequest)
    : list ShellEvent * (string * list StepOutput) * DaemonJobOutcome :=
  let '(evs, (final_status, outs)) := approve_steps socket_path links 0 steps "succeeded" in
  (evs, (final_status, outs), outcome_of final_status).

End Shell.

(** ** Planning *)

Record PlanStepResponse : Type := mkStepResponse {
  pr_action_name : string; pr_summary : string; pr_risk_level : string; pr_approval_required : bool; pr_params : json }.
Record PlanResponse : Type := mkPlanResponse {
  pl_summary : string; pl_explanation : string; pl_approval_required : bool; pl_steps : list PlanStepResponse;
  pl_host_name : string; pl_deployment : string; pl_toolbox_count : nat; pl_flatpak_count : nat }.
Record ShellError : Type := mkShellError { se_code : string; se_message : string; se_system_changed : bool }.

Definition pre_flight (code message : string) : ShellError := mkShellError code message false.

Definition plan_to_response (plan : Plan) (curated : CuratedState) : PlanResponse := {|
  pl_summary := plan_summary plan; pl_explanation := plan_explanation plan;
  pl_approval_required := existsb (fun s => requires_approval (step_risk_level s)) (plan_steps plan);
  pl_steps := map (fun s => mkStepResponse (step_action_name s) (step_summary s) (plan_risk_str (step_risk_level s))
                              (requires_approval (step_risk_level s)) (step_params s)) (plan_steps plan);
  pl_host_name := cu_host_name curated; pl_deployment := cu_deployment curated;
  pl_toolbox_count := length (cu_toolboxes curated); pl_flatpak_count := length (cu_flatpaks curated) |}.

Definition planning_code (err : PlanningError) : string :=
  match err with
  | EmptyIntent => "intent_empty"
  | IntentTooLong _ _ => "intent_too_long"
  | IntentContainsSensitiveData => "intent_contains_sensitive_data"
  | RateLimitExceeded _ => "rate_limit_exceeded"
  | StateUnavailable _ => "daemon_not_running"
  | ProviderFailed provider_err =>
      match provider_err with
      | ProvRateLimit _ => "llm_rate_limit"
      | Http _ _ | ProvAuth _ => "llm_http_error"
      | ProvParse _ | ProvRequest _ => "llm_parse_error"
      | CassetteMiss _ => "llm_cassette_miss"
      end
  | InvalidPlanOutput _ => "llm_parse_error"
  | PlannerStuck | NoPlanProposed | PlanRefused _ _ => "unknown"
  end.

(** [show]: the error's [Display]. *)
Definition map_planning_error (show : PlanningError -> string) (err : PlanningError) : ShellError :=
  pre_flight (planning_code err) (show err).

Definition execute_plan_intent (show : PlanningError -> string) (intent : string)
    (curated : result PlanningError CuratedState) (planned : result PlanningError Plan)
    : result ShellError PlanResponse :=
  if is_empty intent then Err (pre_flight "intent_empty" "Intent is empty")
  else
    match curated with
    | Err e => Err (pre_flight "unknown" (show e))
    | Ok curated =>
        match planned with
        | Err e => Err (map_planning_error show e)
        | Ok plan => Ok (plan_to_response plan curated)
        end
    end.

Definition cancel_job : result ShellError () :=
  Err (pre_flight "not_implemented"
    ("cancel_job: a running job cannot be canceled (the daemon never interrupts an in-flight privileged action). "
     ++ "Wait for it to complete, or terminate the daemon process to abort it.")).

(** ** Reviewing an execution *)

(** [char::is_control] *)
Definition is_control (c : N) : bool := in_range 0 31 c || in_range 127 159 c.

Definition sanitize_intent_for_prompt (intent : OperatorText.text) (max_len : nat) : OperatorText.text :=
  take max_len (List.filter (fun c => negb (is_control c) && negb (c =? 34)%N) intent).

(** [&s[..n]]: a panic where [n] is inside a character or past the end. *)
Definition str_until (n : nat) (s : string) : option string :=
  if n =? String.length s then Some s
  else match String.get n s with
       | None => None
       | Some c => if is_continuation c then None else Some (str_take n s)
       end.

Definition MAX_LINES : nat := 50.
Definition MAX_LINE_LEN : nat := 500.

Definition review_line (line : string) : option string :=
  truncated ← (if MAX_LINE_LEN <? String.length line then str_until MAX_LINE_LEN line else Some line);
  Some ("  " ++ truncated ++ String LF "")%string.

Definition review_step (step : StepOutput) : option string :=
  lines ← mapM review_line (take MAX_LINES (so_output_lines step));
  Some ("Step: " ++ so_action_name step ++ " (" ++ so_status step ++ ")" ++ String LF ""
        ++ String.concat "" lines
        ++ (if (MAX_LINES <? length (so_output_lines step))%nat
            then "  ... (" ++ dec_of_N (N.of_nat (length (so_output_lines step) - MAX_LINES)%nat) ++ " more lines)" ++ String LF ""
            else "")
        ++ String LF "")%string.

(** What the summary call is given of the execution, and what is shown when it fails. *)
Definition review_output (outcome : string) (outs : list StepOutput) : option string :=
  steps ← mapM review_step outs;
  Some ("Outcome: " ++ outcome ++ String LF (String LF "") ++ String.concat "" steps)%string.

(** The request for a summary; [safe_intent] is what [sanitize_intent_for_prompt] left. *)
Definition summary_intent (safe_intent output_text : string) : string :=
  ("Summarize the following SysKnife execution result in 2-3 plain-language sentences for the user. The user's original task was: "
   ++ safe_intent ++ ". Explain what happened and whether the task was successful. "
   ++ "If there were errors, mention them briefly. Do not propose a plan — just summarize."
   ++ String LF (String LF "") ++ "Execution output:" ++ String LF "" ++ output_text)%string.

(** [review_execution]: [summarize] is the planner's; its failure leaves the raw output. *)
Definition review_execution (summarize : string -> result PlanningError string) (safe_intent outcome : string)
    (outs : list StepOutput) : option string :=
  output_text ← review_output outcome outs;
  Some match summarize (summary_intent safe_intent output_text) with
       | Ok text => text
       | Err _ => output_text
       end.

(** ** The machine and its model server *)

(** The output of a command that ran and succeeded. *)
Definition detect_gpu (nvidia rocm : option string) : option string * option N :=
  match stdout ← nvidia; split_once "," (str_trim stdout) with
  | Some (name, vram_str) => (Some (str_trim name), parse_u64 (str_trim vram_str))
  | None =>
      let vram line :=
        cols ← Some (split_on "," line);
        if 2 <=? length cols then
          col ← cols !! 1;
          bytes ← parse_u64 (str_trim col);
          Some (bytes / (1024 * 1024))%N
        else None in
      match stdout ← rocm; find_map vram (drop 1 (lines stdout)) with
      | Some mb => (Some "AMD GPU", Some mb)
      | None => (None, None)
      end
  end.

Definition detect_ram_mb (meminfo : option string) : option N :=
  contents ← meminfo;
  find_map (fun line =>
    if starts_with "MemTotal:" line then
      kb ← split_whitespace line !! 1;
      kb ← parse_u64 kb;
      Some (kb / 1024)%N
    else None) (lines contents).

Definition ollama_url (env : environ) : string :=
  (match env !! "SYSKNIFE_OLLAMA_URL" with
   | Some u => u
   | None => default "http://localhost:11434" (env !! "OLLAMA_HOST")
   end ++ "/api/tags")%string.

Definition ollama_models (body : json) : list string :=
  match jget "models" body ≫= as_array with
  | Some arr => omap (fun m => jget "name" m ≫= as_str) arr
  | None => []
  end.

Record OllamaStatus : Type := mkOllamaStatus {
  os_reachable : bool; os_models : list string; os_error_message : option string }.

(** [tags]: the body the server answered with, or why there is none. *)
Definition check_ollama_status (tags : result string json) : OllamaStatus :=
  match tags with
  | Ok body => mkOllamaStatus true (ollama_models body) None
  | Err e => mkOllamaStatus false [] (Some e)
  end.

Definition set_non_empty (env : environ) (name : string) : bool :=
  match env !! name with Some v => negb (is_empty v) | None => false end.

(** [provider]: the one of config.toml. *)
Definition provider_is_configured (env : environ) (provider : option string) : bool :=
  if set_non_empty env "ANTHROPIC_API_KEY" then true
  else if set_non_empty env "SYSKNIFE_LLM_PROVIDER" then true
  else match provider with Some p => negb (is_empty p) | None => false end.

Record SetupStatus : Type := mkSetupStatus { ss_config_exists : bool; ss_provider_configured : bool }.
Definition check_setup_status (env : environ) (config_is_file : bool) (provider : option string) : SetupStatus :=
  mkSetupStatus config_is_file (provider_is_configured env provider).

(** ** The health poller *)

Inductive Health : Type := Connected | Reconnecting.

Definition HEALTHY_INTERVAL : N := 5.
Definition MAX_BACKOFF : N := 30.

Record Poller : Type := mkPoller { po_was_connected : bool; po_backoff : N }.
Definition poller_start : Poller := mkPoller false 1.

(** One probe: the status emitted, the seconds slept, and the next state. *)
Definition poll (p : Poller) (connected : bool) : option Health * N * Poller :=
  let '(emitted, was, backoff) :=
    if connected && negb (po_was_connected p) then (Some Connected, true, 1%N)
    else if negb connected && po_was_connected p then (Some Reconnecting, false, po_backoff p)
    else if connected && (po_backoff p =? 1)%N then (Some Connected, true, po_backoff p)
    else (None, po_was_connected p, po_backoff p) in
  if connected then (emitted, HEALTHY_INTERVAL, mkPoller was backoff)
  else (emitted, backoff, mkPoller was (N.min (backoff * 2) MAX_BACKOFF)).

Fixpoint poll_all (p : Poller) (probes : list bool) : list (option Health * N) :=
  match probes with
  | [] => []
  | c :: probes' => let '(e, s, p') := poll p c in (e, s) :: poll_all p' probes'
  end.

(** [resolve_socket_path]: [uri] is the default listen URI. *)
Definition resolve_socket_path (uri : string) : string := default uri (strip_prefix "unix://" uri).

(** ** One step *)

Definition sent (evs : list ShellEvent) : list json :=
  omap (fun e => match e with Sent v => Some v | Timeline _ => None end) evs.

Section Steps.
Context `{ClientEnv}.

Lemma stream_sends_nothing action reads lines : sent (stream_execute action reads lines).1 = [].
Proof.
  revert lines. induction reads as [|r reads IH]; intros lines; [done|]. cbn [stream_execute].
  destruct (next_json _ _ _ _ _) as [msg|]; [|done].
  destruct (is_kind "job_started" msg).
  { specialize (IH lines). by destruct (stream_execute _ _ _). }
  destruct (is_kind "job_progress" msg).
  { destruct (non_empty_str _) as [line|]; [|apply IH]. specialize (IH (lines ++ [line])). by destruct (stream_execute _ _ _). }
  destruct (is_kind "job_completed" msg); [|done]. by destruct (non_empty_str _).
Qed.

Lemma sent_timeline l evs : sent (Timeline l :: evs) = sent evs.
Proof. done. Qed.

Lemma sending_sent link n request what next :
  sent (sending link n request what next).1
  = match sl_write link n with Ok _ => request :: sent next.1 | Err _ => [] end.
Proof. unfold sending. by destruct (sl_write link n). Qed.

(** The JSON value of the next frame, if it comes in time. *)
Definition reply_json (secs : N) (reads : list Reply) : option json :=
  match read_within secs reads with
  | Some (Ok raw) => match from_slice raw with Ok v => Some v | Err _ => None end
  | _ => None
  end.

(** Whatever the daemon answers, a step sends at most its preview, the approval of the
    transaction that preview answered with, and the execution of that transaction with
    the step's own parameters and the receipt the approval answered with; each only when
    the one before was answered. *)
Theorem shell_runs_what_it_previewed path link action params :
  exists id receipt,
    sent (execute_action path link action params).1
      `prefix_of` [preview_req action params; approve_req id; execute_req id action params receipt]
    /\ (2 <= length (sent (execute_action path link action params).1) ->
        exists resp, transaction_of action resp = Ok id
          /\ reply_json 30 (sl_reads link) = Some resp)
    /\ (length (sent (execute_action path link action params).1) = 3 ->
        exists resp, receipt_of resp = Ok receipt
          /\ reply_json 10 (tail (sl_reads link)) = Some resp).
Proof.
  assert (Hnext : forall secs a b c reads v, next_json secs a b c reads = Ok v ->
    reply_json secs reads = Some v).
  { intros secs a b c reads v. unfold next_json, reply_json. destruct (read_within secs reads) as [[raw|]|]; [|done..].
    by destruct (from_slice raw); intros; simplify_eq. }
  unfold execute_action.
  destruct (sl_connect link) as [[[]|e]|]; [|exists "", ""; split_and!; [apply prefix_nil|cbn; lia..]..].
  rewrite sending_sent. destruct (sl_write link 0); [|exists "", ""; split_and!; [apply prefix_nil|cbn; lia..]].
  match goal with |- context [mbind ?f ?m] => destruct m as [resp|e] eqn:E1 end; cbn [mbind result_bind];
    [|exists "", ""; split_and!; [eexists; reflexivity|cbn; lia..]].
  destruct (transaction_of action resp) as [id|e] eqn:E2;
    [|exists "", ""; split_and!; [eexists; reflexivity|cbn; lia..]].
  match goal with |- context [sending link 1 ?a ?b ?c] => pose proof (sending_sent link 1 a b c) as Es;
    destruct (sending link 1 a b c) as [evs r] end.
  cbn [fst snd] in *. rewrite sent_timeline, Es. clear Es.
  destruct (sl_write link 1); [|exists id, ""; split_and!; [eexists; reflexivity|cbn; lia..]].
  match goal with |- context [mbind ?f ?m] => destruct m as [resp2|e] eqn:E3 end; cbn [mbind result_bind];
    [|exists id, ""; split_and!; [eexists; reflexivity|eauto|cbn; lia]].
  destruct (receipt_of resp2) as [receipt|e] eqn:E4;
    [|exists id, ""; split_and!; [eexists; reflexivity|eauto|cbn; lia]].
  exists id, receipt. rewrite sending_sent, stream_sends_nothing.
  destruct (sl_write link 2); split_and!; eauto; try (eexists; reflexivity); cbn; try lia.
Qed.

(** A plan's steps run in order, and nothing runs after one that did not succeed. *)
Theorem shell_stops_at_failure path links steps :
  let '(_, (final, outs), outcome) := approve_preview path links steps in
  map so_action_name outs = take (length outs) (map psr_action_name steps)
  /\ (forall i o, outs !! i = Some o -> S i < length outs -> so_status o = "succeeded")
  /\ (outcome = OSucceeded <-> length outs = length steps /\ Forall (fun o => so_status o = "succeeded") outs).
Proof.
  unfold approve_preview.
  assert (G : forall i, let '(_, (final, outs)) := approve_steps path links i steps "succeeded" in
    map so_action_name outs = take (length outs) (map psr_action_name steps)
    /\ (forall i o, outs !! i = Some o -> S i < length outs -> so_status o = "succeeded")
    /\ (final = "succeeded" <-> length outs = length steps /\ Forall (fun o => so_status o = "succeeded") outs)).
  { induction steps as [|step steps IH]; intros i; [by split_and!; intros; try done; cbn in *; lia|].
    cbn [approve_steps]. destruct (execute_action _ _ _ _) as [evs r].
    destruct (match r with Ok _ => _ | Err _ => _ end) as [status lns].
    destruct (String.eqb_spec status "succeeded") as [->|Hne].
    - specialize (IH (S i)). destruct (approve_steps path links (S i) steps "succeeded") as [evs' [final outs]].
      destruct IH as (I1 & I2 & I3). cbn [length map take so_action_name]. split_and!.
      + by rewrite I1.
      + intros [|k] o Hk Hlt; cbn in Hk; [by simplify_eq|]. apply (I2 k o Hk). lia.
      + rewrite I3, Forall_cons. cbn. naive_solver lia.
    - cbn [length map take]. split_and!; [done|intros k o _ Hlt; lia|].
      rewrite Forall_singleton. cbn. split; [done|]. by intros [_ ?]. }
  specialize (G 0). destruct (approve_steps path links 0 steps "succeeded") as [evs [final outs]].
  destruct G as (G1 & G2 & G3). split_and!; [done|done|]. rewrite <- G3. unfold outcome_of.
  destruct (String.eqb_spec final "succeeded") as [->|Hne]; [done|]. split; [|done]. intros E. exfalso.
  revert E. repeat case_match; try done.
Qed.

End Steps.

(** ** Two clients, one daemon *)

Lemma strings_kept l : shell_string_array (strings_value l) = l.
Proof. unfold shell_string_array. cbn. induction l as [|s l IH]; [done|]. cbn. by rewrite IH. Qed.

(** The shell and the command line read the same state from a daemon's answer. *)
Theorem clients_see_one_host `{ClientEnv} `{StrDebug} target link path slink rid s :
  exchange_sync target link (state_request "cli-state") = Ok (response_value (StateResponse rid s)) ->
  sl_connect slink = Some (Ok tt) -> sl_timeouts slink = Ok tt ->
  blocking_exchange "" "failed to send query_state: " "failed to read daemon response: "
    "invalid JSON from daemon: " slink = Ok (response_value (StateResponse rid s)) ->
  forall c, query_state_inner path slink = Ok c <-> exists d, state_with_distro target link = Ok (c, d).
Proof.
  intros E Ec Et Es c. rewrite (planner_sees_the_host _ _ _ _ E). unfold query_state_inner.
  rewrite Ec, Et, Es. cbn -[shell_string_array strings_value]. rewrite !strings_kept. unfold curated_new, curated_of.
  cbn. destruct (_ =? _)%string; [by split; [|intros []]|]. split; [|intros [d E']; by simplify_eq].
  intros [= <-]. eauto.
Qed.

(** ** The prompt of a review *)

Lemma sanitized_intent intent n :
  let safe := sanitize_intent_for_prompt intent n in
  length safe <= n /\ Forall (fun c => is_control c = false /\ c <> 34%N) safe
  /\ sanitize_intent_for_prompt safe n = safe.
Proof.
  cbv zeta. unfold sanitize_intent_for_prompt. set (p := fun c => negb (is_control c) && negb (c =? 34)%N).
  assert (Hf : Forall (fun c => p c = true) (take n (List.filter p intent))).
  { apply Forall_take, Forall_forall. intros c Hc. apply list_elem_of_In, filter_In in Hc. tauto. }
  split_and!.
  - rewrite length_take. lia.
  - eapply Forall_impl; [exact Hf|]. unfold p. intros c Hc. bools. by apply N.eqb_neq in H0.
  - rewrite (List.forallb_filter_id p); [by rewrite take_take, Nat.min_id|].
    apply forallb_forall. rewrite Forall_forall in Hf. intros c Hc. apply Hf. by apply list_elem_of_In.
Qed.

(** A line is cut at a byte: one whose 500th byte is inside a character ends the command,
    and the result is not reviewed. *)
Lemma long_line_panics_the_review :
  let line := (String.concat "" (repeat "a" 499) ++ "é")%string in
  review_line line = None
  /\ review_output "succeeded" [mkStepOut "AptUpdate" "succeeded" [line]] = None.
Proof. vm_compute. split; reflexivity. Qed.

(** ** The poller *)

Lemma poll_backoff p c : (1 <= po_backoff p <= MAX_BACKOFF)%N ->
  (1 <= (poll p c).1.2 <= MAX_BACKOFF)%N /\ (1 <= po_backoff (poll p c).2 <= MAX_BACKOFF)%N.
Proof.
  unfold poll, MAX_BACKOFF, HEALTHY_INTERVAL. destruct p as [was b]. cbn [po_was_connected po_backoff]. intros Hb.
  destruct c, was; cbn [andb negb]; [destruct (b =? 1)%N| | |]; cbn; lia.
Qed.

(** The daemon is never probed more than once a second nor less than twice a minute. *)
Lemma poller_keeps_pace p probes : (1 <= po_backoff p <= MAX_BACKOFF)%N ->
  Forall (fun e => 1 <= e.2 <= MAX_BACKOFF)%N (poll_all p probes).
Proof.
  revert p. induction probes as [|c probes IH]; intros p Hb; [constructor|]. cbn [poll_all].
  destruct (poll_backoff p c Hb) as [H1 H2]. destruct (poll p c) as [[e s] p']. constructor; [exact H1|by apply IH].
Qed.

(** A status is emitted at every probe of a daemon that is up, not when it changes; and a
    daemon that is down from the start is never announced as such. *)
Lemma poller_repeats_itself :
  map fst (poll_all poller_start [true; true; true]) = [Some Connected; Some Connected; Some Connected]
  /\ map fst (poll_all poller_start [false; false; false]) = [None; None; None].
Proof. split; reflexivity. Qed.

(** ** A daemon that disagrees *)

Module ShellSample.
(** Frames are numbered; [table] is what they hold. *)
Definition frames (table : list json) : ClientEnv := {|
  to_vec := fun _ => Ok [];
  from_slice := fun bs => match bs with [c] => ok_or "malformed" (table !! nat_of_ascii c) | _ => Err "malformed" end;
  preview_from_value := fun _ => Err "unused"; result_from_value := fun _ => Err "unused";
  history_from_value := fun _ => Err "unused"; distro_from_value := fun _ => None;
  debug_value := fun _ => "value"; display_value := fun _ => "value"; strip_ansi := fun s => s |}.

Definition high_preview : json := JObj [("type", JStr "preview_response"); ("transaction_id", JStr "t1");
  ("preview", JObj [("risk_level", JStr "high"); ("warnings", JArr [JStr "removes the boot loader"])])].
Definition receipt : json := JObj [("type", JStr "approval_response"); ("approval_receipt", JStr "r1")].
Definition done_frame : json := JObj [("type", JStr "job_completed"); ("result", JObj [("status", JStr "succeeded")])].
Definition env : ClientEnv := frames [high_preview; receipt; done_frame].
Definition link : ShellLink := mkShellLink (Some (Ok tt)) (Ok tt) (fun _ => Ok tt)
  (map (fun n => mkReply 0 (Ok [ascii_of_nat n])) [0; 1; 2]).
End ShellSample.

(** The risk the daemon previews is not looked at: a step the user approved as low and the
    daemon rates high is approved and run, and the preview's warnings are not shown. *)
Lemma shell_approves_what_it_did_not_show :
  execute_action (H := ShellSample.env) "/run/s.sock" ShellSample.link "AptRemove" (JObj [])
  = ([Sent (preview_req "AptRemove" (JObj [])); Timeline "Preview ready for AptRemove";
      Sent (approve_req "t1"); Sent (execute_req "t1" "AptRemove" (JObj []) "r1")],
     Ok ("succeeded", [])).
Proof. vm_compute. reflexivity. Qed.
