(* ===== verification/Cassette.v ===== *)
(** * Record and replay of the language model

    crates/sysknife-brain/src/cassette.rs: the file of recorded calls, the provider that
    answers from it or records into it, the diagnosis of a miss, and the ledger that
    proves a replay happened. serde_json's readers and printers are arguments; the file
    and the ledger are texts; the underlying provider's answer and the failures of the
    disk are given with each call. The two mutexes are held within one call only. *)

From Stdlib Require Import Ascii String NArith Lia.
From stdpp Require Import base list gmap strings.
From S2P Require Import Prelude Json Config Signing TextFile PlanTools Planner.

Definition CASSETTE_VERSION : N := 2.
Definition ENV_CASSETTE : string := "SYSKNIFE_CASSETTE".
Definition ENV_CASSETTE_MODE : string := "SYSKNIFE_CASSETTE_MODE".

Inductive CassetteMode : Type := RecordMode | ReplayMode.
#[export] Instance CassetteMode_eq_dec : EqDecision CassetteMode.
Proof. solve_decision. Defined.

Inductive CassetteError : Type :=
| UnknownMode (mode : string)
| UnsupportedVersion (path : string) (found understood : N)
| CassetteMissing (path : string)
| CassetteIo (path source : string)
| CassetteMalformed (path source : string).

(** [debug]: the [Debug] of a string. *)
Definition show_cassette_error (debug : string -> string) (e : CassetteError) : string :=
  match e with
  | UnknownMode m => "unknown cassette mode " ++ debug m ++ "; expected " ++ quoted "record" ++ " or " ++ quoted "replay"
  | UnsupportedVersion path found understood =>
      "cassette " ++ path ++ " has version " ++ dec_of_N found ++ ", but this binary understands "
      ++ dec_of_N understood ++ "; re-record it or use a matching build"
  | CassetteMissing path => "cannot replay: no cassette at " ++ path
  | CassetteIo path source => "cassette " ++ path ++ " is not readable: " ++ source
  | CassetteMalformed path source => "cassette " ++ path ++ " is not valid JSON: " ++ source
  end%string.

Definition parse_mode (raw : string) : result CassetteError CassetteMode :=
  let other := to_lower (str_trim raw) in
  if (other =? "record")%string then Ok RecordMode
  else if (other =? "replay")%string then Ok ReplayMode
  else Err (UnknownMode other).

(** ** What is recorded *)

Record RecordedRejection : Type := mkRejection { rj_kind : string; rj_message : string; rj_status : option N }.

Definition rejection_of (error : ProviderError) : option RecordedRejection :=
  match error with
  | ProvRequest m => Some (mkRejection "request" m None)
  | ProvParse m => Some (mkRejection "parse" m None)
  | Http status body => Some (mkRejection "http" body (Some status))
  | _ => None
  end.

Definition to_error (r : RecordedRejection) : ProviderError :=
  if (rj_kind r =? "parse")%string then ProvParse (rj_message r)
  else if (rj_kind r =? "http")%string then Http (default 500%N (rj_status r)) (rj_message r)
  else ProvRequest (rj_message r).

Definition recordable_rejection (error : ProviderError) : option RecordedRejection :=
  if negb (is_invalid_tool_call error) then None else rejection_of error.

Record ToolDefinition : Type := mkTool { td_name : string; td_description : string; td_input_schema : json }.

(** A call of the provider. *)
Record Call : Type := mkCall {
  call_system : string; call_messages : list Message; call_tools : list ToolDefinition; call_max_tokens : N }.

Record CallFingerprint : Type := mkFingerprint {
  fp_system : string; fp_tools : string; fp_max_tokens : N; fp_messages : list string }.

Record Entry : Type := mkEntry {
  en_surface : string; en_output : option Completion; en_rejection : option RecordedRejection;
  en_fingerprint : option CallFingerprint }.

Record Meta : Type := mkMeta { meta_surfaces : gset string; meta_system_prompt_sha256 : gset string }.

Record Document : Type := mkDocument { doc_version : N; doc_meta : Meta; doc_entries : gmap string Entry }.

(** *** The JSON of a call *)

Definition opt_str_value (o : option string) : json := match o with Some s => JStr s | None => JNull end.

Definition block_value (b : ContentBlock) : json :=
  match b with
  | TextBlock t => JObj [("Text", JObj [("text", JStr t)])]
  | ToolUse id call_id name input =>
      JObj [("ToolUse", JObj [("id", JStr id); ("call_id", opt_str_value call_id); ("name", JStr name); ("input", input)])]
  | ToolResult tool_use_id call_id content is_error =>
      JObj [("ToolResult", JObj [("tool_use_id", JStr tool_use_id); ("call_id", opt_str_value call_id);
                                 ("content", JStr content); ("is_error", JBool is_error)])]
  end.

Definition message_value (m : Message) : json :=
  JObj [("role", JStr match role m with UserRole => "User" | AssistantRole => "Assistant" end);
        ("content", JArr (map block_value (content m)))].

Definition tool_value (t : ToolDefinition) : json :=
  JObj [("name", JStr (td_name t)); ("description", JStr (td_description t)); ("input_schema", td_input_schema t)].

(** serde_json: a [Value]'s [Display] (objects in the order of their keys), the text of a
    derived structure (fields as declared), and the cassette's own readers and printer. *)
Class CassetteEnv : Type := {
  value_display : json -> string;
  to_string : json -> string;
  line_from_str : string -> result string json;
  document_from_str : string -> result string Document;
  version_from_str : string -> result string N;
  to_string_pretty : Document -> result string string }.

(** *** The file system *)

(** [Path::file_name] *)
Definition file_name (path : string) : option string :=
  let s := bare_path path in
  if is_empty s || (s =? "/")%string then None
  else name ← last (split_on "/"%char s); if (name =? "..")%string then None else Some name.

Definition ledger_path_for (cassette : string) : string :=
  let dir := match file_name cassette with Some _ => default "" (path_parent cassette) | None => cassette end in
  path_join dir (default "" (file_name cassette) ++ ".replay-log.jsonl").

(** The texts of the two files, where they exist. *)
Record Disk : Type := mkDisk { dk_cassette : option string; dk_ledger : option string }.

(** Which step of opening fails, and how. *)
Record OpenIo : Type := mkOpenIo { oi_read : option string; oi_create_dir : option string; oi_ledger : option string }.
Inductive PersistStep : Type := CreateDir | CreateTemp | WriteTemp | RenameTemp.
(** Which step of one call's writing fails. *)
Record CallIo : Type := mkCallIo { ci_persist : option (PersistStep * string); ci_append : option string }.
Definition open_ok : OpenIo := mkOpenIo None None None.
Definition call_ok : CallIo := mkCallIo None None.

Record Tally : Type := mkTally { hits : N; misses : N }.

Record Cassette : Type := mkCassette {
  ca_path : string; ca_mode : CassetteMode; ca_state : Document; ca_tally : Tally }.

(** What a provider call came to: its outcome, whether the model was asked, and the
    cassette and the files after it. *)
Record Served : Type := mkServed {
  sv_outcome : result ProviderError Completion; sv_asked : bool; sv_cassette : Cassette; sv_disk : Disk }.

Section Cassettes.
Context `{CassetteEnv} `{Crypto}.
Variable debug_str : string -> string.

Definition sha256_hex (s : string) : string := hex_encode (sha256 (bytes_of s)).

Definition call_key (surface : string) (c : Call) : string :=
  let canonical := value_display (JObj [("surface", JStr surface); ("system", JStr (call_system c));
    ("messages", JArr (map message_value (call_messages c))); ("tools", JArr (map tool_value (call_tools c)));
    ("max_tokens", JNum (NPos (call_max_tokens c)))]) in
  (surface ++ ":" ++ sha256_hex canonical)%string.

Definition fingerprint_of (c : Call) : CallFingerprint :=
  mkFingerprint (sha256_hex (call_system c)) (sha256_hex (to_string (JArr (map tool_value (call_tools c)))))
    (call_max_tokens c) (map (fun m => sha256_hex (to_string (message_value m))) (call_messages c)).

(** The first position where two lists differ, within the shorter. *)
Fixpoint position_ne (a b : list string) : option nat :=
  match a, b with
  | x :: a', y :: b' => if (x =? y)%string then S <$> position_ne a' b' else Some 0
  | _, _ => None
  end.

Definition first_divergent_message (a b : CallFingerprint) : option nat :=
  position_ne (fp_messages a) (fp_messages b).

(** ** Opening *)

Definition fresh_document : Document := mkDocument CASSETTE_VERSION (mkMeta ∅ ∅) ∅.

Definition load_document (path raw : string) : result CassetteError Document :=
  match version_from_str raw with
  | Err source => Err (CassetteMalformed path source)
  | Ok found =>
      if (CASSETTE_VERSION <? found)%N then Err (UnsupportedVersion path found CASSETTE_VERSION)
      else match document_from_str raw with Err source => Err (CassetteMalformed path source) | Ok d => Ok d end
  end.

Definition is_replay (m : CassetteMode) : bool := match m with ReplayMode => true | RecordMode => false end.

Definition non_empty_parent (path : string) : option string :=
  p ← path_parent path; if is_empty p then None else Some p.

(** Under replay, the ledger is created where it does not exist. *)
Definition prove_ledger (path : string) (disk : Disk) (io : OpenIo) : result CassetteError Disk :=
  let ledger := ledger_path_for path in
  match non_empty_parent ledger, oi_create_dir io with
  | Some parent, Some source => Err (CassetteIo parent source)
  | _, _ =>
      match oi_ledger io with
      | Some source => Err (CassetteIo ledger source)
      | None => Ok (mkDisk (dk_cassette disk) (Some (default "" (dk_ledger disk))))
      end
  end.

Definition cassette_open (path : string) (mode : CassetteMode) (disk : Disk) (io : OpenIo)
    : result CassetteError (Cassette * Disk) :=
  document ← match dk_cassette disk with
             | Some raw =>
                 match oi_read io with
                 | Some source => Err (CassetteIo path source)
                 | None => load_document path raw
                 end
             | None => if is_replay mode then Err (CassetteMissing path) else Ok fresh_document
             end;
  disk ← (if is_replay mode then prove_ledger path disk io else Ok disk);
  Ok (mkCassette path mode document (mkTally 0 0), disk).

(** [from_env]: the error is its text. *)
Definition from_env (env : environ) (disk : Disk) (io : OpenIo) : result string (option (Cassette * Disk)) :=
  match env !! ENV_CASSETTE with
  | Some path =>
      if is_empty (str_trim path) then Ok None
      else
        match env !! ENV_CASSETTE_MODE with
        | None => Err (ENV_CASSETTE ++ " is set to " ++ debug_str path ++ " but " ++ ENV_CASSETTE_MODE
                       ++ " is not; set it to " ++ quoted "record" ++ " or " ++ quoted "replay")%string
        | Some raw_mode =>
            match (mode ← parse_mode raw_mode; cassette_open path mode disk io) with
            | Ok r => Ok (Some r)
            | Err e => Err (show_cassette_error debug_str e)
            end
        end
  | None => Ok None
  end.

(** ** The ledger *)

Definition add_outcome (outcome : option string) (t : Tally) : Tally :=
  match outcome with
  | Some "hit" => mkTally (hits t + 1) (misses t)
  | _ => mkTally (hits t) (misses t + 1)
  end.

Fixpoint tally_lines (path : string) (l : list string) (t : Tally) : result CassetteError Tally :=
  match l with
  | [] => Ok t
  | line :: l' =>
      if is_empty (str_trim line) then tally_lines path l' t
      else match line_from_str line with
           | Err source => Err (CassetteMalformed path source)
           | Ok entry => tally_lines path l' (add_outcome (jget "outcome" entry ≫= as_str) t)
           end
  end.

(** [read_ledger]: the text of the ledger, if there is one, or why it cannot be read. *)
Definition read_ledger (path : string) (ledger : option (result string string)) : result CassetteError Tally :=
  match ledger with
  | None => Ok (mkTally 0 0)
  | Some (Err source) => Err (CassetteIo path source)
  | Some (Ok raw) => tally_lines path (lines raw) (mkTally 0 0)
  end.

Definition ledger_line (outcome surface key : string) : string :=
  value_display (JObj [("outcome", JStr outcome); ("surface", JStr surface); ("key", JStr key)]).

Definition note (outcome surface key : string) (c : Cassette) (disk : Disk) (io : CallIo) : Cassette * Disk :=
  let c := mkCassette (ca_path c) (ca_mode c) (ca_state c) (add_outcome (Some outcome) (ca_tally c)) in
  if negb (is_replay (ca_mode c)) then (c, disk)
  else match ci_append io with
       | Some _ => (c, disk)
       | None => (c, mkDisk (dk_cassette disk)
                       (Some (default "" (dk_ledger disk) ++ ledger_line outcome surface key ++ String LF "")%string))
       end.

(** ** Storing *)

Definition entry_outcome (e : Entry) : option (result ProviderError Completion) :=
  match en_output e, en_rejection e with
  | Some output, _ => Some (Ok output)
  | None, Some r => Some (Err (to_error r))
  | None, None => None
  end.

(** [Cassette::lookup] *)
Definition recorded_outcome (d : Document) (key : string) : option (result ProviderError Completion) :=
  doc_entries d !! key ≫= entry_outcome.

Definition prompt_is_unknown (d : Document) (prompt_sha : string) : bool :=
  bool_decide (prompt_sha ∉ meta_system_prompt_sha256 (doc_meta d)).

Definition persist_error (path : string) (step : PersistStep) (source : string) : CassetteError :=
  let parent := default "." (non_empty_parent path) in
  match step with CreateDir | CreateTemp => CassetteIo parent source | WriteTemp | RenameTemp => CassetteIo path source end.

(** [persist]: the new text of the file; the old one stays until the rename. The directory
    is made before the document is printed. *)
Definition persist (c : Cassette) (io : CallIo) : result CassetteError string :=
  match ci_persist io with
  | Some (CreateDir, source) => Err (persist_error (ca_path c) CreateDir source)
  | fault =>
      match to_string_pretty (ca_state c) with
      | Err source => Err (CassetteMalformed (ca_path c) source)
      | Ok text =>
          match fault with
          | Some (step, source) => Err (persist_error (ca_path c) step source)
          | None => Ok (text ++ String LF "")%string
          end
      end
  end.

Definition with_state (c : Cassette) (d : Document) : Cassette := mkCassette (ca_path c) (ca_mode c) d (ca_tally c).

Definition inserted (d : Document) (key surface prompt_sha : string) (e : Entry) : Document :=
  mkDocument CASSETTE_VERSION
    (mkMeta ({[ surface ]} ∪ meta_surfaces (doc_meta d)) ({[ prompt_sha ]} ∪ meta_system_prompt_sha256 (doc_meta d)))
    (<[key := e]> (doc_entries d)).

Definition store_entry (c : Cassette) (disk : Disk) (io : CallIo) (key surface prompt_sha : string)
    (output : option Completion) (rejection : option RecordedRejection) (fingerprint : option CallFingerprint)
    : result CassetteError () * Cassette * Disk :=
  let c := with_state c (inserted (ca_state c) key surface prompt_sha (mkEntry surface output rejection fingerprint)) in
  match persist c io with
  | Ok text => (Ok tt, c, mkDisk (Some text) (dk_ledger disk))
  | Err e =>
      let d := ca_state c in
      (Err e, with_state c (mkDocument (doc_version d) (doc_meta d) (delete key (doc_entries d))), disk)
  end.

Definition store (c : Cassette) (disk : Disk) (io : CallIo) (key surface prompt_sha : string) (output : Completion)
    (fingerprint : option CallFingerprint) :=
  store_entry c disk io key surface prompt_sha (Some output) None fingerprint.

Definition store_rejection (c : Cassette) (disk : Disk) (io : CallIo) (key surface prompt_sha : string)
    (rejection : RecordedRejection) (fingerprint : option CallFingerprint) :=
  store_entry c disk io key surface prompt_sha None (Some rejection) fingerprint.

(** ** Explaining a miss *)

Definition max_opt (l : list nat) : option nat :=
  match l with [] => None | n :: l' => Some (fold_right Nat.max n l') end.

Definition diagnose_miss (c : Cassette) (surface : string) (call : Call) : string :=
  let want := fingerprint_of call in
  let recorded := omap en_fingerprint
    (List.filter (fun e => (en_surface e =? surface)%string) (map snd (map_to_list (doc_entries (ca_state c))))) in
  let same_system f := (fp_system f =? fp_system want)%string in
  let same_tools f := (fp_tools f =? fp_tools want)%string in
  match recorded with
  | [] => ("no recorded output for surface " ++ surface ++ " in " ++ ca_path c ++ "; re-record with "
           ++ ENV_CASSETTE_MODE ++ "=record")%string
  | _ =>
      if negb (existsb same_system recorded) then
        ("the system prompt changed, so every call will miss; re-record with " ++ ENV_CASSETTE_MODE ++ "=record")%string
      else if negb (existsb same_tools recorded) then
        ("the tool schema changed, so every call will miss; re-record with " ++ ENV_CASSETTE_MODE ++ "=record")%string
      else
        let deepest := max_opt (omap (fun f => first_divergent_message f want)
                                  (List.filter (fun f => same_system f && same_tools f) recorded)) in
        match deepest with
        | Some 0 =>
            ("no recorded output for this intent in " ++ ca_path c
             ++ ". The prompt and tools match, so the cassette is current — this particular request was never recorded. "
             ++ "A recording made before cassette v2 is the usual reason: only successes were kept, so an intent whose "
             ++ "first call the provider rejected left the corrected retry behind and nothing to start it from. Re-record with "
             ++ ENV_CASSETTE_MODE ++ "=record if it should be covered.")%string
        | Some index =>
            ("the conversation diverged at message " ++ dec_of_N (N.of_nat index)
             ++ ": the intent and the turns before it replay, this one does not. That is the signature of a volatile "
             ++ "tool result — a timestamp, a transaction id, or live system state folded into the call key. See issue #182.")%string
        | None =>
            ("no recorded output for this call in " ++ ca_path c
             ++ "; the prompt and tools match, so the conversation reached a turn that was never recorded. Re-record with "
             ++ ENV_CASSETTE_MODE ++ "=record")%string
        end
  end.

(** ** The provider *)

Definition write_failed (e : CassetteError) : ProviderError :=
  CassetteMiss ("cannot write cassette: " ++ show_cassette_error debug_str e).

Definition complete (surface : string) (c : Cassette) (disk : Disk) (io : CallIo) (call : Call)
    (live : result ProviderError Completion) : Served :=
  let key := call_key surface call in
  match recorded_outcome (ca_state c) key with
  | Some outcome => let '(c, disk) := note "hit" surface key c disk io in mkServed outcome false c disk
  | None =>
      if is_replay (ca_mode c) then
        let '(c, disk) := note "miss" surface key c disk io in
        let prompt_sha := sha256_hex (call_system call) in
        let detail :=
          if prompt_is_unknown (ca_state c) prompt_sha then
            ("the system prompt changed (sha256 " ++ prompt_sha ++ " was never recorded in " ++ ca_path c
             ++ "), so every call will miss; re-record after a prompt change")%string
          else diagnose_miss c surface call in
        mkServed (Err (CassetteMiss detail)) false c disk
      else
        let fingerprint := fingerprint_of call in
        let prompt_sha := fp_system fingerprint in
        match live with
        | Ok output =>
            match store c disk io key surface prompt_sha output (Some fingerprint) with
            | (Ok _, c, disk) => mkServed (Ok output) true c disk
            | (Err e, c, disk) => mkServed (Err (write_failed e)) true c disk
            end
        | Err error =>
            match recordable_rejection error with
            | Some rejection =>
                match store_rejection c disk io key surface prompt_sha rejection (Some fingerprint) with
                | (Ok _, c, disk) => mkServed (Err error) true c disk
                | (Err e, c, disk) => mkServed (Err (write_failed e)) true c disk
                end
            | None => mkServed (Err error) true c disk
            end
        end
  end.

End Cassettes.

(** ** What is kept *)

Lemma rejection_roundtrip e r : rejection_of e = Some r -> to_error r = e.
Proof. by destruct e; intros [= <-]. Qed.

(** An outcome that a recording keeps. *)
Definition kept (o : result ProviderError Completion) : option (result ProviderError Completion) :=
  match o with
  | Ok _ => Some o
  | Err e => if recordable_rejection e then Some o else None
  end.

Lemma miss_is_not_kept m : kept (Err (CassetteMiss m)) = None.
Proof. done. Qed.

(** The planner takes the same path on a replayed rejection as on the live one. *)
Lemma recorded_rejection e r : recordable_rejection e = Some r ->
  to_error r = e /\ is_invalid_tool_call e = true /\ is_retryable (to_error r) = true.
Proof.
  unfold recordable_rejection. destruct (is_invalid_tool_call e) eqn:Ei; [|done]. intros Hr.
  rewrite (rejection_roundtrip _ _ Hr). split_and!; [done|done|].
  destruct e; try discriminate Hr; try reflexivity. unfold is_retryable. by rewrite Ei, orb_true_r.
Qed.

(** A rate limit can carry the text of a rejected tool call: the planner corrects it and
    asks again, and the recorder does not keep it. *)
Lemma rate_limited_rejection_is_not_kept :
  let e := ProvRateLimit "tool_use_failed" in
  tool_call_correction e [] <> None /\ is_retryable e = true /\ recordable_rejection e = None.
Proof. vm_compute. repeat split; congruence. Qed.

(** One provider call as it will go: what the model would answer, and the disk. *)
Record Asking : Type := mkAsking { ak_call : Call; ak_live : result ProviderError Completion; ak_io : CallIo }.

(** What serde_json promises: a printed document is read back, and so is the outcome of a
    printed line of the ledger, which is one line. *)
Class CassetteLaws `{CassetteEnv} : Prop := {
  pretty_reads : forall d text, to_string_pretty d = Ok text ->
    document_from_str (text ++ String LF "")%string = Ok d
    /\ version_from_str (text ++ String LF "")%string = Ok (doc_version d);
  ledger_reads : forall outcome surface key, outcome = "hit" \/ outcome = "miss" ->
    is_line (ledger_line outcome surface key) = true
    /\ is_empty (str_trim (ledger_line outcome surface key)) = false
    /\ exists v, line_from_str (ledger_line outcome surface key) = Ok v /\ jget "outcome" v = Some (JStr outcome) }.

Section Sessions.
Context `{CassetteLaws} `{Crypto}.
Variable debug_str : string -> string.
Variable surface : string.

Fixpoint session (c : Cassette) (disk : Disk) (l : list Asking)
    : list (result ProviderError Completion * bool) * Cassette * Disk :=
  match l with
  | [] => ([], c, disk)
  | a :: l' =>
      let s := complete debug_str surface c disk (ak_io a) (ak_call a) (ak_live a) in
      let '(outs, c', disk') := session (sv_cassette s) (sv_disk s) l' in
      ((sv_outcome s, sv_asked s) :: outs, c', disk')
  end.

Definition key_of (a : Asking) : string := call_key surface (ak_call a).

(** The first outcome for a key that was kept. *)
Definition learned (k : string) (l : list Asking) (outs : list (result ProviderError Completion * bool))
    : option (result ProviderError Completion) :=
  find_map (fun '(a, o) => if (key_of a =? k)%string then kept o.1 else None) (zip l outs).

Lemma note_state outcome key c disk io :
  ca_state (note outcome surface key c disk io).1 = ca_state c
  /\ ca_path (note outcome surface key c disk io).1 = ca_path c
  /\ ca_mode (note outcome surface key c disk io).1 = ca_mode c
  /\ dk_cassette (note outcome surface key c disk io).2 = dk_cassette disk.
Proof. unfold note. destruct (negb _); [done|]. by destruct (ci_append io). Qed.

Lemma inserted_outcome d key sha e k :
  recorded_outcome (inserted d key surface sha e) k
  = if (key =? k)%string then entry_outcome e else recorded_outcome d k.
Proof.
  unfold recorded_outcome, inserted. cbn. destruct (String.eqb_spec key k) as [->|Hne].
  - by rewrite lookup_insert_eq.
  - by rewrite lookup_insert_ne.
Qed.

(** What storing leaves: the entry, where it reached the disk. *)
Lemma store_entry_spec c disk io key sha output rejection fp :
  recorded_outcome (ca_state c) key = None ->
  let '(r, c', disk') := store_entry c disk io key surface sha output rejection fp in
  ca_path c' = ca_path c /\ ca_mode c' = ca_mode c /\
  match r with
  | Ok _ => ca_state c' = inserted (ca_state c) key surface sha (mkEntry surface output rejection fp)
            /\ exists text, to_string_pretty (ca_state c') = Ok text /\ dk_cassette disk' = Some (text ++ String LF "")%string
  | Err _ => (forall k, recorded_outcome (ca_state c') k = recorded_outcome (ca_state c) k) /\ disk' = disk
  end.
Proof.
  intros Hn. unfold store_entry.
  set (c1 := with_state c (inserted (ca_state c) key surface sha (mkEntry surface output rejection fp))).
  destruct (persist c1 io) as [text|e] eqn:Hp; cbn.
  - split_and!; [done..|]. unfold persist in Hp. repeat case_match; simplify_eq; eauto.
  - split_and!; [done..| |done]. intros k. unfold recorded_outcome in *. cbn.
    destruct (decide (key = k)) as [<-|Hne]; [by rewrite lookup_delete_eq, Hn|].
    by rewrite lookup_delete_ne, lookup_insert_ne.
Qed.

(** The file holds what the cassette would answer. *)
Definition synced (path : string) (c : Cassette) (disk : Disk) : Prop :=
  match dk_cassette disk with
  | Some raw => exists d, load_document path raw = Ok d
                 /\ forall k, recorded_outcome d k = recorded_outcome (ca_state c) k
  | None => forall k, recorded_outcome (ca_state c) k = None
  end.

Lemma written_synced path c disk text :
  to_string_pretty (ca_state c) = Ok text -> doc_version (ca_state c) = CASSETTE_VERSION ->
  dk_cassette disk = Some (text ++ String LF "")%string -> synced path c disk.
Proof.
  intros [Hd Hv]%pretty_reads Hver Hf. unfold synced. rewrite Hf. unfold load_document.
  rewrite Hv, Hver, Hd. cbn. eauto.
Qed.

Lemma same_synced path c c' disk disk' :
  (forall k, recorded_outcome (ca_state c') k = recorded_outcome (ca_state c) k) ->
  dk_cassette disk' = dk_cassette disk -> synced path c disk -> synced path c' disk'.
Proof.
  intros Hs Hd. unfold synced. rewrite Hd. destruct (dk_cassette disk); [|by intros Hn k; rewrite Hs].
  intros (d & Hl & Hk). exists d. split; [done|]. intros k. by rewrite Hk, Hs.
Qed.

(** A call changes what the cassette answers by its own outcome, where it is kept, and
    leaves the file in step. *)
Lemma complete_spec c disk io call live :
  let s := complete debug_str surface c disk io call live in
  ca_mode (sv_cassette s) = ca_mode c
  /\ (forall k, recorded_outcome (ca_state (sv_cassette s)) k
       = match recorded_outcome (ca_state c) k with
         | Some o => Some o
         | None => if (call_key surface call =? k)%string then kept (sv_outcome s) else None
         end)
  /\ (forall path, synced path c disk -> synced path (sv_cassette s) (sv_disk s)).
Proof.
  cbv zeta. unfold complete. set (key := call_key surface call).
  destruct (recorded_outcome (ca_state c) key) as [o|] eqn:Eo.
  { pose proof (note_state "hit" key c disk io) as (Hs & Hp & Hm & Hd). destruct (note _ _ _ _ _ _) as [c' disk'].
    cbn in *. split_and!; [done| |].
    - intros k. rewrite Hs. destruct (recorded_outcome (ca_state c) k) eqn:Ek; [done|].
      destruct (String.eqb_spec key k) as [->|]; congruence.
    - intros path. apply same_synced; [by rewrite Hs|done]. }
  destruct (is_replay (ca_mode c)).
  { pose proof (note_state "miss" key c disk io) as (Hs & Hp & Hm & Hd). destruct (note _ _ _ _ _ _) as [c' disk'].
    cbn [fst snd sv_cassette sv_outcome sv_disk] in *. split_and!; [done| |].
    - intros k. rewrite Hs, miss_is_not_kept. by destruct (recorded_outcome _ k), (key =? k)%string.
    - intros path. apply same_synced; [by rewrite Hs|done]. }
  assert (G : forall output rejection fp o,
    entry_outcome (mkEntry surface output rejection fp) = Some o -> kept o = Some o ->
    let '(r, c', disk') := store_entry c disk io key surface (fp_system (fingerprint_of call)) output rejection fp in
    let o' := match r with Ok _ => o | Err e => Err (write_failed debug_str e) end in
    ca_mode c' = ca_mode c
    /\ (forall k, recorded_outcome (ca_state c') k
         = match recorded_outcome (ca_state c) k with
           | Some o => Some o
           | None => if (key =? k)%string then kept o' else None
           end)
    /\ (forall path, synced path c disk -> synced path c' disk')).
  { intros output rejection fp o Ho Hk.
    pose proof (store_entry_spec c disk io key (fp_system (fingerprint_of call)) output rejection fp Eo) as Hs.
    destruct (store_entry _ _ _ _ _ _ _ _ _) as [[[[]|e] c'] disk']; destruct Hs as (Hp & Hm & Hs).
    - destruct Hs as (Hs & text & Ht & Hf). split_and!; [done| |].
      + intros k. rewrite Hs, inserted_outcome, Ho, Hk. destruct (String.eqb_spec key k) as [<-|]; [by rewrite Eo|].
        by destruct (recorded_outcome _ k).
      + intros path _. apply (written_synced path c' disk' text Ht); [by rewrite Hs|done].
    - destruct Hs as (Hs & ->). split_and!; [done| |].
      + intros k. rewrite Hs. unfold write_failed. rewrite miss_is_not_kept. by destruct (recorded_outcome _ k), (key =? k)%string.
      + intros path. by apply same_synced. }
  destruct live as [output|error].
  { specialize (G (Some output) None (Some (fingerprint_of call)) (Ok output) eq_refl eq_refl). unfold store.
    destruct (store_entry _ _ _ _ _ _ _ _ _) as [[[[]|e] c'] disk']; exact G. }
  destruct (recordable_rejection error) as [r|] eqn:Er.
  { specialize (G None (Some r) (Some (fingerprint_of call)) (Err error)).
    cbn [entry_outcome en_output en_rejection kept] in G. rewrite (proj1 (recorded_rejection _ _ Er)), Er in G.
    specialize (G eq_refl eq_refl). unfold store_rejection.
    destruct (store_entry _ _ _ _ _ _ _ _ _) as [[[[]|e] c'] disk']; exact G. }
  cbn [sv_cassette sv_outcome sv_disk kept]. rewrite Er. split_and!; [done| |done].
  intros k. by destruct (recorded_outcome _ k), (key =? k)%string.
Qed.

Lemma session_spec l : forall c disk,
  let '(outs, c', disk') := session c disk l in
  length outs = length l
  /\ ca_mode c' = ca_mode c
  /\ (forall k, recorded_outcome (ca_state c') k
       = match recorded_outcome (ca_state c) k with Some o => Some o | None => learned k l outs end)
  /\ (forall path, synced path c disk -> synced path c' disk').
Proof.
  induction l as [|a l IH]; intros c disk.
  { cbn. split_and!; [done|done| |done]. intros k. by destruct (recorded_outcome _ k). }
  cbn [session]. pose proof (complete_spec c disk (ak_io a) (ak_call a) (ak_live a)) as (C1 & C2 & C3).
  set (s := complete _ _ _ _ _ _ _) in *. specialize (IH (sv_cassette s) (sv_disk s)).
  destruct (session (sv_cassette s) (sv_disk s) l) as [[outs c'] disk']. destruct IH as (I0 & I1 & I2 & I3).
  split_and!; [by cbn; rewrite I0|congruence| |eauto].
  intros k. rewrite I2, C2. unfold learned. cbn [zip zip_with find_map key_of fst].
  destruct (recorded_outcome (ca_state c) k); [done|]. unfold key_of.
  by destruct (call_key surface (ak_call a) =? k)%string; [destruct (kept (sv_outcome s))|].
Qed.

(** Replay asks nobody and answers from the recording alone. *)
Lemma replay_spec l : forall c disk, ca_mode c = ReplayMode ->
  Forall2 (fun a o => o.2 = false
    /\ match recorded_outcome (ca_state c) (key_of a) with
       | Some outcome => o.1 = outcome
       | None => exists m, o.1 = Err (CassetteMiss m)
       end) l (session c disk l).1.1.
Proof.
  induction l as [|a l IH]; intros c disk Hm; [constructor|]. cbn [session].
  set (s := complete _ _ _ _ _ _ _).
  assert (Hs : (sv_asked s = false
    /\ match recorded_outcome (ca_state c) (key_of a) with
       | Some outcome => sv_outcome s = outcome
       | None => exists m, sv_outcome s = Err (CassetteMiss m)
       end) /\ ca_state (sv_cassette s) = ca_state c /\ ca_mode (sv_cassette s) = ReplayMode).
  { subst s. unfold complete, key_of. rewrite Hm. cbn [is_replay].
    destruct (recorded_outcome _ _) as [o|] eqn:Eo; cbn [is_replay].
    - pose proof (note_state "hit" (call_key surface (ak_call a)) c disk (ak_io a)) as (N1 & N2 & N3 & N4).
      destruct (note _ _ _ _ _ _). cbn in *. rewrite N3. auto.
    - pose proof (note_state "miss" (call_key surface (ak_call a)) c disk (ak_io a)) as (N1 & N2 & N3 & N4).
      destruct (note _ _ _ _ _ _). cbn [fst snd sv_asked sv_outcome sv_cassette] in *. rewrite N3. eauto. }
  destruct Hs as (Hs & Hst & Hmo). specialize (IH (sv_cassette s) (sv_disk s) Hmo).
  destruct (session (sv_cassette s) (sv_disk s) l) as [[outs c'] disk']. constructor; [exact Hs|].
  cbn [fst] in *. by rewrite Hst in IH.
Qed.

Lemma open_synced path mode disk io c disk' :
  cassette_open path mode disk io = Ok (c, disk') -> ca_mode c = mode /\ synced path c disk'.
Proof.
  unfold cassette_open. intros Hopen.
  apply bind_Ok in Hopen as (d & Hd & (disk1 & Hl & Hc)%bind_Ok). simplify_eq. split; [done|]. cbn.
  assert (Hf : dk_cassette disk' = dk_cassette disk).
  { destruct (is_replay mode); [|by simplify_eq]. unfold prove_ledger in Hl. repeat case_match; by simplify_eq. }
  unfold synced. rewrite Hf. destruct (dk_cassette disk) as [raw|].
  - destruct (oi_read io); [done|]. cbn. eauto.
  - destruct (is_replay mode); [done|]. by simplify_eq.
Qed.

Lemma open_replay path disk raw d :
  dk_cassette disk = Some raw -> load_document path raw = Ok d ->
  cassette_open path ReplayMode disk open_ok
  = Ok (mkCassette path ReplayMode d (mkTally 0 0), mkDisk (Some raw) (Some (default "" (dk_ledger disk)))).
Proof.
  intros Hf Hl. unfold cassette_open. rewrite Hf. cbn [oi_read open_ok]. rewrite Hl. cbn.
  unfold prove_ledger. cbn. rewrite Hf. by destruct (non_empty_parent _).
Qed.

(** Once a call's outcome is kept, the cassette answers it, and with it. *)
Lemma session_keeps l : forall c disk i a o,
  l !! i = Some a -> (session c disk l).1.1 !! i = Some o -> kept o.1 <> None ->
  recorded_outcome (ca_state (session c disk l).1.2) (key_of a) = Some o.1.
Proof.
  induction l as [|b l IH]; intros c disk i a o Ha Ho Hk; [done|]. cbn [session] in *.
  pose proof (complete_spec c disk (ak_io b) (ak_call b) (ak_live b)) as (C1 & C2 & C3).
  set (s := complete _ _ _ _ _ _ _) in *.
  pose proof (session_spec l (sv_cassette s) (sv_disk s)) as Hs.
  specialize (IH (sv_cassette s) (sv_disk s)).
  destruct (session (sv_cassette s) (sv_disk s) l) as [[outs c'] disk']. cbn [fst snd] in *.
  destruct Hs as (_ & _ & I2 & _). destruct i as [|i]; cbn in Ha, Ho; [|by apply (IH i)].
  simplify_eq. rewrite I2, C2. cbn [fst] in *. unfold key_of. rewrite String.eqb_refl.
  destruct (recorded_outcome (ca_state c) _) as [o|] eqn:Eo.
  - subst s. unfold complete. rewrite Eo. by destruct (note _ _ _ _ _ _).
  - revert Hk. unfold kept. destruct (sv_outcome s) as [|e]; [done|]. by destruct (recordable_rejection e).
Qed.

(** C30: Whatever was recorded is replayed, from the file alone: after any recording session
    (interrupted, resumed, with failing writes or a failing model), a replay of any calls
    in any order asks the model nothing, answers a call with the first outcome that was
    kept for it and every other call with a miss; and a session all of whose outcomes were
    kept is repeated exactly. *)
Theorem replay_repeats_the_recording path disk0 io0 c0 disk1 steps replays :
  cassette_open path RecordMode disk0 io0 = Ok (c0, disk1) ->
  let '(outs, _, disk2) := session c0 disk1 steps in
  is_Some (dk_cassette disk2) ->
  exists c2 disk3, cassette_open path ReplayMode disk2 open_ok = Ok (c2, disk3)
  /\ Forall2 (fun a o => o.2 = false
       /\ match recorded_outcome (ca_state c0) (key_of a), learned (key_of a) steps outs with
          | Some outcome, _ | None, Some outcome => o.1 = outcome
          | None, None => exists m, o.1 = Err (CassetteMiss m)
          end) replays (session c2 disk3 replays).1.1
  /\ (Forall (fun o => kept o.1 <> None) outs -> map key_of replays = map key_of steps ->
      map fst (session c2 disk3 replays).1.1 = map fst outs).
Proof.
  intros [Hm Hsync]%open_synced. pose proof (session_spec steps c0 disk1) as Hs.
  pose proof (session_keeps steps c0 disk1) as Hkeep.
  destruct (session c0 disk1 steps) as [[outs c1] disk2]. destruct Hs as (Hlen & Hm1 & Hrec & Hsync1).
  cbn [fst snd] in Hkeep. intros [raw Hraw]. specialize (Hsync1 path Hsync). unfold synced in Hsync1.
  rewrite Hraw in Hsync1. destruct Hsync1 as (d & Hl & Hd).
  eexists _, _. split; [by apply open_replay|].
  match goal with |- context [session ?c ?k replays] => pose proof (replay_spec replays c k eq_refl) as Hr end.
  split.
  - eapply Forall2_impl; [exact Hr|]. cbn [ca_state]. intros a o. rewrite Hd, Hrec.
    by destruct (recorded_outcome (ca_state c0) (key_of a)), (learned (key_of a) steps outs).
  - intros Hall Hkeys. apply list_eq. intros i. rewrite !list_lookup_fmap.
    pose proof (Forall2_length _ _ _ Hr) as Hlr. pose proof (f_equal length Hkeys) as Hlk. rewrite !length_map in Hlk.
    destruct (replays !! i) as [b|] eqn:Eb.
    + destruct (Forall2_lookup_l _ _ _ _ _ Hr Eb) as (p & Hp & _ & Hpm). rewrite Hp. cbn [ca_state] in Hpm.
      assert (Hi : i < length steps) by (apply lookup_lt_Some in Eb; lia).
      destruct (lookup_lt_is_Some_2 _ _ Hi) as [a Ha].
      destruct (lookup_lt_is_Some_2 outs i) as [o Ho]; [by rewrite Hlen|].
      assert (Hk : key_of b = key_of a).
      { pose proof (f_equal (fun l => l !! i) Hkeys) as Hki. cbn in Hki. rewrite !list_lookup_fmap, Eb, Ha in Hki. by injection Hki. }
      rewrite Hd, Hk, (Hkeep i a o Ha Ho) in Hpm by (by apply (Forall_lookup_1 _ _ _ _ Hall Ho)).
      rewrite Ho. cbn. by rewrite Hpm.
    + apply lookup_ge_None in Eb. rewrite !lookup_ge_None_2 by lia. done.
Qed.

(** *** The ledger *)

Definition tally_plus (a b : Tally) : Tally := mkTally (hits a + hits b) (misses a + misses b).
Definition tally_of (outcome : string) : Tally := add_outcome (Some outcome) (mkTally 0 0).

Lemma tally_lines_app path a b t :
  tally_lines path (a ++ b) t = (u ← tally_lines path a t; tally_lines path b u).
Proof.
  revert t. induction a as [|x a IH]; intros t; [done|]. cbn [app tally_lines].
  destruct (is_empty _); [apply IH|]. destruct (line_from_str x); [apply IH|done].
Qed.

(** What the ledger on the disk adds up to. *)
Definition ledger_reads_as (path : string) (disk : Disk) (t : Tally) : Prop :=
  line_ended (default "" (dk_ledger disk)) = true
  /\ tally_lines path (lines (default "" (dk_ledger disk))) (mkTally 0 0) = Ok t.

Lemma add_outcome_plus o t : o = "hit" \/ o = "miss" -> add_outcome (Some o) t = tally_plus t (tally_of o).
Proof. intros [->| ->]; unfold tally_plus, tally_of; cbn; f_equal; lia. Qed.

Lemma note_counts path outcome key c disk io t :
  outcome = "hit" \/ outcome = "miss" -> ca_mode c = ReplayMode -> ci_append io = None ->
  ledger_reads_as path disk t ->
  let '(c', disk') := note outcome surface key c disk io in
  ca_tally c' = tally_plus (ca_tally c) (tally_of outcome)
  /\ ledger_reads_as path disk' (tally_plus t (tally_of outcome)).
Proof.
  intros Ho Hm Hio [He Ht]. unfold note. set (L := default "" (dk_ledger disk)) in *. cbn [ca_mode]. rewrite Hm, Hio. cbn [is_replay negb].
  split; [by apply add_outcome_plus|].
  destruct (ledger_reads outcome surface key Ho) as (Hl & Hb & v & Hv & Hget).
  unfold ledger_reads_as. cbn [dk_ledger default]. split.
  - unfold line_ended. apply orb_true_iff. right. apply ends_with_spec. rewrite <-str_app_assoc. eauto.
  - unfold default; cbv beta delta [id]. rewrite lines_app by done.
    rewrite tally_lines_app, Ht. cbn [mbind result_bind].
    rewrite lines_cons by done. cbn [tally_lines]. rewrite Hb, Hv, Hget. cbn -[add_outcome].
    by rewrite add_outcome_plus.
Qed.

Lemma complete_counts path c disk io call live t :
  ca_mode c = ReplayMode -> ci_append io = None -> ledger_reads_as path disk t ->
  exists o, (o = "hit" \/ o = "miss") /\
  let s := complete debug_str surface c disk io call live in
  ca_mode (sv_cassette s) = ReplayMode
  /\ ca_tally (sv_cassette s) = tally_plus (ca_tally c) (tally_of o)
  /\ ledger_reads_as path (sv_disk s) (tally_plus t (tally_of o)).
Proof.
  intros Hm Hio Ht. cbv zeta. unfold complete. rewrite Hm. cbn [is_replay].
  destruct (recorded_outcome _ _) as [o|]; [exists "hit"|exists "miss"];
    (split; [by auto|]);
    match goal with |- context [note ?o surface ?k c disk io] =>
      pose proof (note_state o k c disk io) as (_ & _ & N3 & _);
      pose proof (note_counts path o k c disk io t) as N
    end;
    destruct (note _ _ _ _ _ _) as [c' disk']; cbn [fst snd sv_cassette sv_disk] in *;
    (split; [by rewrite N3|]); apply N; auto.
Qed.

(** Every call of a replay is in its tally and, unless the disk failed, in the ledger: what
    a later process reads there is what was there before and this replay's own count. *)
Theorem ledger_counts_the_replay path replays : forall c disk t,
  ca_mode c = ReplayMode -> Forall (fun a => ci_append (ak_io a) = None) replays -> ledger_reads_as path disk t ->
  let '(_, c', disk') := session c disk replays in
  exists n, ca_tally c' = tally_plus (ca_tally c) n
    /\ (hits n + misses n)%N = N.of_nat (length replays)
    /\ ledger_reads_as path disk' (tally_plus t n).
Proof.
  induction replays as [|a l IH]; intros c disk t Hm Hio Ht.
  { exists (mkTally 0 0). unfold tally_plus. cbn. rewrite !N.add_0_r. by destruct (ca_tally c), t. }
  apply Forall_cons in Hio as [Ha Hl]. cbn [session].
  destruct (complete_counts path c disk (ak_io a) (ak_call a) (ak_live a) t Hm Ha Ht) as (o & Ho & Hm' & Htal & Hled).
  set (s := complete _ _ _ _ _ _ _) in *. specialize (IH (sv_cassette s) (sv_disk s) _ Hm' Hl Hled).
  destruct (session (sv_cassette s) (sv_disk s) l) as [[outs c'] disk']. destruct IH as (n & In & Ic & Il).
  exists (tally_plus (tally_of o) n). rewrite In, Htal. split_and!.
  - unfold tally_plus. cbn. f_equal; lia.
  - unfold tally_plus. cbn [hits misses length]. rewrite Nat2N.inj_succ, <-Ic. destruct Ho as [->| ->]; cbn; lia.
  - match goal with |- ledger_reads_as _ _ ?x => match type of Il with ledger_reads_as _ _ ?y => replace x with y end end;
      [done|]. unfold tally_plus. cbn. f_equal; lia.
Qed.
End Sessions.

(** ** The diagnosis of a miss *)

Lemma position_ne_spec a : forall b n, position_ne a b = Some n ->
  take n a = take n b /\ exists x y, a !! n = Some x /\ b !! n = Some y /\ x <> y.
Proof.
  induction a as [|x a IH]; intros [|y b] n Hn; try discriminate Hn. cbn in Hn.
  destruct (String.eqb_spec x y) as [->|Hne]; [|simplify_eq; split; [done|]; cbn; eauto].
  destruct (position_ne a b) as [m|] eqn:Em; simplify_eq/=. destruct (IH b m Em) as [-> Hm]. eauto.
Qed.

Lemma max_opt_spec l n : max_opt l = Some n -> n ∈ l /\ forall m, m ∈ l -> m <= n.
Proof.
  destruct l as [|a l]; [done|]. cbn. intros [= <-]. revert a. induction l as [|b l IH]; intros a.
  { cbn. split; [left|]. intros m Hm%list_elem_of_singleton. lia. }
  cbn [fold_right]. destruct (IH a) as [I1 I2]. split.
  - destruct (Nat.max_spec b (fold_right Nat.max a l)) as [[_ ->]|[_ ->]]; [|right; left].
    apply elem_of_cons in I1 as [->|]; [left|by right; right].
  - intros m [->|[->|Hm]%elem_of_cons]%elem_of_cons; [|lia|].
    + specialize (I2 a). assert (a ∈ a :: l) by left. specialize (I2 H). lia.
    + assert (Hm' : m ∈ a :: l) by by right. specialize (I2 m Hm'). lia.
Qed.

(** What a diagnosed divergence means: a recorded call with the same prompt and tools
    agrees on the messages before it and not on it. *)
Lemma divergence_is_real `{CassetteEnv} `{Crypto} (l : list CallFingerprint) (want : CallFingerprint) n :
  max_opt (omap (fun f => first_divergent_message f want) l) = Some n ->
  exists f, f ∈ l /\ take n (fp_messages f) = take n (fp_messages want)
    /\ exists x y, fp_messages f !! n = Some x /\ fp_messages want !! n = Some y /\ x <> y.
Proof.
  intros [Hin _]%max_opt_spec. apply list_elem_of_omap in Hin as (f & Hf & Hn).
  exists f. split; [done|]. by apply position_ne_spec.
Qed.

(** ** A concrete cassette *)

#[export] Instance ContentBlock_eq_dec : EqDecision ContentBlock.
Proof. solve_decision. Defined.
#[export] Instance StopReason_eq_dec : EqDecision StopReason.
Proof. solve_decision. Defined.
#[export] Instance Completion_eq_dec : EqDecision Completion.
Proof. solve_decision. Defined.
#[export] Instance RecordedRejection_eq_dec : EqDecision RecordedRejection.
Proof. solve_decision. Defined.
#[export] Instance CallFingerprint_eq_dec : EqDecision CallFingerprint.
Proof. solve_decision. Defined.
#[export] Instance Entry_eq_dec : EqDecision Entry.
Proof. solve_decision. Defined.
#[export] Instance Meta_eq_dec : EqDecision Meta.
Proof. solve_decision. Defined.
#[export] Instance Document_eq_dec : EqDecision Document.
Proof. solve_decision. Defined.

Module CassetteSample.
#[local] Existing Instance Toy.crypto.

Definition text_of (b : json) : string := default "" ((jget "Text" b ≫= jget "text") ≫= as_str).
Definition texts (v : json) : string := String.concat "," (map text_of (default [] (jget "content" v ≫= as_array))).

(** A ledger line prints its outcome, a call the texts of its messages. *)
Definition display (v : json) : string :=
  match jget "outcome" v ≫= as_str with
  | Some o => if (o =? "hit")%string then "hit" else "miss"
  | None => String.concat ";" (map texts (default [] (jget "messages" v ≫= as_array)))
  end.

(** Documents print as their place in [docs]. *)
Definition env_of (d1 d2 : Document) : CassetteEnv := {|
  value_display := display; to_string := texts;
  line_from_str := fun s => Ok (JObj [("outcome", JStr s)]);
  document_from_str := fun s =>
    if starts_with "1" s then Ok d1 else if starts_with "2" s then Ok d2 else Err "expected value";
  version_from_str := fun s =>
    if starts_with "1" s then Ok (doc_version d1) else if starts_with "2" s then Ok (doc_version d2) else Err "expected value";
  to_string_pretty := fun d => if bool_decide (d = d1) then Ok "1" else if bool_decide (d = d2) then Ok "2" else Err "too large" |}.

Lemma laws_of d1 d2 : CassetteLaws (H := env_of d1 d2).
Proof.
  split.
  - intros d text Hp. cbn in Hp. repeat case_bool_decide; by simplify_eq.
  - intros outcome surface key [-> | ->]; (split_and!; [reflexivity..|eexists; split; reflexivity]).
Qed.

Definition asked (l : list string) : Call := mkCall "you plan" (map user_text l) [] 4096.
Definition answer : Completion := mkCompletion [TextBlock "done"] EndTurn.
Definition refused : ProviderError := Http 400 "tool_use_failed".

Section Documents.
#[local] Existing Instance env_of.
#[local] Instance blank : CassetteEnv := env_of fresh_document fresh_document.
Definition entry (c : Call) output rejection : Entry := mkEntry "m/x" output rejection (Some (fingerprint_of c)).
Definition add (d : Document) (c : Call) output rejection : Document :=
  inserted d (call_key "m/x" c) "m/x" (sha256_hex (call_system c)) (entry c output rejection).
Definition first_doc : Document := add fresh_document (asked ["update"]) None (rejection_of refused).
Definition second_doc : Document := add first_doc (asked ["update"; "correction"]) (Some answer) None.
(** Two intents, each recorded for its first turn. *)
Definition two_intents : Document :=
  add (add fresh_document (asked ["update"]) (Some answer) None) (asked ["reboot"]) (Some answer) None.
End Documents.

#[export] Instance env : CassetteEnv := env_of first_doc second_doc.
#[export] Instance laws : CassetteLaws := laws_of first_doc second_doc.

(** A rejected call, its corrected retry, a failing one, and the first one again. *)
Definition steps : list Asking := [
  mkAsking (asked ["update"]) (Err refused) call_ok;
  mkAsking (asked ["update"; "correction"]) (Ok answer) call_ok;
  mkAsking (asked ["reboot"]) (Err (Http 503 "busy")) call_ok;
  mkAsking (asked ["update"]) (Err (ProvRequest "reset")) call_ok].
Definition replays : list Asking := map (fun a => mkAsking (ak_call a) (Err (ProvRequest "offline")) call_ok) steps.
Definition blank_disk : Disk := mkDisk None None.
Definition opened : Cassette := mkCassette "c.json" RecordMode fresh_document (mkTally 0 0).
End CassetteSample.

Section CassetteSamples.
#[local] Existing Instances Toy.crypto CassetteSample.env CassetteSample.laws.

Example recorded_session :
  let '(outs, c, disk) := session id "m/x" CassetteSample.opened CassetteSample.blank_disk CassetteSample.steps in
  outs = [(Err CassetteSample.refused, true); (Ok CassetteSample.answer, true); (Err (Http 503 "busy"), true);
          (Err CassetteSample.refused, false)]
  /\ dk_cassette disk = Some ("2" ++ String LF "")%string.
Proof. vm_compute. split; reflexivity. Qed.

Lemma replay_repeats_the_recording_witness :
  exists c2 disk3,
    let '(outs, _, disk2) := session id "m/x" CassetteSample.opened CassetteSample.blank_disk CassetteSample.steps in
    cassette_open "c.json" ReplayMode disk2 open_ok = Ok (c2, disk3)
    /\ Forall2 (fun a o => o.2 = false
         /\ match recorded_outcome (ca_state CassetteSample.opened) (key_of "m/x" a),
                  learned "m/x" (key_of "m/x" a) CassetteSample.steps outs with
            | Some outcome, _ | None, Some outcome => o.1 = outcome
            | None, None => exists m, o.1 = Err (CassetteMiss m)
            end) CassetteSample.replays (session id "m/x" c2 disk3 CassetteSample.replays).1.1.
Proof.
  pose proof (replay_repeats_the_recording id "m/x" "c.json" CassetteSample.blank_disk open_ok CassetteSample.opened
    CassetteSample.blank_disk CassetteSample.steps CassetteSample.replays eq_refl) as T.
  destruct (session id "m/x" CassetteSample.opened CassetteSample.blank_disk CassetteSample.steps) as [[outs c] disk2] eqn:Es.
  assert (Hf : is_Some (dk_cassette disk2)).
  { replace disk2 with (session id "m/x" CassetteSample.opened CassetteSample.blank_disk CassetteSample.steps).2
      by (by rewrite Es). vm_compute. eauto. }
  destruct (T Hf) as (c2 & disk3 & H1 & H2 & _). exists c2, disk3. split; [exact H1|exact H2].
Defined.

(** A write that fails takes its entry back, and not what it added to the description of
    the file: the prompt of a call that was never recorded counts as known. *)
Lemma rollback_leaves_the_prompt :
  let fault := mkCallIo (Some (RenameTemp, "no space left on device")) None in
  let s := complete id "m/x" CassetteSample.opened CassetteSample.blank_disk fault (CassetteSample.asked ["update"])
             (Err CassetteSample.refused) in
  doc_entries (ca_state (sv_cassette s)) = ∅
  /\ prompt_is_unknown (ca_state CassetteSample.opened) (sha256_hex "you plan") = true
  /\ prompt_is_unknown (ca_state (sv_cassette s)) (sha256_hex "you plan") = false.
Proof. vm_compute. repeat split; reflexivity. Qed.

(** A recorded conversation that the call continues is no divergence, so it is dropped:
    beside another intent, a call whose first turn was recorded is reported as an intent
    that never was. *)
Lemma deepest_match_is_dropped :
  let c := mkCassette "c.json" ReplayMode CassetteSample.two_intents (mkTally 0 0) in
  let call := CassetteSample.asked ["update"; "a later turn"] in
  is_Some (recorded_outcome (ca_state c) (call_key "m/x" (CassetteSample.asked ["update"])))
  /\ starts_with "no recorded output for this intent" (diagnose_miss c "m/x" call) = true.
Proof. vm_compute. split; [eauto|reflexivity]. Qed.
End CassetteSamples.
