(* ===== verification/SafetyLog.v ===== *)
(** * The log of the safety fence

    crates/sysknife-brain/src/audit.rs and journal.rs: the line appended for every
    rejection, its timestamp, and the datagram sent to the journal. The file is an
    append-only text, the socket and its failures are effects; serde_json's printer is
    an argument. *)

From Stdlib Require Import Ascii String ZArith NArith Lia.
From stdpp Require Import base list gmap strings.
From S2P Require Import Prelude Program Json Config Framing TextFile.

(** ** Timestamps *)

Definition zero_padded (width : nat) (n : Z) : string :=
  let s := dec_of_N (Z.to_N n) in (string_of_list_ascii (repeat "0"%char (width - String.length s)) ++ s)%string.

(** The civil date of a day counted from 1970-01-01. *)
Definition civil_date (days : Z) : Z * Z * Z :=
  let z := (days + 719468)%Z in
  let era := Z.quot (if (0 <=? z)%Z then z else z - 146096) 146097 in
  let doe := (z - era * 146097)%Z in
  let yoe := ((doe - doe / 1460 + doe / 36524 - doe / 146096) / 365)%Z in
  let y := (yoe + era * 400)%Z in
  let doy := (doe - (365 * yoe + yoe / 4 - yoe / 100))%Z in
  let mp := ((5 * doy + 2) / 153)%Z in
  let d := (doy - (153 * mp + 2) / 5 + 1)%Z in
  let m := if (mp <? 10)%Z then (mp + 3)%Z else (mp - 9)%Z in
  let y := if (m <=? 2)%Z then (y + 1)%Z else y in
  (y, m, d).

Definition timestamp_text (date : Z * Z * Z) (time_of_day : Z) : string :=
  let '(y, m, d) := date in
  (zero_padded 4 y ++ "-" ++ zero_padded 2 m ++ "-" ++ zero_padded 2 d ++ "T"
   ++ zero_padded 2 (time_of_day / 3600) ++ ":" ++ zero_padded 2 (time_of_day mod 3600 / 60) ++ ":"
   ++ zero_padded 2 (time_of_day mod 60) ++ "Z")%string.

(** [t]: seconds from the epoch; a clock before it is recorded as the epoch. *)
Definition format_rfc3339 (t : Z) : string :=
  let secs := Z.max 0 t in
  timestamp_text (civil_date (secs / 86400)) (secs mod 86400).

(** ** The calendar *)

Definition leap_year (y : Z) : bool := ((y mod 4 =? 0) && (negb (y mod 100 =? 0) || (y mod 400 =? 0)))%Z.

Definition month_days (leap : bool) (m : Z) : Z :=
  if (m =? 2)%Z then if leap then 29 else 28
  else if (m =? 4)%Z || (m =? 6)%Z || (m =? 9)%Z || (m =? 11)%Z then 30 else 31.

(** The day after, within a year or past its end. *)
Definition next_in_year (leap : bool) (md : Z * Z) : option (Z * Z) :=
  let '(m, d) := md in
  if (d <? month_days leap m)%Z then Some (m, d + 1)%Z
  else if (m <? 12)%Z then Some (m + 1, 1)%Z
  else None.

Definition next_day (date : Z * Z * Z) : Z * Z * Z :=
  let '(y, m, d) := date in
  match next_in_year (leap_year y) (m, d) with
  | Some (m, d) => (y, m, d)
  | None => (y + 1, 1, 1)%Z
  end.

Definition calendar (days : nat) : Z * Z * Z := Nat.iter days next_day (1970, 1, 1)%Z.

(** *** The arithmetic of the code against it

    Years are counted from March: [start y] is the first day of year [y], [month_day] the
    month and day of a day of that year. *)

Definition start (y : Z) : Z := (365 * y + y / 4 - y / 100 + y / 400)%Z.
Definition year_of_era (doe : Z) : Z := ((doe - doe / 1460 + doe / 36524 - doe / 146096) / 365)%Z.
Definition march_year (z : Z) : Z := (year_of_era (z mod 146097) + z / 146097 * 400)%Z.
Definition month_day (doy : Z) : Z * Z :=
  let mp := ((5 * doy + 2) / 153)%Z in
  (if (mp <? 10)%Z then (mp + 3)%Z else (mp - 9)%Z, (doy - (153 * mp + 2) / 5 + 1)%Z).

Lemma year_of_era_spec doe : (0 <= doe < 146097)%Z ->
  (0 <= year_of_era doe < 400 /\ start (year_of_era doe) <= doe < start (year_of_era doe + 1))%Z.
Proof. intros Hd. unfold year_of_era, start. Z.div_mod_to_equations; lia. Qed.

Lemma start_period y k : start (y + k * 400) = (start y + k * 146097)%Z.
Proof.
  unfold start. replace (y + k * 400)%Z with (y + k * 100 * 4)%Z at 2 by lia.
  replace (y + k * 400)%Z with (y + k * 4 * 100)%Z at 2 by lia. rewrite !Z.div_add by lia. lia.
Qed.

Lemma start_length y : (start (y + 1) - start y = if leap_year (y + 1) then 366 else 365)%Z.
Proof.
  unfold start, leap_year.
  destruct (Z.eqb_spec ((y + 1) mod 4) 0); destruct (Z.eqb_spec ((y + 1) mod 100) 0);
    destruct (Z.eqb_spec ((y + 1) mod 400) 0); cbn [andb orb negb]; Z.div_mod_to_equations; lia.
Qed.

Lemma start_mono a b : (a <= b)%Z -> (start a <= start b)%Z.
Proof.
  intros Hab. pattern b. apply Zlt_lower_bound_ind with (z := a); [|done]. intros x IH Hx.
  destruct (Z.eq_dec x a) as [->|]; [lia|]. specialize (IH (x - 1)%Z ltac:(lia)).
  pose proof (start_length (x - 1)). rewrite Z.sub_add in H. destruct (leap_year x); lia.
Qed.

Lemma march_year_spec z : (start (march_year z) <= z < start (march_year z + 1))%Z.
Proof.
  unfold march_year. replace (year_of_era (z mod 146097) + z / 146097 * 400 + 1)%Z
    with (year_of_era (z mod 146097) + 1 + z / 146097 * 400)%Z by lia.
  rewrite !start_period. destruct (year_of_era_spec (z mod 146097)) as [_ H]; [by apply Z.mod_pos_bound|].
  pose proof (Z.div_mod z 146097 ltac:(lia)). lia.
Qed.

Lemma march_year_unique z y : (start y <= z < start (y + 1))%Z -> march_year z = y.
Proof.
  intros H. pose proof (march_year_spec z) as Hs.
  destruct (Z.lt_trichotomy (march_year z) y) as [Hl|[Hl|Hl]]; [exfalso|done|exfalso].
  - pose proof (start_mono (march_year z + 1) y ltac:(lia)). lia.
  - pose proof (start_mono (y + 1) (march_year z) ltac:(lia)). lia.
Qed.

(** A date from a day counted from 0000-03-01. *)
Definition march_date (z : Z) : Z * Z * Z :=
  let '(m, d) := month_day (z - start (march_year z)) in
  (if (m <=? 2)%Z then (march_year z + 1)%Z else march_year z, m, d).

Lemma civil_march days : (0 <= days)%Z -> civil_date days = march_date (days + 719468).
Proof.
  intros Hd. unfold civil_date, march_date. set (z := (days + 719468)%Z).
  destruct (Z.leb_spec 0 z); [|lia]. rewrite Z.quot_div_nonneg by lia.
  assert (Hm : (z - z / 146097 * 146097 = z mod 146097)%Z) by (rewrite Z.mod_eq; lia). rewrite Hm.
  fold (year_of_era (z mod 146097)). fold (march_year z).
  assert (Hy : (z mod 146097 - (365 * year_of_era (z mod 146097) + year_of_era (z mod 146097) / 4
                 - year_of_era (z mod 146097) / 100) = z - start (march_year z))%Z).
  { unfold march_year at 1. rewrite start_period. destruct (year_of_era_spec (z mod 146097)) as [Hr _]; [by apply Z.mod_pos_bound|].
    unfold start. rewrite (Z.div_small _ 400) by lia. rewrite <-Hm. lia. }
  rewrite Hy. reflexivity.
Qed.

(** A day of such a year and the next one. *)
Definition month_step (leap : bool) (doy : Z) : bool :=
  match next_in_year leap (month_day doy) with
  | Some md => bool_decide (md = month_day (doy + 1)) && eqb ((month_day doy).1 <=? 2)%Z (md.1 <=? 2)%Z
  | None => bool_decide (month_day (doy + 1) = (1, 1)%Z) && negb ((month_day doy).1 <=? 2)%Z
  end.

Lemma month_steps leap doy : (0 <= doy < 364)%Z \/ doy = 364%Z /\ leap = true -> month_step leap doy = true.
Proof.
  assert (A : forallb (fun n => month_step true (Z.of_nat n) && month_step false (Z.of_nat n)) (seq 0 364) = true)
    by (vm_compute; reflexivity).
  intros [Hd|[-> ->]]; [|vm_compute; reflexivity]. rewrite forallb_forall in A.
  specialize (A (Z.to_nat doy)). rewrite Z2Nat.id in A by lia.
  destruct (andb_prop _ _ (A ltac:(apply in_seq; lia))) as [A1 A2]. by destruct leap.
Qed.

Lemma march_step z : march_date (z + 1) = next_day (march_date z).
Proof.
  pose proof (march_year_spec z) as Hz. set (y := march_year z) in *. pose proof (start_length y) as Hlen.
  unfold march_date at 2. fold y. set (doy := (z - start y)%Z) in *.
  destruct (Z.lt_ge_cases (z + 1) (start (y + 1))) as [Hlt|Hge].
  - unfold march_date. rewrite (march_year_unique (z + 1) y) by lia.
    replace (z + 1 - start y)%Z with (doy + 1)%Z by lia.
    assert (Hs : forall leap, (doy < 364)%Z \/ leap = leap_year (y + 1) -> month_step leap doy = true).
    { intros leap Hl. apply month_steps. destruct (leap_year (y + 1)); destruct Hl; subst; lia || auto with lia. }
    destruct (month_day doy) as [m d] eqn:Em. unfold month_step in Hs. rewrite Em in Hs. cbn [fst] in Hs.
    destruct (Z.leb_spec m 2); cbn [next_day].
    + specialize (Hs (leap_year (y + 1)) (or_intror eq_refl)).
      destruct (next_in_year _ _) as [[m' d']|]; apply andb_prop in Hs as [H1 H2]; [|done].
      apply bool_decide_eq_true in H1. rewrite <-H1. cbn in H2. by destruct (m' <=? 2)%Z.
    + assert (Hd : (doy < 364)%Z).
      { destruct (Z.lt_ge_cases doy 364) as [|Hg]; [done|exfalso].
        assert (Hdoy : doy = 364%Z \/ doy = 365%Z) by (destruct (leap_year (y + 1)); lia).
        destruct Hdoy as [E|E]; rewrite E in Em; vm_compute in Em; injection Em; lia. }
      specialize (Hs (leap_year y) (or_introl Hd)).
      destruct (next_in_year _ _) as [[m' d']|]; apply andb_prop in Hs as [H1 H2]; apply bool_decide_eq_true in H1.
      * rewrite <-H1. cbn in H2. by destruct (m' <=? 2)%Z.
      * by rewrite H1.
  - assert (He : (z + 1 = start (y + 1))%Z) by lia. pose proof (start_length (y + 1)) as Hlen'.
    unfold march_date. rewrite (march_year_unique (z + 1) (y + 1)) by (destruct (leap_year (y + 1 + 1)); lia).
    rewrite He, Z.sub_diag. change (month_day 0) with (3, 1)%Z. cbn [Z.leb].
    assert (Hd : doy = if leap_year (y + 1) then 365%Z else 364%Z) by (destruct (leap_year (y + 1)); lia).
    rewrite Hd. destruct (leap_year (y + 1)) eqn:El.
    + change (month_day 365) with (2, 29)%Z. cbn. by rewrite El.
    + change (month_day 364) with (2, 28)%Z. cbn. by rewrite El.
Qed.

Lemma civil_date_calendar n : civil_date (Z.of_nat n) = calendar n.
Proof.
  induction n as [|n IH]; [reflexivity|]. change (calendar (S n)) with (next_day (calendar n)).
  rewrite <-IH, Nat2Z.inj_succ, !civil_march by lia. replace (Z.succ (Z.of_nat n) + 719468)%Z with (Z.of_nat n + 719468 + 1)%Z by lia.
  apply march_step.
Qed.

(** The date of a log entry is the calendar's: whatever the clock says, the arithmetic
    of [format_rfc3339] prints the day reached by counting days, months and leap years
    from 1970-01-01, and the time of that day. *)
Theorem timestamps_are_calendar_dates (t : Z) :
  let secs := Z.to_nat (Z.max 0 t) in
  format_rfc3339 t = timestamp_text (calendar (secs / 86400)) (Z.of_nat (secs mod 86400)).
Proof.
  cbv zeta. unfold format_rfc3339. rewrite <-civil_date_calendar, Nat2Z.inj_div, Nat2Z.inj_mod, Z2Nat.id by lia.
  reflexivity.
Qed.

(** ** The journal's datagram *)

(** [u64::to_le_bytes] *)
Definition u64_le_bytes (n : N) : bytes := to_le_bytes (n mod 4294967296) ++ to_le_bytes (n / 4294967296).

Definition journal_field (f : string * string) : bytes :=
  let '(key, value) := f in
  if str_has LF value then
    bytes_of key ++ [LF] ++ u64_le_bytes (N.of_nat (String.length value)) ++ bytes_of value ++ [LF]
  else bytes_of key ++ ["="%char] ++ bytes_of value ++ [LF].

Definition journal_message (fields : list (string * string)) : bytes := flat_map journal_field fields.

(** *** The protocol, read *)

Fixpoint cut_at (c : ascii) (l : bytes) : option (bytes * bytes) :=
  match l with
  | [] => None
  | x :: l' => if Ascii.eqb x c then Some ([], l') else '(a, b) ← cut_at c l'; Some (x :: a, b)
  end.

Definition u64_of_le_bytes (b : bytes) : N := (from_le_bytes (take 4 b) + 4294967296 * from_le_bytes (drop 4 b))%N.

(** One field: [KEY=value], or [KEY] and a length before the value. *)
Definition read_field (msg : bytes) : option ((bytes * bytes) * bytes) :=
  '(line, rest) ← cut_at LF msg;
  match cut_at "="%char line with
  | Some (key, value) => Some ((key, value), rest)
  | None =>
      if 8 <=? length rest then
        let n := N.to_nat (u64_of_le_bytes (take 8 rest)) in
        match drop n (drop 8 rest) with
        | c :: rest' => if Ascii.eqb c LF then Some ((line, take n (drop 8 rest)), rest') else None
        | [] => None
        end
      else None
  end.

Fixpoint read_fields (fuel : nat) (msg : bytes) : option (list (bytes * bytes)) :=
  match fuel, msg with
  | _, [] => Some []
  | O, _ => None
  | S fuel', _ => '(f, rest) ← read_field msg; fs ← read_fields fuel' rest; Some (f :: fs)
  end.

Definition as_bytes (f : string * string) : bytes * bytes := (bytes_of f.1, bytes_of f.2).

(** Keys as the journal asks for them: capitals, digits and underscores. *)
Definition plain_key (k : string) : bool := negb (str_has LF k) && negb (str_has "="%char k).

Lemma cut_at_app c a b : c ∉ a -> cut_at c (a ++ c :: b) = Some (a, b).
Proof.
  induction a as [|x a IH]; intros Hn; [cbn; by rewrite Ascii.eqb_refl|]. apply not_elem_of_cons in Hn as [Hx Hn].
  cbn. destruct (Ascii.eqb_spec x c) as [->|]; [done|]. by rewrite IH.
Qed.

Lemma cut_at_none c a : c ∉ a -> cut_at c a = None.
Proof.
  induction a as [|x a IH]; intros Hn; [done|]. apply not_elem_of_cons in Hn as [Hx Hn].
  cbn. destruct (Ascii.eqb_spec x c) as [->|]; [done|]. by rewrite IH.
Qed.

Lemma u64_le_roundtrip n : (n < 2 ^ 64)%N -> u64_of_le_bytes (u64_le_bytes n) = n.
Proof.
  intros Hn. unfold u64_of_le_bytes, u64_le_bytes.
  change (take 4 (to_le_bytes (n mod 4294967296) ++ to_le_bytes (n / 4294967296))) with (to_le_bytes (n mod 4294967296)).
  change (drop 4 (to_le_bytes (n mod 4294967296) ++ to_le_bytes (n / 4294967296))) with (to_le_bytes (n / 4294967296)).
  assert (H1 : (n mod 4294967296 < 4294967296)%N) by by apply N.mod_lt.
  assert (H2 : (n / 4294967296 < 4294967296)%N) by by apply N.Div0.div_lt_upper_bound.
  rewrite !from_to_le_bytes by (unfold U32_MAX; lia). pose proof (N.div_mod n 4294967296 ltac:(done)). lia.
Qed.

Lemma not_has c s : str_has c s = false -> c ∉ bytes_of s.
Proof. intros Hn Hin%str_has_spec. congruence. Qed.

Lemma read_journal_field f rest :
  plain_key f.1 = true -> (N.of_nat (String.length f.2) < 2 ^ 64)%N ->
  read_field (journal_field f ++ rest) = Some (as_bytes f, rest).
Proof.
  destruct f as [key value]. cbn [fst snd]. intros [Hl%negb_true_iff%not_has He%negb_true_iff%not_has]%andb_true_iff Hlen.
  unfold read_field, journal_field, as_bytes. cbn [fst snd]. destruct (str_has LF value) eqn:Hv.
  - rewrite <-app_assoc. cbn [app]. rewrite cut_at_app by done. cbn [mbind option_bind].
    rewrite cut_at_none by done. rewrite <-!app_assoc.
    set (body := bytes_of value ++ [LF] ++ rest). set (len := u64_le_bytes _).
    assert (Hlen8 : length len = 8) by done. rewrite length_app, Hlen8. cbn [Nat.leb Nat.add].
    rewrite <-Hlen8, take_app_length, drop_app_length. unfold len. rewrite u64_le_roundtrip, Nat2N.id by done.
    unfold body. rewrite <-length_bytes_of, drop_app_length, take_app_length. cbn. done.
  - rewrite <-!app_assoc. cbn [app]. rewrite app_comm_cons, app_assoc. cbn.
    rewrite cut_at_app.
    + cbn [mbind option_bind]. by rewrite cut_at_app.
    + apply not_has in Hv. rewrite elem_of_app, elem_of_cons. intros [?|[?|?]]; done.
Qed.

(** Whatever the text of a rejection holds, newlines and equal signs included, the
    journal reads from the datagram the fields that were sent: none is cut short and none
    is forged. *)
Theorem journal_reads_what_was_sent fields :
  Forall (fun f => plain_key f.1 = true /\ (N.of_nat (String.length f.2) < 2 ^ 64)%N) fields ->
  read_fields (length fields) (journal_message fields) = Some (map as_bytes fields).
Proof.
  induction 1 as [|f fields [Hk Hl] Hf IH]; [done|]. cbn [length journal_message flat_map map].
  pose proof (read_journal_field f (journal_message fields) Hk Hl) as Hr.
  cbn [read_fields]. fold (journal_message fields).
  destruct (journal_field f ++ journal_message fields) as [|c msg] eqn:E.
  - destruct f as [k v]. cbn in E. destruct (str_has LF v), (bytes_of k); discriminate E.
  - rewrite Hr. cbn [mbind option_bind]. by rewrite IH.
Qed.

(** ** Logging a rejection *)

Inductive LogEffect : Type -> Type :=
| CreateDirAll (dir : string) : LogEffect (result string ())
| AppendText (path text : string) : LogEffect (result string ())
| JournalExists : LogEffect bool
| SendDatagram (msg : bytes) : LogEffect (result string ())
| ErrorLine (line : string) : LogEffect ().

Definition safety_log_path (env : environ) : string :=
  let fallback := path_join (path_join (default "/tmp" (env !! "HOME")) ".local/share/sysknife") "safety-audit.jsonl" in
  match env !! "XDG_DATA_HOME" with
  | Some xdg => if is_empty xdg then fallback else path_join (path_join xdg "sysknife") "safety-audit.jsonl"
  | None => fallback
  end.

Definition audit_entry (timestamp intent reason raw_plan : string) : json :=
  JObj [("timestamp", JStr timestamp); ("event", JStr "safety_fence_rejection"); ("intent", JStr intent);
        ("reason", JStr reason); ("raw_plan", JStr raw_plan)].

Section Log.
(** serde_json's printer of a derived structure. *)
Variable to_string : json -> result string string.
Variable path : string.

Definition append_entry (entry : json) : prog LogEffect (result string ()) :=
  dir ← match path_parent path with Some parent => call (CreateDirAll parent) | None => Ret (Ok tt) end;
  match dir with
  | Err e => Ret (Err e)
  | Ok _ =>
      match to_string entry with
      | Err e => Ret (Err e)
      | Ok line => call (AppendText path (line ++ String LF ""))
      end
  end.

Definition try_send (fields : list (string * string)) : prog LogEffect (result string ()) :=
  present ← call JournalExists;
  if negb present then Ret (Ok tt) else call (SendDatagram (journal_message fields)).

Definition journal_send (fields : list (string * string)) : prog LogEffect () :=
  r ← try_send fields;
  match r with
  | Ok _ => Ret tt
  | Err e =>
      present ← call JournalExists;
      if (present : bool) then
        call (ErrorLine ("[sysknife-brain] journald send failed (socket present but write errored): " ++ e
                         ++ " — security events may not reach the journal"))
      else Ret tt
  end.

Definition rejection_fields (timestamp intent reason : string) : list (string * string) :=
  [("PRIORITY", "4"); ("SYSLOG_IDENTIFIER", "sysknife-brain");
   ("MESSAGE", "SysKnife safety fence rejection: " ++ reason); ("SYSKNIFE_EVENT", "safety_fence_rejection");
   ("SYSKNIFE_INTENT", intent); ("SYSKNIFE_REASON", reason); ("SYSKNIFE_TIMESTAMP", timestamp)]%string.

Definition write_failure_fields (e intent reason : string) : list (string * string) :=
  [("PRIORITY", "3"); ("SYSLOG_IDENTIFIER", "sysknife-brain");
   ("MESSAGE", "SysKnife audit JSONL write failed: " ++ e); ("SYSKNIFE_EVENT", "audit_write_failure");
   ("SYSKNIFE_INTENT", intent); ("SYSKNIFE_REASON", reason)]%string.

Definition log_rejection (now : Z) (intent reason raw_plan : string) : prog LogEffect () :=
  let timestamp := format_rfc3339 now in
  r ← append_entry (audit_entry timestamp intent reason raw_plan);
  _ ← match r with
      | Ok _ => Ret tt
      | Err e =>
          _ ← call (ErrorLine ("[SYSKNIFE AUDIT] failed to write safety audit log to " ++ path ++ ": " ++ e));
          journal_send (write_failure_fields e intent reason)
      end;
  journal_send (rejection_fields timestamp intent reason).

End Log.

(** A rejection is in the file or its loss is said on the terminal, whatever the disk and
    the journal do. *)
Theorem rejections_are_never_silent to_string path now intent reason raw_plan tr u :
  runs (log_rejection to_string path now intent reason raw_plan) tr u ->
  (exists line, to_string (audit_entry (format_rfc3339 now) intent reason raw_plan) = Ok line
     /\ mkEvent _ (AppendText path (line ++ String LF "")) (Ok tt) ∈ tr)
  \/ exists e, mkEvent _ (ErrorLine ("[SYSKNIFE AUDIT] failed to write safety audit log to " ++ path ++ ": " ++ e)%string) tt ∈ tr.
Proof.
  unfold log_rejection. intros Hr. rewrite runs_bind in Hr. destruct Hr as (t1 & t2 & r & -> & H1 & H2).
  destruct r as [u1|e].
  - left. unfold append_entry in H1. rewrite runs_bind in H1. destruct H1 as (t3 & t4 & dir & -> & _ & H4).
    destruct dir as [u2|e]; [|by apply runs_ret_iff in H4 as [_ ?]].
    destruct (to_string _) as [line|e]; [|by apply runs_ret_iff in H4 as [_ ?]].
    apply runs_inv in H4 as (x & tr' & -> & [-> <-]%runs_ret_iff). destruct u1. exists line. split; [done|].
    set_solver.
  - right. rewrite runs_bind in H2. destruct H2 as (t3 & t4 & u2 & -> & H3 & _). cbn in H3.
    apply runs_inv in H3 as ([] & tr' & -> & _). exists e. set_solver.
Qed.

(** A reason on two lines that imitates another field stays one field. *)
Example hostile_reason :
  let fields := rejection_fields "t" "plan" ("bad" ++ String LF "SYSKNIFE_EVENT=ok") in
  read_fields 7 (journal_message fields) = Some (map as_bytes fields).
Proof. vm_compute. reflexivity. Qed.

Lemma journal_reads_what_was_sent_witness :
  let fields := rejection_fields "t" "plan" ("bad" ++ String LF "SYSKNIFE_EVENT=ok") in
  read_fields (length fields) (journal_message fields) = Some (map as_bytes fields).
Proof.
  cbv zeta. apply journal_reads_what_was_sent.
  repeat (apply Forall_cons_2; [split; reflexivity|]). apply Forall_nil_2.
Defined.
