(* ===== verification/ErrorText.v ===== *)
(** * What a provider's error may say

    crates/sysknife-brain/src/providers/mod.rs: the classes of an HTTP status and
    [sanitize_error_msg], which cuts credentials out of an error's text before it is logged
    or returned. The text is its bytes; [None] is the panic of [replace_range] on a range
    that is not one (its other panic, a range that cuts a character, cannot be: the ranges
    end at ASCII patterns, at whitespace and at the end). *)

From Stdlib Require Import Ascii String NArith Lia.
From stdpp Require Import base list sets strings.
From S2P Require Import Prelude.

Inductive StatusClass : Type := StAuth | StForbidden | StRateLimit | StOther.

Definition classify_status (status : N) : StatusClass :=
  if (status =? 401)%N then StAuth
  else if (status =? 403)%N then StForbidden
  else if (status =? 429)%N then StRateLimit
  else StOther.

Definition KEY_PARAMS : list string := ["?key="; "?api_key="; "&key="; "&api_key="].
Definition HEADER_KEYWORDS : list string := ["bearer "; "x-api-key"].
Definition REDACTED_TEXT : bytes := bytes_of "[REDACTED]".

Definition starts (pat : bytes) (s : bytes) : bool := bool_decide (pat `prefix_of` s).

(** [str::find]: the first index from which [p] holds. *)
Fixpoint find_at (p : bytes -> bool) (s : bytes) : option nat :=
  if p s then Some 0 else match s with [] => None | _ :: s' => S <$> find_at p s' end.

Definition at_whitespace (s : bytes) : bool := existsb (fun w => starts (bytes_of w) s) whitespace_encodings.

(** The length of the separator the text starts with, if it starts with one. *)
Definition separator_len (s : bytes) : option nat :=
  match find (fun w => starts (bytes_of w) s) whitespace_encodings with
  | Some w => Some (String.length w)
  | None => match s with c :: _ => if one_of ":=" c then Some 1 else None | [] => None end
  end.

(** How far the separators go; [fuel] is the length of the text. *)
Fixpoint skip_separators (fuel : nat) (s : bytes) : nat :=
  match fuel with
  | O => 0
  | S fuel' => match separator_len s with Some n => n + skip_separators fuel' (drop n s) | None => 0 end
  end.

Abbreviation range := (nat * nat)%type.

(** The end of the word that starts at [i]. *)
Definition word_end (lower : bytes) (i : nat) : nat :=
  match find_at at_whitespace (drop i lower) with Some n => i + n | None => length lower end.

(** Where the value of a keyword that ends at [i] starts. *)
Definition value_start (lower : bytes) (i : nat) : nat :=
  i + skip_separators (length lower) (drop i lower).

(** Every match of [pattern] from [from] on, one after the other. *)
Fixpoint matches (fuel : nat) (pattern lower : bytes) (from : nat) : list nat :=
  match fuel with
  | O => []
  | S fuel' =>
      match find_at (starts pattern) (drop from lower) with
      | None => []
      | Some rel => from + rel :: matches fuel' pattern lower (from + rel + length pattern)
      end
  end.

Definition param_ranges (lower : bytes) (pattern : string) : list range :=
  map (fun i => (i + 1, word_end lower i)) (matches (S (length lower)) (bytes_of pattern) lower 0).

Definition header_ranges (lower : bytes) (keyword : string) : list range :=
  omap (fun i =>
    let a := value_start lower (i + String.length keyword) in
    let b := word_end lower a in
    if a <? b then Some (a, b) else None) (matches (S (length lower)) (bytes_of keyword) lower 0).

Definition ranges_of (lower : bytes) : list range :=
  flat_map (param_ranges lower) KEY_PARAMS ++ flat_map (header_ranges lower) HEADER_KEYWORDS.

(** [sort_by_key(|r| r.start)], which is stable. *)
Fixpoint insert_range (r : range) (l : list range) : list range :=
  match l with [] => [r] | x :: l' => if r.1 <=? x.1 then r :: l else x :: insert_range r l' end.
Definition sort_ranges (l : list range) : list range := fold_right insert_range [] l.

(** [dedup_by]: a range that reaches the next one swallows it. *)
Fixpoint merge_into (a : range) (l : list range) : list range :=
  match l with
  | [] => [a]
  | b :: l' => if b.1 <=? a.2 then merge_into (a.1, Nat.max a.2 b.2) l' else a :: merge_into b l'
  end.
Definition merge_ranges (l : list range) : list range :=
  match l with [] => [] | a :: l' => merge_into a l' end.

Definition replace_range (r : range) (s : bytes) : option bytes :=
  if (r.1 <=? r.2) && (r.2 <=? length s) then Some (take r.1 s ++ REDACTED_TEXT ++ drop r.2 s) else None.

Definition sanitize_error_msg (msg : string) : option string :=
  let ranges := ranges_of (bytes_of (to_lower msg)) in
  match ranges with
  | [] => Some msg
  | _ => string_of_list_ascii
         <$> fold_right (fun r acc => acc ≫= replace_range r) (Some (bytes_of msg)) (merge_ranges (sort_ranges ranges))
  end.

Definition LOG_PREVIEW_CHARS : nat := 200.

Example key_param : sanitize_error_msg "request to https://api.example.com/v1?key=sk-secret123 failed"
  = Some "request to https://api.example.com/v1?[REDACTED] failed".
Proof. vm_compute. reflexivity. Qed.
Example api_key_param : sanitize_error_msg "https://api.example.com/v1?model=gpt-4&API_KEY=sk-secret123"
  = Some "https://api.example.com/v1?model=gpt-4&[REDACTED]".
Proof. vm_compute. reflexivity. Qed.
Example two_headers : sanitize_error_msg "Authorization: Bearer abc x-api-key=def end"
  = Some "Authorization: Bearer [REDACTED] x-api-key=[REDACTED] end".
Proof. vm_compute. reflexivity. Qed.

(** The separators do not include the quotation mark: a header echoed as JSON with a space
    after its colon keeps its value, the mark and the colon are cut instead. *)
Lemma json_header_keeps_its_key :
  let quote := String (chr 34) "" in
  sanitize_error_msg ("{" ++ quote ++ "x-api-key" ++ quote ++ ": " ++ quote ++ "sk-secret" ++ quote ++ "}")%string
  = Some ("{" ++ quote ++ "x-api-key[REDACTED] " ++ quote ++ "sk-secret" ++ quote ++ "}")%string.
Proof. vm_compute. reflexivity. Qed.

(** ** Matches *)

Lemma starts_spec pat s : starts pat s = true <-> pat `prefix_of` s.
Proof. apply bool_decide_eq_true. Qed.

Lemma find_at_some p s n :
  find_at p s = Some n -> p (drop n s) = true /\ n <= length s /\ forall m, m < n -> p (drop m s) = false.
Proof.
  revert n. induction s as [|c s IH]; intros n; cbn [find_at].
  - destruct (p []) eqn:Hp; [|done]. intros [= <-]. split_and!; [done|lia|lia].
  - destruct (p (c :: s)) eqn:Hp.
    + intros [= <-]. split_and!; [done|lia|lia].
    + destruct (find_at p s) as [k|] eqn:Hk; [|done]. intros [= <-]. destruct (IH k eq_refl) as (I1 & I2 & I3).
      split_and!; [done|cbn; lia|]. intros [|m] Hm; [done|]. apply (I3 m). lia.
Qed.

Lemma find_at_none p s m : find_at p s = None -> p (drop m s) = false.
Proof.
  revert m. induction s as [|c s IH]; intros m; cbn [find_at].
  - rewrite drop_nil. by destruct (p []).
  - destruct (p (c :: s)) eqn:Hp; [done|]. destruct (find_at p s) eqn:Hk; [done|]. intros _.
    destruct m as [|m]; [done|]. by apply IH.
Qed.

(** No proper end of the pattern is its start, so matches do not overlap. *)
Definition no_border (pat : bytes) : bool :=
  forallb (fun k => negb (starts (drop k pat) pat)) (seq 1 (length pat - 1)).

Lemma matches_apart pat s i j :
  no_border pat = true -> pat `prefix_of` drop i s -> pat `prefix_of` drop j s -> i < j -> i + length pat <= j.
Proof.
  intros Hb Hi Hj Hlt. destruct (Nat.le_gt_cases (i + length pat) j) as [|Hc]; [done|exfalso].
  unfold no_border in Hb. rewrite forallb_forall in Hb. specialize (Hb (j - i)).
  assert (Hin : In (j - i) (seq 1 (length pat - 1))) by (apply in_seq; lia). specialize (Hb Hin).
  apply negb_true_iff in Hb. assert (Ht : starts (drop (j - i) pat) pat = true); [|congruence].
  apply starts_spec. destruct Hi as [u Hu]. destruct Hj as [v Hv].
  assert (E : drop j s = drop (j - i) pat ++ u).
  { replace j with (i + (j - i)) at 1 by lia. rewrite <-drop_drop, Hu. by rewrite drop_app_le by lia. }
  rewrite E in Hv. destruct (prefix_weak_total (drop (j - i) pat) pat (drop j s)) as [H|H].
  - exists u. by rewrite E.
  - exists v. by rewrite E, Hv.
  - done.
  - apply prefix_length in H. rewrite length_drop in H. lia.
Qed.

Lemma matches_complete fuel pat s from i :
  no_border pat = true -> pat <> [] -> length s < from + fuel -> from <= i ->
  i <= length s -> pat `prefix_of` drop i s -> i ∈ matches fuel pat s from.
Proof.
  intros Hb Hne. revert from. induction fuel as [|fuel IH]; intros from Hf Hle Hl Hp; [lia|]. cbn [matches].
  destruct (find_at _ _) as [rel|] eqn:Hfind.
  - destruct (find_at_some _ _ _ Hfind) as (F1 & F2 & F3). rewrite drop_drop in F1. apply starts_spec in F1.
    destruct (Nat.lt_trichotomy i (from + rel)) as [Hlt|[->|Hgt]]; [exfalso|left|right].
    + specialize (F3 (i - from) ltac:(lia)). rewrite drop_drop in F3. replace (from + (i - from)) with i in F3 by lia.
      apply starts_spec in Hp. congruence.
    + pose proof (matches_apart pat s _ _ Hb F1 Hp Hgt). destruct pat as [|c pat]; [done|]. cbn [length] in *.
      apply IH; [lia|lia|done|done].
  - exfalso. pose proof (find_at_none _ _ (i - from) Hfind) as F. rewrite drop_drop in F.
    replace (from + (i - from)) with i in F by lia. apply starts_spec in Hp. congruence.
Qed.

Lemma matches_sound fuel pat s from i : i ∈ matches fuel pat s from -> pat `prefix_of` drop i s.
Proof.
  revert from. induction fuel as [|fuel IH]; intros from; cbn [matches]; [by intros ?%not_elem_of_nil|].
  destruct (find_at _ _) as [rel|] eqn:Hfind; [|by intros ?%not_elem_of_nil].
  intros [->|Hin]%elem_of_cons; [|by eapply IH].
  destruct (find_at_some _ _ _ Hfind) as (F1 & _ & _). rewrite drop_drop in F1. by apply starts_spec.
Qed.

(** ** Ranges *)

Section Ranges.
Variable L : nat.

(** Ranges in order, apart, from [k] on and within the text. *)
Fixpoint chain (k : nat) (l : list range) : Prop :=
  match l with [] => k <= L | (a, b) :: l' => k <= a /\ a <= b /\ chain b l' end.

Definition inside (r : range) : Prop := r.1 <= r.2 /\ r.2 <= L.
Definition covers (m r : range) : Prop := m.1 <= r.1 /\ r.2 <= m.2.

Fixpoint ascending (k : nat) (l : list range) : Prop :=
  match l with [] => True | r :: l' => k <= r.1 /\ ascending r.1 l' end.

Lemma ascending_weaken k k' l : k' <= k -> ascending k l -> ascending k' l.
Proof. destruct l; [done|]. cbn. intros ? []. split; [lia|done]. Qed.

Lemma chain_weaken k k' l : k' <= k -> chain k l -> chain k' l.
Proof. destruct l as [|[a b] l]; cbn; [lia|]. intros ? (?&?&?). split_and!; [lia|done|done]. Qed.

Lemma insert_range_in r l x : x ∈ insert_range r l <-> x = r \/ x ∈ l.
Proof. induction l as [|y l IH]; cbn; [set_solver|]. destruct (_ <=? _); set_solver. Qed.

Lemma insert_range_ascending k r l : k <= r.1 -> ascending k l -> ascending k (insert_range r l).
Proof.
  revert k. induction l as [|y l IH]; intros k Hk Hl; [done|]. cbn. destruct Hl as [Hy Hl].
  destruct (Nat.leb_spec r.1 y.1); cbn; [done|]. split; [done|]. apply IH; [lia|done].
Qed.

Lemma sort_ranges_spec l : ascending 0 (sort_ranges l) /\ forall r, r ∈ sort_ranges l <-> r ∈ l.
Proof.
  induction l as [|r l [I1 I2]]; [by split|]. cbn [sort_ranges fold_right]. split.
  - apply insert_range_ascending; [lia|exact I1].
  - intros x. rewrite insert_range_in, elem_of_cons. by rewrite I2.
Qed.

Lemma merge_into_spec l : forall a,
  inside a -> ascending a.1 l -> (forall r, r ∈ l -> inside r) ->
  chain a.1 (merge_into a l) /\ forall r, r = a \/ r ∈ l -> exists m, m ∈ merge_into a l /\ covers m r.
Proof.
  induction l as [|b l IH]; intros [x y] [Ha1 Ha2] Hasc Hin; cbn [merge_into fst snd] in *.
  { split; [cbn; lia|]. intros r [->|[]%not_elem_of_nil]. exists (x, y). split; [left|split; cbn; lia]. }
  destruct Hasc as [Hb Hasc]. destruct (Hin b ltac:(left)) as [Hb1 Hb2].
  assert (Hin' : forall r, r ∈ l -> inside r) by (intros r Hr; apply Hin; by right).
  destruct (Nat.leb_spec b.1 y).
  - destruct (IH (x, Nat.max y b.2)) as [I1 I2]; [split; cbn; lia|by apply (ascending_weaken b.1)|done|].
    split; [exact I1|]. intros r Hr.
    assert (Hc : forall q, covers (x, Nat.max y b.2) q -> exists m, m ∈ merge_into (x, Nat.max y b.2) l /\ covers m q).
    { intros q [Hq1 Hq2]. destruct (I2 (x, Nat.max y b.2) (or_introl eq_refl)) as (m & Hm & [M1 M2]). exists m.
      split; [done|]. cbn in *. split; lia. }
    destruct Hr as [->|[->|Hr]%elem_of_cons]; [apply Hc; split; cbn; lia|apply Hc; split; cbn; lia|].
    apply I2. by right.
  - destruct (IH b) as [I1 I2]; [by split|done|done|]. split.
    + cbn. split_and!; [lia|lia|]. by apply (chain_weaken b.1); [lia|].
    + intros r [->|[->|Hr]%elem_of_cons].
      * exists (x, y). split; [left|split; cbn; lia].
      * destruct (I2 b (or_introl eq_refl)) as (m & Hm & Hc). exists m. split; [by right|done].
      * destruct (I2 r (or_intror Hr)) as (m & Hm & Hc). exists m. split; [by right|done].
Qed.

(** What is left of the text between the ranges. *)
Fixpoint segments (k : nat) (l : list range) : list range :=
  match l with [] => [(k, L)] | (a, b) :: l' => (k, a) :: segments b l' end.

Lemma chain_le k l m : chain k l -> m ∈ l -> k <= m.1 /\ m.1 <= m.2.
Proof.
  revert k. induction l as [|[a b] l IH]; intros k Hc; [by intros ?%not_elem_of_nil|].
  destruct Hc as (H1 & H2 & H3). intros [->|Hm]%elem_of_cons; [by cbn|].
  destruct (IH b H3 Hm). lia.
Qed.

Lemma segments_ge k l s : chain k l -> s ∈ segments k l -> k <= s.1.
Proof.
  revert k. induction l as [|[a b] l IH]; intros k Hc; cbn.
  - intros ->%list_elem_of_singleton. done.
  - destruct Hc as (H1 & H2 & H3). intros [->|Hs]%elem_of_cons; [done|]. specialize (IH b H3 Hs). lia.
Qed.

Lemma segments_apart k l s m : chain k l -> s ∈ segments k l -> m ∈ l -> s.2 <= m.1 \/ m.2 <= s.1.
Proof.
  revert k. induction l as [|[a b] l IH]; intros k Hc; [by intros _ ?%not_elem_of_nil|].
  destruct Hc as (H1 & H2 & H3). cbn [segments]. intros [->|Hs]%elem_of_cons [->|Hm]%elem_of_cons; cbn [fst snd].
  - by left.
  - left. destruct (chain_le b l m H3 Hm). lia.
  - right. by apply (segments_ge b l).
  - by apply (IH b).
Qed.
End Ranges.

(** ** The redacted text *)

Definition piece_of (s : bytes) (r : range) : bytes := take (r.2 - r.1) (drop r.1 s).

(** The pieces, with the mark between any two. *)
Fixpoint glue (l : list bytes) : bytes :=
  match l with [] => [] | [x] => x | x :: l' => x ++ REDACTED_TEXT ++ glue l' end.

Lemma glue_cons x l : l <> [] -> glue (x :: l) = x ++ REDACTED_TEXT ++ glue l.
Proof. by destruct l. Qed.

Lemma segments_cons L k l : segments L k l <> [].
Proof. by destruct l as [|[]]. Qed.

Lemma replace_all s l k : chain (length s) k l ->
  fold_right (fun r acc => acc ≫= replace_range r) (Some s) l
  = Some (take k s ++ glue (map (piece_of s) (segments (length s) k l))).
Proof.
  revert k. induction l as [|[a b] l IH]; intros k Hc.
  - cbn in *. unfold piece_of. cbn [fst snd]. rewrite (take_ge (drop k s)) by (rewrite length_drop; lia). by rewrite take_drop.
  - destruct Hc as (H1 & H2 & H3). cbn [fold_right]. rewrite (IH b H3). cbn [mbind option_bind].
    assert (Hb : b <= length s) by (clear -H3; revert b H3; induction l as [|[] l IH]; intros b H3; cbn in *; [done|]; destruct H3 as (?&?&H3); apply IH in H3; lia).
    unfold replace_range. cbn [fst snd]. set (t := glue _).
    rewrite (proj2 (Nat.leb_le a b)), (proj2 (Nat.leb_le b _)) by (rewrite ?length_app, ?length_take; lia). cbn [andb].
    f_equal. rewrite (take_app_le (take b s)) by (rewrite length_take; lia). rewrite take_take, Nat.min_l by lia.
    rewrite drop_app_ge by (rewrite length_take; lia). rewrite length_take, Nat.min_l, Nat.sub_diag by lia.
    cbn [segments map]. rewrite glue_cons by (intros E; apply fmap_nil_inv in E; by apply (segments_cons (length s) b l)).
    fold t. unfold piece_of at 1. cbn [fst snd]. rewrite drop_0, (app_assoc (take k s)), take_take_drop.
    by replace (k + (a - k)) with a by lia.
Qed.

(** ** Credentials *)

Definition lowered (msg : string) : bytes := bytes_of (to_lower msg).

(** A text, letter by letter but for the case of ASCII letters. *)
Definition in_any_case (name : string) (t : bytes) : Prop := map char_lower t = bytes_of name.

(** Unicode whitespace, in UTF-8. *)
Definition blank (w : bytes) : Prop := exists e, e ∈ whitespace_encodings /\ w = bytes_of e.

(** What may stand between a header's name and its value. *)
Inductive separators : bytes -> Prop :=
| sep_none : separators []
| sep_blank w l : blank w -> separators l -> separators (w ++ l)
| sep_colon l : separators l -> separators (":"%char :: l)
| sep_equals l : separators l -> separators ("="%char :: l).

(** No whitespace begins within [value], which [rest] follows. *)
Definition unbroken (value rest : bytes) : Prop :=
  forall u v w, value = u ++ v -> v <> [] -> blank w -> ~ w `prefix_of` v ++ rest.

(** The stretches of a message that hold a credential in one of the two forms: a key
    parameter of an address, name and value, and the value after a header's name and its
    separators, each as far as it goes unbroken. *)
Inductive credential (msg : string) : nat -> nat -> Prop :=
| cred_param pre name value rest full :
    full ∈ ["?key="; "?api_key="; "&key="; "&api_key="] -> in_any_case full name ->
    bytes_of msg = pre ++ name ++ value ++ rest -> unbroken value rest ->
    credential msg (length pre + 1) (length pre + length name + length value)
| cred_header pre name seps value rest full c value' :
    full ∈ ["bearer "; "x-api-key"] -> in_any_case full name -> separators seps ->
    bytes_of msg = pre ++ name ++ seps ++ value ++ rest -> unbroken value rest ->
    value = c :: value' -> c <> ":"%char -> c <> "="%char ->
    credential msg (length pre + length name + length seps) (length pre + length name + length seps + length value).

Lemma patterns_have_no_border : Forall (fun p => no_border (bytes_of p) = true /\ bytes_of p <> []) (KEY_PARAMS ++ HEADER_KEYWORDS).
Proof. repeat (apply Forall_cons_2; [split; [vm_compute; reflexivity|done]|]). apply Forall_nil_2. Qed.

Lemma prefix_drop_lt pat i (s : bytes) : pat <> [] -> pat `prefix_of` drop i s -> i < length s.
Proof.
  intros Hne Hp. apply prefix_length in Hp. rewrite length_drop in Hp. destruct pat; [done|]. cbn in Hp. lia.
Qed.

Lemma match_found lower pattern i :
  pattern ∈ KEY_PARAMS ++ HEADER_KEYWORDS -> bytes_of pattern `prefix_of` drop i lower ->
  i ∈ matches (S (length lower)) (bytes_of pattern) lower 0.
Proof.
  intros Hin Hp. pose proof patterns_have_no_border as Hb. rewrite Forall_forall in Hb. destruct (Hb _ Hin) as [H1 H2].
  pose proof (prefix_drop_lt _ _ _ H2 Hp). apply matches_complete; try done; lia.
Qed.

(** *** Whitespace, and what it does not share with the rest *)

Lemma lowered_map msg : lowered msg = map char_lower (bytes_of msg).
Proof. unfold lowered, to_lower, bytes_of. induction msg as [|c s IH]; [done|]. cbn. by f_equal. Qed.

(** Lowering a letter makes no byte of a blank and takes none away. *)
Definition caseless (b : ascii) : bool := negb (is_upper b || is_lower b).

Lemma lower_is b c : caseless b = true -> char_lower c = b <-> c = b.
Proof.
  intros Hb. split; [|intros ->; revert Hb; by destruct b as [[] [] [] [] [] [] [] []]].
  intros <-. revert Hb. by destruct c as [[] [] [] [] [] [] [] []].
Qed.

Lemma prefix_lowered w s : forallb caseless w = true -> w `prefix_of` map char_lower s <-> w `prefix_of` s.
Proof.
  revert s. induction w as [|b w IH]; intros s Hw; [split; intros _; apply prefix_nil|].
  cbn [forallb] in Hw. apply andb_true_iff in Hw as [Hb Hw].
  destruct s as [|c s]; [split; intros ?%prefix_nil_not; done|]. cbn [map].
  split; intros Hp; pose proof (prefix_cons_inv_1 _ _ _ _ Hp) as E; pose proof (prefix_cons_inv_2 _ _ _ _ Hp) as Hp'.
  - symmetry in E. apply (lower_is b c Hb) in E as ->. by apply prefix_cons, IH.
  - subst c. rewrite (proj2 (lower_is b b Hb) eq_refl). by apply prefix_cons, IH.
Qed.

Lemma blanks_checked : forallb (fun e => forallb caseless (bytes_of e)
    && forallb (fun e' => implb (starts (bytes_of e) (bytes_of e')) (String.eqb e e')) whitespace_encodings
    && match bytes_of e with c :: _ => negb (one_of ":=?&key_apibrx-" c) | [] => false end) whitespace_encodings = true.
Proof. vm_compute. reflexivity. Qed.

Lemma blank_spec e : e ∈ whitespace_encodings ->
  forallb caseless (bytes_of e) = true
  /\ (forall e', e' ∈ whitespace_encodings -> bytes_of e `prefix_of` bytes_of e' -> e = e')
  /\ exists c w, bytes_of e = c :: w /\ one_of ":=?&key_apibrx-" c = false.
Proof.
  intros Hin. pose proof blanks_checked as H. rewrite forallb_forall in H. apply list_elem_of_In in Hin.
  specialize (H e Hin). apply andb_true_iff in H as [[H1 H2]%andb_true_iff H3]. rewrite forallb_forall in H2.
  split_and!; [done| |destruct (bytes_of e) as [|c w]; [done|exists c, w; by apply negb_true_iff in H3]].
  intros e' Hin' Hp. apply list_elem_of_In in Hin'. specialize (H2 e' Hin'). apply starts_spec in Hp.
  rewrite Hp in H2. by apply String.eqb_eq.
Qed.

Lemma blank_not_name c s w : one_of ":=?&key_apibrx-" c = true -> blank w -> ~ w `prefix_of` c :: s.
Proof.
  intros Hc (e & He & ->) Hp. destruct (blank_spec e He) as (_ & _ & d & u & E & Hd). rewrite E in Hp.
  apply prefix_cons_inv_1 in Hp. congruence.
Qed.

Lemma at_whitespace_spec s : at_whitespace s = true <-> exists w, blank w /\ w `prefix_of` s.
Proof.
  unfold at_whitespace. rewrite existsb_exists. split.
  - intros (e & He & Hs). exists (bytes_of e). split; [|by apply starts_spec].
    exists e. split; [by apply list_elem_of_In|done].
  - intros (w & (e & He & ->) & Hp). exists e. split; [by apply list_elem_of_In|by apply starts_spec].
Qed.

(** A word without whitespace is within what the code takes for the word. *)
Lemma word_end_past lower i n :
  i + n <= length lower -> (forall m, m < n -> at_whitespace (drop (i + m) lower) = false) ->
  i + n <= word_end lower i.
Proof.
  intros Hl Hm. unfold word_end. destruct (find_at _ _) as [k|] eqn:Hf; [|done].
  destruct (find_at_some _ _ _ Hf) as (Hk & _ & _). rewrite drop_drop in Hk.
  destruct (Nat.le_gt_cases n k); [lia|]. rewrite Hm in Hk by done. done.
Qed.

Lemma unbroken_lowered value rest m :
  unbroken value rest -> m < length value -> at_whitespace (drop m (map char_lower (value ++ rest))) = false.
Proof.
  intros Hu Hm. apply not_true_iff_false. rewrite at_whitespace_spec. intros (w & Hw & Hp).
  rewrite skipn_map in Hp. destruct Hw as (e & He & ->). apply (proj1 (prefix_lowered _ _ (proj1 (blank_spec e He)))) in Hp.
  rewrite drop_app_le in Hp by lia.
  eapply (Hu (take m value) (drop m value)); [by rewrite take_drop| |by exists e|exact Hp].
  intros E. apply (f_equal length) in E. rewrite length_drop in E. cbn in E. lia.
Qed.

(** *** Separators *)

Lemma separator_blank w s : blank w -> separator_len (w ++ s) = Some (length w).
Proof.
  intros (e & He & ->). unfold separator_len. destruct (find _ _) as [e'|] eqn:Hf.
  - apply find_some in Hf as [Hin Hs]. apply list_elem_of_In in Hin. apply starts_spec in Hs.
    assert (Hpe : bytes_of e `prefix_of` bytes_of e ++ s) by (by exists s).
    destruct (prefix_weak_total _ _ _ Hpe Hs) as [H|H].
    + apply (blank_spec e He) in H as <-; [|done]. by rewrite length_bytes_of.
    + apply (blank_spec e' Hin) in H as ->; [|done]. by rewrite length_bytes_of.
  - exfalso. pose proof (find_none _ _ Hf e (proj1 (list_elem_of_In _ _) He)) as E. cbv beta in E.
    assert (starts (bytes_of e) (bytes_of e ++ s) = true) by (apply starts_spec; by exists s). congruence.
Qed.

Lemma separator_mark c s : c = ":"%char \/ c = "="%char -> separator_len (c :: s) = Some 1.
Proof.
  intros Hc. unfold separator_len. destruct (find _ _) as [e|] eqn:Hf.
  - exfalso. apply find_some in Hf as [Hin Hs]. apply starts_spec in Hs. apply list_elem_of_In in Hin.
    apply (blank_not_name c s (bytes_of e)); [by destruct Hc as [-> | ->]|by exists e|done].
  - by destruct Hc as [-> | ->].
Qed.

Lemma separator_no c s :
  at_whitespace (c :: s) = false -> c <> ":"%char -> c <> "="%char -> separator_len (c :: s) = None.
Proof.
  intros Hw H1 H2. unfold separator_len. destruct (find _ _) as [e|] eqn:Hf.
  - apply find_some in Hf as [Hin Hs]. exfalso. apply not_true_iff_false in Hw. apply Hw.
    apply existsb_exists. by exists e.
  - unfold one_of, str_has. cbn. destruct (Ascii.eqb_spec c ":"), (Ascii.eqb_spec c "="); subst; try done.
Qed.

Lemma separators_lowered l : separators l -> map char_lower l = l.
Proof.
  induction 1 as [|w l (e & He & ->) Hl IH|l Hl IH|l Hl IH]; [done| |by cbn; rewrite IH..].
  rewrite map_app, IH. f_equal. destruct (blank_spec e He) as (Hc & _). clear -Hc.
  induction (bytes_of e) as [|c w IH]; [done|]. cbn [forallb] in Hc. apply andb_true_iff in Hc as [H1 H2].
  cbn [map]. rewrite IH by done. f_equal. by apply lower_is.
Qed.

Lemma skip_separators_all l : separators l -> forall fuel tail,
  length l <= fuel -> separator_len tail = None -> skip_separators fuel (l ++ tail) = length l.
Proof.
  induction 1 as [|w l Hw Hl IH|l Hl IH|l Hl IH]; intros fuel tail Hf Ht.
  - cbn [app length]. destruct fuel; cbn [skip_separators]; [done|]. by rewrite Ht.
  - assert (Hne : 1 <= length w).
    { destruct Hw as (e & He & ->). destruct (blank_spec e He) as (_ & _ & c & u & -> & _). cbn. lia. }
    rewrite length_app in Hf |- *. destruct fuel as [|fuel]; [lia|]. cbn [skip_separators].
    rewrite <-app_assoc, (separator_blank _ _ Hw), drop_app_length. rewrite IH by (done || lia). done.
  - cbn [length app] in *. destruct fuel as [|fuel]; [lia|]. cbn [skip_separators].
    rewrite separator_mark by auto. rewrite skipn_cons, drop_0, IH by (done || lia). done.
  - cbn [length app] in *. destruct fuel as [|fuel]; [lia|]. cbn [skip_separators].
    rewrite separator_mark by auto. rewrite skipn_cons, drop_0, IH by (done || lia). done.
Qed.

(** *** Every credential is within one of the ranges *)

Lemma param_in_range lower pre name value rest full :
  full ∈ KEY_PARAMS -> name = bytes_of full -> lower = pre ++ name ++ value ++ rest ->
  (forall m, m < length value -> at_whitespace (drop m (value ++ rest)) = false) ->
  exists r, r ∈ ranges_of lower /\ covers r (length pre + 1, length pre + length name + length value).
Proof.
  intros Hin Hn Hl Hv. assert (Hd : drop (length pre) lower = name ++ value ++ rest) by (by rewrite Hl, drop_app_length).
  assert (Hp : bytes_of full `prefix_of` drop (length pre) lower) by (rewrite Hd, Hn; by exists (value ++ rest)).
  exists (length pre + 1, word_end lower (length pre)). split.
  - unfold ranges_of. rewrite elem_of_app, !list_elem_of_In, !in_flat_map. left. exists full.
    split; [by apply list_elem_of_In|]. apply list_elem_of_In. unfold param_ranges.
    apply list_elem_of_fmap. exists (length pre). split; [done|]. apply match_found; [|done]. apply elem_of_app. by left.
  - split; cbn [fst snd]; [done|]. rewrite <-Nat.add_assoc. apply word_end_past.
    { rewrite Hl, !length_app. lia. }
    intros m Hm. rewrite <-drop_drop, Hd. destruct (Nat.lt_ge_cases m (length name)) as [Hlt|Hge].
    + rewrite drop_app_le by lia.
      assert (Hname : forallb (fun c => one_of ":=?&key_apibrx-" c) name = true).
      { subst name. clear -Hin. unfold KEY_PARAMS in Hin.
        repeat (apply elem_of_cons in Hin as [->|Hin]; [vm_compute; reflexivity|]). by apply not_elem_of_nil in Hin. }
      destruct (drop m name) as [|c u] eqn:Ed; [apply (f_equal length) in Ed; rewrite length_drop in Ed; cbn in Ed; lia|].
      apply not_true_iff_false. rewrite at_whitespace_spec. intros (w & Hw & Hpre).
      eapply (blank_not_name c (u ++ value ++ rest) w); [|done|exact Hpre].
      rewrite forallb_forall in Hname. apply Hname, list_elem_of_In.
      rewrite <-(take_drop m name), Ed. apply elem_of_app. right. by left.
    + rewrite drop_app_ge by done. apply Hv. lia.
Qed.

Lemma header_in_range lower pre name seps value rest full c value' :
  full ∈ HEADER_KEYWORDS -> name = bytes_of full -> separators seps -> lower = pre ++ name ++ seps ++ value ++ rest ->
  (forall m, m < length value -> at_whitespace (drop m (value ++ rest)) = false) ->
  value = c :: value' -> c <> ":"%char -> c <> "="%char ->
  exists r, r ∈ ranges_of lower
    /\ covers r (length pre + length name + length seps, length pre + length name + length seps + length value).
Proof.
  intros Hin Hn Hsep Hl Hv Hval H1 H2.
  assert (Hlen : String.length full = length name) by (by rewrite Hn, length_bytes_of).
  assert (Hd : drop (length pre) lower = name ++ seps ++ value ++ rest) by (by rewrite Hl, drop_app_length).
  assert (Hd2 : drop (length pre + length name) lower = seps ++ value ++ rest) by (by rewrite <-drop_drop, Hd, drop_app_length).
  set (a := length pre + length name + length seps).
  assert (Hd3 : drop a lower = value ++ rest) by (unfold a; by rewrite <-drop_drop, Hd2, drop_app_length).
  assert (Hstart : value_start lower (length pre + String.length full) = a).
  { unfold value_start. rewrite Hlen, Hd2. unfold a. rewrite (skip_separators_all _ Hsep); [lia| |].
    - rewrite Hl, !length_app. lia.
    - rewrite Hval. cbn [app]. apply separator_no; [|done|done].
      specialize (Hv 0). rewrite Hval in Hv. apply Hv. cbn. lia. }
  assert (Hend : a + length value <= word_end lower a).
  { apply word_end_past; [unfold a; rewrite Hl, !length_app; lia|]. intros m Hm. rewrite <-drop_drop, Hd3. by apply Hv. }
  exists (a, word_end lower a). split; [|by split].
  unfold ranges_of. rewrite elem_of_app, !list_elem_of_In, !in_flat_map. right. exists full.
  split; [by apply list_elem_of_In|]. apply list_elem_of_In. unfold header_ranges.
  apply list_elem_of_omap. exists (length pre). split.
  - apply match_found; [apply elem_of_app; by right|]. rewrite Hd, Hn. by exists (seps ++ value ++ rest).
  - cbv zeta. rewrite Hstart. assert (Hlt : a < word_end lower a) by (rewrite Hval in Hend; cbn in Hend; lia).
    by rewrite (proj2 (Nat.ltb_lt _ _) Hlt).
Qed.

Lemma credential_ranged msg a b : credential msg a b -> exists r, r ∈ ranges_of (lowered msg) /\ covers r (a, b).
Proof.
  intros [pre name value rest full Hin Hn Hm Hu|pre name seps value rest full c value' Hin Hn Hs Hm Hu Hval H1 H2].
  - rewrite <-(length_map char_lower pre), <-(length_map char_lower name), <-(length_map char_lower value).
    eapply (param_in_range _ _ _ _ (map char_lower rest) full); [exact Hin|exact Hn|by rewrite lowered_map, Hm, !map_app|].
    intros m Hlt. rewrite <-map_app. apply unbroken_lowered; [done|by rewrite length_map in Hlt].
  - rewrite <-(length_map char_lower pre), <-(length_map char_lower name), <-(length_map char_lower value).
    eapply (header_in_range _ _ _ seps _ (map char_lower rest) full (char_lower c) (map char_lower value'));
      [exact Hin|exact Hn|done|by rewrite lowered_map, Hm, !map_app, (separators_lowered _ Hs)| |by rewrite Hval| |].
    + intros m Hlt. rewrite <-map_app. apply unbroken_lowered; [done|by rewrite length_map in Hlt].
    + intros E. by apply (lower_is ":"%char c eq_refl) in E.
    + intros E. by apply (lower_is "="%char c eq_refl) in E.
Qed.

Lemma word_end_bounds lower i : i <= length lower -> i <= word_end lower i <= length lower.
Proof.
  intros Hi. unfold word_end. destruct (find_at _ _) as [n|] eqn:Hf; [|lia].
  destruct (find_at_some _ _ _ Hf) as (_ & Hn & _). rewrite length_drop in Hn. lia.
Qed.

Lemma not_whitespace c s : c = "?"%char \/ c = "&"%char -> at_whitespace (c :: s) = false.
Proof.
  intros Hc. unfold at_whitespace. apply not_true_iff_false. intros Ht. apply existsb_exists in Ht as (w & Hw & Hs).
  apply starts_spec in Hs as [u Hu].
  assert (G : forallb (fun w => match bytes_of w with x :: _ => negb (Ascii.eqb x "?") && negb (Ascii.eqb x "&") | [] => false end)
                whitespace_encodings = true) by (vm_compute; reflexivity).
  rewrite forallb_forall in G. specialize (G w Hw). destruct (bytes_of w) as [|x w']; [done|].
  cbn in Hu. injection Hu as <- _. by destruct Hc as [-> | ->].
Qed.

Lemma param_range_inside lower pattern i :
  pattern ∈ KEY_PARAMS -> bytes_of pattern `prefix_of` drop i lower -> inside (length lower) (i + 1, word_end lower i).
Proof.
  intros Hin Hp.
  assert (Hc : exists c s, drop i lower = c :: s /\ (c = "?"%char \/ c = "&"%char)).
  { destruct Hp as [u Hu]. rewrite Hu. unfold KEY_PARAMS in Hin.
    repeat (apply elem_of_cons in Hin as [->|Hin]; [cbn; eauto|]). by apply not_elem_of_nil in Hin. }
  destruct Hc as (c & s & Hd & Hc). assert (Hlt : i < length lower).
  { pose proof (f_equal length Hd) as E. rewrite length_drop in E. cbn in E. lia. }
  split; cbn; [|apply (word_end_bounds lower i); lia]. unfold word_end. rewrite Hd. cbn [find_at].
  rewrite (not_whitespace c s Hc). destruct (find_at at_whitespace s) as [n|]; cbn; lia.
Qed.

Lemma ranges_inside lower r : r ∈ ranges_of lower -> inside (length lower) r.
Proof.
  unfold ranges_of. rewrite elem_of_app, !list_elem_of_In, !in_flat_map.
  intros [(pattern & Hin & Hr)|(keyword & Hin & Hr)]; apply list_elem_of_In in Hin, Hr.
  - unfold param_ranges in Hr. apply list_elem_of_fmap in Hr as (i & -> & Hi).
    apply (param_range_inside _ pattern); [done|]. by eapply matches_sound.
  - unfold header_ranges in Hr. apply list_elem_of_omap in Hr as (i & Hi & Hr). cbv zeta in Hr.
    destruct (Nat.ltb_spec (value_start lower (i + String.length keyword)) (word_end lower (value_start lower (i + String.length keyword))))
      as [Hlt|]; [|done]. injection Hr as <-. split; cbn; [lia|].
    unfold word_end in Hlt |- *. destruct (find_at _ _) as [n|] eqn:Hf; [|lia].
    destruct (find_at_some _ _ _ Hf) as (Hw & Hn & _). rewrite length_drop in Hn. lia.
Qed.

Lemma length_lowered msg : length (lowered msg) = length (bytes_of msg).
Proof. unfold lowered, to_lower. induction msg as [|c s IH]; [done|]. cbn. by rewrite IH. Qed.

(** The text is what is left between merged ranges that cover every range found. *)
Lemma redacted_text msg :
  exists l, chain (length (bytes_of msg)) 0 l
    /\ sanitize_error_msg msg = Some (string_of_list_ascii
         (glue (map (piece_of (bytes_of msg)) (segments (length (bytes_of msg)) 0 l))))
    /\ forall r, r ∈ ranges_of (lowered msg) -> exists m, m ∈ l /\ covers m r.
Proof.
  unfold sanitize_error_msg. fold (lowered msg). pose proof (ranges_inside (lowered msg)) as Hin.
  destruct (sort_ranges_spec (ranges_of (lowered msg))) as [Hasc Hperm].
  rewrite length_lowered in Hin. destruct (ranges_of (lowered msg)) as [|r0 rs].
  - exists []. split_and!; [cbn; lia| |by intros r ?%not_elem_of_nil].
    cbn. unfold piece_of. cbn [fst snd]. rewrite Nat.sub_0_r, drop_0, firstn_all. by rewrite string_of_list_ascii_of_string.
  - unfold merge_ranges. destruct (sort_ranges (r0 :: rs)) as [|a l] eqn:Es.
    { by specialize (proj2 (Hperm r0) ltac:(left)) as ?%not_elem_of_nil. }
    destruct Hasc as [_ Hasc].
    destruct (merge_into_spec (length (bytes_of msg)) l a) as [Hchain Hcov].
    { apply Hin, Hperm. left. } { done. } { intros r Hr. apply Hin, Hperm. by right. }
    apply (chain_weaken _ _ 0) in Hchain; [|lia]. exists (merge_into a l).
    rewrite (replace_all _ _ 0 Hchain). split_and!; [done|reflexivity|].
    intros r Hr. apply Hcov. apply Hperm in Hr. by apply elem_of_cons in Hr.
Qed.

(** A text in which none of the names occurs. *)
Definition nameless (msg : string) : Prop :=
  forall full pre name rest, full ∈ ["?key="; "?api_key="; "&key="; "&api_key="; "bearer "; "x-api-key"] ->
    in_any_case full name -> bytes_of msg <> pre ++ name ++ rest.

Lemma nameless_unranged msg : nameless msg -> ranges_of (lowered msg) = [].
Proof.
  intros Hno. assert (Hm : forall full, full ∈ KEY_PARAMS ++ HEADER_KEYWORDS ->
    matches (S (length (lowered msg))) (bytes_of full) (lowered msg) 0 = []).
  { intros full Hin. destruct (matches _ _ _ _) as [|i l] eqn:E; [done|exfalso].
    assert (Hi : i ∈ matches (S (length (lowered msg))) (bytes_of full) (lowered msg) 0) by (rewrite E; left).
    apply matches_sound in Hi as [u Hu]. rewrite lowered_map in Hu.
    apply (Hno full (take i (bytes_of msg)) (take (length (bytes_of full)) (drop i (bytes_of msg)))
             (drop (length (bytes_of full)) (drop i (bytes_of msg)))); [exact Hin| |by rewrite !take_drop].
    unfold in_any_case. rewrite <-firstn_map, <-skipn_map, Hu. by rewrite take_app_length. }
  unfold ranges_of, KEY_PARAMS, HEADER_KEYWORDS, param_ranges, header_ranges. cbn [flat_map].
  by rewrite !Hm by (apply (bool_decide_unpack _); vm_compute; exact I).
Qed.


Lemma unbroken_check value rest :
  forallb (fun m => negb (at_whitespace (drop m (value ++ rest)))) (seq 0 (length value)) = true -> unbroken value rest.
Proof.
  intros Hf u v w -> Hne Hw Hp. rewrite forallb_forall in Hf. specialize (Hf (length u)).
  rewrite <-app_assoc, drop_app_length in Hf.
  assert (Hb : at_whitespace (v ++ rest) = true) by (apply at_whitespace_spec; by exists w).
  rewrite Hb in Hf. cbn in Hf. assert (false = true); [|done]. apply Hf, in_seq.
  rewrite length_app. destruct v; [done|]. cbn. lia.
Qed.

Lemma nameless_check msg :
  forallb (fun full => match matches (S (length (lowered msg))) (bytes_of full) (lowered msg) 0 with [] => true | _ => false end)
    (KEY_PARAMS ++ HEADER_KEYWORDS) = true -> nameless msg.
Proof.
  intros Hf full pre name rest Hin Hn Hm. rewrite forallb_forall in Hf. apply list_elem_of_In in Hin as Hin'.
  specialize (Hf full Hin').
  assert (Hi : length pre ∈ matches (S (length (lowered msg))) (bytes_of full) (lowered msg) 0).
  { apply match_found; [exact Hin|]. rewrite lowered_map, Hm, !map_app, Hn.
    rewrite <-(length_map char_lower pre), drop_app_length. by eexists. }
  destruct (matches _ _ _ _); [by apply not_elem_of_nil in Hi|done].
Qed.


Lemma sanitized_some msg : is_Some (sanitize_error_msg msg).
Proof. destruct (redacted_text msg) as (l & _ & -> & _). eauto. Qed.
