(* ===== verification/Providers.v ===== *)
(** * Language model back ends

    crates/sysknife-brain/src/config.rs (which provider the environment chooses),
    providers/openai_adapter.rs and providers/rig_adapter.rs (the conversation as each
    library takes it, its reply and its errors read back), and [LlmPlanner::from_config] of
    planner.rs. The libraries and the network behind them are arguments: what a request is
    answered with. serde_json's reader and printer and the Unicode case tables are
    arguments too. *)

From Stdlib Require Import Ascii String NArith Lia.
From stdpp Require Import base list gmap strings.
From S2P Require Import Prelude Json Config PlanTools Planner Cassette ErrorText.

(** ** Configuration *)

Definition DEFAULT_ANTHROPIC_MODEL : string := "claude-sonnet-4-6".
Definition DEFAULT_ANTHROPIC_BASE_URL : string := "https://api.anthropic.com".
Definition DEFAULT_OLLAMA_MODEL : string := "qwen3:8b".
Definition DEFAULT_OLLAMA_BASE_URL : string := "http://localhost:11434".
Definition DEFAULT_OPENAI_MODEL : string := "gpt-4.1".
Definition DEFAULT_GEMINI_MODEL : string := "gemini-2.0-flash".
Definition DEFAULT_GROQ_MODEL : string := "openai/gpt-oss-120b".
Definition DEFAULT_DEEPSEEK_MODEL : string := "deepseek-chat".
Definition DEFAULT_MISTRAL_MODEL : string := "mistral-large-latest".
Definition DEFAULT_XAI_MODEL : string := "grok-3".
Definition DEFAULT_MAX_TURNS : N := 10.

Inductive ProviderConfig : Type :=
| Anthropic (api_key model base_url : string)
| Ollama (base_url model : string)
| OpenAI (api_key model : string)
| Gemini (api_key model : string)
| Groq (api_key model : string)
| DeepSeek (api_key model : string)
| Mistral (api_key model : string)
| XAI (api_key model : string).

Record BrainConfig : Type := mkBrainConfig {
  bc_provider : ProviderConfig; bc_max_turns : N; bc_provider_guessed : bool }.

Inductive ConfigError : Type :=
| MissingAnthropicKey
| MissingApiKey (env_var provider : string)
| UnknownProvider (name : string)
| InvalidMaxTurns (raw : string).

Definition show_config_error (e : ConfigError) : string :=
  match e with
  | MissingAnthropicKey => "ANTHROPIC_API_KEY is required when provider is 'anthropic' and must not be empty"
  | MissingApiKey v p => "API key environment variable '" ++ v ++ "' is required for provider '" ++ p ++ "' and must not be empty"
  | UnknownProvider p =>
      "unknown provider '" ++ p ++ "': expected one of: anthropic, ollama, openai, gemini, groq, deepseek, mistral, xai"
  | InvalidMaxTurns v => "SYSKNIFE_BRAIN_MAX_TURNS must be a positive integer (>= 1), got '" ++ v ++ "'"
  end%string.

(** [Debug for ProviderConfig]: the fields it writes. *)
Definition provider_debug_fields (c : ProviderConfig) : string * list (string * string) :=
  let redacted name model := (name, [("api_key", "[redacted]"); ("model", model)]) in
  match c with
  | Anthropic _ model base_url => ("Anthropic", [("api_key", "[redacted]"); ("model", model); ("base_url", base_url)])
  | Ollama base_url model => ("Ollama", [("base_url", base_url); ("model", model)])
  | OpenAI _ model => redacted "OpenAI" model
  | Gemini _ model => redacted "Gemini" model
  | Groq _ model => redacted "Groq" model
  | DeepSeek _ model => redacted "DeepSeek" model
  | Mistral _ model => redacted "Mistral" model
  | XAI _ model => redacted "xAI" model
  end.

Definition not_blank (v : string) : bool := negb (is_empty (str_trim v)).

Definition key_of_env (env : environ) (env_var : string) : option string :=
  k ← env !! env_var; if not_blank k then Some k else None.

Definition require_api_key (env : environ) (env_var provider : string) : result ConfigError string :=
  ok_or (MissingApiKey env_var provider) (key_of_env env env_var).

Definition max_turns_of (env : environ) : result ConfigError N :=
  match env !! "SYSKNIFE_BRAIN_MAX_TURNS" with
  | None => Ok DEFAULT_MAX_TURNS
  | Some raw =>
      match parse_u64 raw with
      | None => Err (InvalidMaxTurns raw)
      | Some parsed => if (parsed =? 0)%N then Err (InvalidMaxTurns raw) else Ok parsed
      end
  end.

Section FromEnv.
(** [str::to_lowercase] *)
Variable to_lowercase : string -> string.
Variable env : environ.

Definition model_or (model : string) : string := default model (env !! "SYSKNIFE_LLM_MODEL").

Definition provider_named (provider_name : string) : result ConfigError ProviderConfig :=
  let other := to_lowercase provider_name in
  let cloud env_var provider (make : string -> string -> ProviderConfig) model :=
    api_key ← require_api_key env env_var provider; Ok (make api_key (model_or model)) in
  if (other =? "anthropic")%string then
    api_key ← ok_or MissingAnthropicKey (key_of_env env "ANTHROPIC_API_KEY");
    Ok (Anthropic api_key (model_or DEFAULT_ANTHROPIC_MODEL)
          (default DEFAULT_ANTHROPIC_BASE_URL (env !! "SYSKNIFE_ANTHROPIC_URL")))
  else if (other =? "ollama")%string then
    Ok (Ollama (default DEFAULT_OLLAMA_BASE_URL (env !! "SYSKNIFE_OLLAMA_URL")) (model_or DEFAULT_OLLAMA_MODEL))
  else if (other =? "openai")%string then cloud "OPENAI_API_KEY" "openai" OpenAI DEFAULT_OPENAI_MODEL
  else if (other =? "gemini")%string then cloud "GEMINI_API_KEY" "gemini" Gemini DEFAULT_GEMINI_MODEL
  else if (other =? "groq")%string then cloud "GROQ_API_KEY" "groq" Groq DEFAULT_GROQ_MODEL
  else if (other =? "deepseek")%string then cloud "DEEPSEEK_API_KEY" "deepseek" DeepSeek DEFAULT_DEEPSEEK_MODEL
  else if (other =? "mistral")%string then cloud "MISTRAL_API_KEY" "mistral" Mistral DEFAULT_MISTRAL_MODEL
  else if (other =? "xai")%string then cloud "XAI_API_KEY" "xai" XAI DEFAULT_XAI_MODEL
  else Err (UnknownProvider other).

Definition brain_from_env : result ConfigError BrainConfig :=
  max_turns ← max_turns_of env;
  let anthropic_key_present := bool_decide (is_Some (key_of_env env "ANTHROPIC_API_KEY")) in
  let provider_name :=
    default (if anthropic_key_present then "anthropic" else "ollama") (env !! "SYSKNIFE_LLM_PROVIDER") in
  provider ← provider_named provider_name;
  Ok (mkBrainConfig provider max_turns
        (negb (bool_decide (is_Some (env !! "SYSKNIFE_LLM_PROVIDER"))) && negb anthropic_key_present)).
End FromEnv.

Definition provider_name (c : ProviderConfig) : string :=
  match c with
  | Anthropic _ _ _ => "anthropic" | Ollama _ _ => "ollama" | OpenAI _ _ => "openai" | Gemini _ _ => "gemini"
  | Groq _ _ => "groq" | DeepSeek _ _ => "deepseek" | Mistral _ _ => "mistral" | XAI _ _ => "xai"
  end.

Definition model_name (c : ProviderConfig) : string :=
  match c with
  | Anthropic _ model _ | Ollama _ model | OpenAI _ model | Gemini _ model | Groq _ model | DeepSeek _ model
  | Mistral _ model | XAI _ model => model
  end.

Definition base_url_label (c : ProviderConfig) : string :=
  match c with
  | Ollama base_url _ => base_url
  | Anthropic _ _ base_url => base_url
  | _ => "the " ++ provider_name c ++ " API"
  end.

Definition provider_guess_notice (c : BrainConfig) : option string :=
  if negb (bc_provider_guessed c) then None
  else Some ("no LLM provider configured, so falling back to " ++ provider_name (bc_provider c) ++ " at "
             ++ base_url_label (bc_provider c) ++ ". Install Ollama (https://ollama.com) and `ollama pull "
             ++ model_name (bc_provider c)
             ++ "`, or set one of ANTHROPIC_API_KEY / OPENAI_API_KEY / GEMINI_API_KEY, or pick one explicitly with SYSKNIFE_LLM_PROVIDER.")%string.

Definition ollama_defaults : BrainConfig :=
  mkBrainConfig (Ollama DEFAULT_OLLAMA_BASE_URL DEFAULT_OLLAMA_MODEL) DEFAULT_MAX_TURNS false.

(** *** Ollama's thinking mode *)

Definition OLLAMA_NUM_PREDICT : N := 4096.
Definition THINKING_MODEL_PREFIXES : list string := ["qwen3"; "qwq"; "deepseek-r"].

Definition resolve_ollama_think (to_lowercase : string -> string) (env : environ) (model : string) : bool :=
  let auto := existsb (fun p => starts_with p (to_lowercase model)) THINKING_MODEL_PREFIXES in
  match env !! "SYSKNIFE_OLLAMA_THINK" with
  | Some raw =>
      let v := to_lowercase (str_trim raw) in
      if (v =? "true")%string then true else if (v =? "false")%string then false else auto
  | None => auto
  end.

Definition ollama_params (think : bool) : json :=
  JObj ([("num_predict", JNum (NPos OLLAMA_NUM_PREDICT))] ++ if think then [("think", JBool true)] else []).

(** ** The conversation as async-openai takes it *)

Record OaiCall : Type := mkOaiCall { oc_id : string; oc_name : string; oc_arguments : string }.

Inductive OaiMessage : Type :=
| OaiSystem (content : string)
| OaiUser (content : string)
| OaiTool (content tool_call_id : string)
| OaiAssistant (content : option string) (tool_calls : option (list OaiCall)).

Record OaiTool_ : Type := mkOaiTool { ot_name : string; ot_description : string; ot_parameters : json }.

Definition is_tool_result (b : ContentBlock) : bool := match b with ToolResult _ _ _ _ => true | _ => false end.

Definition all_results (l : list ContentBlock) : bool :=
  negb (match l with [] => true | _ => false end) && forallb is_tool_result l.

Definition texts_of (l : list ContentBlock) : list string :=
  omap (fun b => match b with TextBlock t => Some t | _ => None end) l.

Definition result_text (content : string) (is_error : bool) : string :=
  if is_error then "[TOOL ERROR] " ++ content else content.

Definition non_empty_list {A} (l : list A) : option (list A) := match l with [] => None | _ => Some l end.

(** What an error of a library is: its [Display], and the status where the service
    answered with one. *)
Record SdkError : Type := mkSdkError { se_display : string; se_status : option N }.

Inductive FinishReason : Type := FrStop | FrLength | FrToolCalls | FrContentFilter | FrFunctionCall.
Inductive OaiReplyCall : Type := OaiFunction (c : OaiCall) | OaiCustom.
Record OaiChoice : Type := mkOaiChoice {
  ch_finish_reason : option FinishReason; ch_content : option string; ch_tool_calls : option (list OaiReplyCall) }.

(** *** Rig's types *)

Inductive RigUserContent : Type := RuText (text : string) | RuToolResult (id : string) (call_id : option string) (text : string).
Inductive RigAssistantContent : Type :=
| RaText (text : string)
| RaToolCall (id : string) (call_id : option string) (name : string) (arguments : json)
| RaReasoning
| RaImage.
Inductive RigMessage : Type :=
| RigSystem (content : string)
| RigUser (content : list RigUserContent)
| RigAssistant (content : list RigAssistantContent).

Section Adapters.
Variables (to_lowercase debug_str : string -> string).
Variable json_to_string : json -> result string string.
Variable json_from_str : string -> result string json.

(** *** Requests *)

Definition user_messages (l : list ContentBlock) : list OaiMessage :=
  if all_results l then
    omap (fun b => match b with
                   | ToolResult tool_use_id _ content is_error => Some (OaiTool (result_text content is_error) tool_use_id)
                   | _ => None
                   end) l
  else [OaiUser (join (String LF "") (texts_of l))].

(** The calls of an assistant's blocks, up to the first whose arguments cannot be printed. *)
Fixpoint assistant_calls (l : list ContentBlock) : result string (list OaiCall) :=
  match l with
  | [] => Ok []
  | ToolUse id _ name input :: l' =>
      match json_to_string input with
      | Err e => Err ("failed to serialize tool arguments for '" ++ name ++ "': " ++ e)%string
      | Ok arguments => calls ← assistant_calls l'; Ok (mkOaiCall id name arguments :: calls)
      end
  | _ :: l' => assistant_calls l'
  end.

Definition assistant_message (position : nat) (l : list ContentBlock) : result string OaiMessage :=
  tool_calls ← assistant_calls l;
  match texts_of l, tool_calls with
  | [], [] =>
      Err ("assistant message at history position " ++ dec_of_N (N.of_nat position)
           ++ " has no text and no tool calls — this indicates a conversation history bug")%string
  | texts, _ => Ok (OaiAssistant (join (String LF "") <$> non_empty_list texts) (non_empty_list tool_calls))
  end.

Fixpoint convert_messages (converted : list OaiMessage) (messages : list Message) : result string (list OaiMessage) :=
  match messages with
  | [] => Ok converted
  | m :: messages' =>
      match role m with
      | UserRole => convert_messages (converted ++ user_messages (content m)) messages'
      | AssistantRole =>
          a ← assistant_message (length converted) (content m);
          convert_messages (converted ++ [a]) messages'
      end
  end.

Definition to_openai_messages (system : string) (messages : list Message) : result string (list OaiMessage) :=
  convert_messages [OaiSystem system] messages.

Definition to_openai_tools (tools : list ToolDefinition) : list OaiTool_ :=
  map (fun t => mkOaiTool (td_name t) (td_description t) (td_input_schema t)) tools.

Record OaiRequest : Type := mkOaiRequest {
  rq_model : string; rq_messages : list OaiMessage; rq_max_completion_tokens : N; rq_tools : option (list OaiTool_) }.

(** *** Replies *)

Fixpoint reply_calls (l : list OaiReplyCall) : result ProviderError (list ContentBlock) :=
  match l with
  | [] => Ok []
  | OaiCustom :: l' => reply_calls l'
  | OaiFunction c :: l' =>
      match json_from_str (oc_arguments c) with
      | Err e => Err (ProvParse ("tool call '" ++ oc_name c ++ "' has invalid JSON arguments: " ++ e ++ " — raw: "
                                 ++ debug_str (oc_arguments c)))
      | Ok input => rest ← reply_calls l'; Ok (ToolUse (oc_id c) None (oc_name c) input :: rest)
      end
  end.

Definition from_openai_response (choices : list OaiChoice) : result ProviderError Completion :=
  match choices with
  | [] => Err (ProvParse "response contained no choices")
  | choice :: _ =>
      match ch_finish_reason choice with
      | Some FrContentFilter =>
          Err (ProvRequest ("OpenAI content filter blocked the response — "
                            ++ "the request was refused on content-policy grounds"))
      | reason =>
          let stop := match reason with Some FrToolCalls => StopToolUse | Some FrLength => MaxTokens | _ => EndTurn end in
          let text := match ch_content choice with Some t => if is_empty t then [] else [TextBlock t] | None => [] end in
          calls ← reply_calls (default [] (ch_tool_calls choice));
          match text ++ calls with
          | [] => Err (ProvParse "model response contained no text or tool calls")
          | blocks => Ok (mkCompletion blocks stop)
          end
      end
  end.

(** *** Errors; [None] is the panic of [sanitize_error_msg] *)

Definition OPENAI_AUTH_FAILURE : string := "OpenAI authentication failed — check OPENAI_API_KEY".
Definition AUTH_FAILURE_MSG : string := "provider authentication failed — check your API key".
Definition FORBIDDEN_MSG : string :=
  "provider refused the request (HTTP 403) — this is a rejected key, a blocked IP or region, or an account without access to that model; the provider's reason is in the log line above".

Definition error_of_status (auth : string) (status : N) (msg : string) : ProviderError :=
  match classify_status status with
  | StAuth => ProvAuth auth
  | StForbidden => ProvAuth FORBIDDEN_MSG
  | StRateLimit => ProvRateLimit msg
  | StOther => Http status msg
  end.

Definition map_openai_error (err : SdkError) : option ProviderError :=
  msg ← sanitize_error_msg (se_display err);
  Some match se_status err with
       | Some status => error_of_status OPENAI_AUTH_FAILURE status msg
       | None =>
           let lower := to_lowercase msg in
           if contains "401" msg || contains "authentication" lower || contains "api key" lower
              || contains "incorrect api key" lower then ProvAuth OPENAI_AUTH_FAILURE
           else if contains "429" msg || contains "rate limit" lower then ProvRateLimit msg
           else ProvRequest msg
       end.

Definition map_rig_error (err : SdkError) : option ProviderError :=
  msg ← sanitize_error_msg (se_display err);
  Some match se_status err with
       | Some status => error_of_status AUTH_FAILURE_MSG status msg
       | None =>
           let lower := to_lowercase msg in
           if contains "401" msg || contains "authentication" lower then ProvAuth AUTH_FAILURE_MSG
           else if contains "429" msg || contains "too many requests" lower || contains "rate limit" lower
                then ProvRateLimit msg
           else ProvRequest msg
       end.

(** [complete] of the adapter: [create] is what the service answers. *)
Definition openai_complete (model : string) (create : OaiRequest -> result SdkError (list OaiChoice)) (c : Call)
    : option (result ProviderError Completion) :=
  match to_openai_messages (call_system c) (call_messages c) with
  | Err e => Some (Err (ProvRequest e))
  | Ok messages =>
      match create (mkOaiRequest model messages (call_max_tokens c) (non_empty_list (to_openai_tools (call_tools c)))) with
      | Err e => Err <$> map_openai_error e
      | Ok choices => Some (from_openai_response choices)
      end
  end.

(** *** Rig *)

Definition rig_user (l : list ContentBlock) : option RigMessage :=
  if all_results l then
    RigUser <$> non_empty_list (omap (fun b => match b with
      | ToolResult tool_use_id call_id content is_error =>
          Some (RuToolResult tool_use_id (Some (default tool_use_id call_id)) (result_text content is_error))
      | _ => None
      end) l)
  else Some (RigUser [RuText (join (String LF "") (texts_of l))]).

Definition rig_assistant (l : list ContentBlock) : option RigMessage :=
  RigAssistant <$> non_empty_list (omap (fun b => match b with
    | TextBlock t => Some (RaText t)
    | ToolUse id call_id name input => Some (RaToolCall id (Some (default id call_id)) name input)
    | ToolResult _ _ _ _ => None
    end) l).

Definition to_rig_messages (system : string) (messages : list Message) : list RigMessage :=
  RigSystem system :: omap (fun m => match role m with
                                     | UserRole => rig_user (content m)
                                     | AssistantRole => rig_assistant (content m)
                                     end) messages.

Definition to_rig_tools (tools : list ToolDefinition) : list OaiTool_ :=
  map (fun t => mkOaiTool (td_name t) (td_description t) (td_input_schema t)) tools.

Definition rig_block (item : RigAssistantContent) : option ContentBlock :=
  match item with
  | RaText t => if is_empty t then None else Some (TextBlock t)
  | RaToolCall id call_id name arguments =>
      Some (ToolUse id (c ← call_id; if is_empty c then None else Some c) name arguments)
  | RaReasoning | RaImage => None
  end.

Definition from_rig_response (choice : list RigAssistantContent) : result ProviderError Completion :=
  let blocks := omap rig_block choice in
  let has_tool_calls := existsb (fun i => match i with RaToolCall _ _ _ _ => true | _ => false end) choice in
  match blocks, choice with
  | [], _ :: _ =>
      Err (ProvParse ("model response contained only unsupported content types (reasoning/image); "
                      ++ "no text or tool calls found"))
  | _, _ => Ok (mkCompletion blocks (if has_tool_calls then StopToolUse else EndTurn))
  end.

Record RigRequest : Type := mkRigRequest {
  rr_chat_history : list RigMessage; rr_tools : list OaiTool_; rr_max_tokens : N; rr_additional_params : option json }.

(** [stream]: opening it, the items up to the end or the first error, and the reply read. *)
Definition rig_complete (additional_params : option json)
    (stream : RigRequest -> result SdkError (list RigAssistantContent)) (c : Call)
    : option (result ProviderError Completion) :=
  match stream (mkRigRequest (to_rig_messages (call_system c) (call_messages c)) (to_rig_tools (call_tools c))
                  (call_max_tokens c) additional_params) with
  | Err e => Err <$> map_rig_error e
  | Ok choice => Some (from_rig_response choice)
  end.
End Adapters.

(** ** The planner of a configuration *)

Inductive Backend : Type :=
| RigBackend (c : ProviderConfig) (additional_params : option json)
| AsyncOpenAiBackend (api_key model : string).

Record BuiltPlanner : Type := mkBuilt {
  bp_backend : Backend; bp_cassette : option (Cassette * string); bp_planner : PlannerConfig;
  bp_rate_log : option string }.

Definition backend_of (to_lowercase : string -> string) (env : environ) (c : ProviderConfig) : Backend :=
  match c with
  | OpenAI api_key model => AsyncOpenAiBackend api_key model
  | Ollama _ model => RigBackend c (Some (ollama_params (resolve_ollama_think to_lowercase env model)))
  | _ => RigBackend c None
  end.

Definition rate_log_path (env : environ) : string :=
  let xdg := default "" (env !! "XDG_DATA_HOME") in
  let base := if is_empty xdg then path_join (default "/tmp" (env !! "HOME")) ".local/share" else xdg in
  path_join (path_join base "sysknife") "rate-limit.log".

(** [client_error]: why Rig's client could not be built; async-openai's always can. The
    outer [None] is the assertion of [LlmPlanner::new], or the panic of [config_dir]. *)
Definition from_config `{CassetteEnv} (to_lowercase debug_str : string -> string) (env : environ) (disk : Disk)
    (io : OpenIo) (client_error : option string) (config : BrainConfig) : option (result string BuiltPlanner) :=
  let surface := (provider_name (bc_provider config) ++ "/" ++ model_name (bc_provider config))%string in
  match from_env debug_str env disk io with
  | Err e => Some (Err e)
  | Ok cassette =>
      match backend_of to_lowercase env (bc_provider config), client_error with
      | RigBackend _ _, Some e =>
          Some (Err ("failed to initialize " ++ provider_name (bc_provider config) ++ " provider: " ++ e)%string)
      | backend, _ =>
          planner ← planner_new (N.to_nat (bc_max_turns config));
          prefs ← Config.prefs_path env;
          let recording := (fun c : Cassette * Disk => (c.1, surface)) <$> cassette in
          let built limited := mkBuilt backend recording
            (mkPlanner (max_turns planner) true (Some prefs) limited (distro_hint planner)) in
          match recording with
          | Some (c, _) => if is_replay (ca_mode c) then Some (Ok (built false None))
                           else Some (Ok (built true (Some (rate_log_path env))))
          | None => Some (Ok (built true (Some (rate_log_path env))))
          end
      end
  end.

(** ** What a configuration is good for *)

Lemma key_of_env_not_blank env v k : key_of_env env v = Some k -> not_blank k = true.
Proof. unfold key_of_env. destruct (env !! v) as [x|]; [|done]. cbn. by destruct (not_blank x) eqn:E; intros [= <-]. Qed.

Definition api_key_of (c : ProviderConfig) : option string :=
  match c with
  | Ollama _ _ => None
  | Anthropic k _ _ | OpenAI k _ | Gemini k _ | Groq k _ | DeepSeek k _ | Mistral k _ | XAI k _ => Some k
  end.

Lemma provider_named_key to_lowercase env name c k :
  provider_named to_lowercase env name = Ok c -> api_key_of c = Some k -> not_blank k = true.
Proof.
  unfold provider_named, require_api_key. intros Hp Hk.
  repeat match type of Hp with (if ?b then _ else _) = _ => destruct b end; try done;
    try (apply bind_Ok in Hp as (x & Hx & Hp); injection Hp as <-; cbn in Hk; injection Hk as <-;
         destruct (key_of_env _ _) eqn:E; [|done]; injection Hx as <-; by eapply key_of_env_not_blank).
  injection Hp as <-. done.
Qed.

(** A configuration that loads makes a planner; its key, if it has one, is not blank; and
    a provider that was guessed is the one that needs no key. *)
Theorem loaded_configuration_is_usable to_lowercase env c :
  to_lowercase "ollama" = "ollama" -> brain_from_env to_lowercase env = Ok c ->
  is_Some (planner_new (N.to_nat (bc_max_turns c)))
  /\ (forall k, api_key_of (bc_provider c) = Some k -> not_blank k = true)
  /\ (bc_provider_guessed c = true -> provider_name (bc_provider c) = "ollama").
Proof.
  intros Hlow H. unfold brain_from_env in H. apply bind_Ok in H as (n & Hn & H). cbv zeta in H.
  apply bind_Ok in H as (p & Hp & H). injection H as <-. cbn [bc_max_turns bc_provider bc_provider_guessed]. split_and!.
  - unfold planner_new. rewrite (proj2 (Nat.leb_le _ _)); [eauto|].
    unfold max_turns_of, DEFAULT_MAX_TURNS in Hn. destruct (env !! "SYSKNIFE_BRAIN_MAX_TURNS"); [|injection Hn as <-; lia].
    destruct (parse_u64 s); [|done]. destruct (N.eqb_spec n0 0); [done|]. injection Hn as <-. lia.
  - intros k. by eapply provider_named_key.
  - intros [H1 H2]%andb_true_iff. rewrite (proj1 (negb_true_iff _) H2) in Hp.
    destruct (env !! "SYSKNIFE_LLM_PROVIDER"); [done|]. cbn in Hp. unfold provider_named in Hp. rewrite Hlow in Hp.
    injection Hp as <-. done.
Qed.

(** The key is not in what [Debug] writes: configurations that differ in it look the same. *)
Lemma debug_hides_the_key c d :
  provider_name c = provider_name d -> model_name c = model_name d -> base_url_label c = base_url_label d ->
  provider_debug_fields c = provider_debug_fields d.
Proof. destruct c, d; intros [=] [=] [=]; by subst. Qed.

(** The notice tells the user to set one of three keys. Setting the second or third changes
    nothing: the provider is still guessed, and the same notice is printed. *)
Lemma following_the_notice_changes_nothing :
  let env : environ := {[ "OPENAI_API_KEY" := "sk-live" ]} in
  brain_from_env to_lower env = brain_from_env to_lower ∅
  /\ exists c notice, brain_from_env to_lower env = Ok c /\ provider_guess_notice c = Some notice
       /\ contains "OPENAI_API_KEY" notice = true.
Proof. cbv zeta. split; [vm_compute; reflexivity|]. eexists _, _. split_and!; vm_compute; reflexivity. Qed.

(** A transport error has no status, so its text is searched for one: a refused connection
    to a port whose digits contain 401 is reported as a rejected key, and not retried. *)
Lemma port_taken_for_a_status :
  let err := mkSdkError "error sending request for url (http://localhost:14010/api/chat): connection refused" None in
  map_rig_error to_lower err = Some (ProvAuth AUTH_FAILURE_MSG)
  /\ is_retryable (ProvAuth AUTH_FAILURE_MSG) = false.
Proof. vm_compute. split; reflexivity. Qed.

(** ** Errors *)

(** An error the service answered with keeps its status, whichever library carried it: a
    rejected key or request is not retried and repeats none of the provider's text, a 429
    is, and every other status is retried as [is_retryable] says of that status; and both
    adapters return an error for every error. *)
Theorem statuses_are_kept to_lowercase display status :
  exists e1 e2 msg,
    map_openai_error to_lowercase (mkSdkError display (Some status)) = Some e1
    /\ map_rig_error to_lowercase (mkSdkError display (Some status)) = Some e2
    /\ sanitize_error_msg display = Some msg
    /\ is_retryable e1 = is_retryable e2
    /\ is_invalid_tool_call e1 = is_invalid_tool_call e2
    /\ match status with
       | 401%N => e1 = ProvAuth OPENAI_AUTH_FAILURE /\ e2 = ProvAuth AUTH_FAILURE_MSG
       | 403%N => e1 = ProvAuth FORBIDDEN_MSG /\ e2 = e1
       | 429%N => e1 = ProvRateLimit msg /\ e2 = e1
       | _ => e1 = Http status msg /\ e2 = e1
       end.
Proof.
  destruct (sanitized_some display) as [msg Hm]. unfold map_openai_error, map_rig_error. cbn [se_display se_status].
  rewrite Hm. cbn [mbind option_bind]. eexists _, _, msg. split; [reflexivity|]. split; [reflexivity|]. split; [done|].
  unfold error_of_status, classify_status.
  destruct (N.eqb_spec status 401) as [->|H1]; [by split_and!|].
  destruct (N.eqb_spec status 403) as [->|H2]; [by split_and!|].
  destruct (N.eqb_spec status 429) as [->|H3]; [by split_and!|].
  split; [done|]. split; [done|]. repeat case_match; (congruence || by split).
Qed.

(** ** The conversation, whichever library carries it *)

(** What the service reads of a conversation; [id] names a call, [key] is what the
    service matches its answer by. The form of the arguments is the library's. *)
Inductive Turn (A : Type) : Type :=
| TurnUser (text : string)
| TurnSaid (text : string)
| TurnCall (id key name : string) (arguments : A)
| TurnAnswer (id key text : string)
| TurnOther.
Arguments TurnUser {A}. Arguments TurnSaid {A}. Arguments TurnCall {A}. Arguments TurnAnswer {A}. Arguments TurnOther {A}.

(** The turns of a message of the planner's, a block each. *)
Definition block_turn {A} (arg : json -> A) (key : string -> option string -> string) (r : Role) (b : ContentBlock)
    : option (Turn A) :=
  match r, b with
  | UserRole, TextBlock t => Some (TurnUser t)
  | UserRole, ToolResult id call_id content is_error =>
      Some (TurnAnswer id (key id call_id) ((if is_error then "[TOOL ERROR] " else "") ++ content))
  | AssistantRole, TextBlock t => Some (TurnSaid t)
  | AssistantRole, ToolUse id call_id name input => Some (TurnCall id (key id call_id) name (arg input))
  | _, _ => None
  end.
Definition message_turns {A} (arg : json -> A) key (m : Message) : list (Turn A) :=
  omap (block_turn arg key (role m)) (content m).

(** Several texts of one message as one, before the rest of it. *)
Definition said {A} (t : Turn A) : option string := match t with TurnSaid s => Some s | _ => None end.
Definition not_said {A} (t : Turn A) : option (Turn A) := match t with TurnSaid _ => None | _ => Some t end.
Definition gathered {A} (l : list (Turn A)) : list (Turn A) :=
  match omap said l with [] => [] | texts => [TurnSaid (join (String LF "") texts)] end ++ omap not_said l.

(** Chat Completions knows one identifier; Rig the service's own, where it gave one. *)
Definition chat_key (id : string) (call_id : option string) : string := id.
Definition rig_key (id : string) (call_id : option string) : string := default id call_id.

(** The turns of what each library is given. *)
Definition openai_turns (m : OaiMessage) : list (Turn string) :=
  match m with
  | OaiSystem _ => [TurnOther]
  | OaiUser t => [TurnUser t]
  | OaiTool content id => [TurnAnswer id id content]
  | OaiAssistant content calls =>
      match content with Some t => [TurnSaid t] | None => [] end
      ++ map (fun c => TurnCall (oc_id c) (oc_id c) (oc_name c) (oc_arguments c)) (default [] calls)
  end.

Definition rig_user_turn (u : RigUserContent) : Turn json :=
  match u with
  | RuText t => TurnUser t
  | RuToolResult id (Some key) t => TurnAnswer id key t
  | RuToolResult _ None _ => TurnOther
  end.
Definition rig_assistant_turn (a : RigAssistantContent) : Turn json :=
  match a with
  | RaText t => TurnSaid t
  | RaToolCall id (Some key) name args => TurnCall id key name args
  | _ => TurnOther
  end.
Definition rig_turns (m : RigMessage) : list (Turn json) :=
  match m with
  | RigSystem _ => [TurnOther]
  | RigUser l => map rig_user_turn l
  | RigAssistant l => map rig_assistant_turn l
  end.

(** The messages the planner makes: one text, tool results, or a reply with something in it. *)
Definition sendable (m : Message) : Prop :=
  match role m with
  | UserRole => (exists t, content m = [TextBlock t]) \/ all_results (content m) = true
  | AssistantRole => exists b, b ∈ content m /\ is_tool_result b = false
  end.

Section Turns.
Variable json_to_string : json -> result string string.
Hypothesis json_prints : forall v, exists s, json_to_string v = Ok s.

Definition printed (v : json) : string := match json_to_string v with Ok s => s | Err _ => "" end.
Local Notation chat_turns := (message_turns printed chat_key).
Local Notation rig_said := (message_turns id rig_key).

Lemma result_text_of content is_error :
  result_text content is_error = ((if is_error then "[TOOL ERROR] " else "") ++ content)%string.
Proof. by destruct is_error. Qed.

(** A user's answers, for each library. *)
Lemma results_turns l : forallb is_tool_result l = true ->
  omap (block_turn printed chat_key UserRole) l = flat_map openai_turns (omap (fun b => match b with
    | ToolResult tool_use_id _ content is_error => Some (OaiTool (result_text content is_error) tool_use_id) | _ => None end) l)
  /\ omap (block_turn id rig_key UserRole) l = map rig_user_turn
    (omap (fun b => match b with
      | ToolResult tool_use_id call_id content is_error =>
          Some (RuToolResult tool_use_id (Some (default tool_use_id call_id)) (result_text content is_error))
      | _ => None end) l)
  /\ omap said (omap (block_turn printed chat_key UserRole) l) = []
  /\ omap not_said (omap (block_turn printed chat_key UserRole) l) = omap (block_turn printed chat_key UserRole) l.
Proof.
  induction l as [|b l IH]; [done|]. cbn [forallb]. intros [Hb Hl]%andb_true_iff. destruct b; try done.
  destruct (IH Hl) as (I1 & I2 & I3 & I4). cbn. rewrite result_text_of. split_and!; [by f_equal|by f_equal|done|by f_equal].
Qed.

(** An assistant's texts and calls. *)
Lemma assistant_calls_turns l : exists calls,
  assistant_calls json_to_string l = Ok calls
  /\ omap not_said (omap (block_turn printed chat_key AssistantRole) l)
     = map (fun c => TurnCall (oc_id c) (oc_id c) (oc_name c) (oc_arguments c)) calls
  /\ omap said (omap (block_turn printed chat_key AssistantRole) l) = texts_of l
  /\ ((exists b, b ∈ l /\ is_tool_result b = false) -> texts_of l <> [] \/ calls <> []).
Proof.
  induction l as [|b l (calls & I1 & I2 & I4 & I3)].
  { exists []. split_and!; [done|done|done|]. intros (b & ?%not_elem_of_nil & _). done. }
  assert (I3' : (exists x, x ∈ b :: l /\ is_tool_result x = false) -> is_tool_result b = true -> texts_of l <> [] \/ calls <> []).
  { intros (x & [->|Hx]%elem_of_cons & Hr) Hb; [congruence|]. apply I3. eauto. }
  destruct b as [t|id cid name input|id cid t e]; cbn [assistant_calls].
  - exists calls. rewrite I1. split_and!; [done|exact I2|cbn; by f_equal|]. by left.
  - destruct (json_prints input) as [s Hs]. rewrite Hs, I1. cbn [mbind result_bind]. eexists. split; [reflexivity|].
    split; [|split; [exact I4|by right]]. cbn. unfold printed. rewrite Hs. by f_equal.
  - exists calls. rewrite I1. split_and!; [done|exact I2|exact I4|]. intros Hb. by apply I3'.
Qed.

Lemma user_message_turns m : role m = UserRole -> sendable m ->
  flat_map openai_turns (user_messages (content m)) = gathered (chat_turns m)
  /\ exists r, rig_user (content m) = Some r /\ rig_turns r = rig_said m.
Proof.
  intros Hr Hs. unfold sendable in Hs. rewrite Hr in Hs. unfold gathered, message_turns, user_messages, rig_user. rewrite Hr.
  destruct Hs as [[t ->]|Hs].
  - cbn. split; [done|]. eexists. by split.
  - rewrite Hs. unfold all_results in Hs. apply andb_true_iff in Hs as [Hne Hall].
    destruct (results_turns _ Hall) as (R1 & R2 & R3 & R4). split; [by rewrite R3, R4, R1|].
    match goal with |- context [non_empty_list ?l] => destruct l as [|x xs] eqn:E end.
    { exfalso. destruct (content m) as [|[] l]; cbn in *; try done. }
    eexists. split; [reflexivity|]. by rewrite R2.
Qed.

Lemma assistant_message_turns position m : role m = AssistantRole -> sendable m ->
  (exists a, assistant_message json_to_string position (content m) = Ok a /\ openai_turns a = gathered (chat_turns m))
  /\ exists r, rig_assistant (content m) = Some r /\ rig_turns r = rig_said m.
Proof.
  intros Hr Hs. unfold sendable in Hs. rewrite Hr in Hs. unfold gathered, message_turns. rewrite Hr. split.
  - destruct (assistant_calls_turns (content m)) as (calls & C1 & C2 & C4 & C3). unfold assistant_message. rewrite C1.
    cbn [mbind result_bind]. specialize (C3 Hs). rewrite C2, C4.
    destruct (texts_of (content m)) as [|t ts], calls as [|c cs]; try (eexists; split; [reflexivity|reflexivity]).
    by destruct C3.
  - destruct Hs as (b & Hb & Hnr). unfold rig_assistant.
    assert (G : forall l, omap (block_turn id rig_key AssistantRole) l
      = map rig_assistant_turn (omap (fun b => match b with
          | TextBlock t => Some (RaText t)
          | ToolUse id call_id name input => Some (RaToolCall id (Some (default id call_id)) name input)
          | ToolResult _ _ _ _ => None end) l)).
    { induction l as [|x l IH]; [done|]. destruct x; cbn in *; by rewrite ?IH. }
    rewrite G. match goal with |- context [non_empty_list ?l] => destruct l as [|x xs] eqn:E end.
    + exfalso. assert (Hin : exists y, y ∈ ([] : list RigAssistantContent)); [|by destruct Hin as [y ?%not_elem_of_nil]].
      rewrite <-E. destruct b; try done; eexists; apply list_elem_of_omap; eexists; split; eauto.
    + eexists. by split.
Qed.

(** What a message of the history became: an assistant's is one message. *)
Definition carried_by_chat (m : Message) (g : list OaiMessage) : Prop :=
  flat_map openai_turns g = gathered (chat_turns m) /\ (role m = AssistantRole -> length g = 1).

Lemma converted_turns messages : forall converted, Forall sendable messages ->
  exists groups, convert_messages json_to_string converted messages = Ok (converted ++ concat groups)
    /\ Forall2 carried_by_chat messages groups.
Proof.
  induction messages as [|m messages IH]; intros converted Hs; [exists []; by rewrite app_nil_r|].
  apply Forall_cons in Hs as [Hm Hs]. cbn [convert_messages]. destruct (role m) eqn:Hr.
  - destruct (user_message_turns m Hr Hm) as [U _]. destruct (IH (converted ++ user_messages (content m)) Hs) as (l & -> & Hl).
    exists (user_messages (content m) :: l). rewrite <-app_assoc. split; [done|]. constructor; [|done]. split; [done|congruence].
  - destruct (assistant_message_turns (length converted) m Hr Hm) as [(a & -> & Ha) _]. cbn [mbind result_bind].
    destruct (IH (converted ++ [a]) Hs) as (l & -> & Hl). exists ([a] :: l). rewrite <-app_assoc. split; [done|].
    constructor; [|done]. split; [|done]. cbn [flat_map]. by rewrite app_nil_r.
Qed.

Lemma rig_message_turns messages : Forall sendable messages ->
  map rig_turns (omap (fun m => match role m with UserRole => rig_user (content m) | AssistantRole => rig_assistant (content m) end) messages)
  = map rig_said messages.
Proof.
  induction 1 as [|m messages Hm Hs IH]; [done|]. cbn [map]. rewrite <-IH.
  assert (Hrig : exists r, match role m with UserRole => rig_user (content m) | AssistantRole => rig_assistant (content m) end = Some r
    /\ rig_turns r = rig_said m).
  { destruct (role m) eqn:Hr; [by apply user_message_turns|by apply (assistant_message_turns 0)]. }
  destruct Hrig as (r & Er & Ht). cbn [omap list_omap]. rewrite Er. cbn [map]. by rewrite Ht.
Qed.
End Turns.

(** C31: Both adapters carry the planner's conversation whole, for every history of user
    texts, tool results and replies with something in them, none of which they refuse. The
    request each library is given is the system prompt and then, in order, what became of
    each message. Rig gets one message for each, with the same user text, assistant texts,
    calls and answers in the same order, each call and answer with its identifier and its
    match key (the service's call id where it gave one). Chat Completions gets the same
    turns by the one identifier it knows, an assistant's as one message with its texts
    joined by line breaks before its calls. *)
Theorem adapters_carry_the_conversation json_to_string system messages :
  (forall v, exists s, json_to_string v = Ok s) -> Forall sendable messages ->
  (exists groups, to_openai_messages json_to_string system messages = Ok (OaiSystem system :: concat groups)
     /\ Forall2 (carried_by_chat json_to_string) messages groups)
  /\ exists l, to_rig_messages system messages = RigSystem system :: l
       /\ map rig_turns l = map (message_turns id rig_key) messages.
Proof.
  intros Hp Hs. split.
  - by destruct (converted_turns json_to_string Hp messages [OaiSystem system] Hs) as (groups & Hl & Ht); exists groups.
  - eexists. split; [reflexivity|by apply (rig_message_turns json_to_string Hp)].
Qed.

Lemma adapters_carry_the_conversation_witness :
  let messages := [user_text "update";
                   mkMessage AssistantRole [TextBlock "first"; ToolUse "t1" (Some "call_1") "query_packages" (JObj []); TextBlock "then"];
                   tool_results [mkToolResult "t1" (Some "call_1") "none" true]] in
  exists l l',
    to_openai_messages (fun _ => Ok "{}") "you plan" messages = Ok (OaiSystem "you plan" :: l)
    /\ to_rig_messages "you plan" messages = RigSystem "you plan" :: l'
    /\ flat_map openai_turns l = [TurnUser "update"; TurnSaid ("first" ++ String LF "then"); TurnCall "t1" "t1" "query_packages" "{}";
                                  TurnAnswer "t1" "t1" "[TOOL ERROR] none"]
    /\ map rig_turns l' = [[TurnUser "update"];
                           [TurnSaid "first"; TurnCall "t1" "call_1" "query_packages" (JObj []); TurnSaid "then"];
                           [TurnAnswer "t1" "call_1" "[TOOL ERROR] none"]].
Proof.
  cbv zeta.
  destruct (adapters_carry_the_conversation (fun _ => Ok "{}") "you plan"
    [user_text "update";
     mkMessage AssistantRole [TextBlock "first"; ToolUse "t1" (Some "call_1") "query_packages" (JObj []); TextBlock "then"];
     tool_results [mkToolResult "t1" (Some "call_1") "none" true]]) as ((groups & H1 & H2) & l' & H3 & H4).
  - intros _. exists "{}". reflexivity.
  - repeat apply Forall_cons_2; [left; eexists; reflexivity| |right; reflexivity|apply Forall_nil_2].
    exists (TextBlock "first"). split; [left|reflexivity].
  - exists (concat groups), l'. split; [exact H1|]. split; [exact H3|]. split; [|exact H4].
    injection H1 as <-. reflexivity.
Defined.

(** What the planner puts into a history is such a message. *)
Lemma planner_messages_are_sendable t results :
  sendable (user_text t) /\ (results <> [] -> sendable (tool_results results)).
Proof.
  split; [left; by eexists|]. intros Hne. right. unfold tool_results. cbn [content].
  destruct results as [|r results]; [done|]. unfold all_results. cbn. clear.
  induction results as [|r results IH]; [done|exact IH].
Qed.

Lemma sendable_reply l b : b ∈ l -> is_tool_result b = false -> sendable (mkMessage AssistantRole l).
Proof. intros Hb Hr. by exists b. Qed.

Lemma reply_calls_blocks debug_str from_str l blocks b :
  reply_calls debug_str from_str l = Ok blocks -> b ∈ blocks -> is_tool_result b = false.
Proof.
  revert blocks. induction l as [|[c|] l IH]; intros blocks Hl Hb; cbn [reply_calls] in Hl.
  - injection Hl as <-. by apply not_elem_of_nil in Hb.
  - destruct (from_str (oc_arguments c)) as [input|]; [|done]. apply bind_Ok in Hl as (rest & Hr & Hl).
    injection Hl as <-. apply elem_of_cons in Hb as [->|Hb]; [done|by apply (IH rest)].
  - by apply (IH blocks).
Qed.

(** So is every reply the adapters accept: a conversation never becomes one they refuse. *)
Theorem accepted_replies_can_be_sent_back debug_str from_str choices items c :
  from_openai_response debug_str from_str choices = Ok c \/ (items <> [] /\ from_rig_response items = Ok c) ->
  sendable (mkMessage AssistantRole (completion_content c)).
Proof.
  intros [H|[Hne H]].
  - unfold from_openai_response in H. destruct choices as [|choice choices]; [done|].
    set (text := match ch_content choice with Some t => _ | None => _ end) in H.
    assert (G : forall stop, (calls ← reply_calls debug_str from_str (default [] (ch_tool_calls choice));
                match text ++ calls with
                | [] => Err (ProvParse "model response contained no text or tool calls")
                | blocks => Ok (mkCompletion blocks stop)
                end) = Ok c -> sendable (mkMessage AssistantRole (completion_content c))).
    { intros stop Hc. apply bind_Ok in Hc as (calls & Hcalls & Hc).
      destruct (text ++ calls) as [|b blocks] eqn:Eb; [done|]. injection Hc as <-. cbn [completion_content].
      apply (sendable_reply _ b); [left|].
      assert (Hb : b ∈ text ++ calls) by (rewrite Eb; left). apply elem_of_app in Hb as [Hb|Hb].
      - subst text. destruct (ch_content choice) as [t|]; [|by apply not_elem_of_nil in Hb].
        destruct (is_empty t); [by apply not_elem_of_nil in Hb|]. apply list_elem_of_singleton in Hb. by subst.
      - by eapply reply_calls_blocks. }
    destruct (ch_finish_reason choice) as [[]|]; try discriminate H; eapply G; exact H.
  - unfold from_rig_response in H. destruct (omap rig_block items) as [|b blocks] eqn:Eb; [by destruct items|].
    injection H as <-. cbn [completion_content]. apply (sendable_reply _ b); [left|].
    assert (Hb : b ∈ omap rig_block items) by (rewrite Eb; left).
    apply list_elem_of_omap in Hb as (i & _ & Hi). destruct i; cbn in Hi; try done; [|by injection Hi as <-].
    destruct (is_empty text); [done|]. by injection Hi as <-.
Qed.
