(* ===== verification/Startup.v ===== *)
(** * Starting the daemon

    crates/sysknife-daemon/src/main.rs (from the configuration to the accept loop),
    transport/listen.rs (the address it listens on and the socket it binds) and the
    constructors of state.rs. What the file system, the databases and the network
    answer are effects; the accept loops themselves are in [Connection], what a round
    of anchoring does in [Anchor]. *)

From Stdlib Require Import Ascii String NArith ZArith Lia.
From stdpp Require Import base gmap list strings.
From S2P Require Import Prelude Program Types Jobs Auth Config Distro Ip Signing AuditChain Store Actions Catalogue Policy Bindings Dispatcher Report.

(** ** The address *)

Inductive ListenTarget : Type :=
| Unix (path : string)
| Vsock (port : N).

Inductive ListenTargetError : Type :=
| UnsupportedScheme (uri : string)
| InvalidUri (uri : string)
| ExistingPathNotSocket (path : string)
| AlreadyBound (path : string)
| Io (e : string).

#[export] Instance ListenTarget_eq_dec : EqDecision ListenTarget.
Proof. solve_decision. Defined.
#[export] Instance ListenTargetError_eq_dec : EqDecision ListenTargetError.
Proof. solve_decision. Defined.

Definition show_listen_error (e : ListenTargetError) : string :=
  match e with
  | UnsupportedScheme uri => "unsupported listen uri scheme: " ++ uri
  | InvalidUri uri => "invalid listen uri: " ++ uri
  | ExistingPathNotSocket path => "existing path is not a unix socket: " ++ path
  | AlreadyBound path =>
      "refusing to bind " ++ path ++ ": a daemon is already listening there. Stop it first "
      ++ "(sudo systemctl stop sysknife-daemon, or systemctl --user stop sysknife-daemon), "
      ++ "or give this one its own socket with SYSKNIFE_LISTEN_URI."
  | Io e => "io error: " ++ e
  end.

Definition parse_vsock_listen_uri (uri rest : string) : result ListenTargetError ListenTarget :=
  match strip_prefix ":" rest with
  | None => Err (InvalidUri ("vsock listen URI must have the form vsock://:PORT (no CID); got: " ++ uri))
  | Some port_str =>
      if is_empty port_str then Err (InvalidUri ("vsock listen URI missing port: " ++ uri))
      else match parse_u32 port_str with
           | Some port => Ok (Vsock port)
           | None => Err (InvalidUri ("vsock listen URI port is not a valid u32: " ++ uri))
           end
  end.

Definition try_from_uri (uri : string) : result ListenTargetError ListenTarget :=
  match strip_prefix "unix://" uri with
  | Some path =>
      if is_empty path then Err (InvalidUri uri)
      else if negb (is_absolute path) then Err (InvalidUri uri)
      else Ok (Unix path)
  | None =>
      match strip_prefix "vsock://" uri with
      | Some rest => parse_vsock_listen_uri uri rest
      | None => Err (UnsupportedScheme uri)
      end
  end.

(** [SocketAddr::from_str]: the address and the port. *)
Definition read_port (s : string) : option (N * string) :=
  s ← strip_prefix ":" s; read_number 10 65535 (String.length s) true s.

Definition read_scope_id (s : string) : option (N * string) :=
  s ← strip_prefix "%" s; read_number 10 U32_MAX (String.length s) true s.

Definition read_socket_addr_v4 (s : string) : option (IpAddr * N * string) :=
  '(octets, s) ← read_ipv4_addr s;
  '(port, s) ← read_port s;
  Some (Ip.V4 octets, port, s).

Definition read_socket_addr_v6 (s : string) : option (IpAddr * N * string) :=
  s ← strip_prefix "[" s;
  '(groups, s) ← read_ipv6_addr s;
  let s := match read_scope_id s with Some (_, s') => s' | None => s end in
  s ← strip_prefix "]" s;
  '(port, s) ← read_port s;
  Some (Ip.V6 groups, port, s).

Definition socket_addr_from_str (s : string) : option (IpAddr * N) :=
  '(ip, port, rest) ← match read_socket_addr_v4 s with Some r => Some r | None => read_socket_addr_v6 s end;
  if is_empty rest then Some (ip, port) else None.

(** ** What starting does to the world *)

Record DaemonConfig : Type := mkDaemonConfig { listen_target : ListenTarget; database_path : string }.

(** audit_forward.rs *)
Inductive AuditSinkSpec : Type := SyslogUdp (host : IpAddr * N) (facility enterprise_number : N).

Section Startup.
Context `{Crypto} `{ActionCatalogue}.

(** Errors are the texts the system words them with. [LoadAuditKey] is
    [AuditKey::load_or_generate] on a path ([load_or_generate] of [Signing]), [OpenSqlite]
    [TransactionStore::open_with_key], [SymlinkIsSocket] the file type of
    [symlink_metadata], [Listening] the conversion of a bound socket to a
    non-blocking one. *)
Inductive StartEffect : Type -> Type :=
| Say (line : text) : StartEffect ()
| PathExists (path : string) : StartEffect bool
| CreateDirAll (dir : string) : StartEffect (result string ())
| SetMode (path : string) (mode : N) : StartEffect (result string ())
| SymlinkIsSocket (path : string) : StartEffect (result string bool)
| Connect (path : string) : StartEffect (result string ())
| RemoveFile (path : string) : StartEffect (result string ())
| BindUnix (path : string) : StartEffect (result string ())
| BindVsock (port : N) : StartEffect (result string ())
| Listening (path : string) : StartEffect (result string ())
| GetEuid : StartEffect N
| LoadAuditKey (path : string) : StartEffect (result string AuditKey)
| OpenSqlite (path : string) (key : AuditKey) : StartEffect (result string ())
| ConnectPostgres (cfg : PostgresConfig) (key : AuditKey) : StartEffect (result string ())
| DetectDistro : StartEffect (option DistroId)
| SpawnForwarder (spec : AuditSinkSpec) : StartEffect ()
| ReconcileRunning : StartEffect (result string N)
| SpawnSweep : StartEffect ()
| Sleep (seconds : N) : StartEffect ()
| CleanupStale : StartEffect (result string N)
| SpawnAnchorTask (db_url : string) (key : AuditKey) : StartEffect ()
| ConnectCheckpoint (db_url : string) : StartEffect (result string ())
| SpawnPeriodicAnchor (seconds : N) : StartEffect ()
| Serve (target : ListenTarget) (state : DaemonState) : StartEffect ().

Notation start := (prog StartEffect).
Definition say (s : string) : start () := call (Say (lit ("[sysknife-daemon] " ++ s))).
(** [Result::map_err] on what an effect answers. *)
Definition map_err {A B C} (f : A -> B) (r : result A C) : result B C :=
  match r with Ok c => Ok c | Err e => Err (f e) end.
(** [?] *)
Definition try_ {E E' A B} (f : E -> E') (r : result E A) (k : A -> start (result E' B)) : start (result E' B) :=
  match r with Ok a => k a | Err e => Ret (Err (f e)) end.

(** ** The socket *)

Definition bind_vsock_listener (port : N) : start (result ListenTargetError ()) :=
  r ← call (BindVsock port); Ret (map_err Io r).

(** The parent directory of the socket: created if need be, and its mode set only then. *)
Definition prepare_parent (parent path : string) : start (result ListenTargetError ()) :=
  parent_existed ← call (PathExists parent);
  r ← call (CreateDirAll parent);
  try_ (fun err => Io ("cannot create directory " ++ parent ++ " for socket " ++ path ++ ": " ++ err)%string) r (fun _ =>
  if (parent_existed : bool) then Ret (Ok tt)
  else
    r ← call (SetMode parent 488);
    Ret (map_err (fun err => Io ("cannot set permissions on directory " ++ parent ++ " for socket " ++ path
                                 ++ ": " ++ err)%string) r)).

(** What is at the path already: nothing, or a socket nobody answers on, which goes. *)
Definition clear_path (path : string) : start (result ListenTargetError ()) :=
  exists_ ← call (PathExists path);
  if negb exists_ then Ret (Ok tt)
  else
    r ← call (SymlinkIsSocket path);
    try_ (fun err => Io ("stat " ++ path ++ ": " ++ err)%string) r (fun is_socket : bool =>
    if negb is_socket then Ret (Err (ExistingPathNotSocket path))
    else
      r ← call (Connect path);
      match r with
      | Ok _ => Ret (Err (AlreadyBound path))
      | Err _ =>
          r ← call (RemoveFile path);
          Ret (map_err (fun err => Io ("remove stale socket " ++ path ++ ": " ++ err)%string) r)
      end).

Definition bind_unix_listener (target : ListenTarget) : start (result ListenTargetError ()) :=
  match target with
  | Unix path =>
      parent ← match path_parent path with Some parent => prepare_parent parent path | None => Ret (Ok tt) end;
      try_ id parent (fun _ =>
      cleared ← clear_path path;
      try_ id cleared (fun _ =>
      r ← call (BindUnix path);
      try_ (fun err => Io ("bind " ++ path ++ ": " ++ err)%string) r (fun _ =>
      r ← call (SetMode path 432);
      Ret (map_err (fun e => Io ("failed to set socket permissions: " ++ e)%string) r))))
  | Vsock _ => Ret (Err (InvalidUri "use bind_vsock_listener() for vsock targets, not bind_unix_listener()"))
  end.

(** ** The state *)

Definition open_full (e : environ) (config : DaemonConfig) (policy : PolicyTable) (forwarder : bool)
    : start (result text DaemonState) :=
  r ← call (LoadAuditKey (resolve_audit_key_path e (database_path config)));
  try_ lit r (fun audit_key =>
  r ← call (OpenSqlite (database_path config) audit_key);
  try_ lit r (fun _ =>
  host_distro ← call DetectDistro;
  Ret (Ok (mkDaemonState (request_hash_key audit_key) policy host_distro forwarder)))).

Definition open_with_audit (policy : PolicyTable) (forwarder : bool) (audit_key : AuditKey) : start DaemonState :=
  host_distro ← call DetectDistro;
  Ret (mkDaemonState (request_hash_key audit_key) policy host_distro forwarder).

Definition open_with_policy (e : environ) (config : DaemonConfig) (policy : PolicyTable) : start (result text DaemonState) :=
  open_full e config policy false.
Definition open_state (e : environ) (config : DaemonConfig) : start (result text DaemonState) :=
  open_with_policy e config empty_policy.

Definition bootstrap (e : environ) (config : DaemonConfig) : start (result text DaemonState) :=
  state ← open_state e config;
  try_ id state (fun state =>
  listener ← bind_unix_listener (listen_target config);
  Ret (map_err (fun err => lit (show_listen_error err)) (_ ← listener; Ok state))).

(** ** The pieces of [run] *)

Definition INVALID_ADDR : string := "invalid socket address syntax".

Definition build_forwarder (syslog : option SyslogForwardSection) : start (result text (option AuditSinkSpec)) :=
  match syslog with
  | None => Ret (Ok None)
  | Some syslog =>
      match syslog_validate syslog with
      | Err e => Ret (Err (lit e))
      | Ok _ =>
          match socket_addr_from_str (syslog_host syslog) with
          | None => Ret (Err [Lit "[audit.forward.syslog] host "; Dbg (syslog_host syslog);
                              Lit (" is not a valid host:port: " ++ INVALID_ADDR)])
          | Some host =>
              let spec := SyslogUdp host (syslog_facility syslog) (enterprise_number syslog) in
              _ ← call (SpawnForwarder spec);
              Ret (Ok (Some spec))
          end
      end
  end.

Definition build_postgres_audit (e : environ) (storage : option StorageSection) : start (result text (option AuditKey)) :=
  match storage with
  | None => Ret (Ok None)
  | Some storage =>
      match parsed storage with
      | Err why => Ret (Err why)
      | Ok Sqlite => Ret (Ok None)
      | Ok (Postgres url pool) =>
          let c := postgres_default url in
          let cfg := mkPgConfig url
            (default (pc_max_connections c) (max_connections pool))
            (default (pc_acquire_timeout c) (acquire_timeout_secs pool))
            (default (pc_statement_cache_capacity c) (statement_cache_capacity pool)) in
          r ← call (LoadAuditKey (resolve_audit_key_path e (default_database_path e)));
          try_ (fun err => lit ("audit key load failed: " ++ err)) r (fun key =>
          r ← call (ConnectPostgres cfg key);
          try_ (fun err => lit ("postgres connect failed: " ++ err)) r (fun _ => Ret (Ok (Some key))))
      end
  end.

Definition show_policy_error (e : PolicyValidationError) : text :=
  match e with
  | PolicyUnknownAction action => lit ("unknown action in [policy.risk_overrides]: " ++ action)
  | InvalidRiskLevel action value =>
      [Lit "invalid risk level "; Dbg value;
       Lit (" for action " ++ action ++ ": must be " ++ quoted "Low" ++ ", " ++ quoted "Medium" ++ ", or "
            ++ quoted "High")]
  | CannotLower action baseline attempted =>
      lit ("policy override for " ++ action ++ " would lower the minimum role from " ++ role_debug baseline ++ " to "
           ++ role_debug attempted ++ "; overrides may only raise")
  end%string.

(** *** Tasks *)

Definition STALE_SWEEP_INTERVAL : N := 300.
Definition DEFAULT_ANCHOR_INTERVAL : N := 15 * 60.

(** The sweeping task over its first ticks; the first is immediate. *)
Definition sweep_tick : start () :=
  r ← call CleanupStale;
  match r with
  | Ok n => if (0 <? n)%N then say ("swept " ++ dec_of_N n ++ " stale queued transaction(s) past TTL") else Ret tt
  | Err e => say ("stale-queued sweep failed: " ++ e)
  end.
Fixpoint sweep_later (ticks : nat) : start () :=
  match ticks with
  | O => Ret tt
  | S n => _ ← call (Sleep STALE_SWEEP_INTERVAL); _ ← sweep_tick; sweep_later n
  end.
Definition sweep (ticks : nat) : start () := _ ← sweep_tick; sweep_later ticks.

(** The task [start_checkpoint_anchoring] spawns. *)
Definition anchor_task (db_url : string) : start () :=
  r ← call (ConnectCheckpoint db_url);
  match r with
  | Ok _ =>
      _ ← say ("checkpoint anchoring ON (every " ++ dec_of_N DEFAULT_ANCHOR_INTERVAL ++ "s)");
      call (SpawnPeriodicAnchor DEFAULT_ANCHOR_INTERVAL)
  | Err e => say ("checkpoint anchoring DISABLED: connecting to the checkpoint database failed: " ++ e)
  end.

Definition ANCHORING_OFF : string :=
  "checkpoint anchoring is OFF (SYSKNIFE_CHECKPOINT_DB unset). The audit chain is still signed, but tail "
  ++ "truncation and a rewrite by someone holding the signing key are NOT detectable without an external anchor.".

Definition start_checkpoint_anchoring (e : environ) (db_path : string) : start () :=
  match e !! "SYSKNIFE_CHECKPOINT_DB" with
  | None => say ANCHORING_OFF
  | Some db_url =>
      let key_path := resolve_audit_key_path e db_path in
      r ← call (LoadAuditKey key_path);
      match r with
      | Err err => say ("checkpoint anchoring DISABLED: loading the audit key from " ++ key_path ++ " failed: " ++ err)
      | Ok key => call (SpawnAnchorTask db_url key)
      end
  end.

(** *** Recovery *)

Definition reconcile : start () :=
  r ← call ReconcileRunning;
  match r with
  | Ok n => if (n =? 0)%N then Ret tt
            else say ("reconciled " ++ dec_of_N n ++ " interrupted (Running) transaction(s) as failed after restart")
  | Err e => say ("WARNING: could not reconcile interrupted transactions: " ++ e)
  end.

(** ** [run] and [main] *)

(** How the process goes on: [run] returned, or the process exited. *)
Inductive End_ : Type := Returned (r : result text ()) | Exited (code : Z).

Definition not_writable (path : string) (uid : N) : string :=
  default path (path_parent path) ++ " is not writable by uid " ++ dec_of_N uid ++ ". Either run the system service as "
  ++ "root (sudo systemctl start sysknife-daemon), or point this daemon at a socket you own with "
  ++ "SYSKNIFE_LISTEN_URI=unix://$XDG_RUNTIME_DIR/sysknife/daemon.sock".

Definition explain_bind_failure (path : string) (e : ListenTargetError) : start () :=
  _ ← say ("FATAL: " ++ show_listen_error e);
  match e with
  | Io m => if contains "Permission denied" m then uid ← call GetEuid; say (not_writable path uid) else Ret tt
  | _ => Ret tt
  end.

(** The last part of [run]: bind, say so, serve until the loop ends. *)
Definition listen_and_serve (listen_uri : string) (target : ListenTarget) (state : DaemonState) : start End_ :=
  match target with
  | Unix path =>
      bound ← bind_unix_listener (Unix path);
      match bound with
      | Err e => _ ← explain_bind_failure path e; Ret (Exited 1)
      | Ok _ =>
          r ← call (Listening path);
          match r with
          | Err e => Ret (Returned (Err (lit e)))
          | Ok _ =>
              _ ← say ("listening on " ++ listen_uri);
              _ ← call (Serve target state);
              Ret (Returned (Ok tt))
          end
      end
  | Vsock port =>
      bound ← bind_vsock_listener port;
      match bound with
      | Err e => _ ← say ("cannot bind vsock port " ++ dec_of_N port); Ret (Returned (Err (lit (show_listen_error e))))
      | Ok _ =>
          _ ← say ("listening on " ++ listen_uri);
          _ ← call (Serve target state);
          Ret (Returned (Ok tt))
      end
  end.

(** What [run] does once the state is open. *)
Definition recover_and_serve (e : environ) (listen_uri db_path : string) (target : ListenTarget) (state : DaemonState) : start End_ :=
  _ ← reconcile;
  _ ← call SpawnSweep;
  _ ← start_checkpoint_anchoring e db_path;
  listen_and_serve listen_uri target state.

Definition open_state_for (e : environ) (c : LacsConfig) (config : DaemonConfig) (policy : PolicyTable) (forwarder : bool)
    : start (result text DaemonState) :=
  r ← build_postgres_audit e (cfg_storage c);
  match r with
  | Ok (Some audit_key) =>
      _ ← say "storage: using Postgres backend (URL hidden)";
      state ← open_with_audit policy forwarder audit_key;
      Ret (Ok state)
  | Ok None =>
      _ ← say ("storage: using SQLite at " ++ database_path config ++ " (production deployments should switch to [storage] backend = "
               ++ quoted "postgres" ++ ")");
      open_full e config policy forwarder
  | Err why => _ ← say "postgres backend init failed"; Ret (Err why)
  end.

Definition announce_overrides (policy : PolicyTable) : start () :=
  if (0 <? override_count policy) then
    _ ← say ("applying " ++ dec_of_N (N.of_nat (override_count policy)) ++ " risk override(s) from [policy.risk_overrides]:");
    for_each (active_overrides policy) (fun '(action, role) => say ("  " ++ pad_to 30 action ++ " → " ++ role_debug role))
  else Ret tt.

(** The rest of [run] once the forwarder is set up. *)
Definition run_forwarding (e : environ) (listen_uri : string) (c : LacsConfig) (policy : PolicyTable)
    (forwarder : option AuditSinkSpec) : start End_ :=
  let db_path := default_database_path e in
  _ ← match forwarder with Some _ => say "audit-forward: external sink active" | None => Ret tt end;
  match try_from_uri listen_uri with
  | Err err => Ret (Returned (Err (lit (show_listen_error err))))
  | Ok target =>
      state ← open_state_for e c (mkDaemonConfig target db_path) policy (bool_decide (is_Some forwarder));
      match state with
      | Err why => Ret (Returned (Err why))
      | Ok state => recover_and_serve e listen_uri db_path target state
      end
  end.

(** [run] from a configuration that loaded. [iterate] is the order a [HashMap] is
    iterated in, [status] the content of /proc/self/status. *)
Definition run_with (iterate : gmap string string -> list (string * string)) (status : option string) (env : environ)
    (c : LacsConfig) : start End_ :=
  let e := apply_defaults_to_env c env in
  match from_overrides (iterate (default ∅ (cfg_risk_overrides c))) with
  | Err why => _ ← say "policy validation failed"; Ret (Returned (Err (show_policy_error why)))
  | Ok policy =>
      _ ← announce_overrides policy;
      forwarder ← build_forwarder (cfg_syslog c);
      match forwarder with
      | Err why => _ ← say "audit forwarder config invalid"; Ret (Returned (Err why))
      | Ok forwarder => run_forwarding e (default_listen_uri e status) c policy forwarder
      end
  end.

(** [None] is the panic of [config_path] when no home is set. *)
Definition run (from_toml : string -> result string LacsConfig) (read : string -> FileRead)
    (iterate : gmap string string -> list (string * string)) (status : option string) (env : environ)
    : option (start End_) :=
  loaded ← load from_toml read env;
  Some (match loaded with
        | Err reason => _ ← call (Say (lit ("[sysknife] FATAL: " ++ reason))); Ret (Exited 1)
        | Ok c => run_with iterate status env c
        end).

(** The status the process exits with. *)
Definition main_of (body : start End_) : start Z :=
  r ← body;
  match r with
  | Exited code => Ret code
  | Returned (Ok _) => Ret 0%Z
  | Returned (Err why) => _ ← call (Say (Lit "[sysknife-daemon] FATAL: " :: why)); Ret 1%Z
  end.

(** ** What happened before *)

Notation trace := (list (event StartEffect)).

(** A path at which something was found, a socket, and a connection to it failed, for
    whatever reason. *)
Definition found_unanswered (path : string) (pre : trace) : Prop :=
  exists before err, pre = before ++ [mkEvent _ (PathExists path) true; mkEvent _ (SymlinkIsSocket path) (Ok true);
                                      mkEvent _ (Connect path) (Err err)].

(** A path at which nothing was found, or whose unanswered socket has just been removed. *)
Definition found_free (path : string) (pre : trace) : Prop :=
  (exists before, pre = before ++ [mkEvent _ (PathExists path) false])
  \/ exists before, pre = before ++ [mkEvent _ (RemoveFile path) (Ok tt)] /\ found_unanswered path before.

(** The trail is open with a key. *)
Definition store_open (key : AuditKey) (pre : trace) : Prop :=
  (exists path, mkEvent _ (LoadAuditKey path) (Ok key) ∈ pre)
  /\ ((exists path, mkEvent _ (OpenSqlite path key) (Ok tt) ∈ pre)
      \/ exists cfg, mkEvent _ (ConnectPostgres cfg key) (Ok tt) ∈ pre).

(** The address is bound; a socket of the file system is open to its owner and group only. *)
Definition bound (target : ListenTarget) (pre : trace) : Prop :=
  match target with
  | Unix path => mkEvent _ (BindUnix path) (Ok tt) ∈ pre /\ mkEvent _ (SetMode path 432) (Ok tt) ∈ pre
                 /\ mkEvent _ (Listening path) (Ok tt) ∈ pre
  | Vsock port => mkEvent _ (BindVsock port) (Ok tt) ∈ pre
  end.

(** [Serve] needs all of it; the mode [w] is for the socket, its directory when it is new. *)
Definition orderly (policy : PolicyTable) (target : ListenTarget) (X : Type) (pre : trace) (e : StartEffect X) : Prop :=
  match e with
  | RemoveFile path => target = Unix path /\ found_unanswered path pre
  | BindUnix path => target = Unix path /\ found_free path pre
  | Serve target' state =>
      target' = target /\ bound target pre /\ ds_policy state = policy
      /\ (exists key, store_open key pre /\ ds_request_hash_key state = request_hash_key key)
      /\ exists r, mkEvent _ ReconcileRunning r ∈ pre
  | _ => True
  end.

(** ** The parts *)

(** A history extended at its end. *)
Lemma prefix_snoc {A} (g l : list A) x : g `prefix_of` l -> g `prefix_of` l ++ [x].
Proof. intros Hp. by apply prefix_app_r. Qed.
Ltac in_trace :=
  repeat (apply elem_of_app; first [right; apply list_elem_of_singleton; reflexivity|left]).
Ltac solve_prefix := cbn [next history]; repeat apply prefix_snoc; done.

Definition quiet (X : Type) (e : StartEffect X) : Prop :=
  match e with RemoveFile _ | BindUnix _ | Serve _ _ => False | _ => True end.

Section Facts.
Context (policy : PolicyTable) (target : ListenTarget).
Local Notation M := (history (orderly policy target)).

Lemma quiet_holds {A} (p : start A) (g : trace) :
  only quiet p -> holds M (fun g' _ => g `prefix_of` g') g p.
Proof. intros Hp. apply (history_only _ quiet); [done| |done]. intros X pre []; done. Qed.

Lemma prepare_quiet parent path : only quiet (prepare_parent parent path).
Proof. unfold prepare_parent, try_. repeat ostep; done. Qed.

Lemma clear_path_free path (g : trace) :
  target = Unix path ->
  holds M (fun g' r => g `prefix_of` g' /\ (r = Ok tt -> found_free path g')) g (clear_path path).
Proof.
  intros Ht. unfold clear_path, try_, map_err. hgo. destruct x; cbn [negb]; hgo; [|split].
  - destruct x as [[|]|]; cbn [negb]; hgo; [|by split; [solve_prefix|]..].
    destruct x as [|err]; hgo; [by split; [solve_prefix|]|].
    apply holds_perform; [|intros [[]|e]; cbn [next history]; split; try solve_prefix; intros [=]].
    { split; [done|]. exists g, err. by rewrite <-!app_assoc. }
    right. eexists. split; [done|]. exists g, err. by rewrite <-!app_assoc.
  - solve_prefix.
  - left. by exists g.
Qed.

Lemma bind_unix_bound path (g : trace) :
  target = Unix path ->
  holds M (fun g' r => g `prefix_of` g' /\ (r = Ok tt -> mkEvent _ (BindUnix path) (Ok tt) ∈ g'
                                                        /\ mkEvent _ (SetMode path 432) (Ok tt) ∈ g'))
    g (bind_unix_listener (Unix path)).
Proof.
  intros Ht. unfold bind_unix_listener, try_, map_err. apply holds_bind.
  apply (holds_mono _ (fun g' _ => g `prefix_of` g')).
  2: { apply quiet_holds. destruct (path_parent path); [apply prepare_quiet|done]. }
  intros g1 [[]|e] Hg1; [|by apply holds_ret]. apply holds_bind.
  eapply holds_mono; [|by apply (clear_path_free path)].
  intros g2 [[]|e] [Hg2 Hfree]; [|apply holds_ret; split; [by etrans|done]]. cbv beta iota.
  apply holds_bind, holds_perform; [by split; [|apply Hfree]|]. intros [[]|e].
  2: { apply holds_ret. split; [|done]. etrans; [exact Hg1|]. etrans; [exact Hg2|]. by apply prefix_snoc. }
  apply holds_bind, holds_perform; [done|]. intros [[]|e]; apply holds_ret; cbn [next history id];
    (split; [do 2 apply prefix_snoc; by etrans|]); intros [=]. set_solver.
Qed.

Lemma open_state_for_open e c config forwarder (g : trace) :
  holds M (fun g' r => g `prefix_of` g' /\ forall state, r = Ok state ->
             ds_policy state = policy
             /\ exists key, store_open key g' /\ ds_request_hash_key state = request_hash_key key)
    g (open_state_for e c config policy forwarder).
Proof.
  unfold open_state_for. apply holds_bind.
  apply (holds_mono _ (fun g' r => g `prefix_of` g' /\ forall key, r = Ok (Some key) -> store_open key g')).
  2: { unfold build_postgres_audit, try_. repeat (case_match; try (by apply holds_ret)). hgo.
       destruct x as [key|err]; hgo; [|split; [solve_prefix|done]].
       destruct x as [[]|err]; hgo; (split; [solve_prefix|]); intros key' [=]; subst.
       split; [eexists|right; eexists]; cbn [next history]; in_trace. }
  intros g1 [[key|]|why] [Hg1 Hkey]; cbv beta iota; unfold say; hgo.
  - apply holds_bind. unfold open_with_audit. hgo. split; [by repeat apply prefix_snoc|].
    intros state [=<-]. split; [done|]. exists key. split; [|done].
    destruct (Hkey key eq_refl) as [[p1 H1] [[p2 H2]|[cfg H2]]]; split; eauto.
    + exists p1. set_solver.
    + left. exists p2. set_solver.
    + exists p1. set_solver.
    + right. exists cfg. set_solver.
  - unfold open_full, try_. hgo. destruct x0 as [key|err]; hgo; [|by split; [repeat apply prefix_snoc|]].
    destruct x0 as [[]|err]; hgo; (split; [by repeat apply prefix_snoc|]); intros state [=<-].
    split; [done|]. exists key. split; [|done]. split; [eexists|left; eexists]; cbn [next history]; in_trace.
  - split; [by apply prefix_snoc|done].
Qed.

Lemma store_open_mono key (g g' : trace) : g `prefix_of` g' -> store_open key g -> store_open key g'.
Proof.
  intros Hp [[p1 H1] Hs]. split; [exists p1; by eapply elem_of_prefix|].
  destruct Hs as [[p2 H2]|[cfg H2]]; [left; exists p2|right; exists cfg]; by eapply elem_of_prefix.
Qed.

Lemma anchoring_quiet e db_path : only quiet (start_checkpoint_anchoring e db_path).
Proof. unfold start_checkpoint_anchoring, say. repeat ostep; done. Qed.

Lemma reconcile_runs (g : trace) :
  holds M (fun g' _ => g `prefix_of` g' /\ exists r, mkEvent _ ReconcileRunning r ∈ g') g reconcile.
Proof.
  unfold reconcile. apply holds_bind, holds_perform; [done|]. intros r.
  eapply holds_mono; [|apply quiet_holds; unfold say; repeat ostep; done]. intros g' u Hg'.
  split; [etrans; [|exact Hg']; by apply prefix_app_r|]. exists r. eapply elem_of_prefix; [|exact Hg'].
  cbn [next history]. in_trace.
Qed.

Lemma recover_orderly e uri db_path (state : DaemonState) (g : trace) :
  ds_policy state = policy ->
  (exists key, store_open key g /\ ds_request_hash_key state = request_hash_key key) ->
  holds M (fun _ _ => True) g (recover_and_serve e uri db_path target state).
Proof.
  intros Hpol [key [Hkey Hhash]]. unfold recover_and_serve. apply holds_bind.
  eapply holds_mono; [|apply reconcile_runs]. intros g1 u1 [Hg1 [r Hr]]. cbv beta.
  apply holds_bind, holds_perform; [done|]. intros []. apply holds_bind.
  eapply holds_mono; [|apply quiet_holds, anchoring_quiet]. intros g2 u2 Hg2. cbv beta.
  assert (Hg12 : g1 `prefix_of` g2) by (etrans; [|exact Hg2]; by apply prefix_snoc).
  assert (Hserve : forall g3, g2 `prefix_of` g3 -> bound target g3 -> orderly policy target _ g3 (Serve target state)).
  { intros g3 Hg3 Hb. split_and!; try done.
    - exists key. split; [|done]. eapply store_open_mono; [|exact Hkey]. by repeat (etrans; [eassumption|]).
    - exists r. eapply elem_of_prefix; [exact Hr|]. by etrans. }
  unfold listen_and_serve. destruct target as [path|port] eqn:Et.
  - pose proof (bind_unix_bound path g2 Et) as Hbind. rewrite Et in Hbind.
    apply holds_bind. eapply holds_mono; [|exact Hbind].
    intros g3 [[]|err] [Hg3 Hb]; cbv beta iota.
    + apply holds_bind, holds_perform; [done|]. intros [[]|err]; [|done].
      unfold say. apply holds_bind, holds_perform; [done|]. intros []. apply holds_bind, holds_perform; [|done].
      destruct (Hb eq_refl) as [Hb1 Hb2]. apply Hserve; [do 2 apply prefix_snoc; by etrans|].
      cbn [next history]. split_and!; [..|in_trace]; set_solver.
    + rewrite <-Et. eapply holds_mono; [|apply quiet_holds; unfold explain_bind_failure, say; repeat ostep; done]. done.
  - unfold bind_vsock_listener, map_err. hgo. destruct x as [[]|err]; unfold say; hgo; [|done].
    apply holds_perform; [|done]. apply Hserve; [solve_prefix|]. cbn [next history]. cbn. in_trace.
Qed.
End Facts.

Lemma announce_quiet policy : only quiet (announce_overrides policy).
Proof. unfold announce_overrides, say. repeat ostep; done. Qed.

Lemma forwarder_quiet syslog : only quiet (build_forwarder syslog).
Proof. unfold build_forwarder. repeat ostep; done. Qed.

(** What the configuration asks for: the policy and the address. *)
Definition asked_for (iterate : gmap string string -> list (string * string)) (status : option string) (env : environ)
    (c : LacsConfig) : result text (PolicyTable * ListenTarget) :=
  match from_overrides (iterate (default ∅ (cfg_risk_overrides c))) with
  | Err why => Err (show_policy_error why)
  | Ok policy =>
      match try_from_uri (default_listen_uri (apply_defaults_to_env c env) status) with
      | Err err => Err (lit (show_listen_error err))
      | Ok target => Ok (policy, target)
      end
  end.

Lemma run_with_orderly iterate status env c policy target :
  asked_for iterate status env c = Ok (policy, target) ->
  holds (history (orderly policy target)) (fun _ _ => True) [] (run_with iterate status env c).
Proof.
  unfold asked_for, run_with, run_forwarding. intros Ha.
  destruct (from_overrides _) as [policy'|why]; [|done].
  destruct (try_from_uri _) as [target'|err]; [|done]. injection Ha as -> ->.
  apply holds_bind. eapply holds_mono; [|apply quiet_holds, announce_quiet]. intros g1 u1 _. cbv beta.
  apply holds_bind. eapply holds_mono; [|apply quiet_holds, forwarder_quiet]. intros g2 [f|why] _; cbv beta iota.
  - apply holds_bind. eapply holds_mono; [|apply quiet_holds; unfold say; repeat ostep; done].
    intros g3 u3 _. cbv beta. apply holds_bind.
    eapply holds_mono; [|apply open_state_for_open]. intros g4 [state|why] [_ Hopen]; [|done]. cbv beta iota.
    destruct (Hopen state eq_refl) as [Hpol Hkey]. by apply recover_orderly.
  - unfold say. by hgo.
Qed.

(** ** The status of the process *)

Definition is_serve {X} (e : StartEffect X) : bool := match e with Serve _ _ => true | _ => false end.
Definition has_served : Monitor StartEffect bool := mkMonitor bool (fun _ _ _ => True) (fun _ g e _ => g || is_serve e).

Lemma after_served (tr : trace) g :
  after has_served g tr = true <-> g = true \/ exists target state u, mkEvent _ (Serve target state) u ∈ tr.
Proof.
  revert g. induction tr as [|[X e x] tr IH]; intros g; cbn [after].
  { split; [by left|]. intros [?|(? & ? & ? & []%elem_of_nil)]; done. }
  rewrite IH. cbn [next has_served]. rewrite orb_true_iff. setoid_rewrite elem_of_cons. split.
  - intros [[->|He]|(t & st & u & Hin)]; [by left| |right; by eauto].
    right. destruct e; try discriminate He. by eauto.
  - intros [->|(t & st & u & [Heq|Hin])]; [by left; left| |right; by eauto].
    left. right.
    apply (f_equal (fun ev : event StartEffect => is_serve (ev_effect ev))) in Heq. by symmetry.
Qed.

Definition silent (X : Type) (e : StartEffect X) : Prop := is_serve e = false.

Lemma silent_holds {A} (p : start A) g : only silent p -> holds has_served (fun g' _ => g' = g) g p.
Proof.
  intros Hp. apply (holds_only _ silent (fun g' => g' = g) _ _ _ Hp); [done| |done].
  intros X g' e He ->. split; [done|]. intros x. cbn. by rewrite He, orb_false_r.
Qed.

Lemma bind_silent target : only silent (bind_unix_listener target).
Proof.
  unfold bind_unix_listener, prepare_parent, clear_path, try_. destruct target as [path|port]; [|done].
  repeat ostep; try done. all: match goal with |- context [try_] => unfold try_ | _ => idtac end; repeat ostep; done.
Qed.

Definition tells (g : bool) (r : End_) : Prop := (g = true <-> r = Returned (Ok tt)) /\ r <> Exited 0.

Lemma listen_tells uri target state : holds has_served tells false (listen_and_serve uri target state).
Proof.
  unfold listen_and_serve. destruct target as [path|port]; apply holds_bind.
  - eapply holds_mono; [|apply silent_holds, bind_silent]. intros g [[]|err] ->; cbv beta iota.
    + unfold say. apply holds_bind, holds_perform; [done|]. intros [[]|e]; [|by split].
      by hgo.
    + apply holds_bind. eapply holds_mono; [|apply silent_holds; unfold explain_bind_failure, say; repeat ostep; done].
      by intros g u ->.
  - unfold bind_vsock_listener. hgo. unfold map_err, say. destruct x as [[]|err]; by hgo.
Qed.

Lemma open_state_silent e c config policy forwarder : only silent (open_state_for e c config policy forwarder).
Proof.
  unfold open_state_for, build_postgres_audit, open_full, open_with_audit, try_, say. repeat ostep; done.
Qed.

Lemma run_tells iterate status env c : holds has_served tells false (run_with iterate status env c).
Proof.
  unfold run_with, run_forwarding. destruct (from_overrides _) as [policy|why]; [|unfold say; by hgo].
  apply holds_bind. eapply holds_mono; [|apply silent_holds; unfold announce_overrides, say; repeat ostep; done].
  intros g u ->. cbv beta. apply holds_bind.
  eapply holds_mono; [|apply silent_holds; unfold build_forwarder; repeat ostep; done].
  intros g [f|why] ->; cbv beta iota; [|unfold say; by hgo].
  apply holds_bind. eapply holds_mono; [|apply silent_holds; unfold say; repeat ostep; done].
  intros g u1 ->. cbv beta. destruct (try_from_uri _) as [target|err]; [|done].
  apply holds_bind. eapply holds_mono; [|apply silent_holds, open_state_silent].
  intros g [state|why] ->; [|done]. unfold recover_and_serve. apply holds_bind.
  eapply holds_mono; [|apply silent_holds; unfold reconcile, say; repeat ostep; done].
  intros g u2 ->. cbv beta. apply holds_bind, holds_perform; [done|]. intros []. apply holds_bind.
  eapply holds_mono; [|apply silent_holds; unfold start_checkpoint_anchoring, say; repeat ostep; done].
  intros g u3 ->. apply listen_tells.
Qed.

Lemma main_holds {G} (m : Monitor StartEffect G) (post : G -> End_ -> Prop) g body :
  (forall g line, allow m g (Say line) /\ next m g (Say line) tt = g) ->
  holds m post g body ->
  holds m (fun g' code => exists r, post g' r /\ code = match r with
    | Exited code => code | Returned (Ok _) => 0%Z | Returned (Err _) => 1%Z end) g (main_of body).
Proof.
  intros Hsay Hbody. unfold main_of. apply holds_bind. eapply holds_mono; [|exact Hbody].
  intros g' [[u|why]|c] Hp; cbv beta iota; [by eexists| |by eexists].
  apply holds_bind, holds_perform; [apply Hsay|]. intros []. rewrite (proj2 (Hsay g' _)). by eexists.
Qed.

(** Nothing but lines on the terminal and the forwarder. *)
Definition harmless (X : Type) (e : StartEffect X) : Prop :=
  match e with Say _ | SpawnForwarder _ => True | _ => False end.
Definition strict : Monitor StartEffect () := mkMonitor () (fun _ _ => harmless _) (fun _ _ _ _ => tt).

(** Something in the configuration cannot be used. *)
Definition unusable iterate status env (c : LacsConfig) : Prop :=
  (exists why, asked_for iterate status env c = Err why)
  \/ (exists s, cfg_syslog c = Some s /\ (enterprise_number s = 0%N \/ socket_addr_from_str (syslog_host s) = None))
  \/ exists s why, cfg_storage c = Some s /\ parsed s = Err why.

Lemma harmless_holds {A} (p : start A) g : only harmless p -> holds strict (fun _ _ => True) g p.
Proof. intros Hp. apply (holds_only _ harmless (fun _ => True) _ _ _ Hp); done. Qed.

Lemma run_forwarding_fails status env c policy f iterate :
  from_overrides (iterate (default ∅ (cfg_risk_overrides c))) = Ok policy ->
  (exists why, asked_for iterate status env c = Err why) \/ (exists s why, cfg_storage c = Some s /\ parsed s = Err why) ->
  let e := apply_defaults_to_env c env in
  holds strict (fun _ r => exists why, r = Returned (Err why)) tt
    (run_forwarding e (default_listen_uri e status) c policy f).
Proof.
  cbv zeta. unfold asked_for. intros Ep Hu. rewrite Ep in Hu. unfold run_forwarding. apply holds_bind.
  eapply holds_mono; [|apply harmless_holds; unfold say; repeat ostep; done]. intros [] u _. cbv beta.
  destruct (try_from_uri _) as [target|err]; [|apply holds_ret; by eexists].
  destruct Hu as [[why [=]]|(s & why & Es & Eparsed)].
  unfold open_state_for, build_postgres_audit, say. rewrite Es, Eparsed.
  split; [done|]. intros []. by eexists.
Qed.

Lemma unusable_fails iterate status env c :
  unusable iterate status env c ->
  holds strict (fun _ r => exists why, r = Returned (Err why)) tt (run_with iterate status env c).
Proof.
  unfold unusable, run_with. intros Hu.
  destruct (from_overrides _) as [policy|why] eqn:Ep; [|unfold say; hgo; by eexists].
  apply holds_bind. eapply holds_mono; [|apply harmless_holds; unfold announce_overrides, say; repeat ostep; done].
  intros [] u _. cbv beta. apply holds_bind. unfold build_forwarder, syslog_validate.
  destruct (cfg_syslog c) as [s|] eqn:Es.
  - destruct (enterprise_number s =? 0)%N eqn:En; [unfold say; hgo; by eexists|].
    destruct (socket_addr_from_str (syslog_host s)) as [host|] eqn:Eh; [|unfold say; hgo; by eexists].
    hgo. eapply run_forwarding_fails; [exact Ep|].
    destruct Hu as [?|[(s' & [=<-] & [?|?])|?]]; [by left| |congruence|by right].
    by apply N.eqb_neq in En.
  - hgo. eapply run_forwarding_fails; [exact Ep|]. destruct Hu as [?|[(s' & [=] & _)|?]]; [by left|by right].
Qed.


(** The process: what a configuration leads to, or the refusal of one that does not load. *)
Lemma body_tells from_toml read iterate status env body :
  run from_toml read iterate status env = Some body -> holds has_served tells false body.
Proof.
  unfold run. destruct (load from_toml read env) as [[c|reason]|]; intros [= <-]; [apply run_tells|].
  hgo. by split.
Qed.

Lemma zero_means_served from_toml read iterate status env body (tr : trace) code :
  run from_toml read iterate status env = Some body -> runs (main_of body) tr code ->
  code = 0%Z <-> exists target state u, mkEvent _ (Serve target state) u ∈ tr.
Proof.
  intros Hrun Hr. apply body_tells in Hrun.
  apply (main_holds has_served) in Hrun; [|by intros [] line].
  destruct (holds_runs _ _ _ _ _ _ Hrun Hr) as [(r & Hr1 & ->) _].
  pose proof (after_served tr false) as Hs.
  destruct Hr1 as [Hr1 Hne]. rewrite Hr1 in Hs. destruct r as [[[]|why]|code']; naive_solver.
Qed.

(** The address a configuration that loads and can be used asks for. *)
Definition configured from_toml read iterate status env (target : ListenTarget) : Prop :=
  exists c policy, load from_toml read env = Some (Ok c) /\ asked_for iterate status env c = Ok (policy, target).

Lemma run_is_orderly from_toml read iterate status env body (tr : trace) code :
  run from_toml read iterate status env = Some body -> runs (main_of body) tr code ->
  (exists c policy target, load from_toml read env = Some (Ok c)
     /\ asked_for iterate status env c = Ok (policy, target)
     /\ forall pre X (e : StartEffect X) x suf, tr = pre ++ mkEvent X e x :: suf -> orderly policy target X pre e)
  \/ forall pre X (e : StartEffect X) x suf, tr = pre ++ mkEvent X e x :: suf -> harmless X e.
Proof.
  unfold run. destruct (load from_toml read env) as [[c|reason]|]; intros [= <-] Hr.
  2: { right. cbn in Hr. apply runs_inv in Hr as ([] & tr' & -> & [-> ->]%runs_ret_iff).
       intros [|ev pre] X e x suf E; [|by destruct pre].
       pose proof (f_equal (fun l => match l with ev :: _ => harmless _ (ev_effect ev) | [] => True end) E) as HE.
       cbn in HE. by rewrite <-HE. }
  destruct (asked_for iterate status env c) as [[policy target]|why] eqn:Ha.
  - left. exists c, policy, target. split_and!; [done..|]. apply run_with_orderly in Ha.
    assert (Hm : holds (history (orderly policy target)) (fun _ _ => True) [] (main_of (run_with iterate status env c))).
    { unfold main_of. apply holds_bind. eapply holds_mono; [|exact Ha]. by intros g [[]|] _; cbv beta iota; hgo. }
    by destruct (history_runs _ _ _ _ _ Hm Hr).
  - right. assert (Hu : unusable iterate status env c) by (left; by eexists).
    apply unusable_fails, (main_holds strict) in Hu; [|by intros [] line].
    by destruct (holds_runs _ _ _ _ _ _ Hu Hr).
Qed.

(** ** The properties *)

(** C21: The daemon removes nothing but a socket at the very path its configuration
    names, found there and tried by a connection that failed, both just before; it binds
    that path only, when nothing was found there or right after such a removal. It
    serves only the address and the policy its configuration asks for, with the address
    bound (a socket open to owner and group), the trail open with the key its request
    hashes use, and the work an earlier process left behind looked after. The process
    ends with status 0 exactly when it has served. A failed connection is all the code
    asks of a socket it removes: one that refuses this user counts as dead, as
    [unreachable_socket_is_removed] shows. *)
Theorem daemon_starts_in_order from_toml read iterate status env body (tr : trace) code :
  run from_toml read iterate status env = Some body -> runs (main_of body) tr code ->
  (forall pre path r suf, tr = pre ++ mkEvent _ (RemoveFile path) r :: suf ->
     configured from_toml read iterate status env (Unix path) /\ found_unanswered path pre)
  /\ (forall pre path r suf, tr = pre ++ mkEvent _ (BindUnix path) r :: suf ->
        configured from_toml read iterate status env (Unix path) /\ found_free path pre)
  /\ (forall pre target state u suf, tr = pre ++ mkEvent _ (Serve target state) u :: suf ->
        exists c, load from_toml read env = Some (Ok c)
          /\ asked_for iterate status env c = Ok (ds_policy state, target) /\ bound target pre
          /\ (exists key, store_open key pre /\ ds_request_hash_key state = request_hash_key key)
          /\ exists r, mkEvent _ ReconcileRunning r ∈ pre)
  /\ (code = 0%Z <-> exists target state u, mkEvent _ (Serve target state) u ∈ tr).
Proof.
  intros Hrun Hr. pose proof (zero_means_served _ _ _ _ _ _ _ _ Hrun Hr) as Hcode.
  destruct (run_is_orderly _ _ _ _ _ _ _ _ Hrun Hr) as [(c & policy & target & Hload & Hasked & Hord)|Hharm].
  - split_and!; [intros pre path r suf E; apply Hord in E as [-> ?]; split; [by exists c, policy|done]..| |done].
    intros pre target' state u suf E. apply Hord in E as (-> & Hb & <- & Hkey & Hrec). by exists c.
  - split_and!; [intros pre path r suf E; by apply Hharm in E..| |done]. intros pre target state u suf E. by apply Hharm in E.
Qed.

(** A configuration that cannot be used ends the process with status 1 before it has
    touched a file, a key, a database or a socket. *)
Theorem misconfiguration_touches_nothing iterate status env c (tr : trace) code :
  unusable iterate status env c -> runs (main_of (run_with iterate status env c)) tr code ->
  code = 1%Z /\ Forall (fun ev => harmless _ (ev_effect ev)) tr.
Proof.
  intros Hu Hr. apply unusable_fails, (main_holds strict) in Hu; [|by intros [] line].
  destruct (holds_runs _ _ _ _ _ _ Hu Hr) as [(r & [why ->] & ->) Hall]. split; [done|].
  apply Forall_forall. intros [X e x] (pre & suf & E)%list_elem_of_split. by eapply Hall.
Qed.

(** The sweep waits between its rounds, and does nothing else than clean up and report. *)
Theorem sweep_only_cleans ticks :
  only (fun X (e : StartEffect X) => match e with CleanupStale | Sleep _ | Say _ => True | _ => False end) (sweep ticks).
Proof.
  unfold sweep. apply only_bind; [unfold sweep_tick, say; repeat ostep; done|]. intros _.
  induction ticks as [|n IH]; cbn [sweep_later]; [done|].
  unfold sweep_tick, say. repeat ostep; done.
Qed.

End Startup.

(** ** Daemons to start *)

Module StartupSample.
#[local] Existing Instance Toy.crypto.
#[local] Existing Instance PolicySample.catalogue.
#[local] Existing Instance StoreSample.env.

Definition SOCKET : string := "/run/sysknife/daemon.sock".
Definition env : environ :=
  {["SYSKNIFE_LISTEN_URI" := ("unix://" ++ SOCKET)%string; "SYSKNIFE_DATABASE_PATH" := "/var/lib/sysknife/daemon.sqlite";
    "HOME" := "/root"]}.

(** A machine with a socket at the address; [connect] is what connecting to it answers. *)
Definition host (connect : result string ()) : Program.oracle StartEffect := fun X _ e =>
  match e in StartEffect X return X with
  | Say _ => tt
  | PathExists _ => true
  | CreateDirAll _ | SetMode _ _ | RemoveFile _ | BindUnix _ | BindVsock _ | Listening _ => Ok tt
  | SymlinkIsSocket _ => Ok true
  | Connect _ => connect
  | GetEuid => 0%N
  | LoadAuditKey _ => Ok StoreSample.key
  | OpenSqlite _ _ | ConnectPostgres _ _ => Ok tt
  | DetectDistro => Some (Ubuntu 24 4)
  | SpawnForwarder _ => tt
  | ReconcileRunning => Ok 1%N
  | SpawnSweep => tt
  | Sleep _ => tt
  | CleanupStale => Ok 0%N
  | SpawnAnchorTask _ _ => tt
  | ConnectCheckpoint _ => Ok tt
  | SpawnPeriodicAnchor _ => tt
  | Serve _ _ => tt
  end.
Definition toml (s : string) : result string LacsConfig := Ok default_config.
Definition no_file (p : string) : FileRead := FileMissing.
Definition body (c : LacsConfig) : prog StartEffect End_ := run_with map_to_list None env c.
Definition started (c : LacsConfig) (connect : result string ()) : list (event StartEffect) * Z :=
  interp (host connect) 0 (main_of (body c)).

(** What a run did to sockets, the store and the connections, in order. *)
Inductive Deed : Type := Probed | Removed | Bound | Reconciled | Served.
Definition deed {X} (e : StartEffect X) : option Deed :=
  match e with
  | Connect _ => Some Probed | RemoveFile _ => Some Removed | BindUnix _ => Some Bound
  | ReconcileRunning => Some Reconciled | Serve _ _ => Some Served | _ => None
  end.
Definition deeds (tr : list (event StartEffect)) : list Deed := omap (fun ev => deed (ev_effect ev)) tr.
Definition forwarding (h : string) : LacsConfig := mkConfig None None None (Some (mkSyslog h 1 32473)) None.
End StartupSample.

Section Witnesses.
Import StartupSample.
#[local] Existing Instance Toy.crypto.
#[local] Existing Instance PolicySample.catalogue.
#[local] Existing Instance StoreSample.env.

Lemma daemon_starts_in_order_witness :
  let tr := (started default_config (Err "Connection refused (os error 111)")).1 in
  deeds tr = [Reconciled; Probed; Removed; Bound; Served]
  /\ exists target state u, mkEvent _ (Serve target state) u ∈ tr.
Proof.
  cbv zeta. split; [vm_compute; reflexivity|].
  assert (Hrun : run toml no_file map_to_list None env = Some (body default_config)).
  { unfold run. assert (E : load toml no_file env = Some (Ok default_config)) by (vm_compute; reflexivity).
    by rewrite E. }
  pose proof (interp_runs (host (Err "Connection refused (os error 111)")) 0 (main_of (body default_config))) as Hr.
  apply (daemon_starts_in_order _ _ _ _ _ _ _ _ Hrun Hr). vm_compute. reflexivity.
Defined.

(** A second daemon started on the socket of one that runs is refused, after it has
    already failed the work in progress: the row the first is executing is marked as
    failed, and what the first reports when it is done is refused. *)
Example second_daemon_fails_running_work :
  let '(tr, code) := started default_config (Ok tt) in
  code = 1%Z /\ deeds tr = [Reconciled; Probed]
  /\ exists db, reconcile_interrupted_running (Some StoreSample.key) 3 StoreSample.db3 = Some (Ok (1, db))
       /\ tx_status <$> find_tx db "t1" = Some Failed
       /\ update_status (Some StoreSample.key) 4 "t1" Succeeded db = Err (InvalidTransition Failed Succeeded).
Proof.
  vm_compute. split; [reflexivity|]. split; [reflexivity|].
  eexists. split; [reflexivity|]. split; reflexivity.
Qed.

(** A socket that refuses this user is taken for a dead one and removed. *)
Example unreachable_socket_is_removed :
  deeds (started default_config (Err "Permission denied (os error 13)")).1 = [Reconciled; Probed; Removed; Bound; Served].
Proof. vm_compute. reflexivity. Qed.

(** The receiver as it is documented, a host name with a port, keeps the daemon from
    starting; an address does not. *)
Example documented_host_is_refused :
  (started (forwarding "siem.internal:514") (Err "")).2 = 1%Z
  /\ deeds (started (forwarding "siem.internal:514") (Err "")).1 = []
  /\ (started (forwarding "10.0.0.7:514") (Err "")).2 = 0%Z
  /\ (started (forwarding "[2001:db8::7%3]:514") (Err "")).2 = 0%Z.
Proof. vm_compute. split_and!; reflexivity. Qed.

Lemma misconfiguration_touches_nothing_witness :
  let r := started (forwarding "siem.internal:514") (Err "") in
  r.2 = 1%Z /\ Forall (fun ev => harmless _ (ev_effect ev)) r.1.
Proof.
  cbv zeta. pose proof (interp_runs (host (Err "")) 0 (main_of (body (forwarding "siem.internal:514")))) as Hr.
  apply (misconfiguration_touches_nothing map_to_list None env (forwarding "siem.internal:514") _ _); [|exact Hr].
  right. left. eexists. split; [reflexivity|]. right. vm_compute. reflexivity.
Defined.
End Witnesses.
