(* ===== verification/Fuzz.v ===== *)
(** * What the fuzz targets check

    fuzz/fuzz_targets/validators.rs and frame_recv.rs. A target is a function of the
    bytes it is given to the reason of its panic, or nothing. The targets restate,
    independently of the daemon, what its validators may accept and how its framing
    reads the wire; here no input makes one of them fail. [FuzzActions.v] is the target
    over whole actions. *)

From Stdlib Require Import Ascii String ZArith NArith Lia.
From stdpp Require Import base list strings gmap.
From S2P Require Import Prelude Json Types Actions Signing Ip Framing Catalogue Validate Params Builder Executor Argv Sanitize Distro.

(** ** validators.rs *)

Definition Validator : Type := string -> string -> result ExecutorError string.
Definition Extra : Type := string -> string -> result string ().

Record Spec : Type := mkFuzzSpec {
  sp_name : string;
  sp_run : Validator;
  sp_max_len : option nat;
  sp_charset : option (ascii -> bool);
  sp_refuses_leading_dash : bool;
  sp_rewrites : bool;
  sp_extra : Extra }.

(** [spec!] *)
Definition spec (name : string) (run : Validator) (max : option nat) (chars : option (ascii -> bool)) (dash : bool)
    (extra : Extra) : Spec := mkFuzzSpec name run max chars dash false extra.

Definition no_extra : Extra := fun _ _ => Ok tt.

(** *** Character sets *)

Definition cs_name (c : ascii) : bool := is_alnum c || one_of "._-" c.
Definition cs_unit (c : ascii) : bool := is_alnum c || one_of "@._:-" c.
Definition cs_dns (c : ascii) : bool := is_alnum c || one_of ".-" c.
Definition cs_timezone (c : ascii) : bool := is_alnum c || one_of "/_+-" c.
Definition cs_ppa (c : ascii) : bool := is_alnum c || one_of "._-/" c.
Definition cs_port_or_service (c : ascii) : bool := is_alnum c || one_of "_- /" c.
Definition cs_safe_arg (c : ascii) : bool := is_alnum c || one_of "._:/+@-" c.
Definition cs_lvm_name (c : ascii) : bool := is_alnum c || one_of "+_.-" c.
Definition cs_lvm_size (c : ascii) : bool := is_digit c || one_of "." c || one_of "+" c || is_alpha c.
Definition cs_journal_priority (c : ascii) : bool := is_lower c || is_digit c || one_of "." c.
Definition cs_journal_time (c : ascii) : bool := is_alnum c || one_of " :-+.," c.
Definition cs_sysctl_key (c : ascii) : bool := is_lower c || is_digit c || one_of "._-" c.
Definition cs_sysctl_value (c : ascii) : bool := is_alnum c || one_of " ._/:,-" c.
Definition cs_digits_suffix (c : ascii) : bool := is_digit c || one_of "KMGT" c || is_lower c.
Definition cs_cpu_quota (c : ascii) : bool := is_digit c || one_of "%" c.
Definition cs_mount_device (c : ascii) : bool := is_alnum c || one_of "/_.-=:" c.
Definition cs_path (c : ascii) : bool := is_alnum c || one_of "/_.-" c.
Definition cs_lower_token (c : ascii) : bool := is_lower c || is_digit c || one_of "_-" c.
Definition cs_log_path (c : ascii) : bool := is_alnum c || one_of "/._*-" c.
Definition cs_syslog_host (c : ascii) : bool := is_alnum c || one_of ".:_-" c.
Definition cs_install_package (c : ascii) : bool := is_alnum c || one_of "+._:=~^-" c.
Definition cs_apt_package (c : ascii) : bool := is_alnum c || one_of ".+*?_:-" c.
Definition cs_apt_pin_expr (c : ascii) : bool := is_alnum c || one_of " =.,:/*_+-" c.
Definition cs_sudo_commands (c : ascii) : bool := is_alnum c || one_of "/._-," c.
Definition cs_pro_service (c : ascii) : bool := is_lower c || is_digit c || one_of "-" c.
Definition cs_audit_perms (c : ascii) : bool := one_of "rwxa" c.
Definition cs_email (c : ascii) : bool := is_alnum c || one_of "@._+-" c.
Definition cs_mount_options (c : ascii) : bool := is_alnum c || one_of "=,._:@/+-" c.
Definition cs_lower_alnum (c : ascii) : bool := is_lower c || is_digit c.

(** *** Contracts beyond character set and length *)

Definition CRITICAL_ACCOUNTS : list string := ["root"; "daemon"; "bin"; "sys"; "sudo"; "adm"].
Definition CRITICAL_GROUPS : list string :=
  ["root"; "sudo"; "wheel"; "adm"; "sys"; "daemon"; "bin"; "staff"; "shadow"; "disk"].
Definition ROOT_SHELL_UNITS : list string := ["debug-shell"; "emergency"; "rescue"; "runlevel1"; "single"].
Definition PROTECTED_UNITS : list string :=
  ["sysknife-daemon"; "auditd"; "systemd-journald"; "rsyslog"; "dbus"; "dbus-broker"; "polkit"; "polkitd";
   "systemd-logind"; "ssh"; "sshd"].
Definition PROTECTED_PREFIXES : list string := ["systemd-journald"; "auditd"; "audit-rules"].
Definition UNIT_SUFFIXES : list string := [".service"; ".target"; ".socket"; ".mount"; ".path"; ".slice"; ".scope"].
Definition CRITICAL_MOUNTPOINTS : list string :=
  ["/"; "/boot"; "/boot/efi"; "/etc"; "/usr"; "/bin"; "/sbin"; "/lib"; "/lib64"; "/var"; "/home"; "/root"; "/proc";
   "/sys"; "/dev"; "/run"].
Definition FSTYPES : list string :=
  ["ext4"; "ext3"; "ext2"; "xfs"; "btrfs"; "vfat"; "exfat"; "ntfs3"; "nfs"; "nfs4"; "cifs"].
Definition JOURNAL_LEVELS : list string :=
  ["0"; "1"; "2"; "3"; "4"; "5"; "6"; "7"; "emerg"; "alert"; "crit"; "err"; "warning"; "notice"; "info"; "debug"].

Definition check (ok : bool) (why : string) : result string () := if ok then Ok tt else Err why.

Definition name_shape : Extra := fun _ out =>
  check (negb (starts_with "." out) && negb (contains ".." out)) "name starts with '.' or contains '..'".

Definition not_critical_account : Extra := fun i o =>
  _ ← name_shape i o; check (negb (str_in o CRITICAL_ACCOUNTS)) "critical account accepted".

Definition not_critical_group : Extra := fun i o =>
  _ ← name_shape i o; check (negb (str_in o CRITICAL_GROUPS)) "critical group accepted".

Definition bare_unit (unit : string) : string :=
  let lower := to_lower unit in
  let stripped := default lower (find_map (fun s => strip_suffix s lower) UNIT_SUFFIXES) in
  default stripped (head (split_on "@"%char stripped)).

Definition activatable_unit : Extra := fun _ out =>
  check (negb (str_in (bare_unit out) ROOT_SHELL_UNITS)) "root-shell unit accepted for activation".

Definition resource_limit_unit : Extra := fun _ out =>
  let lower := to_lower out in
  _ ← check (negb (ends_with ".slice" lower) && negb (ends_with ".scope" lower)) "cgroup container accepted";
  let bare := bare_unit out in
  check (negb (str_in bare PROTECTED_UNITS) && negb (existsb (fun p => starts_with p bare) PROTECTED_PREFIXES))
    "protected unit accepted".

Definition hostname : Extra := fun _ out =>
  check (forallb (fun l => negb (is_empty l) && (String.length l <=? 63)) (split_on "."%char out))
    "hostname label empty or longer than 63".

Definition timezone : Extra := fun _ out => check (negb (contains ".." out)) "timezone contains '..'".

Definition ppa : Extra := fun _ out =>
  check ((count_char "/"%char out =? 1) && forallb (fun half => negb (is_empty half)) (split_on "/"%char out))
    "ppa is not <user>/<ppa>".

Definition apparmor : Extra := fun _ out =>
  let PREFIX := "/etc/apparmor.d/" in
  if starts_with "/" out then
    check (starts_with PREFIX out && (String.length PREFIX <? String.length out) && negb (contains ".." out))
      "apparmor path outside /etc/apparmor.d or traversing"
  else
    check (negb (str_has "/"%char out) && negb (starts_with "." out) && (String.length out <=? 128))
      "apparmor profile name malformed".

Definition port_in_range (p : string) : bool :=
  negb (is_empty p) && str_all is_digit p
  && match parse_u32 p with Some n => (1 <=? n)%N && (n <=? 65535)%N | None => false end.

Definition port_or_service : Extra := fun _ out =>
  match split_once "/"%char out with
  | Some (port, proto) => check (port_in_range port && str_in proto ["tcp"; "udp"]) "slash form is not <port>/(tcp|udp)"
  | None =>
      if str_all is_digit out then check (port_in_range out) "bare port out of range"
      else check (first_is is_alpha out && (String.length out <=? 64) && negb (ends_with " " out)) "app profile malformed"
  end.

Definition lvm_name : Extra := fun _ out =>
  check (first_is (fun c => is_alnum c || one_of "_" c) out) "lvm name does not start with alphanumeric or '_'".

Definition lvm_size : Extra := fun _ out =>
  let body := default out (strip_prefix "+" out) in
  digits ← match last_char body with
           | Some c => if is_alpha c
                       then _ ← check (one_of "kKmMgGtTpP" c) "lvm size unit not one of kKmMgGtTpP"; Ok (but_last body)
                       else Ok body
           | None => Ok body
           end;
  check (negb (is_empty digits) && (count_char "."%char digits <=? 1) && negb (starts_with "." digits)
         && negb (ends_with "." digits) && str_all (fun c => is_digit c || one_of "." c) digits)
    "lvm size is not <digits>[.<digits>][unit]".

Definition journal_priority : Extra := fun _ out =>
  check match split_once_str ".." out with
        | Some (lo, hi) => str_in lo JOURNAL_LEVELS && str_in hi JOURNAL_LEVELS
        | None => str_in out JOURNAL_LEVELS
        end "journal priority is not a level or a range of levels".

Definition sysctl_key : Extra := fun _ out =>
  check (first_is (fun c => is_lower c || is_digit c) out) "sysctl key starts with '.', '_' or '-'".

(** [strip_suffix(['K', 'M', 'G', 'T'])] *)
Definition strip_unit (out : string) : option string :=
  match last_char out with Some c => if one_of "KMGT" c then Some (but_last out) else None | None => None end.

Definition memory_limit : Extra := fun _ out =>
  let digits := default out (strip_unit out) in
  check ((out =? "infinity")%string || negb (is_empty digits) && str_all is_digit digits)
    "memory limit is neither infinity nor <digits>[KMGT]".

Definition cpu_quota : Extra := fun _ out =>
  check match strip_suffix "%" out with
        | Some d => (1 <=? String.length d) && (String.length d <=? 7) && str_all is_digit d
        | None => false
        end "cpu quota is not <1-7 digits>%".

Definition tasks_max : Extra := fun _ out =>
  check ((out =? "infinity")%string || negb (is_empty out) && str_all is_digit out)
    "tasks max is neither infinity nor digits".

Definition mount_device : Extra := fun _ out =>
  _ ← check (negb (contains ".." out)) "mount device contains '..'";
  let dev := starts_with "/dev/" out in
  let uuid := match strip_prefix "UUID=" out with Some u => 8 <=? String.length u | None => false end in
  let label := match strip_prefix "LABEL=" out with Some l => negb (is_empty l) | None => false end in
  let cifs := starts_with "//" out && (3 <=? count_char "/"%char out) in
  let nfs := match split_once_str ":/" out with
             | Some (host, _) => negb (is_empty host) && negb (starts_with "/" host)
             | None => false
             end in
  check (dev || uuid || label || cifs || nfs)
    "mount device is not /dev/, UUID=, LABEL=, //host/share or host:/export".

Definition absolute_path : Extra := fun _ out =>
  check (starts_with "/" out && negb (contains ".." out)) "path is not absolute or traverses".

Definition mount_point : Extra := fun i out =>
  _ ← absolute_path i out; check (negb (str_in out CRITICAL_MOUNTPOINTS)) "critical mountpoint accepted".

Definition fstype : Extra := fun _ out => check (str_in out FSTYPES) "fstype outside the allowlist".

Definition mount_option_tokens (opts : string) : list string :=
  List.filter (fun o => negb (is_empty o)) (split_on ","%char opts).

Definition hardened : Extra := fun _ out =>
  let has want := existsb (fun o => eq_ignore_case o want) (mount_option_tokens out) in
  check (has "nosuid" && has "nodev") "nosuid or nodev missing".

Definition mount_options : Extra := fun input out =>
  _ ← hardened input out;
  _ ← check (negb (existsb (fun o => eq_ignore_case o "suid" || eq_ignore_case o "dev") (mount_option_tokens out)))
        "suid or dev accepted";
  check (starts_with (join "," (mount_option_tokens input)) out) "operator options were dropped or reordered".

Definition sudoers_name : Extra := fun _ out =>
  check (first_is (fun c => is_lower c || is_digit c) out) "name starts with '_' or '-'".

Definition log_path : Extra := fun _ out =>
  check (starts_with "/var/log/" out && negb (contains ".." out)) "log path outside /var/log/ or traversing".

Definition syslog_host : Extra := fun _ out => check (negb (contains ".." out)) "syslog host contains '..'".

Definition install_package : Extra := fun _ out =>
  check (first_is is_alnum out && negb (str_has "/"%char out) && negb (ends_with ".deb" out) && negb (ends_with ".rpm" out))
    "install package could name a local file".

Definition sudo_commands : Extra := fun _ out =>
  if (out =? "ALL")%string then Ok tt
  else
    let commands := List.filter (fun c => negb (is_empty c)) (split_on ","%char out) in
    _ ← check (match commands with [] => false | _ => true end) "sudo command list is empty";
    _ ← check (forallb (fun c => starts_with "/" c && negb (contains ".." c) && negb (str_has "*"%char c)) commands)
          "sudo command not an absolute path, or traverses, or is a glob";
    match shell_equivalent_sudo_command out with
    | Some hit => check (existsb (fun c => (c =? hit)%string) (split_on ","%char out))
                    "shell-equivalence screen named a command not in the list"
    | None => Ok tt
    end.

Definition audit_perms : Extra := fun _ out =>
  let chars := bytes_of out in
  check ((1 <=? String.length out) && (String.length out <=? 4)
         && forallb id (imap (fun i c => negb (existsb (fun p => Ascii.eqb p c) (take i chars))) chars))
    "audit perms empty, longer than 4, or repeated".

Definition domain : Extra := fun _ out =>
  check (negb (starts_with "." out) && negb (ends_with "." out) && negb (contains ".." out)) "domain has an empty label".

Definition email : Extra := fun _ out =>
  let parts := split_on "@"%char out in
  check (match parts !! 2 with None => true | Some _ => false end
         && match parts !! 0 with Some l => negb (is_empty l) | None => false end
         && match parts !! 1 with Some d => negb (is_empty d) && str_has "."%char d | None => false end)
    "email is not <local>@<domain with a dot>".

(** *** The table *)

Definition SPECS : list Spec := [
  spec "validated_username" validated_username (Some 32) (Some cs_name) true name_shape;
  spec "validated_group" validated_group (Some 32) (Some cs_name) true name_shape;
  spec "validated_username_not_critical" validated_username_not_critical (Some 32) (Some cs_name) true not_critical_account;
  spec "validated_group_not_critical" validated_group_not_critical (Some 32) (Some cs_name) true not_critical_group;
  spec "validated_unit_name" validated_unit_name None (Some cs_unit) true no_extra;
  spec "validated_activatable_unit" validated_activatable_unit None (Some cs_unit) true activatable_unit;
  spec "validated_resource_limit_unit" validated_resource_limit_unit None (Some cs_unit) true resource_limit_unit;
  spec "validated_hostname" validated_hostname (Some 253) (Some cs_dns) true hostname;
  spec "validated_timezone" validated_timezone None (Some cs_timezone) true timezone;
  spec "validated_locale" validated_locale None (Some cs_name) true no_extra;
  spec "validated_ppa_name" validated_ppa_name (Some SAFE_ARG_MAX_BYTES) (Some cs_ppa) false ppa;
  spec "validated_apparmor_profile" validated_apparmor_profile None (Some cs_ppa) true apparmor;
  spec "validated_port_or_service" validated_port_or_service None (Some cs_port_or_service) true port_or_service;
  spec "validated_safe_arg" validated_safe_arg (Some SAFE_ARG_MAX_BYTES) (Some cs_safe_arg) true no_extra;
  spec "validated_lvm_name" validated_lvm_name (Some 127) (Some cs_lvm_name) true lvm_name;
  spec "validated_lvm_size" validated_lvm_size (Some 32) (Some cs_lvm_size) true lvm_size;
  spec "validated_journal_priority" validated_journal_priority (Some 16) (Some cs_journal_priority) true journal_priority;
  spec "validated_journal_time" validated_journal_time (Some 64) (Some cs_journal_time) false no_extra;
  spec "validated_journal_grep" validated_journal_grep (Some 256) None false no_extra;
  spec "validated_sysctl_key" validated_sysctl_key (Some 128) (Some cs_sysctl_key) true sysctl_key;
  spec "validated_sysctl_value" validated_sysctl_value (Some 200) (Some cs_sysctl_value) false no_extra;
  spec "validated_memory_limit" validated_memory_limit (Some 24) (Some cs_digits_suffix) true memory_limit;
  spec "validated_cpu_quota" validated_cpu_quota (Some 8) (Some cs_cpu_quota) true cpu_quota;
  spec "validated_tasks_max" validated_tasks_max (Some 12) (Some cs_digits_suffix) true tasks_max;
  spec "validated_mount_device" validated_mount_device (Some 256) (Some cs_mount_device) true mount_device;
  spec "validated_mount_point" validated_mount_point (Some 256) (Some cs_path) true mount_point;
  spec "validated_home_dir" validated_home_dir (Some 256) (Some cs_path) true absolute_path;
  spec "validated_swap_path" validated_swap_path (Some 256) (Some cs_path) true absolute_path;
  spec "validated_audit_path" validated_audit_path (Some 255) (Some cs_path) true absolute_path;
  spec "validated_fstype" validated_fstype (Some 5) (Some cs_lower_alnum) true fstype;
  mkFuzzSpec "validated_mount_options" validated_mount_options (Some (256 + String.length ",nosuid,nodev"))
    (Some cs_mount_options) false true mount_options;
  spec "validated_sudoers_name" validated_sudoers_name (Some 64) (Some cs_lower_token) true sudoers_name;
  spec "validated_apt_pin_name" validated_apt_pin_name (Some 64) (Some cs_lower_token) true sudoers_name;
  spec "validated_log_path" validated_log_path (Some 255) (Some cs_log_path) true log_path;
  spec "validated_syslog_host" validated_syslog_host (Some 255) (Some cs_syslog_host) true syslog_host;
  spec "validated_install_package" validated_install_package (Some 128) (Some cs_install_package) true install_package;
  spec "validated_apt_package" validated_apt_package (Some 128) (Some cs_apt_package) true no_extra;
  spec "validated_apt_pin_expr" validated_apt_pin_expr (Some 200) (Some cs_apt_pin_expr) false no_extra;
  spec "validated_sudo_commands" validated_sudo_commands (Some 1024) (Some cs_sudo_commands) true sudo_commands;
  spec "validated_pro_service" validated_pro_service (Some 16) (Some cs_pro_service) true no_extra;
  spec "validated_audit_perms" validated_audit_perms (Some 4) (Some cs_audit_perms) true audit_perms;
  spec "validated_domain" validated_domain (Some 253) (Some cs_dns) true domain;
  spec "validated_email" validated_email (Some 254) (Some cs_email) false email].

(** *** The target *)

(** [core::str::from_utf8]: the text, when every part of it is well formed. *)
Fixpoint well_formed (fuel : nat) (s : string) : bool :=
  match fuel, s with
  | S fuel', String c rest => let '(n, ok) := utf8_step c rest in ok && well_formed fuel' (str_drop n s)
  | _, _ => true
  end.
Definition from_utf8 (bs : bytes) : option string :=
  let s := string_of_list_ascii bs in if well_formed (String.length s) s then Some s else None.

(** The checks on an accepted value, in the order they are made. *)
Definition judge (s : Spec) (input out : string) : result string () :=
  _ ← check (negb (str_has NUL out)) "NUL byte in an accepted value";
  _ ← check (negb (has_control out)) "control character in an accepted value";
  _ ← check (negb (is_empty out)) "empty value accepted";
  _ ← check (sp_rewrites s || (out =? input)%string) "validator changed the value it accepted";
  _ ← check (negb (sp_refuses_leading_dash s && starts_with "-" out))
        "leading '-' accepted where it would be read as an option";
  _ ← match sp_max_len s with
      | Some max => check (String.length out <=? max) "value longer than the documented bound"
      | None => Ok tt
      end;
  _ ← match sp_charset s with
      | Some allowed => check (str_all allowed out) "character outside the documented set"
      | None => Ok tt
      end;
  sp_extra s input out.

(** [fail] *)
Definition panic_text (name input out why : string) : text :=
  [Lit name; Lit " accepted "; Dbg input; Lit " and returned "; Dbg out; Lit ": "; Lit why].

Definition fuzz_validators (data : bytes) : result text () :=
  match data with
  | [] => Ok tt
  | selector :: rest =>
      match from_utf8 rest, SPECS !! (nat_of_ascii selector mod length SPECS) with
      | Some input, Some s =>
          match sp_run s input "param" with
          | Err _ => Ok tt
          | Ok out => match judge s input out with
                      | Ok _ => Ok tt
                      | Err why => Err (panic_text (sp_name s) input out why)
                      end
          end
      | _, _ => Ok tt
      end
  end.

(** ** frame_recv.rs *)

Inductive Expected : Type := EBody (body : bytes) | ETooLarge (len : N) | EUnexpectedEof.

Definition expected (stream : bytes) : Expected :=
  if length stream <? 4 then EUnexpectedEof
  else
    let rest := drop 4 stream in
    let len := from_le_bytes (take 4 stream) in
    if (MAX_MESSAGE_BYTES <? len)%N then ETooLarge len
    else if length rest <? N.to_nat len then EUnexpectedEof
    else EBody (take (N.to_nat len) rest).

(** The target's loop; [st] is how the pipe hands the bytes out. The fuel is more than
    the bytes: every frame takes four of them. *)
Fixpoint recv_all (fuel : nat) (rest : bytes) (st : list Framing.event) : result string () :=
  match fuel with
  | O => Err "out of fuel"
  | S fuel' =>
      let '(got, st', _) := recv st in
      match expected rest, got with
      | EBody body, Ok read =>
          if bool_decide (read = body) then recv_all fuel' (drop (4 + length body) rest) st'
          else Err "recv returned a different body"
      | ETooLarge len, Err (MessageTooLarge n) =>
          if (n =? len)%N then Ok tt else Err "MessageTooLarge reported the wrong length"
      | EUnexpectedEof, Err (Framing.Io UnexpectedEof) => Ok tt
      | EUnexpectedEof, Err (Framing.Io (OtherIo _)) => Err "assertion failed: e.kind() == UnexpectedEof"
      | _, _ => Err "recv disagrees with the wire format"
      end
  end.
Definition fuzz_frame_recv (data : bytes) (st : list Framing.event) : result string () := recv_all (S (length data)) data st.

(** ** Character sets *)

Lemma forall_ascii (P : ascii -> bool) :
  forallb (fun n => P (ascii_of_nat n)) (seq 0 256) = true -> forall c, P c = true.
Proof.
  rewrite forallb_forall. intros Hall c. rewrite <-(ascii_nat_embedding c). apply Hall, in_seq.
  pose proof (nat_ascii_bounded c). lia.
Qed.

(** [q] holds of every character [p] holds of. *)
Definition within (p q : ascii -> bool) : bool :=
  forallb (fun n => implb (p (ascii_of_nat n)) (q (ascii_of_nat n))) (seq 0 256).

Lemma within_str_all p q s : within p q = true -> str_all p s = true -> str_all q s = true.
Proof.
  intros Hw. apply str_all_mono. intros c Hc.
  pose proof (forall_ascii (fun c => implb (p c) (q c)) Hw c) as Hi. cbv beta in Hi. by rewrite Hc in Hi.
Qed.

Definition printable : ascii -> bool := between 32 126.

Lemma printable_clean s : str_all printable s = true -> str_has NUL s = false /\ has_control s = false.
Proof.
  induction s as [|c s IH]; [done|]. cbn [str_all str_has str_exists has_control]. intros H. bools.
  destruct IH as [IH1 IH2]; [done|]. unfold str_has in IH1. rewrite IH1, IH2.
  unfold printable, between in *. bools.
  repeat match goal with H : (_ <=? _) = true |- _ => apply Nat.leb_le in H end.
  assert (Hn : Ascii.eqb NUL c = false).
  { apply Ascii.eqb_neq. intros <-. change (nat_of_ascii NUL) with 0 in *. lia. }
  rewrite Hn. split; [done|].
  replace (nat_of_ascii c <? 32) with false by (symmetry; apply Nat.ltb_ge; lia).
  replace (nat_of_ascii c =? 127) with false by (symmetry; apply Nat.eqb_neq; lia).
  replace (nat_of_ascii c =? 194) with false by (symmetry; apply Nat.eqb_neq; lia). done.
Qed.

(** ** The contracts are met *)

Definition meets (s : Spec) : Prop := forall input param out, sp_run s input param = Ok out -> judge s input out = Ok tt.

Lemma check_Ok b why : check b why = Ok tt <-> b = true.
Proof. destruct b; naive_solver. Qed.

Lemma judge_intro (s : Spec) input out p :
  sp_charset s = Some p -> within p printable = true -> str_all p out = true -> is_empty out = false ->
  (sp_rewrites s = false -> out = input) -> (sp_refuses_leading_dash s = true -> no_dash out) ->
  match sp_max_len s with Some max => String.length out <= max | None => True end ->
  sp_extra s input out = Ok tt -> judge s input out = Ok tt.
Proof.
  intros Hc Hp Ha He Hr Hd Hm Hx. unfold judge.
  destruct (printable_clean out) as [-> ->]; [by eapply within_str_all|]. rewrite He, Hc, Ha. cbn [negb check mbind result_bind].
  replace (sp_rewrites s || (out =? input)%string) with true; cbn [check].
  2: { destruct (sp_rewrites s); [done|]. rewrite Hr by done. by rewrite String.eqb_refl. }
  replace (sp_refuses_leading_dash s && starts_with "-" out) with false; cbn [negb check].
  2: { destruct (sp_refuses_leading_dash s); [by rewrite Hd|done]. }
  destruct (sp_max_len s) as [max|]; [|done]. apply Nat.leb_le in Hm. by rewrite Hm.
Qed.

(** [unfolds H]: the validator of [H], one definition at a time. *)
Ltac unfolds H := lazymatch type of H with ?t = Ok _ => let h := head_of t in unfold h in H end.

Lemma longer_le n s : longer_than n s = false -> String.length s <= n.
Proof. unfold longer_than. apply Nat.ltb_ge. Qed.

(** The tests an accepted value passed, down to the validator's own. *)
Ltac tests H :=
  lazymatch type of H with
  | mbind _ _ = Ok _ =>
      let x := fresh "x" in let Hx := fresh "Hx" in apply bind_Ok in H as (x & Hx & H); tests Hx; tests H
  | reject_if _ _ = Ok _ => apply reject_if_Ok in H; bools
  | accept_if _ _ _ = Ok _ => let E := fresh "E" in apply accept_if_Ok in H as [H E]; bools; try subst
  | ok_or _ _ = Ok _ => apply ok_or_Ok in H
  | Ok _ = Ok _ => injection H as H; try subst
  | Err _ = Ok _ => discriminate H
  | (if _ then _ else _) = Ok _ => idtac
  | match _ with _ => _ end = Ok _ => idtac
  | ?t = Ok _ => let h := head_of t in unfold h in H; tests H
  | _ => idtac
  end.

(** The branch the value took, and the tests of that branch. *)
Ltac branches :=
  repeat match goal with
  | H : (if ?b then _ else _) = Ok _ |- _ => let E := fresh "E" in destruct b eqn:E; bools; try subst; tests H
  | H : match ?x with _ => _ end = Ok _ |- _ => let E := fresh "E" in destruct x eqn:E; bools; try subst; tests H
  end.

Ltac finish_check :=
  match goal with
  | H : str_all ?q ?s = true |- str_all _ ?s = true => eapply within_str_all; [|exact H]; vm_compute; reflexivity
  | H : longer_than _ ?s = false |- String.length ?s <= _ => exact (longer_le _ _ H)
  | H : (_ =? String.length ?s) = false |- String.length ?s <= _ => exact (longer_le _ _ H)
  | H : is_empty ?s = false |- is_empty ?s = false => exact H
  | H : first_is _ ?s = true |- is_empty ?s = false => by destruct s
  | H : starts_with _ ?s = true |- is_empty ?s = false => destruct s; [discriminate H|reflexivity]
  | H : _ = Ok ?s |- _ -> no_dash ?s => intros _; exact (no_dash_accepted _ _ _ H)
  | |- str_all _ (String _ _) = true => vm_compute; reflexivity
  | |- is_empty (String _ _) = false => reflexivity
  | |- _ -> no_dash (String _ _) => reflexivity
  | |- String.length (String _ _) <= _ => apply Nat.leb_le; reflexivity
  | |- True => exact I
  | |- false = false -> _ => done
  | |- true = false -> _ => done
  | |- false = true -> _ => done
  | |- no_extra _ _ = _ => reflexivity
  end.

(** The character set of a concatenation. *)
Ltac in_charset := rewrite ?str_all_app; cbn [str_all]; rewrite ?andb_true_iff; split_and?; first [reflexivity|finish_check].

Ltac meet_intro :=
  eapply judge_intro; cbn [sp_charset sp_rewrites sp_refuses_leading_dash sp_max_len sp_extra spec];
  [reflexivity|vm_compute; reflexivity|..]; try finish_check.

Ltac meet :=
  let input := fresh "input" in let param := fresh "param" in let out := fresh "out" in let H := fresh "H" in
  let Hrun := fresh "Hrun" in
  intros input param out H; cbn [sp_run spec] in H; pose proof H as Hrun; tests H; branches; meet_intro.

(** The other checks, from the validator's own. *)
Ltac by_tests :=
  repeat match goal with
  | H : ?b = false |- context [?b] => rewrite H
  | H : ?b = true |- context [?b] => rewrite H
  end; first [reflexivity|cbn [negb andb]; rewrite ?orb_true_r; reflexivity].

Create HintDb contracts discriminated.
#[export] Hint Constants Opaque : contracts.

(** *** Accounts and units *)

Lemma meets_username name : meets (spec name validated_username (Some 32) (Some cs_name) true name_shape).
Proof. meet. unfold name_shape. by_tests. Qed.
Lemma meets_group name : meets (spec name validated_group (Some 32) (Some cs_name) true name_shape).
Proof. exact (meets_username name). Qed.
Lemma meets_account name :
  meets (spec name validated_username_not_critical (Some 32) (Some cs_name) true not_critical_account).
Proof. meet. unfold not_critical_account, name_shape. change Validate.CRITICAL_ACCOUNTS with CRITICAL_ACCOUNTS in *. by_tests. Qed.
Lemma meets_group_name name :
  meets (spec name validated_group_not_critical (Some 32) (Some cs_name) true not_critical_group).
Proof. meet. unfold not_critical_group, name_shape. change Validate.CRITICAL_GROUPS with CRITICAL_GROUPS in *. by_tests. Qed.

(** [split('@').next()] is what is before the first [@]. *)
Lemma head_split c s : head (split_on c s) = Some match split_once c s with Some (l, _) => l | None => s end.
Proof.
  induction s as [|a s IH]; [done|]. cbn [split_on split_once]. destruct (Ascii.eqb a c); [done|].
  destruct (split_on c s) as [|p l]; [done|]. injection IH as ->. by destruct (split_once c s) as [[]|].
Qed.
Lemma bare_unit_same u : bare_unit u = bare_unit_name u.
Proof.
  unfold bare_unit, bare_unit_name. change UNIT_SUFFIXES with UNIT_TYPE_SUFFIXES. cbv zeta.
  rewrite head_split. cbn [default from_option id]. by destruct (split_once _ _) as [[]|].
Qed.

Lemma meets_activatable name : meets (spec name validated_activatable_unit None (Some cs_unit) true activatable_unit).
Proof.
  meet. unfold activatable_unit. rewrite bare_unit_same. change ROOT_SHELL_UNITS with Validate.ROOT_SHELL_UNITS. by_tests.
Qed.
Lemma meets_resource_limit name :
  meets (spec name validated_resource_limit_unit None (Some cs_unit) true resource_limit_unit).
Proof.
  meet. unfold resource_limit_unit. rewrite bare_unit_same. unfold is_protected_unit in *. bools.
  change PROTECTED_UNITS with RESOURCE_LIMIT_PROTECTED_UNITS. change PROTECTED_PREFIXES with RESOURCE_LIMIT_PROTECTED_PREFIXES.
  cbv zeta. by_tests.
Qed.

#[export] Hint Resolve meets_username meets_group meets_account meets_group_name meets_activatable meets_resource_limit : contracts.

(** *** Names of hosts, zones and packages *)

Lemma meets_hostname name : meets (spec name validated_hostname (Some 253) (Some cs_dns) true hostname).
Proof.
  meet. unfold hostname. apply check_Ok. rewrite forallb_forall in *. intros l Hl. specialize (H l Hl). bools.
  apply andb_true_iff. split; [by_tests|]. apply Nat.leb_le. by apply longer_le.
Qed.
Lemma meets_timezone name : meets (spec name validated_timezone None (Some cs_timezone) true timezone).
Proof. meet. unfold timezone. by_tests. Qed.
Lemma meets_domain name : meets (spec name validated_domain (Some 253) (Some cs_dns) true domain).
Proof. meet. unfold domain. by_tests. Qed.
Lemma meets_syslog_host name : meets (spec name validated_syslog_host (Some 255) (Some cs_syslog_host) true syslog_host).
Proof. meet. unfold syslog_host. by_tests. Qed.
Lemma meets_install_package name :
  meets (spec name validated_install_package (Some 128) (Some cs_install_package) true install_package).
Proof. meet. unfold install_package. by_tests. Qed.
Lemma meets_sysctl_key name : meets (spec name validated_sysctl_key (Some 128) (Some cs_sysctl_key) true sysctl_key).
Proof. meet. unfold sysctl_key. by_tests. Qed.
Lemma meets_sudoers_name name : meets (spec name validated_sudoers_name (Some 64) (Some cs_lower_token) true sudoers_name).
Proof. meet. unfold sudoers_name. by_tests. Qed.
Lemma meets_apt_pin_name name : meets (spec name validated_apt_pin_name (Some 64) (Some cs_lower_token) true sudoers_name).
Proof. exact (meets_sudoers_name name). Qed.
Lemma meets_lvm_name name : meets (spec name validated_lvm_name (Some 127) (Some cs_lvm_name) true lvm_name).
Proof. meet. unfold lvm_name. by_tests. Qed.
Lemma meets_log_path name : meets (spec name validated_log_path (Some 255) (Some cs_log_path) true log_path).
Proof. meet. unfold log_path. change LOG_ROOT with ("/var/log/") in *. by_tests. Qed.

#[export] Hint Resolve meets_hostname meets_timezone meets_domain meets_syslog_host meets_install_package meets_sysctl_key
  meets_sudoers_name meets_apt_pin_name meets_lvm_name meets_log_path : contracts.

(** *** Values of a fixed list *)

Lemma str_in_forall s l (P : string -> bool) : str_in s l = true -> forallb P l = true -> P s = true.
Proof. intros Hs Hl. apply str_in_spec in Hs. rewrite forallb_forall in Hl. by apply Hl, list_elem_of_In. Qed.


Ltac of_list H P := refine (str_in_forall _ _ P H _); vm_compute; reflexivity.

Lemma meets_fstype name : meets (spec name validated_fstype (Some 5) (Some cs_lower_alnum) true fstype).
Proof.
  meet.
  - of_list H (str_all cs_lower_alnum).
  - apply negb_true_iff. of_list H (fun s => negb (is_empty s)).
  - apply Nat.leb_le. of_list H (fun s => String.length s <=? 5).
  - unfold fstype. change FSTYPES with FSTYPE_ALLOW. by_tests.
Qed.
Lemma meets_pro_service name : meets (spec name validated_pro_service (Some 16) (Some cs_pro_service) true no_extra).
Proof.
  meet.
  - of_list H (str_all cs_pro_service).
  - apply negb_true_iff. of_list H (fun s => negb (is_empty s)).
  - apply Nat.leb_le. of_list H (fun s => String.length s <=? 16).
Qed.

(** A level; two of them around the dots. *)
Lemma level_shape s : is_level s = true -> str_all cs_journal_priority s = true /\ String.length s <= 7 /\ is_empty s = false
  /\ str_in s JOURNAL_LEVELS = true.
Proof.
  unfold is_level. rewrite orb_true_iff. intros H.
  assert (Hin : str_in s JOURNAL_LEVELS = true).
  { destruct H as [H|H]; of_list H (fun s => str_in s JOURNAL_LEVELS). }
  split_and!; [of_list Hin (str_all cs_journal_priority)|apply Nat.leb_le; of_list Hin (fun s => String.length s <=? 7)
    |apply negb_true_iff; of_list Hin (fun s => negb (is_empty s))|done].
Qed.

Lemma split_once_str_spec sep s l r : split_once_str sep s = Some (l, r) -> s = (l ++ sep ++ r)%string.
Proof.
  revert l. induction s as [|c s IH]; intros l; cbn [split_once_str]; destruct (strip_prefix sep _) as [u|] eqn:E.
  - intros [= <- <-]. by apply strip_prefix_spec in E.
  - done.
  - intros [= <- <-]. by apply strip_prefix_spec in E.
  - destruct (split_once_str sep s) as [[l' r']|]; cbn; [|done]. intros [= <- <-]. cbn. by rewrite (IH l').
Qed.

Lemma journal_priority_parts s param t :
  validated_journal_priority s param = Ok t ->
  t = s /\ (is_level s = true \/ exists lo hi, s = (lo ++ ".." ++ hi)%string /\ is_level lo = true /\ is_level hi = true).
Proof.
  unfold validated_journal_priority. intros [H ->]%accept_if_Ok. split; [done|].
  destruct (split_once_str ".." s) as [[lo hi]|] eqn:E; [|by left]. right. apply split_once_str_spec in E. bools. by exists lo, hi.
Qed.

#[export] Instance no_dash_journal_priority : NoDash validated_journal_priority.
Proof.
  intros s param t [-> H]%journal_priority_parts.
  assert (Hl : forall l, is_level l = true -> no_dash l) by (intros l [Hs _]%level_shape; by eapply charset_no_dash).
  destruct H as [H|(lo & hi & -> & Hlo & _)]; [by apply Hl|].
  change (no_dash (lo ++ String "." (String "." hi))). apply no_dash_app_char; [by apply Hl|discriminate].
Qed.

Lemma meets_journal_priority name :
  meets (spec name validated_journal_priority (Some 16) (Some cs_journal_priority) true journal_priority).
Proof.
  intros input param out Hrun. cbn [sp_run spec] in Hrun. pose proof (journal_priority_parts _ _ _ Hrun) as [-> H].
  assert (Hx : journal_priority input input = Ok tt).
  { unfold validated_journal_priority in Hrun. apply accept_if_Ok in Hrun as [Hr _]. unfold journal_priority. apply check_Ok.
    destruct (split_once_str ".." input) as [[lo hi]|]; bools; rewrite ?andb_true_iff; repeat split; by apply level_shape. }
  meet_intro; try exact Hx.
  all: destruct H as [(H1 & H2 & H3 & _)%level_shape|(lo & hi & -> & (A1 & A2 & A3 & _)%level_shape & (B1 & B2 & B3 & _)%level_shape)].
  - done.
  - rewrite !str_all_app, A1, B1. reflexivity.
  - done.
  - by destruct lo.
  - lia.
  - rewrite !length_str_app. cbn [String.length]. lia.
Qed.

#[export] Hint Resolve meets_fstype meets_pro_service meets_journal_priority : contracts.

(** *** Paths *)

Lemma meets_path name run n :
  (forall s param, run s param = validated_absolute_path s param n) ->
  meets (spec name run (Some n) (Some cs_path) true absolute_path).
Proof.
  intros Hrun. intros input param out H. cbn [sp_run spec] in H. rewrite Hrun in H.
  pose proof (no_dash_absolute_path _ _ _ _ H) as Hd. tests H.
  meet_intro; [done|]. unfold absolute_path. by_tests.
Qed.

Lemma meets_mount_point name : meets (spec name validated_mount_point (Some 256) (Some cs_path) true mount_point).
Proof.
  meet. unfold mount_point, absolute_path. change CRITICAL_MOUNTPOINTS with Validate.CRITICAL_MOUNTPOINTS. by_tests.
Qed.

(** [&s[p.len()..]] after [p]. *)
Lemma str_drop_app p t : str_drop (String.length p) (p ++ t)%string = t.
Proof.
  induction p as [|c p IH]; [|exact IH]. destruct t as [|c t]; [done|]. exact (take_drop_str 0 (String c t)).
Qed.

Lemma meets_apparmor name : meets (spec name validated_apparmor_profile None (Some cs_ppa) true apparmor).
Proof.
  assert (Hs : forall s, starts_with APPARMOR_PREFIX s = true ->
    s = (APPARMOR_PREFIX ++ str_drop (String.length APPARMOR_PREFIX) s)%string).
  { intros s [t ->]%prefix_spec. by rewrite str_drop_app. }
  meet.
  - rewrite (Hs input) by done. rewrite str_all_app. apply andb_true_iff. split; [done|]. eapply within_str_all; [|eassumption]. vm_compute. reflexivity.
  - unfold apparmor. change "/etc/apparmor.d/" with APPARMOR_PREFIX. rewrite (Hs input) at 3 by done.
    rewrite length_str_app. destruct (str_drop _ input); [done|]. by_tests.
  - unfold apparmor. rename select (longer_than _ _ = false) into Hl. apply longer_le, Nat.leb_le in Hl.
    change APPARMOR_PROFILE_NAME_MAX with 128 in Hl. by_tests.
Qed.
#[export] Hint Resolve meets_mount_point meets_apparmor : contracts.

(** *** Units, counts and sizes *)

Lemma str_take_app p t : str_take (String.length p) (p ++ t)%string = p.
Proof. unfold str_take. induction p as [|c p IH]; [by destruct t|]. cbn. by rewrite IH. Qed.

Lemma but_last_spec s c : last_char s = Some c -> s = (but_last s ++ String c "")%string.
Proof.
  intros [t ->]%last_char_spec. unfold but_last. rewrite length_str_app. cbn [String.length].
  replace (String.length t + 1 - 1) with (String.length t) by lia. by rewrite str_take_app.
Qed.

(** A number and a unit: what holds of the number's characters and of the unit's holds throughout. *)
Lemma with_unit p s c : last_char s = Some c -> str_all p (but_last s) = true -> p c = true -> str_all p s = true.
Proof. intros Hl%but_last_spec Hb Hc. rewrite Hl, str_all_app, Hb. cbn. by rewrite Hc. Qed.

(** A number that may end in a unit. *)
Definition number_of (s : string) : string :=
  match last_char s with Some c => if one_of "KMGT" c then but_last s else s | None => s end.

Lemma number_shape s :
  is_empty (number_of s) = false -> str_all is_digit (number_of s) = true ->
  str_all cs_digits_suffix s = true /\ is_empty s = false /\ no_dash s.
Proof.
  unfold number_of. intros He Hd.
  assert (Ha : str_all cs_digits_suffix s = true).
  { destruct (last_char s) as [c|] eqn:Hc; [|eapply within_str_all; [|exact Hd]; vm_compute; reflexivity].
    destruct (one_of "KMGT" c) eqn:Hu; [|eapply within_str_all; [|exact Hd]; vm_compute; reflexivity].
    eapply with_unit; [exact Hc|finish_check|]. unfold cs_digits_suffix. rewrite Hu. by rewrite orb_true_r. }
  split_and!; [done| |by eapply charset_no_dash]. by destruct s.
Qed.

#[export] Instance no_dash_memory_limit : NoDash validated_memory_limit.
Proof.
  intros s param t H. tests H. branches; [reflexivity|]. by eapply number_shape.
Qed.

Lemma meets_memory_limit name :
  meets (spec name validated_memory_limit (Some 24) (Some cs_digits_suffix) true memory_limit).
Proof.
  meet; try reflexivity; try by eapply number_shape.
  unfold memory_limit.
  replace (default out (strip_unit out)) with (number_of out) by (unfold number_of, strip_unit; by repeat case_match).
  unfold number_of. rewrite H0, H1. by rewrite orb_true_r.
Qed.

#[export] Instance no_dash_tasks_max : NoDash validated_tasks_max.
Proof. intros s param t H. tests H. branches; [reflexivity|]. by eapply charset_no_dash. Qed.

Lemma meets_tasks_max name : meets (spec name validated_tasks_max (Some 12) (Some cs_digits_suffix) true tasks_max).
Proof. meet; try reflexivity. unfold tasks_max. rewrite orb_comm. by_tests. Qed.

Lemma digits_app_no_dash d t : is_empty d = false -> str_all is_digit d = true -> no_dash (d ++ t).
Proof.
  destruct d as [|c d]; [done|]. cbn [str_all]. intros _ H. bools. apply (first_is_no_dash is_digit); done.
Qed.

#[export] Instance no_dash_cpu_quota : NoDash validated_cpu_quota.
Proof. intros s param t H. tests H. apply strip_suffix_spec in Hx as ->. by apply digits_app_no_dash. Qed.

Lemma meets_cpu_quota name : meets (spec name validated_cpu_quota (Some 8) (Some cs_cpu_quota) true cpu_quota).
Proof.
  meet; pose proof Hx as Hs; apply strip_suffix_spec in Hs.
  - rewrite Hs, str_all_app. apply andb_true_iff. split; [eapply within_str_all; [|exact H1]; vm_compute; reflexivity|done].
  - by rewrite Hs; destruct x.
  - rewrite Hs, length_str_app. apply longer_le in H2. cbn. lia.
  - unfold cpu_quota. rewrite Hx. apply longer_le, Nat.leb_le in H2. rewrite H1, H2. by destruct x.
Qed.

#[export] Hint Resolve meets_memory_limit meets_tasks_max meets_cpu_quota : contracts.

Lemma count_char_app c s t : count_char c (s ++ t)%string = count_char c s + count_char c t.
Proof. induction s as [|a s IH]; [done|]. cbn. rewrite IH. lia. Qed.
Lemma count_char_none c s : str_has c s = false -> count_char c s = 0.
Proof.
  induction s as [|a s IH]; [done|]. unfold str_has in *. cbn [str_exists count_char].
  intros [Ha Hs]%orb_false_iff. by rewrite IH, Ascii.eqb_sym, Ha.
Qed.

Lemma meets_ppa_name name : meets (spec name validated_ppa_name (Some SAFE_ARG_MAX_BYTES) (Some cs_ppa) false ppa).
Proof.
  meet; pose proof E as [Hs Hl]%split_once_spec.
  - rewrite Hs. in_charset.
  - rewrite Hs. by destruct s.
  - assert (Hr : str_has "/"%char s0 = false) by (by eapply str_all_not_has; [|eassumption]).
    unfold ppa. rewrite Hs, count_char_app, split_on_app, !split_on_none by done. cbn [count_char].
    rewrite !count_char_none by done. cbn. rewrite H0, H1. reflexivity.
Qed.

#[export] Hint Resolve meets_ppa_name : contracts.

Lemma checked_port p n :
  is_empty p = false -> str_all is_digit p = true -> parse_u32 p = Some n ->
  (n =? 0)%N = false -> (MAX_PORT <? n)%N = false -> port_in_range p = true.
Proof.
  intros He Hd Hp H0%N.eqb_neq Hm%N.ltb_ge. unfold MAX_PORT in Hm. unfold port_in_range. rewrite He, Hd, Hp. cbn [negb andb].
  apply andb_true_iff. split; apply N.leb_le; lia.
Qed.

Lemma meets_port_or_service name :
  meets (spec name validated_port_or_service None (Some cs_port_or_service) true port_or_service).
Proof.
  meet.
  - apply split_once_spec in E as [-> _]. assert (str_all cs_port_or_service s0 = true) by (of_list Hx0 (str_all cs_port_or_service)).
    in_charset.
  - unfold port_or_service. rewrite E, Hx0. by erewrite checked_port.
  - unfold port_or_service. rewrite E, E0. by erewrite checked_port.
  - unfold port_or_service. rewrite E, E0. 
    rename select (longer_than _ _ = false) into Hl. apply longer_le, Nat.leb_le in Hl.
    change UFW_APP_NAME_MAX with 64 in Hl. by_tests.
Qed.

#[export] Hint Resolve meets_port_or_service : contracts.

(** A size's number and unit, after the sign. *)
Lemma size_body out body :
  default out (strip_prefix "+" out) = body -> str_all cs_lvm_size body = true -> is_empty body = false ->
  str_all cs_lvm_size out = true /\ is_empty out = false.
Proof.
  destruct (strip_prefix "+" out) as [b|] eqn:E; cbn [default from_option id]; [|by intros ->].
  apply strip_prefix_spec in E as ->. by intros -> Hb _.
Qed.

Lemma meets_lvm_size name : meets (spec name validated_lvm_size (Some 32) (Some cs_lvm_size) true lvm_size).
Proof.
  meet; remember (default out (strip_prefix "+" out)) as body eqn:Hbody.
  all: apply Nat.ltb_ge, Nat.leb_le in H4.
  all: assert (Hb : str_all cs_lvm_size body = true /\ is_empty body = false)
    by (destruct (last_char body) as [c|] eqn:Hc; [destruct (is_alpha c) eqn:Ha|]; injection E as <- <-; bools;
        [split; [eapply with_unit; [exact Hc| |]; [finish_check|]; unfold cs_lvm_size; rewrite Ha; by rewrite orb_true_r
                |by destruct body]
        |split; [finish_check|done]..]); destruct Hb as [Hb1 Hb2].
  - by eapply size_body.
  - by eapply size_body.
  - unfold lvm_size. rewrite <-Hbody. cbv zeta.
    destruct (last_char body) as [c|] eqn:Hc; [destruct (is_alpha c) eqn:Ha|]; injection E as <- <-; bools;
      [rewrite Hx0|clear Hx0..]; cbn [check mbind result_bind]; by_tests.
Qed.

#[export] Hint Resolve meets_lvm_size : contracts.

(** *** The rest *)

Lemma has_control_nul s : has_control s = false -> str_has NUL s = false.
Proof.
  induction s as [|c s IH]; [done|]. cbn [has_control]. intros H. bools. unfold str_has in *. cbn [str_exists].
  rewrite IH by done. destruct (Ascii.eqb_spec NUL c) as [<-|]; [discriminate|done].
Qed.

Lemma meets_journal_grep name : meets (spec name validated_journal_grep (Some 256) None false no_extra).
Proof.
  intros input param out H. cbn [sp_run spec] in H. tests H.
  unfold judge. rewrite (has_control_nul out) by done. apply longer_le, Nat.leb_le in H1.
  unfold spec. cbn [sp_rewrites sp_refuses_leading_dash sp_max_len sp_charset sp_extra].
  rewrite String.eqb_refl, Hx, H0. change MAX_JOURNAL_GREP_LEN with 256 in H1. cbn [negb check mbind result_bind orb andb].
  by_tests.
Qed.

Lemma meets_email name : meets (spec name validated_email (Some 254) (Some cs_email) false email).
Proof.
  meet.
  - by destruct input.
  - unfold email. destruct (split_on "@"%char input) as [|l [|d [|]]]; try discriminate Hx. bools. cbn. by_tests.
Qed.

Lemma no_repeats_before seen s i c :
  no_repeats seen s = true -> bytes_of s !! i = Some c -> c ∉ seen ++ take i (bytes_of s).
Proof.
  revert seen i. induction s as [|a s IH]; intros seen i; [done|]. cbn [no_repeats bytes_of]. intros H Hi. bools.
  destruct i as [|i]; cbn in Hi |- *.
  - injection Hi as <-. rewrite app_nil_r. intros Hc. apply not_true_iff_false in H. apply H, existsb_exists.
    exists a. split; [by apply list_elem_of_In|apply Ascii.eqb_refl].
  - pose proof (IH (a :: seen) i ltac:(done) Hi) as Hn. set_solver.
Qed.

Lemma meets_audit_perms name : meets (spec name validated_audit_perms (Some 4) (Some cs_audit_perms) true audit_perms).
Proof.
  meet. unfold audit_perms. apply check_Ok. apply longer_le, Nat.leb_le in H2. rewrite H2, andb_true_r.
  apply andb_true_iff. split; [by destruct input|]. apply forallb_forall. intros b Hb%list_elem_of_In.
  apply list_elem_of_lookup in Hb as (i & Hi). rewrite list_lookup_imap in Hi.
  destruct (bytes_of input !! i) as [c|] eqn:Hc; [|done]. injection Hi as <-. apply negb_true_iff, not_true_iff_false.
  intros (p & Hp & He)%existsb_exists. apply Ascii.eqb_eq in He as ->.
  apply (no_repeats_before [] input i c H Hc). by apply list_elem_of_In.
Qed.

#[export] Hint Resolve meets_journal_grep meets_email meets_audit_perms : contracts.

(** Characters of the parts, and the separator, are characters of the whole. *)
Lemma parts_charset p c s :
  p c = true -> (forall t, t ∈ nonempty_parts c s -> str_all p t = true) -> str_all p s = true.
Proof.
  intros Hc Hall. assert (Hs : Forall (fun t => str_all p t = true) (split_on c s)).
  { apply Forall_forall. intros [|a t] Ht; [done|]. apply Hall, list_elem_of_In, filter_In. by rewrite <-list_elem_of_In. }
  clear Hall. induction s as [|a s IH]; [done|]. cbn [split_on str_all] in *.
  destruct (Ascii.eqb_spec a c) as [->|Hne].
  - apply Forall_cons in Hs as [_ Hs]. by rewrite Hc, IH.
  - destruct (split_on c s) as [|t l]; apply Forall_cons in Hs as [Hs1 Hs2]; cbn [str_all] in Hs1; bools.
    + rewrite IH by constructor. by rewrite andb_true_r.
    + rewrite IH by by constructor. by rewrite andb_true_r.
Qed.

Lemma accepted_sudo_commands out :
  (out =? "ALL")%string = false -> nonempty_parts ","%char out <> [] ->
  forallb sudo_command_ok (nonempty_parts ","%char out) = true -> sudo_commands out out = Ok tt.
Proof.
  intros Ha Hn Hok. unfold sudo_commands. rewrite Ha. cbv zeta.
  change (List.filter _ (split_on _ out)) with (nonempty_parts "," out).
  assert (Hc : forallb (fun c => starts_with "/" c && negb (contains ".." c) && negb (str_has "*"%char c))
                 (nonempty_parts "," out) = true).
  { rewrite forallb_forall in *. intros c Hc. specialize (Hok c Hc). unfold sudo_command_ok in Hok. bools. by_tests. }
  destruct (nonempty_parts "," out) as [|c0 l0] eqn:Hl; [done|]. rewrite Hc. cbn [check mbind result_bind]. clear Hc Hok.
  unfold shell_equivalent_sudo_command. rewrite Ha, Hl. destruct (find _ _) as [hit|] eqn:Hf; [|done].
  apply check_Ok, existsb_exists. exists hit. split; [|apply String.eqb_refl].
  apply find_some in Hf as [Hf _]. rewrite <-Hl in Hf. by apply filter_In in Hf as [Hf _].
Qed.

Lemma meets_sudo_commands name :
  meets (spec name validated_sudo_commands (Some 1024) (Some cs_sudo_commands) true sudo_commands).
Proof.
  meet; [reflexivity|..].
  - apply (parts_charset _ ","); [reflexivity|]. intros t Ht%list_elem_of_In.
    rewrite forallb_forall in Hx. specialize (Hx t Ht). unfold sudo_command_ok in Hx. bools. finish_check.
  - apply accepted_sudo_commands; [by apply String.eqb_neq| |done]. intros He. by rewrite He in Hx0.
Qed.

Lemma meets_mount_device name : meets (spec name validated_mount_device (Some 256) (Some cs_mount_device) true mount_device).
Proof.
  meet; rewrite !orb_true_iff in H; destruct H as [[[[H|H]|H]|H]|H];
    try (destruct (strip_prefix _ input) as [u|] eqn:E; [|discriminate H]; pose proof E as Es; apply strip_prefix_spec in Es);
    try (destruct (split_once_str _ input) as [[u v]|] eqn:E; [|discriminate H]); bools.
  all: try finish_check.
  all: lazymatch goal with
       | |- mount_device _ _ = _ =>
           unfold mount_device; rewrite H1; cbn [negb check mbind result_bind]; cbv zeta; apply check_Ok; rewrite ?E; by_tests
       | _ => idtac
       end.
  - apply prefix_spec in H as [t ->]. change 5 with (String.length "/dev/") in H4. rewrite str_drop_app in H4.
    rewrite str_all_app. apply andb_true_iff. split; [reflexivity|finish_check].
  - rewrite Es. rewrite str_all_app. apply andb_true_iff. split; [reflexivity|finish_check].
  - rewrite Es. rewrite str_all_app. apply andb_true_iff. split; [reflexivity|finish_check].
Qed.

Lemma join_cons c x l : l <> [] -> join (String c "") (x :: l) = (x ++ String c (join (String c "") l))%string.
Proof. by destruct l. Qed.

Lemma join_filter_length c f l :
  String.length (join (String c "") (List.filter f l)) <= String.length (join (String c "") l).
Proof.
  induction l as [|x l IH]; [done|]. cbn [List.filter].
  destruct (decide (l = [])) as [->|Hl]; [destruct (f x); cbn; lia|].
  rewrite (join_cons c x l Hl), length_str_app. cbn [String.length]. destruct (f x); [|lia].
  destruct (decide (List.filter f l = [])) as [->|Hf]; [cbn; lia|].
  rewrite (join_cons c x _ Hf), length_str_app. cbn [String.length]. lia.
Qed.

Lemma split_charset p c s : str_all p s = true -> Forall (fun t => str_all p t = true) (split_on c s).
Proof.
  induction s as [|a s IH]; cbn [split_on str_all]; intros H; [by repeat constructor|]. bools. specialize (IH H0).
  destruct (Ascii.eqb a c); [by constructor|].
  destruct (split_on c s) as [|t l]; [by repeat constructor; cbn; rewrite H|].
  apply Forall_cons in IH as [Ht Hl]. constructor; [|done]. cbn. by rewrite H, Ht.
Qed.

(** An option the policy adds goes at the end, after a comma. *)
Lemma join_add l r :
  exists t, join "," (add_option l r) = (join "," l ++ t)%string /\ String.length t <= 1 + String.length r.
Proof.
  unfold add_option. destruct (existsb _ l); [exists ""; by rewrite str_app_nil; cbn; split; [|lia]|].
  clear. induction l as [|x l (t & IH & Ht)]; [exists r; cbn; split; [done|lia]|]. cbn [app].
  destruct (decide (l = [])) as [->|Hl]; [exists ("," ++ r)%string; cbn; split; [done|lia]|].
  exists t. split; [|done]. rewrite !(join_cons ",") by (first [done|by destruct l]).
  rewrite IH, str_app_assoc. done.
Qed.

Lemma hardened_join s :
  hardened_mount_options s = join "," (add_option (add_option (nonempty_parts "," s) "nosuid") "nodev").
Proof. reflexivity. Qed.

Lemma hardened_charset s :
  str_all cs_mount_options s = true -> str_all cs_mount_options (hardened_mount_options s) = true.
Proof.
  intros Hs. rewrite hardened_join. apply join_charset; [reflexivity|]. apply Forall_forall. intros o Ho.
  apply add_option_spec in Ho as [Ho| ->]; [|reflexivity]. apply add_option_spec in Ho as [Ho| ->]; [|reflexivity].
  apply list_elem_of_In, filter_In in Ho as [Ho _].
  pose proof (split_charset _ "," s Hs) as Hall. rewrite List.Forall_forall in Hall. by apply Hall.
Qed.

Lemma hardened_grows s :
  exists t, hardened_mount_options s = (join "," (nonempty_parts "," s) ++ t)%string /\ String.length t <= 13.
Proof.
  rewrite hardened_join. destruct (join_add (add_option (nonempty_parts "," s) "nosuid") "nodev") as (t & -> & Ht).
  destruct (join_add (nonempty_parts "," s) "nosuid") as (u & -> & Hu).
  exists (u ++ t)%string. rewrite str_app_assoc, length_str_app. cbn in *. split; [done|lia].
Qed.

Lemma has_option_exists o s : has_option o s <-> existsb (fun p => eq_ignore_case p o) (mount_option_tokens s) = true.
Proof.
  unfold has_option. rewrite existsb_exists, Exists_exists. change (mount_option_tokens s) with (mount_options_of s).
  by setoid_rewrite list_elem_of_In.
Qed.

Lemma mount_options_met s param :
  validated_mount_options s param = Ok (hardened_mount_options s) ->
  mount_options s (hardened_mount_options s) = Ok tt /\ is_empty (hardened_mount_options s) = false.
Proof.
  intros (_ & Hns & Hnd & Hs & Hd & _)%mount_options_hardened. split.
  - unfold mount_options, hardened. cbv zeta. apply has_option_exists in Hns, Hnd. rewrite Hns, Hnd.
    cbn [andb check mbind result_bind]. replace (existsb _ _) with false.
    + cbn [negb check mbind result_bind]. apply check_Ok. apply prefix_spec.
      destruct (hardened_grows s) as (t & -> & _). by exists t.
    + symmetry. apply not_true_iff_false. intros (o & Ho & He)%existsb_exists. apply orb_true_iff in He.
      destruct He; [apply Hs|apply Hd]; apply has_option_exists, existsb_exists; eauto.
  - destruct (hardened_mount_options s); [|done]. apply has_option_exists in Hns. discriminate Hns.
Qed.

Lemma meets_mount_options name :
  meets (mkFuzzSpec name validated_mount_options (Some (256 + String.length ",nosuid,nodev"))
    (Some cs_mount_options) false true mount_options).
Proof.
  intros input param out Hrun. cbn [sp_run] in Hrun. pose proof Hrun as H. tests H.
  meet_intro.
  - by apply hardened_charset.
  - by eapply mount_options_met.
  - destruct (hardened_grows input) as (t & -> & Ht). rewrite length_str_app. apply longer_le in Hx.
    pose proof (join_filter_length "," (fun o => negb (is_empty o)) (split_on "," input)) as Hl.
    rewrite join_split_on in Hl. fold (nonempty_parts "," input) in Hl.
    change (String.length ",nosuid,nodev") with 13. change MAX_FSTAB_FIELD_LEN with 256 in Hx. lia.
  - by eapply mount_options_met.
Qed.

#[export] Hint Resolve meets_sudo_commands meets_mount_device meets_mount_options : contracts.


Lemma meets_home_dir name : meets (spec name validated_home_dir (Some 256) (Some cs_path) true absolute_path).
Proof. by apply meets_path. Qed.
Lemma meets_swap_path name : meets (spec name validated_swap_path (Some 256) (Some cs_path) true absolute_path).
Proof. by apply meets_path. Qed.
Lemma meets_audit_path name : meets (spec name validated_audit_path (Some 255) (Some cs_path) true absolute_path).
Proof. by apply meets_path. Qed.

#[export] Hint Resolve meets_home_dir meets_swap_path meets_audit_path : contracts.

Lemma all_meet : Forall meets SPECS.
Proof. unfold SPECS. repeat (apply Forall_cons; split; [first [solve [auto with contracts]|solve [meet]]|]). constructor. Qed.

(** C13: No input makes the validator target fail: whatever bytes select a validator and make its argument,
    a value the validator accepts meets the contract of its row. *)
Theorem fuzz_validators_never_fails data : fuzz_validators data = Ok tt.
Proof.
  destruct data as [|selector rest]; [done|]. unfold fuzz_validators. destruct (from_utf8 rest) as [input|]; [|done].
  destruct (SPECS !! _) as [s|] eqn:Hs; [|done]. destruct (sp_run s input "param") as [out|] eqn:Hr; [|done].
  pose proof all_meet as Hall. rewrite Forall_lookup in Hall. by rewrite (Hall _ _ Hs input "param" out Hr).
Qed.

(** *** Framing *)

(** What the target expects is what [recv] answers. *)
Lemma expected_answer stream :
  recv_answer stream =
    match expected stream with
    | EBody body => Ok body
    | ETooLarge len => Err (MessageTooLarge len)
    | EUnexpectedEof => Err (Framing.Io UnexpectedEof)
    end.
Proof. unfold recv_answer, expected. cbv zeta. by repeat case_match. Qed.

Lemma expected_body stream body :
  expected stream = EBody body -> 4 + length body <= length stream /\ body = take (length body) (drop 4 stream).
Proof.
  unfold expected. cbv zeta. destruct (length stream <? 4) eqn:E1; [done|]. case_match; [done|].
  destruct (length (drop 4 stream) <? _) eqn:E2; [done|]. intros [= <-].
  apply Nat.ltb_ge in E1, E2. rewrite length_drop in E2. rewrite length_take, length_drop. split; [lia|].
  f_equal. lia.
Qed.

Lemma recv_all_Ok fuel st :
  no_io_error st -> length (carried st) < fuel -> recv_all fuel (carried st) st = Ok tt.
Proof.
  revert st. induction fuel as [|fuel IH]; intros st Hst Hf; [lia|]. cbn [recv_all].
  destruct (recv_spec st Hst) as (st' & wants & -> & Hst' & Hrest & _). rewrite expected_answer in *.
  destruct (expected (carried st)) as [body|len|] eqn:E; [|by rewrite N.eqb_refl|done].
  rewrite bool_decide_true by done. specialize (Hrest body eq_refl). rewrite drop_drop in Hrest.
  apply expected_body in E as [E _]. rewrite <-Hrest. apply IH; [done|]. rewrite Hrest, length_drop. lia.
Qed.

(** No input makes the framing target fail, however the pipe cuts it into reads: [recv] answers what the
    wire format says, frame after frame, and the loop ends. *)
Theorem fuzz_frame_recv_never_fails data st :
  no_io_error st -> carried st = data -> fuzz_frame_recv data st = Ok tt.
Proof. intros Hst <-. unfold fuzz_frame_recv. apply recv_all_Ok; [done|lia]. Qed.

(** Two frames, one of them cut in three, and a header that promises too much. *)
Lemma fuzz_frame_recv_never_fails_witness :
  let data := [chr 1; chr 0; chr 0; chr 0; "a"%char; chr 255; chr 255; chr 255; chr 255; "z"%char] in
  fuzz_frame_recv data [Seg (take 2 data); Seg (take 5 (drop 2 data)); Seg (drop 7 data)] = Ok tt.
Proof. apply fuzz_frame_recv_never_fails; [repeat constructor|reflexivity]. Defined.
