(* ===== verification/FuzzActions.v ===== *)
(** * What the fuzz target over actions checks

    fuzz/fuzz_targets/action_spec.rs: whatever action and parameters are asked for,
    building it ends, and a command it builds names a program and holds no NUL in an
    argument ([std::process::Command] refuses one when it starts the program). *)

From Stdlib Require Import Ascii String ZArith NArith Lia.
From stdpp Require Import base list strings gmap.
From S2P Require Import Prelude Json Types Actions Signing Ip Framing Catalogue Validate Params Builder Executor Argv Fuzz.

Section ActionSpec.
(** serde_json's reader. *)
Variable from_slice : bytes -> option json.

Definition no_nul_args (m : ActionMechanism) : result string () :=
  match m with
  | Command program args =>
      _ ← check (negb (is_empty program)) "empty program";
      check (forallb (fun a => negb (str_has NUL a)) args) "NUL in argument"
  | _ => Ok tt
  end.

Definition fuzz_action_spec (data : bytes) : result string () :=
  if length data <? 2 then Ok tt
  else
    let selector := from_le_bytes (take 2 data ++ [NUL; NUL]) in
    let index := N.to_nat selector mod (length KNOWN_ACTION_NAMES + 1) in
    let name := default "NoSuchAction" (KNOWN_ACTION_NAMES !! index) in
    match from_slice (drop 2 data) with
    | None => Ok tt
    | Some params =>
        match build_action_spec name params with
        | Err _ => Ok tt
        | Ok spec => no_nul_args (mechanism spec)
        end
    end.
End ActionSpec.


(** ** NUL-free text *)

Definition no_nul (s : string) : Prop := str_has NUL s = false.

Class NulFree (validator : string -> string -> result ExecutorError string) : Prop :=
  nul_free_accepted s param t : validator s param = Ok t -> no_nul t.

Lemma no_nul_app s t : no_nul s -> no_nul t -> no_nul (s ++ t).
Proof.
  unfold no_nul, str_has. induction s as [|c s IH]; [done|]. cbn [String.append str_exists].
  intros [Hc Hs]%orb_false_iff Ht. by rewrite Hc, IH.
Qed.

Lemma no_nul_charset p s : p NUL = false -> str_all p s = true -> no_nul s.
Proof. apply str_all_not_has. Qed.

Lemma no_nul_listed s l : str_in s l = true -> forallb (fun x => negb (str_has NUL x)) l = true -> no_nul s.
Proof. intros Hs Hl. apply negb_true_iff. exact (str_in_forall s l (fun x => negb (str_has NUL x)) Hs Hl). Qed.

Lemma no_nul_join c l : c <> NUL -> Forall no_nul l -> no_nul (join (String c "") l).
Proof.
  intros Hc. induction 1 as [|s l Hs Hl IH]; [done|]. destruct (decide (l = [])) as [->|Hn]; [done|].
  rewrite join_cons by done. apply no_nul_app; [done|]. apply (no_nul_app (String c "")); [|done].
  unfold no_nul. cbn. rewrite orb_false_r. by apply Ascii.eqb_neq.
Qed.

Lemma no_nul_dec n : no_nul (dec_of_N n).
Proof. eapply no_nul_charset; [|apply dec_of_N_digits]. reflexivity. Qed.

(** *** Validated text *)

Lemma meets_no_nul s input param out : meets s -> sp_run s input param = Ok out -> no_nul out.
Proof.
  intros Hm Hr. specialize (Hm input param out Hr). unfold judge in Hm.
  apply bind_Ok in Hm as ([] & Hm%check_Ok & _). by apply negb_true_iff.
Qed.

Lemma nul_free_spec v : In v (map sp_run SPECS) -> NulFree v.
Proof.
  intros (s & <- & Hs)%in_map_iff input param out. apply meets_no_nul.
  pose proof all_meet as Hall. rewrite List.Forall_forall in Hall. by apply Hall.
Qed.

(** A validator of the fuzz table. *)
Ltac in_table :=
  apply nul_free_spec; cbn [map sp_run SPECS spec In];
  repeat first [left; match goal with |- ?a = ?b => constr_eq a b; reflexivity end | right].
#[export] Hint Extern 1 (NulFree _) => in_table : typeclass_instances.

Ltac nul_free := intros s param t H; tests H; branches; eapply no_nul_charset; [|eassumption]; reflexivity.

#[export] Instance nul_free_stoppable : NulFree validated_stoppable_unit.
Proof. nul_free. Qed.
#[export] Instance nul_free_rebase_ref : NulFree validated_rebase_ref.
Proof. nul_free. Qed.
#[export] Instance nul_free_unmodified : NulFree validated_unmodified_package.
Proof. nul_free. Qed.
#[export] Instance nul_free_apt_show : NulFree validated_apt_show_package.
Proof. nul_free. Qed.

(** *** Read parameters *)

Lemma no_nul_arg validator key params s : NulFree validator -> arg validator key params = Ok s -> no_nul s.
Proof. intros HV H. unfold arg in H. apply bind_Ok in H as (x & _ & H). by eapply HV. Qed.

Lemma no_nul_traverse validator key o s :
  NulFree validator -> traverse (fun s => validator s key) o = Ok (Some s) -> no_nul s.
Proof. intros HV H. apply traverse_Ok in H. destruct o; [|done]. destruct H as (b & Hb & [= ->]). by eapply HV. Qed.

Lemma no_nul_opt_arg validator key params s :
  NulFree validator -> opt_arg_validated validator key params = Ok (Some s) -> no_nul s.
Proof. intros HV H. unfold opt_arg_validated in H. apply bind_Ok in H as (x & _ & H). by eapply no_nul_traverse. Qed.

Lemma no_nul_optional validator key params s :
  NulFree validator -> optional_validated params key validator = Ok (Some s) -> no_nul s.
Proof. intros HV H. unfold optional_validated in H. apply bind_Ok in H as (x & _ & H). by eapply no_nul_traverse. Qed.

Lemma no_nul_user params u : user_arg params = Ok u -> no_nul u.
Proof.
  intros H. unfold user_arg in H. apply bind_Ok in H as (s & _ & H). exact (nul_free_accepted _ _ _ H).
Qed.
Lemma no_nul_user_not_critical params u : user_not_critical_arg params = Ok u -> no_nul u.
Proof.
  intros H. unfold user_not_critical_arg in H. apply bind_Ok in H as (s & _ & H). exact (nul_free_accepted _ _ _ H).
Qed.

Lemma no_nul_collect validator param l l' :
  NulFree validator -> collect (fun s => validator s param) l = Ok l' -> Forall no_nul l'.
Proof.
  intros HV H. apply collect_Ok in H. induction H as [|s t l l' Hs _ IH]; constructor; [by eapply HV|done].
Qed.

Lemma no_nul_kill_signal s t : validated_kill_signal s = Ok t -> no_nul t.
Proof.
  unfold validated_kill_signal. cbv zeta. intros [H ->]%accept_if_Ok. by eapply no_nul_listed.
Qed.

Lemma no_nul_public_key params s : public_key_arg params = Ok s -> no_nul s.
Proof.
  intros H. unfold public_key_arg in H. apply bind_Ok in H as (x & _ & H). unfold validated_public_key in H. tests H.
  apply not_true_iff_false. intros Hn. match goal with H : str_exists _ _ = false |- _ => revert H end.
  clear -Hn. unfold str_has in Hn. induction s as [|c s IH]; [done|]. cbn [str_exists] in *.
  apply orb_true_iff in Hn as [<-%Ascii.eqb_eq|Hn]; [done|]. intros [_ H]%orb_false_iff. by apply IH.
Qed.

Lemma no_nul_log_rotation s n t : validated_log_rotation s n = Ok t -> no_nul t.
Proof.
  intros H. unfold validated_log_rotation in H. apply bind_Ok in H as (p & Hp & H). accepted H.
  exact (nul_free_accepted _ _ _ Hp).
Qed.

Lemma no_nul_job_name name paths : Services.scheduled_job_unit_paths name = Some paths -> no_nul name.
Proof.
  unfold Services.scheduled_job_unit_paths. case_match eqn:E; [done|]. intros _. bools.
  eapply no_nul_charset; [|eassumption]. reflexivity.
Qed.

Lemma no_nul_kernel_arg x param u : validated_kernel_arg_token x param = Ok u -> no_nul x.
Proof. intros H. unfold validated_kernel_arg_token in H. tests H. eapply no_nul_charset; [|eassumption]. reflexivity. Qed.

Lemma no_nul_additions param l u : for_all (fun a => validated_safe_kernel_arg a param) l = Ok u -> Forall no_nul l.
Proof.
  intros H. apply for_all_Ok in H. eapply Forall_impl; [exact H|]. cbn. intros x [v Hx]%is_ok_spec.
  unfold validated_safe_kernel_arg in Hx. apply bind_Ok in Hx as (? & Hx & _). by eapply no_nul_kernel_arg.
Qed.
Lemma no_nul_removals param l u :
  for_all (fun a => validated_safe_kernel_arg_removal a param) l = Ok u -> Forall no_nul l.
Proof.
  intros H. apply for_all_Ok in H. eapply Forall_impl; [exact H|]. cbn. intros x [v Hx]%is_ok_spec.
  unfold validated_safe_kernel_arg_removal in Hx. apply bind_Ok in Hx as (? & Hx & _). by eapply no_nul_kernel_arg.
Qed.
Lemma no_nul_safe_args {B} (f : string -> result ExecutorError B) param l u :
  for_all (fun a => _ ← validated_safe_arg a param; f a) l = Ok u -> Forall no_nul l.
Proof.
  intros H. apply for_all_Ok in H. eapply Forall_impl; [exact H|]. cbn. intros x [v Hx]%is_ok_spec.
  apply bind_Ok in Hx as (t & Hx & _). tests Hx. eapply no_nul_charset; [|eassumption]. reflexivity.
Qed.

(** *** Addresses *)

(** A reader went from [s] to [rest] over text without NUL. *)
Definition past (s rest : string) : Prop := exists p, s = (p ++ rest)%string /\ no_nul p.

#[export] Instance past_refl : Reflexive past.
Proof. intros s. by exists "". Qed.
#[export] Instance past_trans : Transitive past.
Proof. intros s t u (p & -> & Hp) (q & -> & Hq). exists (p ++ q)%string. split; [by rewrite str_app_assoc|by apply no_nul_app]. Qed.

Lemma past_separator sep i s rest : no_nul sep -> read_separator sep i s = Some rest -> past s rest.
Proof. intros Hs. destruct i; cbn; [by intros [= ->]|]. intros ->%strip_prefix_spec. by exists sep. Qed.

Lemma past_digits radix max n acc count s v k rest :
  read_digits radix max n acc count s = Some (v, k, rest) -> past s rest.
Proof.
  revert acc count. induction s as [|c s IH]; intros acc count; cbn [read_digits]; [by intros [= _ _ <-]|].
  destruct (to_digit radix c) as [d|] eqn:Hd; [|by intros [= _ _ <-]]. case_match; [done|]. intros Hrest%IH.
  etrans; [|exact Hrest]. exists (String c ""). split; [done|]. unfold no_nul. cbn. rewrite orb_false_r.
  apply Ascii.eqb_neq. intros <-. discriminate Hd.
Qed.

Lemma past_number radix max n z s v rest : read_number radix max n z s = Some (v, rest) -> past s rest.
Proof.
  unfold read_number. intros ([[w k] r] & H & Hr)%bind_Some. case_match; [done|].
  injection Hr as _ <-. by eapply past_digits.
Qed.

Lemma past_octets left i s l rest : read_octets left i s = Some (l, rest) -> past s rest.
Proof.
  revert i s l. induction left as [|left IH]; intros i s l; cbn [read_octets]; [by intros [= _ <-]|].
  intros (s1 & H1 & H)%bind_Some. apply bind_Some in H as ([v s2] & H2 & H).
  apply bind_Some in H as ([vs s3] & H3 & [= _ <-]).
  etrans; [eapply past_separator; [|eassumption]; reflexivity|]. etrans; [by eapply past_number|]. by eapply IH.
Qed.

Lemma past_groups left i s gs v4 rest : read_groups left i s = (gs, v4, rest) -> past s rest.
Proof.
  revert i s gs v4. induction left as [|left IH]; intros i s gs v4; cbn [read_groups]; [by intros [= _ _ <-]|].
  set (embedded := match left with O => None | S _ => _ end). destruct embedded as [[o r]|] eqn:E; subst embedded.
  - intros [= _ _ <-]. destruct left; [done|]. apply bind_Some in E as (s1 & H1 & H2).
    etrans; [eapply past_separator; [|eassumption]; reflexivity|]. by eapply past_octets.
  - clear E. destruct (_ ≫= λ s0 : string, read_number 16 65535 4 true s0) as [[g r]|] eqn:E2; [|by intros [= _ _ <-]].
    apply bind_Some in E2 as (s1 & H1 & H2). destruct (read_groups left (S i) r) as [[gs' w] r'] eqn:E3.
    intros [= _ _ <-]. etrans; [eapply past_separator; [|eassumption]; reflexivity|]. etrans; [by eapply past_number|]. by eapply IH.
Qed.

Lemma past_ipv6 s l rest : read_ipv6_addr s = Some (l, rest) -> past s rest.
Proof.
  unfold read_ipv6_addr. destruct (read_groups 8 0 s) as [[h v4] s1] eqn:E1.
  case_match; [intros [= _ <-]; by eapply past_groups|]. case_match; [done|].
  intros (s2 & ->%strip_prefix_spec & H2)%bind_Some. destruct (read_groups _ 0 s2) as [[t w] s3] eqn:E2.
  injection H2 as _ <-. etrans; [by eapply past_groups|]. etrans; [|by eapply past_groups]. by exists "::".
Qed.

Lemma no_nul_ip s a : ip_from_str s = Some a -> no_nul s.
Proof.
  unfold ip_from_str. intros ([b rest] & H & Hr)%bind_Some. assert (Hp : past s rest).
  - destruct (read_ipv4_addr s) as [[o r]|] eqn:E; [injection H as _ <-; by eapply past_octets|].
    apply bind_Some in H as ([g r] & H6 & [= _ <-]). by eapply past_ipv6.
  - destruct rest; [|done]. destruct Hp as (p & -> & Hp). by apply no_nul_app.
Qed.

Lemma no_nul_ip_display a : no_nul (ip_display a).
Proof. by eapply (no_nul_charset (fun c => negb (Ascii.eqb NUL c))); [|apply ip_charset]. Qed.

(** *** Argument vectors *)

Lemma no_nul_Z z : no_nul (dec_of_Z z).
Proof. unfold dec_of_Z. case_match; [apply (no_nul_app "-"); [done|]|]; apply no_nul_dec. Qed.

Lemma clean_range_flag lo hi params key flag l :
  no_nul flag -> range_flag lo hi params key flag = Ok l -> Forall no_nul l.
Proof.
  intros Hf H. unfold range_flag in H. apply bind_Ok in H as ([n|] & _ & H); [|by injection H as <-].
  apply bind_Ok in H as (? & _ & [= <-]). repeat constructor; [done|apply no_nul_dec].
Qed.
Lemma clean_range_flags lo hi params keys l :
  forallb (fun kf => negb (str_has NUL (snd kf))) keys = true -> range_flags lo hi params keys = Ok l -> Forall no_nul l.
Proof.
  revert l. induction keys as [|[key flag] keys IH]; cbn [range_flags forallb snd]; intros l Hk H; [by injection H as <-|].
  bools. apply bind_Ok in H as (a & Ha & H). apply bind_Ok in H as (b & Hb & [= <-]).
  apply Forall_app. split; [by eapply clean_range_flag|by apply IH].
Qed.
Lemma clean_credit_flags params keys l :
  forallb (fun kf => negb (str_has NUL (snd kf))) keys = true -> credit_flags params keys = Ok l -> Forall no_nul l.
Proof.
  revert l. induction keys as [|[key flag] keys IH]; cbn [credit_flags forallb snd]; intros l Hk H; [by injection H as <-|].
  bools. apply bind_Ok in H as (o & _ & H). apply bind_Ok in H as (a & Ha & H). apply bind_Ok in H as (b & Hb & [= <-]).
  apply Forall_app. split; [|by apply IH]. destruct o as [n|]; [|by injection Ha as <-].
  apply bind_Ok in Ha as (? & _ & [= <-]). repeat constructor; [done|apply no_nul_Z].
Qed.
Lemma clean_limit params key property validator l :
  NulFree validator -> no_nul property -> limit_assignment params key property validator = Ok l -> Forall no_nul l.
Proof.
  intros HV Hp H. unfold limit_assignment in H. apply bind_Ok in H as ([v|] & Hv & [= <-]); [|constructor].
  repeat constructor. apply no_nul_app; [done|]. apply (no_nul_app "="); [done|]. by eapply no_nul_optional.
Qed.

Lemma clean_option_list (f : string -> string) (a : option string) :
  (forall s, a = Some s -> no_nul (f s)) -> Forall no_nul (option_list (f <$> a)).
Proof. destruct a; cbn; intros H; repeat constructor. by apply H. Qed.
Lemma clean_options (a : option string) : (forall s, a = Some s -> no_nul s) -> Forall no_nul (option_list a).
Proof. destruct a; cbn; intros H; repeat constructor. by apply H. Qed.
Lemma clean_opt_arg f (a : option string) :
  no_nul f -> (forall s, a = Some s -> no_nul s) -> Forall no_nul (opt_arg f a).
Proof. destruct a; cbn; intros Hf H; repeat constructor; [done|by apply H]. Qed.
Lemma clean_flag_if b f : no_nul f -> Forall no_nul (flag_if b f).
Proof. destruct b; by repeat constructor. Qed.
Lemma clean_pairs k l : no_nul k -> Forall no_nul l -> Forall no_nul (flat_map (fun a => [k; a]) l).
Proof. intros Hk. induction 1; cbn; by repeat constructor. Qed.

(** A NUL-free argument, from the reader that returned it. *)
Ltac nulless :=
  first
  [ assumption
  | reflexivity
  | apply no_nul_dec
  | apply no_nul_Z
  | match goal with
    | H : arg _ _ _ = Ok ?s |- no_nul ?s => eapply no_nul_arg; [|exact H]; apply _
    | H : user_arg _ = Ok ?s |- no_nul ?s => exact (no_nul_user _ _ H)
    | H : user_not_critical_arg _ = Ok ?s |- no_nul ?s => exact (no_nul_user_not_critical _ _ H)
    | H : optional_validated _ _ _ = Ok (Some ?s) |- no_nul ?s => eapply no_nul_optional; [|exact H]; apply _
    | H : opt_arg_validated _ _ _ = Ok (Some ?s) |- no_nul ?s => eapply no_nul_opt_arg; [|exact H]; apply _
    | H : validated_kill_signal _ = Ok ?s |- no_nul ?s => exact (no_nul_kill_signal _ _ H)
    | H : public_key_arg _ = Ok ?s |- no_nul ?s => exact (no_nul_public_key _ _ H)
    | H : validated_log_rotation ?s _ = Ok ?t |- no_nul ?t => exact (no_nul_log_rotation _ _ _ H)
    | H : ok_or _ (Services.scheduled_job_unit_paths ?s) = Ok _ |- no_nul ?s =>
        apply ok_or_Ok in H; exact (no_nul_job_name _ _ H)
    | H : reject_if (negb (str_in ?s _)) _ = Ok _ |- no_nul ?s =>
        apply reject_if_Ok, negb_false_iff in H; eapply no_nul_listed; [exact H|reflexivity]
    | H : ?f ?x ?k = Ok ?s |- no_nul ?s => exact (nul_free_accepted _ _ _ H)
    | H : reject_if _ _ = Ok _ |- no_nul ?s =>
        apply reject_if_Ok in H; bools;
        first [ match goal with H : has_control s = false |- _ => exact (has_control_nul _ H) end
              | match goal with H : str_all _ s = true |- _ => eapply no_nul_charset; [|exact H]; reflexivity end ]
    end
  | lazymatch goal with
    | |- no_nul (default _ ?x) => destruct x; cbn [default from_option id]; nulless
    | |- no_nul (if ?b then _ else _) => destruct b; nulless
    | |- no_nul (_ ++ _) => apply no_nul_app; nulless
    | |- no_nul (String ?c ?s) => apply (no_nul_app (String c "") s); nulless
    end ].

(** One step on an argument vector. *)
Ltac clean_step :=
  lazymatch goal with
  | |- Forall no_nul [] => apply Forall_nil_2
  | |- Forall no_nul (if ?b then _ else _) => destruct b
  | |- Forall no_nul (match ?x with _ => _ end) => destruct x
  | |- Forall no_nul (_ :: _) => apply Forall_cons_2; [solve [nulless]|]
  | |- Forall no_nul (opt_arg _ _) => apply clean_opt_arg; [reflexivity|intros ? ->; solve [nulless]]
  | |- Forall no_nul (flag_if _ _) => apply clean_flag_if; reflexivity
  | |- Forall no_nul (option_list (_ <$> _)) => apply clean_option_list; intros ? ->; solve [nulless]
  | |- Forall no_nul (option_list _) => apply clean_options; intros ? ->; solve [nulless]
  | |- Forall no_nul (flat_map _ _) =>
      apply clean_pairs; [reflexivity|first [assumption|by eapply no_nul_additions|by eapply no_nul_removals]]
  | |- Forall no_nul (map ip_display _) => apply List.Forall_map, List.Forall_forall; intros ? _; apply no_nul_ip_display
  | |- Forall no_nul (_ ++ _) => apply Forall_app; split
  | H : collect _ _ = Ok ?l |- Forall no_nul ?l => eapply no_nul_collect; [|exact H]; apply _
  | H : range_flags _ _ _ _ = Ok ?l |- Forall no_nul ?l => eapply clean_range_flags; [|exact H]; reflexivity
  | H : range_flag _ _ _ _ _ = Ok ?l |- Forall no_nul ?l => eapply clean_range_flag; [|exact H]; reflexivity
  | H : credit_flags _ _ = Ok ?l |- Forall no_nul ?l => eapply clean_credit_flags; [|exact H]; reflexivity
  | H : limit_assignment _ _ _ _ = Ok ?l |- Forall no_nul ?l => eapply clean_limit; [| |exact H]; [apply _|reflexivity]
  end.

(** What the target asks of a command. *)
Definition command_clean (m : ActionMechanism) : Prop :=
  match m with Command program args => is_empty program = false /\ Forall no_nul args | _ => True end.

Ltac clean_command :=
  repeat match goal with
    | |- command_clean (mechanism (Snap.snap_refresh ?x)) => is_var x; destruct x
    | |- command_clean (mechanism (Flatpak.update_flatpak _ ?x)) => is_var x; destruct x
    | |- command_clean (mechanism (Flatpak.ubuntu_update_flatpak _ ?x)) => is_var x; destruct x
    end;
  lazymatch goal with |- command_clean (mechanism ?s) =>
    let m := eval hnf in (mechanism s) in change (command_clean m) end;
  cbn [command_clean Journald.jq_unit Journald.jq_priority Journald.jq_since Journald.jq_until Journald.jq_grep]; first [exact I|split; [reflexivity|repeat clean_step]].

(** The arms whose arguments are put together. *)
Create HintDb clean_arms discriminated.
#[export] Hint Constants Opaque : clean_arms.

Lemma clean_set_enabled params spec :
  build_set_service_enabled params = Ok spec -> command_clean (mechanism spec).
Proof. intros H. unbuild_arm H. destruct x; clean_command. Qed.

Lemma clean_grant_sudo params spec : build_grant_sudo_access params = Ok spec -> command_clean (mechanism spec).
Proof.
  intros H. unbuild_arm H. clean_command. apply clean_opt_arg; [reflexivity|]. intros s ->.
  destruct (keep_nonempty x2) as [u|]; [|congruence].
  destruct (u =? "ALL")%string; [injection Hx3 as <-; reflexivity|].
  destruct (validated_username u "runas") eqn:E; [|done]. injection Hx3 as <-. exact (nul_free_accepted _ _ _ E).
Qed.

Lemma no_nul_sshd name values value :
  sshd_values name = Some values -> str_in value values = true -> no_nul name /\ no_nul value.
Proof.
  unfold sshd_values. destruct (String.eqb_spec name "PermitRootLogin") as [->|_].
  - intros [= <-] H. split; [reflexivity|by eapply no_nul_listed].
  - destruct (str_in _ _) eqn:E; [|done]. intros [= <-] H. split; by eapply no_nul_listed.
Qed.

Lemma clean_sshd params spec : build_set_sshd_option params = Ok spec -> command_clean (mechanism spec).
Proof.
  intros H. unbuild_arm H. apply ok_or_Ok in Hx1. apply reject_if_Ok, negb_false_iff in Hx2.
  destruct (no_nul_sshd _ _ _ Hx1 Hx2). clean_command.
Qed.

Lemma clean_ppa (make : string -> ActionSpec) params spec :
  (forall x, no_nul x -> command_clean (mechanism (make x))) ->
  build1 (arg validated_ppa_name "name") make params = Ok spec -> command_clean (mechanism spec).
Proof. intros Hm H. unbuild_arm H. apply Hm. nulless. Qed.
Lemma clean_add_ppa params spec :
  build1 (arg validated_ppa_name "name") Ppa.add_ppa params = Ok spec -> command_clean (mechanism spec).
Proof. apply clean_ppa. intros x Hx. pose proof (no_nul_app "ppa:" x eq_refl Hx). clean_command. Qed.
Lemma clean_remove_ppa params spec :
  build1 (arg validated_ppa_name "name") Ppa.remove_ppa params = Ok spec -> command_clean (mechanism spec).
Proof. apply clean_ppa. intros x Hx. pose proof (no_nul_app "ppa:" x eq_refl Hx). clean_command. Qed.

Lemma clean_grub params spec : build_grub_set_kargs params = Ok spec -> command_clean (mechanism spec).
Proof.
  intros H. unfold build_grub_set_kargs in H.
  apply bind_Ok in H as (append & _ & H). apply bind_Ok in H as (delete & _ & H).
  apply bind_Ok in H as (? & Ha%no_nul_safe_args & H). apply bind_Ok in H as (? & Hd%no_nul_safe_args & H).
  destruct (Grub.grub_set_kargs append delete) eqn:E; [injection H as ->|done].
  apply grub_set_kargs_Ok in E as ->.
  assert (no_nul (join "," append)) by by apply no_nul_join. assert (no_nul (join "," delete)) by by apply no_nul_join.
  clean_command.
Qed.

Lemma clean_fail2ban_status params spec : build_fail2ban_status params = Ok spec -> command_clean (mechanism spec).
Proof.
  intros H. unbuild_arm H. destruct x as [j|]; [destruct (negb _); [done|]|]; injection Hx0 as <-; clean_command.
Qed.

Lemma clean_fail2ban_ban params spec :
  build_fail2ban_ip Fail2ban.fail2ban_ban_ip params = Ok spec -> command_clean (mechanism spec).
Proof. intros H. unbuild_arm H. apply ok_or_Ok in Hx1. pose proof (no_nul_ip _ _ Hx1). clean_command. Qed.
Lemma clean_fail2ban_unban params spec :
  build_fail2ban_ip Fail2ban.fail2ban_unban_ip params = Ok spec -> command_clean (mechanism spec).
Proof. intros H. unbuild_arm H. apply ok_or_Ok in Hx1. pose proof (no_nul_ip _ _ Hx1). clean_command. Qed.

Lemma no_nul_domains domain listed (domains : list string) :
  match listed with
  | Some arr => collect (fun s => validated_domain s "domains") arr
  | None => match domain with
            | Some d => d ← validated_domain d "domain"; Ok [d]
            | None => Ok []
            end
  end = Ok domains -> Forall no_nul domains.
Proof.
  destruct listed as [arr|]; [intros H; eapply no_nul_collect; [|exact H]; apply _|].
  destruct domain as [d|]; [|intros [= <-]; constructor].
  intros H. apply bind_Ok in H as (d' & Hd & [= <-]). constructor; [exact (nul_free_accepted _ _ _ Hd)|constructor].
Qed.

Lemma clean_certificate params spec : build_obtain_certificate params = Ok spec -> command_clean (mechanism spec).
Proof.
  intros H. unfold build_obtain_certificate in H.
  apply bind_Ok in H as (domain & _ & H). apply bind_Ok in H as (listed & _ & H).
  apply bind_Ok in H as (domains & Hd%no_nul_domains & H). unbuild H.
  apply reject_if_Ok, negb_false_iff in Hx2. set (challenge := default _ _) in *. clearbody challenge.
  assert (no_nul challenge) by by eapply no_nul_listed. clean_command.
Qed.

#[export] Hint Resolve clean_set_enabled clean_grant_sudo clean_sshd clean_add_ppa clean_remove_ppa clean_grub
  clean_fail2ban_status clean_fail2ban_ban clean_fail2ban_unban clean_certificate : clean_arms.

Lemma built_clean name params spec : build_action_spec name params = Ok spec -> command_clean (mechanism spec).
Proof.
  revert name params spec.
  each_arm ltac:(fun H => first [solve [eauto 2 with clean_arms nocore] | unbuild_arm H; clean_command]).
Qed.

(** ** The target *)

Lemma no_nul_args_clean m : command_clean m -> no_nul_args m = Ok tt.
Proof.
  destruct m as [program args|path|path|path content|path search repl]; try done. intros [Hp Ha]. unfold no_nul_args.
  rewrite Hp. apply check_Ok, forallb_forall. intros a Hin. apply negb_true_iff.
  rewrite List.Forall_forall in Ha. by apply Ha.
Qed.

(** C14: No input makes the action target fail, whatever reads the JSON: whichever action is named and whatever its
    parameters hold, a command that is built names a program and has no NUL in an argument, so an action the
    operator approved is never refused by the operating system for the shape of its arguments. *)
Theorem fuzz_action_spec_never_fails from_slice data : fuzz_action_spec from_slice data = Ok tt.
Proof.
  unfold fuzz_action_spec. destruct (length data <? 2); [done|]. cbv zeta. destruct (from_slice _) as [params|]; [|done].
  destruct (build_action_spec _ params) as [spec|] eqn:E; [|done]. by eapply no_nul_args_clean, built_clean.
Qed.

(** A value with a NUL is refused by the validator, not by the operating system. *)
Example nul_is_refused :
  let name := String "c" (String NUL "url") in
  build_action_spec "AptInstall" (JObj [("package", JStr name)]) = Err (InvalidParam "package")
  /\ no_nul_args (Command "sudo" ["apt-get"; "install"; name]) = Err "NUL in argument".
Proof. split; vm_compute; reflexivity. Qed.
