(* ===== verification/Entry.v ===== *)
(** * The command line's entry

    apps/sysknife-cli/src/main.rs and cli.rs, with what runner.rs does around a
    command: the log file, the planner an intent is given to, and the interactive
    loop. [Cli] is what the argument parser made of the command line. The commands
    whose bodies are in other files are effects, except for an intent and an approval,
    which are [Run]'s programs. *)

From Stdlib Require Import Ascii String NArith ZArith Lia.
From stdpp Require Import base list strings gmap.
From S2P Require Import Prelude Program Json Types Config Distro Approval Wire Client OperatorText Render Run.
From S2P Require Import Builder Report Unattended Executor PlanTools Prefs Providers.

(** ** cli.rs *)

Record AuditExportArgs : Type := mkExportArgs { xa_since : option string; xa_limit : option N }.
Record AuditVerifyArgs : Type := mkVerifyArgs { va_json : bool; va_pubkey : option string }.
Record AuditCheckpointArgs : Type := mkCheckpointArgs { ka_db : option string }.
Inductive AuditCommand : Type :=
| Export (args : AuditExportArgs)
| Verify (args : AuditVerifyArgs)
| Checkpoint (args : AuditCheckpointArgs).

Record HistoryArgs : Type := mkHistoryArgs {
  ha_status : option string; ha_action : option string; ha_since : option string; ha_limit : N }.

(** A [Shell] by its name; the words of an intent are the bytes the system passed. *)
Inductive Command : Type :=
| Doctor
| History (args : HistoryArgs)
| Approve (transaction_id : string) (full : bool)
| Completions (shell : string)
| McpServer
| Audit (command : AuditCommand)
| Intent (words : list string).

Inductive MaxRiskArg : Type := ArgLow | ArgMedium | ArgHigh.
Definition max_risk_from (arg : MaxRiskArg) : MaxRisk :=
  match arg with ArgLow => MaxLow | ArgMedium => MaxMedium | ArgHigh => MaxHigh end.

Record Cli : Type := mkCli {
  cli_yes : bool; cli_max_risk : option MaxRiskArg; cli_non_interactive : bool; cli_dry_run : bool;
  cli_json : bool; cli_timeout : option N; cli_log_to : option string; cli_step_by_step : bool;
  cli_dangerously_skip_approval : bool; cli_command : option Command }.

Definition intent_string (c : Command) : option string :=
  match c with Intent words => Some (join " " (map from_utf8_lossy words)) | _ => None end.

Definition consent_from_env (env : environ) (flag : bool) : UnattendedConsent :=
  consent_resolve flag (env !! UNATTENDED_CONSENT_VAR).

(** ** The log file

    [Logger.println]: the line goes to the standard output, and to the file until a
    write fails. *)

Inductive LogEffect : Type -> Type :=
| Stdout (line : text) : LogEffect ()
| AppendLine (line : text) : LogEffect (result string ())
| LogWarning (line : text) : LogEffect ().

(** [file]: is a file open? The new value is returned. *)
Definition logger_println (file : bool) (line : text) : prog LogEffect bool :=
  _ ← call (Stdout line);
  if file then
    written ← call (AppendLine line);
    match written with
    | Ok _ => Ret true
    | Err e =>
        _ ← call (LogWarning (chars ("sysknife: log write failed (" ++ e ++ "); --log-to tee disabled")%string));
        Ret false
    end
  else Ret false.

Fixpoint logger_lines (file : bool) (lines : list text) : prog LogEffect bool :=
  match lines with
  | [] => Ret file
  | line :: rest => file ← logger_println file line; logger_lines file rest
  end.

(** ** Effects *)

Inductive HistoryLoad : Type := Loaded | NoHistory | LoadFailed (e : string).

Inductive EntryEffect : Type -> Type :=
| ErrText (t : text) : EntryEffect ()
| OpenLog (path : string) : EntryEffect (result string ())
| BuildRuntime : EntryEffect (result string ())
| Notice {X : Type} (e : NoticeEffect X) : EntryEffect X
| ClientCall {X : Type} (e : ClientEffect X) : EntryEffect X
| QueryTargetDistro (socket : SocketTarget) : EntryEffect (option DistroId)
| BuildPlanner (config : BrainConfig) (hint : option DistroHint) : EntryEffect (result string ())
| StdinIsTerminal : EntryEffect bool
| GenerateCompletions (shell : string) : EntryEffect ()
| RunDoctor (socket : SocketTarget) (json_out : bool) : EntryEffect (result CliError ())
| RunHistory (args : HistoryArgs) (socket : SocketTarget) : EntryEffect (result CliError ())
| RunMcpServer : EntryEffect (result CliError ())
| RunAudit (command : AuditCommand) : EntryEffect (result CliError ())
| NewEditor : EntryEffect (result string ())
| CreateDirAll (path : string) : EntryEffect (result string ())
| LoadHistory (path : string) : EntryEffect HistoryLoad
| AddHistoryEntry (line : string) : EntryEffect ()
| SaveHistory (path : string) : EntryEffect (result string ()).

Abbreviation eprog := (Program.prog EntryEffect).

(** A program over one set of effects as a program over another. *)
Fixpoint embed {F G : Type -> Type} (h : forall X, F X -> G X) {A} (p : Program.prog F A) : Program.prog G A :=
  match p with
  | Ret a => Ret a
  | Vis e k => Vis (h _ e) (fun x => embed h (k x))
  end.
Definition client {A} (p : cprog A) : eprog A := embed (@ClientCall) p.

Definition eprintln (s : string) : eprog () := call (ErrText (chars s)).

(** ** An intent *)

Definition family_name (f : DistroFamily) : string :=
  match f with FedoraFamily => "fedora" | DebianFamily => "debian" | OtherFamily => "other" end.

Definition distro_id_to_hint (distro : DistroId) : DistroHint :=
  mkHint
    match distro with
    | Ubuntu _ _ => "ubuntu"
    | UbuntuCore _ _ => "ubuntu-core"
    | Debian _ => "debian"
    | Fedora _ | FedoraSilverblue _ => "fedora"
    | Other id _ _ => id
    end
    (family_name (family distro)) (Some (distro_display distro)).

(** ** The time limit and the report of an error *)

(** [Within]: the effect, unless the deadline passes while it is awaited ([None]; it
    may have happened or not). *)
Inductive MainEffect : Type -> Type :=
| Plain {X : Type} (e : EntryEffect X) : MainEffect X
| Within {X : Type} (secs : N) (e : EntryEffect X) : MainEffect (option X).

Abbreviation mprog := (Program.prog MainEffect).
Definition plain {A} (p : eprog A) : mprog A := embed (@Plain) p.

(** [tokio::time::timeout]: the program is dropped where it waits when the time is up. *)
Fixpoint within (secs : N) {A} (p : eprog (result CliError A)) : mprog (result CliError A) :=
  match p with
  | Ret r => Ret r
  | Vis e k =>
      answer ← call (Within secs e);
      match answer with
      | Some x => within secs (k x)
      | None => Ret (Err (TimedOut secs))
      end
  end.

Definition report (e : CliError) : mprog () :=
  match e with
  | Exit _ => Ret tt
  | Refused reason suggestion =>
      _ ← plain (eprintln "Cannot satisfy that request.");
      _ ← plain (call (ErrText (chars "  " ++ operator_safe (chars reason))));
      match suggestion with
      | Some s => plain (call (ErrText (chars "  Try: " ++ operator_safe (chars s))))
      | None => Ret tt
      end
  | _ => plain (eprintln ("sysknife: " ++ show_cli_error e))
  end.

Section Entry.
Context `{Terminal} `{JsonOutput}.
(** [str::to_lowercase] and the patterns of the sensitive-data fence. *)
Variables (to_lowercase : string -> string) (matches : list string -> string -> bool).
(** The environment after the configuration was applied to it, /etc/hostname, the user. *)
Variables (env : environ) (hostname_file : option string) (euid : N).

Definition print_planning_notice (provider model intent : string) : eprog () :=
  eprintln ("→ planning " ++ String (chr 34) "" ++ loggable_intent matches intent ++ String (chr 34) "" ++ " with "
            ++ provider ++ "/" ++ model ++ ", this can take a minute…").

(** [run_intent], from its first line; [Run.run_intent] is its rest. *)
Definition run_intent_on (socket : SocketTarget) (intent : string) (opts : RunOpts) : eprog (result CliError ()) :=
  match brain_from_env to_lowercase env with
  | Err e => Ret (Err (ConfigOrDaemon (show_config_error e)))
  | Ok config =>
      distro ← call (QueryTargetDistro socket);
      _ ← match provider_guess_notice config with
          | Some notice => eprintln ("! " ++ notice)
          | None => Ret tt
          end;
      built ← call (BuildPlanner config (distro_id_to_hint <$> distro));
      match built with
      | Err e => Ret (Err (ConfigOrDaemon e))
      | Ok _ =>
          tty ← call (Notice StderrIsTerminal);
          _ ← (if tty : bool then Ret tt
               else print_planning_notice (provider_name (bc_provider config)) (model_name (bc_provider config)) intent);
          client (run_intent intent distro opts)
      end
  end.

(** ** The interactive loop *)

Inductive ReadlineResult : Type := Line (line : string) | Interrupted | Eof | ReadlineError (e : string).

Definition history_path : option string := (fun h => path_join h ".local/share/sysknife/history") <$> env !! "HOME".

Definition EDITOR_FAILED (e : string) : CliError := ExecutionFailed ("readline init: " ++ e).

Definition load_history (path : string) : eprog () :=
  _ ← match path_parent path with
      | None => Ret tt
      | Some parent =>
          r ← call (CreateDirAll parent);
          match r with
          | Ok _ => Ret tt
          | Err e => eprintln ("sysknife: failed to create history directory " ++ parent ++ ": " ++ e)
          end
      end;
  loaded ← call (LoadHistory path);
  match loaded with
  | Loaded | NoHistory => Ret tt
  | LoadFailed e => eprintln ("sysknife: failed to load history from " ++ path ++ ": " ++ e)
  end.

Definition save_history (path : string) : eprog () :=
  r ← call (SaveHistory path);
  match r with
  | Ok _ => Ret tt
  | Err e => eprintln ("sysknife: failed to save history to " ++ path ++ ": " ++ e)
  end.

(** [lines]: what the editor answers, one [readline] after the other; past them the
    input is at its end. *)
Fixpoint repl_loop (socket : SocketTarget) (opts : RunOpts) (lines : list ReadlineResult) : eprog () :=
  match lines with
  | [] | Interrupted :: _ | Eof :: _ => Ret tt
  | ReadlineError e :: _ => client (call (PrintStderr (chars ("readline error: " ++ e)%string)))
  | Line line :: rest =>
      let intent := str_trim line in
      _ ← call (AddHistoryEntry line);
      if is_empty intent then repl_loop socket opts rest
      else if str_in intent ["exit"; "quit"] then Ret tt
      else
        r ← run_intent_on socket intent opts;
        _ ← match r with
            | Ok _ => Ret tt
            | Err e => client (call (PrintStderr (chars ("error: " ++ show_cli_error e)%string)))
            end;
        repl_loop socket opts rest
  end.

Definition run_repl (socket : SocketTarget) (opts : RunOpts) (lines : list ReadlineResult) : eprog (result CliError ()) :=
  editor ← call NewEditor;
  match editor with
  | Err e => Ret (Err (EDITOR_FAILED e))
  | Ok _ =>
      _ ← match history_path with Some p => load_history p | None => Ret tt end;
      _ ← repl_loop socket opts lines;
      _ ← match history_path with Some p => save_history p | None => Ret tt end;
      Ret (Ok tt)
  end.

(** ** main.rs *)

Definition build_run_opts (cli : Cli) : RunOpts :=
  mkOpts (cli_yes cli) (max_risk_from <$> cli_max_risk cli) (cli_non_interactive cli) (cli_dry_run cli) (cli_json cli)
    (cli_step_by_step cli) (is_granted (consent_from_env env (cli_dangerously_skip_approval cli))).

Definition run_approve (transaction_id : string) (opts : RunOpts) (full : bool) : eprog (result CliError ()) :=
  terminal ← call StdinIsTerminal;
  client (approve_with_confirmation transaction_id opts full terminal).

Definition run_command (cli : Cli) (socket : SocketTarget) (lines : list ReadlineResult) : eprog (result CliError ()) :=
  match cli_command cli with
  | Some (Completions shell) => _ ← call (GenerateCompletions shell); Ret (Ok tt)
  | Some Doctor => call (RunDoctor socket (cli_json cli))
  | Some (History args) => call (RunHistory args socket)
  | Some (Approve transaction_id full) => run_approve transaction_id (build_run_opts cli) full
  | Some McpServer => call RunMcpServer
  | Some (Audit command) => call (RunAudit command)
  | Some (Intent words) => run_intent_on socket (join " " (map from_utf8_lossy words)) (build_run_opts cli)
  | None => run_repl socket (build_run_opts cli) lines
  end.

Definition dispatch (cli : Cli) (socket : SocketTarget) (lines : list ReadlineResult) : eprog (result CliError ()) :=
  let consent := consent_from_env env (cli_dangerously_skip_approval cli) in
  match consent_refusal consent with
  | Some refusal => Ret (Err (UnattendedConsentMissing refusal))
  | None =>
      _ ← (if is_granted consent && negb (cli_dry_run cli)
           then _ ← embed (@Notice) (warn_and_pause (detect hostname_file env euid)); Ret tt
           else Ret tt);
      run_command cli socket lines
  end.

(** The exit status. *)
Definition run_logged (cli : Cli) (socket : SocketTarget) (lines : list ReadlineResult) : mprog Z :=
  log ← match cli_log_to cli with
        | None => Ret (Ok tt)
        | Some p => plain (call (OpenLog p))
        end;
  match log with
  | Err e =>
      _ ← plain (eprintln ("sysknife: " ++ show_cli_error (ConfigOrDaemon ("open log file: " ++ e)%string))); Ret 4%Z
  | Ok _ =>
      result ← match cli_timeout cli with
               | Some secs => within secs (dispatch cli socket lines)
               | None => plain (dispatch cli socket lines)
               end;
      match result with
      | Ok _ => Ret 0%Z
      | Err e => _ ← report e; Ret (exit_code e)
      end
  end.
End Entry.

Section Main.
Context `{Terminal} `{JsonOutput} `{StrDebug}.
Variables (to_lowercase : string -> string) (matches : list string -> string -> bool).
(** The TOML reader and the files. *)
Variables (from_toml : string -> result string LacsConfig) (read : string -> FileRead).

(** [None] is the panic of [config_dir]. [status] is /proc/self/status. *)
Definition main_of (env : environ) (hostname_file status : option string) (euid : N) (cli : Cli)
    (lines : list ReadlineResult) : option (mprog Z) :=
  loaded ← load from_toml read env;
  Some match loaded with
       | Err reason => _ ← plain (eprintln ("[sysknife] FATAL: " ++ reason)); Ret 1%Z
       | Ok config =>
           let env := apply_defaults_to_env config env in
           match resolve_socket_target env status with
           | Err why => _ ← plain (eprintln (show_text why)); Ret 1%Z
           | Ok socket =>
               runtime ← plain (call BuildRuntime);
               match runtime with
               | Err e => _ ← plain (eprintln ("sysknife: could not start the async runtime: " ++ e)); Ret 4%Z
               | Ok _ => run_logged to_lowercase matches env hostname_file euid cli socket lines
               end
           end
       end.
End Main.

(** ** What the log file holds *)

Definition stdout_line (ev : event LogEffect) : option text := match ev_effect ev with Stdout l => Some l | _ => None end.
Definition file_line (ev : event LogEffect) : option text := match ev_effect ev with AppendLine l => Some l | _ => None end.

Lemma log_closed lines tr last :
  runs (logger_lines false lines) tr last -> omap stdout_line tr = lines /\ omap file_line tr = [] /\ last = false.
Proof.
  revert tr. induction lines as [|l lines IH]; intros tr H; cbn [logger_lines] in H; [by apply runs_ret_iff in H as [-> ->]|].
  apply runs_bind in H as (t1 & t2 & file & -> & H1 & H2). apply runs_inv in H1 as (u & t3 & -> & H1).
  apply runs_ret_iff in H1 as [-> ->]. apply IH in H2 as (Ho & Hf & ->). cbn. by rewrite Ho.
Qed.

(** Every line reaches the standard output in order; the file is given a prefix of them,
    the last of it perhaps in vain, and all of them while no write failed. *)
Theorem log_file_is_a_prefix lines tr last :
  runs (logger_lines true lines) tr last ->
  omap stdout_line tr = lines
  /\ exists n, omap file_line tr = take n lines /\ (last = true -> n = length lines).
Proof.
  revert tr. induction lines as [|l lines IH]; intros tr H; cbn [logger_lines] in H.
  { apply runs_ret_iff in H as [-> ->]. split; [done|]. by exists 0. }
  apply runs_bind in H as (t1 & t2 & file & -> & H1 & H2).
  apply runs_inv in H1 as (u & t3 & -> & H1). apply runs_inv in H1 as ([w|e] & t4 & -> & H1).
  - apply runs_ret_iff in H1 as [-> ->]. apply IH in H2 as (Ho & n & Hf & Hn). cbn. rewrite Ho, Hf.
    split; [done|]. exists (S n). split; [done|]. intros Hl. by rewrite Hn.
  - apply runs_inv in H1 as (v & t5 & -> & H1). apply runs_ret_iff in H1 as [-> ->].
    apply log_closed in H2 as (Ho & Hf & ->). cbn. rewrite Ho, Hf. split; [done|]. by exists 1.
Qed.

(** ** The time limit *)

Definition timed (secs : N) (ev : event EntryEffect) : event MainEffect :=
  mkEvent _ (Within secs (ev_effect ev)) (Some (ev_answer ev)).

(** The time limit only cuts. A command under a limit does what it does without one, up
    to its end and with its result, or up to an effect it waits for when the time is up;
    then the result is the time-out, whatever the effect came to. *)
Theorem timeout_only_cuts {A} secs (p : eprog (result CliError A)) tr r :
  runs (within secs p) tr r ->
  (exists done, runs p done r /\ tr = map (timed secs) done)
  \/ (exists done X (e : EntryEffect X) k, reaches p done (Vis e k) /\ r = Err (TimedOut secs)
       /\ tr = map (timed secs) done ++ [mkEvent _ (Within secs e) None]).
Proof.
  revert tr. induction p as [a|X e k IH]; intros tr H; cbn [within] in H.
  - apply runs_ret_iff in H as [-> ->]. left. exists []. split; [constructor|done].
  - apply runs_inv in H as ([x|] & t & -> & H).
    + apply IH in H as [(d & Hd & ->)|(d & Y & e' & k' & Hd & -> & ->)].
      * left. exists (mkEvent X e x :: d). split; [by constructor|done].
      * right. exists (mkEvent X e x :: d), Y, e', k'. split; [by constructor|done].
    + apply runs_ret_iff in H as [-> ->]. right. exists [], X, e, k. split; [constructor|done].
Qed.

(** ** The interactive loop *)

Section Loop.
Context `{Terminal} `{JsonOutput}.
Variables (to_lowercase : string -> string) (matches : list string -> string -> bool) (env : environ).

(** The intents of what the operator typed: the lines that are no blank, up to the end
    of the input or the word that ends the session. *)
Fixpoint intents_of (lines : list ReadlineResult) : list string :=
  match lines with
  | Line line :: rest =>
      let intent := str_trim line in
      if is_empty intent then intents_of rest
      else if str_in intent ["exit"; "quit"] then []
      else intent :: intents_of rest
  | _ => []
  end.

(** What the loop itself does: it remembers a line, or prints an error. *)
Definition loop_event (ev : event EntryEffect) : Prop :=
  match ev_effect ev with AddHistoryEntry _ | ClientCall (PrintStderr _) => True | _ => False end.

(** The parts in order, with something before each and after the last. *)
Fixpoint interleave {A} (gaps parts : list (list A)) : list A :=
  match gaps, parts with
  | g :: gaps', p :: parts' => g ++ p ++ interleave gaps' parts'
  | g :: _, [] => g
  | [], _ => []
  end.

Lemma interleave_cons {A} (a : list A) g gs ps : interleave ((a ++ g) :: gs) ps = a ++ interleave (g :: gs) ps.
Proof. destruct ps; cbn; by rewrite ?app_assoc. Qed.

Definition intent_run (socket : SocketTarget) (opts : RunOpts) (intent : string) (part : list (event EntryEffect)) : Prop :=
  exists r, runs (run_intent_on to_lowercase matches env socket intent opts) part r.

(** The session of a list of lines: a run for each of its intents, in their order and
    nothing else, whatever the one before came to. *)
Theorem repl_runs_each_line_once socket opts lines tr :
  runs (repl_loop to_lowercase matches env socket opts lines) tr tt ->
  exists gaps parts, Forall2 (intent_run socket opts) (intents_of lines) parts
    /\ length gaps = S (length parts) /\ Forall (Forall loop_event) gaps /\ tr = interleave gaps parts.
Proof.
  assert (Hnone : forall t, Forall loop_event t -> exists gaps parts, Forall2 (intent_run socket opts) [] parts
            /\ length gaps = S (length parts) /\ Forall (Forall loop_event) gaps /\ t = interleave gaps parts).
  { intros t Ht. exists [t], []. split_and!; [constructor|done|by repeat constructor|done]. }
  revert tr. induction lines as [|[line| | |e] lines IH]; intros tr Hr; cbn [repl_loop intents_of] in *.
  1,3,4: apply runs_ret_iff in Hr as [-> _]; by apply Hnone.
  - apply runs_inv in Hr as (u & t1 & -> & Hr). cbv zeta in *.
    assert (Hadd : loop_event (mkEvent _ (AddHistoryEntry line) u)) by exact I.
    destruct (is_empty _); [|destruct (str_in _ _)].
    + apply IH in Hr as ([|g gaps] & parts & Hp & Hl & Hg & ->); [done|]. apply Forall_cons in Hg as [Hg1 Hg2].
      exists ((mkEvent _ (AddHistoryEntry line) u :: g) :: gaps), parts. split_and!; [done|done|by repeat constructor|].
      by destruct parts.
    + apply runs_ret_iff in Hr as [-> _]. by apply Hnone; repeat constructor.
    + change (runs (r ← run_intent_on to_lowercase matches env socket (str_trim line) opts;
                    _ ← match r with
                        | Ok _ => Ret tt
                        | Err e => client (call (PrintStderr (chars ("error: " ++ show_cli_error e)%string)))
                        end;
                    repl_loop to_lowercase matches env socket opts lines) t1 tt) in Hr.
      apply runs_bind in Hr as (part & t2 & r & -> & Hpart & Hr).
      apply runs_bind in Hr as (t3 & t4 & v & -> & Hprint & Hr).
      assert (Hq : Forall loop_event t3).
      { destruct r as [w|e]; [by apply runs_ret_iff in Hprint as [-> _]|].
        apply runs_inv in Hprint as (w & t5 & -> & Hprint). apply runs_ret_iff in Hprint as [-> _]. by repeat constructor. }
      apply IH in Hr as ([|g gaps] & parts & Hp & Hl & Hg & ->); [done|]. apply Forall_cons in Hg as [Hg1 Hg2].
      exists ([mkEvent _ (AddHistoryEntry line) u] :: (t3 ++ g) :: gaps), (part :: parts).
      split_and!; [constructor; [by exists r|done]|cbn in *; lia| |].
      * apply Forall_cons. split; [by repeat constructor|]. apply Forall_cons. split; [by apply Forall_app|done].
      * change (interleave ([mkEvent _ (AddHistoryEntry line) u] :: (t3 ++ g) :: gaps) (part :: parts))
          with ([mkEvent _ (AddHistoryEntry line) u] ++ part ++ interleave ((t3 ++ g) :: gaps) parts).
        by rewrite interleave_cons.
  - apply runs_inv in Hr as (w & t1 & -> & Hr). apply runs_ret_iff in Hr as [-> _]. by apply Hnone; repeat constructor.
Qed.
End Loop.

(** ** The two keys of an unattended run *)

(** A preview is asked for as [unattended] says. *)
Definition declares (unattended : bool) X (e : ClientEffect X) : Prop :=
  match e with PreviewDeclaring _ _ u => u = unattended | _ => True end.

Section Declared.
Context `{Terminal} `{JsonOutput}.
Implicit Types (opts : RunOpts) (plan : AuthorizedPlan).

Lemma try_then_only {A B} (Q : forall X, ClientEffect X -> Prop) (p : cprog (result CliError A))
    (f : A -> cprog (result CliError B)) :
  only Q p -> (forall a, only Q (f a)) -> only Q (try_then p f).
Proof. intros Hp Hf. unfold try_then. apply only_bind; [done|]. intros [a|e]; [apply Hf|exact I]. Qed.

Ltac declared :=
  repeat first [ ostep | apply try_then_only; [|intros ?] | exact I | reflexivity
               | lazymatch goal with |- only _ ?p => let h := head_of p in unfold h end ].

Lemma run_steps_declare opts n l : only (declares (opt_skip_approval opts)) (run_steps opts n l).
Proof.
  revert n. induction l as [|s l IH]; intros n; cbn [run_steps]; [exact I|]. apply try_then_only; [|intros ?; apply IH].
  declared.
Qed.

(** A run's previews are declared unattended when its options lift the gate, and only then. *)
Lemma run_intent_declares opts intent distro : only (declares (opt_skip_approval opts)) (run_intent intent distro opts).
Proof.
  unfold run_intent, execute_plan. repeat first [ostep | apply try_then_only; [|intros ?]];
    try apply run_steps_declare; declared. split; [exact I|intros []].
Qed.
Lemma approve_declares u id opts full terminal : only (declares u) (approve_with_confirmation id opts full terminal).
Proof. declared. Qed.
End Declared.

(** What the process does before a command: it prints, opens its log, starts its runtime. *)
Definition setup_event (ev : event MainEffect) : Prop :=
  match ev_effect ev with
  | Plain e => match e with ErrText _ | OpenLog _ | BuildRuntime => True | _ => False end
  | Within _ _ => False
  end.

(** The configuration file turns no key. *)
Lemma settings_keep_consent c : Forall (fun kv => kv.1 <> UNATTENDED_CONSENT_VAR) (config_settings c).
Proof. unfold config_settings. repeat case_match; repeat (apply Forall_cons; split; [discriminate|]); constructor. Qed.

Lemma consent_not_configured c env :
  apply_defaults_to_env c env !! UNATTENDED_CONSENT_VAR = env !! UNATTENDED_CONSENT_VAR.
Proof.
  unfold apply_defaults_to_env. pose proof (settings_keep_consent c) as Hs. revert env.
  induction Hs as [|[k v] l Hk Hl IH]; intros env; [done|]. cbn [fold_left fst snd] in *. rewrite IH.
  unfold set_if_absent. repeat case_match; [done| |done]. by rewrite lookup_insert_ne.
Qed.

Section Keys.
Context `{Terminal} `{JsonOutput} `{StrDebug}.
Variables (to_lowercase : string -> string) (matches : list string -> string -> bool).
Variables (from_toml : string -> result string LacsConfig) (read : string -> FileRead).

Lemma flag_alone_refused env hostname_file euid cli socket lines :
  cli_dangerously_skip_approval cli = true -> env !! UNATTENDED_CONSENT_VAR <> Some UNATTENDED_CONSENT_VALUE ->
  exists m, dispatch to_lowercase matches env hostname_file euid cli socket lines = Ret (Err (UnattendedConsentMissing m)).
Proof.
  intros Hflag Henv. unfold dispatch, consent_from_env. cbv zeta. rewrite Hflag. unfold consent_resolve.
  rewrite bool_decide_false by done. by eexists.
Qed.

Ltac last_event Hr := apply runs_inv in Hr as (? & ? & -> & Hr); apply runs_ret_iff in Hr as [-> ->].

(** C16: The flag alone runs nothing. With --dangerously-skip-approval on the command line
    and the variable not set to 1 in the environment (a configuration file cannot set
    it), no command is begun, not even one that only reads, whatever the other options
    and the command are: the process prints its refusal and ends with status 1, or with
    an error of its start. *)
Theorem flag_alone_runs_nothing env hostname_file status euid cli lines p tr code :
  cli_dangerously_skip_approval cli = true -> env !! UNATTENDED_CONSENT_VAR <> Some UNATTENDED_CONSENT_VALUE ->
  main_of to_lowercase matches from_toml read env hostname_file status euid cli lines = Some p -> runs p tr code ->
  Forall setup_event tr /\ (code = 1 \/ code = 4)%Z.
Proof.
  intros Hflag Henv Hp Hr. unfold main_of in Hp. destruct (load from_toml read env) as [loaded|]; [|done].
  injection Hp as <-. destruct loaded as [config|reason]; [|last_event Hr; split; [by repeat constructor|by left]].
  cbv zeta in Hr. rewrite <-(consent_not_configured config env) in Henv. set (env' := apply_defaults_to_env config env) in *.
  destruct (resolve_socket_target env' status) as [socket|why]; [|last_event Hr; split; [by repeat constructor|by left]].
  apply runs_inv in Hr as ([u|e] & t & -> & Hr); [|last_event Hr; split; [by repeat constructor|by right]].
  change (runs (run_logged to_lowercase matches env' hostname_file euid cli socket lines) t code) in Hr.
  destruct (flag_alone_refused env' hostname_file euid cli socket lines Hflag Henv) as [m Hd].
  unfold run_logged in Hr. rewrite Hd in Hr.
  apply runs_bind in Hr as (t1 & t2 & opened & -> & Hopen & Hr).
  assert (Ht1 : Forall setup_event t1).
  { destruct (cli_log_to cli); [|by apply runs_ret_iff in Hopen as [-> _]].
    apply runs_inv in Hopen as (? & ? & -> & Hopen). apply runs_ret_iff in Hopen as [-> _]. by repeat constructor. }
  assert (Hend : Forall setup_event t2 /\ (code = 1 \/ code = 4)%Z).
  { destruct opened as [w|e]; [|last_event Hr; split; [by repeat constructor|by right]].
    assert (Hr' : runs (_ ← report (UnattendedConsentMissing m); Ret 1%Z) t2 code) by by destruct (cli_timeout cli).
    last_event Hr'. split; [by repeat constructor|by left]. }
  destruct Hend as [Ht2 Hcode]. split; [|done]. apply Forall_cons. split; [exact I|]. by apply Forall_app.
Qed.

(** *** Nothing is declared unattended without both keys *)

Definition entry_declares (u : bool) X (e : EntryEffect X) : Prop :=
  match e with ClientCall e => declares u _ e | _ => True end.
Definition main_declares (u : bool) X (e : MainEffect X) : Prop :=
  match e with Plain e | Within _ e => entry_declares u _ e end.

Lemma only_embed {F G : Type -> Type} (h : forall X, F X -> G X) (Q : forall X, F X -> Prop) (R : forall X, G X -> Prop) {A}
    (p : Program.prog F A) :
  (forall X e, Q X e -> R X (h X e)) -> only Q p -> only R (embed h p).
Proof. intros Hh. induction p as [a|X e k IH]; [done|]. intros [He Hk]. split; [by apply Hh|]. intros x. by apply IH. Qed.

Lemma within_declares u secs {A} (p : eprog (result CliError A)) :
  only (entry_declares u) p -> only (main_declares u) (within secs p).
Proof. induction p as [a|X e k IH]; [done|]. intros [He Hk]. split; [exact He|]. intros [x|]; [by apply IH|exact I]. Qed.

Lemma client_declares u {A} (p : cprog A) : only (declares u) p -> only (entry_declares u) (client p).
Proof. by apply only_embed. Qed.

Ltac entered :=
  repeat first [ ostep | apply client_declares | exact I | reflexivity
               | lazymatch goal with |- only _ ?p => let h := head_of p in unfold h end ].

Lemma intent_declares env socket intent opts :
  only (entry_declares (opt_skip_approval opts)) (run_intent_on to_lowercase matches env socket intent opts).
Proof.
  unfold run_intent_on. repeat first [ostep|apply client_declares|exact I]; try apply run_intent_declares; entered.
Qed.

Lemma repl_declares env socket opts lines :
  only (entry_declares (opt_skip_approval opts)) (repl_loop to_lowercase matches env socket opts lines).
Proof.
  induction lines as [|[line| | |e] lines IH]; cbn [repl_loop]; try exact I; [|entered].
  ostep; [entered|]. cbv zeta. ostep; [done|]. ostep; [exact I|]. ostep; [apply intent_declares|]. ostep; [entered|done].
Qed.

Lemma dispatch_declares env hostname_file euid cli socket lines :
  only (entry_declares (opt_skip_approval (build_run_opts env cli)))
    (dispatch to_lowercase matches env hostname_file euid cli socket lines).
Proof.
  unfold dispatch. cbv zeta. ostep; [exact I|]. ostep.
  - ostep; [|exact I]. ostep; [|exact I]. apply (only_embed _ (fun _ _ => True)); [done|]. entered.
  - unfold run_command. ostep.
    + ostep; [..|apply intent_declares]; try (by entered).
    + unfold run_repl. ostep; [entered|]. ostep; [|exact I]. ostep; [entered|]. ostep; [apply repl_declares|entered].
Qed.

Definition unattended_preview (ev : event MainEffect) : Prop :=
  match ev_effect ev with
  | Plain e | Within _ e =>
      match e with ClientCall e => match e with PreviewDeclaring _ _ unattended => unattended = true | _ => False end
                 | _ => False end
  end.

Lemma main_declares_granted env hostname_file euid cli socket lines :
  only (main_declares (opt_skip_approval (build_run_opts env cli)))
    (run_logged to_lowercase matches env hostname_file euid cli socket lines).
Proof.
  assert (Hplain : forall {A} (p : eprog A), only (entry_declares (opt_skip_approval (build_run_opts env cli))) p ->
            only (main_declares (opt_skip_approval (build_run_opts env cli))) (plain p)).
  { intros A p. by apply only_embed. }
  unfold run_logged. ostep; [ostep; [apply Hplain; entered|exact I]|]. ostep; [|ostep; [apply Hplain; entered|exact I]].
  ostep.
  - ostep; [apply within_declares, dispatch_declares|apply Hplain, dispatch_declares].
  - ostep; [exact I|]. ostep; [|exact I].
    unfold report. repeat first [ostep|exact I|apply Hplain; entered].
Qed.

(** A preview is declared unattended, so that no person has to answer for its step, only
    by a process that was given both keys: the flag, and the variable in its own
    environment. *)
Theorem unattended_needs_both_keys env hostname_file status euid cli lines p tr code :
  main_of to_lowercase matches from_toml read env hostname_file status euid cli lines = Some p -> runs p tr code ->
  Exists unattended_preview tr ->
  cli_dangerously_skip_approval cli = true /\ env !! UNATTENDED_CONSENT_VAR = Some UNATTENDED_CONSENT_VALUE.
Proof.
  intros Hp Hr Hex. unfold main_of in Hp. destruct (load from_toml read env) as [loaded|]; [|done]. injection Hp as <-.
  pose proof (fun g Ho => only_runs (main_declares g) _ tr code Ho Hr) as Hall.
  assert (Hg : forall g, Forall (fun ev => main_declares g _ (ev_effect ev)) tr -> g = true).
  { intros g Hf. apply Exists_exists in Hex as ([X e x] & Hin & Hu). rewrite Forall_forall in Hf. specialize (Hf _ Hin).
    unfold unattended_preview in Hu. cbn in Hf, Hu. destruct e as [Y e|Y secs e]; destruct e; try done;
      match goal with e : ClientEffect _ |- _ => destruct e; try done end; cbn in Hf; by subst. }
  destruct loaded as [config|reason].
  2: { by specialize (Hg false (Hall false ltac:(repeat split))). }
  set (env' := apply_defaults_to_env config env) in *. rewrite <-(consent_not_configured config env).
  destruct (resolve_socket_target env' status) as [socket|why].
  2: { by specialize (Hg false (Hall false ltac:(repeat split))). }
  specialize (Hg _ (Hall (opt_skip_approval (build_run_opts env' cli)) ltac:(
    split; [exact I|]; intros [u|e]; [apply main_declares_granted|split; [exact I|]; intros ?; exact I]))).
  by apply consent_needs_both in Hg.
Qed.
End Keys.

(** ** Runs *)

Module EntrySample.
#[local] Existing Instance PlainTerminal.terminal.
#[local] Instance output : JsonOutput := {|
  value_json := fun _ => chars "{}"; preview_json := fun _ => chars "{}"; preview_value := fun _ => JNull;
  result_json := fun _ => chars "{}" |}.
#[local] Instance str_debug : StrDebug := fun s => s.

Definition toml (s : string) : result string LacsConfig := Ok default_config.
Definition no_file (p : string) : FileRead := FileMissing.
Definition never (l : list string) (s : string) : bool := false.
Definition env : environ := {["HOME" := "/home/alice"]}.
Definition cli (flag : bool) (command : option Command) : Cli :=
  mkCli true (Some ArgHigh) false false false None None false flag command.
Definition main (flag : bool) (command : option Command) : option (mprog Z) :=
  main_of to_lower never toml no_file env None None 1000 (cli flag command) [].

(** The flag without the variable, on a command that only reads. *)
Lemma flag_alone_runs_nothing_witness :
  exists p tr, main true (Some Doctor) = Some p /\ runs p tr 1%Z /\ Forall setup_event tr /\ (1 = 1 \/ 1 = 4)%Z.
Proof.
  assert (Hm : exists p tr, main true (Some Doctor) = Some p /\ runs p tr 1%Z).
  { eexists _, _. split; [reflexivity|]. apply (runs_vis _ _ _ (Ok tt)). apply (runs_vis _ _ _ tt). apply runs_ret. }
  destruct Hm as (p & tr & Hp & Hr). exists p, tr. split; [exact Hp|]. split; [exact Hr|].
  apply (flag_alone_runs_nothing to_lower never toml no_file env None None 1000 (cli true (Some Doctor)) [] p tr 1%Z);
    [reflexivity|vm_compute; discriminate|exact Hp|exact Hr].
Defined.

(** The same command without the flag asks the daemon. *)
Example doctor_runs :
  exists p tr, main false (Some Doctor) = Some p /\ runs p tr 0%Z
    /\ omap (fun ev => match ev_effect ev with Plain (RunDoctor s _) => Some s | _ => None end) tr <> [].
Proof.
  eexists _, _. split; [reflexivity|]. split.
  - apply (runs_vis _ _ _ (Ok tt)). apply (runs_vis _ _ _ (Ok tt)). apply runs_ret.
  - discriminate.
Qed.

(** A refusal's suggestion is printed by a command and lost in the loop. *)
Definition refusal : CliError := Refused "Port 0 is not a port." (Some "ask for port 80").
Definition printed (ev : event MainEffect) : option text := match ev_effect ev with Plain (ErrText t) => Some t | _ => None end.

Example repl_drops_the_suggestion :
  (forall tr, runs (report refusal) tr tt ->
     omap printed tr = [chars "Cannot satisfy that request."; chars "  Port 0 is not a port."; chars "  Try: ask for port 80"])
  /\ show_cli_error refusal = "cannot satisfy that request: Port 0 is not a port.".
Proof.
  split; [|reflexivity]. intros tr Hr. apply runs_inv in Hr as (? & t1 & -> & Hr). apply runs_inv in Hr as (? & t2 & -> & Hr).
  apply runs_inv in Hr as (? & t3 & -> & Hr). apply runs_ret_iff in Hr as [-> _]. vm_compute. reflexivity.
Qed.

(** An intent the fence withholds from the planning notice is kept in the history. *)
Example history_keeps_what_the_notice_withholds socket opts tr :
  let always (l : list string) (s : string) := true in
  runs (repl_loop to_lower always env socket opts [Line "my password is hunter2"]) tr tt ->
  (exists tr', tr = mkEvent _ (AddHistoryEntry "my password is hunter2") tt :: tr')
  /\ loggable_intent always "my password is hunter2" = "<withheld: intent matched the sensitive-data fence>".
Proof.
  intros always Hr. split; [|reflexivity]. apply runs_inv in Hr as ([] & t & -> & _). by exists t.
Qed.
End EntrySample.
