(* ===== verification/KeyFiles.v ===== *)
(** * The files of the audit key and of the database

    crates/sysknife-daemon/src/audit_chain.rs, from [AuditKey::load_or_generate] to
    [fill_random], and the opening of the store in
    crates/sysknife-daemon/src/transactions.rs: the calls on the file system, each of
    which may fail, over files with a mode and their bytes. [Signing.load_or_generate] is
    what the key's half comes to. *)

From Stdlib Require Import Ascii String NArith Lia.
From stdpp Require Import base list strings gmap.
From S2P Require Import Prelude Program Config Signing Store.

(** ** The file system *)

Inductive FsEffect : Type -> Type :=
| Exists (path : string) : FsEffect bool
| CreateDirs (path : string) (mode : N) : FsEffect (result string ())
| Urandom (count : nat) : FsEffect (result string bytes)
| CreateNew (path : string) (mode : N) : FsEffect (result string ())
| WriteAll (path : string) (bs : bytes) : FsEffect (result string ())
| SyncAll (path : string) : FsEffect (result string ())
| WriteFile (path : string) (bs : bytes) : FsEffect (result string ())
| Metadata (path : string) : FsEffect (result string N)
| ReadFile (path : string) : FsEffect (result string bytes)
| SetMode (path : string) (mode : N) : FsEffect (result string ())
| Initialize (path : string) : FsEffect (result StoreError ())
| Warn (text : string) : FsEffect ().

Abbreviation fprog := (prog FsEffect).

Definition MODE_BITS : N := 511.   (* 0o777 *)
Definition OTHERS : N := 63.       (* 0o077 *)
Definition OWNER_FILE : N := 384.  (* 0o600 *)
Definition OWNER_DIR : N := 448.   (* 0o700 *)

(** [r.map_err(f)?; p] *)
Definition and_then {E E' A B} (f : E -> E') (r : fprog (result E A)) (p : A -> fprog (result E' B)) : fprog (result E' B) :=
  a ← r; match a with Ok a => p a | Err e => Ret (Err (f e)) end.

(** ** The audit key *)

Section Key.
Context `{Crypto}.

Definition key_io {A B} (r : fprog (result string A)) (p : A -> fprog (result AuditKeyError B)) : fprog (result AuditKeyError B) :=
  and_then (fun _ => KeyIo) r p.

Definition fill_random (count : nat) : fprog (result string bytes) := call (Urandom count).

Definition pub_path (path : string) : string := (path ++ ".pub")%string.
Definition pub_text (random : bytes) : bytes :=
  bytes_of (hex_encode (verifying_to_bytes (verifying_key_of (signing_from_bytes random))) ++ String LF "")%string.

Definition generate_key_at (path : string) : fprog (result AuditKeyError ()) :=
  key_io (match path_parent path with
          | Some parent => there ← call (Exists parent); if there : bool then Ret (Ok tt) else call (CreateDirs parent OWNER_DIR)
          | None => Ret (Ok tt)
          end) (fun _ =>
  key_io (fill_random 32) (fun random =>
  key_io (call (CreateNew path OWNER_FILE)) (fun _ =>
  key_io (call (WriteAll path random)) (fun _ =>
  key_io (call (SyncAll path)) (fun _ =>
  key_io (call (WriteFile (pub_path path) (pub_text random))) (fun _ => Ret (Ok tt))))))).

Definition load_key (path : string) : fprog (result AuditKeyError AuditKey) :=
  key_io (call (Metadata path)) (fun raw =>
  let mode := N.land raw MODE_BITS in
  if negb (N.land mode OTHERS =? 0)%N then Ret (Err (UnsafePermissions mode))
  else
    key_io (call (ReadFile path)) (fun key_bytes =>
    if length key_bytes <? 32 then Ret (Err (KeyTooShort (length key_bytes)))
    else Ret (Ok (mkAuditKey CURRENT_KEY_ID (signing_from_bytes (take 32 key_bytes)))))).

Definition load_or_generate_at (path : string) : fprog (result AuditKeyError AuditKey) :=
  there ← call (Exists path);
  and_then id (if there : bool then Ret (Ok tt) else generate_key_at path) (fun _ => load_key path).

(** ** The store's files *)

Inductive OpenError : Type :=
| OpenIo (e : string)
| KeyLoadFailed (e : AuditKeyError)
| OpenFailed (e : StoreError).

Record TransactionStore : Type := mkTransactionStore { ts_path : string; ts_audit_key : option AuditKey }.

Definition ensure_private_dir (dir : string) : fprog (result string ()) :=
  there ← call (Exists dir); if there : bool then Ret (Ok tt) else call (CreateDirs dir OWNER_DIR).

Definition with_suffix (path suffix : string) : string := (path ++ suffix)%string.

(** [{mode:o}] *)
Fixpoint octal_go (fuel : nat) (n : N) : string :=
  match fuel with
  | O => ""
  | S fuel' => ((if (n <? 8)%N then "" else octal_go fuel' (n / 8)%N) ++ String (chr (48 + N.to_nat (n mod 8)%N)) "")%string
  end.
Definition octal (n : N) : string := octal_go (S (N.size_nat n)) n.

Definition narrow_warning (path : string) (mode : N) (err : string) : string :=
  ("[sysknife-daemon] WARNING: " ++ path ++ " is mode " ++ octal mode ++ " and could not be narrowed to 0600 (" ++ err
   ++ "); it is readable by anyone who can reach it. The parent directory should be 0700 — check it.")%string.

(** The body of the loop over a file and its mode. *)
Definition narrow (path : string) : fprog () :=
  metadata ← call (Metadata path);
  match metadata with
  | Err _ => Ret tt
  | Ok raw =>
      let mode := N.land raw MODE_BITS in
      if (N.land mode OTHERS =? 0)%N then Ret tt
      else
        narrowed ← call (SetMode path OWNER_FILE);
        match narrowed with
        | Ok _ => Ret tt
        | Err err =>
            call (Warn (narrow_warning path mode err))
        end
  end.

Definition sidecars (db_path : string) : list string := [db_path; with_suffix db_path "-wal"; with_suffix db_path "-shm"].
Definition restrict_db_file_mode (db_path : string) : fprog () := for_each (sidecars db_path) narrow.

(** The part the two ways to open share. *)
Definition open_as (path : string) (audit_key : option AuditKey) : fprog (result OpenError TransactionStore) :=
  and_then OpenIo (match path_parent path with Some parent => ensure_private_dir parent | None => Ret (Ok tt) end) (fun _ =>
  and_then OpenFailed (call (Initialize path)) (fun _ => Ret (Ok (mkTransactionStore path audit_key)))).

Definition open_read_only (path : string) : fprog (result OpenError TransactionStore) := open_as path None.

Definition open_with_key (path : string) (audit_key : AuditKey) : fprog (result OpenError TransactionStore) :=
  and_then id (open_as path (Some audit_key)) (fun store =>
  _ ← restrict_db_file_mode (ts_path store); Ret (Ok store)).

Definition open (env : environ) (path : string) : fprog (result OpenError TransactionStore) :=
  and_then KeyLoadFailed (load_or_generate_at (resolve_audit_key_path env path)) (fun key => open_with_key path key).
End Key.

(** ** What the file system does with a call

    A node has its mode; [umask] is the process'. A call fails whenever it likes, and a
    write that fails has written a prefix. *)

Inductive Node : Type := File (mode : N) (bs : bytes) | Dir (mode : N).
Abbreviation FS := (gmap string Node).

Definition node_mode (n : Node) : N := match n with File m _ | Dir m => m end.
Definition node_bytes (n : Node) : bytes := match n with File _ bs => bs | Dir _ => [] end.
Definition with_mode (mode : N) (n : Node) : Node := match n with File _ bs => File mode bs | Dir _ => Dir mode end.
Definition private (raw : N) : bool := (N.land (N.land raw MODE_BITS) OTHERS =? 0)%N.

(** The only change is new directories, at paths no longer than [dir]. *)
Definition dirs_added (dir : string) (fs fs' : FS) : Prop :=
  forall q, fs' !! q = fs !! q
    \/ fs !! q = None /\ (exists m, fs' !! q = Some (Dir m)) /\ String.length q <= String.length dir.

Definition fs_ok (umask : N) {X} (e : FsEffect X) (fs : FS) : X -> FS -> Prop :=
  match e in FsEffect X return X -> FS -> Prop with
  | Exists path => fun there fs' => fs' = fs /\ (there = true -> is_Some (fs !! path))
  | CreateDirs dir _ => fun _ fs' => dirs_added dir fs fs'
  | Urandom count => fun r fs' => fs' = fs /\ match r with Ok bs => length bs = count | Err _ => True end
  | CreateNew path mode => fun r fs' =>
      match r with
      | Ok _ => fs !! path = None /\ fs' = <[path := File (N.ldiff mode umask) []]> fs
      | Err _ => fs' = fs
      end
  | WriteAll path bs => fun r fs' =>
      exists m old k, fs !! path = Some (File m old) /\ fs' = <[path := File m (old ++ take k bs)]> fs
        /\ match r with Ok _ => k = length bs | Err _ => True end
  | SyncAll _ => fun _ fs' => fs' = fs
  | WriteFile path bs => fun r fs' =>
      match r with Err _ => fs' = fs | Ok _ => False end
      \/ (exists k, fs' = <[path := File (default (N.ldiff 438 umask) (node_mode <$> fs !! path)) (take k bs)]> fs
          /\ match r with Ok _ => k = length bs | Err _ => True end)
  | Metadata path => fun r fs' =>
      fs' = fs /\ match r with Ok raw => exists n, fs !! path = Some n /\ raw = node_mode n | Err _ => True end
  | ReadFile path => fun r fs' =>
      fs' = fs /\ match r with Ok bs => exists m, fs !! path = Some (File m bs) | Err _ => True end
  | SetMode path mode => fun r fs' =>
      match r with Ok _ => exists n, fs !! path = Some n /\ fs' = <[path := with_mode mode n]> fs | Err _ => fs' = fs end
  | Initialize path => fun _ fs' => forall q, q ∉ sidecars path -> fs' !! q = fs !! q
  | Warn _ => fun _ fs' => fs' = fs
  end.

(** The file system after a run. *)
Fixpoint fs_run (umask : N) (fs : FS) (tr : list (event FsEffect)) (fs' : FS) : Prop :=
  match tr with
  | [] => fs' = fs
  | ev :: tr' => exists fs1, fs_ok umask (ev_effect ev) fs (ev_answer ev) fs1 /\ fs_run umask fs1 tr' fs'
  end.

(** [I] at every point a program passes, [Q] at its end. *)
Fixpoint sat (umask : N) (I : FS -> Prop) {A} (Q : FS -> A -> Prop) (fs : FS) (p : fprog A) : Prop :=
  I fs /\
  match p with
  | Ret a => Q fs a
  | Vis e k => forall x fs', fs_ok umask e fs x fs' -> sat umask I Q fs' (k x)
  end.

Lemma sat_reached umask I {A} (Q : FS -> A -> Prop) fs p tr q fs' :
  sat umask I Q fs p -> reaches p tr q -> fs_run umask fs tr fs' ->
  I fs' /\ match q with Ret a => Q fs' a | Vis _ _ => True end.
Proof.
  intros Hs Hr. revert fs Hs. induction Hr as [p|X e k x tr q Hr IH]; intros fs Hs; cbn [fs_run].
  - intros ->. destruct p; cbn in Hs; tauto.
  - cbn in *. intros (fs1 & Hok & Hrun). destruct Hs as [_ Hs]. eapply IH; eauto.
Qed.

Lemma sat_bind umask I {A B} (Q : FS -> B -> Prop) (f : A -> fprog B) fs p :
  sat umask I (fun fs a => sat umask I Q fs (f a)) fs p -> sat umask I Q fs (p ≫= f).
Proof.
  revert fs. induction p as [a|X e k IH]; intros fs; cbn; [tauto|].
  intros [HI Hk]. split; [done|]. intros x fs' Hok. apply IH. by apply Hk.
Qed.

Lemma sat_call umask I {A X} (Q : FS -> A -> Prop) (e : FsEffect X) (k : X -> fprog A) fs :
  I fs -> (forall x fs', fs_ok umask e fs x fs' -> sat umask I Q fs' (k x)) -> sat umask I Q fs (call e ≫= k).
Proof. done. Qed.

Lemma sat_mono umask I {A} (Q Q' : FS -> A -> Prop) fs p :
  (forall fs a, Q fs a -> Q' fs a) -> sat umask I Q fs p -> sat umask I Q' fs p.
Proof.
  intros HQ. revert fs. induction p as [a|X e k IH]; intros fs; cbn; [intros [? ?]; auto|].
  intros [HI Hk]. split; [done|]. intros x fs' Hok. apply IH. by apply Hk.
Qed.

(** *** The parent of a path is shorter *)

Lemma str_take_length n s : String.length (str_take n s) <= n.
Proof. unfold str_take. revert n. induction s as [|c s IH]; intros [|n]; cbn; try lia. pose proof (IH n). lia. Qed.

Lemma bare_end_bare fuel s :
  String.length s <= fuel ->
  let r := bare_end fuel s in
  String.length r <= String.length s /\ (r = EmptyString \/ r = "/"%string \/ ends_with "/" r = false).
Proof.
  revert s. induction fuel as [|fuel IH]; intros s Hs; cbn [bare_end].
  - destruct s; cbn in *; [auto|lia].
  - destruct (String.eqb_spec s "/"); [auto|].
    destruct (ends_with "/" s) eqn:E; cbn [orb]; [|destruct (ends_with "/." s); [|auto]].
    1,2: pose proof (str_take_length (String.length s - 1) s);
      destruct (IH (str_take (String.length s - 1) s)) as [? ?]; [lia|]; split; [lia|done].
Qed.

Lemma trim_to_slash_shorter s :
  s <> EmptyString -> ends_with "/" s = false -> String.length (trim_end_while not_slash s) < String.length s.
Proof.
  induction s as [|c s IH]; [done|]. intros _ E.
  assert (Es : ends_with "/" s = false) by (cbn in E; apply orb_false_iff in E as [_ E]; exact E).
  destruct s as [|d s].
  - cbn. unfold not_slash. destruct (Ascii.eqb_spec c "/"); [subst; discriminate|]. cbn. lia.
  - pose proof (IH ltac:(done) Es) as IHs. cbn [trim_end_while] in *.
    destruct (match trim_end_while not_slash s with EmptyString => _ | t => _ end); [case_match|]; cbn in *; lia.
Qed.

Lemma parent_shorter path parent : path_parent path = Some parent -> String.length parent < String.length path.
Proof.
  unfold path_parent, bare_path. destruct (bare_end_bare (String.length path) path ltac:(lia)) as [Hle Hs].
  set (s := bare_end _ path) in *. destruct s as [|c s'] eqn:Es; [done|]. rewrite <-Es in *.
  destruct (String.eqb_spec s "/") as [|Hr]; [by rewrite orb_true_r|]. rewrite Es at 1. cbn [is_empty orb]. intros [= <-].
  destruct Hs as [Hs|[Hs|Hs]]; [congruence|done|].
  pose proof (trim_to_slash_shorter s ltac:(congruence) Hs) as Hlt.
  destruct (bare_end_bare (String.length (trim_end_while not_slash s)) (trim_end_while not_slash s) ltac:(lia)). lia.
Qed.

(** ** The audit key's theorems *)

Section KeyTheorems.
Context `{Crypto}.
Variable umask : N.

(** What [load_or_generate] has made of the two paths it names, the key's and the public
    key's, at some point. *)
Inductive key_stage (path : string) (fs0 fs : FS) : Prop :=
| untouched : fs !! path = fs0 !! path -> fs !! pub_path path = fs0 !! pub_path path -> key_stage path fs0 fs
| key_begun mode bs :
    fs0 !! path = None -> fs !! path = Some (File mode bs) -> private mode ->
    fs !! pub_path path = fs0 !! pub_path path -> key_stage path fs0 fs
| pub_begun mode random mode' k :
    fs0 !! path = None -> fs !! path = Some (File mode random) -> private mode -> length random = 32 ->
    fs !! pub_path path = Some (File mode' (take k (pub_text random))) -> key_stage path fs0 fs.

Definition key_elsewhere (path : string) (fs0 fs : FS) : Prop :=
  forall q, q <> path -> q <> pub_path path ->
    fs !! q = fs0 !! q \/ fs0 !! q = None /\ exists m, fs !! q = Some (Dir m).

Definition key_inv (path : string) (fs0 fs : FS) : Prop := key_stage path fs0 fs /\ key_elsewhere path fs0 fs.

(** What the key file holds, as [Signing.load_or_generate] takes it. *)
Definition file_of (fs : FS) (path : string) : option KeyFile := (fun n => (node_mode n, node_bytes n)) <$> fs !! path.

Definition key_result (path : string) (fs0 fs : FS) (r : result AuditKeyError AuditKey) : Prop :=
  r = Err KeyIo \/ exists random, length random = 32 /\ r = load_or_generate (file_of fs0 path) random
    /\ (fs0 !! path = None -> exists mode, fs !! path = Some (File mode random)).

Lemma owner_file_private : private (N.ldiff OWNER_FILE umask).
Proof.
  unfold private. apply Is_true_true, N.eqb_eq, N.bits_inj. intros i. rewrite !N.land_spec, N.ldiff_spec, N.bits_0.
  assert (E : N.testbit (N.land (N.land OWNER_FILE MODE_BITS) OTHERS) i = false) by apply N.bits_0.
  rewrite !N.land_spec in E. destruct (N.testbit OWNER_FILE i), (N.testbit MODE_BITS i), (N.testbit OTHERS i),
    (N.testbit umask i); done.
Qed.

Lemma pub_path_other path : pub_path path <> path.
Proof. intros E. apply (f_equal String.length) in E. unfold pub_path in E. rewrite length_str_app in E. cbn in E. lia. Qed.

Lemma pristine path fs : key_inv path fs fs.
Proof. split; [by apply untouched|by left]. Qed.

(** Loading a file that is there: the random bytes play no part. *)
Definition loaded (n : Node) : result AuditKeyError AuditKey := load_or_generate (Some (node_mode n, node_bytes n)) [].

Lemma loaded_eq n :
  loaded n =
  if negb (N.land (N.land (node_mode n) MODE_BITS) OTHERS =? 0)%N then Err (UnsafePermissions (N.land (node_mode n) MODE_BITS))
  else if length (node_bytes n) <? 32 then Err (KeyTooShort (length (node_bytes n)))
  else Ok (mkAuditKey CURRENT_KEY_ID (signing_from_bytes (take 32 (node_bytes n)))).
Proof. reflexivity. Qed.

(** A key just written loads as one [Signing.load_or_generate] makes. *)
Lemma fresh_key_loads mode random :
  private mode -> length random = 32 -> loaded (File mode random) = load_or_generate None random.
Proof.
  unfold private. intros Hm%Is_true_true Hr. rewrite loaded_eq. cbn [node_mode node_bytes].
  change (load_or_generate None random) with (loaded (File OWNER_FILE random)). rewrite loaded_eq. cbn [node_mode node_bytes].
  by rewrite Hm, Hr.
Qed.

(** Loading changes nothing. *)
Lemma load_key_sat (I : FS -> Prop) path fs :
  I fs ->
  sat umask I (fun fs' r => fs' = fs /\ (r = Err KeyIo \/ exists n, fs !! path = Some n /\ r = loaded n)) fs
    (load_key path).
Proof.
  intros HI. unfold load_key, key_io, and_then. apply sat_call; [done|]. intros [raw|e] fs' [-> Hraw]; [|cbn; by auto].
  destruct Hraw as (n & Hn & ->).
  destruct (negb (N.land (N.land (node_mode n) MODE_BITS) OTHERS =? 0)%N) eqn:Em.
  { split_and!; [done|done|]. right. exists n. split; [done|]. by rewrite loaded_eq, Em. }
  apply sat_call; [done|]. intros [bs|e] fs' [-> Hbs]; [|cbn; by auto].
  destruct Hbs as (m & Hm). assert (n = File m bs) as -> by congruence.
  destruct (length bs <? 32) eqn:El;
    (split_and!; [done|done|]; right; exists (File m bs); split; [done|]; rewrite loaded_eq, Em; cbn [node_bytes]; by rewrite El).
Qed.

(** Adding the parent's directories touches neither path. *)
Lemma parent_dirs_keep path parent fs0 fs fs' :
  path_parent path = Some parent -> dirs_added parent fs fs' ->
  fs !! path = fs0 !! path -> fs !! pub_path path = fs0 !! pub_path path -> key_elsewhere path fs0 fs ->
  fs' !! path = fs0 !! path /\ fs' !! pub_path path = fs0 !! pub_path path /\ key_elsewhere path fs0 fs'.
Proof.
  intros Hp%parent_shorter Hd E1 E2 He.
  assert (Hlen : String.length parent < String.length (pub_path path)).
  { unfold pub_path. rewrite length_str_app. lia. }
  split_and!.
  - destruct (Hd path) as [->|(_ & _ & ?)]; [done|lia].
  - destruct (Hd (pub_path path)) as [->|(_ & _ & ?)]; [done|lia].
  - intros q Hq Hq'. destruct (Hd q) as [->|(En & Hm & _)]; [by apply He|]. right. split; [|done].
    destruct (He q Hq Hq') as [<-|[? _]]; done.
Qed.

(** A store at one of the two paths leaves the others alone. *)
Lemma elsewhere_insert path fs0 fs q n :
  q = path \/ q = pub_path path -> key_elsewhere path fs0 fs -> key_elsewhere path fs0 (<[q := n]> fs).
Proof. intros Hq He p Hp Hp'. rewrite lookup_insert_ne by (destruct Hq; congruence). by apply He. Qed.

(** What [generate_key_at] leaves when it says the key is written. *)
Definition generated (path : string) (fs0 fs : FS) (r : result AuditKeyError ()) : Prop :=
  key_inv path fs0 fs /\
  (r = Err KeyIo \/ r = Ok tt /\ fs0 !! path = None /\ exists mode random,
     private mode /\ length random = 32 /\ fs !! path = Some (File mode random)).

(** The steps after the key's file is created. *)
Lemma key_written_sat path fs0 random fs :
  fs0 !! path = None -> length random = 32 ->
  fs !! path = Some (File (N.ldiff OWNER_FILE umask) []) -> fs !! pub_path path = fs0 !! pub_path path ->
  key_elsewhere path fs0 fs ->
  sat umask (key_inv path fs0) (generated path fs0) fs
    (key_io (call (WriteAll path random)) (fun _ => key_io (call (SyncAll path)) (fun _ =>
     key_io (call (WriteFile (pub_path path) (pub_text random))) (fun _ => Ret (Ok tt))))).
Proof.
  intros H0 Hr E1 E2 He. pose proof owner_file_private as Hp. set (mode := N.ldiff OWNER_FILE umask) in *.
  unfold key_io, and_then. apply sat_call; [by split; [eapply key_begun|]|]. intros r fs1 (m & old & k & Hold & -> & Hk).
  assert (m = mode /\ old = []) as [-> ->] by (split; congruence). clear Hold. cbn [app] in *.
  assert (F1 : <[path := File mode (take k random)]> fs !! path = Some (File mode (take k random))) by apply lookup_insert_eq.
  assert (F2 : <[path := File mode (take k random)]> fs !! pub_path path = fs0 !! pub_path path).
  { rewrite lookup_insert_ne; [done|]. apply not_eq_sym, pub_path_other. }
  assert (Fe := elsewhere_insert path fs0 fs path (File mode (take k random)) (or_introl eq_refl) He).
  set (fs1 := <[path := _]> fs) in *. clearbody fs1.
  assert (HI : key_inv path fs0 fs1) by (split; [by eapply key_begun|done]).
  destruct r as [[]|e]; [|cbn; unfold generated; by auto].
  subst k. rewrite firstn_all in F1.
  apply sat_call; [done|]. intros [[]|e] fs2 ->; [|cbn; unfold generated; by auto].
  apply sat_call; [done|]. intros r fs3 Hw.
  assert (HI' : key_inv path fs0 fs3 /\ fs3 !! path = Some (File mode random)).
  { destruct Hw as [Hw|(k & -> & _)]; [destruct r; [done|by subst fs3]|].
    rewrite lookup_insert_ne by apply pub_path_other. split; [|done]. split.
    - eapply pub_begun; [done| |done|done|apply lookup_insert_eq]. by rewrite lookup_insert_ne by apply pub_path_other.
    - apply elsewhere_insert; auto. }
  destruct HI' as [HI' F3]. destruct r as [[]|e]; cbn; unfold generated; [|by auto].
  split; [done|]. split; [done|]. right. split_and!; [done..|]. by exists mode, random.
Qed.

(** Neither path has changed yet. *)
Definition kept (path : string) (fs0 fs : FS) : Prop :=
  fs !! path = fs0 !! path /\ fs !! pub_path path = fs0 !! pub_path path /\ key_elsewhere path fs0 fs.

Lemma kept_refl path fs : kept path fs fs.
Proof. repeat split. by left. Qed.
Lemma kept_inv path fs0 fs : kept path fs0 fs -> key_inv path fs0 fs.
Proof. intros (E1 & E2 & He). split; [by apply untouched|done]. Qed.

Lemma parent_sat path fs0 :
  sat umask (key_inv path fs0) (fun fs (_ : result string ()) => kept path fs0 fs) fs0
    (match path_parent path with
     | Some parent => there ← call (Exists parent); if there : bool then Ret (Ok tt) else call (CreateDirs parent OWNER_DIR)
     | None => Ret (Ok tt)
     end).
Proof.
  pose proof (kept_refl path fs0) as Hk. pose proof (kept_inv path fs0 fs0 Hk) as Hi.
  destruct (path_parent path) as [parent|] eqn:Ep; [|by split].
  apply sat_call; [done|]. intros [|] fs' [-> _]; [by split|].
  split; [done|]. intros r fs' Hd. destruct Hk as (E1 & E2 & He).
  pose proof (parent_dirs_keep path parent fs0 fs0 fs' Ep Hd E1 E2 He) as Hk'.
  split; [by apply kept_inv|exact Hk'].
Qed.

Lemma generate_key_at_sat path fs0 : sat umask (key_inv path fs0) (generated path fs0) fs0 (generate_key_at path).
Proof.
  unfold generate_key_at. unfold key_io at 1, and_then at 1. apply sat_bind.
  eapply sat_mono, parent_sat. cbn beta. intros fs r Hk. pose proof (kept_inv path fs0 fs Hk) as Hi.
  destruct r as [[]|e]; [|split; [done|]; unfold generated; by auto].
  unfold key_io at 1, and_then at 1, fill_random. apply sat_call; [done|].
  intros [random|e] fs' [-> Hr]; [|split; [done|]; unfold generated; by auto].
  unfold key_io at 1, and_then at 1. apply sat_call; [done|].
  intros [[]|e] fs' Hc; cbn in Hc; [|subst fs'; split; [done|]; unfold generated; by auto].
  destruct Hc as [En ->]. destruct Hk as (E1 & E2 & He). apply key_written_sat; [congruence|done|apply lookup_insert_eq| |].
  - by rewrite lookup_insert_ne by apply not_eq_sym, pub_path_other.
  - apply elsewhere_insert; auto.
Qed.

(** The file system along and after [load_or_generate]. *)
Lemma load_or_generate_sat path fs0 :
  sat umask (key_inv path fs0) (fun fs r => key_inv path fs0 fs /\ key_result path fs0 fs r) fs0 (load_or_generate_at path).
Proof.
  pose proof (pristine path fs0) as Hi. unfold load_or_generate_at, and_then. apply sat_call; [done|]. intros [|] fs' [-> Hx].
  - change (sat umask (key_inv path fs0) (fun fs r => key_inv path fs0 fs /\ key_result path fs0 fs r) fs0 (load_key path)).
    eapply sat_mono, load_key_sat; [|done]. intros fs r [-> Hr]. split; [done|].
    destruct Hr as [->|(n & Hn & ->)]; [by left|]. right. exists (replicate 32 NUL). split_and!; [done| |congruence].
    unfold file_of. by rewrite Hn.
  - apply sat_bind. eapply sat_mono, generate_key_at_sat. intros fs [[]|e] [Hinv Hgen].
    + destruct Hgen as [?|(_ & H0 & mode & random & Hp & Hr & Hf)]; [done|].
      eapply sat_mono, load_key_sat; [|done]. intros fs' r [-> Hr']. split; [done|].
      destruct Hr' as [->|(n & Hn & ->)]; [by left|]. right. exists random.
      assert (n = File mode random) as -> by congruence. split_and!; [done| |eauto].
      unfold file_of. rewrite H0. by apply fresh_key_loads.
    + destruct Hgen as [[= ->]|[? _]]; [|done]. split; [done|]. split; [done|]. by left.
Qed.
(** C28: [AuditKey::load_or_generate], wherever it is stopped: a key that was there is as it was,
    and so is its [.pub]; a key it makes is never open to anyone but the owner, whatever the
    umask; the [.pub] is only ever written once the whole key is in its file, and with a
    prefix of that key's public half; and no other path changes, but for directories made. *)
Theorem key_files_stay_private path fs0 tr q fs :
  reaches (load_or_generate_at path) tr q -> fs_run umask fs0 tr fs ->
  (forall n, fs0 !! path = Some n -> fs !! path = Some n /\ fs !! pub_path path = fs0 !! pub_path path)
  /\ (fs0 !! path = None ->
      (fs !! path = None \/ exists mode bs, fs !! path = Some (File mode bs) /\ private mode)
      /\ (fs !! pub_path path = fs0 !! pub_path path
          \/ exists mode random mode' k, fs !! path = Some (File mode random) /\ length random = 32
             /\ fs !! pub_path path = Some (File mode' (take k (pub_text random)))))
  /\ key_elsewhere path fs0 fs.
Proof.
  intros Hr Hf. destruct (sat_reached _ _ _ _ _ _ _ _ (load_or_generate_sat path fs0) Hr Hf) as [[Hs He] _].
  split_and!; [| |done].
  - intros n Hn. destruct Hs; [split; congruence|congruence..].
  - intros Hn. destruct Hs as [-> ->|mode bs _ -> Hp ->|mode random mode' k _ -> Hp Hl ->]; split; eauto 9.
Qed.

(** [Signing.load_or_generate], of which the audit chain's theorems are, is what
    [AuditKey::load_or_generate] does with the file system: unless a call fails, it answers
    from the key file it found, or from the random bytes it left in the file. *)
Theorem key_loading_refines path fs0 tr r fs :
  runs (load_or_generate_at path) tr r -> fs_run umask fs0 tr fs -> key_result path fs0 fs r.
Proof.
  intros Hr%reaches_runs Hf.
  by destruct (sat_reached _ _ _ _ _ _ _ _ (load_or_generate_sat path fs0) Hr Hf) as [_ [_ ?]].
Qed.

(** A key file cut short, by a crash between its creation and its last byte, is not
    made again: every later load fails. *)
Theorem cut_key_never_loads path fs0 tr r fs mode bs :
  fs0 !! path = Some (File mode bs) -> length bs < 32 ->
  runs (load_or_generate_at path) tr r -> fs_run umask fs0 tr fs -> exists e, r = Err e.
Proof.
  intros E0 Hlen Hr%reaches_runs Hf.
  destruct (sat_reached _ _ _ _ _ _ _ _ (load_or_generate_sat path fs0) Hr Hf) as [_ [_ [->|(random & _ & -> & _)]]]; [eauto|].
  unfold file_of. rewrite E0. change (exists e, loaded (File mode bs) = Err e). rewrite loaded_eq. cbn [node_bytes].
  case_match; [eauto|]. apply Nat.ltb_lt in Hlen. rewrite Hlen. eauto.
Qed.
End KeyTheorems.

(** ** The store's files *)

Section StoreTheorems.
Variable umask : N.

Definition narrow_failed (path : string) (tr : list (event FsEffect)) : Prop :=
  (exists err, mkEvent _ (Metadata path) (Err err) ∈ tr)
  \/ exists mode err, mkEvent _ (Warn (narrow_warning path mode err)) tt ∈ tr.

Definition closed (fs : FS) (path : string) : Prop := forall n, fs !! path = Some n -> private (node_mode n).

(** [fs'] is [fs] with some nodes narrowed. *)
Definition narrowed (fs fs' : FS) : Prop :=
  forall p, fs' !! p = fs !! p \/ exists n, fs !! p = Some n /\ fs' !! p = Some (with_mode OWNER_FILE n).

Lemma closed_narrowed fs fs' p : narrowed fs fs' -> closed fs p -> closed fs' p.
Proof.
  intros Hn Hc n E. destruct (Hn p) as [Ep|(m & Em & Ep)]; [apply Hc; congruence|].
  rewrite Ep in E. injection E as <-. by destruct m.
Qed.

Lemma narrow_spec path tr fs fs' :
  runs (narrow path) tr tt -> fs_run umask fs tr fs' ->
  narrowed fs fs' /\ (forall p, p <> path -> fs' !! p = fs !! p) /\ (closed fs' path \/ narrow_failed path tr).
Proof.
  assert (Hsame : narrowed fs fs) by (by left).
  intros Hr Hf. apply runs_inv in Hr as (meta & tr1 & -> & Hr). destruct Hf as (fs1 & [-> Hm] & Hf). cbn in Hm, Hr.
  destruct meta as [raw|err].
  2: { apply runs_inv in Hr as [-> _]. cbn in Hf. subst fs'. split_and!; [done|done|]. right. left. exists err. by left. }
  destruct Hm as (n & Hn & ->). destruct (N.land (N.land (node_mode n) MODE_BITS) OTHERS =? 0)%N eqn:Ep.
  { apply runs_inv in Hr as [-> _]. cbn in Hf. subst fs'. split_and!; [done|done|]. left. intros n' E'.
    assert (n' = n) as -> by congruence. unfold private. by rewrite Ep. }
  apply runs_inv in Hr as (set & tr2 & -> & Hr). destruct Hf as (fs1 & Hset & Hf). cbn in Hset, Hr. destruct set as [[]|err].
  - apply runs_inv in Hr as [-> _]. cbn in Hf. subst fs'. destruct Hset as (n' & Hn' & ->).
    assert (n' = n) as -> by congruence. split_and!.
    + intros p. destruct (decide (p = path)) as [->|]; [right|left; by rewrite lookup_insert_ne].
      exists n. by rewrite lookup_insert_eq.
    + intros p Hp. by rewrite lookup_insert_ne.
    + left. intros m. rewrite lookup_insert_eq. intros [= <-]. by destruct n.
  - subst fs1. apply runs_inv in Hr as (u & tr3 & -> & Hr). apply runs_inv in Hr as [-> _].
    destruct Hf as (fs2 & -> & Hf). cbn in Hf. subst fs'. split_and!; [done|done|]. right. right. destruct u.
    exists (N.land (node_mode n) MODE_BITS), err. right. right. by left.
Qed.

Lemma fs_run_app fs tr tr' fs' : fs_run umask fs (tr ++ tr') fs' <-> exists fs1, fs_run umask fs tr fs1 /\ fs_run umask fs1 tr' fs'.
Proof.
  revert fs. induction tr as [|ev tr IH]; intros fs; cbn.
  - split; [by eauto|]. intros (? & -> & ?). done.
  - split.
    + intros (fs1 & Hok & (fs2 & H1 & H2)%IH). eauto.
    + intros (fs2 & (fs1 & Hok & H1) & H2). exists fs1. split; [done|]. apply IH. eauto.
Qed.

Lemma narrowed_trans fs1 fs2 fs3 : narrowed fs1 fs2 -> narrowed fs2 fs3 -> narrowed fs1 fs3.
Proof.
  intros H1 H2 p. destruct (H2 p) as [->|(n & En & ->)]; [apply H1|]. right.
  destruct (H1 p) as [<-|(m & Em & Ep)]; [eauto|]. exists m. split; [done|].
  rewrite Ep in En. injection En as <-. by destruct m.
Qed.

Lemma narrow_failed_mono path tr tr' : tr ⊆ tr' -> narrow_failed path tr -> narrow_failed path tr'.
Proof. intros Hs [(err & H)|(mode & err & H)]; [left|right]; eauto. Qed.

Lemma narrow_all paths tr fs fs' :
  runs (for_each paths narrow) tr tt -> fs_run umask fs tr fs' ->
  narrowed fs fs' /\ (forall p, p ∉ paths -> fs' !! p = fs !! p)
  /\ (forall p, p ∈ paths -> closed fs' p \/ narrow_failed p tr).
Proof.
  revert tr fs. induction paths as [|path paths IH]; intros tr fs Hr Hf.
  - apply runs_inv in Hr as [-> _]. cbn in Hf. subst fs'. split_and!; [by left|done|by intros ? ?%not_elem_of_nil].
  - cbn [for_each] in Hr. apply runs_bind in Hr as (t & t' & [] & -> & Hn & Hr).
    apply fs_run_app in Hf as (fs1 & Hf1 & Hf2).
    destruct (narrow_spec _ _ _ _ Hn Hf1) as (N1 & O1 & C1). destruct (IH _ _ Hr Hf2) as (N2 & O2 & C2). split_and!.
    + by eapply narrowed_trans.
    + intros p [Hp Hps]%not_elem_of_cons. rewrite O2 by done. by apply O1.
    + intros p [->|Hp]%elem_of_cons.
      * destruct C1 as [C1|C1]; [left; by eapply closed_narrowed|right]. eapply narrow_failed_mono, C1. apply list_subseteq_app_l, reflexivity.
      * destruct (C2 p Hp) as [|C]; [by left|right]. eapply narrow_failed_mono, C. apply list_subseteq_app_r, reflexivity.
Qed.

(** [restrict_db_file_mode] leaves each of the database's three files absent or the owner's
    alone, or its metadata could not be read, or the operator was warned of it by name. A
    mode is only ever narrowed, and no other path and no byte changes. *)
Theorem database_files_are_narrowed db_path tr fs fs' :
  runs (restrict_db_file_mode db_path) tr tt -> fs_run umask fs tr fs' ->
  narrowed fs fs' /\ (forall p, p ∉ sidecars db_path -> fs' !! p = fs !! p)
  /\ (forall p, p ∈ sidecars db_path -> closed fs' p \/ narrow_failed p tr).
Proof. apply narrow_all. Qed.
End StoreTheorems.


(** ** At work *)

Module KeySample.
Definition key_path : string := "/v/key".
Definition fs0 : FS := {["/v" := Dir OWNER_DIR]}.
Definition random : bytes := replicate 32 NUL.

Section Runs.
Context `{Crypto}.

(** The public key's file cannot be written. *)
Definition fs1 : FS := <["/v/key" := File OWNER_FILE random]> fs0.
Definition generating : list (event FsEffect) :=
  [ mkEvent _ (Exists key_path) false; mkEvent _ (Exists "/v") true; mkEvent _ (Urandom 32) (Ok random);
    mkEvent _ (CreateNew key_path OWNER_FILE) (Ok tt); mkEvent _ (WriteAll key_path random) (Ok tt);
    mkEvent _ (SyncAll key_path) (Ok tt); mkEvent _ (WriteFile (pub_path key_path) (pub_text random)) (Err "No space left on device") ].
Definition loading : list (event FsEffect) :=
  [ mkEvent _ (Exists key_path) true; mkEvent _ (Metadata key_path) (Ok OWNER_FILE);
    mkEvent _ (ReadFile key_path) (Ok random) ].

Lemma generating_runs : runs (load_or_generate_at key_path) generating (Err KeyIo).
Proof. repeat constructor. Qed.
Lemma loading_runs : exists key, runs (load_or_generate_at key_path) loading (Ok key).
Proof. eexists. repeat constructor. Qed.

Lemma generating_fs : fs_run 18 fs0 generating fs1.
Proof.
  exists fs0. split; [split; [done|intros [=]]|]. exists fs0. split; [split; [done|intros _; by exists (Dir OWNER_DIR)]|].
  exists fs0. split; [split; reflexivity|]. exists (<["/v/key" := File OWNER_FILE []]> fs0). split; [split; reflexivity|].
  exists fs1. split.
  { exists OWNER_FILE, [], 32%nat. split; [apply lookup_insert_eq|]. split; [|done].
    cbn [app]. rewrite insert_insert_eq. reflexivity. }
  exists fs1. split; [done|]. exists fs1. split; [by left|]. reflexivity.
Qed.

Lemma loading_fs : fs_run 18 fs1 loading fs1.
Proof.
  assert (E : fs1 !! key_path = Some (File OWNER_FILE random)) by apply lookup_insert_eq.
  exists fs1. split; [split; [done|cbn; by eauto]|]. exists fs1. split; [split; [done|cbn; by eauto]|].
  exists fs1. split; [split; [done|cbn; by eauto]|]. reflexivity.
Qed.

(** The start that failed to write the public key left the key: the next start loads it,
    and nothing writes the [.pub] then. *)
Example lost_pub_stays_lost :
  exists key, runs (load_or_generate_at key_path) generating (Err KeyIo) /\ fs_run 18 fs0 generating fs1
    /\ runs (load_or_generate_at key_path) loading (Ok key) /\ fs_run 18 fs1 loading fs1
    /\ fs1 !! pub_path key_path = None.
Proof.
  destruct loading_runs as [key Hl]. exists key.
  split_and!; [apply generating_runs|apply generating_fs|done|apply loading_fs|reflexivity].
Qed.

(** A key its owner may execute is taken, with a mode beyond 0600. *)
Example owner_execute_is_taken :
  exists key, load_or_generate (Some (448%N, random)) [] = Ok key.
Proof. eexists. reflexivity. Qed.

End Runs.

Lemma key_files_stay_private_witness :
  fs0 !! key_path = None /\
  (fs1 !! key_path = None \/ exists mode bs, fs1 !! key_path = Some (File mode bs) /\ private mode).
Proof.
  split; [reflexivity|].
  exact (proj1 (proj1 (proj2 (key_files_stay_private 18 key_path fs0 (@generating Toy.crypto) (Ret (Err KeyIo)) fs1
    (proj1 (reaches_runs _ _ _) generating_runs) generating_fs)) eq_refl)).
Defined.
End KeySample.
